(* ===== verification/_CoqProject ===== *)
-Q . S2P
Prelude.v
Firmware.v
Chars.v
Strs.v
Text.v
OwnedStrs.v
Path.v
MemoryMap.v
MemoryMapSort.v
DevicePath.v
DevicePathNodes.v
DevicePathBuild.v
DevicePathBuildNodes.v
NodeGen.v
NodeSpec.v
NodeGenSem.v
NodeGenCorrect.v
NodeGenRoundtrip.v
CheckRaw.v
Status.v
Time.v
BootMemory.v
AlignedBuffer.v
Scsi.v
Nvme.v
Ata.v
LoadedImage.v
BootProtocols.v
GlobalHeap.v
Guards.v
Runtime.v
BootExit.v
BootEvents.v
FileInfo.v
File.v
FileSystem.v
Volume.v
VolumeErrors.v
Directories.v
FileSession.v
MemVolume.v
Tcg.v
Pxe.v
Gop.v
Console.v
Inert.v
ComponentName.v
Collation.v
Pci.v
Media.v
Usb.v
Snp.v
Mp.v
Debug.v
Security.v
Misc.v
DevicePathText.v
System.v
Ip4Config2.v
Http.v
Logger.v
Helpers.v
