(* ===== verification/Prelude.v ===== *)
(** * A verification of the uefi-rs library

    uefi-rs is a Rust interface to UEFI firmware: the crate [uefi-raw]
    ([src/uefi-raw]) declares the firmware's tables and data layouts, the crate
    [uefi] ([src/uefi]) wraps them in a safe interface.  This library translates
    the part of both crates that carries logic of its own into executable
    definitions and proves what makes it correct.

    ** Parts of the program and where they are modelled

    Paths of sources are relative to [src/uefi/src] unless they name a crate.

    Values that the library computes with:
    - [Chars]: [Char8], [Char16] and their conversions
      ([data_types/chars.rs]);
    - [Strs], [OwnedStrs]: [CStr8], [CStr16], [UnalignedSlice] and [CString16]
      ([data_types/strs.rs], [unaligned_slice.rs], [owned_strs.rs]);
    - [Text]: what the library uses of Rust's [str]: UTF-8, splitting, numbers;
    - [Path]: [Path], [PathBuf], their components and validation
      ([fs/path/*.rs]);
    - [Status]: status codes, [Error], [StatusExt], [ResultExt], [Align] and
      [make_boxed] ([uefi-raw/src/status.rs], [result/*.rs],
      [data_types/mod.rs], [mem/util.rs]);
    - [Time]: dates and times ([uefi-raw/src/time.rs], [runtime.rs]).

    Data that the firmware lays out in memory:
    - [MemoryMap], [MemoryMapSort]: the memory map over a raw buffer, its
      iterator, in-place sort and mutation ([mem/memory_map/*.rs]);
    - [DevicePath], [DevicePathNodes]: device paths, their iterators and the 54
      generated node types ([proto/device_path/mod.rs], [device_path_gen.rs]);
    - [DevicePathBuild], [DevicePathBuildNodes]: the builder and the generated
      build nodes ([proto/device_path/build.rs], [device_path_gen.rs]);
    - [FileInfo]: the dynamically sized file information structs
      ([proto/media/file/info.rs]);
    - [Tcg]: measured events and the two event logs ([proto/tcg/v1.rs], [v2.rs]).

    Services of the boot and runtime tables ([boot.rs], [runtime.rs]):
    - [BootMemory], [GlobalHeap]: pages, pools, the retrieval of the memory map, the
      global allocator ([allocator.rs]), and [make_boxed] on top of it;
    - [BootProtocols], [Guards], [LoadedImage]: handles, protocols and their
      guards, [get_image_file_system], the loaded image;
    - [BootEvents]: priority levels, events, timers, images, configuration tables;
    - [BootExit]: leaving the boot services, [exit] and [reset];
    - [Runtime]: time, variables, capsules;
    - [System], [Logger], [Helpers]: the system table and [print!]
      ([table/mod.rs], [system.rs], [helpers/println.rs]), the decoration of log
      records ([helpers/logger.rs]), and the logger as a backend of the crate [log],
      its initialisation and the panic handler ([helpers/mod.rs],
      [helpers/panic_handler.rs]).

    Protocols (under [proto]):
    - [File], [FileSystem]: files and directories ([media/file/*.rs]) and the
      high-level file system over them ([fs/file_system/*.rs],
      [fs/dir_entry_iter.rs]); [Volume], [VolumeErrors], [Directories], [FileSession],
      [MemVolume]: the specification of a volume as a tree, the proof that
      [FileSystem] implements the tree operations on it, its errors, reading
      directories and removing them with everything below them, sessions of operations
      as a transition system on trees that [FileSystem] refines, and a volume in
      memory that meets the specification;
    - [AlignedBuffer], [Scsi], [Nvme], [Ata]: pass-through requests with the
      ownership of their buffers, and the enumeration of devices;
    - [Gop], [Console]: graphics output, text input and output, serial lines and
      pointers;
    - [Pxe], [Snp], [Ip4Config2], [Http]: networks, with the download loop of the
      test runner ([uefi-test-runner/src/proto/network/http.rs]);
    - [DevicePathText]: text and utilities protocols of device paths, with the pool
      memory they return;
    - [ComponentName]: names of drivers, with the search of the test runner
      ([uefi-test-runner/src/proto/driver.rs]);
    - [Collation], [Pci], [Media], [Usb], [Mp], [Debug], [Security], [Misc]: string
      collation; the PCI root bridge; block devices, disks, files to load and
      partitions; USB; multiprocessing; debugging; random numbers, the shim lock and
      memory protection; timestamps, reset notifications and shell parameters.

    Tools of the build (under [src/xtask/src]):
    - [NodeGen]: the generator of the device path nodes, its parser of the
      specification and the code it emits, as trees ([device_path/field.rs],
      [node.rs], [group.rs], [mod.rs], [util.rs]); [NodeSpec]: the specification
      itself ([device_path/spec.rs]) and the packed structs emitted from it
      ([uefi-raw/src/protocol/device_path/device_path_gen.rs]); [NodeGenSem]: what
      the emitted code means; [NodeGenCorrect], [NodeGenRoundtrip]: the theorems;
    - [CheckRaw]: the checker of the definitions of [uefi-raw] ([check_raw.rs]).

    [Inert] holds services that always fail, from which the machines of the
    witnesses are put together.

    They interact as in the source: paths are C strings; the file system parses
    and validates paths, opens handles through [File], and boxes the information
    structs through [make_boxed] and the allocator; the owned memory map lives in a
    pool block that [BootMemory] allocates and is read and sorted by [MemoryMap];
    the allocator asks [BootProtocols] for the loaded image; [Http], [ComponentName]
    and [DevicePathText] open protocols through the guards of [BootProtocols];
    [Ip4Config2] stalls through [BootEvents] and prints through [System], which
    prints through [Console], as the logger and the panic handler do.  The generator is
    run on [NodeSpec] and what it emits is compared with the node types of
    [DevicePathNodes] and [DevicePathBuildNodes], which are translated from the code
    that is checked in.

    ** How Rust is modelled

    This file holds the shared vocabulary.  A computation has an [outcome]: it
    returns ([Ret]), panics ([Panic], with the cause), does something Rust leaves
    undefined ([Undefined]: a raw read or write outside its allocation, a
    misaligned reference, a use of uninitialised memory), or the model's fuel
    ran out ([NoFuel]).  [Result] is [result]; [let!] and [let?] sequence
    outcomes and the [?] operator.  Machine integers are [Z] with their width
    written out; [usize] has 64 bits.  The class [Profile] says whether overflow
    panics (debug) or wraps (release), and theorems hold for both unless they
    name one.  A buffer is its address and its bytes where alignment matters, else
    its bytes.  Values that the source drops are dropped by an explicit call at the
    same place, on every path out of a function.

    [Firmware] adds the state [W] of the machine: [fw W A] is a computation that
    may change it, [call] a call of the firmware, and [runs m w Q] says that [m]
    returns from [w] with a result and a state in [Q].  What belongs to the firmware
    is never defined here: function tables are classes over an abstract [W], one for
    each table or protocol ([BootServices], [ProtocolServices], [FileProtocol],
    [PciServices] and so on), and the heap that [make_boxed] uses is the class
    [Allocator].  What the UEFI specification documents of them is stated as classes
    of laws, on which the theorems depend explicitly: [MemoryLaws], [MapLaws],
    [ProtocolLaws], [GuardLaws], [EventLaws], [ExitLaws], [VariableLaws],
    [ResourceLaws], [VolumeLaws], [DirectoryLaws], [AllocatorLaws], [HeapLaws], [ModeLaws],
    [PrinterLaws], [HelperLaws], [ScsiLaws], [NvmeLaws], [AtaLaws], [Ip4Laws], [HttpLaws] with the
    replies of the sites in [HttpSpec], [TextLaws], [NameLaws], [CollationLaws],
    [PciLaws], [LoadLaws], [UsbLaws], [DebugLaws] and [ProtectionLaws].  Each is met
    by a concrete machine in the same file, or in [MemVolume] for volumes, on which
    the witnesses run.  The laws let a call fail wherever the specification does;
    what is held (blocks, open protocols, child handles) is a ledger that they say
    how calls change, so that a theorem can state that nothing leaks.

    Code of other crates is a parameter: the encoder of [ucs2], the crate [log], the
    parser of floating point numbers, the tables of [str::to_lowercase] outside ASCII,
    what the generator uses of [syn] and [heck] (class [Crates], with the laws
    [CrateLaws]) and the positions of syntax in its file (class [Spans]).

    ** What the theorems show

    - Memory map: [sort] terminates without leaving the buffer and sorts a
      permutation of the entries; construction, access, iteration and mutation
      agree with the list of descriptors.
    - Device paths: parsing accepts exactly the well-formed paths and never reads
      outside its input, every node type read by [as_enum] gives its fields,
      building and parsing are inverse, for every build node; appending through the
      firmware gives the nodes of both paths and leaks nothing.
    - Strings and paths: each constructor accepts exactly its documented inputs
      and locates the first error; mutations keep the invariant; components,
      [parent], [push] and validation agree with splitting at separators.
    - Memory services: an allocation is aligned, inside a block of its own apart
      from all others, and freeing it frees exactly that block, on all three
      strategies of the allocator; data is boxed in one new block, or none after an
      error; [memory_map] never panics on firmware that
      adds at most eight entries; [exit_boot_services] refines a protocol of two
      attempts.
    - Protocols and events: every guard closes what it opened on every path; an
      event is created, signalled, waited for and closed as documented, with the
      priority level restored.
    - Variables: what was set is read back; the key iterator is complete.
    - Files: chunked reads equal one read; information structs round-trip.  The
      file system leaks no handle and no heap block however the firmware
      fails, and on a volume that keeps the laws each operation has the effect on
      the tree that its name promises; write then read is the identity.  Reading
      a directory ends and gives each entry once; [remove_dir_all] terminates and
      takes out exactly the subtree, although it deletes while it is reading.
      Operations on invalid, missing and wrong paths report it and change nothing.
      A sequence of operations of any length refines the same sequence on the tree and
      keeps the tree well formed.
    - Event logs: iteration terminates and yields the encoded events; headers from
      arbitrary bytes are parsed without a fault.
    - Pass-through: a session that builds and executes a request is never undefined,
      frees what it allocated, and moves exactly the data asked for; enumerations
      are complete.
    - Consoles: transfers stay inside their buffers; text is printed whole, with
      carriage returns; log lines are annotated, and logging never panics; the
      panic handler prints and switches the machine off.
    - Networks: a download gives the whole body and leaves nothing open; an
      interface comes up in the second its address is assigned; directory listings
      and discovery packets round-trip.
    - Other protocols: what is written to PCI configuration space is read back,
      drivers are found by name, files are loaded whole, and so on.
    - Build tools: the checked-in node types are what the generator makes of its
      specification; for any plain specification that the generator accepts, what the
      emitted builder writes is what the emitted view reads; the checker accepts a
      file exactly when it follows the rules, stated without its traversal.
    - Some theorems record behaviour at the edges: panics on empty maps,
      directories that cannot be created or renamed, a removal that does not
      terminate when the firmware keeps failing, slices longer than their memory, a
      panic handler that calls itself when the console refuses its text, a generator
      that would truncate wide slices at the end of a node, a checker that does not
      enter modules.

    ** Fuel

    Loops whose recursion is not structural take fuel.  Where the source's loop
    terminates, the fuel is a function of the input (the length of a string, of a
    slice or of a map, the remaining bytes of a copy, the depth of a tree) and the
    theorems conclude [Ret], so that it is enough; [qsort] is given fuel for the
    length of the map.  [remove_dir_all] takes its fuel as an argument because
    the loop need not terminate when the firmware fails, which is a theorem of its
    own; on a volume that keeps the laws, the depth and the size of the tree are
    enough.  The fuel of the panic handler counts its calls of itself; the HTTP client
    takes the numbers of polls and chunks, which the theorem bounds by what the
    firmware needs and by the length of the body.

    ** What is not modelled

    Formatting ([Debug] and most of [Display]); the features [log-debugcon] and
    [qemu], which write to ports of the emulator; structure declarations of
    [uefi-raw] that nothing computes with; the shell protocol and the processor
    contexts of the debugger, which have no operations; the procedural macros; the
    rest of the test runner; the commands of [xtask] that run [cargo], the emulator and
    the network, whose effect is that of other programs, and the text that the
    generator prints its trees to, which is the work of [rustfmt].  Concurrency is not
    modelled: UEFI applications run on one processor, and the procedures that other
    processors run are addresses.

    On firmware that fails part of the time the file system is shown to leak nothing
    and to report its errors; what such a failure leaves on the volume is the
    firmware's choice, and only volumes that keep the laws have a tree to refine. *)
From Stdlib Require Export Lia.
From stdpp Require Export base numbers option decidable list.

#[global] Set Default Goal Selector "!".
#[export] Set Default Goal Selector "!".

Declare Scope rust_scope.
Delimit Scope rust_scope with rust.
Open Scope Z_scope.

(** ** Outcomes of a Rust computation

    A computation returns a value, panics, performs an operation whose
    behaviour Rust leaves undefined, or exhausts the fuel of a model loop. *)

Inductive fault : Set :=
| Overflow            (* arithmetic overflow with overflow checks enabled *)
| DivByZero           (* division or remainder by zero *)
| OutOfBounds         (* slice or array index out of range *)
| AssertFailed        (* assert!, assert_eq!, assert_ne! *)
| UnwrapFailed        (* unwrap or expect on None or Err *)
| Explicit            (* panic!, unreachable! *).

Inductive outcome (A : Type) : Type :=
| Ret (a : A)
| Panic (f : fault)
| Undefined
| NoFuel.
Arguments Ret {A} a.
Arguments Panic {A} f.
Arguments Undefined {A}.
Arguments NoFuel {A}.

Definition obind {A B} (m : outcome A) (k : A -> outcome B) : outcome B :=
  match m with
  | Ret a => k a
  | Panic f => Panic f
  | Undefined => Undefined
  | NoFuel => NoFuel
  end.

Definition omap {A B} (f : A -> B) (m : outcome A) : outcome B :=
  obind m (fun a => Ret (f a)).

(** ** [Result<T, E>] *)

Inductive result (T E : Type) : Type :=
| Ok (v : T)
| Err (e : E).
Arguments Ok {T E} v.
Arguments Err {T E} e.

Definition rbind {T U E} (r : result T E) (k : T -> result U E) : result U E :=
  match r with Ok v => k v | Err e => Err e end.

Definition map_err {T E F} (f : E -> F) (r : result T E) : result T F :=
  match r with Ok v => Ok v | Err e => Err (f e) end.

Definition rmap {T U E} (f : T -> U) (r : result T E) : result U E :=
  match r with Ok v => Ok (f v) | Err e => Err e end.

Definition ok_or {T E} (o : option T) (e : E) : result T E :=
  match o with Some v => Ok v | None => Err e end.

Definition is_ok {T E} (r : result T E) : bool :=
  match r with Ok _ => true | Err _ => false end.

Definition unwrap {T} (o : option T) : outcome T :=
  match o with Some v => Ret v | None => Panic UnwrapFailed end.

Definition assert_ (b : bool) : outcome unit :=
  if b then Ret tt else Panic AssertFailed.

(** [let! x := m in k] sequences outcomes; [let? x := m in k] is the
    [?] operator on an outcome that carries a [Result]. *)
Notation "'let!' x ':=' m 'in' k" := (obind m (fun x => k))
  (at level 10, x pattern, m at level 100, k at level 200,
   format "'[v' 'let!'  x  ':='  m  'in' '/' k ']'") : rust_scope.
Notation "'let?' x ':=' m 'in' k" :=
  (obind m (fun r => match r with Ok x => k | Err e => Ret (Err e) end))
  (at level 10, x pattern, m at level 100, k at level 200,
   format "'[v' 'let?'  x  ':='  m  'in' '/' k ']'") : rust_scope.
(** [let* x := m in k] is the [?] operator on an outcome that carries an
    [Option]. *)
Notation "'let*' x ':=' m 'in' k" :=
  (obind m (fun o => match o with Some x => k | None => Ret None end))
  (at level 10, x pattern, m at level 100, k at level 200,
   format "'[v' 'let*'  x  ':='  m  'in' '/' k ']'") : rust_scope.
Open Scope rust_scope.

#[export] Instance fault_eq_dec : EqDecision fault.
Proof. solve_decision. Defined.
#[export] Instance result_eq_dec {T E} `{EqDecision T, EqDecision E} :
  EqDecision (result T E).
Proof. solve_decision. Defined.
#[export] Instance outcome_eq_dec {A} `{EqDecision A} : EqDecision (outcome A).
Proof. solve_decision. Defined.

Lemma obind_Ret_inv {A B} (m : outcome A) (k : A -> outcome B) b :
  obind m k = Ret b -> exists a, m = Ret a /\ k a = Ret b.
Proof. destruct m; simpl; intros; simplify_eq; eauto. Qed.

Lemma obind_assoc {A B C} (m : outcome A) (k : A -> outcome B) (h : B -> outcome C) :
  obind (obind m k) h = obind m (fun a => obind (k a) h).
Proof. by destruct m. Qed.

Lemma unwrap_Ret_inv {T} (o : option T) v : unwrap o = Ret v -> o = Some v.
Proof. destruct o; simpl; congruence. Qed.

Lemma assert_Ret_inv b u : assert_ b = Ret u -> b = true.
Proof. by destruct b. Qed.

Lemma assert_true b : b = true -> assert_ b = Ret tt.
Proof. by intros ->. Qed.

(** ** Machine integers *)

Definition u8_bits : Z := 8.
Definition u16_bits : Z := 16.
Definition u32_bits : Z := 32.
Definition u64_bits : Z := 64.
(** The width of [usize]: the 64-bit UEFI targets. *)
Definition usize_bits : Z := 64.
Definition usize_MAX : Z := 2 ^ 64 - 1.
(** A Rust allocation, hence a slice, never exceeds [isize::MAX] bytes. *)
Definition isize_MAX : Z := 2 ^ 63 - 1.

Definition in_width (bits z : Z) : Prop := 0 <= z < 2 ^ bits.
Abbreviation is_u8 := (in_width 8).
Abbreviation is_u16 := (in_width 16).
Abbreviation is_u32 := (in_width 32).
Abbreviation is_u64 := (in_width 64).
Abbreviation is_usize := (in_width 64).

#[export] Instance in_width_dec bits z : Decision (in_width bits z).
Proof. unfold in_width. apply _. Defined.

Definition wrap (bits z : Z) : Z := z mod 2 ^ bits.

(** Whether the crate is built with overflow checks (the debug profile) or
    without (the release profile, where arithmetic wraps). *)
Class Profile : Set := { overflow_checks : bool }.
Definition debug_profile : Profile := {| overflow_checks := true |}.
Definition release_profile : Profile := {| overflow_checks := false |}.

Definition arith `{Profile} (bits z : Z) : outcome Z :=
  if bool_decide (in_width bits z) then Ret z
  else if overflow_checks then Panic Overflow else Ret (wrap bits z).

Definition usize_add `{Profile} (a b : Z) : outcome Z := arith 64 (a + b).
(** On operands in range, a subtraction leaves the range only below. *)
Definition usize_sub `{Profile} (a b : Z) : outcome Z :=
  if b <=? a then Ret (a - b)
  else if overflow_checks then Panic Overflow else Ret (wrap 64 (a - b)).
Definition usize_mul `{Profile} (a b : Z) : outcome Z := arith 64 (a * b).
Definition usize_div (a b : Z) : outcome Z :=
  if b =? 0 then Panic DivByZero else Ret (a / b).
Definition usize_rem (a b : Z) : outcome Z :=
  if b =? 0 then Panic DivByZero else Ret (a mod b).
Definition wrapping_add (a b : Z) : Z := wrap 64 (a + b).
Definition wrapping_sub (a b : Z) : Z := wrap 64 (a - b).
Definition checked_mul (a b : Z) : option Z :=
  if bool_decide (in_width 64 (a * b)) then Some (a * b) else None.
Definition checked_add (a b : Z) : option Z :=
  if bool_decide (in_width 64 (a + b)) then Some (a + b) else None.

Lemma arith_ok `{Profile} bits z : in_width bits z -> arith bits z = Ret z.
Proof. intros Hz. unfold arith. by rewrite bool_decide_true. Qed.

Lemma usize_sub_ok `{Profile} a b : b <= a -> usize_sub a b = Ret (a - b).
Proof. intros. unfold usize_sub. by rewrite (proj2 (Z.leb_le _ _)). Qed.

Lemma usize_add_ok `{Profile} a b :
  0 <= a -> 0 <= b -> a + b < 2 ^ 64 -> usize_add a b = Ret (a + b).
Proof. intros. apply arith_ok. unfold in_width. lia. Qed.

Lemma usize_mul_ok `{Profile} a b :
  0 <= a -> 0 <= b -> a * b < 2 ^ 64 -> usize_mul a b = Ret (a * b).
Proof. intros. apply arith_ok. unfold in_width. nia. Qed.

Lemma usize_sub_underflow_debug a b :
  a < b -> usize_sub (H := debug_profile) a b = Panic Overflow.
Proof.
  intros. unfold usize_sub. by rewrite (proj2 (Z.leb_gt _ _)).
Qed.

Lemma wrap_range bits z : 0 <= bits -> in_width bits (wrap bits z).
Proof. intros. apply Z.mod_pos_bound, Z.pow_pos_nonneg; lia. Qed.

Lemma wrap_small bits z : in_width bits z -> wrap bits z = z.
Proof. intros. by apply Z.mod_small. Qed.

Lemma in_width_mono b1 b2 z : 0 <= b1 <= b2 -> in_width b1 z -> in_width b2 z.
Proof.
  unfold in_width. intros Hb Hz. pose proof (Z.pow_le_mono_r 2 b1 b2). lia.
Qed.

(** ** Automation *)

Create HintDb rust discriminated.
#[export] Hint Resolve wrap_range wrap_small : rust.

(** Invert every [obind _ _ = Ret _] hypothesis into its steps. *)
Ltac inv_outcome :=
  repeat match goal with
  | H : obind _ _ = Ret _ |- _ =>
      let a := fresh "a" in let Ha := fresh "Ha" in
      apply obind_Ret_inv in H as (a & Ha & H)
  | H : unwrap _ = Ret _ |- _ => apply unwrap_Ret_inv in H
  | H : assert_ _ = Ret _ |- _ => apply assert_Ret_inv in H
  | H : Ret _ = Ret _ |- _ => injection H; clear H; intros; subst
  end.

(** Case analysis on the innermost scrutinee of the goal or of a hypothesis. *)
Ltac case_scrutinee :=
  match goal with
  | |- context [match ?x with _ => _ end] =>
      lazymatch x with context [match _ with _ => _ end] => fail | _ => destruct x eqn:? end
  | H : context [match ?x with _ => _ end] |- _ =>
      lazymatch x with context [match _ with _ => _ end] => fail | _ => destruct x eqn:? end
  end.

(** Turn boolean tests on integers into propositions. *)
Ltac z_bools :=
  repeat match goal with
  | H : (_ =? _) = true |- _ => apply Z.eqb_eq in H
  | H : (_ =? _) = false |- _ => apply Z.eqb_neq in H
  | H : (_ <? _) = true |- _ => apply Z.ltb_lt in H
  | H : (_ <? _) = false |- _ => apply Z.ltb_ge in H
  | H : (_ <=? _) = true |- _ => apply Z.leb_le in H
  | H : (_ <=? _) = false |- _ => apply Z.leb_gt in H
  | H : andb _ _ = true |- _ => apply andb_true_iff in H as [? ?]
  | H : orb _ _ = false |- _ => apply orb_false_iff in H as [? ?]
  | H : negb _ = true |- _ => apply negb_true_iff in H
  | H : negb _ = false |- _ => apply negb_false_iff in H
  end.

(** A decidable fact about closed terms, by evaluation. *)
Ltac by_decide := apply (bool_decide_unpack _); vm_compute; exact I.

(** ** Little-endian encodings *)

Fixpoint le_bytes (n : nat) (z : Z) : list Z :=
  match n with
  | O => []
  | S n' => z mod 256 :: le_bytes n' (z / 256)
  end.

Fixpoint le_val (bs : list Z) : Z :=
  match bs with
  | [] => 0
  | b :: bs' => b + 256 * le_val bs'
  end.

Lemma length_le_bytes n z : length (le_bytes n z) = n.
Proof. revert z. induction n as [|n IH]; intros z; simpl; [done|]. by rewrite IH. Qed.

Lemma le_bytes_u8 n z : Forall is_u8 (le_bytes n z).
Proof.
  revert z. induction n as [|n IH]; intros z; simpl; constructor; [|apply IH].
  apply (Z.mod_pos_bound z 256). lia.
Qed.

Lemma le_val_bound bs :
  Forall is_u8 bs -> 0 <= le_val bs < 256 ^ Z.of_nat (length bs).
Proof.
  induction 1 as [|b bs Hb _ IH]; simpl; [lia|].
  rewrite Nat2Z.inj_succ, Z.pow_succ_r by lia. unfold in_width in Hb. lia.
Qed.

Lemma le_val_bytes n z :
  0 <= z < 256 ^ Z.of_nat n -> le_val (le_bytes n z) = z.
Proof.
  revert z. induction n as [|n IH]; intros z Hz; simpl.
  - change (256 ^ Z.of_nat 0) with 1 in Hz. lia.
  - rewrite Nat2Z.inj_succ, Z.pow_succ_r in Hz by lia.
    rewrite IH; [pose proof (Z.div_mod z 256); lia|].
    split; [apply Z.div_pos; lia|]. apply Z.div_lt_upper_bound; lia.
Qed.

Lemma le_bytes_val bs :
  Forall is_u8 bs -> le_bytes (length bs) (le_val bs) = bs.
Proof.
  induction 1 as [|b bs Hb _ IH]; [done|]. unfold in_width in Hb. simpl.
  f_equal.
  - rewrite Z.mul_comm, Z.mod_add by lia. apply Z.mod_small. lia.
  - rewrite Z.mul_comm, Z.div_add by lia. by rewrite Z.div_small, Z.add_0_l by lia.
Qed.
Create Rewrite HintDb rust.
#[export] Hint Rewrite length_le_bytes : rust.

(** ** Slices and raw memory *)

Definition zlen {A} (l : list A) : Z := Z.of_nat (length l).

(** [&l[a..b]]: panics when the range is not inside the slice. *)
Definition slice {A} (l : list A) (a b : Z) : outcome (list A) :=
  if (0 <=? a) && (a <=? b) && (b <=? zlen l)
  then Ret (take (Z.to_nat (b - a)) (drop (Z.to_nat a) l))
  else Panic OutOfBounds.

(** [l[i]]. *)
Definition index {A} (l : list A) (i : Z) : outcome A :=
  if (0 <=? i) && (i <? zlen l)
  then match l !! Z.to_nat i with Some a => Ret a | None => Panic OutOfBounds end
  else Panic OutOfBounds.

(** A read of [n] bytes at offset [off] from a raw pointer into the
    allocation [m]: undefined unless the whole range is inside it. *)
Definition read_raw (m : list Z) (off n : Z) : outcome (list Z) :=
  if (0 <=? off) && (0 <=? n) && (off + n <=? zlen m)
  then Ret (take (Z.to_nat n) (drop (Z.to_nat off) m))
  else Undefined.

(** A write of [data] at offset [off] through a raw pointer into [m]. *)
Definition write_raw (m : list Z) (off : Z) (data : list Z) : outcome (list Z) :=
  if (0 <=? off) && (off + zlen data <=? zlen m)
  then Ret (take (Z.to_nat off) m ++ data ++ drop (Z.to_nat off + length data) m)
  else Undefined.

(** The bytes [off..off+n] of [m], without a bounds check. *)
Definition range (m : list Z) (off n : Z) : list Z :=
  take (Z.to_nat n) (drop (Z.to_nat off) m).

Lemma slice_ok {A} (l : list A) a b :
  0 <= a <= b -> b <= zlen l ->
  slice l a b = Ret (take (Z.to_nat (b - a)) (drop (Z.to_nat a) l)).
Proof.
  intros. unfold slice.
  by rewrite !(proj2 (Z.leb_le _ _)) by lia.
Qed.

Lemma read_raw_ok m off n :
  0 <= off -> 0 <= n -> off + n <= zlen m ->
  read_raw m off n = Ret (take (Z.to_nat n) (drop (Z.to_nat off) m)).
Proof.
  intros. unfold read_raw.
  by rewrite !(proj2 (Z.leb_le _ _)) by lia.
Qed.

(** Reading the middle of three adjacent pieces, and the first of two. *)
Lemma read_raw_mid a b c : read_raw (a ++ b ++ c) (zlen a) (zlen b) = Ret b.
Proof.
  unfold zlen. rewrite read_raw_ok by (unfold zlen; rewrite ?length_app; lia).
  by rewrite !Nat2Z.id, drop_app_length, take_app_length.
Qed.

Lemma read_raw_front b c : read_raw (b ++ c) 0 (zlen b) = Ret b.
Proof. exact (read_raw_mid [] b c). Qed.

Lemma zlen_le_bytes n z : zlen (le_bytes n z) = Z.of_nat n.
Proof. unfold zlen. by rewrite length_le_bytes. Qed.

Lemma index_ok {A} (l : list A) (i : nat) a :
  l !! i = Some a -> index l (Z.of_nat i) = Ret a.
Proof.
  intros Hi. pose proof (lookup_lt_Some _ _ _ Hi). unfold index, zlen.
  rewrite (proj2 (Z.leb_le _ _)), (proj2 (Z.ltb_lt _ _)) by lia. simpl.
  by rewrite Nat2Z.id, Hi.
Qed.

Lemma zlen_app {A} (l k : list A) : zlen (l ++ k) = zlen l + zlen k.
Proof. unfold zlen. rewrite length_app. lia. Qed.

Lemma zlen_cons {A} (a : A) l : zlen (a :: l) = 1 + zlen l.
Proof. unfold zlen. simpl. lia. Qed.

Lemma zlen_nonneg {A} (l : list A) : 0 <= zlen l.
Proof. unfold zlen. lia. Qed.

Lemma zlen_concat_map {A} (f : A -> list Z) k l :
  (forall a, zlen (f a) = k) -> zlen (concat (map f l)) = zlen l * k.
Proof.
  intros Hf. induction l as [|a l IH]; [done|]. cbn [map concat]. rewrite zlen_app, zlen_cons, Hf, IH. lia.
Qed.

Lemma range_front (a b : list Z) n : n = zlen a -> range (a ++ b) 0 n = a.
Proof. intros ->. unfold range, zlen. by rewrite Nat2Z.id, drop_0, take_app_length. Qed.

Lemma range_skip (a b : list Z) off n : zlen a <= off -> range (a ++ b) off n = range b (off - zlen a) n.
Proof. intros Ho. unfold range, zlen in *. rewrite drop_app_ge by lia. do 2 f_equal. lia. Qed.

Lemma write_raw_ok m off d :
  0 <= off -> off + zlen d <= zlen m ->
  exists m', write_raw m off d = Ret m' /\ zlen m' = zlen m /\ range m' off (zlen d) = d /\
    (forall o n, 0 <= o -> 0 <= n -> o + n <= off \/ off + zlen d <= o ->
     range m' o n = range m o n).
Proof.
  intros Ho Hd. unfold write_raw. rewrite !(proj2 (Z.leb_le _ _)) by lia. eexists; split; [done|].
  unfold zlen, range in *.
  assert (length (take (Z.to_nat off) m) = Z.to_nat off) as Ht by (rewrite length_take; lia).
  split; [rewrite !length_app, length_drop, Ht; lia|]. split.
  - rewrite drop_app_length' by done. by rewrite Nat2Z.id, take_app_length.
  - intros o n H0 Hn [Hb|Ha].
    + rewrite drop_app_le by lia. rewrite take_app_le by (rewrite length_drop; lia).
      rewrite skipn_firstn_comm, take_take. f_equal. lia.
    + rewrite app_assoc, drop_app_ge by (rewrite length_app, Ht; lia).
      rewrite length_app, Ht, drop_drop. do 2 f_equal. lia.
Qed.

(** ** Buffers: bytes at an address *)

Record Buffer : Set := mkBuffer { addr : Z; bytes : list Z }.

(** [ptr.align_offset(a) == 0] for a byte pointer. *)
Definition is_aligned (a : Z) (b : Buffer) : bool := addr b mod a =? 0.

(** *** Pointers

    A memory region is a buffer; a read of [n] bytes at the address [p] of it. *)
Definition read_ptr (m : Buffer) (p n : Z) : outcome (list Z) := read_raw (bytes m) (p - addr m) n.

(** [bs] is what the region has at the address [p]. *)
Definition at_ptr (m : Buffer) (p : Z) (bs : list Z) : Prop :=
  exists a c, bytes m = a ++ bs ++ c /\ p = addr m + zlen a.

Lemma at_ptr_read m p bs : at_ptr m p bs -> read_ptr m p (zlen bs) = Ret bs.
Proof.
  intros (a & c & E & ->). unfold read_ptr. rewrite E, Z.add_simpl_l. apply read_raw_mid.
Qed.

Lemma at_ptr_app m p x y : at_ptr m p (x ++ y) <-> at_ptr m p x /\ at_ptr m (p + zlen x) y.
Proof.
  split.
  - intros (a & c & E & ->). rewrite <- app_assoc in E. split; [by exists a, (y ++ c)|].
    exists (a ++ x), c. by rewrite <- app_assoc, zlen_app, Z.add_assoc.
  - intros [(a & c & E & ->) (a' & c' & E' & Ha)]. rewrite E in E'. rewrite app_assoc in E'.
    apply app_inj_1 in E' as [<- ->]; [|unfold zlen in *; rewrite length_app; lia].
    exists a, c'. by rewrite E, <- (app_assoc x).
Qed.

Lemma at_ptr_addr m p bs : at_ptr m p bs -> addr m <= p.
Proof. intros (a & c & _ & ->). pose proof (zlen_nonneg a). lia. Qed.

(** [bytes.get(a..b)] and [bytes.get(i)]. *)
Definition get_range {A} (l : list A) (a b : Z) : option (list A) :=
  if (0 <=? a) && (a <=? b) && (b <=? zlen l)
  then Some (take (Z.to_nat (b - a)) (drop (Z.to_nat a) l)) else None.
Definition get_at {A} (l : list A) (i : Z) : option A := if 0 <=? i then l !! Z.to_nat i else None.

Lemma get_range_mid {A} (a b c : list A) x y :
  x = zlen a -> y = zlen a + zlen b -> get_range (a ++ b ++ c) x y = Some b.
Proof.
  intros -> ->. unfold get_range, zlen. rewrite !length_app, !(proj2 (Z.leb_le _ _)) by lia. cbn [andb].
  by rewrite Z.add_simpl_l, !Nat2Z.id, drop_app_length, take_app_length.
Qed.

Lemma get_range_None {A} (l : list A) a b : zlen l < b -> get_range l a b = None.
Proof. intros H. unfold get_range. by rewrite (proj2 (Z.leb_gt b _)), andb_false_r by done. Qed.

Lemma get_at_mid {A} (a : list A) x c i : i = zlen a -> get_at (a ++ x :: c) i = Some x.
Proof.
  intros ->. unfold get_at, zlen. rewrite (proj2 (Z.leb_le _ _)), Nat2Z.id by lia. by apply list_lookup_middle.
Qed.

(** ** Searching lists *)

(** [iter().position(p)]. *)
Fixpoint position {A} (p : A -> bool) (l : list A) : option nat :=
  match l with
  | [] => None
  | a :: l' => if p a then Some 0%nat else S <$> position p l'
  end.

(** [iter().take_while(p)]. *)
Fixpoint take_while {A} (p : A -> bool) (l : list A) : list A :=
  match l with
  | [] => []
  | a :: l' => if p a then a :: take_while p l' else []
  end.

Lemma position_Some {A} (p : A -> bool) l i :
  position p l = Some i <->
  (exists a, l !! i = Some a /\ p a = true) /\
  (forall j a, (j < i)%nat -> l !! j = Some a -> p a = false).
Proof.
  revert i. induction l as [|a l IH]; intros i; simpl.
  { split; [done|]. intros [(? & Ha & _) _]. by rewrite lookup_nil in Ha. }
  destruct (p a) eqn:Hp.
  - split.
    + intros [= <-]. split; [by exists a|]. intros. lia.
    + intros [_ Hf]. destruct i; [done|].
      specialize (Hf 0%nat a ltac:(lia) eq_refl). congruence.
  - destruct i as [|i]; simpl.
    + split; [by rewrite fmap_Some; intros (? & _ & ?)|]. intros [(? & [= <-] & ?) _]. congruence.
    + split.
      * rewrite fmap_Some. intros (k & Hk & [= ->]).
        apply IH in Hk as [Hex Hall]. split; [done|].
        intros [|j] b Hj Hb; [by simplify_eq/=|]. apply (Hall j b); [lia|done].
      * intros [Hex Hall]. apply fmap_Some. exists i. split; [|done].
        apply IH. split; [done|].
        intros j b Hj Hb. apply (Hall (S j) b); [lia|done].
Qed.

Lemma position_None {A} (p : A -> bool) l :
  position p l = None <-> Forall (fun a => p a = false) l.
Proof.
  induction l as [|a l IH]; simpl; [by split|].
  destruct (p a) eqn:Hp.
  - split; [done|]. inversion 1. congruence.
  - split.
    + intros Hn%fmap_None. constructor; [done|]. by apply IH.
    + inversion 1; subst. apply fmap_None. by apply IH.
Qed.

Lemma position_app_r {A} (p : A -> bool) l a k :
  Forall (fun x => p x = false) l -> p a = true ->
  position p (l ++ a :: k) = Some (length l).
Proof.
  intros Hl Ha. induction Hl as [|x l Hx _ IH]; simpl.
  - by rewrite Ha.
  - by rewrite Hx, IH.
Qed.

Lemma take_while_all {A} (p : A -> bool) l :
  Forall (fun x => p x = true) l -> take_while p l = l.
Proof. induction 1 as [|a l Ha _ IH]; simpl; [done|]. by rewrite Ha, IH. Qed.

Lemma take_while_app {A} (p : A -> bool) l a k :
  Forall (fun x => p x = true) l -> p a = false ->
  take_while p (l ++ a :: k) = l.
Proof.
  intros Hl Ha. induction Hl as [|x l Hx _ IH]; simpl.
  - by rewrite Ha.
  - by rewrite Hx, IH.
Qed.

Lemma take_while_split {A} (p : A -> bool) l :
  exists k, l = take_while p l ++ k /\
    Forall (fun x => p x = true) (take_while p l) /\
    (k = [] \/ exists a k', k = a :: k' /\ p a = false).
Proof.
  induction l as [|a l (k & IHl & IHf & IHk)]; simpl.
  - exists []. auto.
  - destruct (p a) eqn:Ha.
    + exists k. split; [by rewrite <- app_comm_cons, <- IHl|]. auto.
    + exists (a :: l). split; [done|]. split; [done|]. right. eauto.
Qed.

Lemma Forall_weaken {A} (P Q : A -> Prop) l :
  (forall x, P x -> Q x) -> Forall P l -> Forall Q l.
Proof. intros HPQ Hl. by eapply Forall_impl. Qed.
