(* ===== verification/Firmware.v ===== *)
(** * Computations that call the firmware

    Code that calls function pointers of the firmware's tables threads the state
    [W] of the machine, which the firmware changes; it may also panic or be
    undefined, as any Rust code. *)
From S2P Require Import Prelude.

Definition fw (W A : Type) : Type := W -> outcome (A * W).

#[export] Instance fw_ret W : MRet (fw W) := fun A a w => Ret (a, w).
#[export] Instance fw_bind W : MBind (fw W) := fun A B k m w =>
  obind (m w) (fun r => k r.1 r.2).

Definition lift {W A} (o : outcome A) : fw W A := fun w => let! a := o in Ret (a, w).
Definition call {W A} (f : W -> A * W) : fw W A := fun w => Ret (f w).

(** The type [Boolean] of the firmware ([uefi-raw/src/lib.rs]) and [bool]. *)
Definition boolean_of_bool (b : bool) : Z := if b then 1 else 0.
Definition bool_of_boolean (v : Z) : bool := negb (v =? 0).

(** The [?] operator. *)
Definition fw_try {W A B E} (m : fw W (result A E)) (k : A -> fw W (result B E))
  : fw W (result B E) :=
  r ← m; match r with Ok a => k a | Err e => mret (Err e) end.

Notation "'try' x '<-' m ; k" := (fw_try m (fun x => k))
  (at level 20, x pattern, m at level 100, k at level 200, right associativity).

Lemma fw_bind_Ret {W A B} (m : fw W A) (k : A -> fw W B) w a w' :
  m w = Ret (a, w') -> (m ≫= k) w = k a w'.
Proof. unfold mbind, fw_bind. by intros ->. Qed.

Lemma fw_bind_inv {W A B} (m : fw W A) (k : A -> fw W B) w b w'' :
  (m ≫= k) w = Ret (b, w'') -> exists a w', m w = Ret (a, w') /\ k a w' = Ret (b, w'').
Proof. intros ([a w'] & E & Ek)%obind_Ret_inv. eauto. Qed.

Lemma fw_bind_call {W A B} (f : W -> A * W) (k : A -> fw W B) w :
  (call f ≫= k) w = k (f w).1 (f w).2.
Proof. done. Qed.

Lemma fw_bind_lift {W A B} (a : A) (k : A -> fw W B) w : (lift (Ret a) ≫= k) w = k a w.
Proof. done. Qed.

Lemma fw_try_Ret {W A B E} (m : fw W (result A E)) (k : A -> fw W (result B E)) w r w' :
  m w = Ret (r, w') ->
  (fw_try m k) w = match r with Ok a => k a w' | Err e => Ret (Err e, w') end.
Proof. unfold fw_try, mbind, fw_bind. intros ->. by destruct r. Qed.

(** Runs the next call; [tac] rewrites with what it returns. *)
Ltac fw_step tac :=
  erewrite fw_bind_Ret by (unfold call, lift; tac; reflexivity); cbv beta iota.

(** ** A program logic

    [runs m w Q]: from [w] the computation returns, and what it returns satisfies
    [Q].  It neither panics nor is undefined nor runs out of fuel. *)
Definition runs {W A} (m : fw W A) (w : W) (Q : A -> W -> Prop) : Prop :=
  exists a w', m w = Ret (a, w') /\ Q a w'.

#[export] Instance runs_proper {W A} :
  Proper (eq ==> eq ==> pointwise_relation A (pointwise_relation W impl) ==> impl) (@runs W A).
Proof. intros m ? <- w ? <- P Q HPQ (a & w' & E & H). exists a, w'. split; [done|]. by apply HPQ. Qed.

Section runs_rules.
Context {W : Type}.

Lemma runs_weaken {A} (m : fw W A) w (P Q : A -> W -> Prop) :
  runs m w P -> (forall a w', P a w' -> Q a w') -> runs m w Q.
Proof. intros Hm HPQ. eapply runs_proper; [done..|exact HPQ|exact Hm]. Qed.

Lemma runs_conj {A} (m : fw W A) w (P Q : A -> W -> Prop) :
  runs m w P -> runs m w Q -> runs m w (fun a w' => P a w' /\ Q a w').
Proof. intros (a & w' & E & HP) (a2 & w2 & E2 & HQ). exists a, w'. rewrite E in E2. by simplify_eq. Qed.

Lemma runs_bind {A B} (m : fw W A) (k : A -> fw W B) w Q :
  runs m w (fun a w' => runs (k a) w' Q) -> runs (m ≫= k) w Q.
Proof.
  intros (a & w' & E & b & w2 & Ek & H). exists b, w2. split; [|done]. by rewrite (fw_bind_Ret _ _ _ _ _ E).
Qed.

Lemma runs_ret {A} (a : A) w (Q : A -> W -> Prop) : Q a w -> runs (mret a) w Q.
Proof. intros H. by exists a, w. Qed.

Lemma runs_call {A} (f : W -> A * W) w (Q : A -> W -> Prop) : Q (f w).1 (f w).2 -> runs (call f) w Q.
Proof. intros H. exists (f w).1, (f w).2. split; [|done]. unfold call. by destruct (f w). Qed.

Lemma runs_lift {A} (o : outcome A) a w (Q : A -> W -> Prop) : o = Ret a -> Q a w -> runs (lift o) w Q.
Proof. intros -> H. by exists a, w. Qed.

Lemma runs_try {A B E} (m : fw W (result A E)) (k : A -> fw W (result B E)) w Q :
  runs m w (fun r w' => match r with Ok a => runs (k a) w' Q | Err e => Q (Err e) w' end) ->
  runs (fw_try m k) w Q.
Proof.
  intros Hm. apply runs_bind. eapply runs_weaken; [exact Hm|]. intros [a|e] w' H; [done|]. by apply runs_ret.
Qed.

(** What a computation is known to return. *)
Lemma runs_eq {A} (m : fw W A) w a w' (Q : A -> W -> Prop) : m w = Ret (a, w') -> Q a w' -> runs m w Q.
Proof. intros E H. by exists a, w'. Qed.
End runs_rules.

(** Walks through the monadic structure; [call]s are left to the caller, who
    knows what they return. *)
Ltac runs_step :=
  lazymatch goal with
  | |- runs (_ ≫= _) _ _ => apply runs_bind
  | |- runs (fw_try _ _) _ _ => apply runs_try
  | |- runs (mret _) _ _ => apply runs_ret
  | |- runs (call _) _ _ => apply runs_call; cbn [fst snd]
  | |- runs (match (_, _) with _ => _ end) _ _ => cbv beta iota
  | |- runs (lift _) _ _ => eapply runs_lift; [reflexivity|]
  end.

(** ** Iterators

    [iter.collect()], for an iterator whose [next] returns the item and the advanced
    iterator. *)
Fixpoint collect_iter {W S A} (next : S -> fw W (option A * S)) (fuel : nat) (self : S) : fw W (list A) :=
  match fuel with
  | O => lift NoFuel
  | Datatypes.S fuel =>
      '(item, self) ← next self;
      match item with
      | None => mret []
      | Some a => l ← collect_iter next fuel self; mret (a :: l)
      end
  end.

(** An iterator for which [rem s w l] says that the items [l] are still to come
    yields exactly them. *)
Lemma collect_iter_rem {W S A} (next : S -> fw W (option A * S)) (rem : S -> W -> list A -> Prop) :
  (forall s w l, rem s w l -> runs (next s) w (fun r w' => r.1 = head l /\ (l <> [] -> rem r.2 w' (tail l)))) ->
  forall fuel s w l, rem s w l -> (length l < fuel)%nat -> runs (collect_iter next fuel s) w (fun l' _ => l' = l).
Proof.
  intros Hnext. induction fuel as [|fuel IH]; intros s w l Hl Hf; [lia|]. cbn [collect_iter]. runs_step.
  eapply runs_weaken; [by apply Hnext|]. intros [o s'] w1 (Eo & Hrem). cbn [fst snd] in *. subst o. cbv iota beta.
  destruct l as [|a l]; cbn [head tail] in *; runs_step; [done|].
  eapply runs_weaken; [apply (IH s' w1 l); [by apply Hrem|cbn in Hf; lia]|]. intros ? w2 ->. by runs_step.
Qed.

(** An iterator that walks through a list of the machine yields all of it. *)
Lemma collect_iter_runs {W S A} (next : S -> fw W (option A * S)) (items : W -> list A) (at_ : nat -> S -> W -> Prop) :
  (forall i s w, at_ i s w -> runs (next s) w (fun r w' =>
    items w' = items w /\ r.1 = items w !! i /\ (is_Some r.1 -> at_ (Datatypes.S i) r.2 w'))) ->
  forall fuel s w, at_ 0%nat s w -> (length (items w) < fuel)%nat ->
    runs (collect_iter next fuel s) w (fun l _ => l = items w).
Proof.
  intros Hnext fuel s w Hat Hf.
  apply (collect_iter_rem next (fun s w' l => exists i, at_ i s w' /\ l = drop i (items w'))); [|by exists 0%nat|done].
  intros s1 w1 ? (i & Hi & ->). eapply runs_weaken; [by apply Hnext|]. intros r w2 (Ei & Er & Hs).
  rewrite Er, head_lookup, lookup_drop, Nat.add_0_r. split; [done|]. intros Hne. exists (Datatypes.S i).
  destruct (items w1 !! i) as [a|] eqn:Ea.
  - split; [apply Hs; by rewrite Er|]. by rewrite (drop_S (items w1) a i Ea), Ei.
  - destruct Hne. apply drop_ge. by apply lookup_ge_None.
Qed.

(** ** Stability

    Every run of a computation, whatever it returns, takes a state to one that
    [R] relates to it. *)
Section stability.
Context {W : Type} (R : relation W) `{!PreOrder R}.

Definition stable {A} (m : fw W A) : Prop := forall w a w', m w = Ret (a, w') -> R w w'.

Lemma stable_bind {A B} (m : fw W A) (k : A -> fw W B) :
  stable m -> (forall a, stable (k a)) -> stable (m ≫= k).
Proof. intros Hm Hk w b w2 (a & w1 & E & Ek)%fw_bind_inv. transitivity w1; [by eapply Hm|by eapply Hk]. Qed.

Lemma stable_ret {A} (a : A) : stable (mret a).
Proof. intros w b w' [= _ <-]. reflexivity. Qed.

Lemma stable_lift {A} (o : outcome A) : stable (lift o).
Proof. intros w b w' (a & _ & [= _ <-])%obind_Ret_inv. reflexivity. Qed.

Lemma stable_call {A} (f : W -> A * W) : (forall w, R w (f w).2) -> stable (call f).
Proof. intros Hf w b w' [= E]. specialize (Hf w). by rewrite E in Hf. Qed.

Lemma stable_try {A B E} (m : fw W (result A E)) (k : A -> fw W (result B E)) :
  stable m -> (forall a, stable (k a)) -> stable (fw_try m k).
Proof. intros Hm Hk. apply stable_bind; [done|]. intros [a|e]; [done|apply stable_ret]. Qed.
End stability.

Create HintDb stable discriminated.

(** Walks through the monadic structure, with the computations of the hint
    database; what is left are the firmware's calls. *)
Ltac stable_step :=
  match goal with
  | |- stable ?R (_ ≫= _) => apply (stable_bind R); [|intros ?]
  | |- stable ?R (fw_try _ _) => apply (stable_try R); [|intros ?]
  | |- stable ?R (mret _) => apply (stable_ret R)
  | |- stable ?R (lift _) => apply (stable_lift R)
  | |- stable _ (match ?x with _ => _ end) => destruct x
  | |- stable _ _ => solve [eauto with stable]
  end.

(** ** Ledgers

    A ledger says which resources of a kind are held in a state: memory blocks,
    open protocols, events. *)
Section ledgers.
Context {W R : Type} `{!EqDecision R} (held : W -> R -> Prop).

Definition keeps (w w' : W) : Prop := forall c, held w' c <-> held w c.
Definition acquires (r : R) (w w' : W) : Prop :=
  ~ held w r /\ forall c, held w' c <-> held w c \/ c = r.
Definition releases (r : R) (w w' : W) : Prop := forall c, held w' c <-> held w c /\ c <> r.

#[export] Instance keeps_equivalence : Equivalence keeps.
Proof. split; unfold keeps; repeat intro; naive_solver. Qed.

#[export] Instance acquires_proper r : Proper (keeps ==> keeps ==> iff) (acquires r).
Proof. unfold keeps, acquires. intros w1 w2 Hw v1 v2 Hv. setoid_rewrite Hw. setoid_rewrite Hv. done. Qed.

#[export] Instance releases_proper r : Proper (keeps ==> keeps ==> iff) (releases r).
Proof. unfold keeps, releases. intros w1 w2 Hw v1 v2 Hv. setoid_rewrite Hw. setoid_rewrite Hv. done. Qed.

Lemma acquires_releases r w w1 w2 : acquires r w w1 -> releases r w1 w2 -> keeps w w2.
Proof.
  intros (Hn & Ha) Hr c. rewrite (Hr c), (Ha c). destruct (decide (c = r)); naive_solver.
Qed.

(** A resource that is released while another one is held. *)
Lemma acquires_acquires_releases r c w w1 w2 w3 :
  r <> c -> acquires r w w1 -> acquires c w1 w2 -> releases r w2 w3 -> acquires c w w3.
Proof.
  intros Hrc (Hn & Ha) (Hn2 & Ha2) Hr. split; [naive_solver|].
  intros d. rewrite (Hr d), (Ha2 d), (Ha d). naive_solver.
Qed.

Lemma acquires_held r w w' : acquires r w w' -> held w' r.
Proof. intros [_ Ha]. apply Ha. by right. Qed.
End ledgers.

(** ** Counting resources

    A meter counts what is in use in a state: open handles, heap blocks. *)

Abbreviation free := (fun _ => 0).

Section gains.
Context {W : Type} {meter : W -> Z}.

(** [m] acquires exactly [cost a] when it returns [a]. *)
Definition gains {A} (m : fw W A) (cost : A -> Z) : Prop :=
  forall w a w', m w = Ret (a, w') -> meter w' = meter w + cost a.

Lemma gains_bind {A B} (m : fw W A) (k : A -> fw W B) c1 c2 :
  gains m c1 -> (forall a, gains (k a) (fun b => c2 b - c1 a)) -> gains (m ≫= k) c2.
Proof.
  intros Hm Hk w b w'' (a & w' & E & Ek)%fw_bind_inv.
  rewrite (Hk a _ _ _ Ek), (Hm _ _ _ E). lia.
Qed.

Lemma gains_ret {A} (a : A) (c : A -> Z) : c a = 0 -> gains (mret a) c.
Proof. intros Hc w a' w' [= <- <-]. lia. Qed.

Lemma gains_lift {A} (o : outcome A) (c : A -> Z) :
  (forall a, o = Ret a -> c a = 0) -> gains (lift o) c.
Proof. intros Hc w a w' E. unfold lift in E. destruct o; simplify_eq/=. rewrite Hc; [lia|done]. Qed.

Lemma gains_call {A} (f : W -> A * W) (c : A -> Z) :
  (forall w a w', f w = (a, w') -> meter w' = meter w + c a) -> gains (call f) c.
Proof. intros Hf w a w' [= E]. by apply Hf. Qed.

Lemma gains_try {A B E} (m : fw W (result A E)) (k : A -> fw W (result B E)) c1 c2 :
  gains m (fun r => match r with Ok a => c1 a | Err e => c2 (Err e) end) ->
  (forall a, gains (k a) (fun b => c2 b - c1 a)) -> gains (fw_try m k) c2.
Proof.
  intros Hm Hk. eapply gains_bind; [exact Hm|]. intros [a|e]; [apply Hk|].
  apply gains_ret. lia.
Qed.

Lemma gains_weaken {A} (m : fw W A) c1 c2 :
  gains m c1 -> (forall a, c1 a = c2 a) -> gains m c2.
Proof. intros Hm Hc w a w' E. rewrite <- Hc. by apply Hm. Qed.

Definition ok_cost {A E} (c : Z) (r : result A E) : Z := if is_ok r then c else 0.
Definition some_cost {A} (c : Z) (o : option A) : Z := if o then c else 0.

(** A first step that acquires nothing. *)
Lemma gains_seq {A B} (m : fw W A) (k : A -> fw W B) c :
  gains m free -> (forall a, gains (k a) c) -> gains (m ≫= k) c.
Proof. intros Hm Hk. eapply gains_bind; [exact Hm|]. intros a. eapply gains_weaken; [apply Hk|]. intros. lia. Qed.

Lemma gains_lift_free {A} (o : outcome A) : gains (lift o) free.
Proof. by apply gains_lift. Qed.

Lemma gains_try_free {A B E} (m : fw W (result A E)) (k : A -> fw W (result B E)) c :
  gains m free -> (forall e, c (Err e) = 0) -> (forall a, gains (k a) c) -> gains (fw_try m k) c.
Proof.
  intros Hm Hc Hk. eapply gains_seq; [exact Hm|]. intros [a|e]; [apply Hk|]. by apply gains_ret.
Qed.

Lemma gains_call_free {A} (f : W -> A * W) :
  (forall w a w', f w = (a, w') -> meter w' = meter w) -> gains (call f) free.
Proof. intros Hf. apply gains_call. intros w a w' E. rewrite (Hf _ _ _ E). lia. Qed.
End gains.
Arguments gains {W} meter {A} m cost.

(** Walks through a computation whose first steps acquire nothing. *)
Ltac gains_free :=
  repeat first
    [ apply gains_lift_free
    | apply gains_seq; [|intros ?]
    | apply gains_try_free; [|done|intros ?]
    | solve [apply gains_ret; done]
    | apply gains_call_free
    | case_match ].
