(* ===== verification/Chars.v ===== *)
(** * Characters: [uefi/src/data_types/chars.rs]

    [Char8] (Latin-1) and [Char16] (UCS-2) are transparent wrappers around
    [u8] and [u16] and are modelled by their numeric value.  A Rust [char] is
    a Unicode scalar value.  The file holds the conversions between the three,
    with the exact inputs on which each fails or panics. *)
From S2P Require Import Prelude.

(** Rust's [char]: a Unicode scalar value. *)
Definition is_surrogate (c : Z) : bool := (0xD800 <=? c) && (c <=? 0xDFFF).
Definition is_scalar (c : Z) : Prop :=
  0 <= c <= 0x10FFFF /\ is_surrogate c = false.

(** [char::try_from(u32)] and [char::from_u32]. *)
Definition char_from_u32 (v : Z) : option Z :=
  if (0 <=? v) && (v <=? 0x10FFFF) && negb (is_surrogate v) then Some v else None.

Inductive CharConversionError : Set := mkCharConversionError.

(** ** Char8 *)

Definition NUL_8 : Z := 0.

Definition char8_try_from_char (value : Z) : result Z CharConversionError :=
  let code_point := value in
  if code_point <? 2 ^ 8 then Ok code_point else Err mkCharConversionError.

Definition char_from_char8 (c : Z) : Z := c.

Definition char8_from_u8 (v : Z) : Z := v.

Definition u8_from_char8 (c : Z) : Z := c.

Definition char8_eq_char (self other : Z) : bool := self =? other.

(** ** Char16 *)

Definition NUL_16 : Z := 0.
Definition REPLACEMENT_CHARACTER : Z := 0xFFFD.

Definition char16_is_ascii (c : Z) : bool := c <=? 127.

Definition char16_try_from_char (value : Z) : result Z CharConversionError :=
  let code_point := value in
  if code_point <? 2 ^ 16 then Ok code_point else Err mkCharConversionError.

Definition char_from_char16 (c : Z) : outcome Z := unwrap (char_from_u32 c).

Definition char16_try_from_u16 (value : Z) : result Z CharConversionError :=
  match char_from_u32 value with
  | Some ch => char16_try_from_char ch
  | None => Err mkCharConversionError
  end.

Definition u16_from_char16 (c : Z) : Z := c.

(** The character [Display for Char16] writes. *)
Definition char16_display (c : Z) : Z :=
  match char_from_u32 c with
  | Some ch => ch
  | None => REPLACEMENT_CHARACTER
  end.

Definition char16_eq_char (self other : Z) : bool := self =? other.

(** A [Char16] that safe code can build: a UCS-2 code point. *)
Definition ucs2 (c : Z) : Prop := 0 <= c < 2 ^ 16 /\ is_surrogate c = false.

#[export] Instance ucs2_dec c : Decision (ucs2 c).
Proof. unfold ucs2. apply _. Defined.
#[export] Instance is_scalar_dec c : Decision (is_scalar c).
Proof. unfold is_scalar. apply _. Defined.

(** ** Facts *)

Lemma char_from_u32_Some v c : char_from_u32 v = Some c <-> c = v /\ is_scalar v.
Proof.
  unfold char_from_u32, is_scalar. destruct (is_surrogate v); simpl.
  - rewrite andb_false_r. naive_solver.
  - rewrite andb_true_r. destruct (0 <=? v) eqn:?, (v <=? 1114111) eqn:?;
      simpl; z_bools; naive_solver lia.
Qed.

Lemma char_from_u32_None v : char_from_u32 v = None <-> ~ is_scalar v.
Proof.
  destruct (char_from_u32 v) eqn:E.
  - apply char_from_u32_Some in E. naive_solver.
  - split; [|done]. intros _ Hs.
    pose proof (proj2 (char_from_u32_Some v v) (conj eq_refl Hs)). congruence.
Qed.

Lemma ucs2_scalar c : ucs2 c -> is_scalar c.
Proof. unfold ucs2, is_scalar. intros [? ?]. split; [lia|done]. Qed.

Lemma char16_try_from_u16_spec v :
  is_u16 v ->
  char16_try_from_u16 v = if is_surrogate v then Err mkCharConversionError else Ok v.
Proof.
  intros Hv. unfold char16_try_from_u16.
  destruct (is_surrogate v) eqn:Hs.
  - rewrite (proj2 (char_from_u32_None v)); [done|]. intros [_ ?]. congruence.
  - rewrite (proj2 (char_from_u32_Some v v)).
    + unfold char16_try_from_char, in_width in *. by rewrite (proj2 (Z.ltb_lt _ _)) by lia.
    + split; [done|]. apply ucs2_scalar. by split.
Qed.

Lemma char16_try_from_u16_ok v : ucs2 v -> char16_try_from_u16 v = Ok v.
Proof. intros [Hv Hs]. rewrite char16_try_from_u16_spec by done. by rewrite Hs. Qed.

Lemma char16_try_from_u16_Ok_inv v c :
  is_u16 v -> char16_try_from_u16 v = Ok c -> c = v /\ ucs2 v.
Proof.
  intros Hv. rewrite char16_try_from_u16_spec by done.
  destruct (is_surrogate v) eqn:Hs; [done|]. intros [= <-]. done.
Qed.

Lemma char_from_char16_ok c : ucs2 c -> char_from_char16 c = Ret c.
Proof.
  intros Hc%ucs2_scalar. unfold char_from_char16.
  by rewrite (proj2 (char_from_u32_Some c c)).
Qed.
#[export] Hint Resolve char_from_char16_ok ucs2_scalar char16_try_from_u16_ok : rust.

(** A [char] converts to [Char16] exactly when it is in the basic multilingual
    plane, and converting back is the identity and never panics. *)
Lemma char16_char_roundtrip ch :
  is_scalar ch ->
  match char16_try_from_char ch with
  | Ok c => ucs2 c /\ char_from_char16 c = Ret ch /\ char16_eq_char c ch = true
  | Err _ => 2 ^ 16 <= ch
  end.
Proof.
  intros [Hr Hs]. unfold char16_try_from_char. destruct (ch <? 2 ^ 16) eqn:E; z_bools; [|lia].
  assert (ucs2 ch) by (split; [lia|done]).
  split; [done|]. split; [by apply char_from_char16_ok|]. apply Z.eqb_refl.
Qed.
