(* ===== verification/Strs.v ===== *)
(** * Borrowed C strings: [uefi/src/data_types/strs.rs], [unaligned_slice.rs]

    [CStr8] and [CStr16] are the character sequence including the trailing
    NUL.  The file holds every checked constructor with its error values, the
    accessors and the character iterator, the comparison with Rust strings and
    the compile-time Latin-1 conversion behind [cstr8!].  A Rust [str] is its
    list of scalar values; [utf16_encode] and [utf8_encode] are its two
    encodings. *)
From S2P Require Import Prelude Chars.

Module FromSliceUntilNulError.
Inductive t : Set :=
| InvalidChar (pos : nat)
| NoNul.
End FromSliceUntilNulError.

Module FromSliceWithNulError.
Inductive t : Set :=
| InvalidChar (pos : nat)
| InteriorNul (pos : nat)
| NotNulTerminated.
End FromSliceWithNulError.

Module UnalignedCStr16Error.
Inductive t : Set :=
| InvalidChar (pos : nat)
| InteriorNul (pos : nat)
| NotNulTerminated
| BufferTooSmall.
End UnalignedCStr16Error.

Module FromStrWithBufError.
Inductive t : Set :=
| InvalidChar (pos : nat)
| InteriorNul (pos : nat)
| BufferTooSmall.
End FromStrWithBufError.

(** ** Rust strings *)

Definition utf16_encode_char (c : Z) : list Z :=
  if c <? 0x10000 then [c]
  else [0xD800 + (c - 0x10000) / 0x400; 0xDC00 + (c - 0x10000) mod 0x400].

(** [str::encode_utf16]. *)
Definition utf16_encode (s : list Z) : list Z := concat (map utf16_encode_char s).

Definition utf8_encode_char (c : Z) : list Z :=
  if c <? 0x80 then [c]
  else if c <? 0x800 then [0xC0 + c / 64; 0x80 + c mod 64]
  else if c <? 0x10000 then
    [0xE0 + c / 4096; 0x80 + c / 64 mod 64; 0x80 + c mod 64]
  else
    [0xF0 + c / 262144; 0x80 + c / 4096 mod 64; 0x80 + c / 64 mod 64; 0x80 + c mod 64].

(** [str::as_bytes]. *)
Definition utf8_encode (s : list Z) : list Z := concat (map utf8_encode_char s).

(** ** Unaligned slices *)

Module UnalignedSlice.

(** [data] is what the raw pointer addresses; reading past it is undefined. *)
Record t (A : Type) : Type := mk { data : list A; len : nat }.
Arguments mk {A} data len.
Arguments data {A} _.
Arguments len {A} _.

Definition is_empty {A} (s : t A) : bool := (len s =? 0)%nat.

Definition read_unaligned {A} (s : t A) (i : nat) : outcome A :=
  match data s !! i with Some a => Ret a | None => Undefined end.

Definition get {A} (s : t A) (i : nat) : outcome (option A) :=
  if (i <? len s)%nat then let! a := read_unaligned s i in Ret (Some a)
  else Ret None.

(** The copy loop: fills the [n] destination slots from index [i] on. *)
Fixpoint copy_loop {A} (s : t A) (i n : nat) : outcome (list A) :=
  match n with
  | O => Ret []
  | S n' =>
      let! a := read_unaligned s i in
      let! rest := copy_loop s (S i) n' in
      Ret (a :: rest)
  end.

(** The new contents of the destination. *)
Definition copy_to {A B} (s : t A) (dest : list B) : outcome (list A) :=
  if negb (length dest =? len s)%nat then Panic Explicit
  else copy_loop s 0 (length dest).

Definition copy_to_maybe_uninit {A B} (s : t A) (dest : list B) : outcome (list A) :=
  if negb (length dest =? len s)%nat then Panic Explicit
  else copy_loop s 0 (length dest).

(** The spare capacity of a fresh [Vec::with_capacity(len)] is [len] slots. *)
Definition to_vec {A} (s : t A) : outcome (list A) :=
  copy_to_maybe_uninit s (replicate (len s) (None : option A)).

(** [UnalignedSliceIter] and [UnalignedSliceIntoIter]: the slice and the next index. *)
Record Iter (A : Type) : Type := mkIter { slice_ : t A; index : nat }.
Arguments mkIter {A} slice_ index.
Arguments slice_ {A} _.
Arguments index {A} _.

Definition iter {A} (s : t A) : Iter A := mkIter s 0.

Definition next {A} (self : Iter A) : outcome (option A * Iter A) :=
  let! output := get (slice_ self) (index self) in
  match output with
  | None => Ret (None, self)
  | Some output => Ret (Some output, mkIter (slice_ self) (S (index self)))
  end.

Fixpoint collect {A} (fuel : nat) (self : Iter A) : outcome (list A) :=
  match fuel with
  | O => NoFuel
  | S fuel' =>
      let! (o, self) := next self in
      match o with
      | None => Ret []
      | Some a => let! rest := collect fuel' self in Ret (a :: rest)
      end
  end.

(** The safety contract of [UnalignedSlice::new]. *)
Definition valid {A} (s : t A) : Prop := (len s <= length (data s))%nat.

(** The elements of the slice. *)
Definition elements {A} (s : t A) : list A := take (len s) (data s).

Lemma copy_loop_spec {A} (s : t A) i n :
  (i + n <= length (data s))%nat ->
  copy_loop s i n = Ret (take n (drop i (data s))).
Proof.
  revert i. induction n as [|n IH]; intros i Hi; simpl; [by rewrite take_0|].
  unfold read_unaligned.
  destruct (lookup_lt_is_Some_2 (data s) i) as [a Ha]; [lia|].
  rewrite Ha; simpl. rewrite IH by lia. simpl.
  by rewrite (drop_S _ _ _ Ha).
Qed.

Lemma to_vec_spec {A} (s : t A) : valid s -> to_vec s = Ret (elements s).
Proof.
  intros Hv. unfold to_vec, copy_to_maybe_uninit.
  rewrite length_replicate, Nat.eqb_refl. simpl.
  by rewrite copy_loop_spec.
Qed.

(** Iterating gives what [to_vec] copies, in one step more than there are elements. *)
Lemma collect_spec {A} (s : t A) i fuel :
  valid s -> (i <= len s)%nat -> (len s - i < fuel)%nat -> collect fuel (mkIter s i) = Ret (drop i (elements s)).
Proof.
  intros Hv. revert i. induction fuel as [|fuel IH]; intros i Hi Hf; [lia|]. cbn [collect]. unfold next, get. cbn [slice_ index].
  destruct (Nat.ltb_spec i (len s)) as [Hlt|Hge].
  - unfold read_unaligned. destruct (lookup_lt_is_Some_2 (data s) i) as [a Ha]; [unfold valid in Hv; lia|]. rewrite Ha. cbn [obind].
    rewrite IH by lia. cbn [obind]. f_equal. symmetry. apply drop_S. unfold elements. by rewrite lookup_take_lt.
  - cbn [obind]. rewrite drop_ge; [done|]. unfold elements. rewrite length_take. lia.
Qed.

Lemma iter_collects {A} (s : t A) : valid s -> collect (S (len s)) (iter s) = to_vec s.
Proof. intros Hv. rewrite to_vec_spec by done. apply (collect_spec s 0); [done|lia|lia]. Qed.

End UnalignedSlice.

(** ** CStr8 *)

(** [CStr8::from_ptr]: scans the memory at the pointer up to the first NUL. *)
Fixpoint cstr_from_ptr_scan (mem : list Z) (nul : Z) : outcome nat :=
  match mem with
  | [] => Undefined
  | c :: mem' =>
      if c =? nul then Ret 0%nat
      else let! len := cstr_from_ptr_scan mem' nul in Ret (S len)
  end.

Definition cstr8_from_ptr (mem : list Z) : outcome (list Z) :=
  let! len := cstr_from_ptr_scan mem NUL_8 in
  Ret (take (len + 1) mem).

Definition cstr8_from_bytes_with_nul (chars : list Z)
  : result (list Z) FromSliceWithNulError.t :=
  match position (fun c => c =? 0) chars with
  | Some nul_pos =>
      if negb (nul_pos + 1 =? length chars)%nat
      then Err (FromSliceWithNulError.InteriorNul nul_pos)
      else Ok chars
  | None => Err FromSliceWithNulError.NotNulTerminated
  end.

Definition cstr8_as_bytes (s : list Z) : list Z := s.

(** [Display for CStr8]: the characters written, i.e. all but the last. *)
Definition cstr8_display `{Profile} (s : list Z) : outcome (list Z) :=
  let! n := usize_sub (zlen s) 1 in
  let! cs := slice s 0 n in
  Ret (map char_from_char8 cs).

(** The fused iterator chain
    [zip(..).take_while(both non-NUL).any(different)] on [CStr8]. *)
Fixpoint cstr8_any_not_equal (l r : list Z) : bool :=
  match l, r with
  | a :: l', b :: r' =>
      let a := char_from_char8 a in
      if negb (a =? 0) && negb (b =? 0)
      then (if negb (a =? b) then true else cstr8_any_not_equal l' r')
      else false
  | _, _ => false
  end.

Definition cstr8_eq_str_until_nul (self other : list Z) : bool :=
  negb (cstr8_any_not_equal self other).

(** [TryFrom<&CStr>]: a [CStr] is its bytes up to and with the NUL. *)
Definition cstr8_try_from_cstr (cstr : list Z) : result (list Z) FromSliceWithNulError.t :=
  cstr8_from_bytes_with_nul cstr.

(** ** Latin-1 conversion of string literals *)

Definition latin1_from_utf8_at_offset (bytes : list Z) (offset : Z)
  : outcome (Z * Z) :=
  let! b0 := index bytes offset in
  if Z.land b0 0x80 =? 0 then Ret (b0, 1)
  else if Z.land b0 0xE0 =? 0xC0 then
    let a := Z.land b0 0x1F in
    let! b1 := index bytes (offset + 1) in
    let b := Z.land b1 0x3F in
    let ch := Z.lor (Z.shiftl a 6) b in
    if 0xff <? ch then Panic Explicit
    else Ret (ch, 2)
  else Panic Explicit.

Fixpoint str_num_latin1_chars_loop (fuel : nat) (bytes : list Z)
  (offset num_latin1_chars : Z) : outcome Z :=
  match fuel with
  | O => NoFuel
  | S fuel' =>
      if offset <? zlen bytes then
        let! (_, num_utf8_bytes) := latin1_from_utf8_at_offset bytes offset in
        str_num_latin1_chars_loop fuel' bytes
          (offset + num_utf8_bytes) (num_latin1_chars + 1)
      else Ret num_latin1_chars
  end.

(** Every iteration advances by at least one byte. *)
Definition str_num_latin1_chars (s : list Z) : outcome Z :=
  let bytes := utf8_encode s in
  str_num_latin1_chars_loop (S (length bytes)) bytes 0 0.

Fixpoint str_to_latin1_loop (fuel : nat) (bytes output : list Z)
  (output_offset input_offset : Z) : outcome (list Z * Z) :=
  match fuel with
  | O => NoFuel
  | S fuel' =>
      if input_offset <? zlen bytes then
        let! (ch, num_utf8_bytes) := latin1_from_utf8_at_offset bytes input_offset in
        if ch =? 0 then Panic Explicit
        else if output_offset <? zlen output then
          str_to_latin1_loop fuel' bytes
            (<[Z.to_nat output_offset := ch]> output)
            (output_offset + 1) (input_offset + num_utf8_bytes)
        else Panic OutOfBounds
      else Ret (output, output_offset)
  end.

Definition str_to_latin1 (N : nat) (s : list Z) : outcome (list Z) :=
  let bytes := utf8_encode s in
  let! (output, output_offset) :=
    str_to_latin1_loop (S (length bytes)) bytes (replicate N 0) 0 0 in
  if negb (output_offset + 1 =? Z.of_nat N) then Panic Explicit
  else Ret output.

(** ** CStr16: constructors *)

Definition cstr16_from_ptr (mem : list Z) : outcome (list Z) :=
  let! len := cstr_from_ptr_scan mem NUL_16 in
  Ret (take (len + 1) mem).

Fixpoint from_u16_until_nul_loop (codes rest : list Z) (pos : nat)
  : result (list Z) FromSliceUntilNulError.t :=
  match rest with
  | [] => Err FromSliceUntilNulError.NoNul
  | code :: rest' =>
      match char16_try_from_u16 code with
      | Err _ => Err (FromSliceUntilNulError.InvalidChar pos)
      | Ok chr =>
          if chr =? NUL_16 then Ok (take (pos + 1) codes)
          else from_u16_until_nul_loop codes rest' (S pos)
      end
  end.

Definition cstr16_from_u16_until_nul (codes : list Z)
  : result (list Z) FromSliceUntilNulError.t :=
  from_u16_until_nul_loop codes codes 0.

Fixpoint from_u16_with_nul_loop (codes rest : list Z) (pos : nat)
  : result (list Z) FromSliceWithNulError.t :=
  match rest with
  | [] => Err FromSliceWithNulError.NotNulTerminated
  | code :: rest' =>
      match char16_try_from_u16 code with
      | Ok chr =>
          if chr =? NUL_16 then
            if negb (pos =? length codes - 1)%nat
            then Err (FromSliceWithNulError.InteriorNul pos)
            else Ok codes
          else from_u16_with_nul_loop codes rest' (S pos)
      | Err _ => Err (FromSliceWithNulError.InvalidChar pos)
      end
  end.

Definition cstr16_from_u16_with_nul (codes : list Z)
  : result (list Z) FromSliceWithNulError.t :=
  from_u16_with_nul_loop codes codes 0.

Definition cstr16_from_char16_until_nul (chars : list Z)
  : result (list Z) FromSliceUntilNulError.t :=
  match position (fun c => c =? NUL_16) chars with
  | None => Err FromSliceUntilNulError.NoNul
  | Some fin => Ok (take (fin + 1) chars)
  end.

Definition cstr16_from_char16_with_nul (chars : list Z)
  : result (list Z) FromSliceWithNulError.t :=
  if (length chars =? 0)%nat then Err FromSliceWithNulError.NotNulTerminated
  else
    match position (fun c => c =? NUL_16) chars with
    | Some null_index =>
        if (null_index =? length chars - 1)%nat then Ok chars
        else Err (FromSliceWithNulError.InteriorNul null_index)
    | None => Err FromSliceWithNulError.NotNulTerminated
    end.

(** The UTF-16 copy loop of [from_str_with_buf]: the next index, or the
    failure, with the buffer as written so far. *)
Fixpoint from_str_with_buf_loop (units buf : list Z) (index : nat)
  : result nat FromStrWithBufError.t * list Z :=
  match units with
  | [] => (Ok index, buf)
  | c :: units' =>
      if (index <? length buf)%nat
      then from_str_with_buf_loop units' (<[index := c]> buf) (S index)
      else (Err FromStrWithBufError.BufferTooSmall, buf)
  end.

(** The result and the final contents of the caller's buffer. *)
Definition cstr16_from_str_with_buf (input buf : list Z)
  : outcome (result (list Z) FromStrWithBufError.t * list Z) :=
  match from_str_with_buf_loop (utf16_encode input) buf 0 with
  | (Err e, buf) => Ret (Err e, buf)
  | (Ok index, buf) =>
      if negb (index <? length buf)%nat
      then Ret (Err FromStrWithBufError.BufferTooSmall, buf)
      else
        let buf := <[index := 0]> buf in
        match cstr16_from_u16_with_nul (take (index + 1) buf) with
        | Ok s => Ret (Ok s, buf)
        | Err (FromSliceWithNulError.InvalidChar p) =>
            Ret (Err (FromStrWithBufError.InvalidChar p), buf)
        | Err (FromSliceWithNulError.InteriorNul p) =>
            Ret (Err (FromStrWithBufError.InteriorNul p), buf)
        | Err FromSliceWithNulError.NotNulTerminated => Panic Explicit
        end
  end.

(** The buffer holds possibly uninitialised units. *)
Definition cstr16_from_unaligned_slice (src : UnalignedSlice.t Z)
  (buf : list (option Z)) : outcome (result (list Z) UnalignedCStr16Error.t) :=
  if negb (UnalignedSlice.len src <=? length buf)%nat
  then Ret (Err UnalignedCStr16Error.BufferTooSmall)
  else
    let! buf := UnalignedSlice.copy_to_maybe_uninit src
                  (take (UnalignedSlice.len src) buf) in
    Ret (map_err
      (fun e => match e with
        | FromSliceWithNulError.InvalidChar v => UnalignedCStr16Error.InvalidChar v
        | FromSliceWithNulError.InteriorNul v => UnalignedCStr16Error.InteriorNul v
        | FromSliceWithNulError.NotNulTerminated => UnalignedCStr16Error.NotNulTerminated
        end)
      (cstr16_from_u16_with_nul buf)).

(** ** CStr16: accessors *)

Definition cstr16_num_chars `{Profile} (s : list Z) : outcome Z :=
  usize_sub (zlen s) 1.

Definition cstr16_as_slice `{Profile} (s : list Z) : outcome (list Z) :=
  let! n := cstr16_num_chars s in slice s 0 n.

Definition cstr16_as_slice_with_nul (s : list Z) : list Z := s.

Definition cstr16_to_u16_slice_with_nul (s : list Z) : list Z :=
  map u16_from_char16 s.

Definition cstr16_to_u16_slice `{Profile} (s : list Z) : outcome (list Z) :=
  let chars := cstr16_to_u16_slice_with_nul s in
  let! n := usize_sub (zlen chars) 1 in slice chars 0 n.

Definition cstr16_is_empty `{Profile} (s : list Z) : outcome bool :=
  let! n := cstr16_num_chars s in Ret (n =? 0).

Definition cstr16_num_bytes `{Profile} (s : list Z) : outcome Z :=
  usize_mul (zlen s) 2.

Definition cstr16_is_ascii (s : list Z) : bool := forallb char16_is_ascii s.

(** The memory of the string on the little-endian UEFI targets. *)
Definition cstr16_as_bytes (s : list Z) : list Z := concat (map (le_bytes 2) s).

(** [CStr16Iter]: the string and the position. *)
Record CStr16Iter : Set := mkCStr16Iter { inner : list Z; pos : Z }.

Definition cstr16_iter (s : list Z) : CStr16Iter := mkCStr16Iter s 0.

Definition cstr16_iter_next `{Profile} (it : CStr16Iter)
  : outcome (option Z * CStr16Iter) :=
  let! last := usize_sub (zlen (inner it)) 1 in
  if last <=? pos it then Ret (None, it)
  else
    let it' := mkCStr16Iter (inner it) (pos it + 1) in
    Ret (inner it !! Z.to_nat (pos it' - 1), it').

(** A [for] loop over the iterator, collecting the items. *)
Fixpoint cstr16_iter_collect `{Profile} (fuel : nat) (it : CStr16Iter)
  : outcome (list Z) :=
  match fuel with
  | O => NoFuel
  | S fuel' =>
      let! (o, it') := cstr16_iter_next it in
      match o with
      | None => Ret []
      | Some c => let! rest := cstr16_iter_collect fuel' it' in Ret (c :: rest)
      end
  end.

(** [String::from(&CStr16)]: the scalar values of the Rust string. *)
Fixpoint chars_expect (cs : list Z) : outcome (list Z) :=
  match cs with
  | [] => Ret []
  | c :: cs' =>
      let! ch := unwrap (char_from_u32 c) in
      let! rest := chars_expect cs' in
      Ret (ch :: rest)
  end.

Definition string_from_cstr16 `{Profile} (s : list Z) : outcome (list Z) :=
  let! cs := cstr16_as_slice s in chars_expect (map u16_from_char16 cs).

(** [Display for CStr16]: the characters written. *)
Definition cstr16_display `{Profile} (s : list Z) : outcome (list Z) :=
  let! cs := cstr16_iter_collect (S (length s)) (cstr16_iter s) in
  Ret (map char16_display cs).

(** [as_str_in_buf] over an arbitrary [core::fmt::Write]: [write_char w c] is
    the writer after one character, or [None] for [fmt::Error]. *)
Fixpoint write_chars {W} (write_char : W -> Z -> option W) (cs : list Z) (w : W)
  : outcome (option W) :=
  match cs with
  | [] => Ret (Some w)
  | c :: cs' =>
      let! ch := char_from_char16 c in
      match write_char w ch with
      | None => Ret None
      | Some w' => write_chars write_char cs' w'
      end
  end.

Definition cstr16_as_str_in_buf `{Profile} {W} (write_char : W -> Z -> option W)
  (s : list Z) (w : W) : outcome (option W) :=
  let! cs := cstr16_iter_collect (S (length s)) (cstr16_iter s) in
  write_chars write_char cs w.

(** The fused chain of [EqStrUntilNul for CStr16]; [char::from] runs before
    the other side is asked for its character. *)
Fixpoint cstr16_any_not_equal (l r : list Z) : outcome bool :=
  match l with
  | [] => Ret false
  | a :: l' =>
      let! a := char_from_char16 a in
      match r with
      | [] => Ret false
      | b :: r' =>
          if negb (a =? 0) && negb (b =? 0)
          then (if negb (a =? b) then Ret true else cstr16_any_not_equal l' r')
          else Ret false
      end
  end.

Definition cstr16_eq_str_until_nul `{Profile} (self other : list Z) : outcome bool :=
  let! cs := cstr16_iter_collect (S (length self)) (cstr16_iter self) in
  let! any_not_equal := cstr16_any_not_equal cs other in
  Ret (negb any_not_equal).

(** ** Well-formedness *)

(** A character that may appear before the terminator. *)
Definition body_char (c : Z) : Prop := ucs2 c /\ c <> 0.

(** The invariant of [CStr16] and [CString16]: UCS-2 characters without NUL,
    then exactly one NUL. *)
Definition cstr16_wf (s : list Z) : Prop :=
  exists b, s = b ++ [0] /\ Forall body_char b.

(** The characters before the terminator. *)
Definition body (s : list Z) : list Z := removelast s.

#[export] Instance body_char_dec c : Decision (body_char c).
Proof. unfold body_char. apply _. Defined.

Lemma body_app_nul b : body (b ++ [0]) = b.
Proof. unfold body. apply removelast_last. Qed.

Lemma cstr16_wf_body s : cstr16_wf s <-> s = body s ++ [0] /\ Forall body_char (body s).
Proof.
  split.
  - intros (b & -> & Hb). by rewrite body_app_nul.
  - intros [Hs Hb]. by exists (body s).
Qed.

#[export] Instance cstr16_wf_dec s : Decision (cstr16_wf s).
Proof.
  refine (cast_if (decide (s = body s ++ [0] /\ Forall body_char (body s))));
    by rewrite cstr16_wf_body.
Defined.

Lemma body_char_u16 c : body_char c -> is_u16 c.
Proof. by intros [[? _] _]. Qed.

(** A C string at the front of memory is read back. *)
Lemma from_ptr_scan_app nul b k :
  Forall (fun c => c <> nul) b -> cstr_from_ptr_scan (b ++ nul :: k) nul = Ret (length b).
Proof.
  induction 1 as [|c b Hc _ IH]; simpl; [by rewrite Z.eqb_refl|].
  by rewrite (proj2 (Z.eqb_neq _ _)), IH.
Qed.

Lemma from_ptr_wf s k : cstr16_wf s -> cstr16_from_ptr (s ++ k) = Ret s.
Proof.
  intros (b & -> & Hb). unfold cstr16_from_ptr. rewrite <- app_assoc. simpl.
  rewrite from_ptr_scan_app by (eapply Forall_weaken, Hb; by intros ? []). cbn [obind].
  rewrite take_app_ge by lia. replace (length b + 1 - length b)%nat with 1%nat by lia.
  by rewrite take_0 || done.
Qed.

Lemma cstr16_wf_ucs2 s : cstr16_wf s -> Forall ucs2 s.
Proof.
  intros (b & -> & Hb). apply Forall_app. split.
  - eapply Forall_weaken; [|exact Hb]. by intros c [? _].
  - repeat constructor; vm_compute; congruence.
Qed.

Lemma body_chars_not_nul b :
  Forall body_char b -> Forall (fun c => (c =? 0) = false) b.
Proof. apply Forall_weaken. intros c [_ ?]. by apply Z.eqb_neq. Qed.

(** ** The two u16 scans *)

(** How a scan ends: a [good] prefix, then nothing, a NUL or a bad unit. *)
Lemma u16_scan_cases (codes : list Z) :
  Forall is_u16 codes ->
  Forall body_char codes \/
  (exists b k, codes = b ++ 0 :: k /\ Forall body_char b) \/
  (exists b c k, codes = b ++ c :: k /\ Forall body_char b /\ is_surrogate c = true).
Proof.
  induction 1 as [|c codes Hc Hcodes IH]; [by left|].
  destruct (is_surrogate c) eqn:Hs.
  { right. right. by exists [], c, codes. }
  destruct (decide (c = 0)) as [->|Hn].
  { right. left. by exists [], codes. }
  assert (body_char c) by done.
  destruct IH as [?|[(b & k & -> & ?)|(b & c' & k & -> & ? & ?)]].
  - left. by constructor.
  - right. left. exists (c :: b), k. split; [done|]. by constructor.
  - right. right. exists (c :: b), c', k. split; [done|]. split; [by constructor|done].
Qed.

Section scans.
Context (codes : list Z).

Lemma until_nul_loop_skip b rest p :
  Forall body_char b ->
  from_u16_until_nul_loop codes (b ++ rest) p =
  from_u16_until_nul_loop codes rest (p + length b).
Proof.
  intros Hb. revert p. induction Hb as [|c b [Hc Hn] _ IH]; intros p; simpl.
  { by rewrite Nat.add_0_r. }
  rewrite char16_try_from_u16_ok by done.
  rewrite (proj2 (Z.eqb_neq c NUL_16)) by done.
  rewrite IH. f_equal. lia.
Qed.

Lemma with_nul_loop_skip b rest p :
  Forall body_char b ->
  from_u16_with_nul_loop codes (b ++ rest) p =
  from_u16_with_nul_loop codes rest (p + length b).
Proof.
  intros Hb. revert p. induction Hb as [|c b [Hc Hn] _ IH]; intros p; simpl.
  { by rewrite Nat.add_0_r. }
  rewrite char16_try_from_u16_ok by done.
  rewrite (proj2 (Z.eqb_neq c NUL_16)) by done.
  rewrite IH. f_equal. lia.
Qed.

End scans.

Lemma surrogate_rejected c :
  is_surrogate c = true -> char16_try_from_u16 c = Err mkCharConversionError.
Proof.
  intros Hs. rewrite char16_try_from_u16_spec; [by rewrite Hs|].
  unfold is_surrogate in Hs. z_bools. unfold in_width. lia.
Qed.

Lemma from_u16_with_nul_ok b :
  Forall body_char b -> cstr16_from_u16_with_nul (b ++ [0]) = Ok (b ++ [0]).
Proof.
  intros Hb. unfold cstr16_from_u16_with_nul. rewrite with_nul_loop_skip by done.
  simpl. rewrite length_app, (proj2 (Nat.eqb_eq _ _)); [done|]. simpl. lia.
Qed.

Lemma from_u16_with_nul_interior b k :
  Forall body_char b -> k <> [] ->
  cstr16_from_u16_with_nul (b ++ 0 :: k) =
  Err (FromSliceWithNulError.InteriorNul (length b)).
Proof.
  intros Hb Hk. unfold cstr16_from_u16_with_nul. rewrite with_nul_loop_skip by done.
  simpl. rewrite length_app, (proj2 (Nat.eqb_neq _ _)); [done|].
  destruct k; simpl; [done|lia].
Qed.

Lemma from_u16_with_nul_invalid b c k :
  Forall body_char b -> is_surrogate c = true ->
  cstr16_from_u16_with_nul (b ++ c :: k) =
  Err (FromSliceWithNulError.InvalidChar (length b)).
Proof.
  intros Hb Hc. unfold cstr16_from_u16_with_nul. rewrite with_nul_loop_skip by done.
  simpl. by rewrite surrogate_rejected.
Qed.

Lemma from_u16_with_nul_unterminated b :
  Forall body_char b ->
  cstr16_from_u16_with_nul b = Err FromSliceWithNulError.NotNulTerminated.
Proof.
  intros Hb. unfold cstr16_from_u16_with_nul.
  pose proof (with_nul_loop_skip b b [] 0 Hb) as E. rewrite app_nil_r in E.
  by rewrite E.
Qed.

Lemma from_u16_with_nul_cases (codes : list Z) :
  Forall is_u16 codes ->
  match cstr16_from_u16_with_nul codes with
  | Ok s => s = codes /\ cstr16_wf codes
  | Err (FromSliceWithNulError.InvalidChar p) =>
      Forall body_char (take p codes) /\
      exists c, codes !! p = Some c /\ is_surrogate c = true
  | Err (FromSliceWithNulError.InteriorNul p) =>
      Forall body_char (take p codes) /\ codes !! p = Some 0 /\
      (p + 1 < length codes)%nat
  | Err FromSliceWithNulError.NotNulTerminated => Forall body_char codes
  end.
Proof.
  intros [Hb|[(b & k & -> & Hb)|(b & c & k & -> & Hb & Hc)]]%u16_scan_cases.
  - by rewrite from_u16_with_nul_unterminated.
  - destruct (decide (k = [])) as [->|Hk].
    + rewrite from_u16_with_nul_ok by done. split; [done|]. by exists b.
    + rewrite from_u16_with_nul_interior by done. rewrite take_app_length.
      split; [done|]. rewrite list_lookup_middle by done. split; [done|].
      rewrite length_app. destruct k; simpl; [done|lia].
  - rewrite from_u16_with_nul_invalid by done. rewrite take_app_length.
    split; [done|]. exists c. by rewrite list_lookup_middle by done.
Qed.

(** [from_u16_with_nul] succeeds exactly on the well-formed strings and
    otherwise reports the first offending position and its kind. *)
Theorem from_u16_with_nul_spec (codes : list Z) :
  Forall is_u16 codes ->
  (cstr16_from_u16_with_nul codes = Ok codes <-> cstr16_wf codes) /\
  match cstr16_from_u16_with_nul codes with
  | Ok s => s = codes /\ cstr16_wf codes
  | Err (FromSliceWithNulError.InvalidChar p) =>
      Forall body_char (take p codes) /\
      exists c, codes !! p = Some c /\ is_surrogate c = true
  | Err (FromSliceWithNulError.InteriorNul p) =>
      Forall body_char (take p codes) /\ codes !! p = Some 0 /\
      (p + 1 < length codes)%nat
  | Err FromSliceWithNulError.NotNulTerminated => Forall body_char codes
  end.
Proof.
  intros Hu. split; [|by apply from_u16_with_nul_cases]. split.
  - intros E. pose proof (from_u16_with_nul_cases codes Hu) as Hc. rewrite E in Hc. apply Hc.
  - intros (b & -> & Hb). by apply from_u16_with_nul_ok.
Qed.

Lemma from_u16_with_nul_spec_witness :
  cstr16_wf [0x61; 0] /\ cstr16_from_u16_with_nul [0x61; 0; 0x62] = Err (FromSliceWithNulError.InteriorNul 1) /\
  ([0x61; 0; 0x62] : list Z) !! 1%nat = Some 0.
Proof.
  split; [|split].
  - apply (from_u16_with_nul_spec [0x61; 0] ltac:(by_decide)).
  - reflexivity.
  - exact (proj1 (proj2 (proj2 (from_u16_with_nul_spec [0x61; 0; 0x62] ltac:(by_decide))))).
Defined.


(** [from_u16_until_nul] returns the prefix up to and including the first NUL
    when everything before it is UCS-2; units after the NUL are not looked at. *)
Theorem from_u16_until_nul_spec (codes : list Z) :
  Forall is_u16 codes ->
  match cstr16_from_u16_until_nul codes with
  | Ok s => cstr16_wf s /\ exists k, codes = s ++ k
  | Err (FromSliceUntilNulError.InvalidChar p) =>
      Forall body_char (take p codes) /\
      exists c, codes !! p = Some c /\ is_surrogate c = true
  | Err FromSliceUntilNulError.NoNul => Forall body_char codes
  end.
Proof.
  unfold cstr16_from_u16_until_nul.
  intros [Hb|[(b & k & -> & Hb)|(b & c & k & -> & Hb & Hc)]]%u16_scan_cases.
  - pose proof (until_nul_loop_skip codes codes [] 0 Hb) as E.
    rewrite app_nil_r in E. by rewrite E.
  - rewrite until_nul_loop_skip by done. simpl.
    rewrite take_app_add. simpl. rewrite take_0. split; [by exists b|].
    exists k. by rewrite <- app_assoc.
  - rewrite until_nul_loop_skip by done. simpl.
    rewrite surrogate_rejected by done. simpl. rewrite take_app_length.
    split; [done|]. exists c. by rewrite list_lookup_middle by done.
Qed.

Lemma from_u16_until_nul_spec_witness :
  cstr16_wf [0x61; 0] /\ exists k, [0x61; 0; 0xD800] = [0x61; 0] ++ k.
Proof. exact (from_u16_until_nul_spec [0x61; 0; 0xD800] ltac:(by_decide)). Defined.


(** The [Char16] constructors agree with the u16 ones on input that is already
    UCS-2. *)
Lemma from_char16_with_nul_agrees chars :
  Forall ucs2 chars ->
  cstr16_from_char16_with_nul chars = cstr16_from_u16_with_nul chars.
Proof.
  intros Hc. unfold cstr16_from_char16_with_nul.
  assert (Hu : Forall is_u16 chars) by (eapply Forall_weaken; [|exact Hc]; by intros ? []).
  destruct (u16_scan_cases chars Hu) as [Hb|[(b & k & -> & Hb)|(b & c & k & -> & Hb & Hs)]].
  - rewrite (proj2 (position_None _ chars)) by by apply body_chars_not_nul.
    rewrite from_u16_with_nul_unterminated by done. by destruct (_ =? 0)%nat.
  - rewrite position_app_r by (try apply body_chars_not_nul; done).
    rewrite length_app. simpl. rewrite (proj2 (Nat.eqb_neq _ _)) by lia.
    destruct k as [|x k].
    + rewrite from_u16_with_nul_ok by done.
      simpl. by rewrite (proj2 (Nat.eqb_eq _ _)) by lia.
    + rewrite from_u16_with_nul_interior by done.
      simpl. by rewrite (proj2 (Nat.eqb_neq _ _)) by lia.
  - exfalso. apply Forall_app in Hc as [_ Hc]. inversion Hc as [|?? [_ ?]]; subst.
    congruence.
Qed.

(** ** Accessors *)

Lemma num_chars_app `{Profile} b : cstr16_num_chars (b ++ [0]) = Ret (zlen b).
Proof.
  unfold cstr16_num_chars. rewrite zlen_app, usize_sub_ok by (simpl; unfold zlen; simpl; lia).
  f_equal. unfold zlen. simpl. lia.
Qed.

Lemma as_slice_app `{Profile} b : cstr16_as_slice (b ++ [0]) = Ret b.
Proof.
  unfold cstr16_as_slice. rewrite num_chars_app. simpl.
  rewrite slice_ok by (rewrite ?zlen_app; pose proof (zlen_nonneg b); unfold zlen; simpl; lia).
  rewrite Z.sub_0_r. unfold zlen. rewrite Nat2Z.id, drop_0. by rewrite take_app_length.
Qed.

Lemma is_empty_app `{Profile} b :
  cstr16_is_empty (b ++ [0]) = Ret (bool_decide (b = [])).
Proof.
  unfold cstr16_is_empty. rewrite num_chars_app. simpl. f_equal.
  destruct b; [done|]. rewrite bool_decide_false by done.
  apply Z.eqb_neq. unfold zlen. simpl. lia.
Qed.

Lemma iter_next_app `{Profile} b c k :
  cstr16_iter_next (mkCStr16Iter (b ++ c :: k ++ [0]) (zlen b)) =
  Ret (Some c, mkCStr16Iter (b ++ c :: k ++ [0]) (zlen (b ++ [c]))).
Proof.
  unfold cstr16_iter_next. simpl.
  rewrite zlen_app, zlen_cons, zlen_app, usize_sub_ok
    by (pose proof (zlen_nonneg b); pose proof (zlen_nonneg k); unfold zlen; simpl; lia).
  simpl. pose proof (zlen_nonneg k). rewrite (proj2 (Z.leb_gt _ _)) by (unfold zlen in *; simpl; lia).
  replace (Z.to_nat (zlen b + 1 - 1)) with (length b) by (unfold zlen; lia).
  rewrite list_lookup_middle by done. by rewrite zlen_app.
Qed.

Lemma iter_collect_from `{Profile} fuel b k :
  (length k < fuel)%nat ->
  cstr16_iter_collect fuel (mkCStr16Iter (b ++ k ++ [0]) (zlen b)) = Ret k.
Proof.
  revert b k. induction fuel as [|fuel IH]; intros b k Hf; [lia|].
  destruct k as [|c k]; simpl.
  - unfold cstr16_iter_next. simpl.
    rewrite zlen_app, usize_sub_ok by (pose proof (zlen_nonneg b); unfold zlen; simpl; lia).
    simpl. by rewrite (proj2 (Z.leb_le _ _)) by (unfold zlen; simpl; lia).
  - rewrite iter_next_app. simpl.
    replace (b ++ c :: k ++ [0]) with ((b ++ [c]) ++ k ++ [0]) by by rewrite <- app_assoc.
    rewrite IH by (simpl in Hf; lia). done.
Qed.

Lemma iter_collect_app `{Profile} b :
  cstr16_iter_collect (S (length (b ++ [0]))) (cstr16_iter (b ++ [0])) = Ret b.
Proof.
  apply (iter_collect_from _ [] b). rewrite length_app. simpl. lia.
Qed.

Lemma chars_expect_ok cs : Forall is_scalar cs -> chars_expect cs = Ret cs.
Proof.
  induction 1 as [|c cs Hc _ IH]; simpl; [done|].
  rewrite (proj2 (char_from_u32_Some c c)) by done. simpl. by rewrite IH.
Qed.

Lemma body_char_scalar b : Forall body_char b -> Forall is_scalar b.
Proof. apply Forall_weaken. intros c [? _]. by apply ucs2_scalar. Qed.

Lemma string_from_app `{Profile} b :
  Forall body_char b -> string_from_cstr16 (b ++ [0]) = Ret b.
Proof.
  intros Hb. unfold string_from_cstr16. rewrite as_slice_app. simpl.
  unfold u16_from_char16. rewrite map_id. by apply chars_expect_ok, body_char_scalar.
Qed.

Lemma display_app `{Profile} b :
  Forall body_char b -> cstr16_display (b ++ [0]) = Ret b.
Proof.
  intros Hb. unfold cstr16_display. rewrite iter_collect_app. simpl. f_equal.
  induction Hb as [|c b [Hc _] _ IH]; simpl; [done|]. f_equal; [|done].
  unfold char16_display. by rewrite (proj2 (char_from_u32_Some c c)) by auto with rust.
Qed.

(** On a well-formed string the iterator stops before the terminator and
    yields what [as_slice] and [String::from] give: no accessor panics. *)
Theorem cstr16_accessors_agree `{Profile} (s : list Z) :
  cstr16_wf s ->
  cstr16_num_chars s = Ret (zlen s - 1) /\
  cstr16_as_slice s = Ret (body s) /\
  cstr16_to_u16_slice s = Ret (body s) /\
  cstr16_iter_collect (S (length s)) (cstr16_iter s) = Ret (body s) /\
  string_from_cstr16 s = Ret (body s) /\
  cstr16_display s = Ret (body s).
Proof.
  intros (b & -> & Hb). rewrite body_app_nul, num_chars_app, as_slice_app,
    iter_collect_app, string_from_app, display_app by done.
  split; [f_equal; rewrite zlen_app; unfold zlen; simpl; lia|].
  split; [done|]. split; [|done].
  unfold cstr16_to_u16_slice, cstr16_to_u16_slice_with_nul, u16_from_char16.
  rewrite map_id. apply (as_slice_app b).
Qed.

Lemma cstr16_accessors_agree_witness :
  cstr16_num_chars (H := debug_profile) [0x61; 0x20AC; 0] = Ret 2 /\
  cstr16_as_slice (H := debug_profile) [0x61; 0x20AC; 0] = Ret [0x61; 0x20AC].
Proof.
  destruct (@cstr16_accessors_agree debug_profile [0x61; 0x20AC; 0] ltac:(by_decide)) as (Hn & Hs & _).
  split; [exact Hn|exact Hs].
Defined.


(** ** Encodings *)

Lemma utf16_bmp s : Forall (fun c => c < 0x10000) s -> utf16_encode s = s.
Proof.
  unfold utf16_encode. induction 1 as [|c s Hc _ IH]; simpl; [done|].
  unfold utf16_encode_char at 1. rewrite (proj2 (Z.ltb_lt _ _)) by lia.
  simpl. by rewrite IH.
Qed.

Lemma utf16_encode_app s k : utf16_encode (s ++ k) = utf16_encode s ++ utf16_encode k.
Proof. unfold utf16_encode. by rewrite map_app, concat_app. Qed.

(** The first unit of a character outside the basic plane is a surrogate. *)
Lemma utf16_astral c :
  0x10000 <= c <= 0x10FFFF ->
  exists hi lo, utf16_encode_char c = [hi; lo] /\ is_surrogate hi = true /\
    is_surrogate lo = true.
Proof.
  intros Hc. unfold utf16_encode_char. rewrite (proj2 (Z.ltb_ge _ _)) by lia.
  eexists _, _. split; [done|].
  assert (0 <= (c - 65536) / 1024 < 1024).
  { split; [apply Z.div_pos; lia|apply Z.div_lt_upper_bound; lia]. }
  pose proof (Z.mod_pos_bound (c - 65536) 1024).
  unfold is_surrogate. by rewrite !(proj2 (Z.leb_le _ _)) by lia.
Qed.

Lemma utf16_encode_u16 s : Forall is_scalar s -> Forall is_u16 (utf16_encode s).
Proof.
  unfold utf16_encode. induction 1 as [|c s [Hc Hs] _ IH]; simpl; [constructor|].
  apply Forall_app. split; [|done].
  destruct (decide (c < 0x10000)).
  - unfold utf16_encode_char. rewrite (proj2 (Z.ltb_lt _ _)) by lia.
    repeat constructor; simpl; lia.
  - destruct (utf16_astral c) as (hi & lo & -> & Hh & Hl); [lia|].
    unfold is_surrogate in *. z_bools. repeat constructor; simpl; lia.
Qed.

(** The raw bytes of a string decode to its units. *)
Fixpoint units_of_bytes (bs : list Z) : list Z :=
  match bs with
  | b0 :: b1 :: bs' => le_val [b0; b1] :: units_of_bytes bs'
  | _ => []
  end.

Theorem as_bytes_roundtrip (s : list Z) :
  Forall is_u16 s ->
  units_of_bytes (cstr16_as_bytes s) = s /\
  zlen (cstr16_as_bytes s) = 2 * zlen s.
Proof.
  unfold cstr16_as_bytes. induction 1 as [|c s Hc _ [IH IHl]]; [done|].
  simpl. split.
  - f_equal; [|exact IH].
    apply (le_val_bytes 2 c). unfold in_width in Hc. simpl. lia.
  - rewrite !zlen_cons. simpl in IHl. rewrite IHl. lia.
Qed.

(** ** Conversion of Rust strings into a buffer *)

Lemma from_str_with_buf_loop_fits units pre post :
  (length units <= length post)%nat ->
  from_str_with_buf_loop units (pre ++ post) (length pre) =
  (Ok (length pre + length units)%nat, pre ++ units ++ drop (length units) post).
Proof.
  revert pre post. induction units as [|c units IH]; intros pre post Hl; simpl.
  { by rewrite Nat.add_0_r, drop_0. }
  destruct post as [|x post]; simpl in Hl; [lia|].
  rewrite (proj2 (Nat.ltb_lt _ _)) by (rewrite length_app; simpl; lia).
  rewrite insert_app_r_alt, Nat.sub_diag by lia. simpl.
  replace (pre ++ c :: post) with ((pre ++ [c]) ++ post) by by rewrite <- app_assoc.
  replace (S (length pre)) with (length (pre ++ [c])) by (rewrite length_app; simpl; lia).
  rewrite IH by lia. rewrite <- app_assoc, length_app. simpl. f_equal. f_equal. lia.
Qed.

Lemma from_str_with_buf_loop_full units pre post :
  (length post < length units)%nat ->
  exists buf, from_str_with_buf_loop units (pre ++ post) (length pre) =
    (Err FromStrWithBufError.BufferTooSmall, buf).
Proof.
  revert pre post. induction units as [|c units IH]; intros pre post Hl; simpl in *; [lia|].
  destruct post as [|x post]; simpl in Hl.
  { rewrite app_nil_r, Nat.ltb_irrefl. by eexists. }
  rewrite (proj2 (Nat.ltb_lt _ _)) by (rewrite length_app; simpl; lia).
  rewrite insert_app_r_alt, Nat.sub_diag by lia. simpl.
  replace (pre ++ c :: post) with ((pre ++ [c]) ++ post) by by rewrite <- app_assoc.
  replace (S (length pre)) with (length (pre ++ [c])) by (rewrite length_app; simpl; lia).
  apply IH. lia.
Qed.

(** The body characters of a string are its UTF-16 units: a string whose
    units are all body characters lies in the basic plane. *)
Lemma utf16_body_identity s :
  Forall is_scalar s -> Forall body_char (utf16_encode s) -> utf16_encode s = s.
Proof.
  intros Hs. induction Hs as [|c s [Hc Hsur] Hs IH]; intros Hb; [done|].
  change (utf16_encode (c :: s)) with (utf16_encode_char c ++ utf16_encode s) in *.
  apply Forall_app in Hb as [Hbc Hb]. rewrite IH by done.
  destruct (decide (c < 0x10000)).
  - unfold utf16_encode_char. by rewrite (proj2 (Z.ltb_lt _ _)) by lia.
  - destruct (utf16_astral c) as (hi & lo & E & Hhi & _); [lia|].
    rewrite E in Hbc. inversion Hbc as [|?? [[_ ?] _]]; subst. congruence.
Qed.

Lemma from_str_with_buf_fits input (buf : list Z) :
  let units := utf16_encode input in
  (length units < length buf)%nat ->
  Forall is_scalar input ->
  cstr16_from_str_with_buf input buf =
  Ret (map_err
         (fun e => match e with
           | FromSliceWithNulError.InvalidChar p => FromStrWithBufError.InvalidChar p
           | FromSliceWithNulError.InteriorNul p => FromStrWithBufError.InteriorNul p
           | FromSliceWithNulError.NotNulTerminated => FromStrWithBufError.BufferTooSmall
           end)
         (cstr16_from_u16_with_nul (units ++ [0])),
       units ++ 0 :: drop (S (length units)) buf).
Proof.
  simpl. intros Hlen Hs. unfold cstr16_from_str_with_buf.
  pose proof (from_str_with_buf_loop_fits (utf16_encode input) [] buf) as E. simpl in E.
  rewrite E by lia. clear E.
  rewrite length_app, length_drop.
  rewrite (proj2 (Nat.ltb_lt _ _)) by lia. simpl.
  rewrite insert_app_r_alt, Nat.sub_diag by lia.
  destruct (lookup_lt_is_Some_2 buf (length (utf16_encode input)) Hlen) as [x Hx].
  rewrite (drop_S _ _ _ Hx). simpl.
  rewrite take_app_add. simpl. rewrite take_0.
  pose proof (from_u16_with_nul_cases (utf16_encode input ++ [0])) as Hspec.
  destruct (cstr16_from_u16_with_nul (utf16_encode input ++ [0])) as [s|[p|p|]]; [done..|].
  exfalso. assert (Forall body_char (utf16_encode input ++ [0])) as Hall.
  { apply Hspec. apply Forall_app. split; [by apply utf16_encode_u16|].
    repeat constructor; simpl; lia. }
  clear Hspec. apply Forall_app in Hall as [_ Hz]. inversion Hz as [|?? [_ ?]]; done.
Qed.

(** [from_str_with_buf] never reaches its [unreachable!()]; a buffer with room
    for the UTF-16 units and the NUL gives the string itself or the position of
    the first unit that is a surrogate or NUL, and a smaller buffer gives
    [BufferTooSmall]. *)
Theorem from_str_with_buf_spec (input buf : list Z) :
  Forall is_scalar input ->
  exists r buf', cstr16_from_str_with_buf input buf = Ret (r, buf') /\
  let units := utf16_encode input in
  match r with
  | Ok s => s = input ++ [0] /\ cstr16_wf s /\ (length input < length buf)%nat /\
            buf' = s ++ drop (length s) buf
  | Err (FromStrWithBufError.InvalidChar p) =>
      (length units < length buf)%nat /\ Forall body_char (take p units) /\
      exists c, units !! p = Some c /\ is_surrogate c = true
  | Err (FromStrWithBufError.InteriorNul p) =>
      (length units < length buf)%nat /\ Forall body_char (take p units) /\
      units !! p = Some 0
  | Err FromStrWithBufError.BufferTooSmall => (length buf <= length units)%nat
  end.
Proof.
  intros Hs. simpl. pose proof (utf16_encode_u16 _ Hs) as Hu.
  destruct (decide (length (utf16_encode input) < length buf)%nat) as [Hl|Hl].
  - rewrite from_str_with_buf_fits by done. eexists _, _. split; [done|].
    destruct (u16_scan_cases _ Hu) as [Hb|[(b & k & E & Hb)|(b & c & k & E & Hb & Hc)]].
    + rewrite from_u16_with_nul_ok by done. simpl.
      pose proof (utf16_body_identity input Hs Hb) as E. rewrite E in Hl, Hb |- *.
      split; [done|]. split; [by exists input|]. split; [done|].
      rewrite <- app_assoc. simpl. do 3 f_equal. rewrite length_app. simpl. lia.
    + rewrite E, <- app_assoc. simpl. rewrite from_u16_with_nul_interior
        by (destruct k; done). simpl.
      rewrite take_app_length, list_lookup_middle by done. by rewrite <- E.
    + rewrite E, <- app_assoc. simpl. rewrite from_u16_with_nul_invalid by done. simpl.
      rewrite take_app_length, list_lookup_middle by done. rewrite <- E. eauto.
  - unfold cstr16_from_str_with_buf.
    destruct (decide (length (utf16_encode input) = length buf)) as [E|E].
    + pose proof (from_str_with_buf_loop_fits (utf16_encode input) [] buf) as F.
      simpl in F. rewrite F by lia.
      rewrite length_app, length_drop, (proj2 (Nat.ltb_ge _ _)) by lia.
      eexists _, _. split; [done|]. simpl. lia.
    + destruct (from_str_with_buf_loop_full (utf16_encode input) [] buf) as [b' F]; [lia|].
      simpl in F. rewrite F. eexists _, _. split; [done|]. simpl. lia.
Qed.

Lemma from_str_with_buf_spec_witness :
  exists buf', cstr16_from_str_with_buf [0x61; 0x62] [9; 9; 9; 9] = Ret (Ok [0x61; 0x62; 0], buf') /\
    buf' = [0x61; 0x62; 0; 9].
Proof.
  destruct (from_str_with_buf_spec [0x61; 0x62] [9; 9; 9; 9] ltac:(by_decide)) as (r & buf' & E & Hr).
  vm_compute in E. injection E as <- <-. destruct Hr as (_ & _ & _ & Hb). eexists; split; [reflexivity|exact Hb].
Defined.


(** ** Comparison with Rust strings *)

(** What a Rust string contributes to a comparison: its part before a NUL. *)
Definition until_nul (other : list Z) : list Z := take_while (fun c => negb (c =? 0)) other.

Definition comparable (b o : list Z) : Prop := b `prefix_of` o \/ o `prefix_of` b.

#[export] Instance comparable_dec b o : Decision (comparable b o).
Proof. unfold comparable. apply _. Defined.
#[local] Opaque comparable_dec.

Lemma any_not_equal_spec b other :
  Forall body_char b ->
  cstr16_any_not_equal b other = Ret (negb (bool_decide (comparable b (until_nul other)))).
Proof.
  intros Hb. revert other. induction Hb as [|c b [Hc Hn] _ IH]; intros other; simpl.
  { rewrite bool_decide_true; [done|]. left. apply prefix_nil. }
  rewrite char_from_char16_ok by done. simpl.
  rewrite (proj2 (Z.eqb_neq c 0)) by done. simpl.
  destruct other as [|o other]; simpl.
  { rewrite bool_decide_true; [done|]. right. apply prefix_nil. }
  destruct (o =? 0) eqn:Ho; simpl.
  { rewrite bool_decide_true; [done|]. right. unfold until_nul. simpl. rewrite Ho.
    apply prefix_nil. }
  unfold until_nul. simpl. rewrite Ho. simpl. fold (until_nul other).
  destruct (c =? o) eqn:E; z_bools; simpl.
  - subst o. rewrite IH. do 2 f_equal. apply bool_decide_ext. unfold comparable.
    split; intros [Hp|Hp]; [left|right|left|right];
      solve [by apply prefix_cons|by apply prefix_cons_inv_2 in Hp].
  - rewrite bool_decide_false; [done|]. unfold comparable.
    intros [Hp|Hp]; apply prefix_cons_inv_1 in Hp; congruence.
Qed.

(** [eq_str_until_nul] holds exactly when one of the two texts (each cut at its
    first NUL) is a prefix of the other: it is a prefix test in both
    directions, not an equality test. *)
Theorem eq_str_until_nul_prefix `{Profile} (s other : list Z) :
  cstr16_wf s ->
  cstr16_eq_str_until_nul s other =
  Ret (bool_decide (comparable (body s) (until_nul other))).
Proof.
  intros (b & -> & Hb). unfold cstr16_eq_str_until_nul.
  rewrite body_app_nul, iter_collect_app. simpl. rewrite any_not_equal_spec by done.
  simpl. by rewrite negb_involutive.
Qed.

Lemma eq_str_until_nul_prefix_witness :
  cstr16_eq_str_until_nul (H := debug_profile) [0x61; 0x62; 0] [0x61; 0x62; 0; 0x63] = Ret true /\
  cstr16_eq_str_until_nul (H := debug_profile) [0x61; 0x62; 0] [0x61] = Ret true /\
  cstr16_eq_str_until_nul (H := debug_profile) [0x61; 0x62; 0] [0x63] = Ret false.
Proof.
  pose proof (@eq_str_until_nul_prefix debug_profile [0x61; 0x62; 0]) as E.
  split; [|split].
  - exact (E [0x61; 0x62; 0; 0x63] ltac:(by_decide)).
  - exact (E [0x61] ltac:(by_decide)).
  - exact (E [0x63] ltac:(by_decide)).
Defined.


(** Every [CStr] is a [CStr8], and it is the string that is found at its pointer,
    whatever follows it; bytes after the NUL are an error of the checked constructor. *)
Theorem cstr8_constructors_agree (b k : list Z) :
  Forall (fun c => c <> 0) b ->
  cstr8_try_from_cstr (b ++ [0]) = Ok (b ++ [0]) /\ cstr8_from_ptr (b ++ 0 :: k) = Ret (b ++ [0]) /\
  (k <> [] -> cstr8_from_bytes_with_nul (b ++ 0 :: k) = Err (FromSliceWithNulError.InteriorNul (length b))) /\
  cstr8_from_bytes_with_nul b = Err FromSliceWithNulError.NotNulTerminated.
Proof.
  intros Hb. assert (Forall (fun c => (c =? 0) = false) b) as Hz by (eapply Forall_weaken, Hb; intros c; apply Z.eqb_neq).
  assert (forall k, position (fun c => c =? 0) (b ++ 0 :: k) = Some (length b)) as Hp by (intros k'; by apply position_app_r).
  unfold cstr8_try_from_cstr, cstr8_from_bytes_with_nul, cstr8_from_ptr. rewrite !Hp, (proj2 (position_None _ b) Hz), !length_app. cbn [length].
  rewrite Nat.eqb_refl. unfold NUL_8. rewrite from_ptr_scan_app by done. cbn [obind]. split; [done|]. split; [|split; [|done]].
  - f_equal. rewrite take_app_add. done.
  - intros Hk. destruct k as [|x k]; [done|]. cbn [length]. by rewrite (proj2 (Nat.eqb_neq _ _)) by lia.
Qed.

(** [CStr8] compares the same way although its iteration includes the NUL. *)
Lemma cstr8_any_not_equal_spec b other :
  Forall (fun c => c <> 0) b ->
  cstr8_any_not_equal (b ++ [0]) other =
  negb (bool_decide (comparable b (until_nul other))).
Proof.
  intros Hb. revert other. induction Hb as [|c b Hn _ IH]; intros other; simpl.
  { rewrite bool_decide_true by (left; apply prefix_nil). by destruct other. }
  destruct other as [|o other].
  { rewrite bool_decide_true; [done|]. right. apply prefix_nil. }
  unfold char_from_char8. rewrite (proj2 (Z.eqb_neq c 0)) by done. simpl.
  unfold until_nul. simpl.
  destruct (o =? 0) eqn:Ho; simpl.
  { rewrite bool_decide_true; [done|]. right. apply prefix_nil. }
  fold (until_nul other).
  destruct (c =? o) eqn:E; z_bools; simpl.
  - subst o. rewrite IH. f_equal. apply bool_decide_ext. unfold comparable.
    split; intros [Hp|Hp]; [left|right|left|right];
      solve [by apply prefix_cons|by apply prefix_cons_inv_2 in Hp].
  - rewrite bool_decide_false; [done|]. unfold comparable.
    intros [Hp|Hp]; apply prefix_cons_inv_1 in Hp; congruence.
Qed.

(** The comparison distinguishes less than equality: a CStr16 equals every
    string it is a prefix of. *)
Lemma eq_str_until_nul_not_equality :
  cstr16_eq_str_until_nul (H := debug_profile) [0x61; 0] [0x61; 0x62] = Ret true /\
  cstr16_eq_str_until_nul (H := debug_profile) [0x61; 0] [] = Ret true.
Proof. split; reflexivity. Qed.

(** ** Unaligned input *)

(** Reading through an unaligned slice gives what the aligned constructor gives
    on its elements, if the buffer is large enough. *)
Theorem from_unaligned_slice_agrees (src : UnalignedSlice.t Z) (buf : list (option Z)) :
  UnalignedSlice.valid src ->
  (UnalignedSlice.len src <= length buf)%nat ->
  exists r, cstr16_from_unaligned_slice src buf = Ret r /\
  match r, cstr16_from_u16_with_nul (UnalignedSlice.elements src) with
  | Ok s, Ok s' => s = s'
  | Err (UnalignedCStr16Error.InvalidChar p), Err (FromSliceWithNulError.InvalidChar q) => p = q
  | Err (UnalignedCStr16Error.InteriorNul p), Err (FromSliceWithNulError.InteriorNul q) => p = q
  | Err UnalignedCStr16Error.NotNulTerminated, Err FromSliceWithNulError.NotNulTerminated => True
  | _, _ => False
  end.
Proof.
  intros Hv Hl. unfold cstr16_from_unaligned_slice.
  rewrite (proj2 (Nat.leb_le _ _)) by done. simpl.
  unfold UnalignedSlice.copy_to_maybe_uninit.
  rewrite length_take, Nat.min_l, Nat.eqb_refl by done. simpl.
  rewrite UnalignedSlice.copy_loop_spec by done. simpl. rewrite drop_0.
  eexists. split; [done|]. unfold UnalignedSlice.elements.
  by destruct (cstr16_from_u16_with_nul _) as [|[]].
Qed.

(** ** Latin-1 literals *)

(** Finite facts about UTF-8 lead bytes, by evaluation. *)
Definition utf8_pair_ok (c : Z) : bool :=
  let b0 := 0xC0 + c / 64 in
  let b1 := 0x80 + c mod 64 in
  negb (Z.land b0 0x80 =? 0) && (Z.land b0 0xE0 =? 0xC0) &&
  (Z.lor (Z.shiftl (Z.land b0 0x1F) 6) (Z.land b1 0x3F) =? c).

Lemma forallb_seqZ (p : Z -> bool) lo n z :
  forallb p (seqZ lo n) = true -> lo <= z < lo + n -> p z = true.
Proof.
  intros Hp Hz. apply (proj1 (List.forallb_forall _ _) Hp).
  apply list_elem_of_In. by apply elem_of_seqZ.
Qed.

Lemma utf8_pair c : 0x80 <= c < 0x800 -> utf8_pair_ok c = true.
Proof. intros. apply (forallb_seqZ _ 0x80 0x780); [by vm_compute|lia]. Qed.

Lemma utf8_long_lead b :
  0xE0 <= b <= 0xF4 ->
  (negb (Z.land b 0x80 =? 0) && negb (Z.land b 0xE0 =? 0xC0)) = true.
Proof.
  intros. apply (forallb_seqZ
    (fun b => negb (Z.land b 0x80 =? 0) && negb (Z.land b 0xE0 =? 0xC0)) 0xE0 0x15 b);
    [by vm_compute|lia].
Qed.

Lemma utf8_ascii c : 0 <= c < 0x80 -> (Z.land c 0x80 =? 0) = true.
Proof.
  intros. apply (forallb_seqZ (fun b => Z.land b 0x80 =? 0) 0 0x80 c); [by vm_compute|lia].
Qed.

Lemma utf8_long_head c :
  0x800 <= c <= 0x10FFFF ->
  exists b k, utf8_encode_char c = b :: k /\ 0xE0 <= b <= 0xF4.
Proof.
  intros Hc. unfold utf8_encode_char.
  rewrite (proj2 (Z.ltb_ge _ _)), (proj2 (Z.ltb_ge c 0x800)) by lia.
  destruct (c <? 65536) eqn:E; z_bools; eexists _, _; (split; [done|]).
  - assert (0 <= c / 4096 < 16); [|lia].
    split; [apply Z.div_pos; lia|apply Z.div_lt_upper_bound; lia].
  - assert (0 <= c / 262144 < 5); [|lia].
    split; [apply Z.div_pos; lia|apply Z.div_lt_upper_bound; lia].
Qed.

(** One decoding step at a character boundary. *)
Lemma latin1_step pre c k :
  is_scalar c ->
  latin1_from_utf8_at_offset (pre ++ utf8_encode_char c ++ k) (zlen pre) =
  if c <=? 0xff then Ret (c, zlen (utf8_encode_char c)) else Panic Explicit.
Proof.
  intros [Hc _]. unfold latin1_from_utf8_at_offset.
  destruct (decide (c < 0x800)) as [Hs|Hs].
  - unfold utf8_encode_char. destruct (c <? 128) eqn:E; z_bools; simpl.
    + rewrite (index_ok _ (length pre) c) by by apply list_lookup_middle.
      simpl. rewrite utf8_ascii by lia. by rewrite (proj2 (Z.leb_le _ _)) by lia.
    + rewrite (proj2 (Z.ltb_lt _ _)) by lia.
      pose proof (utf8_pair c ltac:(lia)) as Hp. unfold utf8_pair_ok in Hp. z_bools.
      rewrite (index_ok _ (length pre) (0xC0 + c / 64)) by by apply list_lookup_middle.
      simpl. rewrite (proj2 (Z.eqb_neq _ _)), (proj2 (Z.eqb_eq _ 0xC0)) by done.
      replace (zlen pre + 1) with (Z.of_nat (S (length pre))) by (unfold zlen; lia).
      rewrite (index_ok _ _ (0x80 + c mod 64)).
      2: { change (pre ++ (192 + c / 64) :: (128 + c mod 64) :: k)
             with (pre ++ [192 + c / 64] ++ (128 + c mod 64) :: k).
           rewrite app_assoc. apply list_lookup_middle. rewrite length_app. simpl. lia. }
      simpl. match goal with H : Z.lor _ _ = c |- _ => rewrite H end.
      destruct (255 <? c) eqn:E'; z_bools.
      * by rewrite (proj2 (Z.leb_gt _ _)) by lia.
      * by rewrite (proj2 (Z.leb_le _ _)) by lia.
  - destruct (utf8_long_head c) as (b & k' & -> & Hb); [lia|]. simpl.
    rewrite (index_ok _ (length pre) b) by by apply list_lookup_middle. simpl.
    pose proof (utf8_long_lead b Hb). z_bools.
    rewrite (proj2 (Z.eqb_neq _ 0)), (proj2 (Z.eqb_neq _ 0xC0)) by done.
    by rewrite (proj2 (Z.leb_gt _ _)) by lia.
Qed.

Lemma utf8_encode_cons c s : utf8_encode (c :: s) = utf8_encode_char c ++ utf8_encode s.
Proof. done. Qed.

Lemma utf8_encode_snoc s c : utf8_encode (s ++ [c]) = utf8_encode s ++ utf8_encode_char c.
Proof. unfold utf8_encode. rewrite map_app, concat_app. simpl. by rewrite app_nil_r. Qed.

Lemma utf8_encode_char_pos c : (0 < length (utf8_encode_char c))%nat.
Proof. unfold utf8_encode_char. repeat case_match; simpl; lia. Qed.

(** The byte position of the next character lies inside the string. *)
Lemma latin1_offset_lt pre c s :
  (zlen pre <? zlen (pre ++ utf8_encode (c :: s))) = true.
Proof.
  rewrite utf8_encode_cons. apply Z.ltb_lt. rewrite !zlen_app.
  pose proof (utf8_encode_char_pos c). pose proof (zlen_nonneg (utf8_encode s)).
  unfold zlen in *. lia.
Qed.

Lemma latin1_offset_end pre : (zlen pre <? zlen (pre ++ utf8_encode [])) = false.
Proof. unfold utf8_encode. simpl. rewrite app_nil_r. apply Z.ltb_irrefl. Qed.

Lemma latin1_shift pre c s :
  pre ++ utf8_encode (c :: s) = (pre ++ utf8_encode_char c) ++ utf8_encode s.
Proof. by rewrite utf8_encode_cons, app_assoc. Qed.

Lemma num_latin1_loop_spec fuel pre s n :
  Forall is_scalar s -> (length (utf8_encode s) < fuel)%nat ->
  str_num_latin1_chars_loop fuel (pre ++ utf8_encode s) (zlen pre) n =
  if forallb (fun c => c <=? 0xff) s then Ret (n + zlen s) else Panic Explicit.
Proof.
  intros Hs. revert pre n fuel. induction Hs as [|c s Hc Hs IH]; intros pre n fuel Hf.
  - destruct fuel; [lia|]. cbn [str_num_latin1_chars_loop].
    rewrite latin1_offset_end. simpl. f_equal. unfold zlen. simpl. lia.
  - destruct fuel as [|fuel]; [lia|]. cbn [str_num_latin1_chars_loop forallb].
    rewrite latin1_offset_lt, utf8_encode_cons, latin1_step by done.
    destruct (c <=? 255); [|done]. cbn [obind andb].
    rewrite app_assoc. rewrite <- zlen_app. rewrite IH.
    + rewrite zlen_cons. by rewrite Z.add_assoc.
    + rewrite utf8_encode_cons, length_app in Hf. pose proof (utf8_encode_char_pos c). lia.
Qed.

(** The compile-time length computation counts the characters of a Latin-1
    literal and rejects every other literal. *)
Theorem str_num_latin1_chars_spec (s : list Z) :
  Forall is_scalar s ->
  str_num_latin1_chars s =
  if forallb (fun c => c <=? 0xff) s then Ret (zlen s) else Panic Explicit.
Proof.
  intros Hs. unfold str_num_latin1_chars.
  apply (num_latin1_loop_spec _ [] s 0); [done|lia].
Qed.

Definition latin1_body (c : Z) : bool := negb (c =? 0) && (c <=? 0xff).

Lemma to_latin1_loop_ok fuel prev s m :
  Forall is_scalar s -> forallb latin1_body s = true ->
  (length (utf8_encode s) < fuel)%nat -> (length s <= m)%nat ->
  str_to_latin1_loop fuel (utf8_encode prev ++ utf8_encode s)
    (prev ++ replicate m 0) (zlen prev) (zlen (utf8_encode prev)) =
  Ret (prev ++ s ++ replicate (m - length s) 0, zlen prev + zlen s).
Proof.
  intros Hs. revert prev m fuel. induction Hs as [|c s Hc Hs IH]; intros prev m fuel Hg Hf Hm.
  - destruct fuel; [lia|]. cbn [str_to_latin1_loop].
    rewrite latin1_offset_end. simpl. rewrite Nat.sub_0_r. do 2 f_equal. unfold zlen. simpl. lia.
  - destruct fuel as [|fuel]; [lia|]. cbn [str_to_latin1_loop].
    cbn [forallb] in Hg. unfold latin1_body at 1 in Hg. apply andb_true_iff in Hg as [Hgc Hg].
    apply andb_true_iff in Hgc as [Hz Hle]. apply negb_true_iff in Hz.
    rewrite latin1_offset_lt, utf8_encode_cons, latin1_step by done.
    rewrite Hle. cbn [obind]. rewrite Hz.
    simpl in Hm. destruct m as [|m]; [lia|].
    rewrite (proj2 (Z.ltb_lt _ _)) by (rewrite zlen_app; unfold zlen; simpl; lia).
    replace (Z.to_nat (zlen prev)) with (length prev) by (unfold zlen; lia).
    rewrite insert_app_r_alt, Nat.sub_diag by lia. simpl replicate. simpl insert.
    rewrite app_assoc, <- utf8_encode_snoc, <- zlen_app, <- utf8_encode_snoc.
    replace (prev ++ c :: replicate m 0) with ((prev ++ [c]) ++ replicate m 0)
      by by rewrite <- app_assoc.
    replace (zlen prev + 1) with (zlen (prev ++ [c])) by (rewrite zlen_app; done).
    rewrite IH; [|done| |lia].
    + rewrite <- app_assoc, zlen_app, zlen_cons. simpl. do 2 f_equal. unfold zlen. simpl. lia.
    + rewrite utf8_encode_cons, length_app in Hf. pose proof (utf8_encode_char_pos c). lia.
Qed.

Lemma to_latin1_loop_bad fuel prev s m :
  Forall is_scalar s ->
  forallb latin1_body s = false \/ (m < length s)%nat ->
  (length (utf8_encode s) < fuel)%nat ->
  exists f, str_to_latin1_loop fuel (utf8_encode prev ++ utf8_encode s)
    (prev ++ replicate m 0) (zlen prev) (zlen (utf8_encode prev)) = Panic f.
Proof.
  intros Hs. revert prev m fuel. induction Hs as [|c s Hc Hs IH]; intros prev m fuel Hg Hf.
  { simpl in Hg. destruct Hg; [done|lia]. }
  destruct fuel as [|fuel]; [lia|]. cbn [str_to_latin1_loop].
  rewrite latin1_offset_lt, utf8_encode_cons, latin1_step by done.
  destruct (c <=? 255) eqn:Hle; [|by eexists]. cbn [obind].
  destruct (c =? 0) eqn:Hz; [by eexists|].
  destruct m as [|m].
  { rewrite (proj2 (Z.ltb_ge _ _)); [by eexists|]. simpl. by rewrite app_nil_r. }
  rewrite (proj2 (Z.ltb_lt _ _)) by (rewrite zlen_app; unfold zlen; simpl; lia).
  replace (Z.to_nat (zlen prev)) with (length prev) by (unfold zlen; lia).
  rewrite insert_app_r_alt, Nat.sub_diag by lia. simpl replicate. simpl insert.
  rewrite app_assoc, <- utf8_encode_snoc, <- zlen_app, <- utf8_encode_snoc.
  replace (prev ++ c :: replicate m 0) with ((prev ++ [c]) ++ replicate m 0)
    by by rewrite <- app_assoc.
  replace (zlen prev + 1) with (zlen (prev ++ [c])) by (rewrite zlen_app; done).
  apply IH.
  - simpl in Hg. unfold latin1_body at 1 in Hg. rewrite Hz, Hle in Hg. simpl in Hg.
    destruct Hg; [by left|right; lia].
  - rewrite utf8_encode_cons, length_app in Hf. pose proof (utf8_encode_char_pos c). lia.
Qed.

(** The array built for [cstr8!] is the literal followed by NUL; a literal with
    a NUL or a character beyond Latin-1, or a wrong array length, is rejected
    by a panic, and there is no other result. *)
Theorem str_to_latin1_spec (N : nat) (s : list Z) :
  Forall is_scalar s ->
  if forallb latin1_body s && (length s + 1 =? N)%nat
  then str_to_latin1 N s = Ret (s ++ [0])
  else exists f, str_to_latin1 N s = Panic f.
Proof.
  intros Hs. unfold str_to_latin1.
  destruct (decide (forallb latin1_body s = true /\ (length s <= N)%nat)) as [[Hg Hl]|Hbad].
  - pose proof (to_latin1_loop_ok (S (length (utf8_encode s))) [] s N Hs Hg) as E.
    change (str_to_latin1_loop _ _ _ _ _) with
      (str_to_latin1_loop (S (length (utf8_encode s))) (utf8_encode s) (replicate N 0) 0 0) in E.
    rewrite E by lia. clear E. cbn [obind].
    rewrite Hg. simpl. destruct (length s + 1 =? N)%nat eqn:EN.
    + apply Nat.eqb_eq in EN. subst N.
      rewrite (proj2 (Z.eqb_eq _ _)) by (unfold zlen; simpl; lia). simpl.
      f_equal. f_equal. replace (length s + 1 - length s)%nat with 1%nat by lia. done.
    + apply Nat.eqb_neq in EN.
      rewrite (proj2 (Z.eqb_neq _ _)) by (unfold zlen; simpl; lia). by eexists.
  - destruct (to_latin1_loop_bad (S (length (utf8_encode s))) [] s N Hs) as [f E].
    { destruct (forallb latin1_body s); [right|by left]. apply not_and_l in Hbad. lia. }
    { lia. }
    change (str_to_latin1_loop _ _ _ _ _) with
      (str_to_latin1_loop (S (length (utf8_encode s))) (utf8_encode s) (replicate N 0) 0 0) in E.
    rewrite E. cbn [obind].
    replace (forallb latin1_body s && (length s + 1 =? N)%nat) with false; [by eexists|].
    symmetry. apply andb_false_iff.
    destruct (forallb latin1_body s); [right|by left]. apply Nat.eqb_neq. lia.
Qed.

Lemma str_to_latin1_spec_witness :
  str_to_latin1 3 [0x61; 0xE9] = Ret [0x61; 0xE9; 0] /\ exists f, str_to_latin1 3 [0x61; 0x100] = Panic f.
Proof.
  split.
  - exact (str_to_latin1_spec 3 [0x61; 0xE9] ltac:(by_decide)).
  - exact (str_to_latin1_spec 3 [0x61; 0x100] ltac:(by_decide)).
Defined.

