(* ===== verification/Text.v ===== *)
(** * Operations on text

    What the library uses of the standard library's [str] and [String] beyond the
    encodings of [Strs]: decoding of UTF-8, splitting at a character, and parsing
    of unsigned integers.  Text is a list of scalar values, or of bytes where the
    source has bytes; the two agree on ASCII. *)
From S2P Require Import Prelude Chars Strs.

(** ** [String::from_utf8] *)

Definition is_cont (b : Z) : bool := (0x80 <=? b) && (b <=? 0xBF).

(** The scalar value at the front, and the number of its bytes. *)
Definition utf8_head (bs : list Z) : option (Z * nat) :=
  match bs with
  | [] => None
  | b0 :: bs =>
      if b0 <? 0x80 then Some (b0, 1%nat)
      else match bs with
      | b1 :: bs1 =>
          if negb (is_cont b1) then None
          else if (0xC2 <=? b0) && (b0 <=? 0xDF)
          then Some ((b0 - 0xC0) * 64 + (b1 - 0x80), 2%nat)
          else match bs1 with
          | b2 :: bs2 =>
              if negb (is_cont b2) then None
              else if (0xE0 <=? b0) && (b0 <=? 0xEF) then
                let c := (b0 - 0xE0) * 4096 + (b1 - 0x80) * 64 + (b2 - 0x80) in
                if (c <? 0x800) || ((0xD800 <=? c) && (c <=? 0xDFFF)) then None else Some (c, 3%nat)
              else match bs2 with
              | b3 :: _ =>
                  if is_cont b3 && (0xF0 <=? b0) && (b0 <=? 0xF4) then
                    let c := (b0 - 0xF0) * 262144 + (b1 - 0x80) * 4096 + (b2 - 0x80) * 64 + (b3 - 0x80) in
                    if (c <? 0x10000) || (0x10FFFF <? c) then None else Some (c, 4%nat)
                  else None
              | [] => None
              end
          | [] => None
          end
      | [] => None
      end
  end.

Fixpoint utf8_decode (fuel : nat) (bs : list Z) : option (list Z) :=
  match fuel, bs with
  | _, [] => Some []
  | O, _ => None
  | S fuel, _ =>
      match utf8_head bs with
      | None => None
      | Some (c, n) => s ← utf8_decode fuel (drop n bs); Some (c :: s)
      end
  end.

Definition string_from_utf8 (bs : list Z) : option (list Z) := utf8_decode (length bs) bs.

(** [str::from_utf8(s).is_ok()]. *)
Definition utf8_valid (bs : list Z) : bool :=
  match string_from_utf8 bs with Some _ => true | None => false end.

(** ** Splitting *)

(** [str.split_once(c)] for an ASCII character. *)
Fixpoint split_once (c : Z) (s : list Z) : option (list Z * list Z) :=
  match s with
  | [] => None
  | b :: s => if b =? c then Some ([], s) else
      match split_once c s with Some (x, y) => Some (b :: x, y) | None => None end
  end.

(** [str.split(c)]. *)
Fixpoint split_char (c : Z) (s : list Z) : list (list Z) :=
  match s with
  | [] => [[]]
  | b :: s => if b =? c then [] :: split_char c s else
      match split_char c s with [] => [[b]] | p :: ps => (b :: p) :: ps end
  end.

(** ** Parsing *)

Definition between (a b x : Z) : bool := (a <=? x) && (x <=? b).

(** [s.parse()] for an unsigned integer of a width: an optional plus sign and
    decimal digits whose value fits. *)
Fixpoint parse_digits (bits acc : Z) (s : list Z) : option Z :=
  match s with
  | [] => Some acc
  | c :: s =>
      if between 48 57 c then
        let acc := acc * 10 + (c - 48) in
        if acc <? 2 ^ bits then parse_digits bits acc s else None
      else None
  end.
Definition parse_uint (bits : Z) (s : list Z) : option Z :=
  match s with
  | [] => None
  | c :: r => parse_digits bits 0 (if (c =? 43) && negb (zlen r =? 0) then r else s)
  end.

(** ** Formatting *)

(** [{:>n}]: padded on the left to [n] characters. *)
Definition pad_left (fill : Z) (n : nat) (s : list Z) : list Z := replicate (n - length s) fill ++ s.

(** Decimal digits; twenty are enough for any machine integer. *)
Fixpoint digits (fuel : nat) (n : Z) : list Z :=
  match fuel with
  | O => []
  | S fuel => (if n <? 10 then [] else digits fuel (n / 10)) ++ [0x30 + n mod 10]
  end.

(** ** Lemmas *)

Definition digit (c : Z) : Prop := 48 <= c <= 57.
Definition decimal (s : list Z) : Z := foldl (fun a c => a * 10 + (c - 48)) 0 s.

Lemma foldl_digits_ge s acc : 0 <= acc -> Forall digit s -> acc <= foldl (fun a c => a * 10 + (c - 48)) acc s.
Proof.
  intros Ha Hs. revert acc Ha. induction Hs as [|c s Hc _ IH]; intros acc Ha; cbn [foldl]; [lia|].
  unfold digit in Hc. specialize (IH (acc * 10 + (c - 48))). lia.
Qed.

Lemma parse_digits_ok bits s acc :
  0 <= acc -> Forall digit s -> foldl (fun a c => a * 10 + (c - 48)) acc s < 2 ^ bits ->
  parse_digits bits acc s = Some (foldl (fun a c => a * 10 + (c - 48)) acc s).
Proof.
  intros Ha Hs. revert acc Ha. induction Hs as [|c s Hc Hs IH]; intros acc Ha Hb; cbn [foldl parse_digits] in *; [done|].
  unfold digit, between in *. rewrite !(proj2 (Z.leb_le _ _)) by lia. cbn [andb].
  pose proof (foldl_digits_ge s (acc * 10 + (c - 48)) ltac:(lia) Hs). rewrite (proj2 (Z.ltb_lt _ _)) by lia. apply IH; lia.
Qed.

(** A decimal number that fits is parsed as its value. *)
Lemma parse_uint_ok bits s : s <> [] -> Forall digit s -> decimal s < 2 ^ bits -> parse_uint bits s = Some (decimal s).
Proof.
  intros Hne Hs Hb. destruct s as [|c r]; [done|]. unfold parse_uint.
  assert (digit c) as Hc by (by inversion Hs). unfold digit in Hc. rewrite (proj2 (Z.eqb_neq c 43)) by lia. cbn [andb].
  by apply parse_digits_ok.
Qed.

Lemma split_once_app c a b : c ∉ a -> split_once c (a ++ c :: b) = Some (a, b).
Proof.
  induction a as [|x a IH]; cbn [app split_once]; intros Hn; [by rewrite Z.eqb_refl|].
  apply not_elem_of_cons in Hn as [Hx Hn]. rewrite (proj2 (Z.eqb_neq _ _)) by done. by rewrite IH.
Qed.

Lemma split_char_app c a b : c ∉ a -> split_char c (a ++ c :: b) = a :: split_char c b.
Proof.
  induction a as [|x a IH]; cbn [app split_char]; intros Hn; [by rewrite Z.eqb_refl|].
  apply not_elem_of_cons in Hn as [Hx Hn]. rewrite (proj2 (Z.eqb_neq _ _)) by done. by rewrite IH.
Qed.

Lemma split_char_end c a : c ∉ a -> split_char c a = [a].
Proof.
  induction a as [|x a IH]; cbn [split_char]; intros Hn; [done|].
  apply not_elem_of_cons in Hn as [Hx Hn]. rewrite (proj2 (Z.eqb_neq _ _)) by done. by rewrite IH.
Qed.

Definition ascii (c : Z) : Prop := 0 < c < 128.

(** The base 64 digits of a scalar value, and the comparisons of its bytes. *)
Ltac utf8_digits c :=
  assert (0 <= c mod 64 < 64) by (apply Z.mod_pos_bound; lia); assert (0 <= c / 64 mod 64 < 64) by (apply Z.mod_pos_bound; lia);
  assert (0 <= c / 4096 mod 64 < 64) by (apply Z.mod_pos_bound; lia);
  assert (c = c / 64 * 64 + c mod 64) by (pose proof (Z_div_mod_eq_full c 64); lia);
  assert (c / 64 = c / 4096 * 64 + c / 64 mod 64)
    by (pose proof (Z_div_mod_eq_full (c / 64) 64); rewrite Z.div_div in * by lia; change (64 * 64) with 4096 in *; lia);
  assert (c / 4096 = c / 262144 * 64 + c / 4096 mod 64)
    by (pose proof (Z_div_mod_eq_full (c / 4096) 64); rewrite Z.div_div in * by lia; change (4096 * 64) with 262144 in *; lia).
Ltac utf8_bytes :=
  cbn [app utf8_head length]; unfold is_cont;
  repeat (first [rewrite (proj2 (Z.ltb_ge _ _)) by lia | rewrite (proj2 (Z.leb_le _ _)) by lia
                | rewrite (proj2 (Z.leb_gt _ _)) by lia]; cbn [andb negb orb]).

Lemma utf8_encode_char_nonempty c : (0 < length (utf8_encode_char c))%nat.
Proof. unfold utf8_encode_char. repeat case_match; cbn; lia. Qed.

(** Decoding undoes encoding. *)
Lemma utf8_head_encode c rest :
  is_scalar c -> utf8_head (utf8_encode_char c ++ rest) = Some (c, length (utf8_encode_char c)).
Proof.
  intros [Hc Hs]. unfold is_surrogate in Hs. unfold utf8_encode_char.
  destruct (Z.ltb_spec c 0x80); [|destruct (Z.ltb_spec c 0x800); [|destruct (Z.ltb_spec c 0x10000)]].
  - cbn. by rewrite (proj2 (Z.ltb_lt _ _)).
  - utf8_digits c. utf8_bytes. f_equal. f_equal. lia.
  - utf8_digits c. utf8_bytes.
    replace ((0xE0 + c / 4096 - 0xE0) * 4096 + (0x80 + c / 64 mod 64 - 0x80) * 64 + (0x80 + c mod 64 - 0x80)) with c by lia.
    by rewrite Hs.
  - utf8_digits c. utf8_bytes.
    replace ((0xF0 + c / 262144 - 0xF0) * 262144 + (0x80 + c / 4096 mod 64 - 0x80) * 4096 + (0x80 + c / 64 mod 64 - 0x80) * 64 + (0x80 + c mod 64 - 0x80)) with c by lia.
    done.
Qed.

Lemma utf8_decode_encode s fuel :
  Forall is_scalar s -> (length (utf8_encode s) <= fuel)%nat -> utf8_decode fuel (utf8_encode s) = Some s.
Proof.
  intros Hs. revert fuel. induction Hs as [|c s Hc _ IH]; intros fuel Hf; [by destruct fuel|].
  change (utf8_encode (c :: s)) with (utf8_encode_char c ++ utf8_encode s) in *. rewrite length_app in Hf.
  pose proof (utf8_encode_char_nonempty c). destruct fuel as [|fuel]; [lia|].
  cbn [utf8_decode]. destruct (utf8_encode_char c ++ utf8_encode s) as [|b l] eqn:E.
  { apply (f_equal length) in E. rewrite length_app in E. cbn in E. lia. }
  rewrite <- E, utf8_head_encode by done. rewrite drop_app_length, IH by lia. done.
Qed.

Lemma utf8_roundtrip s : Forall is_scalar s -> string_from_utf8 (utf8_encode s) = Some s.
Proof. intros Hs. by apply utf8_decode_encode. Qed.

Lemma utf8_ascii_encode s : Forall ascii s -> utf8_encode s = s.
Proof.
  induction 1 as [|c s Hc _ IH]; [done|]. unfold ascii in Hc. change (utf8_encode (c :: s)) with (utf8_encode_char c ++ utf8_encode s).
  rewrite IH. unfold utf8_encode_char. by rewrite (proj2 (Z.ltb_lt c _)) by lia.
Qed.

Lemma utf8_ascii_decode s : Forall ascii s -> string_from_utf8 s = Some s.
Proof.
  intros Hs. rewrite <- (utf8_ascii_encode s Hs) at 1. apply utf8_roundtrip. eapply Forall_weaken; [|exact Hs].
  unfold ascii, is_scalar, is_surrogate. intros c Hc. split; [lia|]. by rewrite (proj2 (Z.leb_gt _ c)) by lia.
Qed.

Lemma utf8_valid_ascii s : Forall ascii s -> utf8_valid s = true.
Proof. intros Hs. unfold utf8_valid. by rewrite utf8_ascii_decode. Qed.

Lemma digits_ascii s : Forall digit s -> Forall ascii s.
Proof. apply Forall_weaken. unfold digit, ascii. lia. Qed.

Lemma digits_not s c : Forall digit s -> c < 48 \/ 57 < c -> c ∉ s.
Proof. intros Hs Hc Hin. rewrite Forall_forall in Hs. specialize (Hs c Hin). unfold digit in Hs. lia. Qed.

Lemma ascii_not_nul s : Forall ascii s -> 0 ∉ s.
Proof. intros Hs Hin. rewrite Forall_forall in Hs. specialize (Hs 0 Hin). unfold ascii in Hs. lia. Qed.


(** *** Decimal digits *)

Lemma decimal_snoc s c : decimal (s ++ [c]) = decimal s * 10 + (c - 48).
Proof. unfold decimal. by rewrite foldl_app. Qed.

Lemma digits_digit fuel n : Forall digit (digits fuel n).
Proof.
  revert n. induction fuel as [|fuel IH]; intros n; cbn [digits]; [constructor|]. pose proof (Z.mod_pos_bound n 10 ltac:(lia)).
  apply Forall_app. split; [by destruct (n <? 10)|]. repeat constructor; lia.
Qed.

(** A number is read back from its digits. *)
Lemma digits_spec fuel n : 0 <= n < 10 ^ Z.of_nat fuel -> (0 < fuel)%nat ->
  Forall digit (digits fuel n) /\ digits fuel n <> [] /\ decimal (digits fuel n) = n.
Proof.
  revert n. induction fuel as [|fuel IH]; intros n Hn Hf; [lia|]. cbn [digits].
  pose proof (Z_div_mod_eq_full n 10). pose proof (Z.mod_pos_bound n 10 ltac:(lia)).
  split_and!.
  - apply Forall_app. split; [|repeat constructor; unfold digit; lia].
    destruct (Z.ltb_spec n 10); [constructor|]. destruct fuel as [|fuel]; [cbn in Hn; lia|].
    apply IH; [|lia]. rewrite Nat2Z.inj_succ, Z.pow_succ_r in Hn by lia. split; [lia|]. apply Z.div_lt_upper_bound; lia.
  - by destruct (if n <? 10 then [] else digits fuel (n / 10)).
  - rewrite decimal_snoc. destruct (Z.ltb_spec n 10); [cbn; lia|].
    destruct fuel as [|fuel]; [cbn in Hn; lia|]. destruct (IH (n / 10)) as (_ & _ & ->); [|lia|lia].
    rewrite Nat2Z.inj_succ, Z.pow_succ_r in Hn by lia. split; [lia|]. apply Z.div_lt_upper_bound; lia.
Qed.

(** [format!({n})] for an unsigned integer. *)
Definition display_uint (n : Z) : list Z := digits 20 n.

Lemma display_uint_spec n : in_width 64 n ->
  Forall digit (display_uint n) /\ display_uint n <> [] /\ decimal (display_uint n) = n.
Proof. intros Hn. apply digits_spec; [|lia]. unfold in_width in Hn. change (10 ^ Z.of_nat 20) with 100000000000000000000. lia. Qed.

Lemma display_parse n bits : in_width 64 n -> n < 2 ^ bits -> parse_uint bits (display_uint n) = Some n.
Proof. intros Hn Hb. destruct (display_uint_spec n Hn) as (Hd & Hne & E). rewrite <- E at 2. apply parse_uint_ok; [done..|by rewrite E]. Qed.
