(* ===== verification/OwnedStrs.v ===== *)
(** * Owned C strings: [uefi/src/data_types/owned_strs.rs]

    [CString16] is the vector of its characters including the trailing NUL,
    with the invariant [cstr16_wf].  The mutating operations are functions from
    the old vector to the outcome of the new one. *)
From S2P Require Import Prelude Chars Strs.

Module FromStrError.
Inductive t : Set :=
| InvalidChar
| InteriorNul.
End FromStrError.

Definition cstring16_new : list Z := [NUL_16].

Definition cstring16_default : list Z := cstring16_new.

(** [assert_ne!(char, NUL_16)], overwrite the last element, append NUL. *)
Definition cstring16_push (self : list Z) (char : Z) : outcome (list Z) :=
  let! _ := assert_ (negb (char =? NUL_16)) in
  let! _ := unwrap (last self) in
  Ret (<[(length self - 1)%nat := char]> self ++ [NUL_16]).

Fixpoint cstring16_push_all (self : list Z) (chars : list Z) : outcome (list Z) :=
  match chars with
  | [] => Ret self
  | c :: chars' =>
      let! self := cstring16_push self c in
      cstring16_push_all self chars'
  end.

Definition cstring16_push_str `{Profile} (self str : list Z) : outcome (list Z) :=
  let! cs := cstr16_as_slice str in
  cstring16_push_all self cs.

Definition cstring16_replace_char (self : list Z) (search replace : Z)
  : outcome (list Z) :=
  let! _ := assert_ (negb (search =? NUL_16)) in
  let! _ := assert_ (negb (replace =? NUL_16)) in
  Ret (map (fun c => if c =? search then replace else c) self).

Definition cstring16_num_chars `{Profile} (self : list Z) : outcome Z :=
  usize_sub (zlen self) 1.

Definition cstring16_is_empty `{Profile} (self : list Z) : outcome bool :=
  let! n := cstring16_num_chars self in Ret (n =? 0).

(** The conversion loop of [TryFrom<&str>]: [output] is the vector so far. *)
Fixpoint cstring16_try_from_loop (units output : list Z)
  : result (list Z) FromStrError.t :=
  match units with
  | [] => Ok (output ++ [NUL_16])
  | c :: units' =>
      match char16_try_from_u16 c with
      | Err _ => Err FromStrError.InvalidChar
      | Ok c =>
          if c =? NUL_16 then Err FromStrError.InteriorNul
          else cstring16_try_from_loop units' (output ++ [c])
      end
  end.

Definition cstring16_try_from_str (input : list Z) : result (list Z) FromStrError.t :=
  cstring16_try_from_loop (utf16_encode input) [].

Definition cstring16_try_from_vec (input : list Z)
  : result (list Z) FromSliceWithNulError.t :=
  match cstr16_from_u16_with_nul input with
  | Err e => Err e
  | Ok _ => Ok input
  end.

Definition cstring16_try_from_unaligned (input : UnalignedSlice.t Z)
  : outcome (result (list Z) FromSliceWithNulError.t) :=
  let! v := UnalignedSlice.to_vec input in
  Ret (cstring16_try_from_vec v).

Definition cstring16_from_cstr16 (value : list Z) : list Z :=
  cstr16_as_slice_with_nul value.

Definition cstr16_to_owned (self : list Z) : list Z := cstr16_as_slice_with_nul self.

Definition string_from_cstring16 `{Profile} (value : list Z) : outcome (list Z) :=
  string_from_cstr16 value.

Definition cstring16_eq_str_until_nul `{Profile} (self other : list Z) : outcome bool :=
  cstr16_eq_str_until_nul self other.

(** ** The invariant *)

Lemma cstring16_new_wf : cstr16_wf cstring16_new.
Proof. by exists []. Qed.

Lemma cstring16_push_app b c :
  c <> 0 -> cstring16_push (b ++ [0]) c = Ret (b ++ [c; 0]).
Proof.
  intros Hc. unfold cstring16_push. rewrite (proj2 (Z.eqb_neq c NUL_16)) by done.
  simpl. rewrite last_snoc. simpl. f_equal.
  rewrite length_app, insert_app_r_alt by (simpl; lia). simpl.
  replace (length b + 1 - 1 - length b)%nat with 0%nat by lia.
  by rewrite <- app_assoc.
Qed.

Lemma cstring16_push_all_app b cs :
  Forall (fun c => c <> 0) cs -> cstring16_push_all (b ++ [0]) cs = Ret (b ++ cs ++ [0]).
Proof.
  intros Hc. revert b. induction Hc as [|c cs Hc _ IH]; intros b; simpl; [done|].
  rewrite cstring16_push_app by done. simpl.
  replace (b ++ [c; 0]) with ((b ++ [c]) ++ [0]) by by rewrite <- app_assoc.
  rewrite IH. by rewrite <- app_assoc.
Qed.

Lemma body_char_nonzero b : Forall body_char b -> Forall (fun c => c <> 0) b.
Proof. apply Forall_weaken. by intros c [_ ?]. Qed.

Lemma cstring16_push_str_app `{Profile} b k :
  Forall body_char k ->
  cstring16_push_str (b ++ [0]) (k ++ [0]) = Ret (b ++ k ++ [0]).
Proof.
  intros Hk. unfold cstring16_push_str. rewrite as_slice_app. simpl.
  by apply cstring16_push_all_app, body_char_nonzero.
Qed.

Lemma cstring16_is_empty_app `{Profile} b :
  cstring16_is_empty (b ++ [0]) = Ret (bool_decide (b = [])).
Proof. apply is_empty_app. Qed.

Lemma cstring16_replace_char_app b search replace :
  search <> 0 -> replace <> 0 ->
  cstring16_replace_char (b ++ [0]) search replace =
  Ret (map (fun c => if c =? search then replace else c) b ++ [0]).
Proof.
  intros Hs Hr. unfold cstring16_replace_char, NUL_16.
  rewrite (proj2 (Z.eqb_neq search 0)), (proj2 (Z.eqb_neq replace 0)) by done.
  cbn [negb assert_ obind]. rewrite map_app. cbn [map].
  by rewrite (proj2 (Z.eqb_neq 0 search)) by done.
Qed.

Lemma replace_body b search replace :
  Forall body_char b -> body_char replace ->
  Forall body_char (map (fun c => if c =? search then replace else c) b).
Proof.
  intros Hb Hr. apply Forall_map. eapply Forall_weaken; [|exact Hb].
  intros c Hc. by destruct (c =? search).
Qed.

(** C37: Every mutation of a [CString16] keeps the invariant, appends or replaces
    exactly the characters before the terminator, and panics only when asked
    to write a NUL. *)
Theorem cstring16_mutations_wf `{Profile} (s str : list Z) (c search replace : Z) :
  cstr16_wf s -> cstr16_wf str -> ucs2 c -> ucs2 search -> ucs2 replace ->
  cstring16_push s c =
    (if c =? 0 then Panic AssertFailed else Ret (body s ++ [c; 0])) /\
  cstring16_push_str s str = Ret (body s ++ body str ++ [0]) /\
  cstring16_replace_char s search replace =
    (if (search =? 0) || (replace =? 0) then Panic AssertFailed
     else Ret (map (fun c => if c =? search then replace else c) (body s) ++ [0])) /\
  (forall s', cstring16_push s c = Ret s' \/ cstring16_push_str s str = Ret s' \/
              cstring16_replace_char s search replace = Ret s' -> cstr16_wf s').
Proof.
  intros (b & -> & Hb) (k & -> & Hk) Hc Hs Hr. rewrite !body_app_nul.
  assert (cstring16_push (b ++ [0]) c =
    if c =? 0 then Panic AssertFailed else Ret (b ++ [c; 0])) as E1.
  { destruct (c =? 0) eqn:E; z_bools; [by subst|by apply cstring16_push_app]. }
  assert (cstring16_replace_char (b ++ [0]) search replace =
    if (search =? 0) || (replace =? 0) then Panic AssertFailed
    else Ret (map (fun c => if c =? search then replace else c) b ++ [0])) as E3.
  { destruct (search =? 0) eqn:E, (replace =? 0) eqn:E'; z_bools; subst; simpl;
      try (unfold cstring16_replace_char, NUL_16; simpl; by case_match || done).
    - unfold cstring16_replace_char, NUL_16. by rewrite (proj2 (Z.eqb_neq search 0)).
    - by apply cstring16_replace_char_app. }
  pose proof (cstring16_push_str_app b k Hk) as E2. rewrite E1, E2, E3.
  do 3 (split; [done|]).
  intros s' [E|[E|E]].
  - destruct (c =? 0) eqn:Ec; [done|]. injection E as <-. exists (b ++ [c]).
    rewrite <- app_assoc. split; [done|]. apply Forall_app. split; [done|].
    z_bools. by apply Forall_singleton.
  - injection E as <-. exists (b ++ k). rewrite <- app_assoc. split; [done|]. by apply Forall_app.
  - destruct (_ || _) eqn:Eo; [done|]. injection E as <-. z_bools. eexists. split; [done|].
    by apply replace_body.
Qed.

Lemma cstring16_mutations_wf_witness :
  cstring16_push_str (H := debug_profile) [0x61; 0] [0x62; 0] = Ret [0x61; 0x62; 0] /\
  cstring16_push [0x61; 0] 0 = Panic AssertFailed.
Proof.
  split.
  - exact (proj1 (proj2 (@cstring16_mutations_wf debug_profile [0x61; 0] [0x62; 0] 0x63 0x61 0x7A
      ltac:(by_decide) ltac:(by_decide) ltac:(by_decide) ltac:(by_decide) ltac:(by_decide)))).
  - exact (proj1 (@cstring16_mutations_wf debug_profile [0x61; 0] [0x62; 0] 0 0x61 0x7A
      ltac:(by_decide) ltac:(by_decide) ltac:(by_decide) ltac:(by_decide) ltac:(by_decide))).
Defined.


(** ** Conversion from Rust strings *)

Lemma try_from_loop_skip b rest out :
  Forall body_char b ->
  cstring16_try_from_loop (b ++ rest) out = cstring16_try_from_loop rest (out ++ b).
Proof.
  intros Hb. revert out. induction Hb as [|c b [Hc Hn] _ IH]; intros out; simpl.
  { by rewrite app_nil_r. }
  rewrite char16_try_from_u16_ok by done.
  rewrite (proj2 (Z.eqb_neq c NUL_16)), IH by done. by rewrite <- app_assoc.
Qed.

(** The three ways to build a [CString16] or a [CStr16] from text agree: the
    allocating conversion succeeds exactly when [from_str_with_buf] succeeds in
    a large enough buffer, with the same characters and the same kind of
    error. *)
Theorem try_from_str_agrees_with_buf (input buf : list Z) :
  Forall is_scalar input ->
  (length (utf16_encode input) < length buf)%nat ->
  exists r buf', cstr16_from_str_with_buf input buf = Ret (r, buf') /\
  match cstring16_try_from_str input, r with
  | Ok s, Ok s' => s = s'
  | Err FromStrError.InvalidChar, Err (FromStrWithBufError.InvalidChar _) => True
  | Err FromStrError.InteriorNul, Err (FromStrWithBufError.InteriorNul _) => True
  | _, _ => False
  end.
Proof.
  intros Hs Hl. rewrite from_str_with_buf_fits by done. eexists _, _. split; [done|].
  unfold cstring16_try_from_str.
  destruct (u16_scan_cases _ (utf16_encode_u16 _ Hs))
    as [Hb|[(b & k & E & Hb)|(b & c & k & E & Hb & Hc)]].
  - rewrite from_u16_with_nul_ok by done. simpl.
    rewrite <- (app_nil_r (utf16_encode input)), try_from_loop_skip by done. simpl.
    by rewrite app_nil_r.
  - rewrite E, <- app_assoc, try_from_loop_skip by done. simpl.
    by rewrite from_u16_with_nul_interior by (destruct k; done).
  - rewrite E, <- app_assoc, try_from_loop_skip by done. simpl.
    rewrite surrogate_rejected, from_u16_with_nul_invalid by done. done.
Qed.

(** A Rust string converts to [CString16] exactly when it has no NUL and stays
    in the basic plane, and then converting back gives the same text. *)
Theorem cstring16_str_roundtrip `{Profile} (input : list Z) :
  Forall is_scalar input ->
  match cstring16_try_from_str input with
  | Ok s => cstr16_wf s /\ body s = input /\ string_from_cstring16 s = Ret input
  | Err _ => exists c, c ∈ input /\ (c = 0 \/ 0x10000 <= c)
  end.
Proof.
  intros Hs. unfold cstring16_try_from_str.
  destruct (decide (Forall body_char (utf16_encode input))) as [Hb|Hb].
  - rewrite <- (app_nil_r (utf16_encode input)), try_from_loop_skip by done. simpl.
    pose proof (utf16_body_identity input Hs Hb) as E. rewrite E in Hb |- *.
    split; [by exists input|]. rewrite body_app_nul. split; [done|].
    unfold string_from_cstring16. by apply string_from_app.
  - assert (exists c, c ∈ input /\ (c = 0 \/ 0x10000 <= c)) as Hex.
    { destruct (decide (Forall (fun c => c <> 0 /\ c < 0x10000) input)) as [Ha|Ha].
      - exfalso. apply Hb. rewrite utf16_bmp.
        + apply Forall_forall. intros c Hc.
          rewrite Forall_forall in Ha, Hs. destruct (Ha c Hc), (Hs c Hc).
          split; [split; [lia|done]|done].
        + eapply Forall_weaken; [|exact Ha]. by intros c [_ ?].
      - apply not_Forall_Exists in Ha; [|apply _]. apply Exists_exists in Ha as (c & Hc & Hn).
        exists c. split; [done|]. simpl in Hn. lia. }
    destruct (cstring16_try_from_loop (utf16_encode input) []) eqn:E; [|done].
    exfalso. apply Hb.
    destruct (u16_scan_cases _ (utf16_encode_u16 _ Hs))
      as [?|[(b & k & E' & Hb')|(b & c & k & E' & Hb' & Hc)]]; [done|..];
      rewrite E', try_from_loop_skip in E by done; simpl in E; [done|].
    by rewrite surrogate_rejected in E.
Qed.

Lemma cstring16_str_roundtrip_witness :
  string_from_cstring16 (H := debug_profile) [0x61; 0x20AC; 0] = Ret [0x61; 0x20AC].
Proof. exact (proj2 (proj2 (@cstring16_str_roundtrip debug_profile [0x61; 0x20AC] ltac:(by_decide)))). Defined.


(** The vector conversion checks exactly what [from_u16_with_nul] checks. *)
Lemma try_from_vec_spec input :
  cstring16_try_from_vec input = cstr16_from_u16_with_nul input \/
  (exists s, cstr16_from_u16_with_nul input = Ok s /\ cstring16_try_from_vec input = Ok input).
Proof.
  unfold cstring16_try_from_vec. destruct (cstr16_from_u16_with_nul input); eauto.
Qed.

(** Bytes to string: an unaligned slice read into a [CString16] has the slice's
    elements, and is rejected exactly when the aligned scan rejects them. *)
Theorem try_from_unaligned_spec (src : UnalignedSlice.t Z) :
  UnalignedSlice.valid src -> Forall is_u16 (UnalignedSlice.elements src) ->
  exists r, cstring16_try_from_unaligned src = Ret r /\
  match r with
  | Ok s => s = UnalignedSlice.elements src /\ cstr16_wf s
  | Err e => cstr16_from_u16_with_nul (UnalignedSlice.elements src) = Err e /\
             ~ cstr16_wf (UnalignedSlice.elements src)
  end.
Proof.
  intros Hv Hu. unfold cstring16_try_from_unaligned.
  rewrite UnalignedSlice.to_vec_spec by done. simpl. eexists. split; [done|].
  unfold cstring16_try_from_vec.
  pose proof (from_u16_with_nul_cases _ Hu) as Hspec.
  destruct (cstr16_from_u16_with_nul (UnalignedSlice.elements src)) eqn:E.
  - split; [done|]. by destruct Hspec.
  - split; [done|]. intros (b & Eb & Hb). rewrite Eb in E.
    by rewrite from_u16_with_nul_ok in E.
Qed.
