(* ===== verification/Path.v ===== *)
(** * Paths: [uefi/src/fs/path/*.rs]

    A [Path] is a [CStr16] and a [PathBuf] a [CString16].  The component
    iterator keeps a character index; it is compared with splitting the path at
    separators, which the operations on paths ([parent], [push], equality,
    validation) are then stated with. *)
From S2P Require Import Prelude Chars Strs OwnedStrs.

Definition SEPARATOR : Z := 0x5C.
Definition SEPARATOR_STR : list Z := [0x5C; 0].
Definition SLASH : Z := 0x2F.

Definition CHARACTER_DENY_LIST : list Z :=
  [NUL_16; 0x22; 0x2A; 0x2F; 0x3A; 0x3C; 0x3E; 0x3F; SEPARATOR; 0x7C].

(** ** [path.rs] and [pathbuf.rs] *)

Record Components : Set := mkComponents { path : list Z; i : Z }.

Definition components (self : list Z) : Components := mkComponents self 0.

Section ops.
Context `{Profile}.

Definition path_is_empty (self : list Z) : outcome bool := cstr16_is_empty self.

Definition components_next (self : Components)
  : outcome (option (list Z) * Components) :=
  let! empty := cstr16_is_empty (path self) in
  if empty then Ret (None, self)
  else
    let! n := cstr16_num_chars (path self) in
    let! chars := cstr16_as_slice (path self) in
    let! root := (if n =? 1 then let! c := index chars 0 in Ret (c =? SEPARATOR)
                  else Ret false) in
    if root then Ret (None, self)
    else
      let! start := (if i self =? 0 then
                       let! c := unwrap (head chars) in
                       Ret (if c =? SEPARATOR then 1 else i self)
                     else Ret (i self)) in
      let! all := cstr16_iter_collect (S (length (path self))) (cstr16_iter (path self)) in
      let len := zlen (take_while (fun c => negb (c =? SEPARATOR))
                         (drop (Z.to_nat start) all)) in
      let! progress := usize_add start len in
      if n <? progress then Ret (None, mkComponents (path self) start)
      else
        let! part := slice chars start progress in
        let! string := cstring16_push_all cstring16_new part in
        let! next := usize_add progress 1 in
        Ret (Some string, mkComponents (path self) next).

Fixpoint components_collect (fuel : nat) (self : Components) : outcome (list (list Z)) :=
  match fuel with
  | O => NoFuel
  | S fuel' =>
      let! (o, self) := components_next self in
      match o with
      | None => Ret []
      | Some c => let! cs := components_collect fuel' self in Ret (c :: cs)
      end
  end.

(** A full run of the iterator: a path has at most one component per character
    and one more. *)
Definition all_components (self : list Z) : outcome (list (list Z)) :=
  components_collect (S (S (length self))) (components self).

(** [PathBuf::new_from_cstring16]. *)
Definition pathbuf_from_cstring16 (string : list Z) : outcome (list Z) :=
  cstring16_replace_char string SLASH SEPARATOR.

Definition to_path_buf (self : list Z) : outcome (list Z) :=
  pathbuf_from_cstring16 (cstring16_from_cstr16 self).

Definition pathbuf_new : list Z := cstring16_default.

(** One step of the fold in [parent]. *)
Definition parent_step (acc next : list Z) : outcome (list Z) :=
  let! empty := cstr16_is_empty acc in
  let! acc := (if empty then Ret acc
               else
                 let! chars := cstr16_as_slice acc in
                 let! l := unwrap (last chars) in
                 if negb (l =? SEPARATOR) then cstring16_push acc SEPARATOR
                 else Ret acc) in
  cstring16_push_str acc next.

Fixpoint parent_fold (acc : list Z) (cs : list (list Z)) : outcome (list Z) :=
  match cs with
  | [] => Ret acc
  | c :: cs' => let! acc := parent_step acc c in parent_fold acc cs'
  end.

Definition parent (self : list Z) : outcome (option (list Z)) :=
  let! cs := all_components self in
  let components_count := length cs in
  if (components_count =? 0)%nat then Ret None
  else
    let! chars := cstr16_as_slice self in
    let sep_count := length (filter (fun c => c = SEPARATOR) chars) in
    if (sep_count =? 0)%nat then Ret None
    else
      let! p := parent_fold cstring16_new (take (components_count - 1) cs) in
      let! p := pathbuf_from_cstring16 p in
      Ret (Some p).

(** [PathBuf::push]. *)
Definition pathbuf_push (self p : list Z) : outcome (list Z) :=
  let! p_empty := path_is_empty p in
  if p_empty then Ret self
  else
    let! empty := cstring16_is_empty self in
    let! l := unwrap (last (cstr16_as_slice_with_nul self)) in
    let needs_sep := negb (l =? SEPARATOR) in
    let! self := (if negb empty && needs_sep then cstring16_push self SEPARATOR
                  else Ret self) in
    let! self := cstring16_push_str self p in
    cstring16_replace_char self SLASH SEPARATOR.

(** [PartialEq for Path] and for [PathBuf]. *)
Definition path_eq (self other : list Z) : outcome bool :=
  let! a := all_components self in
  let! b := all_components other in
  Ret ((length a =? length b)%nat &&
       negb (existsb (fun '(c1, c2) => negb (bool_decide (c1 = c2))) (zip a b))).

End ops.

(** ** [validation.rs] *)

Inductive PathError : Set :=
| Empty
| EmptyComponent
| IllegalChar (c : Z).

#[export] Instance PathError_eq_dec : EqDecision PathError.
Proof. solve_decision. Defined.

Section validation.
Context `{Profile}.

Fixpoint validate_loop (fuel : nat) (it : Components) : outcome (result unit PathError) :=
  match fuel with
  | O => NoFuel
  | S fuel' =>
      let! (o, it) := components_next it in
      match o with
      | None => Ret (Ok tt)
      | Some component =>
          let! empty := cstring16_is_empty component in
          if empty then Ret (Err EmptyComponent)
          else
            let! chars := cstr16_as_slice component in
            match List.find (fun c => existsb (Z.eqb c) CHARACTER_DENY_LIST) chars with
            | Some c => Ret (Err (IllegalChar c))
            | None => validate_loop fuel' it
            end
      end
  end.

Definition validate_path (p : list Z) : outcome (result unit PathError) :=
  let! empty := path_is_empty p in
  if empty then Ret (Err Empty)
  else validate_loop (S (S (length p))) (components p).

End validation.

(** ** Splitting at separators *)

Fixpoint split_on (sep : Z) (l : list Z) : list (list Z) :=
  match l with
  | [] => [[]]
  | c :: l' =>
      if c =? sep then [] :: split_on sep l'
      else match split_on sep l' with
           | [] => [[c]]
           | h :: t => (c :: h) :: t
           end
  end.

(** Joining components with separators in between. *)
Fixpoint join (sep : Z) (cs : list (list Z)) : list Z :=
  match cs with
  | [] => []
  | [c] => c
  | c :: cs' => c ++ sep :: join sep cs'
  end.

(** The components of a path text: a leading separator is skipped, the empty
    path and the root have none. *)
Definition path_components (b : list Z) : list (list Z) :=
  match b with
  | [] => []
  | c :: b' =>
      if c =? SEPARATOR then match b' with [] => [] | _ => split_on SEPARATOR b' end
      else split_on SEPARATOR b
  end.

Definition no_sep (c : list Z) : Prop := SEPARATOR ∉ c.

Lemma no_sep_take_while c :
  no_sep c -> Forall (fun x => negb (x =? SEPARATOR) = true) c.
Proof.
  intros Hc. apply Forall_forall. intros x Hx. apply negb_true_iff, Z.eqb_neq.
  intros ->. by apply Hc.
Qed.

Lemma split_on_app sep c l :
  sep ∉ c -> split_on sep (c ++ sep :: l) = c :: split_on sep l.
Proof.
  induction c as [|x c IH]; simpl; intros Hn.
  - by rewrite Z.eqb_refl.
  - apply not_elem_of_cons in Hn as [Hx Hn].
    rewrite (proj2 (Z.eqb_neq _ _)) by done. by rewrite IH.
Qed.

Lemma split_on_single sep c : sep ∉ c -> split_on sep c = [c].
Proof.
  induction c as [|x c IH]; simpl; intros Hn; [done|].
  apply not_elem_of_cons in Hn as [Hx Hn].
  rewrite (proj2 (Z.eqb_neq _ _)) by done. by rewrite IH.
Qed.

Lemma split_on_not_nil sep l : split_on sep l <> [].
Proof.
  destruct l as [|c l]; simpl; [done|]. destruct (c =? sep); [done|].
  by destruct (split_on sep l).
Qed.

Lemma split_on_length sep l : (length (split_on sep l) <= S (length l))%nat.
Proof.
  induction l as [|c l IH]; simpl; [lia|].
  destruct (c =? sep); simpl; [lia|]. destruct (split_on sep l); simpl in *; lia.
Qed.

(** Splitting finds every list of separator-free components it was joined from. *)
Lemma split_on_join sep cs :
  cs <> [] -> Forall (fun c => sep ∉ c) cs -> split_on sep (join sep cs) = cs.
Proof.
  intros Hne Hs. induction Hs as [|c cs Hc Hs IH]; [done|].
  destruct cs as [|c' cs]; [by apply split_on_single|].
  change (join sep (c :: c' :: cs)) with (c ++ sep :: join sep (c' :: cs)).
  rewrite split_on_app by done. by rewrite IH.
Qed.

Lemma join_split_on sep l :
  join sep (split_on sep l) = l /\ Forall (fun c => sep ∉ c) (split_on sep l).
Proof.
  induction l as [|c l [IHj IHf]]; simpl.
  { split; [done|]. repeat constructor. apply not_elem_of_nil. }
  pose proof (split_on_not_nil sep l).
  destruct (c =? sep) eqn:E; z_bools.
  - subst. split; [|constructor; [apply not_elem_of_nil|done]].
    destruct (split_on sep l) as [|h t]; [done|]. simpl. f_equal. exact IHj.
  - destruct (split_on sep l) as [|h t]; [done|].
    apply Forall_cons in IHf as [Hh Ht]. split.
    + destruct t as [|h' t]; simpl in *; by rewrite <- IHj.
    + constructor; [|done]. apply not_elem_of_cons. auto.
Qed.

(** ** The component iterator *)

(** A well-formed path that fits a Rust allocation. *)
Definition path_wf (p : list Z) : Prop := cstr16_wf p /\ zlen p <= isize_MAX.

#[export] Instance path_wf_dec p : Decision (path_wf p).
Proof. unfold path_wf. apply _. Defined.

Section iterator.
Context `{Profile} (b : list Z).
Context (Hb : Forall body_char b) (Hlen : zlen b < isize_MAX).
Context (Hne : b <> []) (Hroot : b <> [SEPARATOR]).

Abbreviation part_at k := (take_while (fun c => negb (c =? SEPARATOR)) (drop k b)).

Lemma not_root_test :
  (if zlen b =? 1 then let! c := index b 0 in Ret (c =? SEPARATOR) else Ret false) = Ret false.
Proof.
  destruct b as [|x [|y k]]; [done| |].
  - change (zlen [x] =? 1) with true. unfold index. simpl. f_equal.
    apply Z.eqb_neq. congruence.
  - replace (zlen (x :: y :: k) =? 1) with false; [done|].
    symmetry. apply Z.eqb_neq. unfold zlen. simpl. lia.
Qed.

Lemma part_at_slice k :
  (k <= length b)%nat ->
  slice b (Z.of_nat k) (Z.of_nat k + zlen (part_at k)) = Ret (part_at k).
Proof.
  intros Hk. destruct (take_while_split (fun c => negb (c =? SEPARATOR)) (drop k b))
    as (rest & Hsplit & _ & _).
  assert (length (drop k b) = (length (part_at k) + length rest)%nat) as Hl.
  { rewrite Hsplit at 1. by rewrite length_app. }
  rewrite length_drop in Hl.
  rewrite slice_ok by (unfold zlen; lia).
  rewrite Nat2Z.id.
  replace (Z.to_nat (Z.of_nat k + zlen (part_at k) - Z.of_nat k)) with (length (part_at k))
    by (unfold zlen; lia).
  f_equal. rewrite Hsplit at 2. apply take_app_length.
Qed.

Lemma components_next_at k :
  (k <= length b)%nat -> (k = 0%nat -> head b <> Some SEPARATOR) ->
  components_next (mkComponents (b ++ [0]) (Z.of_nat k)) =
  Ret (Some (part_at k ++ [0]),
       mkComponents (b ++ [0]) (Z.of_nat (k + length (part_at k) + 1))).
Proof.
  intros Hk Hhead. unfold components_next. cbn [path i].
  rewrite is_empty_app, bool_decide_false by done. cbn [obind].
  rewrite num_chars_app, as_slice_app. cbn [obind]. rewrite not_root_test. cbn [obind].
  assert ((if Z.of_nat k =? 0 then
             let! c := unwrap (head b) in
             Ret (if c =? SEPARATOR then 1 else Z.of_nat k)
           else Ret (Z.of_nat k)) = Ret (Z.of_nat k)) as ->.
  { destruct (Z.of_nat k =? 0) eqn:E; [|done]. z_bools.
    destruct b as [|x bt]; [done|]. simpl. f_equal.
    rewrite (proj2 (Z.eqb_neq _ _)); [done|]. intros ->. apply Hhead; [lia|done]. }
  cbn [obind]. rewrite iter_collect_app. cbn [obind]. rewrite Nat2Z.id.
  destruct (take_while_split (fun c => negb (c =? SEPARATOR)) (drop k b))
    as (rest & Hsplit & _ & _).
  assert (length (drop k b) = (length (part_at k) + length rest)%nat) as Hl.
  { rewrite Hsplit at 1. by rewrite length_app. }
  rewrite length_drop in Hl. unfold isize_MAX in Hlen.
  rewrite usize_add_ok by (unfold zlen in *; lia). cbn [obind].
  rewrite (proj2 (Z.ltb_ge _ _)) by (unfold zlen; lia).
  rewrite part_at_slice by done. cbn [obind].
  rewrite (cstring16_push_all_app []).
  2: { apply body_char_nonzero. apply (Forall_drop _ k) in Hb. rewrite Hsplit in Hb.
       by apply Forall_app in Hb as [? _]. }
  cbn [obind app]. rewrite usize_add_ok by (unfold zlen in *; lia). cbn [obind].
  do 3 f_equal. unfold zlen. lia.
Qed.

Lemma components_next_end :
  exists it, components_next (mkComponents (b ++ [0]) (zlen b + 1)) = Ret (None, it).
Proof.
  unfold components_next. cbn [path i].
  rewrite is_empty_app, bool_decide_false by done. cbn [obind].
  rewrite num_chars_app, as_slice_app. cbn [obind]. rewrite not_root_test. cbn [obind].
  rewrite (proj2 (Z.eqb_neq (zlen b + 1) 0)) by (unfold zlen; lia). cbn [obind].
  rewrite iter_collect_app. cbn [obind].
  rewrite drop_ge by (unfold zlen; lia). cbn [take_while].
  unfold isize_MAX in Hlen. rewrite usize_add_ok by (unfold zlen in *; simpl; lia). cbn [obind].
  rewrite (proj2 (Z.ltb_lt _ _)) by (unfold zlen; simpl; lia). by eexists.
Qed.

(** A leading separator is skipped on the first call. *)
Lemma components_next_leading :
  head b = Some SEPARATOR ->
  components_next (mkComponents (b ++ [0]) 0) = components_next (mkComponents (b ++ [0]) 1).
Proof.
  intros Hh. unfold components_next. cbn [path i].
  rewrite is_empty_app, bool_decide_false by done. cbn [obind].
  rewrite num_chars_app, as_slice_app. cbn [obind]. rewrite not_root_test. cbn [obind].
  rewrite Hh. reflexivity.
Qed.

Lemma components_collect_at fuel k :
  (k <= length b)%nat -> (k = 0%nat -> head b <> Some SEPARATOR) ->
  (length b - k + 1 < fuel)%nat ->
  components_collect fuel (mkComponents (b ++ [0]) (Z.of_nat k)) =
  Ret (map (fun c => c ++ [0]) (split_on SEPARATOR (drop k b))).
Proof.
  revert k. induction fuel as [|fuel IH]; intros k Hk Hhead Hf; [lia|].
  cbn [components_collect]. rewrite components_next_at by done. cbn [obind].
  destruct (take_while_split (fun c => negb (c =? SEPARATOR)) (drop k b))
    as (rest & Hsplit & Hall & Hrest).
  assert (Hns : SEPARATOR ∉ part_at k).
  { intros Hin. rewrite Forall_forall in Hall. by specialize (Hall _ Hin). }
  assert (length (drop k b) = (length (part_at k) + length rest)%nat) as Hl.
  { rewrite Hsplit at 1. by rewrite length_app. }
  rewrite length_drop in Hl.
  destruct Hrest as [->|(x & rest' & -> & Hx)].
  - rewrite app_nil_r in Hsplit. rewrite Hsplit at 2.
    rewrite split_on_single by done. simpl in Hl.
    destruct fuel; [lia|]. cbn [components_collect].
    replace (Z.of_nat (k + length (part_at k) + 1)) with (zlen b + 1) by (unfold zlen; lia).
    destruct components_next_end as [it ->]. done.
  - apply negb_false_iff, Z.eqb_eq in Hx. subst x. rewrite Hsplit at 2.
    rewrite split_on_app by done. simpl in Hl.
    rewrite IH by lia. cbn [obind map]. do 3 f_equal.
    clear -Hsplit. revert Hsplit. generalize (part_at k). intros tw Hsplit.
    replace (k + length tw + 1)%nat with (k + (length tw + 1))%nat by lia.
    rewrite <- drop_drop, Hsplit. by rewrite drop_app_add.
Qed.

End iterator.

Lemma all_components_app `{Profile} b :
  Forall body_char b -> zlen b < isize_MAX ->
  all_components (b ++ [0]) = Ret (map (fun c => c ++ [0]) (path_components b)).
Proof.
  intros Hb Hl. unfold all_components, components.
  destruct (decide (b = [])) as [->|Hne]; [done|].
  destruct (decide (b = [SEPARATOR])) as [->|Hroot]; [done|].
  destruct (decide (head b = Some SEPARATOR)) as [Hh|Hh].
  - assert (components_collect (S (S (length (b ++ [0])))) (mkComponents (b ++ [0]) 0) =
            components_collect (S (S (length (b ++ [0])))) (mkComponents (b ++ [0]) 1)) as ->.
    { cbn [components_collect]. by rewrite components_next_leading. }
    change 1 with (Z.of_nat 1).
    rewrite (components_collect_at b Hb Hl Hne Hroot _ 1);
      [|destruct b; simpl; [done|lia]|done|rewrite length_app; simpl; lia].
    by destruct b as [|x [|y k]]; [|injection Hh as ->..].
  - rewrite (components_collect_at b Hb Hl Hne Hroot _ 0); [|lia|done|rewrite length_app; simpl; lia].
    destruct b as [|x k]; [done|]. unfold path_components.
    rewrite (proj2 (Z.eqb_neq x SEPARATOR)); [done|]. intros ->. by apply Hh.
Qed.

Lemma path_wf_inv p :
  path_wf p -> exists b, p = b ++ [0] /\ body p = b /\ Forall body_char b /\ zlen b < isize_MAX.
Proof.
  intros [(b & -> & Hb) Hl]. exists b. rewrite body_app_nul. do 3 (split; [done|]).
  rewrite zlen_app in Hl. unfold zlen in *. simpl in Hl. lia.
Qed.

(** The iterator terminates on every path and yields exactly the parts between
    separators (a leading separator skipped; empty parts, such as the one after
    a trailing separator, included). *)
Theorem components_split `{Profile} (p : list Z) :
  path_wf p ->
  all_components p = Ret (map (fun c => c ++ [0]) (path_components (body p))).
Proof. intros (b & -> & -> & Hb & Hl)%path_wf_inv. by apply all_components_app. Qed.

Lemma components_split_witness :
  all_components (H := debug_profile) [SEPARATOR; 0x61; SEPARATOR; 0x62; 0] =
  Ret [[0x61; 0]; [0x62; 0]].
Proof. exact (@components_split debug_profile [SEPARATOR; 0x61; SEPARATOR; 0x62; 0] ltac:(by_decide)). Defined.


(** ** Validation *)

Definition denied (c : Z) : bool := existsb (Z.eqb c) CHARACTER_DENY_LIST.

(** A component that a path may have. *)
Definition component_ok (c : list Z) : Prop :=
  c <> [] /\ Forall (fun x => denied x = false) c.

Fixpoint check_components (cs : list (list Z)) : result unit PathError :=
  match cs with
  | [] => Ok tt
  | c :: cs' =>
      if bool_decide (c = []) then Err EmptyComponent
      else match List.find denied c with
           | Some x => Err (IllegalChar x)
           | None => check_components cs'
           end
  end.

(** The lazy loop gives what checking the collected components gives. *)
Lemma validate_loop_collect `{Profile} fuel it cs :
  components_collect fuel it = Ret (map (fun c => c ++ [0]) cs) ->
  validate_loop fuel it = Ret (check_components cs).
Proof.
  revert it cs. induction fuel as [|fuel IH]; intros it cs Hc; [done|].
  cbn [components_collect validate_loop] in *.
  destruct (components_next it) as [[o it']| | |]; cbn [obind] in *; try done.
  destruct o as [c|].
  - apply obind_Ret_inv in Hc as (rest & Hr & Hc). injection Hc as Hc.
    destruct cs as [|c' cs]; simplify_eq/=.
    rewrite cstring16_is_empty_app. cbn [obind]. rewrite as_slice_app. cbn [obind].
    case_bool_decide; [done|]. fold denied. by destruct (List.find _ c'); [|apply IH].
  - by destruct cs.
Qed.

Lemma find_denied_None c : List.find denied c = None <-> Forall (fun x => denied x = false) c.
Proof.
  induction c as [|x c IH]; simpl; [done|]. rewrite Forall_cons.
  destruct (denied x) eqn:E; naive_solver.
Qed.

Lemma find_denied_Some c x : List.find denied c = Some x -> x ∈ c /\ denied x = true.
Proof. intros [Hin Hd]%List.find_some. split; [by apply list_elem_of_In|done]. Qed.

Lemma check_components_spec cs :
  match check_components cs with
  | Ok _ => Forall component_ok cs
  | Err Empty => False
  | Err EmptyComponent => exists cs1 cs2, cs = cs1 ++ [] :: cs2 /\ Forall component_ok cs1
  | Err (IllegalChar x) => exists cs1 c cs2, cs = cs1 ++ c :: cs2 /\
      Forall component_ok cs1 /\ x ∈ c /\ denied x = true
  end.
Proof.
  induction cs as [|c cs IH]; simpl; [done|]. case_bool_decide as Hc.
  { subst. by exists [], cs. }
  destruct (List.find denied c) as [x|] eqn:E.
  { apply find_denied_Some in E as [? ?]. by exists [], c, cs. }
  assert (component_ok c) by (split; [done|by apply find_denied_None]).
  destruct (check_components cs) as [|[| |x]]; [by constructor|done| |].
  - destruct IH as (cs1 & cs2 & -> & ?). exists (c :: cs1), cs2. split; [done|by constructor].
  - destruct IH as (cs1 & c' & cs2 & -> & ? & ?). exists (c :: cs1), c', cs2.
    split; [done|]. split; [by constructor|done].
Qed.

Lemma validate_path_app `{Profile} b :
  Forall body_char b -> zlen b < isize_MAX ->
  validate_path (b ++ [0]) =
  Ret (if bool_decide (b = []) then Err Empty else check_components (path_components b)).
Proof.
  intros Hb Hl. unfold validate_path, path_is_empty. rewrite is_empty_app. cbn [obind].
  case_bool_decide; [done|]. apply validate_loop_collect. by apply all_components_app.
Qed.

(** [validate_path] accepts exactly the non-empty paths whose components are
    all non-empty and free of denied characters, and names the first offence
    otherwise. *)
Theorem validate_path_spec `{Profile} (p : list Z) :
  path_wf p ->
  exists r, validate_path p = Ret r /\
  match r with
  | Ok _ => body p <> [] /\ Forall component_ok (path_components (body p))
  | Err Empty => body p = []
  | Err EmptyComponent => exists cs1 cs2,
      path_components (body p) = cs1 ++ [] :: cs2 /\ Forall component_ok cs1
  | Err (IllegalChar x) => exists cs1 c cs2,
      path_components (body p) = cs1 ++ c :: cs2 /\ Forall component_ok cs1 /\
      x ∈ c /\ x ∈ CHARACTER_DENY_LIST
  end.
Proof.
  intros (b & -> & -> & Hb & Hl)%path_wf_inv. rewrite validate_path_app by done.
  eexists. split; [done|]. case_bool_decide as Hn; [done|].
  pose proof (check_components_spec (path_components b)) as Hspec.
  destruct (check_components (path_components b)) as [|[| |x]]; [done|done|done|].
  destruct Hspec as (cs1 & c & cs2 & ? & ? & ? & Hd). exists cs1, c, cs2.
  do 3 (split; [done|]). apply existsb_exists in Hd as (y & Hy & E). z_bools. subst.
  by apply list_elem_of_In.
Qed.

Lemma validate_path_spec_witness :
  Forall component_ok (path_components [0x61; SEPARATOR; 0x62]).
Proof.
  destruct (@validate_path_spec debug_profile [0x61; SEPARATOR; 0x62; 0] ltac:(by_decide)) as (r & E & Hr).
  vm_compute in E. injection E as <-. exact (proj2 Hr).
Defined.


(** ** Parents *)

Lemma parent_step_app `{Profile} acc c :
  Forall body_char c ->
  parent_step (acc ++ [0]) (c ++ [0]) =
  Ret ((if bool_decide (acc = []) then []
        else if bool_decide (last acc = Some SEPARATOR) then acc
        else acc ++ [SEPARATOR]) ++ c ++ [0]).
Proof.
  intros Hc. unfold parent_step. rewrite is_empty_app. cbn [obind].
  case_bool_decide as Hn.
  { subst. cbn [obind]. by apply cstring16_push_str_app. }
  rewrite as_slice_app. cbn [obind].
  destruct (last acc) as [l|] eqn:El.
  2: { by apply last_None in El. }
  cbn [unwrap obind]. destruct (l =? SEPARATOR) eqn:E; z_bools; cbn [negb obind].
  - subst. rewrite bool_decide_true by done. by apply cstring16_push_str_app.
  - rewrite bool_decide_false by congruence. rewrite cstring16_push_app by done. cbn [obind].
    replace (acc ++ [SEPARATOR; 0]) with ((acc ++ [SEPARATOR]) ++ [0]) by by rewrite <- app_assoc.
    by apply cstring16_push_str_app.
Qed.

(** Non-empty components without separators are joined by single separators. *)
Lemma parent_fold_join `{Profile} cs acc :
  Forall body_char (concat cs) -> Forall (fun c => c <> [] /\ no_sep c) cs ->
  acc = [] \/ last acc <> Some SEPARATOR ->
  parent_fold (acc ++ [0]) (map (fun c => c ++ [0]) cs) =
  Ret ((match acc, cs with
        | [], _ => join SEPARATOR cs
        | _, [] => acc
        | _, _ => acc ++ SEPARATOR :: join SEPARATOR cs
        end) ++ [0]).
Proof.
  intros Hb Hcs. revert acc. induction Hcs as [|c cs [Hne Hns] Hcs IH]; intros acc Hacc.
  { by destruct acc. }
  simpl in Hb. apply Forall_app in Hb as [Hbc Hb]. cbn [map parent_fold].
  rewrite parent_step_app by done. cbn [obind].
  assert (Hlast : forall pre, last (pre ++ c) <> Some SEPARATOR).
  { intros pre. destruct (last c) as [x|] eqn:E; [|by apply last_None in E].
    destruct (proj1 (last_Some c x) E) as [c' ->]. rewrite app_assoc, last_snoc.
    intros [= ->]. apply Hns, elem_of_app. right. by apply list_elem_of_singleton. }
  case_bool_decide as Hn.
  - subst acc. cbn [app]. rewrite IH by (done || right; apply (Hlast [])).
    destruct c as [|x c]; [done|]. by destruct cs.
  - rewrite bool_decide_false by (destruct Hacc; [done|done]).
    rewrite (app_assoc (acc ++ [SEPARATOR])). rewrite IH by (done || right; apply Hlast).
    destruct acc as [|y acc]; [done|]. cbn [app].
    destruct cs as [|c' cs].
    + simpl. by rewrite <- !app_assoc.
    + change (join SEPARATOR (c :: c' :: cs)) with (c ++ SEPARATOR :: join SEPARATOR (c' :: cs)).
      by simplify_list_eq.
Qed.

Lemma split_on_Forall (P : Z -> Prop) sep l :
  Forall P l -> Forall (Forall P) (split_on sep l).
Proof.
  induction 1 as [|c l Hc _ IH]; simpl; [by repeat constructor|].
  destruct (c =? sep); [by constructor|].
  destruct (split_on sep l) as [|h t]; [by repeat constructor|].
  apply Forall_cons in IH as [Hh Ht]. constructor; [by constructor|done].
Qed.

Lemma path_components_Forall (P : Z -> Prop) b :
  Forall P b -> Forall (Forall P) (path_components b).
Proof.
  intros Hb. destruct b as [|c b]; unfold path_components; [done|].
  destruct (c =? SEPARATOR).
  - apply Forall_cons in Hb as [_ Hb]. destruct b as [|d b]; [done|]. by apply split_on_Forall.
  - by apply (split_on_Forall P SEPARATOR (c :: b)).
Qed.

Lemma path_components_no_sep b : Forall no_sep (path_components b).
Proof.
  destruct b as [|c b]; unfold path_components, no_sep; [done|].
  destruct (c =? SEPARATOR).
  - destruct b; [done|]. apply join_split_on.
  - apply (join_split_on SEPARATOR (c :: b)).
Qed.

Lemma join_Forall (P : Z -> Prop) sep cs :
  P sep -> Forall (Forall P) cs -> Forall P (join sep cs).
Proof.
  intros Hs. induction 1 as [|c cs Hc Hcs IH]; [done|].
  destruct cs as [|d cs]; [done|].
  change (join sep (c :: d :: cs)) with (c ++ sep :: join sep (d :: cs)).
  apply Forall_app. split; [done|]. by constructor.
Qed.

Lemma replace_char_id search replace b :
  search ∉ b -> map (fun c => if c =? search then replace else c) b = b.
Proof.
  induction b as [|c b IH]; simpl; [done|]. intros [Hc Hb]%not_elem_of_cons.
  rewrite (proj2 (Z.eqb_neq c search)) by done. by rewrite IH.
Qed.

Lemma pathbuf_from_app b :
  pathbuf_from_cstring16 (b ++ [0]) =
  Ret (map (fun c => if c =? SLASH then SEPARATOR else c) b ++ [0]).
Proof. by apply cstring16_replace_char_app. Qed.

Lemma component_ok_no_slash c : component_ok c -> SLASH ∉ c.
Proof.
  intros [_ Hc] Hin. rewrite Forall_forall in Hc. by specialize (Hc _ Hin).
Qed.

Lemma join_no_slash cs : Forall (fun c => SLASH ∉ c) cs -> SLASH ∉ join SEPARATOR cs.
Proof.
  intros Hcs Hin.
  assert (Forall (fun x => x <> SLASH) (join SEPARATOR cs)) as Hj.
  { apply join_Forall; [done|]. eapply Forall_weaken; [|exact Hcs].
    intros c Hc. apply Forall_forall. intros x Hx ->. done. }
  rewrite Forall_forall in Hj. by apply (Hj _ Hin).
Qed.

Lemma no_separators_count b :
  (length (filter (fun c => c = SEPARATOR) b) =? 0)%nat = bool_decide (SEPARATOR ∉ b).
Proof.
  destruct (decide (SEPARATOR ∈ b)) as [Hin|Hin].
  - rewrite bool_decide_false by (intros Hn; by apply Hn).
    apply Nat.eqb_neq. intros Hl. apply nil_length_inv in Hl.
    assert (SEPARATOR ∈ filter (fun c => c = SEPARATOR) b) as Hf
      by by apply list_elem_of_filter.
    rewrite Hl in Hf. by apply elem_of_nil in Hf.
  - rewrite bool_decide_true by done. apply Nat.eqb_eq.
    destruct (filter _ b) as [|x l] eqn:E; [done|]. exfalso. apply Hin.
    assert (x ∈ filter (fun c => c = SEPARATOR) b) as Hf by (rewrite E; by left).
    by apply list_elem_of_filter in Hf as [-> ?].
Qed.

Lemma parent_app `{Profile} b :
  Forall body_char b -> zlen b < isize_MAX ->
  Forall component_ok (path_components b) ->
  parent (b ++ [0]) =
  Ret (let cs := path_components b in
       if bool_decide (cs <> [] /\ SEPARATOR ∈ b)
       then Some (join SEPARATOR (take (length cs - 1) cs) ++ [0]) else None).
Proof.
  intros Hb Hl Hok. unfold parent. rewrite all_components_app by done. cbn [obind].
  rewrite length_map. destruct (decide (path_components b = [])) as [E|E].
  { rewrite E. cbn [length Nat.eqb]. by rewrite bool_decide_false by by intros [? _]. }
  rewrite (proj2 (Nat.eqb_neq _ 0)) by (by destruct (path_components b)).
  rewrite as_slice_app. cbn [obind]. rewrite no_separators_count.
  destruct (decide (SEPARATOR ∈ b)) as [Hin|Hin].
  2: { rewrite (bool_decide_true (SEPARATOR ∉ b)) by done.
       by rewrite bool_decide_false by by intros [_ ?]. }
  rewrite (bool_decide_false (SEPARATOR ∉ b)) by (intros Hn; by apply Hn).
  rewrite <- fmap_take. rewrite (parent_fold_join _ []).
  - cbn [obind app]. rewrite pathbuf_from_app. cbn [obind].
    rewrite bool_decide_true by done. rewrite replace_char_id; [done|].
    apply join_no_slash. apply Forall_take. eapply Forall_weaken; [|exact Hok].
    apply component_ok_no_slash.
  - apply Forall_concat, Forall_take, path_components_Forall, Hb.
  - apply Forall_take. apply Forall_and. split.
    + eapply Forall_weaken; [|exact Hok]. by intros c [? _].
    + apply path_components_no_sep.
  - by left.
Qed.

Lemma path_components_join cs :
  Forall (fun c => c <> [] /\ no_sep c) cs -> path_components (join SEPARATOR cs) = cs.
Proof.
  intros Hcs. destruct cs as [|c cs]; [done|].
  pose proof Hcs as Hcs'. apply Forall_cons in Hcs' as [[Hne Hns] _].
  assert (split_on SEPARATOR (join SEPARATOR (c :: cs)) = c :: cs) as E.
  { apply split_on_join; [done|]. eapply Forall_weaken; [|exact Hcs]. by intros ? [_ ?]. }
  destruct c as [|x c]; [done|].
  assert (exists k, join SEPARATOR ((x :: c) :: cs) = x :: k) as [k Ek]
    by (destruct cs; by eexists).
  rewrite Ek in E |- *. unfold path_components.
  rewrite (proj2 (Z.eqb_neq x SEPARATOR)); [done|]. intros ->. apply Hns. by left.
Qed.

Lemma length_join_take sep n cs :
  (length (join sep (take n cs)) <= length (join sep cs))%nat.
Proof.
  revert n. induction cs as [|c cs IH]; intros [|n]; [done|done|simpl; lia|].
  cbn [take]. destruct cs as [|d cs]; [by rewrite take_nil|].
  change (join sep (c :: d :: cs)) with (c ++ sep :: join sep (d :: cs)).
  specialize (IH n). rewrite length_app. cbn [length].
  destruct (take n (d :: cs)) as [|d' cs'] eqn:E; simpl in *; [lia|].
  rewrite length_app. simpl in *. lia.
Qed.

Lemma length_join_components b : (length (join SEPARATOR (path_components b)) <= length b)%nat.
Proof.
  destruct b as [|c b]; [done|]. unfold path_components.
  destruct (c =? SEPARATOR).
  - destruct b as [|d b]; [simpl; lia|].
    rewrite (proj1 (join_split_on SEPARATOR (d :: b))). simpl. lia.
  - by rewrite (proj1 (join_split_on SEPARATOR (c :: b))).
Qed.

Lemma component_ok_parts b :
  Forall component_ok (path_components b) ->
  Forall (fun c => c <> [] /\ no_sep c) (path_components b).
Proof.
  intros Hok. apply Forall_and. split.
  - eapply Forall_weaken; [|exact Hok]. by intros c [? _].
  - apply path_components_no_sep.
Qed.

Lemma validated_components `{Profile} b :
  Forall body_char b -> zlen b < isize_MAX ->
  validate_path (b ++ [0]) = Ret (Ok tt) ->
  b <> [] /\ Forall component_ok (path_components b).
Proof.
  intros Hb Hl. rewrite validate_path_app by done. case_bool_decide; [done|].
  intros [= E]. split; [done|]. pose proof (check_components_spec (path_components b)) as Hs.
  by rewrite E in Hs.
Qed.

(** On a path accepted by validation, [parent] drops the last component and
    joins the others with single separators; it is [None] exactly when the path
    has no components or no separator. *)
Theorem parent_spec `{Profile} (p : list Z) :
  path_wf p -> validate_path p = Ret (Ok tt) ->
  exists o, parent p = Ret o /\
  match o with
  | None => path_components (body p) = [] \/ SEPARATOR ∉ body p
  | Some q => SEPARATOR ∈ body p /\ path_wf q /\
      exists c, path_components (body p) = path_components (body q) ++ [c]
  end.
Proof.
  intros (b & -> & -> & Hb & Hl)%path_wf_inv Hv.
  destruct (validated_components b Hb Hl Hv) as [Hne Hok]. rewrite parent_app by done.
  eexists. split; [done|]. cbn zeta. case_bool_decide as Hc.
  2: { destruct (decide (path_components b = [])); [by left|right]. naive_solver. }
  destruct Hc as [Hcs Hin]. split; [done|].
  set (cs := path_components b) in *.
  assert (Forall body_char (join SEPARATOR (take (length cs - 1) cs))) as Hbj.
  { apply join_Forall; [by vm_compute|]. by apply Forall_take, path_components_Forall. }
  split.
  - split; [by exists (join SEPARATOR (take (length cs - 1) cs))|].
    rewrite zlen_app. pose proof (length_join_take SEPARATOR (length cs - 1) cs).
    pose proof (length_join_components b). fold cs in H1. unfold zlen in *. simpl. lia.
  - rewrite body_app_nul, path_components_join
      by (by apply Forall_take, component_ok_parts).
    destruct (exists_last Hcs) as (cs' & c & E). rewrite E. exists c.
    rewrite length_app. simpl. replace (length cs' + 1 - 1)%nat with (length cs') by lia.
    by rewrite take_app_length.
Qed.

Lemma parent_spec_witness :
  exists q, parent (H := debug_profile) [0x61; SEPARATOR; 0x62; 0] = Ret (Some q) /\ path_components (body q) = [[0x61]].
Proof.
  destruct (@parent_spec debug_profile [0x61; SEPARATOR; 0x62; 0] ltac:(by_decide) ltac:(by vm_compute)) as (o & E & Ho).
  vm_compute in E. injection E as <-. eexists; split; [vm_compute; reflexivity|]. reflexivity.
Defined.


(** The parent of an absolute top-level path is the empty path, which no
    file-system operation accepts. *)
Theorem parent_of_toplevel_is_empty `{Profile} (c : list Z) :
  Forall body_char c -> zlen c < isize_MAX - 1 -> component_ok c -> no_sep c ->
  parent (SEPARATOR :: c ++ [0]) = Ret (Some [0]) /\
  validate_path [0] = Ret (Err Empty).
Proof.
  intros Hc Hl Hok Hns. split; [|done].
  assert (path_components (SEPARATOR :: c) = [c]) as E.
  { unfold path_components. rewrite Z.eqb_refl. destruct c as [|x c]; [by destruct Hok|].
    by apply split_on_single. }
  rewrite (parent_app (SEPARATOR :: c)).
  - rewrite E. cbn zeta. rewrite bool_decide_true; [done|]. split; [done|by left].
  - constructor; [by vm_compute|done].
  - rewrite zlen_cons. lia.
  - rewrite E. by apply Forall_singleton.
Qed.

Lemma parent_of_toplevel_is_empty_witness :
  parent (H := debug_profile) [SEPARATOR; 0x61; 0] = Ret (Some [0]).
Proof.
  refine (proj1 (@parent_of_toplevel_is_empty debug_profile [0x61] ltac:(by_decide) _ _ _)).
  - by vm_compute.
  - split; [discriminate|]. by_decide.
  - by_decide.
Defined.


(** ** Pushing *)

Definition unslash (b : list Z) : list Z :=
  map (fun c => if c =? SLASH then SEPARATOR else c) b.

Lemma pathbuf_push_app `{Profile} s p :
  Forall body_char s -> Forall body_char p ->
  pathbuf_push (s ++ [0]) (p ++ [0]) =
  Ret ((if bool_decide (p = []) then s
        else unslash (if bool_decide (s = []) then p else s ++ SEPARATOR :: p)) ++ [0]).
Proof.
  intros Hs Hp. unfold pathbuf_push, path_is_empty, cstr16_as_slice_with_nul.
  rewrite is_empty_app. cbn [obind]. case_bool_decide as Hn; [done|].
  rewrite cstring16_is_empty_app. cbn [obind]. rewrite last_snoc. cbn [unwrap obind].
  change (0 =? SEPARATOR) with false. cbn [negb]. rewrite andb_true_r.
  case_bool_decide as Hn'; cbn [negb obind].
  - subst. rewrite cstring16_push_str_app by done. cbn [obind].
    by apply cstring16_replace_char_app.
  - rewrite cstring16_push_app by done. cbn [obind].
    replace (s ++ [SEPARATOR; 0]) with ((s ++ [SEPARATOR]) ++ [0]) by by rewrite <- app_assoc.
    rewrite cstring16_push_str_app by done. cbn [obind].
    rewrite app_assoc, cstring16_replace_char_app by done. unfold unslash.
    by rewrite <- app_assoc.
Qed.

Lemma split_on_app_gen sep l k :
  split_on sep (l ++ sep :: k) = split_on sep l ++ split_on sep k.
Proof.
  induction l as [|c l IH]; simpl.
  - by rewrite Z.eqb_refl.
  - rewrite IH. destruct (c =? sep); [done|].
    by destruct (split_on sep l) as [|h t] eqn:E; [apply split_on_not_nil in E|].
Qed.

(** Pushing a relative path onto a non-root path appends its components. *)
Theorem pathbuf_push_components `{Profile} (s p : list Z) :
  cstr16_wf s -> cstr16_wf p -> SLASH ∉ body s -> SLASH ∉ body p ->
  body s <> [] -> body s <> [SEPARATOR] ->
  body p <> [] -> head (body p) <> Some SEPARATOR ->
  exists q, pathbuf_push s p = Ret q /\ cstr16_wf q /\
    path_components (body q) = path_components (body s) ++ path_components (body p).
Proof.
  intros (b & -> & Hb) (k & -> & Hk). rewrite !body_app_nul. intros Hsb Hsk Hn Hroot Hp Hh.
  rewrite pathbuf_push_app by done. rewrite !bool_decide_false by done.
  eexists. split; [done|]. unfold unslash. rewrite replace_char_id.
  2: { rewrite elem_of_app, elem_of_cons. intros [?|[?|?]]; done. }
  rewrite body_app_nul. split.
  { eexists. split; [done|]. apply Forall_app. split; [done|].
    constructor; [by vm_compute|done]. }
  assert (path_components k = split_on SEPARATOR k) as ->.
  { destruct k as [|y k]; [done|]. unfold path_components.
    rewrite (proj2 (Z.eqb_neq y SEPARATOR)); [done|]. intros ->. by apply Hh. }
  destruct b as [|x b]; [done|]. cbn [app]. unfold path_components.
  destruct (x =? SEPARATOR) eqn:E; z_bools.
  - subst. destruct b as [|y b]; [done|]. cbn [app].
    by rewrite app_comm_cons, split_on_app_gen.
  - by rewrite app_comm_cons, split_on_app_gen.
Qed.

Lemma pathbuf_push_components_witness :
  exists q, pathbuf_push (H := debug_profile) [0x61; 0] [0x62; SEPARATOR; 0x63; 0] = Ret q /\
    path_components (body q) = [[0x61]; [0x62]; [0x63]].
Proof.
  destruct (@pathbuf_push_components debug_profile [0x61; 0] [0x62; SEPARATOR; 0x63; 0] ltac:(by_decide) ltac:(by_decide)
    ltac:(by_decide) ltac:(by_decide) ltac:(discriminate) ltac:(discriminate) ltac:(discriminate) ltac:(discriminate)) as (q & Eq & _ & Hc).
  exists q. split; [exact Eq|exact Hc].
Defined.


Lemma check_components_skip cs1 cs2 :
  Forall component_ok cs1 -> check_components (cs1 ++ cs2) = check_components cs2.
Proof.
  induction 1 as [|c cs1 [Hne Hc] _ IH]; simpl; [done|].
  rewrite bool_decide_false by done. by rewrite (proj2 (find_denied_None c) Hc).
Qed.

Lemma path_components_double_sep s k :
  exists cs, path_components (s ++ SEPARATOR :: SEPARATOR :: k) = cs ++ [] :: split_on SEPARATOR k /\
    (cs = path_components s \/ exists cs', cs = [] :: cs').
Proof.
  assert (forall l, split_on SEPARATOR (l ++ SEPARATOR :: SEPARATOR :: k) =
    split_on SEPARATOR l ++ [] :: split_on SEPARATOR k) as Hsp
    by (intros l; by rewrite split_on_app_gen).
  destruct s as [|x s].
  { exists []. split; [|by left]. done. }
  cbn [app]. unfold path_components. destruct (x =? SEPARATOR) eqn:E.
  - destruct s as [|y s]; cbn [app].
    + exists [[]]. split; [done|right; by eexists].
    + exists (split_on SEPARATOR (y :: s)). split; [|by left].
      by rewrite app_comm_cons, Hsp.
  - exists (split_on SEPARATOR (x :: s)). split; [|by left]. by rewrite app_comm_cons, Hsp.
Qed.

(** [push] tests the terminating NUL instead of the last character, so pushing
    onto a valid path that ends with a separator doubles it: the result has an
    empty component and validation rejects it. *)
Theorem push_after_separator_is_invalid `{Profile} (s p : list Z) :
  Forall body_char s -> Forall body_char p -> p <> [] -> SLASH ∉ s ->
  zlen s + zlen p < isize_MAX - 2 -> Forall component_ok (path_components s) ->
  exists q, pathbuf_push (s ++ [SEPARATOR; 0]) (p ++ [0]) = Ret q /\
    validate_path q = Ret (Err EmptyComponent).
Proof.
  intros Hs Hp Hne Hsl Hlen Hok.
  replace (s ++ [SEPARATOR; 0]) with ((s ++ [SEPARATOR]) ++ [0]) by by rewrite <- app_assoc.
  assert (body_char SEPARATOR) as Hsep by by vm_compute.
  rewrite pathbuf_push_app by (try apply Forall_app; auto).
  rewrite !bool_decide_false by (done || by destruct s).
  eexists. split; [done|].
  rewrite <- app_assoc. cbn [app]. unfold unslash. rewrite map_app.
  rewrite (replace_char_id _ _ s) by done. cbn [map].
  change (if SEPARATOR =? SLASH then SEPARATOR else SEPARATOR) with SEPARATOR.
  fold (unslash p).
  rewrite validate_path_app.
  - rewrite bool_decide_false by (by destruct s).
    destruct (path_components_double_sep s (unslash p)) as (cs & -> & [->|[cs' ->]]); [|done].
    by rewrite check_components_skip.
  - apply Forall_app. split; [done|]. do 2 (constructor; [done|]). by apply replace_body.
  - rewrite zlen_app, !zlen_cons. unfold unslash, zlen in *. rewrite length_map. lia.
Qed.

Lemma push_after_separator_is_invalid_witness :
  exists q, pathbuf_push (H := debug_profile) [0x61; SEPARATOR; 0] [0x62; 0] = Ret q /\
    validate_path (H := debug_profile) q = Ret (Err EmptyComponent).
Proof.
  refine (@push_after_separator_is_invalid debug_profile [0x61] [0x62] ltac:(by_decide) ltac:(by_decide) ltac:(discriminate)
    ltac:(by_decide) ltac:(by vm_compute) _).
  simpl. repeat constructor; try discriminate.
Defined.


(** ** Equality *)

Lemma zip_any_diff (a b : list (list Z)) :
  (length a =? length b)%nat &&
  negb (existsb (fun '(c1, c2) => negb (bool_decide (c1 = c2))) (zip a b)) =
  bool_decide (a = b).
Proof.
  revert b. induction a as [|x a IH]; intros [|y b]; simpl; try done.
  destruct (decide (x = y)) as [->|Hn].
  - rewrite (bool_decide_true (y = y)) by done. simpl. rewrite IH.
    apply bool_decide_ext. naive_solver.
  - rewrite (bool_decide_false (x = y)) by done. simpl.
    rewrite andb_false_r, bool_decide_false; [done|]. congruence.
Qed.

(** Two paths are equal exactly when they have the same components: equality
    ignores a leading separator and nothing else. *)
Theorem path_eq_components `{Profile} (p q : list Z) :
  path_wf p -> path_wf q ->
  path_eq p q = Ret (bool_decide (path_components (body p) = path_components (body q))).
Proof.
  intros (b & -> & -> & Hb & Hl)%path_wf_inv (k & -> & -> & Hk & Hl')%path_wf_inv.
  unfold path_eq. rewrite !all_components_app by done. cbn [obind]. f_equal.
  rewrite zip_any_diff. apply bool_decide_ext. split; [|by intros ->].
  intros E. apply (f_equal (map body)) in E. rewrite !map_map in E.
  assert (forall l : list (list Z), map (fun x => body (x ++ [0])) l = l) as Hid.
  { induction l as [|x l IH]; simpl; [done|]. by rewrite body_app_nul, IH. }
  by rewrite !Hid in E.
Qed.

Lemma path_eq_components_witness :
  path_eq (H := debug_profile) [0x61; 0] [SEPARATOR; 0x61; 0] = Ret true.
Proof. exact (@path_eq_components debug_profile [0x61; 0] [SEPARATOR; 0x61; 0] ltac:(by_decide) ltac:(by_decide)). Defined.


(** The derived order of paths compares the characters, so two equal paths need
    not compare as equal. *)
Lemma equal_paths_differ_in_text :
  path_eq (H := debug_profile) [0x61; 0] [SEPARATOR; 0x61; 0] = Ret true /\
  [0x61; 0] <> [SEPARATOR; 0x61; 0].
Proof. split; [by vm_compute|done]. Qed.
