(* ===== verification/MemoryMap.v ===== *)
(** * The UEFI memory map: [uefi/src/mem/memory_map/*.rs]

    A memory map is a byte buffer at some address together with the metadata
    the firmware reported.  Descriptors are read through raw pointers at
    multiples of [desc_size]: a read outside the buffer, or one that is not
    aligned for [MemoryDescriptor], is [Undefined].  The trait [MemoryMap] is a
    type class with one instance per implementation; [sort] is the in-place
    quicksort on the bytes of the buffer. *)
From S2P Require Import Prelude.

(** ** Descriptors: [uefi-raw/src/table/boot.rs] *)

Record MemoryDescriptor : Set := mkMemoryDescriptor {
  ty : Z;
  phys_start : Z;
  virt_start : Z;
  page_count : Z;
  att : Z;
}.

Definition MEMORY_DESCRIPTOR_VERSION : Z := 1.
Definition memory_descriptor_default : MemoryDescriptor :=
  mkMemoryDescriptor 0 0 0 0 0.

(** [size_of] and [align_of] of the [repr(C)] layout: a [u32], four bytes of
    padding, four [u64]. *)
Definition size_of_MemoryDescriptor : Z := 40.
Definition align_of_MemoryDescriptor : Z := 8.

Definition field_at (bs : list Z) (off n : nat) : Z := le_val (take n (drop off bs)).

Definition decode_descriptor (bs : list Z) : MemoryDescriptor :=
  mkMemoryDescriptor (field_at bs 0 4) (field_at bs 8 8) (field_at bs 16 8)
    (field_at bs 24 8) (field_at bs 32 8).

Definition encode_descriptor (pad : list Z) (d : MemoryDescriptor) : list Z :=
  le_bytes 4 (ty d) ++ pad ++ le_bytes 8 (phys_start d) ++ le_bytes 8 (virt_start d)
  ++ le_bytes 8 (page_count d) ++ le_bytes 8 (att d).

(** ** Reading and swapping descriptors in a buffer *)

(** The reference [&*ptr.add(off).cast::<MemoryDescriptor>()]. *)
Definition read_descriptor (b : Buffer) (off : Z) : outcome MemoryDescriptor :=
  if negb ((addr b + off) mod align_of_MemoryDescriptor =? 0) then Undefined
  else
    let! bs := read_raw (bytes b) off size_of_MemoryDescriptor in
    Ret (decode_descriptor bs).

(** [ptr::swap_nonoverlapping] on [n] bytes at two offsets. *)
Definition swap_nonoverlapping (m : list Z) (o1 o2 n : Z) : outcome (list Z) :=
  if (o1 + n <=? o2) || (o2 + n <=? o1) then
    let! a := read_raw m o1 n in
    let! b := read_raw m o2 n in
    let! m := write_raw m o1 b in
    write_raw m o2 a
  else Undefined.

(** ** Metadata: [memory_map/mod.rs] *)

Record MemoryMapMeta : Set := mkMemoryMapMeta {
  map_size : Z;
  desc_size : Z;
  map_key : Z;
  desc_version : Z;
}.

Definition entry_count (self : MemoryMapMeta) : outcome Z :=
  let! r := usize_rem (map_size self) (desc_size self) in
  let! _ := assert_ (r =? 0) in
  usize_div (map_size self) (desc_size self).

Definition ONE_GB : Z := 1024 * 1024 * 1024.

Definition assert_sanity_checks (self : MemoryMapMeta) : outcome unit :=
  let! _ := assert_ (0 <? desc_size self) in
  let! _ := assert_ (size_of_MemoryDescriptor <=? desc_size self) in
  let! _ := assert_ (0 <? map_size self) in
  assert_ (map_size self <=? ONE_GB).

Inductive MemoryMapError : Set := Misaligned | InvalidSize.

(** ** The trait [MemoryMap]: [memory_map/api.rs], [iter.rs] *)

Class MemoryMap (T : Type) := {
  meta : T -> MemoryMapMeta;
  key : T -> Z;
  len : T -> Z;
  buffer : T -> Buffer;
}.

Section trait.
Context `{Profile} {T : Type} `{!MemoryMap T}.

Definition is_empty (self : T) : bool := len self =? 0.

Definition get (self : T) (index : Z) : outcome (option MemoryDescriptor) :=
  if len self <=? index then Ret None
  else
    let! offset := usize_mul index (desc_size (meta self)) in
    let! d := read_descriptor (buffer self) offset in
    Ret (Some d).

(** [impl Index<usize>]: [self.get(index).unwrap()]. *)
Definition index_desc (self : T) (index : Z) : outcome MemoryDescriptor :=
  let! o := get self index in unwrap o.

Record MemoryMapIter : Type := mkIter { memory_map : T; iter_index : Z }.

Definition entries (self : T) : MemoryMapIter := mkIter self 0.

Definition iter_next (it : MemoryMapIter)
  : outcome (option MemoryDescriptor * MemoryMapIter) :=
  let! o := get (memory_map it) (iter_index it) in
  match o with
  | None => Ret (None, it)
  | Some desc =>
      let! i := usize_add (iter_index it) 1 in
      Ret (Some desc, mkIter (memory_map it) i)
  end.

Definition iter_size_hint (it : MemoryMapIter) : outcome (Z * option Z) :=
  let! sz := usize_sub (len (memory_map it)) (iter_index it) in
  Ret (sz, Some sz).

(** [ExactSizeIterator::len]. *)
Definition iter_len (it : MemoryMapIter) : Z := len (memory_map it).

Fixpoint iter_collect (fuel : nat) (it : MemoryMapIter)
  : outcome (list MemoryDescriptor) :=
  match fuel with
  | O => NoFuel
  | S fuel' =>
      let! (o, it') := iter_next it in
      match o with
      | None => Ret []
      | Some d => let! ds := iter_collect fuel' it' in Ret (d :: ds)
      end
  end.

(** The [for] loop of [is_sorted] over [iter.zip(iter.skip(1))]. *)
Fixpoint is_sorted_loop (fuel : nat) (it1 it2 : MemoryMapIter) : outcome bool :=
  match fuel with
  | O => NoFuel
  | S fuel' =>
      let! (o1, it1') := iter_next it1 in
      match o1 with
      | None => Ret true
      | Some curr =>
          let! (o2, it2') := iter_next it2 in
          match o2 with
          | None => Ret true
          | Some next =>
              if phys_start next <? phys_start curr then Ret false
              else is_sorted_loop fuel' it1' it2'
          end
      end
  end.

(** [skip(1)] drops the entry at index 0, if there is one, before the first
    [next] of the second iterator, which only runs when the first iterator has
    found that entry. *)
Definition is_sorted (self : T) : outcome bool :=
  is_sorted_loop (S (Z.to_nat (len self))) (entries self) (mkIter self 1).

End trait.
Arguments MemoryMapIter T : clear implicits.
Arguments mkIter {T} memory_map iter_index.
Arguments memory_map {T} _.
Arguments iter_index {T} _.

(** ** The implementations: [memory_map/impl_.rs] *)

Module MemoryMapRef.
Record t : Set := mk { buf : Buffer; meta_ : MemoryMapMeta; len_ : Z }.

Definition new (buf : Buffer) (m : MemoryMapMeta) : outcome (result t MemoryMapError) :=
  if negb (is_aligned 8 buf) then Ret (Err Misaligned)
  else if zlen (bytes buf) <? map_size m then Ret (Err InvalidSize)
  else let! n := entry_count m in Ret (Ok (mk buf m n)).

#[global] Instance inst : MemoryMap t := {
  meta := meta_; key self := map_key (meta_ self); len := len_; buffer := buf }.
End MemoryMapRef.

Module MemoryMapRefMut.
Record t : Set := mk { buf : Buffer; meta_ : MemoryMapMeta; len_ : Z }.

Definition new (buf : Buffer) (m : MemoryMapMeta) : outcome (result t MemoryMapError) :=
  if negb (is_aligned 8 buf) then Ret (Err Misaligned)
  else if zlen (bytes buf) <? map_size m then Ret (Err InvalidSize)
  else let! n := entry_count m in Ret (Ok (mk buf m n)).

#[global] Instance inst : MemoryMap t := {
  meta := meta_; key self := map_key (meta_ self); len := len_; buffer := buf }.

(** [buffer_mut] used to store new contents. *)
Definition set_bytes (self : t) (bs : list Z) : t :=
  mk (mkBuffer (addr (buf self)) bs) (meta_ self) (len_ self).

Section sorting.
Context `{Profile}.

Definition get_element_phys_addr (self : t) (index : Z) : outcome Z :=
  let! _ := assert_ (index <? len_ self) in
  let! offset := unwrap (checked_mul index (desc_size (meta_ self))) in
  let! elem := read_descriptor (buf self) offset in
  Ret (phys_start elem).

Definition swap (self : t) (index1 index2 : Z) : outcome t :=
  let! _ := assert_ (index1 <? len_ self) in
  let! _ := assert_ (index2 <? len_ self) in
  if index1 =? index2 then Ret self
  else
    let! offset1 := usize_mul index1 (desc_size (meta_ self)) in
    let! offset2 := usize_mul index2 (desc_size (meta_ self)) in
    let! bs := swap_nonoverlapping (bytes (buf self)) offset1 offset2
                 (desc_size (meta_ self)) in
    Ret (set_bytes self bs).

(** [while { left_index = left_index.wrapping_add(1); key < pivot } {}] *)
Fixpoint scan_left (fuel : nat) (self : t) (pivot left_index : Z) : outcome Z :=
  match fuel with
  | O => NoFuel
  | S fuel' =>
      let left_index := wrapping_add left_index 1 in
      let! k := get_element_phys_addr self left_index in
      if k <? pivot then scan_left fuel' self pivot left_index else Ret left_index
  end.

(** [while { right_index = right_index.wrapping_sub(1); key > pivot } {}] *)
Fixpoint scan_right (fuel : nat) (self : t) (pivot right_index : Z) : outcome Z :=
  match fuel with
  | O => NoFuel
  | S fuel' =>
      let right_index := wrapping_sub right_index 1 in
      let! k := get_element_phys_addr self right_index in
      if pivot <? k then scan_right fuel' self pivot right_index else Ret right_index
  end.

Fixpoint partition_loop (fuel : nat) (self : t) (pivot left_index right_index : Z)
  : outcome (t * Z) :=
  match fuel with
  | O => NoFuel
  | S fuel' =>
      let! left_index := scan_left (S fuel) self pivot left_index in
      let! right_index := scan_right (S fuel) self pivot right_index in
      if right_index <=? left_index then Ret (self, right_index)
      else
        let! self := swap self left_index right_index in
        partition_loop fuel' self pivot left_index right_index
  end.

Definition partition (fuel : nat) (self : t) (low high : Z) : outcome (t * Z) :=
  let! d := usize_sub high low in
  let! mid := usize_add low (d / 2) in
  let! pivot := get_element_phys_addr self mid in
  let left_index := wrapping_sub low 1 in
  let right_index := wrapping_add high 1 in
  partition_loop fuel self pivot left_index right_index.

(** The recursion depth is bounded by the number of elements in the range, and
    so are the iterations of [partition] and of its scans. *)
Fixpoint qsort (fuel : nat) (self : t) (low high : Z) : outcome t :=
  match fuel with
  | O => NoFuel
  | S fuel' =>
      if high <=? low then Ret self
      else
        let! (self, p) := partition (S (S fuel)) self low high in
        let! self := qsort fuel' self low p in
        let! p1 := usize_add p 1 in
        qsort fuel' self p1 high
  end.

Definition sort (self : t) : outcome t :=
  let! high := usize_sub (len_ self) 1 in
  qsort (S (Z.to_nat (len_ self))) self 0 high.

End sorting.
End MemoryMapRefMut.

Module MemoryMapOwned.
(** The backing memory is the buffer allocated on the UEFI heap. *)
Record t : Set := mk { buf : Buffer; meta_ : MemoryMapMeta; len_ : Z }.

Definition from_initialized_mem (buf : Buffer) (m : MemoryMapMeta) : outcome t :=
  let! _ := assert_ (size_of_MemoryDescriptor <=? desc_size m) in
  let! n := entry_count m in
  Ret (mk buf m n).

#[global] Instance inst : MemoryMap t := {
  meta := meta_; key self := map_key (meta_ self); len := len_; buffer := buf }.

(** Sorts through a temporary [MemoryMapRefMut] over the same memory. *)
Definition sort `{Profile} (self : t) : outcome t :=
  let reference := MemoryMapRefMut.mk (buf self) (meta_ self) (len_ self) in
  let! reference := MemoryMapRefMut.sort reference in
  Ret (mk (MemoryMapRefMut.buf reference) (meta_ self) (len_ self)).
End MemoryMapOwned.

(** [MemoryMapMut::get_mut] followed by a store of [d] through the reference;
    the four padding bytes keep their contents. *)
Definition set_desc `{Profile} (self : MemoryMapRefMut.t) (index : Z)
  (d : MemoryDescriptor) : outcome (option MemoryMapRefMut.t) :=
  if len self <=? index then Ret None
  else
    let! offset := usize_mul index (desc_size (meta self)) in
    let! _ := read_descriptor (buffer self) offset in
    let! pad := read_raw (bytes (buffer self)) (offset + 4) 4 in
    let! bs := write_raw (bytes (buffer self)) offset (encode_descriptor pad d) in
    Ret (Some (MemoryMapRefMut.set_bytes self bs)).

(** ** The backing memory *)

Module MemoryMapBackingMemory.
Definition EXTRA_ENTRIES : Z := 8.

Definition safe_allocation_size_hint `{Profile} (mmm : MemoryMapMeta) : outcome Z :=
  let! extra_size := usize_mul (desc_size mmm) EXTRA_ENTRIES in
  usize_add (map_size mmm) extra_size.

(** [from_raw]: a null pointer is address 0. *)
Definition from_raw (ptr : Z) (contents : list Z) : outcome Buffer :=
  let! _ := assert_ (ptr mod align_of_MemoryDescriptor =? 0) in
  let! _ := unwrap (if ptr =? 0 then None else Some tt) in
  Ret (mkBuffer ptr contents).
End MemoryMapBackingMemory.

(** ** Behaviour at the edges *)

(** Sorting an empty map, which [new] accepts, panics in both build profiles. *)
Theorem sort_empty_panics (P : Profile) (b : Buffer) (mt : MemoryMapMeta) :
  MemoryMapRefMut.sort (MemoryMapRefMut.mk b mt 0) = Panic (if overflow_checks then Overflow else AssertFailed).
Proof.
  unfold MemoryMapRefMut.sort, usize_sub. simpl. destruct overflow_checks; simpl; [done|].
  reflexivity.
Qed.

(** The descriptor size itself is not checked: the safe constructor accepts a
    map whose first [get] reads past the end of the buffer. *)
Theorem new_accepts_small_descriptors (P : Profile) :
  exists (b : Buffer) (mt : MemoryMapMeta) (m : MemoryMapRef.t),
    MemoryMapRef.new b mt = Ret (Ok m) /\ len m = 1 /\ get m 0 = Undefined.
Proof.
  exists (mkBuffer 0 (replicate 8 0)), (mkMemoryMapMeta 8 8 0 1).
  eexists. split; [reflexivity|]. split; reflexivity.
Qed.
