(* ===== verification/MemoryMapSort.v ===== *)
(** * Sorting the memory map

    The in-place quicksort of [MemoryMapRefMut] (Hoare partition with a middle
    pivot, on the raw bytes of the buffer, with wrapping index arithmetic)
    terminates on every well-formed non-empty map, never leaves the buffer and
    returns a permutation of the entries sorted by physical address.  The
    buffer is viewed as a list of [desc_size]-byte entries; each byte operation
    is shown to be the corresponding operation on that list. *)
From S2P Require Import Prelude MemoryMap.
#[local] Open Scope Z_scope.

Import MemoryMapRefMut.

(** ** Entries of equal size in a flat buffer *)

Section chunks.
Context (n : nat) (rest : list Z).
Implicit Types cs : list (list Z).

Abbreviation sized cs := (Forall (fun c => length c = n) cs).

Lemma length_concat_sized cs : sized cs -> length (concat cs) = (length cs * n)%nat.
Proof.
  induction 1 as [|c cs Hc _ IH]; simpl; [done|]. rewrite length_app, IH, Hc. lia.
Qed.

Lemma drop_chunks cs i :
  sized cs -> (i <= length cs)%nat ->
  drop (i * n) (concat cs ++ rest) = concat (drop i cs) ++ rest.
Proof.
  intros Hs. revert i. induction Hs as [|c cs Hc _ IH]; intros [|i] Hi; simpl in *; [done|lia|done|].
  rewrite <- app_assoc, <- Hc, drop_app_add, Hc. apply IH. lia.
Qed.

Lemma take_chunks cs i :
  sized cs -> (i <= length cs)%nat ->
  take (i * n) (concat cs ++ rest) = concat (take i cs).
Proof.
  intros Hs. revert i. induction Hs as [|c cs Hc _ IH]; intros [|i] Hi; simpl in *; [done|lia|done|].
  rewrite <- app_assoc, <- Hc, take_app_add, Hc. f_equal. apply IH. lia.
Qed.

Lemma read_chunk cs i c k :
  sized cs -> cs !! i = Some c -> (k <= n)%nat ->
  take k (drop (i * n) (concat cs ++ rest)) = take k c.
Proof.
  intros Hs Hi Hk. pose proof (lookup_lt_Some _ _ _ Hi).
  rewrite drop_chunks by (done || lia). rewrite (drop_S _ _ _ Hi). simpl.
  rewrite <- app_assoc. apply take_app_le.
  rewrite Forall_forall in Hs. rewrite (Hs c); [done|]. by eapply list_elem_of_lookup_2.
Qed.

Lemma write_chunk cs i d :
  sized cs -> (i < length cs)%nat -> length d = n ->
  take (i * n) (concat cs ++ rest) ++ d ++ drop (i * n + length d) (concat cs ++ rest) =
  concat (<[i := d]> cs) ++ rest.
Proof.
  intros Hs Hi Hd. rewrite Hd.
  replace (i * n + n)%nat with (S i * n)%nat by lia.
  rewrite take_chunks, drop_chunks by (done || lia).
  rewrite insert_take_drop by done. rewrite concat_app. simpl. by rewrite <- !app_assoc.
Qed.

End chunks.

(** ** Index-based view of the entries *)

Definition at_ (cs : list (list Z)) (i : Z) : list Z := cs !!! Z.to_nat i.

Definition swap_at (i j : Z) (cs : list (list Z)) : list (list Z) :=
  <[Z.to_nat j := at_ cs i]> (<[Z.to_nat i := at_ cs j]> cs).

(** The sort key: the physical address of the descriptor in an entry. *)
Definition entry_key (c : list Z) : Z := phys_start (decode_descriptor (take 40 c)).

Definition key_at (cs : list (list Z)) (i : Z) : Z := entry_key (at_ cs i).

Lemma at_lookup cs i : 0 <= i < zlen cs -> cs !! Z.to_nat i = Some (at_ cs i).
Proof. intros Hi. apply list_lookup_lookup_total_lt. unfold zlen in Hi. lia. Qed.

Lemma zlen_swap_at i j cs : zlen (swap_at i j cs) = zlen cs.
Proof. unfold zlen, swap_at. by rewrite !length_insert. Qed.

Lemma at_swap i j k cs :
  0 <= i < zlen cs -> 0 <= j < zlen cs -> 0 <= k < zlen cs ->
  at_ (swap_at i j cs) k =
  if decide (k = j) then at_ cs i else if decide (k = i) then at_ cs j else at_ cs k.
Proof.
  unfold zlen. intros Hi Hj Hk. unfold swap_at. unfold at_ at 1.
  destruct (decide (k = j)) as [->|].
  { apply list_lookup_total_insert_eq. rewrite length_insert. lia. }
  rewrite list_lookup_total_insert_ne by lia.
  destruct (decide (k = i)) as [->|].
  { apply list_lookup_total_insert_eq. lia. }
  by rewrite list_lookup_total_insert_ne by lia.
Qed.

Lemma swap_at_perm i j cs :
  0 <= i < zlen cs -> 0 <= j < zlen cs -> swap_at i j cs ≡ₚ cs.
Proof.
  intros Hi Hj. unfold swap_at. apply Permutation_insert_swap; by apply at_lookup.
Qed.

Lemma swap_at_sized m i j cs :
  0 <= i < zlen cs -> 0 <= j < zlen cs ->
  Forall (fun c => length c = m) cs -> Forall (fun c => length c = m) (swap_at i j cs).
Proof. intros Hi Hj Hs. by rewrite swap_at_perm. Qed.

(** ** Rearrangements: sequences of swaps inside an index range *)

Inductive rearranged (lo hi : Z) : list (list Z) -> list (list Z) -> Prop :=
| rearranged_refl cs : rearranged lo hi cs cs
| rearranged_swap i j cs cs' :
    lo <= i <= hi -> lo <= j <= hi ->
    rearranged lo hi (swap_at i j cs) cs' -> rearranged lo hi cs cs'.

Lemma rearranged_trans lo hi cs1 cs2 cs3 :
  rearranged lo hi cs1 cs2 -> rearranged lo hi cs2 cs3 -> rearranged lo hi cs1 cs3.
Proof.
  induction 1 as [|i j cs cs' Hi Hj _ IH]; [done|]. intros H3.
  apply (rearranged_swap _ _ i j); auto.
Qed.

Lemma rearranged_widen lo hi lo' hi' cs cs' :
  lo' <= lo -> hi <= hi' -> rearranged lo hi cs cs' -> rearranged lo' hi' cs cs'.
Proof.
  intros Hl Hh. induction 1 as [|i j cs cs' Hi Hj _ IH]; [constructor|].
  apply (rearranged_swap _ _ i j); [lia|lia|done].
Qed.

Section rearranged.
Context (lo hi : Z) (Hlo : 0 <= lo).

Lemma rearranged_zlen cs cs' : rearranged lo hi cs cs' -> zlen cs' = zlen cs.
Proof. induction 1 as [|???? _ _ _ IH]; [done|]. by rewrite IH, zlen_swap_at. Qed.

Lemma rearranged_perm cs cs' : hi < zlen cs -> rearranged lo hi cs cs' -> cs' ≡ₚ cs.
Proof.
  intros Hhi Hr. induction Hr as [|i j cs cs' Hi Hj Hr IH]; [done|].
  rewrite IH by by rewrite zlen_swap_at. apply swap_at_perm; lia.
Qed.

(** Entries outside the range stay where they are. *)
Lemma rearranged_outside cs cs' k :
  hi < zlen cs -> rearranged lo hi cs cs' -> 0 <= k < zlen cs -> k < lo \/ hi < k ->
  at_ cs' k = at_ cs k.
Proof.
  intros Hhi Hr. induction Hr as [|i j cs cs' Hi Hj Hr IH]; intros Hk Hout; [done|].
  rewrite IH by (rewrite ?zlen_swap_at; done).
  rewrite at_swap by lia. by rewrite !decide_False by lia.
Qed.

(** A property of all entries of the range is kept. *)
Lemma rearranged_inside (P : list Z -> Prop) cs cs' :
  hi < zlen cs -> rearranged lo hi cs cs' ->
  (forall k, lo <= k <= hi -> P (at_ cs k)) -> forall k, lo <= k <= hi -> P (at_ cs' k).
Proof.
  intros Hhi Hr. induction Hr as [|i j cs cs' Hi Hj Hr IH]; intros HP; [done|].
  apply IH; [by rewrite zlen_swap_at|]. intros k Hk. rewrite at_swap by lia.
  repeat case_decide; auto.
Qed.

Lemma rearranged_sized m cs cs' :
  hi < zlen cs -> rearranged lo hi cs cs' ->
  Forall (fun c => length c = m) cs -> Forall (fun c => length c = m) cs'.
Proof. intros Hhi Hr Hs. by rewrite (rearranged_perm cs cs'). Qed.

End rearranged.

(** ** The byte operations, on entries *)

Section map_ops.
Context `{Profile} (a : Z) (mt : MemoryMapMeta) (rest : list Z).
Context (Ha : a mod 8 = 0) (Hd8 : desc_size mt mod 8 = 0) (Hd : 40 <= desc_size mt).

Let ds : nat := Z.to_nat (desc_size mt).

(** The map whose entries are [cs], followed by the unused bytes [rest]. *)
Definition map_of (cs : list (list Z)) : t :=
  mk (mkBuffer a (concat cs ++ rest)) mt (zlen cs).

(** The entries have the reported size and the map fits the address space. *)
Definition fits (cs : list (list Z)) : Prop :=
  Forall (fun c => length c = Z.to_nat (desc_size mt)) cs /\
  zlen cs * desc_size mt < 2 ^ 64.

Lemma fits_zlen_bound cs : fits cs -> zlen cs < 2 ^ 64 - 1.
Proof. intros [_ Hb]. pose proof (zlen_nonneg cs). nia. Qed.

Lemma fits_swap i j cs :
  0 <= i < zlen cs -> 0 <= j < zlen cs -> fits cs -> fits (swap_at i j cs).
Proof.
  intros Hi Hj [Hs Hb]. split; [by apply swap_at_sized|]. by rewrite zlen_swap_at.
Qed.

Lemma fits_rearranged lo hi cs cs' :
  0 <= lo -> hi < zlen cs -> rearranged lo hi cs cs' -> fits cs -> fits cs'.
Proof.
  intros Hlo Hhi Hr [Hs Hb]. split.
  - by eapply rearranged_sized.
  - by rewrite (rearranged_zlen lo hi cs cs').
Qed.

Lemma zlen_map_bytes cs :
  fits cs -> zlen (concat cs ++ rest) = zlen cs * desc_size mt + zlen rest.
Proof.
  intros [Hs _]. rewrite zlen_app. unfold zlen at 1.
  rewrite (length_concat_sized ds) by done. unfold zlen, ds. lia.
Qed.

Lemma offset_nat i : 0 <= i -> Z.to_nat (i * desc_size mt) = (Z.to_nat i * ds)%nat.
Proof. intros. unfold ds. by rewrite Z2Nat.inj_mul by lia. Qed.

Lemma offset_bound cs i :
  fits cs -> 0 <= i < zlen cs ->
  0 <= i * desc_size mt /\
  i * desc_size mt + desc_size mt <= zlen cs * desc_size mt.
Proof. intros _ Hi. nia. Qed.

Lemma read_entry cs i n :
  fits cs -> 0 <= i < zlen cs -> 0 <= n <= desc_size mt ->
  read_raw (concat cs ++ rest) (i * desc_size mt) n = Ret (take (Z.to_nat n) (at_ cs i)).
Proof.
  intros Hf Hi Hn. pose proof (offset_bound cs i Hf Hi). pose proof (zlen_nonneg rest).
  rewrite read_raw_ok by (rewrite ?zlen_map_bytes by done; lia).
  rewrite offset_nat by lia. f_equal. destruct Hf as [Hs _].
  apply read_chunk; [done|by apply at_lookup|unfold ds; lia].
Qed.

Lemma aligned_offset i : (a + i * desc_size mt) mod 8 = 0.
Proof.
  apply Z.mod_divide; [lia|]. apply Z.mod_divide in Ha, Hd8; [|lia..].
  apply Z.divide_add_r; [done|]. by apply Z.divide_mul_r.
Qed.

Lemma read_descriptor_entry cs i :
  fits cs -> 0 <= i < zlen cs ->
  read_descriptor (mkBuffer a (concat cs ++ rest)) (i * desc_size mt) =
  Ret (decode_descriptor (take 40 (at_ cs i))).
Proof.
  intros Hf Hi. unfold read_descriptor, align_of_MemoryDescriptor. simpl.
  rewrite aligned_offset. simpl. unfold size_of_MemoryDescriptor.
  by rewrite read_entry by (done || lia).
Qed.

Lemma get_key cs i :
  fits cs -> 0 <= i < zlen cs -> get_element_phys_addr (map_of cs) i = Ret (key_at cs i).
Proof.
  intros Hf Hi. unfold get_element_phys_addr. simpl.
  rewrite (proj2 (Z.ltb_lt _ _)) by lia. simpl.
  pose proof (offset_bound cs i Hf Hi). destruct Hf as [Hs Hb] eqn:E.
  unfold checked_mul. rewrite bool_decide_true by (unfold in_width; lia). simpl.
  by rewrite read_descriptor_entry.
Qed.

Lemma write_entry cs i d :
  fits cs -> 0 <= i < zlen cs -> length d = ds ->
  write_raw (concat cs ++ rest) (i * desc_size mt) d =
  Ret (concat (<[Z.to_nat i := d]> cs) ++ rest).
Proof.
  intros Hf Hi Hl. pose proof (offset_bound cs i Hf Hi). pose proof (zlen_nonneg rest).
  unfold write_raw. rewrite zlen_map_bytes by done.
  assert (zlen d = desc_size mt) as Hz by (unfold zlen; rewrite Hl; unfold ds; lia).
  rewrite Hz, !(proj2 (Z.leb_le _ _)) by lia. simpl.
  rewrite offset_nat by lia. f_equal. destruct Hf as [Hs _].
  apply write_chunk; [done|unfold zlen in Hi; lia|done].
Qed.

Lemma length_at cs i : fits cs -> 0 <= i < zlen cs -> length (at_ cs i) = ds.
Proof.
  intros [Hs _] Hi. rewrite Forall_forall in Hs. apply Hs.
  eapply list_elem_of_lookup_2. by apply at_lookup.
Qed.

Lemma swap_nonoverlapping_entries cs i j :
  fits cs -> 0 <= i < zlen cs -> 0 <= j < zlen cs -> i <> j ->
  swap_nonoverlapping (concat cs ++ rest) (i * desc_size mt) (j * desc_size mt) (desc_size mt) =
  Ret (concat (swap_at i j cs) ++ rest).
Proof.
  intros Hf Hi Hj Hij. unfold swap_nonoverlapping.
  replace (_ || _) with true.
  2: { symmetry. apply orb_true_iff. rewrite !Z.leb_le.
       assert (i < j \/ j < i) as [?|?] by lia; [left|right]; nia. }
  rewrite !read_entry by (done || lia). simpl.
  rewrite !take_ge by (rewrite length_at; done).
  rewrite write_entry by (done || by apply length_at). simpl.
  rewrite write_entry.
  - done.
  - destruct Hf as [Hs Hb]. split; [|unfold zlen in *; by rewrite length_insert].
    apply Forall_insert; [done|]. by apply length_at.
  - unfold zlen in *. by rewrite length_insert.
  - by apply length_at.
Qed.

Lemma swap_entries cs i j :
  fits cs -> 0 <= i < zlen cs -> 0 <= j < zlen cs -> i <> j ->
  swap (map_of cs) i j = Ret (map_of (swap_at i j cs)).
Proof.
  intros Hf Hi Hj Hij. unfold swap. simpl.
  rewrite !(proj2 (Z.ltb_lt _ _)) by lia. simpl.
  rewrite (proj2 (Z.eqb_neq i j)) by done.
  pose proof (offset_bound cs i Hf Hi). pose proof (offset_bound cs j Hf Hj).
  pose proof (proj2 Hf) as Hb.
  rewrite !usize_mul_ok by lia. simpl.
  rewrite swap_nonoverlapping_entries by done. simpl.
  unfold map_of, set_bytes. simpl. by rewrite zlen_swap_at.
Qed.

(** ** The scans and the partition *)

Lemma wrap_index l : 0 <= l + 1 < 2 ^ 64 -> wrapping_add (wrap 64 l) 1 = l + 1.
Proof.
  intros Hl. unfold wrapping_add, wrap. rewrite Z.add_mod_idemp_l by lia.
  by apply Z.mod_small.
Qed.

(** From [l] (possibly -1, wrapped) the left scan stops at the first index
    whose key is not below the pivot, if there is one at [s]. *)
Lemma scan_left_spec fuel cs pivot l s :
  fits cs -> -1 <= l < s -> s < zlen cs -> pivot <= key_at cs s ->
  s - l <= Z.of_nat fuel ->
  exists l', scan_left fuel (map_of cs) pivot (wrap 64 l) = Ret l' /\
    l < l' <= s /\ pivot <= key_at cs l' /\
    (forall k, l < k < l' -> key_at cs k < pivot).
Proof.
  intros Hf. revert l. induction fuel as [|fuel IH]; intros l Hl Hs Hk Hfu; [lia|].
  cbn [scan_left]. pose proof (fits_zlen_bound cs Hf).
  rewrite wrap_index by lia. rewrite get_key by (done || lia). simpl.
  destruct (key_at cs (l + 1) <? pivot) eqn:E; z_bools.
  - destruct (decide (l + 1 = s)) as [<-|]; [lia|].
    destruct (IH (l + 1)) as (l' & Hr & Hl' & Hp & Hall); [lia..|].
    rewrite wrap_small in Hr by (unfold in_width; lia). rewrite Hr.
    exists l'. split; [done|]. split; [lia|]. split; [done|].
    intros k Hkr. destruct (decide (k = l + 1)) as [->|]; [done|]. apply Hall. lia.
  - exists (l + 1). split; [done|]. split; [lia|]. split; [done|]. intros. lia.
Qed.

Lemma scan_right_spec fuel cs pivot r s :
  fits cs -> 0 <= s < r -> r <= zlen cs -> key_at cs s <= pivot ->
  r - s <= Z.of_nat fuel ->
  exists r', scan_right fuel (map_of cs) pivot r = Ret r' /\
    s <= r' < r /\ key_at cs r' <= pivot /\
    (forall k, r' < k < r -> pivot < key_at cs k).
Proof.
  intros Hf. revert r. induction fuel as [|fuel IH]; intros r Hr Hs Hk Hfu; [lia|].
  cbn [scan_right]. pose proof (fits_zlen_bound cs Hf).
  replace (wrapping_sub r 1) with (r - 1)
    by (symmetry; apply wrap_small; unfold in_width; lia).
  rewrite get_key by (done || lia). simpl.
  destruct (pivot <? key_at cs (r - 1)) eqn:E; z_bools.
  - destruct (decide (r - 1 = s)) as [<-|]; [lia|].
    destruct (IH (r - 1)) as (r' & Hres & Hr' & Hp & Hall); [lia..|].
    exists r'. split; [done|]. split; [lia|]. split; [done|].
    intros k Hkr. destruct (decide (k = r - 1)) as [->|]; [done|]. apply Hall. lia.
  - exists (r - 1). split; [done|]. split; [lia|]. split; [done|]. intros. lia.
Qed.

(** The loop invariant of the partition of [low..high] around [pivot], between
    the indices [l] and [r]. *)
Record partition_inv (low high pivot : Z) (cs : list (list Z)) (l r : Z) : Prop := {
  inv_range : low - 1 <= l < r /\ r <= high + 1;
  inv_left : forall k, low <= k <= l -> key_at cs k <= pivot;
  inv_right : forall k, r <= k <= high -> pivot <= key_at cs k;
  inv_stop_left : exists s, l < s <= r /\ s <= high /\ pivot <= key_at cs s /\
                    (high < r -> s < high);
  inv_stop_right : exists s, l <= s < r /\ low <= s /\ key_at cs s <= pivot;
}.

(** What a partition of [low..high] delivers at the split point [p]. *)
Record partitioned (low high pivot : Z) (cs : list (list Z)) (p : Z) : Prop := {
  part_range : low <= p < high;
  part_left : forall k, low <= k <= p -> key_at cs k <= pivot;
  part_right : forall k, p < k <= high -> pivot <= key_at cs k;
}.

Lemma partition_step_inv low high pivot cs l r l' r' :
  0 <= low -> high < zlen cs -> partition_inv low high pivot cs l r ->
  l < l' -> r' < r -> l' < r' ->
  pivot <= key_at cs l' -> (forall k, l < k < l' -> key_at cs k < pivot) ->
  key_at cs r' <= pivot -> (forall k, r' < k < r -> pivot < key_at cs k) ->
  partition_inv low high pivot (swap_at l' r' cs) l' r'.
Proof.
  intros Hlow Hhigh [[Hr1 Hr2] Hl Hr Hsl Hsr] Hl' Hr' Hlr Hkl Hscanl Hkr Hscanr.
  assert (Hat : forall k, 0 <= k < zlen cs -> key_at (swap_at l' r' cs) k =
    if decide (k = r') then key_at cs l' else if decide (k = l') then key_at cs r'
    else key_at cs k).
  { intros k Hk. unfold key_at. rewrite at_swap by lia. by repeat case_decide. }
  constructor.
  - lia.
  - intros k Hk. rewrite Hat by lia. repeat case_decide; [lia|lia|].
    destruct (decide (k <= l)); [apply Hl; lia|]. apply Z.lt_le_incl, Hscanl. lia.
  - intros k Hk. rewrite Hat by lia. repeat case_decide; [lia|lia|].
    destruct (decide (r <= k)); [apply Hr; lia|]. apply Z.lt_le_incl, Hscanr. lia.
  - exists r'. rewrite Hat by lia. rewrite decide_True by done. lia.
  - exists l'. rewrite Hat by lia. rewrite decide_False, decide_True by lia. lia.
Qed.

Lemma partition_loop_spec fuel low high pivot cs l r :
  fits cs -> 0 <= low -> high < zlen cs ->
  partition_inv low high pivot cs l r -> r - l <= Z.of_nat fuel ->
  exists cs' p, partition_loop fuel (map_of cs) pivot (wrap 64 l) r = Ret (map_of cs', p) /\
    rearranged low high cs cs' /\ partitioned low high pivot cs' p.
Proof.
  intros Hf Hlow. revert cs l r Hf.
  induction fuel as [|fuel IH]; intros cs l r Hf Hhigh Hinv Hfu.
  { destruct Hinv. lia. }
  pose proof Hinv as [[Hr1 Hr2] Hl Hr (s & Hs1 & Hs2 & Hs3 & Hs4) (t & Ht1 & Ht2 & Ht3)].
  pose proof (fits_zlen_bound cs Hf).
  cbn [partition_loop].
  destruct (scan_left_spec (S (S fuel)) cs pivot l s) as (l' & -> & Hl' & Hkl & Hscanl);
    [done|lia..|].
  destruct (scan_right_spec (S (S fuel)) cs pivot r t) as (r' & Er & Hr' & Hkr & Hscanr);
    [done|lia..|].
  cbn [obind]. rewrite Er. cbn [obind].
  destruct (r' <=? l') eqn:E; z_bools.
  - exists cs, r'. split; [done|]. split; [constructor|]. constructor.
    + split; [lia|]. destruct (decide (high < r)); lia.
    + intros k Hk. destruct (decide (k <= l)); [apply Hl; lia|].
      destruct (decide (k = r')) as [->|]; [done|]. apply Z.lt_le_incl, Hscanl. lia.
    + intros k Hk. destruct (decide (r <= k)); [apply Hr; lia|].
      apply Z.lt_le_incl, Hscanr. lia.
  - rewrite swap_entries by (done || lia). cbn [obind].
    destruct (IH (swap_at l' r' cs) l' r') as (cs' & p & Eq & Hre & Hpart).
    + apply fits_swap; [lia|lia|done].
    + by rewrite zlen_swap_at.
    + by apply (partition_step_inv low high pivot cs l r); try lia.
    + lia.
    + rewrite wrap_small in Eq by (unfold in_width; lia).
      exists cs', p. split; [done|]. split; [|done].
      apply (rearranged_swap _ _ l' r'); [lia|lia|done].
Qed.

Lemma partition_spec fuel low high cs :
  fits cs -> 0 <= low < high -> high < zlen cs -> high - low + 2 <= Z.of_nat fuel ->
  exists cs' p pivot, partition fuel (map_of cs) low high = Ret (map_of cs', p) /\
    rearranged low high cs cs' /\ partitioned low high pivot cs' p.
Proof.
  intros Hf Hlow Hhigh Hfu. unfold partition.
  pose proof (fits_zlen_bound cs Hf).
  rewrite usize_sub_ok by lia. cbn [obind].
  assert (0 <= (high - low) / 2 < high - low) as Hmid.
  { split; [apply Z.div_pos; lia|apply Z.div_lt; lia]. }
  rewrite usize_add_ok by lia. cbn [obind].
  rewrite get_key by (done || lia). cbn [obind].
  replace (wrapping_add high 1) with (high + 1)
    by (symmetry; apply wrap_small; unfold in_width; lia).
  destruct (partition_loop_spec fuel low high (key_at cs (low + (high - low) / 2))
              cs (low - 1) (high + 1)) as (cs' & p & Eq & Hre & Hpart); [done|lia|lia| |lia|].
  { constructor; [lia|intros; lia|intros; lia|..];
      exists (low + (high - low) / 2); lia. }
  exists cs', p, (key_at cs (low + (high - low) / 2)). done.
Qed.

(** ** Quicksort *)

Definition sorted_range (lo hi : Z) (cs : list (list Z)) : Prop :=
  forall i j, lo <= i <= j -> j <= hi -> key_at cs i <= key_at cs j.

Lemma sorted_glue low high p pivot cs :
  low <= p < high ->
  (forall k, low <= k <= p -> key_at cs k <= pivot) ->
  (forall k, p < k <= high -> pivot <= key_at cs k) ->
  sorted_range low p cs -> sorted_range (p + 1) high cs -> sorted_range low high cs.
Proof.
  intros Hp Hl Hr Hsl Hsr i j Hi Hj.
  destruct (decide (j <= p)); [apply Hsl; lia|].
  destruct (decide (p < i)); [apply Hsr; lia|].
  transitivity pivot; [apply Hl; lia|apply Hr; lia].
Qed.

Lemma qsort_spec fuel low high cs :
  fits cs -> 0 <= low -> high < zlen cs -> high - low < Z.of_nat fuel ->
  (0 < fuel)%nat ->
  exists cs', qsort fuel (map_of cs) low high = Ret (map_of cs') /\
    rearranged low high cs cs' /\ sorted_range low high cs'.
Proof.
  revert low high cs. induction fuel as [|fuel IH];
    intros low high cs Hf Hlow Hhigh Hfu Hpos; [lia|].
  cbn [qsort]. destruct (high <=? low) eqn:E; z_bools.
  { exists cs. split; [done|]. split; [constructor|].
    intros i j Hi Hj. replace j with i by lia. lia. }
  destruct (partition_spec (S (S (S fuel))) low high cs)
    as (cs1 & p & pivot & -> & Hre1 & [Hp Hpl Hpr]); [done|lia..|].
  cbn [obind]. pose proof (rearranged_zlen _ _ _ _ Hre1) as Hz1.
  pose proof (fits_rearranged low high cs cs1 Hlow ltac:(lia) Hre1 Hf) as Hf1.
  destruct (IH low p cs1) as (cs2 & -> & Hre2 & Hs2); [done|lia..|].
  cbn [obind]. pose proof (rearranged_zlen _ _ _ _ Hre2) as Hz2.
  pose proof (fits_rearranged low p cs1 cs2 Hlow ltac:(lia) Hre2 Hf1) as Hf2.
  pose proof (fits_zlen_bound cs2 Hf2).
  rewrite usize_add_ok by lia. cbn [obind].
  destruct (IH (p + 1) high cs2) as (cs3 & -> & Hre3 & Hs3); [done|lia..|].
  exists cs3. split; [done|]. split.
  { eapply rearranged_trans; [exact Hre1|]. eapply rearranged_trans.
    - eapply rearranged_widen; [| |exact Hre2]; lia.
    - eapply rearranged_widen; [| |exact Hre3]; lia. }
  assert (Hout3 : forall k, low <= k <= p -> at_ cs3 k = at_ cs2 k).
  { intros k Hk. apply (rearranged_outside (p + 1) high); [lia|lia|done|lia|lia]. }
  assert (Hout2 : forall k, p < k <= high -> at_ cs2 k = at_ cs1 k).
  { intros k Hk. apply (rearranged_outside low p); [lia|lia|done|lia|lia]. }
  apply (sorted_glue low high p pivot); [done|..|done].
  - intros k Hk. unfold key_at. rewrite Hout3 by done.
    apply (rearranged_inside low p Hlow (fun c => entry_key c <= pivot) cs1 cs2);
      [lia|done|done|done].
  - intros k0 Hk0.
    apply (rearranged_inside (p + 1) high ltac:(lia) (fun c => pivot <= entry_key c) cs2 cs3);
      [lia|done| |lia]. intros k Hk. rewrite Hout2 by lia. apply Hpr. lia.
  - intros i j Hi Hj. unfold key_at. rewrite !Hout3 by lia. by apply Hs2.
Qed.

Lemma sort_entries cs :
  fits cs -> cs <> [] ->
  exists cs', sort (map_of cs) = Ret (map_of cs') /\ cs' ≡ₚ cs /\
    sorted_range 0 (zlen cs' - 1) cs' /\ fits cs'.
Proof.
  intros Hf Hne. unfold sort. simpl.
  assert (1 <= zlen cs) by (destruct cs; [done|]; rewrite zlen_cons; pose proof (zlen_nonneg cs); lia).
  rewrite usize_sub_ok by lia. cbn [obind].
  destruct (qsort_spec (S (Z.to_nat (zlen cs))) 0 (zlen cs - 1) cs)
    as (cs' & Eq & Hre & Hs); [done|lia..|].
  exists cs'. split; [done|].
  split; [by apply (rearranged_perm 0 (zlen cs - 1) ltac:(lia)); [lia|]|].
  rewrite (rearranged_zlen _ _ _ _ Hre). split; [done|].
  eapply fits_rearranged; [| |exact Hre|done]; lia.
Qed.

End map_ops.

(** ** Well-formed maps *)

Section wf.
Context {T : Type} `{!MemoryMap T}.

(** What the firmware guarantees about a map and [new] partly checks: an
    8-byte aligned buffer that holds [len] whole descriptors of a size that is
    at least that of [MemoryDescriptor] and keeps every entry aligned. *)
Record wf_map (m : T) : Prop := {
  wf_addr : addr (buffer m) mod 8 = 0;
  wf_desc_align : desc_size (meta m) mod 8 = 0;
  wf_desc_size : 40 <= desc_size (meta m);
  wf_len : 0 <= len m;
  wf_size : len m * desc_size (meta m) = map_size (meta m);
  wf_fits : map_size (meta m) <= zlen (bytes (buffer m));
  wf_alloc : zlen (bytes (buffer m)) <= isize_MAX;
}.

(** The raw entries of a map, and the bytes after the last one. *)
Definition raw_entries (m : T) : list (list Z) :=
  map (fun i => take (Z.to_nat (desc_size (meta m)))
                  (drop (i * Z.to_nat (desc_size (meta m))) (bytes (buffer m))))
      (seq 0 (Z.to_nat (len m))).

Definition unused (m : T) : list Z :=
  drop (Z.to_nat (len m) * Z.to_nat (desc_size (meta m))) (bytes (buffer m)).

(** The descriptors of a map, in order. *)
Definition descriptors (m : T) : list MemoryDescriptor :=
  map (fun c => decode_descriptor (take 40 c)) (raw_entries m).

Definition sorted_by_phys_start (m : T) : Prop :=
  sorted_range 0 (len m - 1) (raw_entries m).

Lemma zlen_raw_entries m : 0 <= len m -> zlen (raw_entries m) = len m.
Proof. intros. unfold zlen, raw_entries. rewrite length_map, length_seq. lia. Qed.

Lemma chunks_concat (d : nat) (bs : list Z) k n :
  concat (map (fun i => take d (drop (i * d) bs)) (seq k n)) ++ drop ((k + n) * d) bs =
  drop (k * d) bs.
Proof.
  revert k. induction n as [|n IH]; intros k; simpl; [by rewrite Nat.add_0_r|].
  rewrite <- app_assoc. replace (k + S n)%nat with (S k + n)%nat by lia. rewrite IH.
  replace (S k * d)%nat with (k * d + d)%nat by lia.
  rewrite <- drop_drop. apply take_drop.
Qed.

Lemma bytes_entries m : bytes (buffer m) = concat (raw_entries m) ++ unused m.
Proof.
  pose proof (chunks_concat (Z.to_nat (desc_size (meta m))) (bytes (buffer m)) 0
                (Z.to_nat (len m))) as E.
  by rewrite drop_0 in E.
Qed.

Lemma wf_map_fits m : wf_map m -> fits (meta m) (raw_entries m).
Proof.
  intros [_ _ Hd Hl Hs Hf Hal]. split.
  - apply Forall_map, Forall_forall. intros i Hi%elem_of_seq.
    rewrite length_take, length_drop. unfold zlen in Hf.
    assert (Z.of_nat (i * Z.to_nat (desc_size (meta m))) + desc_size (meta m) <=
            map_size (meta m)); [|lia].
    rewrite Nat2Z.inj_mul, Z2Nat.id by lia. nia.
  - rewrite zlen_raw_entries by done. unfold isize_MAX in Hal. lia.
Qed.

Context `{Profile}.

Lemma get_in_range m i :
  wf_map m -> 0 <= i < len m ->
  get m i = Ret (Some (decode_descriptor (take 40 (at_ (raw_entries m) i)))).
Proof.
  intros Hw Hi. pose proof (wf_map_fits m Hw) as Hf. destruct Hw as [Ha Hd8 Hd Hl Hs Hft Hal].
  unfold get. rewrite (proj2 (Z.leb_gt _ _)) by lia.
  unfold isize_MAX in Hal. rewrite usize_mul_ok by nia. cbn [obind].
  destruct (buffer m) as [a bs] eqn:Eb. pose proof (bytes_entries m) as Ebs.
  rewrite Eb in Ebs. simpl in Ebs, Ha. rewrite Ebs.
  rewrite (read_descriptor_entry a (meta m) (unused m)); try done.
  by rewrite zlen_raw_entries.
Qed.

Lemma get_out_of_range m i : len m <= i -> get m i = Ret None.
Proof. intros. unfold get. by rewrite (proj2 (Z.leb_le _ _)). Qed.

Lemma iter_next_in_range m i :
  wf_map m -> 0 <= i < len m ->
  iter_next (mkIter m i) =
  Ret (Some (decode_descriptor (take 40 (at_ (raw_entries m) i))), mkIter m (i + 1)).
Proof.
  intros Hw Hi. unfold iter_next. simpl. rewrite get_in_range by done. cbn [obind].
  pose proof (fits_zlen_bound _ (wf_desc_size _ Hw) _ (wf_map_fits m Hw)) as Hb.
  rewrite zlen_raw_entries in Hb by apply Hw.
  by rewrite usize_add_ok by lia.
Qed.

Lemma iter_next_end m i : len m <= i -> iter_next (mkIter m i) = Ret (None, mkIter m i).
Proof. intros. unfold iter_next. simpl. by rewrite get_out_of_range. Qed.

Lemma iter_collect_spec m fuel i :
  wf_map m -> 0 <= i <= len m -> len m - i < Z.of_nat fuel ->
  iter_collect fuel (mkIter m i) = Ret (drop (Z.to_nat i) (descriptors m)).
Proof.
  intros Hw. revert i. induction fuel as [|fuel IH]; intros i Hi Hf; [lia|].
  cbn [iter_collect]. destruct (decide (i = len m)) as [->|].
  - rewrite iter_next_end by lia. cbn [obind]. rewrite drop_ge; [done|].
    unfold descriptors. rewrite length_map.
    pose proof (zlen_raw_entries m) as Hz. unfold zlen in Hz. lia.
  - rewrite iter_next_in_range by (done || lia). cbn [obind].
    rewrite IH by lia. cbn [obind]. f_equal.
    erewrite (drop_S (descriptors m) _ (Z.to_nat i)).
    + do 2 f_equal. lia.
    + unfold descriptors. rewrite list_lookup_fmap.
      rewrite at_lookup by (rewrite zlen_raw_entries; lia). done.
Qed.

Lemma is_sorted_loop_spec m fuel i :
  wf_map m -> 0 <= i < len m -> len m - i <= Z.of_nat fuel ->
  exists b, is_sorted_loop fuel (mkIter m i) (mkIter m (i + 1)) = Ret b /\
    (b = true <-> forall k, i <= k < len m - 1 ->
       key_at (raw_entries m) k <= key_at (raw_entries m) (k + 1)).
Proof.
  intros Hw. revert i. induction fuel as [|fuel IH]; intros i Hi Hf; [lia|].
  cbn [is_sorted_loop]. rewrite iter_next_in_range by (done || lia). cbn [obind].
  destruct (decide (i + 1 = len m)) as [E|E].
  - rewrite iter_next_end by lia. exists true. split; [done|]. split; [intros; lia|done].
  - rewrite iter_next_in_range by (done || lia). cbn [obind].
    fold (entry_key (at_ (raw_entries m) i)) (entry_key (at_ (raw_entries m) (i + 1))).
    fold (key_at (raw_entries m) i) (key_at (raw_entries m) (i + 1)).
    destruct (key_at (raw_entries m) (i + 1) <? key_at (raw_entries m) i) eqn:Ek; z_bools.
    + exists false. split; [done|]. split; [done|]. intros Hall.
      specialize (Hall i ltac:(lia)). lia.
    + destruct (IH (i + 1)) as (b & Eb & Hb); [lia..|]. exists b. split; [done|].
      rewrite Hb. split; intros Hall k Hk.
      * destruct (decide (k = i)) as [->|]; [done|]. apply Hall. lia.
      * apply Hall. lia.
Qed.

(** Adjacent order is order. *)
Lemma sorted_range_adjacent lo hi cs :
  (forall k, lo <= k < hi -> key_at cs k <= key_at cs (k + 1)) <-> sorted_range lo hi cs.
Proof.
  split.
  - intros Hadj i j Hi Hj.
    assert (forall n, i + Z.of_nat n <= hi -> key_at cs i <= key_at cs (i + Z.of_nat n)) as Hn.
    { induction n as [|n IH]; intros Hn; [by rewrite Z.add_0_r|].
      transitivity (key_at cs (i + Z.of_nat n)); [apply IH; lia|].
      replace (i + Z.of_nat (S n)) with (i + Z.of_nat n + 1) by lia. apply Hadj. lia. }
    replace j with (i + Z.of_nat (Z.to_nat (j - i))) by lia. apply Hn. lia.
  - intros Hs k Hk. apply Hs; lia.
Qed.

(** [is_sorted] always answers and decides order by physical address. *)
Lemma is_sorted_spec m :
  wf_map m -> exists b, is_sorted m = Ret b /\ (b = true <-> sorted_by_phys_start m).
Proof.
  intros Hw. unfold is_sorted, sorted_by_phys_start. pose proof (wf_len _ Hw).
  destruct (decide (len m = 0)) as [E|E].
  - rewrite E. simpl. unfold entries. rewrite iter_next_end by lia. exists true.
    split; [done|]. split; [|done]. intros _ i j Hi Hj. lia.
  - destruct (is_sorted_loop_spec m (S (Z.to_nat (len m))) 0) as (b & Eb & Hb);
      [done|lia..|].
    exists b. split; [done|]. rewrite Hb. apply sorted_range_adjacent.
Qed.

End wf.

(** ** The theorems *)

Lemma map_of_view (m : t) :
  wf_map m -> m = map_of (addr (buf m)) (meta_ m) (unused m) (raw_entries m).
Proof.
  intros Hw. unfold map_of. rewrite zlen_raw_entries by apply Hw.
  pose proof (bytes_entries m) as E. simpl in E. rewrite <- E. by destruct m as [[] ? ?].
Qed.

Lemma raw_entries_map_of a mt rest cs :
  0 <= desc_size mt -> fits mt cs ->
  raw_entries (map_of a mt rest cs) = cs /\ unused (map_of a mt rest cs) = rest.
Proof.
  intros Hd [Hs _]. unfold raw_entries, unused. simpl.
  replace (Z.to_nat (zlen cs)) with (length cs) by (unfold zlen; lia).
  rewrite (drop_chunks _ rest cs) by done. rewrite drop_all. split; [|done].
  apply list_eq. intros i. rewrite list_lookup_fmap.
  destruct (decide (i < length cs)%nat) as [Hi|Hi].
  - rewrite lookup_seq_lt by done. simpl.
    destruct (lookup_lt_is_Some_2 cs i Hi) as [c Hc]. rewrite Hc.
    rewrite (read_chunk _ rest cs i c) by done. f_equal. apply take_ge.
    rewrite Forall_forall in Hs. rewrite (Hs c); [done|]. by eapply list_elem_of_lookup_2.
  - rewrite lookup_seq_ge by lia. simpl. symmetry. apply lookup_ge_None_2. lia.
Qed.

Lemma wf_map_of a mt rest cs :
  a mod 8 = 0 -> desc_size mt mod 8 = 0 -> 40 <= desc_size mt -> fits mt cs ->
  zlen cs * desc_size mt = map_size mt ->
  zlen cs * desc_size mt + zlen rest <= isize_MAX ->
  wf_map (map_of a mt rest cs).
Proof.
  intros Ha Hd8 Hd Hf Hs Hal. constructor; simpl; try done.
  - apply zlen_nonneg.
  - rewrite (zlen_map_bytes mt rest Hd cs Hf). pose proof (zlen_nonneg rest). lia.
  - by rewrite (zlen_map_bytes mt rest Hd cs Hf).
Qed.

Lemma sort_view `{Profile} (m : t) :
  wf_map m -> 0 < len m ->
  exists cs', sort m = Ret (map_of (addr (buf m)) (meta_ m) (unused m) cs') /\
    cs' ≡ₚ raw_entries m /\ zlen cs' = len m /\ sorted_range 0 (len m - 1) cs' /\
    fits (meta_ m) cs' /\ wf_map (map_of (addr (buf m)) (meta_ m) (unused m) cs').
Proof.
  intros Hw Hl. pose proof (wf_map_fits m Hw) as Hf.
  pose proof (zlen_raw_entries m (wf_len _ Hw)) as Hz.
  pose proof Hw as [Ha Hd8 Hd _ Hs Hft Hal].
  destruct (sort_entries (addr (buf m)) (meta_ m) (unused m) Ha Hd8 Hd (raw_entries m))
    as (cs' & Eq & Hp & Hso & Hf'); [done| |].
  { intros E. rewrite E in Hz. unfold zlen in Hz. simpl in Hz. simpl in Hl. lia. }
  rewrite <- map_of_view in Eq by done.
  assert (zlen cs' = len m) as Hz' by (rewrite <- Hz; unfold zlen; by rewrite Hp).
  exists cs'. rewrite Hz' in Hso. do 5 (split; [done|]).
  apply wf_map_of; try done.
  - rewrite Hz'. exact Hs.
  - rewrite Hz', <- Hz, <- (zlen_map_bytes (meta_ m) (unused m) Hd _ Hf).
    pose proof (bytes_entries m) as E. by rewrite <- E.
Qed.

(** C1: Sorting a well-formed, non-empty map succeeds; the result has the same
    metadata, key and length, its entries are a permutation of the old ones
    (whole [desc_size]-byte entries, vendor extensions included) ordered by
    physical address, [is_sorted] reports so, and no other byte of the buffer
    changed. *)
Theorem sort_correct `{Profile} (m : t) :
  wf_map m -> 0 < len m ->
  exists m', sort m = Ret m' /\ wf_map m' /\
    raw_entries m' ≡ₚ raw_entries m /\ sorted_by_phys_start m' /\
    is_sorted m' = Ret true /\
    meta m' = meta m /\ len m' = len m /\ addr (buffer m') = addr (buffer m) /\
    unused m' = unused m.
Proof.
  intros Hw Hl. destruct (sort_view m Hw Hl) as (cs' & Eq & Hp & Hz & Hso & Hf & Hw').
  destruct (raw_entries_map_of (addr (buf m)) (meta_ m) (unused m) cs') as [Er Eu];
    [pose proof (wf_desc_size _ Hw) as Hd; simpl in Hd; lia|done|].
  eexists. split; [exact Eq|]. split; [done|].
  assert (sorted_by_phys_start (map_of (addr (buf m)) (meta_ m) (unused m) cs')) as Hsorted.
  { unfold sorted_by_phys_start. rewrite Er. simpl. by rewrite Hz. }
  rewrite Er, Eu. split; [done|]. split; [done|]. split; [|done].
  destruct (is_sorted_spec _ Hw') as (b & -> & Hb). f_equal. by apply Hb.
Qed.

(** A map of three descriptors in entries of 48 bytes, not in order, in a
    buffer with room for a fourth. *)
Definition example_meta : MemoryMapMeta := mkMemoryMapMeta 144 48 7 1.
Definition example_descriptor (start : Z) : MemoryDescriptor := mkMemoryDescriptor 7 start 0 1 0xF.
Definition example_entry (start : Z) : list Z :=
  encode_descriptor [0; 0; 0; 0] (example_descriptor start) ++ le_bytes 8 start.
Definition example_map : t :=
  mk (mkBuffer 0x1000 (example_entry 0x3000 ++ example_entry 0x1000 ++ example_entry 0x2000 ++
    replicate 48 0)) example_meta 3.

Lemma example_map_wf : wf_map example_map.
Proof. constructor; vm_compute; first [reflexivity|discriminate]. Defined.

Lemma sort_correct_witness :
  exists m', sort (H := debug_profile) example_map = Ret m' /\ is_sorted (H := debug_profile) m' = Ret true /\
    sort (H := debug_profile) example_map <> Ret example_map.
Proof.
  destruct (@sort_correct debug_profile example_map example_map_wf ltac:(reflexivity))
    as (m' & Hs & _ & _ & _ & Hi & _).
  exists m'. split; [exact Hs|]. split; [exact Hi|]. vm_compute. discriminate.
Defined.


(** The owned map sorts through a temporary reference and so inherits the
    result. *)
Theorem owned_sort_correct `{Profile} (m : MemoryMapOwned.t) :
  wf_map m -> 0 < len m ->
  exists m', MemoryMapOwned.sort m = Ret m' /\ wf_map m' /\
    raw_entries m' ≡ₚ raw_entries m /\ is_sorted m' = Ret true /\
    meta m' = meta m /\ len m' = len m /\ unused m' = unused m.
Proof.
  intros Hw Hl. set (r := mk (MemoryMapOwned.buf m) (MemoryMapOwned.meta_ m) (MemoryMapOwned.len_ m)).
  assert (wf_map r) as Hwr by (destruct Hw; by constructor).
  destruct (sort_view r Hwr Hl) as (cs' & Eq & Hp & Hz & Hso & Hf & Hw').
  destruct (raw_entries_map_of (addr (buf r)) (meta_ r) (unused r) cs') as [Er Eu];
    [pose proof (wf_desc_size _ Hw) as Hd; simpl in Hd |- *; lia|done|].
  unfold MemoryMapOwned.sort. fold r. rewrite Eq. cbn [obind].
  set (m' := MemoryMapOwned.mk _ _ _).
  assert (len m' = zlen cs') as Hlen by (rewrite Hz; done).
  assert (raw_entries m' = cs' /\ unused m' = unused m) as [Er' Eu'].
  { unfold raw_entries, unused in Er, Eu |- *. rewrite Hlen. split; [exact Er|exact Eu]. }
  assert (wf_map m') as Hwm.
  { destruct Hw'. constructor; simpl in *; try done; simpl in Hlen; lia. }
  exists m'. split; [done|]. split; [done|]. rewrite Er', Eu'. split; [done|]. split; [|done].
  destruct (is_sorted_spec m' Hwm) as (b & -> & Hb). f_equal. apply Hb.
  unfold sorted_by_phys_start. by rewrite Er'.
Qed.

(** Iterating a well-formed map yields its descriptors in order, once each, and
    stays inside the buffer. *)
Theorem entries_yield_descriptors `{Profile} {T} `{!MemoryMap T} (m : T) :
  wf_map m ->
  iter_collect (S (Z.to_nat (len m))) (entries m) = Ret (descriptors m) /\
  zlen (descriptors m) = len m /\
  (forall i, 0 <= i -> get m i = Ret (descriptors m !! Z.to_nat i)).
Proof.
  intros Hw. pose proof (wf_len _ Hw).
  assert (zlen (descriptors m) = len m) as Hz.
  { unfold descriptors, zlen. rewrite length_map. by apply (zlen_raw_entries m). }
  split; [|split; [done|]].
  - unfold entries. rewrite iter_collect_spec by (done || lia). by rewrite drop_0.
  - intros i Hi. destruct (decide (i < len m)).
    + rewrite get_in_range by (done || lia). f_equal. unfold descriptors.
      rewrite list_lookup_fmap, at_lookup by (rewrite zlen_raw_entries; lia). done.
    + rewrite get_out_of_range by lia. f_equal. symmetry. apply lookup_ge_None_2.
      unfold zlen in Hz. lia.
Qed.

Lemma entries_yield_descriptors_witness :
  iter_collect (H := debug_profile) 4 (entries example_map) =
  Ret [example_descriptor 0x3000; example_descriptor 0x1000; example_descriptor 0x2000].
Proof. exact (proj1 (@entries_yield_descriptors debug_profile t _ example_map example_map_wf)). Defined.


(** [size_hint] is the exact number of descriptors still to come. *)
Theorem size_hint_exact `{Profile} {T} `{!MemoryMap T} (m : T) (i : Z) :
  wf_map m -> 0 <= i <= len m ->
  exists ds, iter_collect (S (Z.to_nat (len m))) (mkIter m i) = Ret ds /\
    iter_size_hint (mkIter m i) = Ret (zlen ds, Some (zlen ds)).
Proof.
  intros Hw Hi. rewrite iter_collect_spec by (done || lia). eexists. split; [done|].
  unfold iter_size_hint. simpl. rewrite usize_sub_ok by lia. simpl.
  assert (len m - i = zlen (drop (Z.to_nat i) (descriptors m))) as ->; [|done].
  unfold zlen. rewrite length_drop. unfold descriptors. rewrite length_map.
  pose proof (zlen_raw_entries m (wf_len _ Hw)) as Hz. unfold zlen in Hz. lia.
Qed.

Lemma size_hint_exact_witness :
  exists ds, iter_collect (H := debug_profile) 4 (mkIter example_map 1) = Ret ds /\
    iter_size_hint (H := debug_profile) (mkIter example_map 1) = Ret (zlen ds, Some (zlen ds)).
Proof.
  apply (@size_hint_exact debug_profile t _ example_map 1 example_map_wf). by vm_compute.
Defined.


(** [ExactSizeIterator::len] keeps reporting the length of the whole map while
    the iterator advances: after every item it disagrees with the number of
    items left. *)
Theorem iter_len_not_remaining `{Profile} {T} `{!MemoryMap T} (m : T) (i : Z) :
  wf_map m -> 0 < i <= len m ->
  iter_size_hint (mkIter m i) = Ret (len m - i, Some (len m - i)) /\
  iter_len (mkIter m i) <> len m - i.
Proof.
  intros Hw Hi. unfold iter_size_hint, iter_len. simpl.
  rewrite usize_sub_ok by lia. split; [done|]. lia.
Qed.

Lemma iter_len_not_remaining_witness :
  iter_size_hint (H := debug_profile) (mkIter example_map 1) = Ret (2, Some 2) /\
  iter_len (mkIter example_map 1) <> 2.
Proof.
  apply (@iter_len_not_remaining debug_profile t _ example_map 1 example_map_wf). by vm_compute.
Defined.

(** ** Construction *)

(** On a buffer of at most [isize::MAX] bytes, [new] with a descriptor size that
    covers [MemoryDescriptor] and keeps entries aligned returns a well-formed
    map, one of the two errors, or panics because the size is not a multiple
    of the descriptor size. *)
Theorem new_sound (b : Buffer) (mt : MemoryMapMeta) :
  zlen (bytes b) <= isize_MAX -> 0 <= map_size mt ->
  size_of_MemoryDescriptor <= desc_size mt -> desc_size mt mod 8 = 0 ->
  match new b mt with
  | Ret (Ok m) => wf_map m /\ meta m = mt /\ buffer m = b
  | Ret (Err Misaligned) => addr b mod 8 <> 0
  | Ret (Err InvalidSize) => zlen (bytes b) < map_size mt
  | Panic f => f = AssertFailed /\ map_size mt mod desc_size mt <> 0
  | _ => False
  end.
Proof.
  unfold size_of_MemoryDescriptor. intros Hal Hm Hd Hd8. unfold new, is_aligned.
  destruct (addr b mod 8 =? 0) eqn:E1; z_bools; simpl; [|done].
  destruct (zlen (bytes b) <? map_size mt) eqn:E2; z_bools; simpl; [done|].
  unfold entry_count, usize_rem, usize_div.
  rewrite (proj2 (Z.eqb_neq (desc_size mt) 0)) by lia. simpl.
  destruct (map_size mt mod desc_size mt =? 0) eqn:E3; z_bools; simpl; [|done].
  split; [|done]. constructor; simpl; try done.
  - apply Z.div_pos; lia.
  - pose proof (Z.div_mod (map_size mt) (desc_size mt)). lia.
Qed.

Lemma new_sound_witness :
  match new (buf example_map) example_meta with
  | Ret (Ok m) => wf_map m /\ meta m = example_meta /\ buffer m = buf example_map
  | _ => False
  end.
Proof.
  pose proof (new_sound (buf example_map) example_meta ltac:(by vm_compute) ltac:(by vm_compute)
    ltac:(by vm_compute) ltac:(by vm_compute)) as Hn.
  destruct (new (buf example_map) example_meta) as [[m|[]]|f| |] eqn:E; vm_compute in E; try discriminate.
  exact Hn.
Defined.

(** ** Writing a descriptor *)

Lemma field_at_app (pre x post : list Z) :
  field_at (pre ++ x ++ post) (length pre) (length x) = le_val x.
Proof.
  unfold field_at. by rewrite drop_app_length, take_app_length.
Qed.

Definition descriptor_in_range (d : MemoryDescriptor) : Prop :=
  is_u32 (ty d) /\ is_u64 (phys_start d) /\ is_u64 (virt_start d) /\
  is_u64 (page_count d) /\ is_u64 (att d).

Lemma length_encode_descriptor pad d :
  length pad = 4%nat -> length (encode_descriptor pad d) = 40%nat.
Proof. intros Hp. unfold encode_descriptor. by rewrite !length_app, !length_le_bytes, Hp. Qed.

Lemma decode_encode_descriptor pad d :
  length pad = 4%nat -> descriptor_in_range d ->
  decode_descriptor (encode_descriptor pad d) = d.
Proof.
  intros Hp (H1 & H2 & H3 & H4 & H5). destruct d as [a b c e f]. simpl in *.
  unfold decode_descriptor, encode_descriptor.
  cbn [ty phys_start virt_start page_count att].
  set (A := le_bytes 4 a). set (B := le_bytes 8 b). set (C := le_bytes 8 c).
  set (D := le_bytes 8 e). set (E := le_bytes 8 f).
  assert (length A = 4%nat /\ length B = 8%nat /\ length C = 8%nat /\ length D = 8%nat /\
    length E = 8%nat) as (La & Lb & Lc & Ld & Le) by (unfold A, B, C, D, E; by rewrite !length_le_bytes).
  assert (forall n off pre x post, length pre = off -> length x = n ->
    field_at (pre ++ x ++ post) off n = le_val x) as Hfa.
  { intros n off pre x post <- <-. apply field_at_app. }
  f_equal.
  - pose proof (Hfa 4%nat 0%nat [] A (pad ++ B ++ C ++ D ++ E) eq_refl La) as E0.
    cbn [app] in E0. rewrite E0.
    apply le_val_bytes. unfold in_width in H1. simpl. lia.
  - replace (A ++ pad ++ B ++ C ++ D ++ E) with ((A ++ pad) ++ B ++ (C ++ D ++ E))
      by by rewrite <- app_assoc.
    rewrite Hfa by (rewrite ?length_app; lia). apply le_val_bytes.
    unfold in_width in H2. simpl. lia.
  - replace (A ++ pad ++ B ++ C ++ D ++ E) with ((A ++ pad ++ B) ++ C ++ (D ++ E))
      by by rewrite <- !app_assoc.
    rewrite Hfa by (rewrite ?length_app; lia). apply le_val_bytes.
    unfold in_width in H3. simpl. lia.
  - replace (A ++ pad ++ B ++ C ++ D ++ E) with ((A ++ pad ++ B ++ C) ++ D ++ E)
      by by rewrite <- !app_assoc.
    rewrite Hfa by (rewrite ?length_app; lia). apply le_val_bytes.
    unfold in_width in H4. simpl. lia.
  - replace (A ++ pad ++ B ++ C ++ D ++ E) with ((A ++ pad ++ B ++ C ++ D) ++ E ++ [])
      by (by rewrite app_nil_r, <- !app_assoc).
    rewrite Hfa by (rewrite ?length_app; lia). apply le_val_bytes.
    unfold in_width in H5. simpl. lia.
Qed.

(** Overwriting the first 40 bytes of entry [i]. *)
Lemma write_descriptor_entry a mt rest cs i d :
  a mod 8 = 0 -> 40 <= desc_size mt -> fits mt cs -> 0 <= i < zlen cs -> length d = 40%nat ->
  write_raw (concat cs ++ rest) (i * desc_size mt) d =
  Ret (concat (<[Z.to_nat i := d ++ drop 40 (at_ cs i)]> cs) ++ rest).
Proof.
  intros Ha Hd Hf Hi Hl.
  assert (length (at_ cs i) = Z.to_nat (desc_size mt)) as Hat by (by apply length_at).
  assert (zlen (at_ cs i) = desc_size mt) as Hzat by (unfold zlen; lia).
  rewrite <- (write_chunk (Z.to_nat (desc_size mt)) rest cs (Z.to_nat i) (d ++ drop 40 (at_ cs i))).
  2: by destruct Hf.
  2: unfold zlen in Hi; lia.
  2: rewrite length_app, length_drop; lia.
  unfold write_raw. rewrite (zlen_map_bytes mt rest Hd cs Hf).
  assert (zlen d = 40) as -> by (unfold zlen; lia). pose proof (zlen_nonneg rest).
  rewrite !(proj2 (Z.leb_le _ _)) by nia. simpl.
  rewrite Z2Nat.inj_mul by lia. do 2 f_equal. rewrite <- app_assoc. f_equal.
  rewrite Hl, <- drop_drop, (drop_chunks _ rest cs (Z.to_nat i)).
  2: by destruct Hf.
  2: unfold zlen in Hi; lia.
  rewrite (drop_S _ _ _ (at_lookup cs i Hi)). simpl.
  rewrite <- app_assoc, drop_app_le by lia. f_equal.
  rewrite length_app, Hl, length_drop, Hat.
  replace (40 + (Z.to_nat (desc_size mt) - 40))%nat with (Z.to_nat (desc_size mt)) by lia.
  replace (Z.to_nat i * Z.to_nat (desc_size mt) + Z.to_nat (desc_size mt))%nat
    with (S (Z.to_nat i) * Z.to_nat (desc_size mt))%nat by lia.
  rewrite drop_chunks; [done| |].
  - by destruct Hf.
  - unfold zlen in Hi. lia.
Qed.

(** The padding bytes of an entry can be read. *)
Lemma read_padding `{Profile} mt tail (cs : list (list Z)) i :
  40 <= desc_size mt -> fits mt cs -> 0 <= i < zlen cs ->
  exists pad, read_raw (concat cs ++ tail) (i * desc_size mt + 4) 4 = Ret pad /\ length pad = 4%nat.
Proof.
  intros Hd Hf Hi. assert (zlen (concat cs ++ tail) = zlen cs * desc_size mt + zlen tail) as Hzb
    by by apply zlen_map_bytes.
  pose proof (zlen_nonneg tail). rewrite read_raw_ok by nia. eexists. split; [done|].
  rewrite length_take, length_drop. unfold zlen in *. nia.
Qed.

(** A store through [get_mut] changes the addressed descriptor to the stored
    one and no other, keeps the vendor bytes of the entry, and is refused
    exactly out of range. *)
Theorem set_desc_get `{Profile} (m : t) (i : Z) (d : MemoryDescriptor) :
  wf_map m -> 0 <= i -> descriptor_in_range d ->
  if len m <=? i then set_desc m i d = Ret None
  else exists m', set_desc m i d = Ret (Some m') /\ wf_map m' /\
    descriptors m' = <[Z.to_nat i := d]> (descriptors m) /\ unused m' = unused m.
Proof.
  intros Hw Hi Hr. unfold set_desc.
  destruct (len m <=? i) eqn:E; [done|]. z_bools.
  pose proof (wf_map_fits m Hw) as Hf. pose proof (zlen_raw_entries m (wf_len _ Hw)) as Hz.
  pose proof Hw as [Ha Hd8 Hd Hl Hs Hft Hal]. pose proof (bytes_entries m) as Eb.
  assert (0 <= i < zlen (raw_entries m)) as Hiz by (rewrite Hz; lia).
  unfold isize_MAX in Hal. rewrite usize_mul_ok by nia. cbn [obind].
  destruct (buffer m) as [a bs] eqn:Ebuf. simpl in Eb, Ha, Hft, Hal. cbn [bytes].
  rewrite Eb. rewrite (read_descriptor_entry a (meta m) (unused m)) by done. cbn [obind].
  destruct (read_padding (meta m) (unused m) (raw_entries m) i Hd Hf Hiz) as (pad & -> & Hpad).
  cbn [obind].
  rewrite (write_descriptor_entry a (meta m) (unused m)); try done.
  2: by apply length_encode_descriptor.
  cbn [obind]. set (cs' := <[Z.to_nat i := _]> (raw_entries m)).
  assert (fits (meta m) cs') as Hf'.
  { split.
    - apply Forall_insert; [by destruct Hf|].
      rewrite length_app, length_encode_descriptor, length_drop by done.
      rewrite (length_at (meta m)) by done. lia.
    - unfold cs', zlen. rewrite length_insert. apply Hf. }
  assert (MemoryMapRefMut.set_bytes m (concat cs' ++ unused m) =
          map_of (addr (buf m)) (meta_ m) (unused m) cs') as ->.
  { unfold set_bytes, map_of. f_equal. unfold cs', zlen. rewrite length_insert.
    symmetry. exact Hz. }
  destruct (raw_entries_map_of (addr (buf m)) (meta_ m) (unused m) cs') as [Er Eu];
    [simpl in Hd; lia|done|].
  eexists. split; [done|]. split; [|split; [|done]].
  - assert (zlen cs' = len m) as Hz' by (unfold cs', zlen; rewrite length_insert; exact Hz).
    apply wf_map_of; try done.
    + simpl in Ebuf. by rewrite Ebuf.
    + rewrite Hz'. exact Hs.
    + rewrite Hz', <- Hz, <- (zlen_map_bytes (meta_ m) (unused m) Hd _ Hf), <- Eb.
      unfold isize_MAX. lia.
  - unfold descriptors. rewrite Er. unfold cs'. rewrite list_fmap_insert. f_equal.
    rewrite take_app_length' by by rewrite length_encode_descriptor.
    by apply decode_encode_descriptor.
Qed.

Lemma set_desc_get_witness :
  exists m', set_desc (H := debug_profile) example_map 1 (example_descriptor 0x9000) = Ret (Some m') /\
    descriptors m' = [example_descriptor 0x3000; example_descriptor 0x9000; example_descriptor 0x2000].
Proof.
  destruct (@set_desc_get debug_profile example_map 1 (example_descriptor 0x9000) example_map_wf
    ltac:(done) ltac:(by vm_compute)) as (m' & Hm & _ & Hd & _).
  exists m'. split; [exact Hm|]. rewrite Hd. reflexivity.
Defined.

