(* ===== verification/DevicePath.v ===== *)
(** * Device paths: [uefi/src/proto/device_path/mod.rs]

    A device path is a packed sequence of nodes, each starting with a four-byte
    header that carries the node's total length.  [mem] arguments are the bytes
    addressed by a raw pointer up to the end of its allocation: reading past
    them is [Undefined].  A parsed node owns its header and its payload. *)
From S2P Require Import Prelude.

(** [DeviceType] and [DeviceSubType] values used by the traversal. *)
Definition DeviceType_HARDWARE : Z := 0x01.
Definition DeviceType_ACPI : Z := 0x02.
Definition DeviceType_MESSAGING : Z := 0x03.
Definition DeviceType_MEDIA : Z := 0x04.
Definition DeviceType_BIOS_BOOT_SPEC : Z := 0x05.
Definition DeviceType_END : Z := 0x7F.
Definition DeviceSubType_END_INSTANCE : Z := 0x01.
Definition DeviceSubType_END_ENTIRE : Z := 0xFF.

Inductive ByteConversionError : Set := InvalidLength.

(** ** Headers *)

Record DevicePathHeader : Set := mkHeader {
  major_type : Z;
  sub_type : Z;
  length_bytes : list Z;
}.

Definition size_of_header : Z := 4.

Definition header_new (mt st length : Z) : DevicePathHeader :=
  mkHeader mt st (le_bytes 2 length).

(** [u16::from_le_bytes(self.length)]. *)
Definition header_length (h : DevicePathHeader) : Z := le_val (length_bytes h).

Definition header_bytes (h : DevicePathHeader) : list Z :=
  major_type h :: sub_type h :: length_bytes h.

(** The header at a raw pointer. *)
Definition read_header (mem : list Z) : outcome DevicePathHeader :=
  let! bs := read_raw mem 0 size_of_header in
  match bs with
  | mt :: st :: l => Ret (mkHeader mt st l)
  | _ => Undefined
  end.

Definition header_try_from (bytes : list Z)
  : outcome (result DevicePathHeader ByteConversionError) :=
  if size_of_header <=? zlen bytes
  then let! h := read_header bytes in Ret (Ok h)
  else Ret (Err InvalidLength).

(** ** Nodes *)

Record DevicePathNode : Set := mkNode {
  header : DevicePathHeader;
  data : list Z;
}.

Definition device_type (n : DevicePathNode) : Z := major_type (header n).
Definition node_sub_type (n : DevicePathNode) : Z := sub_type (header n).
Definition full_type (n : DevicePathNode) : Z * Z := (device_type n, node_sub_type n).
Definition node_length (n : DevicePathNode) : Z := header_length (header n).

Definition is_end_entire (n : DevicePathNode) : bool :=
  (device_type n =? DeviceType_END) && (node_sub_type n =? DeviceSubType_END_ENTIRE).

(** The bytes a node occupies. *)
Definition node_bytes (n : DevicePathNode) : list Z := header_bytes (header n) ++ data n.

#[export] Instance header_eq_dec : EqDecision DevicePathHeader.
Proof. solve_decision. Defined.
#[export] Instance node_eq_dec : EqDecision DevicePathNode.
Proof. solve_decision. Defined.

(** [PartialEq for DevicePathNode]. *)
Definition node_eq (a b : DevicePathNode) : bool :=
  bool_decide (header a = header b) && bool_decide (data a = data b).

Inductive StopCondition : Set := AnyEndNode | EndEntireNode | NoMoreNodes.

Record DevicePathNodeIterator : Set := mkNodeIter {
  nodes : list Z;
  stop_condition : StopCondition;
}.

(** [DevicePathInstanceIterator]: the remaining path. *)
Definition DevicePathInstanceIterator : Set := option (list Z).

Section ops.
Context `{Profile}.

(** The length field counts the header: a smaller value underflows. *)
Definition node_from_ffi_ptr (mem : list Z) : outcome DevicePathNode :=
  let! h := read_header mem in
  let! data_len := usize_sub (header_length h) size_of_header in
  let! d := read_raw mem size_of_header data_len in
  Ret (mkNode h d).

Definition node_try_from (bytes : list Z)
  : outcome (result DevicePathNode ByteConversionError) :=
  let? dp := header_try_from bytes in
  if header_length dp <=? zlen bytes
  then let! n := node_from_ffi_ptr bytes in Ret (Ok n)
  else Ret (Err InvalidLength).

(** ** Iteration over nodes *)

Definition node_iter_next (it : DevicePathNodeIterator)
  : outcome (option DevicePathNode * DevicePathNodeIterator) :=
  match nodes it with
  | [] => Ret (None, it)
  | _ =>
      let! node := node_from_ffi_ptr (nodes it) in
      let stop := match stop_condition it with
                  | AnyEndNode => device_type node =? DeviceType_END
                  | EndEntireNode => is_end_entire node
                  | NoMoreNodes => false
                  end in
      if stop then Ret (None, mkNodeIter [] (stop_condition it))
      else
        let! rest := slice (nodes it) (node_length node) (zlen (nodes it)) in
        Ret (Some node, mkNodeIter rest (stop_condition it))
  end.

Fixpoint node_iter_collect (fuel : nat) (it : DevicePathNodeIterator)
  : outcome (list DevicePathNode) :=
  match fuel with
  | O => NoFuel
  | S fuel' =>
      let! (o, it) := node_iter_next it in
      match o with
      | None => Ret []
      | Some n => let! ns := node_iter_collect fuel' it in Ret (n :: ns)
      end
  end.

(** [DevicePath::node_iter] and [DevicePathInstance::node_iter]. *)
Definition path_node_iter (d : list Z) : DevicePathNodeIterator :=
  mkNodeIter d EndEntireNode.
Definition instance_node_iter (d : list Z) : DevicePathNodeIterator :=
  mkNodeIter d AnyEndNode.

(** ** Sizes *)

(** The loop of [size_in_bytes_from_ptr]. *)
Fixpoint size_in_bytes_from_ptr_loop (fuel : nat) (mem : list Z) (total : Z) : outcome Z :=
  match fuel with
  | O => NoFuel
  | S fuel' =>
      let! node := node_from_ffi_ptr mem in
      let node_size_in_bytes := node_length node in
      let! total := usize_add total node_size_in_bytes in
      if is_end_entire node then Ret total
      else size_in_bytes_from_ptr_loop fuel' (drop (Z.to_nat node_size_in_bytes) mem) total
  end.

(** A path has no more nodes than the memory behind the pointer has bytes. *)
Definition size_in_bytes_from_ptr (mem : list Z) : outcome Z :=
  size_in_bytes_from_ptr_loop (S (length mem)) mem 0.

Fixpoint size_in_bytes_from_slice_loop (fuel : nat) (max_size : Z) (bytes : list Z)
  (total : Z) : outcome (result Z ByteConversionError) :=
  match fuel with
  | O => NoFuel
  | S fuel' =>
      let? node := node_try_from bytes in
      let node_size_in_bytes := node_length node in
      let! total := usize_add total node_size_in_bytes in
      if max_size <? total then Ret (Err InvalidLength)
      else if is_end_entire node then Ret (Ok total)
      else
        let! bytes := slice bytes node_size_in_bytes (zlen bytes) in
        size_in_bytes_from_slice_loop fuel' max_size bytes total
  end.

Definition size_in_bytes_from_slice (bytes : list Z)
  : outcome (result Z ByteConversionError) :=
  size_in_bytes_from_slice_loop (S (length bytes)) (zlen bytes) bytes 0.

(** [DevicePath::from_ffi_ptr]: the bytes of the path. *)
Definition path_from_ffi_ptr (mem : list Z) : outcome (list Z) :=
  let! n := size_in_bytes_from_ptr mem in
  read_raw mem 0 n.

(** [TryFrom<&[u8]> for &DevicePath]. *)
Definition path_try_from (bytes : list Z) : outcome (result (list Z) ByteConversionError) :=
  let? n := size_in_bytes_from_slice bytes in
  let! p := read_raw bytes 0 n in
  Ret (Ok p).

(** ** Iteration over instances *)

(** The [for] loop that measures the next instance. *)
Fixpoint instance_size_loop (fuel : nat) (it : DevicePathNodeIterator) (instance_size : Z)
  : outcome Z :=
  match fuel with
  | O => NoFuel
  | S fuel' =>
      let! (o, it) := node_iter_next it in
      match o with
      | None => Ret instance_size
      | Some node =>
          let! instance_size := usize_add instance_size (node_length node) in
          if device_type node =? DeviceType_END then Ret instance_size
          else instance_size_loop fuel' it instance_size
      end
  end.

Definition instance_iter (d : list Z) : DevicePathInstanceIterator := Some d.

Definition instance_iter_next (self : DevicePathInstanceIterator)
  : outcome (option (list Z) * DevicePathInstanceIterator) :=
  match self with
  | None => Ret (None, None)
  | Some remaining_path =>
      let! instance_size :=
        instance_size_loop (S (length remaining_path))
          (mkNodeIter remaining_path NoMoreNodes) 0 in
      let! head := slice remaining_path 0 instance_size in
      let! rest := slice remaining_path instance_size (zlen remaining_path) in
      let self := match rest with [] => None | _ => Some rest end in
      Ret (Some head, self)
  end.

Fixpoint instance_iter_collect (fuel : nat) (self : DevicePathInstanceIterator)
  : outcome (list (list Z)) :=
  match fuel with
  | O => NoFuel
  | S fuel' =>
      let! (o, self) := instance_iter_next self in
      match o with
      | None => Ret []
      | Some d => let! ds := instance_iter_collect fuel' self in Ret (d :: ds)
      end
  end.

End ops.

(** ** Well-formed nodes and their encoding *)

Record node_wf (n : DevicePathNode) : Prop := {
  node_wf_type : is_u8 (major_type (header n)) /\ is_u8 (sub_type (header n));
  node_wf_len_bytes : length (length_bytes (header n)) = 2%nat /\
    Forall is_u8 (length_bytes (header n));
  node_wf_data : Forall is_u8 (data n);
  node_wf_length : node_length n = size_of_header + zlen (data n);
}.

Definition is_end (n : DevicePathNode) : bool := device_type n =? DeviceType_END.

Definition nodes_bytes (ns : list DevicePathNode) : list Z := concat (map node_bytes ns).

(** A node built from type, subtype and payload. *)
Definition make_node (mt st : Z) (d : list Z) : DevicePathNode :=
  mkNode (header_new mt st (size_of_header + zlen d)) d.

Definition end_entire : DevicePathNode := make_node DeviceType_END DeviceSubType_END_ENTIRE [].
Definition end_instance : DevicePathNode := make_node DeviceType_END DeviceSubType_END_INSTANCE [].

Lemma make_node_wf mt st d :
  is_u8 mt -> is_u8 st -> Forall is_u8 d -> zlen d < 2 ^ 16 - 4 -> node_wf (make_node mt st d).
Proof.
  intros Hm Hs Hd Hl. pose proof (zlen_nonneg d). constructor; simpl; try done.
  - split; [done|]. apply (le_bytes_u8 2).
  - unfold node_length, header_length. cbn [header make_node header_new length_bytes].
    apply le_val_bytes. unfold size_of_header. simpl. lia.
Qed.

Lemma end_entire_wf : node_wf end_entire.
Proof. apply make_node_wf; done. Qed.

Lemma node_bytes_length n : node_wf n -> zlen (node_bytes n) = node_length n.
Proof.
  intros [_ [Hl _] _ Hlen]. rewrite Hlen. unfold node_bytes, header_bytes, size_of_header.
  cbn [app]. rewrite !zlen_cons, zlen_app. unfold zlen at 1. rewrite Hl. lia.
Qed.

Lemma node_length_bounds n : node_wf n -> 4 <= node_length n < 2 ^ 16.
Proof.
  intros [_ [Hl Hu] _ Hlen]. pose proof (zlen_nonneg (data n)). unfold size_of_header in Hlen.
  split; [lia|]. unfold node_length, header_length.
  pose proof (le_val_bound _ Hu) as Hb. rewrite Hl in Hb. simpl in Hb. lia.
Qed.

Lemma read_header_node n k :
  node_wf n -> read_header (node_bytes n ++ k) = Ret (header n).
Proof.
  intros Hw. pose proof (node_bytes_length n Hw) as Hz. pose proof (node_length_bounds n Hw).
  destruct Hw as [_ [Hl _] _ _]. unfold read_header.
  rewrite read_raw_ok by (rewrite ?zlen_app; pose proof (zlen_nonneg k); unfold size_of_header; lia).
  simpl. destruct (header n) as [mt st [|a [|b [|? ?]]]]; simpl in Hl; try lia. done.
Qed.

Lemma node_from_ffi_ptr_node `{Profile} n k :
  node_wf n -> node_from_ffi_ptr (node_bytes n ++ k) = Ret n.
Proof.
  intros Hw. unfold node_from_ffi_ptr. rewrite read_header_node by done. cbn [obind].
  fold (node_length n). pose proof (node_length_bounds n Hw).
  rewrite usize_sub_ok by (unfold size_of_header; lia). cbn [obind].
  pose proof (node_bytes_length n Hw) as Hz. pose proof (zlen_nonneg k).
  destruct Hw as [_ [Hl _] _ Hlen].
  rewrite read_raw_ok by (rewrite ?zlen_app; unfold size_of_header in *; lia).
  cbn [obind]. rewrite Hlen. replace (size_of_header + zlen (data n) - size_of_header)
    with (zlen (data n)) by lia.
  unfold node_bytes, header_bytes, zlen. rewrite Nat2Z.id. destruct n as [[mt st lb] d]. simpl in *.
  destruct lb as [|x [|y [|? ?]]]; simpl in Hl; try lia.
  change (Z.to_nat size_of_header) with 4%nat. cbn [app drop].
  by rewrite drop_0, take_app_length.
Qed.

Lemma node_try_from_node `{Profile} n k :
  node_wf n -> node_try_from (node_bytes n ++ k) = Ret (Ok n).
Proof.
  intros Hw. unfold node_try_from, header_try_from.
  pose proof (node_bytes_length n Hw). pose proof (node_length_bounds n Hw).
  pose proof (zlen_nonneg k).
  rewrite (proj2 (Z.leb_le _ _)) by (rewrite zlen_app; unfold size_of_header; lia).
  rewrite read_header_node by done. cbn [obind]. fold (node_length n).
  rewrite (proj2 (Z.leb_le _ _)) by (rewrite zlen_app; lia).
  by rewrite node_from_ffi_ptr_node.
Qed.

Lemma slice_after_node n k :
  node_wf n -> slice (node_bytes n ++ k) (node_length n) (zlen (node_bytes n ++ k)) = Ret k.
Proof.
  intros Hw. pose proof (node_bytes_length n Hw). pose proof (node_length_bounds n Hw).
  pose proof (zlen_nonneg k). rewrite slice_ok by (rewrite ?zlen_app; lia).
  rewrite zlen_app. replace (Z.to_nat (node_length n)) with (length (node_bytes n)) by (unfold zlen in *; lia).
  rewrite drop_app_length. f_equal. apply take_ge. unfold zlen in *. lia.
Qed.

Lemma node_bytes_not_nil n k : exists x l, node_bytes n ++ k = x :: l.
Proof. unfold node_bytes, header_bytes. simpl. by eexists _, _. Qed.

Lemma node_iter_next_node `{Profile} n k sc :
  node_wf n ->
  match sc with
  | AnyEndNode => is_end n = false
  | EndEntireNode => is_end_entire n = false
  | NoMoreNodes => True
  end ->
  node_iter_next (mkNodeIter (node_bytes n ++ k) sc) = Ret (Some n, mkNodeIter k sc).
Proof.
  intros Hw Hs. unfold node_iter_next. cbn [nodes stop_condition].
  destruct (node_bytes_not_nil n k) as (x & l & E). rewrite E, <- E.
  rewrite node_from_ffi_ptr_node by done. cbn [obind].
  unfold is_end in Hs. destruct sc; rewrite ?Hs; rewrite slice_after_node by done; done.
Qed.

Lemma node_iter_next_stop `{Profile} n k sc :
  node_wf n -> sc <> NoMoreNodes -> is_end_entire n = true ->
  node_iter_next (mkNodeIter (node_bytes n ++ k) sc) = Ret (None, mkNodeIter [] sc).
Proof.
  intros Hw Hsc He. unfold node_iter_next. cbn [nodes stop_condition].
  destruct (node_bytes_not_nil n k) as (x & l & E). rewrite E, <- E.
  rewrite node_from_ffi_ptr_node by done. cbn [obind].
  destruct sc; [|by rewrite He|done].
  unfold is_end_entire in He. z_bools. by rewrite (proj2 (Z.eqb_eq _ _)) by done.
Qed.

(** ** Parsing what was encoded *)

Section roundtrip.
Context `{Profile}.

Lemma nodes_bytes_cons n ns k : nodes_bytes (n :: ns) ++ k = node_bytes n ++ nodes_bytes ns ++ k.
Proof. unfold nodes_bytes. simpl. by rewrite <- app_assoc. Qed.

Lemma nodes_bytes_length ns : Forall node_wf ns -> (length ns <= length (nodes_bytes ns))%nat.
Proof.
  induction 1 as [|n ns Hn _ IH]; [done|].
  pose proof (node_bytes_length n Hn). pose proof (node_length_bounds n Hn).
  unfold nodes_bytes in *. simpl. rewrite length_app. unfold zlen in *. lia.
Qed.

Lemma node_iter_collect_nodes fuel ns sc k :
  Forall node_wf ns ->
  Forall (fun n => match sc with
    | AnyEndNode => is_end n = false
    | EndEntireNode => is_end_entire n = false
    | NoMoreNodes => True end) ns ->
  (length ns < fuel)%nat ->
  node_iter_next (mkNodeIter k sc) = Ret (None, mkNodeIter [] sc) ->
  node_iter_collect fuel (mkNodeIter (nodes_bytes ns ++ k) sc) = Ret ns.
Proof.
  intros Hw Hs. revert fuel. induction Hw as [|n ns Hn Hw IH]; intros fuel Hf Hk.
  - destruct fuel; [simpl in Hf; lia|]. cbn [node_iter_collect nodes_bytes map concat app].
    by rewrite Hk.
  - destruct fuel as [|fuel]; [lia|]. apply Forall_cons in Hs as [Hsn Hs].
    rewrite nodes_bytes_cons. cbn [node_iter_collect].
    rewrite node_iter_next_node by done. cbn [obind]. simpl in Hf.
    by rewrite IH by (done || lia).
Qed.

Lemma size_from_slice_nodes fuel ns e k max total :
  Forall node_wf ns -> Forall (fun n => is_end_entire n = false) ns ->
  node_wf e -> is_end_entire e = true -> (length ns < fuel)%nat ->
  0 <= total -> total + zlen (nodes_bytes ns ++ node_bytes e) <= max -> max <= isize_MAX ->
  size_in_bytes_from_slice_loop fuel max (nodes_bytes ns ++ node_bytes e ++ k) total =
  Ret (Ok (total + zlen (nodes_bytes ns ++ node_bytes e))).
Proof.
  intros Hw Hs He Hee. revert fuel total.
  induction Hw as [|n ns Hn Hw IH]; intros fuel total Hf Ht Hm Hx; unfold isize_MAX in *.
  - destruct fuel; [simpl in Hf; lia|].
    cbn [size_in_bytes_from_slice_loop nodes_bytes map concat app] in *.
    rewrite node_try_from_node by done. cbn [obind].
    pose proof (node_bytes_length e He). pose proof (node_length_bounds e He).
    rewrite usize_add_ok by lia. cbn [obind].
    rewrite (proj2 (Z.ltb_ge _ _)) by lia. rewrite Hee. by rewrite <- (node_bytes_length e He).
  - destruct fuel as [|fuel]; [lia|]. apply Forall_cons in Hs as [Hsn Hs].
    pose proof (node_bytes_length n Hn) as Hzn. pose proof (node_length_bounds n Hn).
    rewrite !nodes_bytes_cons in *. rewrite zlen_app in Hm.
    pose proof (zlen_nonneg (nodes_bytes ns ++ node_bytes e)).
    cbn [size_in_bytes_from_slice_loop]. rewrite node_try_from_node by done. cbn [obind].
    rewrite usize_add_ok by lia. cbn [obind].
    rewrite (proj2 (Z.ltb_ge _ _)) by lia. rewrite Hsn.
    rewrite slice_after_node by done. cbn [obind]. simpl in Hf.
    rewrite IH by (done || lia). rewrite (zlen_app (node_bytes n)). do 2 f_equal. lia.
Qed.

Lemma size_from_ptr_nodes fuel ns e k total :
  Forall node_wf ns -> Forall (fun n => is_end_entire n = false) ns ->
  node_wf e -> is_end_entire e = true -> (length ns < fuel)%nat ->
  0 <= total -> total + zlen (nodes_bytes ns ++ node_bytes e) <= isize_MAX ->
  size_in_bytes_from_ptr_loop fuel (nodes_bytes ns ++ node_bytes e ++ k) total =
  Ret (total + zlen (nodes_bytes ns ++ node_bytes e)).
Proof.
  intros Hw Hs He Hee. revert fuel total.
  induction Hw as [|n ns Hn Hw IH]; intros fuel total Hf Ht Hm; unfold isize_MAX in *.
  - destruct fuel; [simpl in Hf; lia|].
    cbn [size_in_bytes_from_ptr_loop nodes_bytes map concat app] in *.
    rewrite node_from_ffi_ptr_node by done. cbn [obind].
    pose proof (node_bytes_length e He). pose proof (node_length_bounds e He).
    rewrite usize_add_ok by lia. cbn [obind]. rewrite Hee. by rewrite <- (node_bytes_length e He).
  - destruct fuel as [|fuel]; [lia|]. apply Forall_cons in Hs as [Hsn Hs].
    pose proof (node_bytes_length n Hn) as Hzn. pose proof (node_length_bounds n Hn).
    rewrite !nodes_bytes_cons in *. rewrite zlen_app in Hm.
    pose proof (zlen_nonneg (nodes_bytes ns ++ node_bytes e)).
    cbn [size_in_bytes_from_ptr_loop]. rewrite node_from_ffi_ptr_node by done. cbn [obind].
    rewrite usize_add_ok by lia. cbn [obind]. rewrite Hsn.
    replace (Z.to_nat (node_length n)) with (length (node_bytes n)) by (unfold zlen in *; lia).
    rewrite drop_app_length. simpl in Hf.
    rewrite IH by (done || lia). rewrite (zlen_app (node_bytes n)). f_equal. lia.
Qed.

Section closed_path.
Context (ns : list DevicePathNode) (e : DevicePathNode) (k : list Z)
  (Hw : Forall node_wf ns) (Hs : Forall (fun n => is_end_entire n = false) ns)
  (He : node_wf e) (Hee : is_end_entire e = true).
Let p : list Z := nodes_bytes ns ++ node_bytes e.

Lemma read_path_prefix : read_raw (p ++ k) 0 (zlen p) = Ret p.
Proof.
  rewrite read_raw_ok by (rewrite ?zlen_app; pose proof (zlen_nonneg p); pose proof (zlen_nonneg k); lia).
  unfold zlen. by rewrite Nat2Z.id, drop_0, take_app_length.
Qed.

Lemma path_try_from_closed : zlen (p ++ k) <= isize_MAX -> path_try_from (p ++ k) = Ret (Ok p).
Proof.
  intros Hl. unfold path_try_from, size_in_bytes_from_slice. unfold p at 3. rewrite <- app_assoc.
  pose proof (nodes_bytes_length ns Hw). pose proof (zlen_nonneg k).
  rewrite (size_from_slice_nodes _ ns e k); try done; fold p.
  - cbn [obind]. rewrite Z.add_0_l. by rewrite read_path_prefix.
  - unfold p. rewrite !length_app. lia.
  - rewrite zlen_app. lia.
Qed.

Lemma path_from_ffi_ptr_closed : zlen p <= isize_MAX -> path_from_ffi_ptr (p ++ k) = Ret p.
Proof.
  intros Hl. unfold path_from_ffi_ptr, size_in_bytes_from_ptr. unfold p at 2. rewrite <- app_assoc.
  pose proof (nodes_bytes_length ns Hw).
  rewrite (size_from_ptr_nodes _ ns e k); fold p; try done.
  - cbn [obind]. rewrite Z.add_0_l. by rewrite read_path_prefix.
  - unfold p. rewrite !length_app. lia.
Qed.

Lemma path_node_iter_closed fuel : (length ns < fuel)%nat ->
  node_iter_collect fuel (path_node_iter (p ++ k)) = Ret ns.
Proof.
  intros Hf. unfold path_node_iter, p. rewrite <- app_assoc.
  apply node_iter_collect_nodes; try done. by apply node_iter_next_stop.
Qed.

End closed_path.

(** C3: A sequence of well-formed nodes closed by an end-entire node is recognised
    at the front of any byte slice or memory, with its exact extent, and
    iterating it returns exactly the nodes before the end node. *)
Theorem device_path_roundtrip (ns : list DevicePathNode) (e : DevicePathNode) (k : list Z) :
  Forall node_wf ns -> Forall (fun n => is_end_entire n = false) ns ->
  node_wf e -> is_end_entire e = true ->
  let p := nodes_bytes ns ++ node_bytes e in
  zlen (p ++ k) <= isize_MAX ->
  path_try_from (p ++ k) = Ret (Ok p) /\
  path_from_ffi_ptr (p ++ k) = Ret p /\
  node_iter_collect (S (length p)) (path_node_iter p) = Ret ns.
Proof.
  intros Hw Hs He Hee p Hl. split; [by apply path_try_from_closed|]. split.
  - apply path_from_ffi_ptr_closed; try done. rewrite zlen_app in Hl. pose proof (zlen_nonneg k).
    fold p. lia.
  - rewrite <- (app_nil_r p). apply path_node_iter_closed; try done.
    pose proof (nodes_bytes_length ns Hw). unfold p. rewrite app_nil_r, length_app. lia.
Qed.

(** ** Instances *)

(** One instance: nodes that are not end nodes, then an end node. *)
Definition instance_bytes (g : list DevicePathNode * DevicePathNode) : list Z :=
  nodes_bytes (fst g) ++ node_bytes (snd g).

Definition instance_wf (g : list DevicePathNode * DevicePathNode) : Prop :=
  Forall node_wf (fst g) /\ Forall (fun n => is_end n = false) (fst g) /\
  node_wf (snd g) /\ is_end (snd g) = true.

Lemma instance_size_spec fuel ns e k total :
  Forall node_wf ns -> Forall (fun n => is_end n = false) ns -> node_wf e -> is_end e = true ->
  (length ns < fuel)%nat -> 0 <= total ->
  total + zlen (nodes_bytes ns ++ node_bytes e) <= isize_MAX ->
  instance_size_loop fuel (mkNodeIter (nodes_bytes ns ++ node_bytes e ++ k) NoMoreNodes) total =
  Ret (total + zlen (nodes_bytes ns ++ node_bytes e)).
Proof.
  intros Hw Hs He Hee. revert fuel total.
  induction Hw as [|n ns Hn Hw IH]; intros fuel total Hf Ht Hm; unfold isize_MAX in *.
  - destruct fuel; [simpl in Hf; lia|].
    cbn [instance_size_loop nodes_bytes map concat app] in *.
    rewrite node_iter_next_node by done. cbn [obind].
    pose proof (node_bytes_length e He). pose proof (node_length_bounds e He).
    rewrite usize_add_ok by lia. cbn [obind]. fold (is_end e). rewrite Hee.
    by rewrite <- (node_bytes_length e He).
  - destruct fuel as [|fuel]; [lia|]. apply Forall_cons in Hs as [Hsn Hs].
    pose proof (node_bytes_length n Hn) as Hzn. pose proof (node_length_bounds n Hn).
    rewrite !nodes_bytes_cons in *. rewrite zlen_app in Hm.
    pose proof (zlen_nonneg (nodes_bytes ns ++ node_bytes e)).
    cbn [instance_size_loop]. rewrite node_iter_next_node by done. cbn [obind].
    rewrite usize_add_ok by lia. cbn [obind]. fold (is_end n). rewrite Hsn. simpl in Hf.
    rewrite IH by (done || lia). rewrite (zlen_app (node_bytes n)). f_equal. lia.
Qed.

Lemma instance_iter_next_spec g k :
  instance_wf g -> zlen (instance_bytes g ++ k) <= isize_MAX ->
  instance_iter_next (Some (instance_bytes g ++ k)) =
  Ret (Some (instance_bytes g), match k with [] => None | _ => Some k end).
Proof.
  intros (Hw & Hs & He & Hee) Hl. destruct g as [ns e].
  unfold instance_iter_next, instance_bytes in *. cbn [fst snd] in *.
  set (p := nodes_bytes ns ++ node_bytes e) in *.
  assert (p ++ k = nodes_bytes ns ++ node_bytes e ++ k) as Epk by (unfold p; by rewrite app_assoc).
  assert (zlen p <= isize_MAX) as Hp by (rewrite zlen_app in Hl; pose proof (zlen_nonneg k); lia).
  pose proof (nodes_bytes_length ns Hw). pose proof (zlen_nonneg p). pose proof (zlen_nonneg k).
  rewrite Epk at 2. rewrite instance_size_spec; try done;
    [|rewrite Epk, length_app; lia].
  fold p. rewrite Z.add_0_l. cbn [obind].
  rewrite !slice_ok by (rewrite ?zlen_app; lia). cbn [obind].
  rewrite Z.sub_0_r. unfold zlen. rewrite Nat2Z.id, drop_0, take_app_length, drop_app_length.
  rewrite take_ge by (rewrite length_app; lia). done.
Qed.

(** The instances of a path are the node groups between end nodes, in order;
    together they are the whole path, and iterating one of them gives its nodes
    without the end node. *)
Theorem instance_iter_groups (gs : list (list DevicePathNode * DevicePathNode)) :
  Forall instance_wf gs -> gs <> [] ->
  let p := concat (map instance_bytes gs) in
  zlen p <= isize_MAX ->
  instance_iter_collect (S (length gs)) (instance_iter p) = Ret (map instance_bytes gs) /\
  Forall (fun g => node_iter_collect (S (length (instance_bytes g)))
                     (instance_node_iter (instance_bytes g)) = Ret (fst g)) gs.
Proof.
  intros Hw Hne p Hl. split.
  - unfold instance_iter, p in *. clear p. induction Hw as [|g gs Hg Hw IH]; [done|].
    cbn [map concat length instance_iter_collect] in *.
    rewrite instance_iter_next_spec by done. cbn [obind].
    destruct gs as [|g' gs]; [done|].
    assert (zlen (concat (map instance_bytes (g' :: gs))) <= isize_MAX) as Hl'
      by (rewrite zlen_app in Hl; pose proof (zlen_nonneg (instance_bytes g)); lia).
    specialize (IH ltac:(done) Hl').
    destruct (concat (map instance_bytes (g' :: gs))) as [|x l] eqn:E.
    { exfalso. cbn [map concat] in E. unfold instance_bytes in E.
      destruct (node_bytes_not_nil (snd g') (concat (map instance_bytes gs))) as (y & m & E').
      rewrite <- app_assoc in E. unfold instance_bytes in E'. rewrite E' in E.
      destruct (nodes_bytes (fst g')); done. }
    by rewrite IH.
  - eapply Forall_weaken; [|exact Hw]. intros [ns e] (Hn & Hs & He & Hee). cbn [fst snd] in *.
    unfold instance_node_iter, instance_bytes. cbn [fst snd].
    apply node_iter_collect_nodes; try done.
    + pose proof (nodes_bytes_length ns Hn). rewrite length_app. lia.
    + unfold node_iter_next. cbn [nodes stop_condition].
      destruct (node_bytes_not_nil e []) as (x & l & E). rewrite app_nil_r in E. rewrite E, <- E.
      rewrite <- (app_nil_r (node_bytes e)), node_from_ffi_ptr_node by done. cbn [obind].
      unfold is_end in Hee. by rewrite Hee.
Qed.

End roundtrip.

(** ** Parsing arbitrary bytes *)

Section soundness.
Context `{Profile}.

(** What the code does with a header whose length field is below its own size. *)
Definition short_node_outcome {A} : outcome A :=
  if overflow_checks then Panic Overflow else Undefined.

(** The bytes start with a header that claims fewer bytes than a header has. *)
Definition starts_with_short_node (bytes : list Z) : Prop :=
  exists h, read_header bytes = Ret h /\ header_length h < size_of_header.

Lemma read_header_cons a b c d k :
  read_header (a :: b :: c :: d :: k) = Ret (mkHeader a b [c; d]).
Proof.
  unfold read_header. rewrite read_raw_ok; [done|done|done|].
  rewrite !zlen_cons. pose proof (zlen_nonneg k). unfold size_of_header. lia.
Qed.

Lemma node_try_from_cases bytes :
  Forall is_u8 bytes -> zlen bytes <= isize_MAX ->
  node_try_from bytes = Ret (Err InvalidLength) \/
  (starts_with_short_node bytes /\ node_try_from bytes = short_node_outcome) \/
  (exists n k, node_wf n /\ bytes = node_bytes n ++ k /\ node_try_from bytes = Ret (Ok n)).
Proof.
  intros Hu Hl. unfold node_try_from, header_try_from.
  destruct (Z.leb_spec size_of_header (zlen bytes)) as [H4|]; [|by left].
  destruct bytes as [|a [|b [|c [|d k]]]]; try (unfold size_of_header, zlen in H4; simpl in H4; lia).
  rewrite read_header_cons. cbn [obind]. set (h := mkHeader a b [c; d]).
  destruct (Z.leb_spec (header_length h) (zlen (a :: b :: c :: d :: k))) as [Hh|]; [|by left].
  right. apply Forall_cons in Hu as [Ha Hu]. apply Forall_cons in Hu as [Hb Hu].
  apply Forall_cons in Hu as [Hc Hu]. apply Forall_cons in Hu as [Hd Hu].
  assert (0 <= header_length h) as Hpos.
  { apply (le_val_bound [c; d]). by rewrite !Forall_cons. }
  unfold node_from_ffi_ptr. rewrite read_header_cons. cbn [obind]. fold h.
  destruct (Z.lt_ge_cases (header_length h) size_of_header) as [Hs|Hs].
  - left. split; [exists h; split; [apply read_header_cons|done]|].
    unfold usize_sub, short_node_outcome. rewrite (proj2 (Z.leb_gt _ _)) by done.
    destruct overflow_checks; [done|]. cbn [obind]. unfold read_raw.
    assert (wrap 64 (header_length h - size_of_header) = header_length h - size_of_header + 2 ^ 64) as ->.
    { unfold wrap. symmetry. apply (Z.mod_unique _ _ (-1)); unfold size_of_header in *; lia. }
    rewrite (proj2 (Z.leb_gt (_ + _) _)); [by rewrite !andb_false_r|].
    unfold size_of_header, isize_MAX in *. lia.
  - right. rewrite usize_sub_ok by done. cbn [obind].
    rewrite !zlen_cons in Hh. unfold size_of_header in *.
    rewrite read_raw_ok by (rewrite ?zlen_cons; lia). cbn [obind].
    change (Z.to_nat 4) with 4%nat. cbn [drop]. rewrite drop_0.
    exists (mkNode h (take (Z.to_nat (header_length h - 4)) k)), (drop (Z.to_nat (header_length h - 4)) k).
    split; [|split; [|done]].
    + constructor; simpl; try done.
      * by rewrite !Forall_cons.
      * by apply Forall_take.
      * unfold node_length, zlen, size_of_header in *. cbn [header data]. rewrite length_take. lia.
    + unfold node_bytes, header_bytes. simpl. by rewrite take_drop.
Qed.

Lemma size_from_slice_cases fuel max bytes total :
  Forall is_u8 bytes -> (length bytes < fuel)%nat -> 0 <= total ->
  total + zlen bytes = max -> max <= isize_MAX ->
  let r := size_in_bytes_from_slice_loop fuel max bytes total in
  r = Ret (Err InvalidLength) \/
  (exists ns k, Forall node_wf ns /\ Forall (fun n => is_end_entire n = false) ns /\
     bytes = nodes_bytes ns ++ k /\ starts_with_short_node k /\ r = short_node_outcome) \/
  (exists ns e k, Forall node_wf ns /\ Forall (fun n => is_end_entire n = false) ns /\
     node_wf e /\ is_end_entire e = true /\ bytes = nodes_bytes ns ++ node_bytes e ++ k /\
     r = Ret (Ok (total + zlen (nodes_bytes ns ++ node_bytes e)))).
Proof.
  revert bytes total. induction fuel as [|fuel IH]; intros bytes total Hu Hf Ht Hm Hx r; [lia|].
  subst r. cbn [size_in_bytes_from_slice_loop].
  destruct (node_try_from_cases bytes) as [->|[[Hs ->]|(n & k & Hn & -> & ->)]]; [done|lia| | |].
  - by left.
  - right; left. exists [], bytes. unfold short_node_outcome. by destruct overflow_checks.
  - cbn [obind]. pose proof (node_bytes_length n Hn) as Hz. pose proof (node_length_bounds n Hn).
    rewrite zlen_app in Hm. pose proof (zlen_nonneg k). unfold isize_MAX in Hx.
    rewrite usize_add_ok by lia. cbn [obind]. rewrite (proj2 (Z.ltb_ge _ _)) by lia.
    destruct (is_end_entire n) eqn:He.
    { right; right. exists [], n, k. simpl. by rewrite Hz. }
    rewrite slice_after_node by done. cbn [obind].
    apply Forall_app in Hu as [_ Hu]. rewrite length_app in Hf.
    pose proof Hz as Hz'. unfold zlen in Hz'.
    specialize (IH k (total + node_length n) Hu ltac:(lia) ltac:(lia) ltac:(lia) Hx).
    destruct IH as [->|[(ns & k' & K1 & K2 & -> & K4 & ->)|(ns & e & k' & K1 & K2 & K3 & K4 & -> & ->)]].
    + by left.
    + right; left. exists (n :: ns), k'. rewrite nodes_bytes_cons. repeat split; auto.
    + right; right. exists (n :: ns), e, k'. rewrite !nodes_bytes_cons.
      do 5 (split; [by auto|]). rewrite (zlen_app (node_bytes n)), Hz. do 2 f_equal. lia.
Qed.


End soundness.

(** A four-byte slice whose length field is zero is neither accepted nor
    rejected: the payload length underflows. *)
Theorem short_node_is_not_an_error :
  node_try_from (H := debug_profile) [0x7F; 0xFF; 0; 0] = Panic Overflow /\
  node_try_from (H := release_profile) [0x7F; 0xFF; 0; 0] = Undefined /\
  path_try_from (H := release_profile) [0x7F; 0xFF; 0; 0] = Undefined.
Proof. by vm_compute. Qed.

(** ** Examples *)

Definition example_pci : DevicePathNode := make_node DeviceType_HARDWARE 1 [0; 0x1f].
Definition example_acpi : DevicePathNode := make_node DeviceType_ACPI 1 [3; 10; 208; 65; 0; 0; 0; 0].

Lemma example_nodes_wf : node_wf example_pci /\ node_wf example_acpi /\ node_wf end_instance.
Proof. repeat split; try (vm_compute; first [reflexivity|discriminate]); by_decide. Defined.

Lemma device_path_roundtrip_witness :
  path_try_from (H := release_profile)
    ((nodes_bytes [example_acpi; example_pci] ++ node_bytes end_entire) ++ [1; 2; 3]) =
  Ret (Ok (nodes_bytes [example_acpi; example_pci] ++ node_bytes end_entire)).
Proof.
  destruct example_nodes_wf as (Hp & Ha & _).
  exact (proj1 (@device_path_roundtrip release_profile [example_acpi; example_pci] end_entire [1; 2; 3]
    ltac:(by rewrite !Forall_cons) ltac:(by rewrite !Forall_cons) end_entire_wf eq_refl
    ltac:(by vm_compute))).
Defined.

Lemma instance_iter_groups_witness :
  instance_iter_collect (H := release_profile) 3
    (instance_iter (concat (map instance_bytes [([example_acpi], end_instance); ([example_pci], end_entire)]))) =
  Ret (map instance_bytes [([example_acpi], end_instance); ([example_pci], end_entire)]).
Proof.
  destruct example_nodes_wf as (Hp & Ha & Hi).
  refine (proj1 (@instance_iter_groups release_profile
    [([example_acpi], end_instance); ([example_pci], end_entire)] _ _ _)).
  - pose proof end_entire_wf. unfold instance_wf. rewrite !Forall_cons; simpl; by rewrite !Forall_cons.
  - discriminate.
  - by vm_compute.
Defined.

