(* ===== verification/DevicePathNodes.v ===== *)
(** * Device path node types: [uefi/src/proto/device_path/device_path_gen.rs]

    The node types are packed structs that differ only in their field lists.
    Each struct is a [node_struct] value with the field names and types of the
    source; each [TryFrom<&DevicePathNode>] is one of the two conversion schemes
    of the source applied to the constants written there; and
    [DevicePathNodeEnum_try_from] is the dispatch over all of them.  A
    conversion reinterprets the bytes of a node by reading every field at its
    packed offset, so that a wrong size constant is a read out of bounds. *)
From stdpp Require Import strings.
From S2P Require Import Prelude DevicePath.
#[local] Open Scope string_scope.
#[local] Open Scope Z_scope.
#[local] Open Scope list_scope.

Module NodeConversionError.
Inductive t : Set := DifferentType | InvalidLength | UnsupportedType.
End NodeConversionError.

(** ** Field types and their packed representation *)

Inductive fty : Set := U8 | U16 | U32 | U64 | Arr (n : nat).

Definition size_of_ty (ty : fty) : nat :=
  match ty with U8 => 1 | U16 => 2 | U32 => 4 | U64 => 8 | Arr n => n end.

Definition is_scalar_ty (ty : fty) : bool := match ty with Arr _ => false | _ => true end.

Inductive fval : Set := VInt (z : Z) | VArr (bs : list Z).

Definition val_ok (ty : fty) (v : fval) : Prop :=
  match v with
  | VInt z => is_scalar_ty ty = true /\ in_width (8 * Z.of_nat (size_of_ty ty)) z
  | VArr bs => ty = Arr (length bs) /\ Forall is_u8 bs
  end.

Definition enc_val (ty : fty) (v : fval) : list Z :=
  match v with VInt z => le_bytes (size_of_ty ty) z | VArr bs => bs end.

Definition dec_val (ty : fty) (bs : list Z) : fval :=
  if is_scalar_ty ty then VInt (le_val bs) else VArr bs.

(** ** Packed structs *)

Record node_struct : Type := mkStruct {
  fields : list (string * fty);
  dst : option (string * fty);
}.

(** A typed reference to a node: the values of the fields and of the elements
    of the trailing slice. *)
Record node_view : Type := mkView {
  v_fields : list (string * fval);
  v_dst : option (string * list fval);
}.

Fixpoint fields_size (fs : list (string * fty)) : Z :=
  match fs with
  | [] => 0
  | (_, ty) :: fs => Z.of_nat (size_of_ty ty) + fields_size fs
  end.

(** The size of the struct without its trailing slice. *)
Definition size_of_struct (s : node_struct) : Z := size_of_header + fields_size (fields s).

Fixpoint read_fields (mem : list Z) (off : Z) (fs : list (string * fty))
  : outcome (list (string * fval)) :=
  match fs with
  | [] => Ret []
  | (nm, ty) :: fs =>
      let size := Z.of_nat (size_of_ty ty) in
      let! bs := read_raw mem off size in
      let! vs := read_fields mem (off + size) fs in
      Ret ((nm, dec_val ty bs) :: vs)
  end.

Fixpoint read_elems (mem : list Z) (off : Z) (ty : fty) (n : nat) : outcome (list fval) :=
  match n with
  | O => Ret []
  | S n =>
      let size := Z.of_nat (size_of_ty ty) in
      let! bs := read_raw mem off size in
      let! vs := read_elems mem (off + size) ty n in
      Ret (dec_val ty bs :: vs)
  end.

(** The cast of the node pointer to a pointer to the struct with [n] trailing
    elements, and the reads through it. *)
Definition cast_struct (s : node_struct) (n : Z) (mem : list Z) : outcome node_view :=
  let! fs := read_fields mem size_of_header (fields s) in
  let! d := match dst s with
            | None => Ret None
            | Some (nm, ty) =>
                let! vs := read_elems mem (size_of_struct s) ty (Z.to_nat n) in
                Ret (Some (nm, vs))
            end in
  Ret (mkView fs d).

(** [size_of_val(node)]. *)
Definition node_size_of_val (n : DevicePathNode) : Z := size_of_header + zlen (data n).

Abbreviation conversion := (DevicePathNode -> outcome (result node_view NodeConversionError.t)).

(** [TryFrom<&DevicePathNode>] for a struct without trailing slice. *)
Definition try_from_sized (dt st : Z) (s : node_struct) : conversion := fun node =>
  if negb (device_type node =? dt) || negb (node_sub_type node =? st)
  then Ret (Err NodeConversionError.DifferentType)
  else if negb (node_size_of_val node =? size_of_struct s)
  then Ret (Err NodeConversionError.InvalidLength)
  else
    let! v := cast_struct s 0 (node_bytes node) in
    Ret (Ok v).

(** [TryFrom<&DevicePathNode>] for a struct with trailing slice: [static_size]
    is the literal of the source, [elem] the type named in [elem_size]. *)
Definition try_from_dst (dt st static_size : Z) (elem : fty) (s : node_struct) : conversion := fun node =>
  if negb (device_type node =? dt) || negb (node_sub_type node =? st)
  then Ret (Err NodeConversionError.DifferentType)
  else
    let size := node_size_of_val node in
    if size <? static_size then Ret (Err NodeConversionError.InvalidLength)
    else
      let dst_size := size - static_size in
      let elem_size := Z.of_nat (size_of_ty elem) in
      let! r := usize_rem dst_size elem_size in
      if negb (r =? 0) then Ret (Err NodeConversionError.InvalidLength)
      else
        let! n := usize_div dst_size elem_size in
        let! v := cast_struct s n (node_bytes node) in
        Ret (Ok v).

(** ** [DeviceSubType] *)

Definition DeviceSubType_HARDWARE_PCI : Z := 1.
Definition DeviceSubType_HARDWARE_PCCARD : Z := 2.
Definition DeviceSubType_HARDWARE_MEMORY_MAPPED : Z := 3.
Definition DeviceSubType_HARDWARE_VENDOR : Z := 4.
Definition DeviceSubType_HARDWARE_CONTROLLER : Z := 5.
Definition DeviceSubType_HARDWARE_BMC : Z := 6.
Definition DeviceSubType_ACPI : Z := 1.
Definition DeviceSubType_ACPI_EXPANDED : Z := 2.
Definition DeviceSubType_ACPI_ADR : Z := 3.
Definition DeviceSubType_ACPI_NVDIMM : Z := 4.
Definition DeviceSubType_MESSAGING_ATAPI : Z := 1.
Definition DeviceSubType_MESSAGING_SCSI : Z := 2.
Definition DeviceSubType_MESSAGING_FIBRE_CHANNEL : Z := 3.
Definition DeviceSubType_MESSAGING_1394 : Z := 4.
Definition DeviceSubType_MESSAGING_USB : Z := 5.
Definition DeviceSubType_MESSAGING_I2O : Z := 6.
Definition DeviceSubType_MESSAGING_INFINIBAND : Z := 9.
Definition DeviceSubType_MESSAGING_VENDOR : Z := 10.
Definition DeviceSubType_MESSAGING_MAC_ADDRESS : Z := 11.
Definition DeviceSubType_MESSAGING_IPV4 : Z := 12.
Definition DeviceSubType_MESSAGING_IPV6 : Z := 13.
Definition DeviceSubType_MESSAGING_UART : Z := 14.
Definition DeviceSubType_MESSAGING_USB_CLASS : Z := 15.
Definition DeviceSubType_MESSAGING_USB_WWID : Z := 16.
Definition DeviceSubType_MESSAGING_DEVICE_LOGICAL_UNIT : Z := 17.
Definition DeviceSubType_MESSAGING_SATA : Z := 18.
Definition DeviceSubType_MESSAGING_ISCSI : Z := 19.
Definition DeviceSubType_MESSAGING_VLAN : Z := 20.
Definition DeviceSubType_MESSAGING_FIBRE_CHANNEL_EX : Z := 21.
Definition DeviceSubType_MESSAGING_SCSI_SAS_EX : Z := 22.
Definition DeviceSubType_MESSAGING_NVME_NAMESPACE : Z := 23.
Definition DeviceSubType_MESSAGING_URI : Z := 24.
Definition DeviceSubType_MESSAGING_UFS : Z := 25.
Definition DeviceSubType_MESSAGING_SD : Z := 26.
Definition DeviceSubType_MESSAGING_BLUETOOTH : Z := 27.
Definition DeviceSubType_MESSAGING_WIFI : Z := 28.
Definition DeviceSubType_MESSAGING_EMMC : Z := 29.
Definition DeviceSubType_MESSAGING_BLUETOOTH_LE : Z := 30.
Definition DeviceSubType_MESSAGING_DNS : Z := 31.
Definition DeviceSubType_MESSAGING_NVDIMM_NAMESPACE : Z := 32.
Definition DeviceSubType_MESSAGING_REST_SERVICE : Z := 33.
Definition DeviceSubType_MESSAGING_NVME_OF_NAMESPACE : Z := 34.
Definition DeviceSubType_MEDIA_HARD_DRIVE : Z := 1.
Definition DeviceSubType_MEDIA_CD_ROM : Z := 2.
Definition DeviceSubType_MEDIA_VENDOR : Z := 3.
Definition DeviceSubType_MEDIA_FILE_PATH : Z := 4.
Definition DeviceSubType_MEDIA_PROTOCOL : Z := 5.
Definition DeviceSubType_MEDIA_PIWG_FIRMWARE_FILE : Z := 6.
Definition DeviceSubType_MEDIA_PIWG_FIRMWARE_VOLUME : Z := 7.
Definition DeviceSubType_MEDIA_RELATIVE_OFFSET_RANGE : Z := 8.
Definition DeviceSubType_MEDIA_RAM_DISK : Z := 9.
Definition DeviceSubType_BIOS_BOOT_SPECIFICATION : Z := 1.

(** ** Field types named in the source

    The enumerations are transparent wrappers of their base type: any value of
    the base type is a value of the enumeration. *)

Definition Guid : fty := Arr 16.
Definition IpAddress : fty := Arr 16.
Definition MemoryType : fty := U32.
Definition BmcInterfaceType : fty := U8.
Definition PrimarySecondary : fty := U8.
Definition MasterSlave : fty := U8.
Definition Ipv4AddressOrigin : fty := U8.
Definition Ipv6AddressOrigin : fty := U8.
Definition InfinibandResourceFlags : fty := U32.
Definition Parity : fty := U8.
Definition StopBits : fty := U8.
Definition IscsiProtocol : fty := U16.
Definition IscsiLoginOptions : fty := U16.
Definition BluetoothLeAddressType : fty := U8.
Definition DnsAddressType : fty := U8.
Definition RestServiceType : fty := U8.
Definition RestServiceAccessMode : fty := U8.
Definition PartitionFormat : fty := U8.
Definition RamDiskType : fty := Guid.

(** ** Module [end] *)

Definition EndInstance : node_struct := mkStruct [] None.
Definition EndInstance_try_from : conversion := try_from_sized DeviceType_END
  DeviceSubType_END_INSTANCE EndInstance.

Definition EndEntire : node_struct := mkStruct [] None.
Definition EndEntire_try_from : conversion := try_from_sized DeviceType_END
  DeviceSubType_END_ENTIRE EndEntire.

(** ** Module [hardware] *)

Definition HardwarePci : node_struct := mkStruct [("function", U8); ("device", U8)] None.
Definition HardwarePci_try_from : conversion := try_from_sized DeviceType_HARDWARE
  DeviceSubType_HARDWARE_PCI HardwarePci.

Definition HardwarePccard : node_struct := mkStruct [("function", U8)] None.
Definition HardwarePccard_try_from : conversion := try_from_sized DeviceType_HARDWARE
  DeviceSubType_HARDWARE_PCCARD HardwarePccard.

Definition HardwareMemoryMapped : node_struct := mkStruct [("memory_type", MemoryType);
  ("start_address", U64); ("end_address", U64)] None.
Definition HardwareMemoryMapped_try_from : conversion := try_from_sized DeviceType_HARDWARE
  DeviceSubType_HARDWARE_MEMORY_MAPPED HardwareMemoryMapped.

Definition HardwareVendor : node_struct := mkStruct [("vendor_guid", Guid)]
  (Some ("vendor_defined_data", U8)).
Definition HardwareVendor_try_from : conversion := try_from_dst DeviceType_HARDWARE
  DeviceSubType_HARDWARE_VENDOR 20 U8 HardwareVendor.

Definition HardwareController : node_struct := mkStruct [("controller_number", U32)] None.
Definition HardwareController_try_from : conversion := try_from_sized DeviceType_HARDWARE
  DeviceSubType_HARDWARE_CONTROLLER HardwareController.

Definition HardwareBmc : node_struct := mkStruct [("interface_type", BmcInterfaceType);
  ("base_address", U64)] None.
Definition HardwareBmc_try_from : conversion := try_from_sized DeviceType_HARDWARE
  DeviceSubType_HARDWARE_BMC HardwareBmc.

(** ** Module [acpi] *)

Definition AcpiAcpi : node_struct := mkStruct [("hid", U32); ("uid", U32)] None.
Definition AcpiAcpi_try_from : conversion := try_from_sized DeviceType_ACPI DeviceSubType_ACPI
  AcpiAcpi.

Definition AcpiExpanded : node_struct := mkStruct [("hid", U32); ("uid", U32); ("cid", U32)]
  (Some ("data", U8)).
Definition AcpiExpanded_try_from : conversion := try_from_dst DeviceType_ACPI
  DeviceSubType_ACPI_EXPANDED 16 U8 AcpiExpanded.

Definition AcpiAdr : node_struct := mkStruct [] (Some ("adr", U32)).
Definition AcpiAdr_try_from : conversion := try_from_dst DeviceType_ACPI DeviceSubType_ACPI_ADR
  4 U32 AcpiAdr.

Definition AcpiNvdimm : node_struct := mkStruct [("nfit_device_handle", U32)] None.
Definition AcpiNvdimm_try_from : conversion := try_from_sized DeviceType_ACPI
  DeviceSubType_ACPI_NVDIMM AcpiNvdimm.

(** ** Module [messaging] *)

Definition MessagingAtapi : node_struct := mkStruct [("primary_secondary", PrimarySecondary);
  ("master_slave", MasterSlave); ("logical_unit_number", U16)] None.
Definition MessagingAtapi_try_from : conversion := try_from_sized DeviceType_MESSAGING
  DeviceSubType_MESSAGING_ATAPI MessagingAtapi.

Definition MessagingScsi : node_struct := mkStruct [("target_id", U16);
  ("logical_unit_number", U16)] None.
Definition MessagingScsi_try_from : conversion := try_from_sized DeviceType_MESSAGING
  DeviceSubType_MESSAGING_SCSI MessagingScsi.

Definition MessagingFibreChannel : node_struct := mkStruct [("_reserved", U32);
  ("world_wide_name", U64); ("logical_unit_number", U64)] None.
Definition MessagingFibreChannel_try_from : conversion := try_from_sized DeviceType_MESSAGING
  DeviceSubType_MESSAGING_FIBRE_CHANNEL MessagingFibreChannel.

Definition MessagingFibreChannelEx : node_struct := mkStruct [("_reserved", U32);
  ("world_wide_name", Arr 8); ("logical_unit_number", Arr 8)] None.
Definition MessagingFibreChannelEx_try_from : conversion := try_from_sized DeviceType_MESSAGING
  DeviceSubType_MESSAGING_FIBRE_CHANNEL_EX MessagingFibreChannelEx.

Definition MessagingIeee1394 : node_struct := mkStruct [("_reserved", U32); ("guid", Arr 8)]
  None.
Definition MessagingIeee1394_try_from : conversion := try_from_sized DeviceType_MESSAGING
  DeviceSubType_MESSAGING_1394 MessagingIeee1394.

Definition MessagingUsb : node_struct := mkStruct [("parent_port_number", U8);
  ("interface", U8)] None.
Definition MessagingUsb_try_from : conversion := try_from_sized DeviceType_MESSAGING
  DeviceSubType_MESSAGING_USB MessagingUsb.

Definition MessagingSata : node_struct := mkStruct [("hba_port_number", U16);
  ("port_multiplier_port_number", U16); ("logical_unit_number", U16)] None.
Definition MessagingSata_try_from : conversion := try_from_sized DeviceType_MESSAGING
  DeviceSubType_MESSAGING_SATA MessagingSata.

Definition MessagingUsbWwid : node_struct := mkStruct [("interface_number", U16);
  ("device_vendor_id", U16); ("device_product_id", U16)] (Some ("serial_number", U16)).
Definition MessagingUsbWwid_try_from : conversion := try_from_dst DeviceType_MESSAGING
  DeviceSubType_MESSAGING_USB_WWID 10 U16 MessagingUsbWwid.

Definition MessagingDeviceLogicalUnit : node_struct := mkStruct [("logical_unit_number", U8)]
  None.
Definition MessagingDeviceLogicalUnit_try_from : conversion := try_from_sized
  DeviceType_MESSAGING DeviceSubType_MESSAGING_DEVICE_LOGICAL_UNIT MessagingDeviceLogicalUnit.

Definition MessagingUsbClass : node_struct := mkStruct [("vendor_id", U16); ("product_id", U16);
  ("device_class", U8); ("device_subclass", U8); ("device_protocol", U8)] None.
Definition MessagingUsbClass_try_from : conversion := try_from_sized DeviceType_MESSAGING
  DeviceSubType_MESSAGING_USB_CLASS MessagingUsbClass.

Definition MessagingI2o : node_struct := mkStruct [("target_id", U32)] None.
Definition MessagingI2o_try_from : conversion := try_from_sized DeviceType_MESSAGING
  DeviceSubType_MESSAGING_I2O MessagingI2o.

Definition MessagingMacAddress : node_struct := mkStruct [("mac_address", Arr 32);
  ("interface_type", U8)] None.
Definition MessagingMacAddress_try_from : conversion := try_from_sized DeviceType_MESSAGING
  DeviceSubType_MESSAGING_MAC_ADDRESS MessagingMacAddress.

Definition MessagingIpv4 : node_struct := mkStruct [("local_ip_address", Arr 4);
  ("remote_ip_address", Arr 4); ("local_port", U16); ("remote_port", U16); ("protocol", U16);
  ("ip_address_origin", Ipv4AddressOrigin); ("gateway_ip_address", Arr 4);
  ("subnet_mask", Arr 4)] None.
Definition MessagingIpv4_try_from : conversion := try_from_sized DeviceType_MESSAGING
  DeviceSubType_MESSAGING_IPV4 MessagingIpv4.

Definition MessagingIpv6 : node_struct := mkStruct [("local_ip_address", Arr 16);
  ("remote_ip_address", Arr 16); ("local_port", U16); ("remote_port", U16); ("protocol", U16);
  ("ip_address_origin", Ipv6AddressOrigin); ("prefix_length", U8);
  ("gateway_ip_address", Arr 16)] None.
Definition MessagingIpv6_try_from : conversion := try_from_sized DeviceType_MESSAGING
  DeviceSubType_MESSAGING_IPV6 MessagingIpv6.

Definition MessagingVlan : node_struct := mkStruct [("vlan_id", U16)] None.
Definition MessagingVlan_try_from : conversion := try_from_sized DeviceType_MESSAGING
  DeviceSubType_MESSAGING_VLAN MessagingVlan.

Definition MessagingInfiniband : node_struct := mkStruct
  [("resource_flags", InfinibandResourceFlags); ("port_gid", Arr 16);
  ("ioc_guid_or_service_id", U64); ("target_port_id", U64); ("device_id", U64)] None.
Definition MessagingInfiniband_try_from : conversion := try_from_sized DeviceType_MESSAGING
  DeviceSubType_MESSAGING_INFINIBAND MessagingInfiniband.

Definition MessagingUart : node_struct := mkStruct [("_reserved", U32); ("baud_rate", U64);
  ("data_bits", U8); ("parity", Parity); ("stop_bits", StopBits)] None.
Definition MessagingUart_try_from : conversion := try_from_sized DeviceType_MESSAGING
  DeviceSubType_MESSAGING_UART MessagingUart.

Definition MessagingVendor : node_struct := mkStruct [("vendor_guid", Guid)]
  (Some ("vendor_defined_data", U8)).
Definition MessagingVendor_try_from : conversion := try_from_dst DeviceType_MESSAGING
  DeviceSubType_MESSAGING_VENDOR 20 U8 MessagingVendor.

Definition MessagingSasEx : node_struct := mkStruct [("sas_address", Arr 8);
  ("logical_unit_number", Arr 8); ("info", U16); ("relative_target_port", U16)] None.
Definition MessagingSasEx_try_from : conversion := try_from_sized DeviceType_MESSAGING
  DeviceSubType_MESSAGING_SCSI_SAS_EX MessagingSasEx.

Definition MessagingIscsi : node_struct := mkStruct [("protocol", IscsiProtocol);
  ("options", IscsiLoginOptions); ("logical_unit_number", Arr 8);
  ("target_portal_group_tag", U16)] (Some ("iscsi_target_name", U8)).
Definition MessagingIscsi_try_from : conversion := try_from_dst DeviceType_MESSAGING
  DeviceSubType_MESSAGING_ISCSI 18 U8 MessagingIscsi.

Definition MessagingNvmeNamespace : node_struct := mkStruct [("namespace_identifier", U32);
  ("ieee_extended_unique_identifier", U64)] None.
Definition MessagingNvmeNamespace_try_from : conversion := try_from_sized DeviceType_MESSAGING
  DeviceSubType_MESSAGING_NVME_NAMESPACE MessagingNvmeNamespace.

Definition MessagingUri : node_struct := mkStruct [] (Some ("value", U8)).
Definition MessagingUri_try_from : conversion := try_from_dst DeviceType_MESSAGING
  DeviceSubType_MESSAGING_URI 4 U8 MessagingUri.

Definition MessagingUfs : node_struct := mkStruct [("target_id", U8);
  ("logical_unit_number", U8)] None.
Definition MessagingUfs_try_from : conversion := try_from_sized DeviceType_MESSAGING
  DeviceSubType_MESSAGING_UFS MessagingUfs.

Definition MessagingSd : node_struct := mkStruct [("slot_number", U8)] None.
Definition MessagingSd_try_from : conversion := try_from_sized DeviceType_MESSAGING
  DeviceSubType_MESSAGING_SD MessagingSd.

Definition MessagingBluetooth : node_struct := mkStruct [("device_address", Arr 6)] None.
Definition MessagingBluetooth_try_from : conversion := try_from_sized DeviceType_MESSAGING
  DeviceSubType_MESSAGING_BLUETOOTH MessagingBluetooth.

Definition MessagingWifi : node_struct := mkStruct [("ssid", Arr 32)] None.
Definition MessagingWifi_try_from : conversion := try_from_sized DeviceType_MESSAGING
  DeviceSubType_MESSAGING_WIFI MessagingWifi.

Definition MessagingEmmc : node_struct := mkStruct [("slot_number", U8)] None.
Definition MessagingEmmc_try_from : conversion := try_from_sized DeviceType_MESSAGING
  DeviceSubType_MESSAGING_EMMC MessagingEmmc.

Definition MessagingBluetoothLe : node_struct := mkStruct [("device_address", Arr 6);
  ("address_type", BluetoothLeAddressType)] None.
Definition MessagingBluetoothLe_try_from : conversion := try_from_sized DeviceType_MESSAGING
  DeviceSubType_MESSAGING_BLUETOOTH_LE MessagingBluetoothLe.

Definition MessagingDns : node_struct := mkStruct [("address_type", DnsAddressType)]
  (Some ("addresses", IpAddress)).
Definition MessagingDns_try_from : conversion := try_from_dst DeviceType_MESSAGING
  DeviceSubType_MESSAGING_DNS 5 IpAddress MessagingDns.

Definition MessagingNvdimmNamespace : node_struct := mkStruct [("uuid", Arr 16)] None.
Definition MessagingNvdimmNamespace_try_from : conversion := try_from_sized DeviceType_MESSAGING
  DeviceSubType_MESSAGING_NVDIMM_NAMESPACE MessagingNvdimmNamespace.

Definition MessagingRestService : node_struct := mkStruct [("service_type", RestServiceType);
  ("access_mode", RestServiceAccessMode)] (Some ("vendor_guid_and_data", U8)).
Definition MessagingRestService_try_from : conversion := try_from_dst DeviceType_MESSAGING
  DeviceSubType_MESSAGING_REST_SERVICE 6 U8 MessagingRestService.

Definition MessagingNvmeOfNamespace : node_struct := mkStruct [("nidt", U8); ("nid", Arr 16)]
  (Some ("subsystem_nqn", U8)).
Definition MessagingNvmeOfNamespace_try_from : conversion := try_from_dst DeviceType_MESSAGING
  DeviceSubType_MESSAGING_NVME_OF_NAMESPACE 21 U8 MessagingNvmeOfNamespace.

(** ** Module [media] *)

Definition MediaHardDrive : node_struct := mkStruct [("partition_number", U32);
  ("partition_start", U64); ("partition_size", U64); ("partition_signature", Arr 16);
  ("partition_format", PartitionFormat); ("signature_type", U8)] None.
Definition MediaHardDrive_try_from : conversion := try_from_sized DeviceType_MEDIA
  DeviceSubType_MEDIA_HARD_DRIVE MediaHardDrive.

Definition MediaCdRom : node_struct := mkStruct [("boot_entry", U32); ("partition_start", U64);
  ("partition_size", U64)] None.
Definition MediaCdRom_try_from : conversion := try_from_sized DeviceType_MEDIA
  DeviceSubType_MEDIA_CD_ROM MediaCdRom.

Definition MediaVendor : node_struct := mkStruct [("vendor_guid", Guid)]
  (Some ("vendor_defined_data", U8)).
Definition MediaVendor_try_from : conversion := try_from_dst DeviceType_MEDIA
  DeviceSubType_MEDIA_VENDOR 20 U8 MediaVendor.

Definition MediaFilePath : node_struct := mkStruct [] (Some ("path_name", U16)).
Definition MediaFilePath_try_from : conversion := try_from_dst DeviceType_MEDIA
  DeviceSubType_MEDIA_FILE_PATH 4 U16 MediaFilePath.

Definition MediaProtocol : node_struct := mkStruct [("protocol_guid", Guid)] None.
Definition MediaProtocol_try_from : conversion := try_from_sized DeviceType_MEDIA
  DeviceSubType_MEDIA_PROTOCOL MediaProtocol.

Definition MediaPiwgFirmwareFile : node_struct := mkStruct [] (Some ("data", U8)).
Definition MediaPiwgFirmwareFile_try_from : conversion := try_from_dst DeviceType_MEDIA
  DeviceSubType_MEDIA_PIWG_FIRMWARE_FILE 4 U8 MediaPiwgFirmwareFile.

Definition MediaPiwgFirmwareVolume : node_struct := mkStruct [] (Some ("data", U8)).
Definition MediaPiwgFirmwareVolume_try_from : conversion := try_from_dst DeviceType_MEDIA
  DeviceSubType_MEDIA_PIWG_FIRMWARE_VOLUME 4 U8 MediaPiwgFirmwareVolume.

Definition MediaRelativeOffsetRange : node_struct := mkStruct [("_reserved", U32);
  ("starting_offset", U64); ("ending_offset", U64)] None.
Definition MediaRelativeOffsetRange_try_from : conversion := try_from_sized DeviceType_MEDIA
  DeviceSubType_MEDIA_RELATIVE_OFFSET_RANGE MediaRelativeOffsetRange.

Definition MediaRamDisk : node_struct := mkStruct [("starting_address", U64);
  ("ending_address", U64); ("disk_type", RamDiskType); ("disk_instance", U16)] None.
Definition MediaRamDisk_try_from : conversion := try_from_sized DeviceType_MEDIA
  DeviceSubType_MEDIA_RAM_DISK MediaRamDisk.

(** ** Module [bios_boot_spec] *)

Definition BiosBootSpecBootSpecification : node_struct := mkStruct [("device_type", U16);
  ("status_flag", U16)] (Some ("description_string", U8)).
Definition BiosBootSpecBootSpecification_try_from : conversion := try_from_dst
  DeviceType_BIOS_BOOT_SPEC DeviceSubType_BIOS_BOOT_SPECIFICATION 8 U8
  BiosBootSpecBootSpecification.

(** ** [DevicePathNodeEnum] *)

Definition node_enum_arms : list ((Z * Z) * (string * conversion)) :=
  [ ((DeviceType_END, DeviceSubType_END_INSTANCE), ("EndInstance", EndInstance_try_from))
  ; ((DeviceType_END, DeviceSubType_END_ENTIRE), ("EndEntire", EndEntire_try_from))
  ; ((DeviceType_HARDWARE, DeviceSubType_HARDWARE_PCI), ("HardwarePci", HardwarePci_try_from))
  ; ((DeviceType_HARDWARE, DeviceSubType_HARDWARE_PCCARD), ("HardwarePccard", HardwarePccard_try_from))
  ; ((DeviceType_HARDWARE, DeviceSubType_HARDWARE_MEMORY_MAPPED), ("HardwareMemoryMapped", HardwareMemoryMapped_try_from))
  ; ((DeviceType_HARDWARE, DeviceSubType_HARDWARE_VENDOR), ("HardwareVendor", HardwareVendor_try_from))
  ; ((DeviceType_HARDWARE, DeviceSubType_HARDWARE_CONTROLLER), ("HardwareController", HardwareController_try_from))
  ; ((DeviceType_HARDWARE, DeviceSubType_HARDWARE_BMC), ("HardwareBmc", HardwareBmc_try_from))
  ; ((DeviceType_ACPI, DeviceSubType_ACPI), ("AcpiAcpi", AcpiAcpi_try_from))
  ; ((DeviceType_ACPI, DeviceSubType_ACPI_EXPANDED), ("AcpiExpanded", AcpiExpanded_try_from))
  ; ((DeviceType_ACPI, DeviceSubType_ACPI_ADR), ("AcpiAdr", AcpiAdr_try_from))
  ; ((DeviceType_ACPI, DeviceSubType_ACPI_NVDIMM), ("AcpiNvdimm", AcpiNvdimm_try_from))
  ; ((DeviceType_MESSAGING, DeviceSubType_MESSAGING_ATAPI), ("MessagingAtapi", MessagingAtapi_try_from))
  ; ((DeviceType_MESSAGING, DeviceSubType_MESSAGING_SCSI), ("MessagingScsi", MessagingScsi_try_from))
  ; ((DeviceType_MESSAGING, DeviceSubType_MESSAGING_FIBRE_CHANNEL), ("MessagingFibreChannel", MessagingFibreChannel_try_from))
  ; ((DeviceType_MESSAGING, DeviceSubType_MESSAGING_FIBRE_CHANNEL_EX), ("MessagingFibreChannelEx", MessagingFibreChannelEx_try_from))
  ; ((DeviceType_MESSAGING, DeviceSubType_MESSAGING_1394), ("MessagingIeee1394", MessagingIeee1394_try_from))
  ; ((DeviceType_MESSAGING, DeviceSubType_MESSAGING_USB), ("MessagingUsb", MessagingUsb_try_from))
  ; ((DeviceType_MESSAGING, DeviceSubType_MESSAGING_SATA), ("MessagingSata", MessagingSata_try_from))
  ; ((DeviceType_MESSAGING, DeviceSubType_MESSAGING_USB_WWID), ("MessagingUsbWwid", MessagingUsbWwid_try_from))
  ; ((DeviceType_MESSAGING, DeviceSubType_MESSAGING_DEVICE_LOGICAL_UNIT), ("MessagingDeviceLogicalUnit", MessagingDeviceLogicalUnit_try_from))
  ; ((DeviceType_MESSAGING, DeviceSubType_MESSAGING_USB_CLASS), ("MessagingUsbClass", MessagingUsbClass_try_from))
  ; ((DeviceType_MESSAGING, DeviceSubType_MESSAGING_I2O), ("MessagingI2o", MessagingI2o_try_from))
  ; ((DeviceType_MESSAGING, DeviceSubType_MESSAGING_MAC_ADDRESS), ("MessagingMacAddress", MessagingMacAddress_try_from))
  ; ((DeviceType_MESSAGING, DeviceSubType_MESSAGING_IPV4), ("MessagingIpv4", MessagingIpv4_try_from))
  ; ((DeviceType_MESSAGING, DeviceSubType_MESSAGING_IPV6), ("MessagingIpv6", MessagingIpv6_try_from))
  ; ((DeviceType_MESSAGING, DeviceSubType_MESSAGING_VLAN), ("MessagingVlan", MessagingVlan_try_from))
  ; ((DeviceType_MESSAGING, DeviceSubType_MESSAGING_INFINIBAND), ("MessagingInfiniband", MessagingInfiniband_try_from))
  ; ((DeviceType_MESSAGING, DeviceSubType_MESSAGING_UART), ("MessagingUart", MessagingUart_try_from))
  ; ((DeviceType_MESSAGING, DeviceSubType_MESSAGING_VENDOR), ("MessagingVendor", MessagingVendor_try_from))
  ; ((DeviceType_MESSAGING, DeviceSubType_MESSAGING_SCSI_SAS_EX), ("MessagingSasEx", MessagingSasEx_try_from))
  ; ((DeviceType_MESSAGING, DeviceSubType_MESSAGING_ISCSI), ("MessagingIscsi", MessagingIscsi_try_from))
  ; ((DeviceType_MESSAGING, DeviceSubType_MESSAGING_NVME_NAMESPACE), ("MessagingNvmeNamespace", MessagingNvmeNamespace_try_from))
  ; ((DeviceType_MESSAGING, DeviceSubType_MESSAGING_URI), ("MessagingUri", MessagingUri_try_from))
  ; ((DeviceType_MESSAGING, DeviceSubType_MESSAGING_UFS), ("MessagingUfs", MessagingUfs_try_from))
  ; ((DeviceType_MESSAGING, DeviceSubType_MESSAGING_SD), ("MessagingSd", MessagingSd_try_from))
  ; ((DeviceType_MESSAGING, DeviceSubType_MESSAGING_BLUETOOTH), ("MessagingBluetooth", MessagingBluetooth_try_from))
  ; ((DeviceType_MESSAGING, DeviceSubType_MESSAGING_WIFI), ("MessagingWifi", MessagingWifi_try_from))
  ; ((DeviceType_MESSAGING, DeviceSubType_MESSAGING_EMMC), ("MessagingEmmc", MessagingEmmc_try_from))
  ; ((DeviceType_MESSAGING, DeviceSubType_MESSAGING_BLUETOOTH_LE), ("MessagingBluetoothLe", MessagingBluetoothLe_try_from))
  ; ((DeviceType_MESSAGING, DeviceSubType_MESSAGING_DNS), ("MessagingDns", MessagingDns_try_from))
  ; ((DeviceType_MESSAGING, DeviceSubType_MESSAGING_NVDIMM_NAMESPACE), ("MessagingNvdimmNamespace", MessagingNvdimmNamespace_try_from))
  ; ((DeviceType_MESSAGING, DeviceSubType_MESSAGING_REST_SERVICE), ("MessagingRestService", MessagingRestService_try_from))
  ; ((DeviceType_MESSAGING, DeviceSubType_MESSAGING_NVME_OF_NAMESPACE), ("MessagingNvmeOfNamespace", MessagingNvmeOfNamespace_try_from))
  ; ((DeviceType_MEDIA, DeviceSubType_MEDIA_HARD_DRIVE), ("MediaHardDrive", MediaHardDrive_try_from))
  ; ((DeviceType_MEDIA, DeviceSubType_MEDIA_CD_ROM), ("MediaCdRom", MediaCdRom_try_from))
  ; ((DeviceType_MEDIA, DeviceSubType_MEDIA_VENDOR), ("MediaVendor", MediaVendor_try_from))
  ; ((DeviceType_MEDIA, DeviceSubType_MEDIA_FILE_PATH), ("MediaFilePath", MediaFilePath_try_from))
  ; ((DeviceType_MEDIA, DeviceSubType_MEDIA_PROTOCOL), ("MediaProtocol", MediaProtocol_try_from))
  ; ((DeviceType_MEDIA, DeviceSubType_MEDIA_PIWG_FIRMWARE_FILE), ("MediaPiwgFirmwareFile", MediaPiwgFirmwareFile_try_from))
  ; ((DeviceType_MEDIA, DeviceSubType_MEDIA_PIWG_FIRMWARE_VOLUME), ("MediaPiwgFirmwareVolume", MediaPiwgFirmwareVolume_try_from))
  ; ((DeviceType_MEDIA, DeviceSubType_MEDIA_RELATIVE_OFFSET_RANGE), ("MediaRelativeOffsetRange", MediaRelativeOffsetRange_try_from))
  ; ((DeviceType_MEDIA, DeviceSubType_MEDIA_RAM_DISK), ("MediaRamDisk", MediaRamDisk_try_from))
  ; ((DeviceType_BIOS_BOOT_SPEC, DeviceSubType_BIOS_BOOT_SPECIFICATION), ("BiosBootSpecBootSpecification", BiosBootSpecBootSpecification_try_from)) ].

(** The [match] on [node.full_type()]. *)
Fixpoint node_enum_dispatch (arms : list ((Z * Z) * (string * conversion)))
  (node : DevicePathNode)
  : outcome (result (string * node_view) NodeConversionError.t) :=
  match arms with
  | [] => Ret (Err NodeConversionError.UnsupportedType)
  | (ft, (constructor, try_from)) :: arms =>
      if bool_decide (full_type node = ft)
      then let? v := try_from node in Ret (Ok (constructor, v))
      else node_enum_dispatch arms node
  end.

(** [DevicePathNode::as_enum]: the constructor's name and its payload. *)
Definition as_enum (node : DevicePathNode)
  : outcome (result (string * node_view) NodeConversionError.t) :=
  node_enum_dispatch node_enum_arms node.

(** ** Derived accessors *)

(** [HardDrive::partition_signature]; a GUID is its sixteen bytes. *)
Inductive PartitionSignature : Set :=
| SigNone
| Mbr (mbr : list Z)
| SigGuid (guid : list Z)
| Unknown (signature_type : Z) (signature : list Z).

Definition partition_signature (signature_type : Z) (sig : list Z)
  : outcome PartitionSignature :=
  if signature_type =? 0 then Ret SigNone
  else if signature_type =? 1 then
    let! b0 := index sig 0 in
    let! b1 := index sig 1 in
    let! b2 := index sig 2 in
    let! b3 := index sig 3 in
    Ret (Mbr [b0; b1; b2; b3])
  else if signature_type =? 2 then Ret (SigGuid sig)
  else Ret (Unknown signature_type sig).

(** The positions of the NUL bytes, from [enumerate().filter_map(..)]. *)
Fixpoint null_positions (i : Z) (d : list Z) : list Z :=
  match d with
  | [] => []
  | b :: d => if b =? 0 then i :: null_positions (i + 1) d else null_positions (i + 1) d
  end.

Definition acpi_expanded_null_indices (d : list Z) : option Z * option Z * option Z :=
  let iter := null_positions 0 d in
  (iter !! 0%nat, iter !! 1%nat, iter !! 2%nat).

(** [data.get(start..end).unwrap_or(&[])]. *)
Definition get_range_or_empty (d : list Z) (start end_ : Z) : list Z :=
  match slice d start end_ with Ret s => s | _ => [] end.

Definition get_acpi_expanded_substr (d : list Z) (string_index : Z) : outcome (list Z) :=
  let '(n0, n1, n2) := acpi_expanded_null_indices d in
  let len := zlen d in
  let range :=
    if string_index =? 0 then
      Ret (0, match n0 with Some n0 => n0 + 1 | None => len end)
    else if string_index =? 1 then
      Ret (match n0 with
           | Some n0 => (n0 + 1, match n1 with Some n1 => n1 + 1 | None => len end)
           | None => (len, len)
           end)
    else if string_index =? 2 then
      Ret (match n1 with
           | Some n1 => (n1 + 1, match n2 with Some n2 => n2 + 1 | None => len end)
           | None => (len, len)
           end)
    else Panic Explicit in
  let! (start, end_) := range in
  Ret (get_range_or_empty d start end_).

Definition get_hid_str (d : list Z) : outcome (list Z) := get_acpi_expanded_substr d 0.
Definition get_uid_str (d : list Z) : outcome (list Z) := get_acpi_expanded_substr d 1.
Definition get_cid_str (d : list Z) : outcome (list Z) := get_acpi_expanded_substr d 2.

(** [RestService::vendor_guid_and_data]. *)
Definition RestServiceType_VENDOR : Z := 0xff.

Definition vendor_guid_and_data (service_type : Z) (d : list Z)
  : outcome (option (list Z * list Z)) :=
  if (service_type =? RestServiceType_VENDOR) && (16 <=? zlen d)
  then
    let! guid := slice d 0 16 in
    let! rest := slice d 16 (zlen d) in
    Ret (Some (guid, rest))
  else Ret None.

(** ** Packed encodings: decoding and encoding are inverse *)

Fixpoint dec_fields (fs : list (string * fty)) (bs : list Z) : list (string * fval) :=
  match fs with
  | [] => []
  | (nm, ty) :: fs =>
      (nm, dec_val ty (take (size_of_ty ty) bs)) :: dec_fields fs (drop (size_of_ty ty) bs)
  end.

Fixpoint dec_elems (ty : fty) (n : nat) (bs : list Z) : list fval :=
  match n with
  | O => []
  | S n => dec_val ty (take (size_of_ty ty) bs) :: dec_elems ty n (drop (size_of_ty ty) bs)
  end.

Fixpoint enc_fields (fs : list (string * fty)) (vs : list (string * fval)) : list Z :=
  match fs, vs with
  | (_, ty) :: fs, (_, v) :: vs => enc_val ty v ++ enc_fields fs vs
  | _, _ => []
  end.

Definition enc_elems (ty : fty) (vs : list fval) : list Z := concat (map (enc_val ty) vs).

(** Whether a payload of [n] bytes has a length the struct admits. *)
Definition length_fits (s : node_struct) (n : Z) : bool :=
  match dst s with
  | None => n =? fields_size (fields s)
  | Some (_, ty) =>
      (fields_size (fields s) <=? n) &&
      ((n - fields_size (fields s)) mod Z.of_nat (size_of_ty ty) =? 0)
  end.

Definition decode_struct (s : node_struct) (d : list Z) : node_view :=
  let rest := drop (Z.to_nat (fields_size (fields s))) d in
  mkView (dec_fields (fields s) d)
    (match dst s with
     | None => None
     | Some (nm, ty) => Some (nm, dec_elems ty (length rest / size_of_ty ty) rest)
     end).

Definition encode_struct (s : node_struct) (v : node_view) : list Z :=
  enc_fields (fields s) (v_fields v) ++
  match dst s, v_dst v with
  | Some (_, ty), Some (_, vs) => enc_elems ty vs
  | _, _ => []
  end.

Lemma fields_size_nonneg fs : 0 <= fields_size fs.
Proof. induction fs as [|[nm ty] fs IH]; simpl; lia. Qed.

Lemma length_enc_val ty v : val_ok ty v -> length (enc_val ty v) = size_of_ty ty.
Proof. destruct v; simpl; [intros _; apply length_le_bytes|]. by intros [-> _]. Qed.

Lemma enc_val_u8 ty v : val_ok ty v -> Forall is_u8 (enc_val ty v).
Proof. destruct v; simpl; [intros _; apply le_bytes_u8|]. by intros [_ ?]. Qed.

Lemma dec_enc_val ty v : val_ok ty v -> dec_val ty (enc_val ty v) = v.
Proof.
  destruct v as [z|bs]; simpl.
  - intros [Hs Hz]. unfold dec_val. rewrite Hs. f_equal. apply le_val_bytes.
    replace 256 with (2 ^ 8) by done. rewrite <- Z.pow_mul_r by lia. exact Hz.
  - by intros [-> _].
Qed.

Lemma enc_dec_val ty bs :
  length bs = size_of_ty ty -> Forall is_u8 bs -> enc_val ty (dec_val ty bs) = bs.
Proof.
  intros Hl Hu. unfold dec_val. destruct (is_scalar_ty ty); [|done].
  simpl. rewrite <- Hl. by apply le_bytes_val.
Qed.

Lemma enc_dec_fields fs bs :
  fields_size fs <= zlen bs -> Forall is_u8 bs ->
  enc_fields fs (dec_fields fs bs) = take (Z.to_nat (fields_size fs)) bs.
Proof.
  revert bs. induction fs as [|[nm ty] fs IH]; intros bs Hl Hu; [done|].
  cbn [fields_size dec_fields enc_fields] in *. pose proof (fields_size_nonneg fs).
  unfold zlen in *. rewrite IH; [|rewrite length_drop; lia|by apply Forall_drop].
  rewrite enc_dec_val; [|rewrite length_take; lia|by apply Forall_take].
  rewrite take_take_drop. f_equal. lia.
Qed.

Lemma enc_dec_elems ty n bs :
  length bs = (n * size_of_ty ty)%nat -> Forall is_u8 bs ->
  enc_elems ty (dec_elems ty n bs) = bs.
Proof.
  revert bs. induction n as [|n IH]; intros bs Hl Hu.
  - by destruct bs.
  - unfold enc_elems in *. cbn [dec_elems map concat].
    rewrite enc_dec_val; [|rewrite length_take; lia|by apply Forall_take].
    rewrite IH; [|rewrite length_drop; lia|by apply Forall_drop]. apply take_drop.
Qed.

(** Nothing of a node is lost by decoding it. *)
Lemma encode_decode_struct s d :
  length_fits s (zlen d) = true -> Forall is_u8 d ->
  encode_struct s (decode_struct s d) = d.
Proof.
  intros Hf Hu. unfold length_fits in Hf. unfold encode_struct, decode_struct. cbn [v_fields v_dst].
  pose proof (fields_size_nonneg (fields s)). destruct (dst s) as [[nm ty]|]; z_bools.
  - rewrite enc_dec_fields by done. rewrite enc_dec_elems.
    + apply take_drop.
    + unfold zlen in *. rewrite length_drop.
      destruct (decide (size_of_ty ty = 0%nat)) as [E|E].
      * rewrite E in *. rewrite Zmod_0_r in *. lia.
      * pose proof (Z.div_mod (Z.of_nat (length d) - fields_size (fields s)) (Z.of_nat (size_of_ty ty))).
        apply Nat2Z.inj. rewrite Nat2Z.inj_mul, Nat2Z.inj_div, Nat2Z.inj_sub, Z2Nat.id by lia. lia.
    + by apply Forall_drop.
  - rewrite enc_dec_fields by (lia || done). rewrite app_nil_r. apply take_ge. unfold zlen in *. lia.
Qed.

Lemma dec_enc_fields fs vs k :
  Forall2 (fun f v => fst f = fst v /\ val_ok (snd f) (snd v)) fs vs ->
  dec_fields fs (enc_fields fs vs ++ k) = vs.
Proof.
  induction 1 as [|[nm ty] [nm' v] fs vs [E Hv] _ IH]; [done|]. simpl in *. subst nm'.
  rewrite <- app_assoc. rewrite take_app_length', drop_app_length' by (symmetry; by apply length_enc_val).
  by rewrite dec_enc_val, IH.
Qed.

Lemma length_enc_fields fs vs :
  Forall2 (fun f v => fst f = fst v /\ val_ok (snd f) (snd v)) fs vs ->
  zlen (enc_fields fs vs) = fields_size fs.
Proof.
  induction 1 as [|[nm ty] [nm' v] fs vs [E Hv] _ IH]; [done|]. simpl in *.
  rewrite zlen_app, IH. unfold zlen. by rewrite length_enc_val.
Qed.

Lemma length_enc_elems ty vs :
  Forall (val_ok ty) vs -> length (enc_elems ty vs) = (length vs * size_of_ty ty)%nat.
Proof.
  unfold enc_elems. induction 1 as [|v vs Hv _ IH]; [done|]. simpl.
  by rewrite length_app, IH, length_enc_val.
Qed.

Lemma dec_enc_elems ty vs :
  Forall (val_ok ty) vs -> dec_elems ty (length vs) (enc_elems ty vs) = vs.
Proof.
  unfold enc_elems. induction 1 as [|v vs Hv _ IH]; [done|]. simpl.
  rewrite take_app_length', drop_app_length' by (symmetry; by apply length_enc_val).
  by rewrite dec_enc_val, IH.
Qed.

(** Well-typed field values for a struct. *)
Definition view_ok (s : node_struct) (v : node_view) : Prop :=
  Forall2 (fun f v => fst f = fst v /\ val_ok (snd f) (snd v)) (fields s) (v_fields v) /\
  match dst s, v_dst v with
  | None, None => True
  | Some (nm, ty), Some (nm', vs) => nm = nm' /\ Forall (val_ok ty) vs
  | _, _ => False
  end.

Lemma decode_encode_struct s v :
  view_ok s v -> match dst s with Some (_, ty) => (0 < size_of_ty ty)%nat | None => True end ->
  length_fits s (zlen (encode_struct s v)) = true /\
  decode_struct s (encode_struct s v) = v.
Proof.
  intros [Hf Hd] Hpos. pose proof (length_enc_fields _ _ Hf) as Hl.
  unfold length_fits, decode_struct, encode_struct. rewrite zlen_app, Hl.
  rewrite dec_enc_fields by done. destruct v as [vf vd]. cbn [v_fields v_dst] in *.
  rewrite drop_app_length' by (unfold zlen in Hl; lia).
  destruct (dst s) as [[nm ty]|], vd as [[nm' vs]|]; try done.
  - destruct Hd as [<- Hv]. pose proof (length_enc_elems _ _ Hv) as He.
    rewrite He, Nat.div_mul by lia. rewrite dec_enc_elems by done. split; [|done].
    unfold zlen. rewrite He. apply andb_true_iff. split; [apply Z.leb_le; lia|].
    apply Z.eqb_eq. rewrite Nat2Z.inj_mul.
    replace (fields_size (fields s) + Z.of_nat (length vs) * Z.of_nat (size_of_ty ty) -
      fields_size (fields s)) with (Z.of_nat (length vs) * Z.of_nat (size_of_ty ty)) by lia.
    apply Z.mod_mul. lia.
  - split; [|done]. apply Z.eqb_eq. unfold zlen. simpl. lia.
Qed.

(** ** The conversions are memory safe and exact *)

Lemma read_fields_ok mem off fs :
  0 <= off -> off + fields_size fs <= zlen mem ->
  read_fields mem off fs = Ret (dec_fields fs (drop (Z.to_nat off) mem)).
Proof.
  revert off. induction fs as [|[nm ty] fs IH]; intros off Ho Hl; [done|].
  cbn [fields_size read_fields dec_fields] in *. pose proof (fields_size_nonneg fs).
  rewrite read_raw_ok by lia. cbn [obind]. rewrite IH by lia. cbn [obind].
  rewrite Nat2Z.id, drop_drop. do 4 f_equal. lia.
Qed.

Lemma read_elems_ok mem off ty n :
  0 <= off -> off + Z.of_nat (n * size_of_ty ty) <= zlen mem ->
  read_elems mem off ty n = Ret (dec_elems ty n (drop (Z.to_nat off) mem)).
Proof.
  revert off. induction n as [|n IH]; intros off Ho Hl; [done|].
  cbn [read_elems dec_elems]. rewrite read_raw_ok by lia. cbn [obind].
  rewrite IH by lia. cbn [obind]. rewrite Nat2Z.id, drop_drop. do 4 f_equal. lia.
Qed.

Lemma drop_node_bytes node k :
  node_wf node -> 0 <= k -> drop (Z.to_nat (size_of_header + k)) (node_bytes node) = drop (Z.to_nat k) (data node).
Proof.
  intros [_ [Hl _] _ _] Hk. unfold node_bytes, header_bytes, size_of_header.
  destruct (length_bytes (header node)) as [|a [|b [|? ?]]]; simpl in Hl; try lia.
  rewrite Z2Nat.inj_add by lia. done.
Qed.

Lemma node_bytes_zlen node : node_wf node -> zlen (node_bytes node) = size_of_header + zlen (data node).
Proof. intros Hw. rewrite node_bytes_length by done. by apply node_wf_length. Qed.

(** [c] is the conversion to the struct [s] for the type [ft], with the size
    constants that the packed layout of [s] demands. *)
Inductive conversion_of : conversion -> Z * Z -> node_struct -> Prop :=
| sized_conversion dt st s : dst s = None -> conversion_of (try_from_sized dt st s) (dt, st) s
| dst_conversion dt st static_size nm ty s :
    dst s = Some (nm, ty) -> (0 < size_of_ty ty)%nat -> static_size = size_of_struct s ->
    conversion_of (try_from_dst dt st static_size ty s) (dt, st) s.

Lemma conversion_spec c ft s node :
  conversion_of c ft s -> node_wf node ->
  c node = if bool_decide (full_type node = ft)
           then if length_fits s (zlen (data node))
                then Ret (Ok (decode_struct s (data node)))
                else Ret (Err NodeConversionError.InvalidLength)
           else Ret (Err NodeConversionError.DifferentType).
Proof.
  intros Hc Hw. pose proof (node_bytes_zlen node Hw) as Hz.
  pose proof (fields_size_nonneg (fields s)) as Hnn. pose proof (zlen_nonneg (data node)).
  assert (forall dt st, negb (device_type node =? dt) || negb (node_sub_type node =? st) =
    negb (bool_decide (full_type node = (dt, st)))) as Hft.
  { intros dt st. unfold full_type. destruct (Z.eqb_spec (device_type node) dt) as [->|];
      destruct (Z.eqb_spec (node_sub_type node) st) as [->|]; simpl; symmetry;
      first [apply negb_true_iff, bool_decide_eq_false; congruence
            |apply negb_false_iff, bool_decide_eq_true; congruence]. }
  assert (zlen (data node) >= fields_size (fields s) ->
    read_fields (node_bytes node) size_of_header (fields s) = Ret (dec_fields (fields s) (data node))) as Hrf.
  { intros. rewrite read_fields_ok by (rewrite ?Hz; unfold size_of_header in *; lia).
    rewrite <- (Z.add_0_r size_of_header) at 1. rewrite drop_node_bytes by (done || lia). done. }
  destruct Hc as [dt st s Hd|dt st ss nm ty s Hd Hp ->]; unfold try_from_sized, try_from_dst;
    rewrite Hft; destruct (bool_decide _); try done; simpl negb; cbv iota;
    unfold node_size_of_val, size_of_struct, length_fits, cast_struct, decode_struct; rewrite Hd.
  - destruct (Z.eqb_spec (zlen (data node)) (fields_size (fields s))) as [E|E].
    + rewrite (proj2 (Z.eqb_eq _ _)) by lia. simpl negb. cbv iota. rewrite Hrf by lia. done.
    + rewrite (proj2 (Z.eqb_neq _ _)) by lia. done.
  - set (n := zlen (data node)) in *. set (f := fields_size (fields s)) in *.
    replace (size_of_header + n <? size_of_header + f) with (n <? f)
      by (destruct (Z.ltb_spec n f), (Z.ltb_spec (size_of_header + n) (size_of_header + f)); lia).
    rewrite Z.ltb_antisym. destruct (Z.leb_spec f n) as [Hfn|]; [|done]. simpl negb. cbv iota.
    replace (size_of_header + n - (size_of_header + f)) with (n - f) by lia.
    unfold usize_rem, usize_div.
    rewrite (proj2 (Z.eqb_neq (Z.of_nat (size_of_ty ty)) 0)) by lia. cbn [obind andb].
    destruct (Z.eqb_spec ((n - f) mod Z.of_nat (size_of_ty ty)) 0) as [E|]; [|done]. simpl negb. cbv iota.
    rewrite Hrf by lia. cbn [obind]. unfold size_of_struct. fold f.
    assert (length (drop (Z.to_nat f) (data node)) / size_of_ty ty =
            Z.to_nat ((n - f) / Z.of_nat (size_of_ty ty)))%nat as ->.
    { rewrite length_drop. apply Nat2Z.inj. rewrite Nat2Z.inj_div, Z2Nat.id by (apply Z.div_pos; lia).
      unfold n, zlen in *. f_equal. lia. }
    rewrite read_elems_ok; [|unfold size_of_header; lia|].
    + rewrite drop_node_bytes by done. done.
    + rewrite Hz. fold n. rewrite Nat2Z.inj_mul, Z2Nat.id by (apply Z.div_pos; lia).
      pose proof (Z.div_mod (n - f) (Z.of_nat (size_of_ty ty))). lia.
Qed.

Lemma node_enum_arms_ok :
  Forall (fun arm => exists s, conversion_of (snd (snd arm)) (fst arm) s) node_enum_arms.
Proof.
  unfold node_enum_arms. repeat constructor; simpl; eexists.
  all: first [apply sized_conversion; reflexivity
             |eapply dst_conversion; [reflexivity|simpl; lia|reflexivity]].
Qed.

Lemma node_enum_dispatch_spec arms node :
  Forall (fun arm => exists s, conversion_of (snd (snd arm)) (fst arm) s) arms -> node_wf node ->
  (full_type node ∉ map fst arms /\
   node_enum_dispatch arms node = Ret (Err NodeConversionError.UnsupportedType)) \/
  (exists nm c s, (full_type node, (nm, c)) ∈ arms /\ conversion_of c (full_type node) s /\
   node_enum_dispatch arms node =
     if length_fits s (zlen (data node))
     then Ret (Ok (nm, decode_struct s (data node)))
     else Ret (Err NodeConversionError.InvalidLength)).
Proof.
  intros Ha Hw. induction Ha as [|[ft [nm c]] arms [s Hc] _ IH]; simpl in *.
  { left. split; [apply not_elem_of_nil|done]. }
  destruct (bool_decide_reflect (full_type node = ft)) as [<-|Hne].
  - right. exists nm, c, s. split; [left|]. split; [done|].
    rewrite (conversion_spec c _ s) by done. rewrite bool_decide_true by done.
    by destruct (length_fits s _).
  - destruct IH as [[Hn ->]|(nm' & c' & s' & Hi & Hc' & ->)].
    + left. split; [|done]. by apply not_elem_of_cons.
    + right. exists nm', c', s'. split; [by right|]. done.
Qed.

(** C36: Converting any well-formed node never reads outside of it: an unknown type
    is reported as such, a known type gives the fields of its struct, whose
    re-encoding is the node's payload, exactly when the payload length fits the
    struct. *)
Theorem as_enum_spec (node : DevicePathNode) :
  node_wf node ->
  (full_type node ∉ map fst node_enum_arms /\
   as_enum node = Ret (Err NodeConversionError.UnsupportedType)) \/
  (exists nm c s, (full_type node, (nm, c)) ∈ node_enum_arms /\
   conversion_of c (full_type node) s /\
   if length_fits s (zlen (data node))
   then exists v, as_enum node = Ret (Ok (nm, v)) /\ encode_struct s v = data node
   else as_enum node = Ret (Err NodeConversionError.InvalidLength)).
Proof.
  intros Hw. destruct (node_enum_dispatch_spec node_enum_arms node node_enum_arms_ok Hw)
    as [?|(nm & c & s & Hi & Hc & E)]; [by left|right].
  exists nm, c, s. do 2 (split; [done|]). unfold as_enum. rewrite E.
  destruct (length_fits s (zlen (data node))) eqn:Hf; [|done].
  eexists; split; [done|]. apply encode_decode_struct; [done|]. apply Hw.
Qed.

(** ** The strings of the expanded ACPI node *)

(** The pieces of a byte string, each ending in its NUL, except a last one
    that is not terminated. *)
Fixpoint split_inclusive (d : list Z) : list (list Z) :=
  match d with
  | [] => []
  | b :: d =>
      if b =? 0 then [b] :: split_inclusive d
      else match split_inclusive d with
           | [] => [[b]]
           | p :: ps => (b :: p) :: ps
           end
  end.

Abbreviation nul_free := (Forall (fun b : Z => (b =? 0) = false)).

Lemma nul_split (d : list Z) :
  nul_free d \/ exists a k, nul_free a /\ d = a ++ 0 :: k.
Proof.
  induction d as [|b d IH]; [by left|]. destruct (Z.eqb_spec b 0) as [->|Hb].
  - right. by exists [], d.
  - apply Z.eqb_neq in Hb. destruct IH as [Hd|(a & k & Ha & ->)].
    + left. by constructor.
    + right. exists (b :: a), k. split; [by constructor|done].
Qed.

Lemma null_positions_free i a : nul_free a -> null_positions i a = [].
Proof. intros Ha. revert i. induction Ha as [|b a Hb _ IH]; intros i; simpl; [done|]. by rewrite Hb. Qed.

Lemma null_positions_app i a k :
  nul_free a -> null_positions i (a ++ 0 :: k) = i + zlen a :: null_positions (i + zlen a + 1) k.
Proof.
  intros Ha. revert i. induction Ha as [|b a Hb _ IH]; intros i; simpl.
  - unfold zlen. simpl. by rewrite Z.add_0_r.
  - rewrite Hb, IH, zlen_cons. by rewrite !Z.add_assoc, (Z.add_comm i 1), <- !Z.add_assoc, ?(Z.add_assoc i).
Qed.

Lemma split_inclusive_free a : nul_free a -> a <> [] -> split_inclusive a = [a].
Proof.
  induction 1 as [|b a Hb Ha IH]; [done|]. intros _. simpl. rewrite Hb.
  destruct a as [|c a]; [done|]. by rewrite IH.
Qed.

Lemma split_inclusive_app a k :
  nul_free a -> split_inclusive (a ++ 0 :: k) = (a ++ [0]) :: split_inclusive k.
Proof. induction 1 as [|b a Hb _ IH]; simpl; [done|]. by rewrite Hb, IH. Qed.

Lemma get_range_at (p s k : list Z) :
  get_range_or_empty (p ++ s ++ k) (zlen p) (zlen p + zlen s) = s.
Proof.
  unfold get_range_or_empty. pose proof (zlen_nonneg p). pose proof (zlen_nonneg s).
  pose proof (zlen_nonneg k). rewrite slice_ok by (rewrite ?zlen_app; lia).
  unfold zlen. replace (Z.of_nat (length p) + Z.of_nat (length s) - Z.of_nat (length p))
    with (Z.of_nat (length s)) by lia.
  by rewrite !Nat2Z.id, drop_app_length, take_app_length.
Qed.

(** The range [start..end_] of [d] when [d] is cut as [p ++ s ++ k]. *)
Lemma get_range_cut d p s k start end_ :
  d = p ++ s ++ k -> start = zlen p -> end_ = zlen p + zlen s ->
  Ret (get_range_or_empty d start end_) = Ret s.
Proof. intros -> -> ->. by rewrite get_range_at. Qed.

Ltac zlen_lia :=
  cbn [lookup list_lookup]; repeat first [rewrite zlen_app | rewrite zlen_cons];
  change (zlen (@nil Z)) with 0; lia.

(** The [i]-th piece, empty if there are fewer. *)
Definition piece (d : list Z) (i : nat) : list Z := default [] (split_inclusive d !! i).

Lemma piece_free a : nul_free a -> piece a 0 = a /\ piece a 1 = [] /\ piece a 2 = [].
Proof. intros Ha. unfold piece. destruct a as [|b a]; [done|]. by rewrite split_inclusive_free. Qed.

Lemma piece_app a k : nul_free a ->
  piece (a ++ 0 :: k) 0 = a ++ [0] /\ (forall i, piece (a ++ 0 :: k) (S i) = piece k i).
Proof. intros Ha. unfold piece. by rewrite split_inclusive_app. Qed.

(** The hid, uid and cid strings of an expanded ACPI node are the first three
    NUL-terminated pieces of its data; a missing string is empty. *)
Theorem acpi_expanded_strings (d : list Z) :
  get_hid_str d = Ret (piece d 0) /\
  get_uid_str d = Ret (piece d 1) /\
  get_cid_str d = Ret (piece d 2).
Proof.
  unfold get_hid_str, get_uid_str, get_cid_str, get_acpi_expanded_substr, acpi_expanded_null_indices.
  destruct (nul_split d) as [Hd|(a & k & Ha & ->)].
  { rewrite null_positions_free by done. destruct (piece_free d Hd) as (-> & -> & ->).
    split; [|split]; [eapply (get_range_cut d [] d [])|eapply (get_range_cut d d [] [])|
      eapply (get_range_cut d d [] [])]; rewrite ?app_nil_r; try done; zlen_lia. }
  rewrite null_positions_app by done. destruct (piece_app a k Ha) as [-> Hp]. rewrite !Hp. clear Hp.
  destruct (nul_split k) as [Hk|(b & k' & Hb & ->)].
  { rewrite null_positions_free by done. destruct (piece_free k Hk) as (-> & -> & _).
    split; [|split]; [eapply (get_range_cut _ [] (a ++ [0]) k)|
      eapply (get_range_cut _ (a ++ [0]) k [])|eapply (get_range_cut _ (a ++ 0 :: k) [] [])];
      rewrite ?app_nil_r, <- ?app_assoc; try done; zlen_lia. }
  rewrite null_positions_app by done. destruct (piece_app b k' Hb) as [-> Hp]. rewrite !Hp. clear Hp.
  destruct (nul_split k') as [Hk|(c & k'' & Hc & ->)].
  - rewrite null_positions_free by done. destruct (piece_free k' Hk) as (-> & _ & _).
    split; [|split]; [eapply (get_range_cut _ [] (a ++ [0]) (b ++ 0 :: k'))|
      eapply (get_range_cut _ (a ++ [0]) (b ++ [0]) k')|
      eapply (get_range_cut _ (a ++ 0 :: b ++ [0]) k' [])];
      rewrite ?app_nil_r, <- ?app_assoc, <- ?app_comm_cons, <- ?app_assoc; try done; zlen_lia.
  - rewrite null_positions_app by done. destruct (piece_app c k'' Hc) as [-> _].
    split; [|split]; [eapply (get_range_cut _ [] (a ++ [0]) (b ++ 0 :: c ++ 0 :: k''))|
      eapply (get_range_cut _ (a ++ [0]) (b ++ [0]) (c ++ 0 :: k''))|
      eapply (get_range_cut _ (a ++ 0 :: b ++ [0]) (c ++ [0]) k'')];
      rewrite ?app_nil_r, <- ?app_assoc, <- ?app_comm_cons, <- ?app_assoc; try done; zlen_lia.
Qed.

(** ** Examples *)

Lemma as_enum_spec_witness :
  exists v, as_enum example_pci = Ret (Ok ("HardwarePci", v)) /\
    v = mkView [("function", VInt 0); ("device", VInt 0x1f)] None.
Proof.
  destruct (as_enum_spec example_pci ltac:(apply example_nodes_wf)) as [[Hn _]|(nm & c & s & _ & _ & Hs)].
  - exfalso. apply Hn. by_decide.
  - destruct (length_fits s (zlen (data example_pci))).
    + destruct Hs as (v & E & _). exists v. vm_compute in E. injection E as E1 E2. subst. done.
    + vm_compute in Hs. discriminate.
Defined.
