(* ===== verification/DevicePathBuild.v ===== *)
(** * The device path builder: [uefi/src/proto/device_path/build.rs]

    [BuildNode] is the trait object the builder works with, as a record of its
    two methods; [NodeBuilds] states what an implementation promises, and the
    builder is verified against that promise only.  A slice of [MaybeUninit<u8>]
    is a list of optional bytes; raw-pointer writes outside it and the use of an
    uninitialised byte are [Undefined]. *)
From S2P Require Import Prelude DevicePath.

Inductive BuildError : Set := BufferTooSmall | NodeTooBig | UnexpectedEndEntire.

#[export] Instance BuildError_eq_dec : EqDecision BuildError.
Proof. solve_decision. Defined.

(** ** Uninitialised memory *)

Abbreviation mem_uninit := (list (option Z)).

(** A raw write of [bs] at offset [off] of [out]. *)
Definition write_raw (out : mem_uninit) (off : Z) (bs : list Z) : outcome mem_uninit :=
  if (0 <=? off) && (off + zlen bs <=? zlen out)
  then Ret (take (Z.to_nat off) out ++ map Some bs ++ drop (Z.to_nat off + length bs) out)
  else Undefined.

(** [maybe_uninit_slice_assume_init_ref]. *)
Fixpoint assume_init (out : mem_uninit) : outcome (list Z) :=
  match out with
  | [] => Ret []
  | Some b :: out => let! bs := assume_init out in Ret (b :: bs)
  | None :: _ => Undefined
  end.

(** ** The trait *)

Record BuildNode : Type := mkBuildNode {
  size_in_bytes : outcome (result Z BuildError);
  write_data : mem_uninit -> outcome mem_uninit;
}.

(** [u16::try_from(size).map_err(|_| BuildError::NodeTooBig)]. *)
Definition u16_try_from (size : Z) : result Z BuildError :=
  if size <? 2 ^ 16 then Ok size else Err NodeTooBig.

(** [BuildNode for &DevicePathNode]: the copy reads as many bytes as the
    output has. *)
Definition copy_node (n : DevicePathNode) : BuildNode :=
  mkBuildNode (Ret (Ok (node_length n)))
    (fun out =>
       let! src := read_raw (node_bytes n) 0 (zlen out) in
       write_raw out 0 src).

(** The promise of a node builder: it writes exactly the bytes of [n] into an
    output of the size it announced. *)
Class NodeBuilds (b : BuildNode) (n : DevicePathNode) : Prop := {
  builds_wf : node_wf n;
  builds_size : size_in_bytes b = Ret (Ok (node_length n));
  builds_data : forall out, zlen out = node_length n ->
    write_data b out = Ret (map Some (node_bytes n));
}.

(** ** The builder *)

Inductive BuilderStorage : Type :=
| Buf (buf : mem_uninit) (offset : Z)
| Vec (vec : mem_uninit).

Definition DevicePathBuilder : Type := BuilderStorage.

Definition with_buf (buf : mem_uninit) : DevicePathBuilder := Buf buf 0.
(** The vector is cleared before use. *)
Definition with_vec (v : list Z) : DevicePathBuilder := Vec [].

Section builder.
Context `{Profile}.

Definition push (self : DevicePathBuilder) (node : BuildNode)
  : outcome (result DevicePathBuilder BuildError) :=
  let? node_size := size_in_bytes node in
  match self with
  | Buf buf offset =>
      let! end_ := usize_add offset node_size in
      if (offset <=? end_) && (end_ <=? zlen buf)
      then
        let! out := slice buf offset end_ in
        let! out := write_data node out in
        let! offset' := usize_add offset node_size in
        Ret (Ok (Buf (take (Z.to_nat offset) buf ++ out ++ drop (Z.to_nat end_) buf) offset'))
      else Ret (Err BufferTooSmall)
  | Vec vec =>
      let old_size := zlen vec in
      (* reserve: a capacity above isize::MAX bytes panics *)
      if isize_MAX <? old_size + node_size then Panic Explicit
      else
        let! out := write_data node (replicate (Z.to_nat node_size) None) in
        Ret (Ok (Vec (vec ++ out)))
  end.

(** [end::Entire] of the build module. *)
Definition Entire_size_in_bytes : outcome (result Z BuildError) := Ret (u16_try_from 4).

Definition Entire_write_data (out : mem_uninit) : outcome mem_uninit :=
  let! r := Entire_size_in_bytes in
  match r with
  | Err _ => Panic UnwrapFailed
  | Ok size =>
      let! _ := assert_ (size =? zlen out) in
      write_raw out 0 (header_bytes (header_new DeviceType_END DeviceSubType_END_ENTIRE size))
  end.

Definition Entire : BuildNode := mkBuildNode Entire_size_in_bytes Entire_write_data.

(** [finalize] returns the bytes of the path. *)
Definition finalize (self : DevicePathBuilder) : outcome (result (list Z) BuildError) :=
  let? this := push self Entire in
  let! data :=
    match this with
    | Buf buf offset => let! s := slice buf 0 offset in assume_init s
    | Vec vec => assume_init vec
    end in
  Ret (Ok data).

(** A chain of [push]es. *)
Fixpoint push_all (self : DevicePathBuilder) (nodes : list BuildNode)
  : outcome (result DevicePathBuilder BuildError) :=
  match nodes with
  | [] => Ret (Ok self)
  | node :: nodes =>
      let? self := push self node in
      push_all self nodes
  end.

Definition build (self : DevicePathBuilder) (nodes : list BuildNode)
  : outcome (result (list Z) BuildError) :=
  let? self := push_all self nodes in
  finalize self.

End builder.

(** ** Implementations discharge the promise *)

Lemma write_raw_all out bs :
  zlen out = zlen bs -> write_raw out 0 bs = Ret (map Some bs).
Proof.
  intros E. unfold write_raw. rewrite (proj2 (Z.leb_le _ _)) by lia.
  rewrite (proj2 (Z.leb_le _ _)) by lia. simpl. rewrite drop_ge by (unfold zlen in *; lia).
  by rewrite app_nil_r.
Qed.

#[export] Instance copy_node_builds n : node_wf n -> NodeBuilds (copy_node n) n.
Proof.
  intros Hw. pose proof (node_bytes_length n Hw) as Hz. constructor; [done|done|].
  intros out Ho. simpl. rewrite Ho, read_raw_ok by (try lia; apply node_length_bounds in Hw; lia).
  cbn [obind]. rewrite drop_0, take_ge by (unfold zlen in *; lia).
  apply write_raw_all. lia.
Qed.

#[export] Instance Entire_builds : NodeBuilds Entire end_entire.
Proof.
  constructor; [apply end_entire_wf|done|]. intros out Ho.
  change (node_length end_entire) with 4 in Ho. simpl. unfold Entire_write_data. simpl.
  rewrite Ho. simpl. by apply write_raw_all.
Qed.

Lemma assume_init_Some bs : assume_init (map Some bs) = Ret bs.
Proof. induction bs as [|b bs IH]; simpl; [done|]. by rewrite IH. Qed.

(** ** The builder writes the nodes in order and closes the path *)

Section builder_spec.
Context `{Profile}.

Lemma push_buf_spec b n (written : list Z) (free : mem_uninit) :
  NodeBuilds b n -> zlen written + zlen free <= isize_MAX ->
  push (Buf (map Some written ++ free) (zlen written)) b =
  if node_length n <=? zlen free
  then Ret (Ok (Buf (map Some (written ++ node_bytes n) ++ drop (length (node_bytes n)) free)
                  (zlen (written ++ node_bytes n))))
  else Ret (Err BufferTooSmall).
Proof.
  intros [Hw Hs Hd] Hl. unfold push. rewrite Hs. cbn [obind].
  pose proof (node_length_bounds n Hw). pose proof (node_bytes_length n Hw) as Hz.
  pose proof (zlen_nonneg written). pose proof (zlen_nonneg free). unfold isize_MAX in Hl.
  rewrite !usize_add_ok by lia. cbn [obind]. rewrite (proj2 (Z.leb_le (zlen written) _)) by lia.
  assert (zlen (map Some written ++ free) = zlen written + zlen free) as Hm
    by (rewrite zlen_app; unfold zlen; by rewrite length_map).
  rewrite Hm. destruct (Z.leb_spec (node_length n) (zlen free)) as [Hf|Hf].
  - rewrite (proj2 (Z.leb_le _ _)) by lia. cbn [andb]. rewrite slice_ok by lia. cbn [obind].
    assert (length (map Some written) = length written) as Hmw by apply length_map.
    unfold zlen in *. rewrite Hd; cbn [obind].
    + rewrite Nat2Z.id, take_app_length' by done.
      replace (Z.to_nat (Z.of_nat (length written) + node_length n))
        with (length written + length (node_bytes n))%nat by lia.
      rewrite <- drop_drop, drop_app_length' by done.
      rewrite map_app, <- app_assoc, length_app. do 3 f_equal. lia.
    + rewrite Nat2Z.id, drop_app_length' by done. rewrite length_take. lia.
  - rewrite (proj2 (Z.leb_gt _ _)) by lia. done.
Qed.

Lemma push_vec_spec b n (written : list Z) :
  NodeBuilds b n -> zlen written + node_length n <= isize_MAX ->
  push (Vec (map Some written)) b = Ret (Ok (Vec (map Some (written ++ node_bytes n)))).
Proof.
  intros [Hw Hs Hd] Hl. unfold push. rewrite Hs. cbn [obind].
  pose proof (node_length_bounds n Hw).
  assert (zlen (map Some written) = zlen written) as -> by (unfold zlen; by rewrite length_map).
  rewrite (proj2 (Z.ltb_ge _ _)) by done.
  rewrite Hd by (unfold zlen; rewrite length_replicate; lia). cbn [obind]. by rewrite map_app.
Qed.

Lemma nodes_bytes_cons' n ns : nodes_bytes (n :: ns) = node_bytes n ++ nodes_bytes ns.
Proof. done. Qed.

Lemma push_all_buf_spec bs ns written free :
  Forall2 NodeBuilds bs ns -> zlen written + zlen free <= isize_MAX ->
  push_all (Buf (map Some written ++ free) (zlen written)) bs =
  if zlen (nodes_bytes ns) <=? zlen free
  then Ret (Ok (Buf (map Some (written ++ nodes_bytes ns) ++ drop (length (nodes_bytes ns)) free)
                  (zlen (written ++ nodes_bytes ns))))
  else Ret (Err BufferTooSmall).
Proof.
  intros Hb. revert written free. induction Hb as [|b n bs ns Hb _ IH]; intros written free Hl.
  - cbn [push_all]. change (zlen (nodes_bytes [])) with 0.
    rewrite (proj2 (Z.leb_le _ _)) by apply zlen_nonneg.
    unfold nodes_bytes. simpl. by rewrite app_nil_r, drop_0.
  - cbn [push_all]. rewrite (push_buf_spec b n) by done. pose proof (builds_wf (b := b) (n := n)) as Hw.
    pose proof (node_bytes_length n Hw) as Hz. pose proof (zlen_nonneg (nodes_bytes ns)).
    rewrite nodes_bytes_cons', (zlen_app (node_bytes n)), Hz.
    destruct (Z.leb_spec (node_length n) (zlen free)) as [Hf|Hf]; cbn [obind].
    + assert (zlen (drop (length (node_bytes n)) free) = zlen free - node_length n) as Hfree
        by (unfold zlen in *; rewrite length_drop; lia).
      rewrite IH, Hfree by (rewrite zlen_app, Hfree, Hz; lia).
      replace (zlen (nodes_bytes ns) <=? zlen free - node_length n)
        with (node_length n + zlen (nodes_bytes ns) <=? zlen free)
        by (destruct (Z.leb_spec (node_length n + zlen (nodes_bytes ns)) (zlen free)),
              (Z.leb_spec (zlen (nodes_bytes ns)) (zlen free - node_length n)); lia).
      destruct (_ <=? _); [|done]. by rewrite <- app_assoc, drop_drop, (length_app (node_bytes n)).
    + by rewrite (proj2 (Z.leb_gt _ _)) by lia.
Qed.

Lemma push_all_vec_spec bs ns written :
  Forall2 NodeBuilds bs ns -> zlen written + zlen (nodes_bytes ns) <= isize_MAX ->
  push_all (Vec (map Some written)) bs = Ret (Ok (Vec (map Some (written ++ nodes_bytes ns)))).
Proof.
  intros Hb. revert written. induction Hb as [|b n bs ns Hb _ IH]; intros written Hl.
  - unfold nodes_bytes. simpl. by rewrite app_nil_r.
  - cbn [push_all]. pose proof (builds_wf (b := b) (n := n)) as Hw.
    pose proof (node_bytes_length n Hw) as Hz. pose proof (zlen_nonneg (nodes_bytes ns)).
    rewrite nodes_bytes_cons', zlen_app, Hz in Hl.
    rewrite (push_vec_spec b n) by (done || lia). cbn [obind].
    rewrite IH by (rewrite zlen_app, Hz; lia). by rewrite <- app_assoc.
Qed.

Lemma build_buf_spec bs ns buf :
  Forall2 NodeBuilds bs ns -> zlen buf <= isize_MAX ->
  let path := nodes_bytes ns ++ node_bytes end_entire in
  build (with_buf buf) bs =
    if zlen path <=? zlen buf then Ret (Ok path) else Ret (Err BufferTooSmall).
Proof.
  intros Hb Hl path. unfold path in *. rewrite zlen_app in *.
  pose proof (zlen_nonneg (nodes_bytes ns)). pose proof (zlen_nonneg buf).
  change (zlen (node_bytes end_entire)) with 4 in *. unfold build, finalize.
  change (with_buf buf) with (Buf (map Some (@nil Z) ++ buf) (zlen (@nil Z))).
  rewrite (push_all_buf_spec bs ns) by done.
  destruct (Z.leb_spec (zlen (nodes_bytes ns)) (zlen buf)) as [Hf|Hf]; cbn [obind];
    [|by rewrite (proj2 (Z.leb_gt _ _)) by lia].
  assert (zlen (drop (length (nodes_bytes ns)) buf) = zlen buf - zlen (nodes_bytes ns)) as Hd
    by (unfold zlen in *; rewrite length_drop; lia).
  cbn [app]. rewrite (push_buf_spec Entire end_entire) by (try apply _; rewrite Hd; lia).
  change (node_length end_entire) with 4. rewrite Hd.
  destruct (Z.leb_spec (zlen (nodes_bytes ns) + 4) (zlen buf)) as [Hs|Hs];
    [|by rewrite (proj2 (Z.leb_gt _ _)) by lia].
  rewrite (proj2 (Z.leb_le _ _)) by lia. cbn [obind].
  set (q := nodes_bytes ns ++ node_bytes end_entire). pose proof (zlen_nonneg q).
  rewrite slice_ok by (rewrite ?zlen_app; unfold zlen in *; rewrite ?length_map; lia). cbn [obind].
  rewrite Z.sub_0_r. unfold zlen. rewrite Nat2Z.id, drop_0, take_app_length' by (by rewrite length_map).
  by rewrite assume_init_Some.
Qed.

Lemma build_vec_spec bs ns v :
  Forall2 NodeBuilds bs ns -> zlen (nodes_bytes ns) + 4 <= isize_MAX ->
  build (with_vec v) bs = Ret (Ok (nodes_bytes ns ++ node_bytes end_entire)).
Proof.
  intros Hb Hp. unfold build, finalize. change (with_vec v) with (Vec (map Some (@nil Z))).
  rewrite (push_all_vec_spec bs ns) by (done || (unfold zlen at 1; simpl; lia)). cbn [obind].
  rewrite (push_vec_spec Entire end_entire) by (try apply _; change (node_length end_entire) with 4; simpl; lia).
  cbn [obind]. by rewrite assume_init_Some.
Qed.

Lemma Forall2_builds_wf bs ns : Forall2 NodeBuilds bs ns -> Forall node_wf ns.
Proof. induction 1; constructor; [by eapply builds_wf|done]. Qed.

(** Building into a buffer either writes the nodes in order followed by the
    end-entire node, or reports [BufferTooSmall] exactly when that does not fit;
    building into a vector always succeeds, whatever the vector held. *)
Theorem build_spec (bs : list BuildNode) (ns : list DevicePathNode) (buf : mem_uninit) (v : list Z) :
  Forall2 NodeBuilds bs ns -> zlen buf <= isize_MAX ->
  let path := nodes_bytes ns ++ node_bytes end_entire in
  zlen path <= isize_MAX ->
  build (with_buf buf) bs =
    (if zlen path <=? zlen buf then Ret (Ok path) else Ret (Err BufferTooSmall)) /\
  build (with_vec v) bs = Ret (Ok path).
Proof.
  intros Hb Hl path Hp. unfold path in Hp. rewrite zlen_app in Hp.
  change (zlen (node_bytes end_entire)) with 4 in Hp.
  split; [by apply build_buf_spec|by apply build_vec_spec].
Qed.

(** What is built parses back: the result is a device path, and iterating it
    gives the nodes that were pushed. *)
Theorem build_parse_roundtrip (bs : list BuildNode) (ns : list DevicePathNode) (v : list Z) :
  Forall2 NodeBuilds bs ns -> Forall (fun n => is_end_entire n = false) ns ->
  zlen (nodes_bytes ns) + 4 <= isize_MAX ->
  exists path, build (with_vec v) bs = Ret (Ok path) /\
    path_try_from path = Ret (Ok path) /\
    node_iter_collect (S (length path)) (path_node_iter path) = Ret ns.
Proof.
  intros Hb He Hl. pose proof (Forall2_builds_wf bs ns Hb) as Hw.
  exists (nodes_bytes ns ++ node_bytes end_entire). split; [by apply build_vec_spec|].
  rewrite <- (app_nil_r (nodes_bytes ns ++ _)). split.
  - rewrite (path_try_from_closed ns end_entire []); try done; [by rewrite app_nil_r|apply end_entire_wf|].
    rewrite app_nil_r, zlen_app. exact Hl.
  - apply path_node_iter_closed; try done; [apply end_entire_wf|].
    pose proof (nodes_bytes_length ns Hw). rewrite !length_app. lia.
Qed.

End builder_spec.

(** The documentation of [push] announces an error for an end-entire node, but
    the node is accepted, and the path that is built ends there: the nodes
    pushed after it are not part of it. *)
Theorem push_accepts_end_entire (P : Profile) (b : BuildNode) (n : DevicePathNode) :
  NodeBuilds b n ->
  exists path, build (with_vec []) [Entire; b] = Ret (Ok path) /\
    path_try_from path = Ret (Ok (node_bytes end_entire)) /\
    node_iter_collect (S (length path)) (path_node_iter path) = Ret [].
Proof.
  intros Hb. set (ns := [end_entire; n]).
  assert (Forall2 NodeBuilds [Entire; b] ns) as Hbs by (constructor; [apply _|constructor; [done|constructor]]).
  pose proof (node_length_bounds n builds_wf) as Hn. pose proof (node_bytes_length n builds_wf) as Hz.
  assert (nodes_bytes ns ++ node_bytes end_entire =
          (nodes_bytes [] ++ node_bytes end_entire) ++ node_bytes n ++ node_bytes end_entire) as E
    by (unfold ns; rewrite !nodes_bytes_cons'; by rewrite <- !app_assoc).
  exists (nodes_bytes ns ++ node_bytes end_entire). split.
  - apply build_vec_spec; [done|]. unfold ns. rewrite !nodes_bytes_cons', !zlen_app, Hz.
    change (zlen (node_bytes end_entire)) with 4. change (zlen (nodes_bytes [])) with 0. unfold isize_MAX. lia.
  - rewrite E. split.
    + apply path_try_from_closed; try done; [apply end_entire_wf|].
      rewrite !zlen_app, Hz. change (zlen (node_bytes end_entire)) with 4.
      change (zlen (nodes_bytes [])) with 0. unfold isize_MAX. lia.
    + apply path_node_iter_closed; try done; [apply end_entire_wf|simpl; lia].
Qed.

(** ** Examples *)

Definition example_builders : list BuildNode := [copy_node example_acpi; copy_node example_pci].
Definition example_nodes : list DevicePathNode := [example_acpi; example_pci].

Lemma example_builds : Forall2 NodeBuilds example_builders example_nodes.
Proof.
  destruct example_nodes_wf as (Hp & Ha & _). apply Forall2_cons; split; [by apply copy_node_builds|].
  apply Forall2_cons; split; [by apply copy_node_builds|]. constructor.
Defined.

Lemma build_spec_witness :
  build (H := release_profile) (with_buf (replicate 32 None)) example_builders =
    Ret (Ok (nodes_bytes example_nodes ++ node_bytes end_entire)) /\
  build (H := release_profile) (with_buf (replicate 20 None)) example_builders =
    Ret (Err BufferTooSmall).
Proof.
  split.
  - exact (proj1 (@build_spec release_profile example_builders example_nodes (replicate 32 None) []
      example_builds ltac:(by vm_compute) ltac:(by vm_compute))).
  - exact (proj1 (@build_spec release_profile example_builders example_nodes (replicate 20 None) []
      example_builds ltac:(by vm_compute) ltac:(by vm_compute))).
Defined.

Lemma build_parse_roundtrip_witness :
  exists path, build (H := release_profile) (with_vec [9; 9]) example_builders = Ret (Ok path) /\
    path_try_from (H := release_profile) path = Ret (Ok path) /\
    node_iter_collect (H := release_profile) (S (length path)) (path_node_iter path) = Ret example_nodes.
Proof.
  apply (@build_parse_roundtrip release_profile example_builders example_nodes [9; 9] example_builds).
  - repeat constructor.
  - by vm_compute.
Defined.

Lemma push_accepts_end_entire_witness :
  exists path, build (H := debug_profile) (with_vec []) [Entire; copy_node example_pci] = Ret (Ok path) /\
    path_try_from (H := debug_profile) path = Ret (Ok (node_bytes end_entire)) /\
    node_iter_collect (H := debug_profile) (S (length path)) (path_node_iter path) = Ret [].
Proof.
  apply (push_accepts_end_entire debug_profile (copy_node example_pci) example_pci).
  apply copy_node_builds, example_nodes_wf.
Defined.
