(* ===== verification/DevicePathBuildNodes.v ===== *)
(** * Build nodes: module [build] of [device_path_gen.rs]

    Every build node is a struct of field values with a generated
    [size_in_bytes] and [write_data].  A [node_builder] holds what the source
    writes for one node type: the struct's fields, the header's type and
    subtype, the literal part of the size, the slices added to it, and the
    writes with their literal offsets, in order. *)
From stdpp Require Import strings.
From S2P Require Import Prelude DevicePath DevicePathNodes DevicePathBuild.
#[local] Open Scope string_scope.
#[local] Open Scope Z_scope.
#[local] Open Scope list_scope.

(** The type of a struct field: a value stored in the node, or a borrowed slice. *)
Inductive bty : Set := Val (ty : fty) | Slice (ty : fty).

Inductive build_step : Set :=
| Zero (off : Z) (ty : fty)               (* out_ptr.add(off).write_bytes(0, size_of::<ty>()) *)
| Write (off : Z) (nm : string) (ty : fty) (* out_ptr.add(off).cast::<ty>().write_unaligned(self.nm) *)
| Copy (off : Z) (nms : list string)       (* the slices self.nms, one after the other, from off *).

Record node_builder : Type := mkBuilder {
  b_fields : list (string * bty);
  b_type : Z;
  b_sub : Z;
  b_size : Z;
  b_slices : list string;
  b_steps : list build_step;
}.

(** The value of a build struct: one value per field. *)
Inductive bval : Set := BVal (v : fval) | BSlice (ty : fty) (vs : list fval).
Abbreviation struct_value := (list (string * bval)).

Fixpoint self_field (self : struct_value) (nm : string) : option bval :=
  match self with
  | [] => None
  | (nm', v) :: self => if decide (nm = nm') then Some v else self_field self nm
  end.

(** The elements and the memory of the slice [self.nm]; a field that the struct
    does not declare, or not as a slice, does not compile. *)
Definition slice_elems (self : struct_value) (nm : string) : list fval :=
  match self_field self nm with Some (BSlice _ vs) => vs | _ => [] end.
Definition slice_bytes (self : struct_value) (nm : string) : list Z :=
  match self_field self nm with Some (BSlice ty vs) => enc_elems ty vs | _ => [] end.
Definition size_of_val (self : struct_value) (nm : string) : Z := zlen (slice_bytes self nm).

Section builder.
Context `{Profile}.

Fixpoint add_slice_sizes (self : struct_value) (size : Z) (nms : list string) : outcome Z :=
  match nms with
  | [] => Ret size
  | nm :: nms =>
      let! size := usize_add size (size_of_val self nm) in
      add_slice_sizes self size nms
  end.

Definition node_size_in_bytes (b : node_builder) (self : struct_value)
  : outcome (result Z BuildError) :=
  let! size := add_slice_sizes self (b_size b) (b_slices b) in
  Ret (u16_try_from size).

(** The copies of a group of slices; [off] includes [dst_group_offset]. *)
Fixpoint copy_slices (self : struct_value) (out : mem_uninit) (off : Z) (nms : list string)
  : outcome mem_uninit :=
  match nms with
  | [] => Ret out
  | nm :: nms =>
      let! out := write_raw out off (slice_bytes self nm) in
      copy_slices self out (off + size_of_val self nm) nms
  end.

Definition exec_step (self : struct_value) (out : mem_uninit) (s : build_step)
  : outcome mem_uninit :=
  match s with
  | Zero off ty => write_raw out off (replicate (size_of_ty ty) 0)
  | Write off nm ty =>
      match self_field self nm with
      | Some (BVal v) => write_raw out off (enc_val ty v)
      | _ => Undefined
      end
  | Copy off nms => copy_slices self out off nms
  end.

Fixpoint exec_steps (self : struct_value) (out : mem_uninit) (ss : list build_step)
  : outcome mem_uninit :=
  match ss with
  | [] => Ret out
  | s :: ss => let! out := exec_step self out s in exec_steps self out ss
  end.

Definition node_write_data (b : node_builder) (self : struct_value) (out : mem_uninit)
  : outcome mem_uninit :=
  let! r := node_size_in_bytes b self in
  match r with
  | Err _ => Panic UnwrapFailed
  | Ok size =>
      let! _ := assert_ (size =? zlen out) in
      let header := header_new (b_type b) (b_sub b) size in
      let! out := write_raw out 0 (header_bytes header) in
      exec_steps self out (b_steps b)
  end.

Definition build_node (b : node_builder) (self : struct_value) : BuildNode :=
  mkBuildNode (node_size_in_bytes b self) (node_write_data b self).

End builder.

(** ** Module [build::end] *)

Definition EndInstance_build : node_builder :=
  {| b_fields := [];
     b_type := DeviceType_END; b_sub := DeviceSubType_END_INSTANCE;
     b_size := 4; b_slices := [];
     b_steps := [] |}.

Definition EndEntire_build : node_builder :=
  {| b_fields := [];
     b_type := DeviceType_END; b_sub := DeviceSubType_END_ENTIRE;
     b_size := 4; b_slices := [];
     b_steps := [] |}.

(** ** Module [build::hardware] *)

Definition HardwarePci_build : node_builder :=
  {| b_fields := [("function", Val U8); ("device", Val U8)];
     b_type := DeviceType_HARDWARE; b_sub := DeviceSubType_HARDWARE_PCI;
     b_size := 6; b_slices := [];
     b_steps := [Write 4 "function" U8; Write 5 "device" U8] |}.

Definition HardwarePccard_build : node_builder :=
  {| b_fields := [("function", Val U8)];
     b_type := DeviceType_HARDWARE; b_sub := DeviceSubType_HARDWARE_PCCARD;
     b_size := 5; b_slices := [];
     b_steps := [Write 4 "function" U8] |}.

Definition HardwareMemoryMapped_build : node_builder :=
  {| b_fields := [("memory_type", Val MemoryType); ("start_address", Val U64);
       ("end_address", Val U64)];
     b_type := DeviceType_HARDWARE; b_sub := DeviceSubType_HARDWARE_MEMORY_MAPPED;
     b_size := 24; b_slices := [];
     b_steps := [Write 4 "memory_type" MemoryType; Write 8 "start_address" U64;
       Write 16 "end_address" U64] |}.

Definition HardwareVendor_build : node_builder :=
  {| b_fields := [("vendor_guid", Val Guid); ("vendor_defined_data", Slice U8)];
     b_type := DeviceType_HARDWARE; b_sub := DeviceSubType_HARDWARE_VENDOR;
     b_size := 20; b_slices := ["vendor_defined_data"];
     b_steps := [Write 4 "vendor_guid" Guid; Copy 20 ["vendor_defined_data"]] |}.

Definition HardwareController_build : node_builder :=
  {| b_fields := [("controller_number", Val U32)];
     b_type := DeviceType_HARDWARE; b_sub := DeviceSubType_HARDWARE_CONTROLLER;
     b_size := 8; b_slices := [];
     b_steps := [Write 4 "controller_number" U32] |}.

Definition HardwareBmc_build : node_builder :=
  {| b_fields := [("interface_type", Val BmcInterfaceType); ("base_address", Val U64)];
     b_type := DeviceType_HARDWARE; b_sub := DeviceSubType_HARDWARE_BMC;
     b_size := 13; b_slices := [];
     b_steps := [Write 4 "interface_type" BmcInterfaceType; Write 5 "base_address" U64] |}.

(** ** Module [build::acpi] *)

Definition AcpiAcpi_build : node_builder :=
  {| b_fields := [("hid", Val U32); ("uid", Val U32)];
     b_type := DeviceType_ACPI; b_sub := DeviceSubType_ACPI;
     b_size := 12; b_slices := [];
     b_steps := [Write 4 "hid" U32; Write 8 "uid" U32] |}.

Definition AcpiExpanded_build : node_builder :=
  {| b_fields := [("hid", Val U32); ("uid", Val U32); ("cid", Val U32); ("hid_str", Slice U8);
       ("uid_str", Slice U8); ("cid_str", Slice U8)];
     b_type := DeviceType_ACPI; b_sub := DeviceSubType_ACPI_EXPANDED;
     b_size := 16; b_slices := ["hid_str"; "uid_str"; "cid_str"];
     b_steps := [Write 4 "hid" U32; Write 8 "uid" U32; Write 12 "cid" U32;
       Copy 16 ["hid_str"; "uid_str"; "cid_str"]] |}.

Definition AcpiAdr_build : node_builder :=
  {| b_fields := [("adr", Slice U32)];
     b_type := DeviceType_ACPI; b_sub := DeviceSubType_ACPI_ADR;
     b_size := 4; b_slices := ["adr"];
     b_steps := [Copy 4 ["adr"]] |}.

Definition AcpiNvdimm_build : node_builder :=
  {| b_fields := [("nfit_device_handle", Val U32)];
     b_type := DeviceType_ACPI; b_sub := DeviceSubType_ACPI_NVDIMM;
     b_size := 8; b_slices := [];
     b_steps := [Write 4 "nfit_device_handle" U32] |}.

(** ** Module [build::messaging] *)

Definition MessagingAtapi_build : node_builder :=
  {| b_fields := [("primary_secondary", Val PrimarySecondary); ("master_slave", Val MasterSlave);
       ("logical_unit_number", Val U16)];
     b_type := DeviceType_MESSAGING; b_sub := DeviceSubType_MESSAGING_ATAPI;
     b_size := 8; b_slices := [];
     b_steps := [Write 4 "primary_secondary" PrimarySecondary; Write 5 "master_slave" MasterSlave;
       Write 6 "logical_unit_number" U16] |}.

Definition MessagingScsi_build : node_builder :=
  {| b_fields := [("target_id", Val U16); ("logical_unit_number", Val U16)];
     b_type := DeviceType_MESSAGING; b_sub := DeviceSubType_MESSAGING_SCSI;
     b_size := 8; b_slices := [];
     b_steps := [Write 4 "target_id" U16; Write 6 "logical_unit_number" U16] |}.

Definition MessagingFibreChannel_build : node_builder :=
  {| b_fields := [("world_wide_name", Val U64); ("logical_unit_number", Val U64)];
     b_type := DeviceType_MESSAGING; b_sub := DeviceSubType_MESSAGING_FIBRE_CHANNEL;
     b_size := 24; b_slices := [];
     b_steps := [Zero 4 U32; Write 8 "world_wide_name" U64; Write 16 "logical_unit_number" U64]
       |}.

Definition MessagingFibreChannelEx_build : node_builder :=
  {| b_fields := [("world_wide_name", Val (Arr 8)); ("logical_unit_number", Val (Arr 8))];
     b_type := DeviceType_MESSAGING; b_sub := DeviceSubType_MESSAGING_FIBRE_CHANNEL_EX;
     b_size := 24; b_slices := [];
     b_steps := [Zero 4 U32; Write 8 "world_wide_name" (Arr 8);
       Write 16 "logical_unit_number" (Arr 8)] |}.

Definition MessagingIeee1394_build : node_builder :=
  {| b_fields := [("guid", Val (Arr 8))];
     b_type := DeviceType_MESSAGING; b_sub := DeviceSubType_MESSAGING_1394;
     b_size := 16; b_slices := [];
     b_steps := [Zero 4 U32; Write 8 "guid" (Arr 8)] |}.

Definition MessagingUsb_build : node_builder :=
  {| b_fields := [("parent_port_number", Val U8); ("interface", Val U8)];
     b_type := DeviceType_MESSAGING; b_sub := DeviceSubType_MESSAGING_USB;
     b_size := 6; b_slices := [];
     b_steps := [Write 4 "parent_port_number" U8; Write 5 "interface" U8] |}.

Definition MessagingSata_build : node_builder :=
  {| b_fields := [("hba_port_number", Val U16); ("port_multiplier_port_number", Val U16);
       ("logical_unit_number", Val U16)];
     b_type := DeviceType_MESSAGING; b_sub := DeviceSubType_MESSAGING_SATA;
     b_size := 10; b_slices := [];
     b_steps := [Write 4 "hba_port_number" U16; Write 6 "port_multiplier_port_number" U16;
       Write 8 "logical_unit_number" U16] |}.

Definition MessagingUsbWwid_build : node_builder :=
  {| b_fields := [("interface_number", Val U16); ("device_vendor_id", Val U16);
       ("device_product_id", Val U16); ("serial_number", Slice U16)];
     b_type := DeviceType_MESSAGING; b_sub := DeviceSubType_MESSAGING_USB_WWID;
     b_size := 10; b_slices := ["serial_number"];
     b_steps := [Write 4 "interface_number" U16; Write 6 "device_vendor_id" U16;
       Write 8 "device_product_id" U16; Copy 10 ["serial_number"]] |}.

Definition MessagingDeviceLogicalUnit_build : node_builder :=
  {| b_fields := [("logical_unit_number", Val U8)];
     b_type := DeviceType_MESSAGING; b_sub := DeviceSubType_MESSAGING_DEVICE_LOGICAL_UNIT;
     b_size := 5; b_slices := [];
     b_steps := [Write 4 "logical_unit_number" U8] |}.

Definition MessagingUsbClass_build : node_builder :=
  {| b_fields := [("vendor_id", Val U16); ("product_id", Val U16); ("device_class", Val U8);
       ("device_subclass", Val U8); ("device_protocol", Val U8)];
     b_type := DeviceType_MESSAGING; b_sub := DeviceSubType_MESSAGING_USB_CLASS;
     b_size := 11; b_slices := [];
     b_steps := [Write 4 "vendor_id" U16; Write 6 "product_id" U16; Write 8 "device_class" U8;
       Write 9 "device_subclass" U8; Write 10 "device_protocol" U8] |}.

Definition MessagingI2o_build : node_builder :=
  {| b_fields := [("target_id", Val U32)];
     b_type := DeviceType_MESSAGING; b_sub := DeviceSubType_MESSAGING_I2O;
     b_size := 8; b_slices := [];
     b_steps := [Write 4 "target_id" U32] |}.

Definition MessagingMacAddress_build : node_builder :=
  {| b_fields := [("mac_address", Val (Arr 32)); ("interface_type", Val U8)];
     b_type := DeviceType_MESSAGING; b_sub := DeviceSubType_MESSAGING_MAC_ADDRESS;
     b_size := 37; b_slices := [];
     b_steps := [Write 4 "mac_address" (Arr 32); Write 36 "interface_type" U8] |}.

Definition MessagingIpv4_build : node_builder :=
  {| b_fields := [("local_ip_address", Val (Arr 4)); ("remote_ip_address", Val (Arr 4));
       ("local_port", Val U16); ("remote_port", Val U16); ("protocol", Val U16);
       ("ip_address_origin", Val Ipv4AddressOrigin); ("gateway_ip_address", Val (Arr 4));
       ("subnet_mask", Val (Arr 4))];
     b_type := DeviceType_MESSAGING; b_sub := DeviceSubType_MESSAGING_IPV4;
     b_size := 27; b_slices := [];
     b_steps := [Write 4 "local_ip_address" (Arr 4); Write 8 "remote_ip_address" (Arr 4);
       Write 12 "local_port" U16; Write 14 "remote_port" U16; Write 16 "protocol" U16;
       Write 18 "ip_address_origin" Ipv4AddressOrigin; Write 19 "gateway_ip_address" (Arr 4);
       Write 23 "subnet_mask" (Arr 4)] |}.

Definition MessagingIpv6_build : node_builder :=
  {| b_fields := [("local_ip_address", Val (Arr 16)); ("remote_ip_address", Val (Arr 16));
       ("local_port", Val U16); ("remote_port", Val U16); ("protocol", Val U16);
       ("ip_address_origin", Val Ipv6AddressOrigin); ("prefix_length", Val U8);
       ("gateway_ip_address", Val (Arr 16))];
     b_type := DeviceType_MESSAGING; b_sub := DeviceSubType_MESSAGING_IPV6;
     b_size := 60; b_slices := [];
     b_steps := [Write 4 "local_ip_address" (Arr 16); Write 20 "remote_ip_address" (Arr 16);
       Write 36 "local_port" U16; Write 38 "remote_port" U16; Write 40 "protocol" U16;
       Write 42 "ip_address_origin" Ipv6AddressOrigin; Write 43 "prefix_length" U8;
       Write 44 "gateway_ip_address" (Arr 16)] |}.

Definition MessagingVlan_build : node_builder :=
  {| b_fields := [("vlan_id", Val U16)];
     b_type := DeviceType_MESSAGING; b_sub := DeviceSubType_MESSAGING_VLAN;
     b_size := 6; b_slices := [];
     b_steps := [Write 4 "vlan_id" U16] |}.

Definition MessagingInfiniband_build : node_builder :=
  {| b_fields := [("resource_flags", Val InfinibandResourceFlags); ("port_gid", Val (Arr 16));
       ("ioc_guid_or_service_id", Val U64); ("target_port_id", Val U64); ("device_id", Val U64)];
     b_type := DeviceType_MESSAGING; b_sub := DeviceSubType_MESSAGING_INFINIBAND;
     b_size := 48; b_slices := [];
     b_steps := [Write 4 "resource_flags" InfinibandResourceFlags; Write 8 "port_gid" (Arr 16);
       Write 24 "ioc_guid_or_service_id" U64; Write 32 "target_port_id" U64;
       Write 40 "device_id" U64] |}.

Definition MessagingUart_build : node_builder :=
  {| b_fields := [("baud_rate", Val U64); ("data_bits", Val U8); ("parity", Val Parity);
       ("stop_bits", Val StopBits)];
     b_type := DeviceType_MESSAGING; b_sub := DeviceSubType_MESSAGING_UART;
     b_size := 19; b_slices := [];
     b_steps := [Zero 4 U32; Write 8 "baud_rate" U64; Write 16 "data_bits" U8;
       Write 17 "parity" Parity; Write 18 "stop_bits" StopBits] |}.

Definition MessagingVendor_build : node_builder :=
  {| b_fields := [("vendor_guid", Val Guid); ("vendor_defined_data", Slice U8)];
     b_type := DeviceType_MESSAGING; b_sub := DeviceSubType_MESSAGING_VENDOR;
     b_size := 20; b_slices := ["vendor_defined_data"];
     b_steps := [Write 4 "vendor_guid" Guid; Copy 20 ["vendor_defined_data"]] |}.

Definition MessagingSasEx_build : node_builder :=
  {| b_fields := [("sas_address", Val (Arr 8)); ("logical_unit_number", Val (Arr 8));
       ("info", Val U16); ("relative_target_port", Val U16)];
     b_type := DeviceType_MESSAGING; b_sub := DeviceSubType_MESSAGING_SCSI_SAS_EX;
     b_size := 24; b_slices := [];
     b_steps := [Write 4 "sas_address" (Arr 8); Write 12 "logical_unit_number" (Arr 8);
       Write 20 "info" U16; Write 22 "relative_target_port" U16] |}.

Definition MessagingIscsi_build : node_builder :=
  {| b_fields := [("protocol", Val IscsiProtocol); ("options", Val IscsiLoginOptions);
       ("logical_unit_number", Val (Arr 8)); ("target_portal_group_tag", Val U16);
       ("iscsi_target_name", Slice U8)];
     b_type := DeviceType_MESSAGING; b_sub := DeviceSubType_MESSAGING_ISCSI;
     b_size := 18; b_slices := ["iscsi_target_name"];
     b_steps := [Write 4 "protocol" IscsiProtocol; Write 6 "options" IscsiLoginOptions;
       Write 8 "logical_unit_number" (Arr 8); Write 16 "target_portal_group_tag" U16;
       Copy 18 ["iscsi_target_name"]] |}.

Definition MessagingNvmeNamespace_build : node_builder :=
  {| b_fields := [("namespace_identifier", Val U32);
       ("ieee_extended_unique_identifier", Val U64)];
     b_type := DeviceType_MESSAGING; b_sub := DeviceSubType_MESSAGING_NVME_NAMESPACE;
     b_size := 16; b_slices := [];
     b_steps := [Write 4 "namespace_identifier" U32;
       Write 8 "ieee_extended_unique_identifier" U64] |}.

Definition MessagingUri_build : node_builder :=
  {| b_fields := [("value", Slice U8)];
     b_type := DeviceType_MESSAGING; b_sub := DeviceSubType_MESSAGING_URI;
     b_size := 4; b_slices := ["value"];
     b_steps := [Copy 4 ["value"]] |}.

Definition MessagingUfs_build : node_builder :=
  {| b_fields := [("target_id", Val U8); ("logical_unit_number", Val U8)];
     b_type := DeviceType_MESSAGING; b_sub := DeviceSubType_MESSAGING_UFS;
     b_size := 6; b_slices := [];
     b_steps := [Write 4 "target_id" U8; Write 5 "logical_unit_number" U8] |}.

Definition MessagingSd_build : node_builder :=
  {| b_fields := [("slot_number", Val U8)];
     b_type := DeviceType_MESSAGING; b_sub := DeviceSubType_MESSAGING_SD;
     b_size := 5; b_slices := [];
     b_steps := [Write 4 "slot_number" U8] |}.

Definition MessagingBluetooth_build : node_builder :=
  {| b_fields := [("device_address", Val (Arr 6))];
     b_type := DeviceType_MESSAGING; b_sub := DeviceSubType_MESSAGING_BLUETOOTH;
     b_size := 10; b_slices := [];
     b_steps := [Write 4 "device_address" (Arr 6)] |}.

Definition MessagingWifi_build : node_builder :=
  {| b_fields := [("ssid", Val (Arr 32))];
     b_type := DeviceType_MESSAGING; b_sub := DeviceSubType_MESSAGING_WIFI;
     b_size := 36; b_slices := [];
     b_steps := [Write 4 "ssid" (Arr 32)] |}.

Definition MessagingEmmc_build : node_builder :=
  {| b_fields := [("slot_number", Val U8)];
     b_type := DeviceType_MESSAGING; b_sub := DeviceSubType_MESSAGING_EMMC;
     b_size := 5; b_slices := [];
     b_steps := [Write 4 "slot_number" U8] |}.

Definition MessagingBluetoothLe_build : node_builder :=
  {| b_fields := [("device_address", Val (Arr 6)); ("address_type", Val BluetoothLeAddressType)];
     b_type := DeviceType_MESSAGING; b_sub := DeviceSubType_MESSAGING_BLUETOOTH_LE;
     b_size := 11; b_slices := [];
     b_steps := [Write 4 "device_address" (Arr 6); Write 10 "address_type" BluetoothLeAddressType]
       |}.

Definition MessagingDns_build : node_builder :=
  {| b_fields := [("address_type", Val DnsAddressType); ("addresses", Slice IpAddress)];
     b_type := DeviceType_MESSAGING; b_sub := DeviceSubType_MESSAGING_DNS;
     b_size := 5; b_slices := ["addresses"];
     b_steps := [Write 4 "address_type" DnsAddressType; Copy 5 ["addresses"]] |}.

Definition MessagingNvdimmNamespace_build : node_builder :=
  {| b_fields := [("uuid", Val (Arr 16))];
     b_type := DeviceType_MESSAGING; b_sub := DeviceSubType_MESSAGING_NVDIMM_NAMESPACE;
     b_size := 20; b_slices := [];
     b_steps := [Write 4 "uuid" (Arr 16)] |}.

Definition MessagingNvmeOfNamespace_build : node_builder :=
  {| b_fields := [("nidt", Val U8); ("nid", Val (Arr 16)); ("subsystem_nqn", Slice U8)];
     b_type := DeviceType_MESSAGING; b_sub := DeviceSubType_MESSAGING_NVME_OF_NAMESPACE;
     b_size := 21; b_slices := ["subsystem_nqn"];
     b_steps := [Write 4 "nidt" U8; Write 5 "nid" (Arr 16); Copy 21 ["subsystem_nqn"]] |}.

(** ** Module [build::media] *)

Definition MediaHardDrive_build : node_builder :=
  {| b_fields := [("partition_number", Val U32); ("partition_start", Val U64);
       ("partition_size", Val U64); ("partition_signature", Val (Arr 16));
       ("partition_format", Val PartitionFormat); ("signature_type", Val U8)];
     b_type := DeviceType_MEDIA; b_sub := DeviceSubType_MEDIA_HARD_DRIVE;
     b_size := 42; b_slices := [];
     b_steps := [Write 4 "partition_number" U32; Write 8 "partition_start" U64;
       Write 16 "partition_size" U64; Write 24 "partition_signature" (Arr 16);
       Write 40 "partition_format" PartitionFormat; Write 41 "signature_type" U8] |}.

Definition MediaCdRom_build : node_builder :=
  {| b_fields := [("boot_entry", Val U32); ("partition_start", Val U64);
       ("partition_size", Val U64)];
     b_type := DeviceType_MEDIA; b_sub := DeviceSubType_MEDIA_CD_ROM;
     b_size := 24; b_slices := [];
     b_steps := [Write 4 "boot_entry" U32; Write 8 "partition_start" U64;
       Write 16 "partition_size" U64] |}.

Definition MediaVendor_build : node_builder :=
  {| b_fields := [("vendor_guid", Val Guid); ("vendor_defined_data", Slice U8)];
     b_type := DeviceType_MEDIA; b_sub := DeviceSubType_MEDIA_VENDOR;
     b_size := 20; b_slices := ["vendor_defined_data"];
     b_steps := [Write 4 "vendor_guid" Guid; Copy 20 ["vendor_defined_data"]] |}.

Definition MediaFilePath_build : node_builder :=
  {| b_fields := [("path_name", Slice U16)];
     b_type := DeviceType_MEDIA; b_sub := DeviceSubType_MEDIA_FILE_PATH;
     b_size := 4; b_slices := ["path_name"];
     b_steps := [Copy 4 ["path_name"]] |}.

Definition MediaProtocol_build : node_builder :=
  {| b_fields := [("protocol_guid", Val Guid)];
     b_type := DeviceType_MEDIA; b_sub := DeviceSubType_MEDIA_PROTOCOL;
     b_size := 20; b_slices := [];
     b_steps := [Write 4 "protocol_guid" Guid] |}.

Definition MediaPiwgFirmwareFile_build : node_builder :=
  {| b_fields := [("data", Slice U8)];
     b_type := DeviceType_MEDIA; b_sub := DeviceSubType_MEDIA_PIWG_FIRMWARE_FILE;
     b_size := 4; b_slices := ["data"];
     b_steps := [Copy 4 ["data"]] |}.

Definition MediaPiwgFirmwareVolume_build : node_builder :=
  {| b_fields := [("data", Slice U8)];
     b_type := DeviceType_MEDIA; b_sub := DeviceSubType_MEDIA_PIWG_FIRMWARE_VOLUME;
     b_size := 4; b_slices := ["data"];
     b_steps := [Copy 4 ["data"]] |}.

Definition MediaRelativeOffsetRange_build : node_builder :=
  {| b_fields := [("starting_offset", Val U64); ("ending_offset", Val U64)];
     b_type := DeviceType_MEDIA; b_sub := DeviceSubType_MEDIA_RELATIVE_OFFSET_RANGE;
     b_size := 24; b_slices := [];
     b_steps := [Zero 4 U32; Write 8 "starting_offset" U64; Write 16 "ending_offset" U64] |}.

Definition MediaRamDisk_build : node_builder :=
  {| b_fields := [("starting_address", Val U64); ("ending_address", Val U64);
       ("disk_type", Val RamDiskType); ("disk_instance", Val U16)];
     b_type := DeviceType_MEDIA; b_sub := DeviceSubType_MEDIA_RAM_DISK;
     b_size := 38; b_slices := [];
     b_steps := [Write 4 "starting_address" U64; Write 12 "ending_address" U64;
       Write 20 "disk_type" RamDiskType; Write 36 "disk_instance" U16] |}.

(** ** Module [build::bios_boot_spec] *)

Definition BiosBootSpecBootSpecification_build : node_builder :=
  {| b_fields := [("device_type", Val U16); ("status_flag", Val U16);
       ("description_string", Slice U8)];
     b_type := DeviceType_BIOS_BOOT_SPEC; b_sub := DeviceSubType_BIOS_BOOT_SPECIFICATION;
     b_size := 8; b_slices := ["description_string"];
     b_steps := [Write 4 "device_type" U16; Write 6 "status_flag" U16;
       Copy 8 ["description_string"]] |}.
(** ** The hard drive node: its signature fields are computed *)

Record HardDrive : Set := mkHardDrive {
  partition_number : Z;
  partition_start : Z;
  partition_size : Z;
  hd_partition_signature : PartitionSignature;
  partition_format : Z;
}.

Definition build_partition_signature (self : HardDrive) : list Z :=
  match hd_partition_signature self with
  | SigNone => replicate 16 0
  | Mbr mbr => mbr ++ drop 4 (replicate 16 0)
  | SigGuid guid => guid
  | Unknown _ signature => signature
  end.

Definition build_signature_type (self : HardDrive) : Z :=
  match hd_partition_signature self with
  | SigNone => 0
  | Mbr _ => 1
  | SigGuid _ => 2
  | Unknown signature_type _ => signature_type
  end.

(** The values the writes of [MediaHardDrive_build] take from the struct. *)
Definition HardDrive_value (self : HardDrive) : struct_value :=
  [("partition_number", BVal (VInt (partition_number self)));
   ("partition_start", BVal (VInt (partition_start self)));
   ("partition_size", BVal (VInt (partition_size self)));
   ("partition_signature", BVal (VArr (build_partition_signature self)));
   ("partition_format", BVal (VInt (partition_format self)));
   ("signature_type", BVal (VInt (build_signature_type self)))].

(** ** The REST service node: its trailing data is optional *)

Record RestService : Set := mkRestService {
  service_type : Z;
  access_mode : Z;
  (* Option<RestServiceVendorData>: the GUID's bytes and the data *)
  rs_vendor_guid_and_data : option (list Z * list Z);
}.

Section rest_service.
Context `{Profile}.

Definition build_size_vendor_guid_and_data (self : RestService) : outcome Z :=
  match rs_vendor_guid_and_data self with
  | Some (_, vendor_defined_data) =>
      let! _ := assert_ (service_type self =? RestServiceType_VENDOR) in
      usize_add 16 (zlen vendor_defined_data)
  | None => Ret 0
  end.

Definition build_vendor_guid_and_data (self : RestService) (out : mem_uninit)
  : outcome mem_uninit :=
  match rs_vendor_guid_and_data self with
  | Some (vendor_guid, vendor_defined_data) =>
      let! _ := assert_ (service_type self =? RestServiceType_VENDOR) in
      let! guid_out := slice out 0 16 in
      let! data_out := slice out 16 (zlen out) in
      let! guid_out := write_raw guid_out 0 vendor_guid in
      let! src := read_raw vendor_defined_data 0 (zlen data_out) in
      let! data_out := write_raw data_out 0 src in
      Ret (guid_out ++ data_out)
  | None => Ret out
  end.

Definition RestService_size_in_bytes (self : RestService) : outcome (result Z BuildError) :=
  let! extra := build_size_vendor_guid_and_data self in
  let! size := usize_add 6 extra in
  Ret (u16_try_from size).

Definition RestService_write_data (self : RestService) (out : mem_uninit)
  : outcome mem_uninit :=
  let! r := RestService_size_in_bytes self in
  match r with
  | Err _ => Panic UnwrapFailed
  | Ok size =>
      let! _ := assert_ (size =? zlen out) in
      let header := header_new DeviceType_MESSAGING DeviceSubType_MESSAGING_REST_SERVICE size in
      let! out := write_raw out 0 (header_bytes header) in
      let! out := write_raw out 4 (enc_val RestServiceType (VInt (service_type self))) in
      let! out := write_raw out 5 (enc_val RestServiceAccessMode (VInt (access_mode self))) in
      let! tail := slice out 6 (zlen out) in
      let! tail := build_vendor_guid_and_data self tail in
      Ret (take 6 out ++ tail)
  end.

Definition build_rest_service (self : RestService) : BuildNode :=
  mkBuildNode (RestService_size_in_bytes self) (RestService_write_data self).

End rest_service.

(** ** Well-typed build structs *)

Definition bval_ok (t : bty) (v : bval) : Prop :=
  match t, v with
  | Val ty, BVal v => val_ok ty v
  | Slice ty, BSlice ty' vs => ty = ty' /\ Forall (val_ok ty) vs
  | _, _ => False
  end.

Definition value_ok (b : node_builder) (self : struct_value) : Prop :=
  Forall2 (fun f v => fst f = fst v /\ bval_ok (snd f) (snd v)) (b_fields b) self.

Fixpoint declared (fs : list (string * bty)) (nm : string) : option bty :=
  match fs with
  | [] => None
  | (nm', t) :: fs => if decide (nm = nm') then Some t else declared fs nm
  end.

#[export] Instance fty_eq_dec : EqDecision fty.
Proof. solve_decision. Defined.
#[export] Instance bty_eq_dec : EqDecision bty.
Proof. solve_decision. Defined.

(** The writes fill the struct's fields in order, with no gap and no overlap,
    each with a declared field of the same name and type, or with zeros. *)
Fixpoint layout_ok (b : node_builder) (off : Z) (fs : list (string * fty))
  (ss : list build_step) : bool :=
  match ss, fs with
  | [], [] => bool_decide (b_slices b = [])
  | [Copy off' nms], [] => (off' =? off) && bool_decide (nms = b_slices b)
  | Zero off' ty :: ss, (nm, ty') :: fs =>
      (off' =? off) && bool_decide (ty = ty') && is_scalar_ty ty &&
      bool_decide (declared (b_fields b) nm = None) &&
      layout_ok b (off + Z.of_nat (size_of_ty ty)) fs ss
  | Write off' nm ty :: ss, (nm', ty') :: fs =>
      (off' =? off) && bool_decide (nm = nm') && bool_decide (ty = ty') &&
      bool_decide (declared (b_fields b) nm = Some (Val ty)) &&
      layout_ok b (off + Z.of_nat (size_of_ty ty)) fs ss
  | _, _ => false
  end.

(** The fields that are slices. *)
Fixpoint slice_names (fs : list (string * bty)) : list string :=
  match fs with
  | [] => []
  | (nm, Slice _) :: fs => nm :: slice_names fs
  | (_, Val _) :: fs => slice_names fs
  end.

(** The builder agrees with the struct it builds. *)
Definition matches (s : node_struct) (b : node_builder) : bool :=
  (b_size b =? size_of_struct s) && layout_ok b size_of_header (fields s) (b_steps b) &&
  bool_decide (is_u8 (b_type b)) && bool_decide (is_u8 (b_sub b)) &&
  match dst s with
  | None => bool_decide (b_slices b = [])
  | Some (_, ty) =>
      (0 <? size_of_ty ty)%nat &&
      forallb (fun nm => bool_decide (declared (b_fields b) nm = Some (Slice ty))) (b_slices b)
  end &&
  forallb (fun f => match snd f with
                    | Val ty => bool_decide ((fst f, ty) ∈ fields s)
                    | Slice _ => true
                    end) (b_fields b) &&
  bool_decide (NoDup (map fst (fields s))) &&
  bool_decide (b_slices b = slice_names (b_fields b)).

(** The fields of the node that is built. *)
Fixpoint built_fields (self : struct_value) (fs : list (string * fty)) (ss : list build_step)
  : list (string * fval) :=
  match ss, fs with
  | Zero _ _ :: ss, (nm, _) :: fs => (nm, VInt 0) :: built_fields self fs ss
  | Write _ nm _ :: ss, (_, _) :: fs =>
      match self_field self nm with
      | Some (BVal v) => (nm, v) :: built_fields self fs ss
      | _ => []
      end
  | _, _ => []
  end.

Definition built_view (s : node_struct) (b : node_builder) (self : struct_value) : node_view :=
  mkView (built_fields self (fields s) (b_steps b))
    (match dst s with
     | None => None
     | Some (nm, _) => Some (nm, concat (map (slice_elems self) (b_slices b)))
     end).

(** ** Executing the writes *)

Lemma write_raw_next (w bs : list Z) (free : mem_uninit) off :
  off = zlen w -> zlen bs <= zlen free ->
  write_raw (map Some w ++ free) off bs = Ret (map Some (w ++ bs) ++ drop (length bs) free).
Proof.
  intros -> Hl. unfold write_raw, zlen in *.
  rewrite length_app, length_map. rewrite !(proj2 (Z.leb_le _ _)) by lia. cbn [andb].
  rewrite Nat2Z.id, take_app_length' by (symmetry; apply length_map).
  rewrite drop_app_ge by (rewrite length_map; lia). rewrite length_map, map_app, <- app_assoc.
  do 4 f_equal. lia.
Qed.

Lemma declared_self_field (fs : list (string * bty)) (self : struct_value) nm t :
  Forall2 (fun f v => fst f = fst v /\ bval_ok (snd f) (snd v)) fs self ->
  declared fs nm = Some t -> exists v, self_field self nm = Some v /\ bval_ok t v.
Proof.
  induction 1 as [|[n1 t1] [n2 v2] fs vs [E Hv] _ IH]; simpl in *; [done|].
  subst n2. destruct (decide (nm = n1)); [|done]. intros [= <-]. eauto.
Qed.

Section exec.
Context `{Profile} (b : node_builder) (self : struct_value) (Hself : value_ok b self).

Lemma declared_field nm t :
  declared (b_fields b) nm = Some t -> exists v, self_field self nm = Some v /\ bval_ok t v.
Proof. by apply declared_self_field. Qed.

(** The memory of the slices, one after the other. *)
Definition slices_bytes (nms : list string) : list Z := concat (map (slice_bytes self) nms).

Lemma copy_slices_next w free off nms :
  off = zlen w -> zlen (slices_bytes nms) <= zlen free ->
  copy_slices self (map Some w ++ free) off nms =
  Ret (map Some (w ++ slices_bytes nms) ++ drop (length (slices_bytes nms)) free).
Proof.
  revert w free off. induction nms as [|nm nms IH]; intros w free off -> Hl.
  - unfold slices_bytes. simpl. by rewrite app_nil_r, drop_0.
  - unfold slices_bytes in *. cbn [copy_slices map concat] in *. rewrite zlen_app in Hl.
    pose proof (zlen_nonneg (concat (map (slice_bytes self) nms))).
    rewrite write_raw_next by (done || lia). cbn [obind]. rewrite IH.
    + by rewrite <- app_assoc, drop_drop, length_app.
    + rewrite zlen_app. done.
    + unfold zlen in *. rewrite length_drop. lia.
Qed.

Lemma exec_steps_next fs ss off w free :
  layout_ok b off fs ss = true -> off = zlen w ->
  let bs := enc_fields fs (built_fields self fs ss) ++ slices_bytes (b_slices b) in
  zlen bs <= zlen free ->
  exec_steps self (map Some w ++ free) ss = Ret (map Some (w ++ bs) ++ drop (length bs) free) /\
  Forall2 (fun f v => fst f = fst v /\ val_ok (snd f) (snd v)) fs (built_fields self fs ss).
Proof.
  revert fs off w free. induction ss as [|st ss IH]; intros fs off w free Hok -> bs Hl; subst bs.
  - destruct fs as [|[? ?] ?]; [|done]. simpl in Hok. apply bool_decide_eq_true in Hok.
    rewrite Hok. unfold slices_bytes. simpl. rewrite app_nil_r, drop_0. split; [done|constructor].
  - destruct st as [o ty|o nm ty|o nms].
    + destruct fs as [|[nm' ty'] fs]; [done|]. cbn [layout_ok] in Hok. z_bools.
      subst o.
      repeat match goal with H : bool_decide _ = true |- _ => apply bool_decide_eq_true in H end. subst ty'.
      cbn [built_fields enc_fields exec_steps exec_step enc_val] in *.
      assert (le_bytes (size_of_ty ty) 0 = replicate (size_of_ty ty) 0) as E0
        by (clear; induction (size_of_ty ty) as [|k IHk]; simpl; [done|]; by rewrite Zmod_0_l, Zdiv_0_l, IHk).
      rewrite E0 in *. rewrite <- app_assoc in Hl |- *. rewrite zlen_app in Hl.
      match type of Hl with _ + zlen ?r <= _ => pose proof (zlen_nonneg r); set (rest := r) in * end.
      rewrite write_raw_next by (done || lia). cbn [obind].
      destruct (IH fs (zlen w + Z.of_nat (size_of_ty ty)) (w ++ replicate (size_of_ty ty) 0)
        (drop (length (replicate (size_of_ty ty) 0)) free)) as [-> HF]; [done|..].
      * rewrite zlen_app. unfold zlen at 3. by rewrite length_replicate.
      * fold rest. unfold zlen in *. rewrite length_drop. lia.
      * fold rest. split; [by rewrite <- app_assoc, drop_drop, length_app|].
        constructor; [|done]. simpl. split; [done|]. split; [done|]. split; [lia|]. apply Z.pow_pos_nonneg; lia.
    + destruct fs as [|[nm' ty'] fs]; [done|]. cbn [layout_ok] in Hok. z_bools.
      repeat match goal with H : bool_decide _ = true |- _ => apply bool_decide_eq_true in H end.
      subst o nm' ty'. destruct (declared_field nm (Val ty)) as ([v|] & Hv & Hvok); [done| |done].
      cbn [built_fields exec_steps exec_step] in *. rewrite Hv in *. cbn [enc_fields] in *. simpl in Hvok.
      rewrite <- app_assoc in Hl |- *. rewrite zlen_app in Hl.
      match type of Hl with _ + zlen ?r <= _ => pose proof (zlen_nonneg r); set (rest := r) in * end.
      rewrite write_raw_next by (done || lia). cbn [obind].
      pose proof (length_enc_val ty v Hvok) as Hlen.
      destruct (IH fs (zlen w + Z.of_nat (size_of_ty ty)) (w ++ enc_val ty v)
        (drop (length (enc_val ty v)) free)) as [-> HF]; [done|..].
      * rewrite zlen_app. unfold zlen at 3. by rewrite Hlen.
      * fold rest. unfold zlen in *. rewrite length_drop. lia.
      * fold rest. split; [by rewrite <- app_assoc, drop_drop, length_app|]. by constructor.
    + destruct fs as [|[? ?] ?]; [|destruct ss; done]. destruct ss as [|? ?]; [|done].
      cbn [layout_ok] in Hok. z_bools. subst o.
      match goal with H : bool_decide _ = true |- _ => apply bool_decide_eq_true in H; subst nms end.
      cbn [built_fields enc_fields exec_steps exec_step app] in *.
      rewrite copy_slices_next by done. cbn [obind]. split; [done|constructor].
Qed.

Lemma add_slice_sizes_ok size nms :
  0 <= size -> size + zlen (slices_bytes nms) < 2 ^ 64 ->
  add_slice_sizes self size nms = Ret (size + zlen (slices_bytes nms)).
Proof.
  revert size. induction nms as [|nm nms IH]; intros size Hs Hl.
  - simpl. f_equal. unfold slices_bytes, zlen. simpl. lia.
  - unfold slices_bytes in *. cbn [add_slice_sizes map concat] in *. rewrite zlen_app in Hl |- *.
    pose proof (zlen_nonneg (slice_bytes self nm)). pose proof (zlen_nonneg (concat (map (slice_bytes self) nms))).
    unfold size_of_val. rewrite usize_add_ok by lia. cbn [obind]. rewrite IH by lia. f_equal. lia.
Qed.

Lemma slices_elems_bytes ty nms :
  forallb (fun nm => bool_decide (declared (b_fields b) nm = Some (Slice ty))) nms = true ->
  Forall (val_ok ty) (concat (map (slice_elems self) nms)) /\
  enc_elems ty (concat (map (slice_elems self) nms)) = slices_bytes nms.
Proof.
  induction nms as [|nm nms IH]; intros Hd; [done|]. simpl in Hd. apply andb_true_iff in Hd as [Hd Hr].
  apply bool_decide_eq_true in Hd. destruct (IH Hr) as [IHf IHe].
  destruct (declared_field nm (Slice ty) Hd) as ([|ty' vs] & Hv & Hvok); [done|]. destruct Hvok as [<- Hvs].
  unfold slices_bytes in *. cbn [map concat]. unfold slice_elems at 1 3, slice_bytes at 1. rewrite Hv.
  split; [by apply Forall_app|]. unfold enc_elems in *. by rewrite map_app, concat_app, IHe.
Qed.

End exec.

(** ** Every build node *)

(** The build nodes by the [DevicePathNodeEnum] constructor of the node they
    build, with its struct. *)
Definition build_table : list (string * (node_struct * node_builder)) :=
  [ ("EndInstance", (EndInstance, EndInstance_build))
  ; ("EndEntire", (EndEntire, EndEntire_build))
  ; ("HardwarePci", (HardwarePci, HardwarePci_build))
  ; ("HardwarePccard", (HardwarePccard, HardwarePccard_build))
  ; ("HardwareMemoryMapped", (HardwareMemoryMapped, HardwareMemoryMapped_build))
  ; ("HardwareVendor", (HardwareVendor, HardwareVendor_build))
  ; ("HardwareController", (HardwareController, HardwareController_build))
  ; ("HardwareBmc", (HardwareBmc, HardwareBmc_build))
  ; ("AcpiAcpi", (AcpiAcpi, AcpiAcpi_build))
  ; ("AcpiExpanded", (AcpiExpanded, AcpiExpanded_build))
  ; ("AcpiAdr", (AcpiAdr, AcpiAdr_build))
  ; ("AcpiNvdimm", (AcpiNvdimm, AcpiNvdimm_build))
  ; ("MessagingAtapi", (MessagingAtapi, MessagingAtapi_build))
  ; ("MessagingScsi", (MessagingScsi, MessagingScsi_build))
  ; ("MessagingFibreChannel", (MessagingFibreChannel, MessagingFibreChannel_build))
  ; ("MessagingFibreChannelEx", (MessagingFibreChannelEx, MessagingFibreChannelEx_build))
  ; ("MessagingIeee1394", (MessagingIeee1394, MessagingIeee1394_build))
  ; ("MessagingUsb", (MessagingUsb, MessagingUsb_build))
  ; ("MessagingSata", (MessagingSata, MessagingSata_build))
  ; ("MessagingUsbWwid", (MessagingUsbWwid, MessagingUsbWwid_build))
  ; ("MessagingDeviceLogicalUnit", (MessagingDeviceLogicalUnit, MessagingDeviceLogicalUnit_build))
  ; ("MessagingUsbClass", (MessagingUsbClass, MessagingUsbClass_build))
  ; ("MessagingI2o", (MessagingI2o, MessagingI2o_build))
  ; ("MessagingMacAddress", (MessagingMacAddress, MessagingMacAddress_build))
  ; ("MessagingIpv4", (MessagingIpv4, MessagingIpv4_build))
  ; ("MessagingIpv6", (MessagingIpv6, MessagingIpv6_build))
  ; ("MessagingVlan", (MessagingVlan, MessagingVlan_build))
  ; ("MessagingInfiniband", (MessagingInfiniband, MessagingInfiniband_build))
  ; ("MessagingUart", (MessagingUart, MessagingUart_build))
  ; ("MessagingVendor", (MessagingVendor, MessagingVendor_build))
  ; ("MessagingSasEx", (MessagingSasEx, MessagingSasEx_build))
  ; ("MessagingIscsi", (MessagingIscsi, MessagingIscsi_build))
  ; ("MessagingNvmeNamespace", (MessagingNvmeNamespace, MessagingNvmeNamespace_build))
  ; ("MessagingUri", (MessagingUri, MessagingUri_build))
  ; ("MessagingUfs", (MessagingUfs, MessagingUfs_build))
  ; ("MessagingSd", (MessagingSd, MessagingSd_build))
  ; ("MessagingBluetooth", (MessagingBluetooth, MessagingBluetooth_build))
  ; ("MessagingWifi", (MessagingWifi, MessagingWifi_build))
  ; ("MessagingEmmc", (MessagingEmmc, MessagingEmmc_build))
  ; ("MessagingBluetoothLe", (MessagingBluetoothLe, MessagingBluetoothLe_build))
  ; ("MessagingDns", (MessagingDns, MessagingDns_build))
  ; ("MessagingNvdimmNamespace", (MessagingNvdimmNamespace, MessagingNvdimmNamespace_build))
  ; ("MessagingNvmeOfNamespace", (MessagingNvmeOfNamespace, MessagingNvmeOfNamespace_build))
  ; ("MediaHardDrive", (MediaHardDrive, MediaHardDrive_build))
  ; ("MediaCdRom", (MediaCdRom, MediaCdRom_build))
  ; ("MediaVendor", (MediaVendor, MediaVendor_build))
  ; ("MediaFilePath", (MediaFilePath, MediaFilePath_build))
  ; ("MediaProtocol", (MediaProtocol, MediaProtocol_build))
  ; ("MediaPiwgFirmwareFile", (MediaPiwgFirmwareFile, MediaPiwgFirmwareFile_build))
  ; ("MediaPiwgFirmwareVolume", (MediaPiwgFirmwareVolume, MediaPiwgFirmwareVolume_build))
  ; ("MediaRelativeOffsetRange", (MediaRelativeOffsetRange, MediaRelativeOffsetRange_build))
  ; ("MediaRamDisk", (MediaRamDisk, MediaRamDisk_build))
  ; ("BiosBootSpecBootSpecification", (BiosBootSpecBootSpecification, BiosBootSpecBootSpecification_build)) ].

Lemma build_table_matches :
  Forall (fun e => matches (fst (snd e)) (snd (snd e)) = true) build_table.
Proof. unfold build_table. repeat (constructor; [vm_compute; reflexivity|]). constructor. Qed.

(** The arm of the dispatch for a type. *)
Fixpoint find_arm (arms : list ((Z * Z) * (string * conversion))) (ft : Z * Z)
  : option (string * conversion) :=
  match arms with
  | [] => None
  | (ft', arm) :: arms => if bool_decide (ft = ft') then Some arm else find_arm arms ft
  end.

Lemma dispatch_find_arm arms node nm c s :
  find_arm arms (full_type node) = Some (nm, c) -> conversion_of c (full_type node) s ->
  node_wf node -> length_fits s (zlen (data node)) = true ->
  node_enum_dispatch arms node = Ret (Ok (nm, decode_struct s (data node))).
Proof.
  intros Hf Hc Hw Hl. induction arms as [|[ft [nm' c']] arms IH]; simpl in *; [done|].
  destruct (bool_decide (full_type node = ft)); [|by auto]. injection Hf as -> ->.
  rewrite (conversion_spec c _ s) by done. rewrite bool_decide_true by done. by rewrite Hl.
Qed.

(** Each struct of the table is the one the dispatch uses for the type that its
    builder writes. *)
Lemma build_table_dispatch :
  Forall (fun e => let b := snd (snd e) in
    exists c, find_arm node_enum_arms (b_type b, b_sub b) = Some (fst e, c) /\
              conversion_of c (b_type b, b_sub b) (fst (snd e))) build_table.
Proof.
  unfold build_table. repeat (constructor; [eexists; split; [reflexivity|]|]).
  all: first [apply sized_conversion; reflexivity
             |eapply dst_conversion; [reflexivity|simpl; lia|reflexivity]|constructor].
Qed.

Lemma enc_fields_u8 fs vs :
  Forall2 (fun f v => fst f = fst v /\ val_ok (snd f) (snd v)) fs vs -> Forall is_u8 (enc_fields fs vs).
Proof.
  induction 1 as [|[nm ty] [nm' v] fs vs [_ Hv] _ IH]; simpl; [done|].
  apply Forall_app. split; [by apply enc_val_u8|done].
Qed.

Lemma encode_struct_u8 s v : view_ok s v -> Forall is_u8 (encode_struct s v).
Proof.
  intros [Hf Hd]. apply Forall_app. split; [by apply enc_fields_u8|].
  destruct (dst s) as [[nm ty]|], (v_dst v) as [[nm' vs]|]; try done. destruct Hd as [_ Hv].
  unfold enc_elems. induction Hv as [|x vs Hx _ IH]; simpl; [done|].
  apply Forall_app. split; [by apply enc_val_u8|done].
Qed.

Lemma self_field_declared (fs : list (string * bty)) (self : struct_value) nm v :
  Forall2 (fun f v => fst f = fst v /\ bval_ok (snd f) (snd v)) fs self ->
  self_field self nm = Some (BVal v) ->
  exists ty, declared fs nm = Some (Val ty) /\ (nm, Val ty) ∈ fs.
Proof.
  induction 1 as [|[n1 t1] [n2 v2] fs vs [E Hv] _ IH]; simpl in *; [done|].
  subst n2. destruct (decide (nm = n1)) as [->|].
  - intros [= ->]. destruct t1 as [ty|ty]; [|done]. exists ty. split; [done|]. left.
  - intros Hf. destruct (IH Hf) as (ty & ? & ?). exists ty. split; [done|]. by right.
Qed.

Lemma built_fields_lookup self b fs ss off nm ty v :
  layout_ok b off fs ss = true -> declared (b_fields b) nm = Some (Val ty) -> (nm, ty) ∈ fs ->
  value_ok b self -> self_field self nm = Some (BVal v) ->
  (nm, v) ∈ built_fields self fs ss.
Proof.
  revert fs off. induction ss as [|st ss IH]; intros fs off Hok Hd Hi Hv Hf.
  { destruct fs; [by apply not_elem_of_nil in Hi|done]. }
  destruct fs as [|[nm' ty'] fs]; [by apply not_elem_of_nil in Hi|].
  destruct st as [o t|o n t|o ns]; cbn [layout_ok] in Hok; [| |by destruct ss]; z_bools;
    repeat match goal with H : bool_decide _ = true |- _ => apply bool_decide_eq_true in H end;
    cbn [built_fields]; subst; apply elem_of_cons in Hi as [[= <- <-]|Hi].
  - congruence.
  - right. by eapply IH.
  - rewrite Hf. left.
  - destruct (declared_self_field (b_fields b) self nm' (Val ty')) as ([w|] & Hw & Hwok); [done|done| |done].
    rewrite Hw. right. by eapply IH.
Qed.

Section build_nodes.
Context `{Profile}.

(** The size of the node that is built, before its conversion to [u16]. *)
Definition built_size (b : node_builder) (self : struct_value) : Z :=
  b_size b + zlen (slices_bytes self (b_slices b)).

Lemma matches_inv s b : matches s b = true ->
  b_size b = size_of_struct s /\ layout_ok b size_of_header (fields s) (b_steps b) = true /\
  is_u8 (b_type b) /\ is_u8 (b_sub b) /\
  match dst s with
  | None => b_slices b = []
  | Some (_, ty) => (0 < size_of_ty ty)%nat /\
      forallb (fun nm => bool_decide (declared (b_fields b) nm = Some (Slice ty))) (b_slices b) = true
  end /\
  forallb (fun f => match snd f with
                    | Val ty => bool_decide ((fst f, ty) ∈ fields s)
                    | Slice _ => true
                    end) (b_fields b) = true /\
  NoDup (map fst (fields s)) /\ b_slices b = slice_names (b_fields b).
Proof.
  unfold matches. intros Hm. z_bools.
  repeat match goal with Hb : bool_decide _ = true |- _ => apply bool_decide_eq_true in Hb end.
  do 4 (split; [done|]). split; [|done]. destruct (dst s) as [[nm ty]|].
  - z_bools. split; [|done]. by apply Nat.ltb_lt.
  - match goal with Hb : bool_decide _ = true |- _ => by apply bool_decide_eq_true in Hb end.
Qed.

(** The payload of a built node: the fields, then the slices; it is a valid view
    of the struct, and its size is the announced one. *)
Lemma built_payload s b self :
  matches s b = true -> value_ok b self ->
  let v := built_view s b self in
  view_ok s v /\
  encode_struct s v = enc_fields (fields s) (v_fields v) ++ slices_bytes self (b_slices b) /\
  built_size b self = size_of_header + zlen (encode_struct s v).
Proof.
  intros Hm Hv v. destruct (matches_inv s b Hm) as (Hsz & Hlay & Ht & Hst & Hdst & _ & _ & _).
  assert (encode_struct s v = enc_fields (fields s) (v_fields v) ++ slices_bytes self (b_slices b) /\
    match dst s, v_dst v with
    | None, None => True
    | Some (nm, ty), Some (nm', vs) => nm = nm' /\ Forall (val_ok ty) vs
    | _, _ => False
    end) as [Hpl Hvd].
  { unfold encode_struct, v, built_view. cbn [v_dst v_fields]. destruct (dst s) as [[nm ty]|].
    - destruct Hdst as [_ Hd]. destruct (slices_elems_bytes b self Hv ty _ Hd) as [? Hb].
      split; [by rewrite Hb|done].
    - by rewrite Hdst. }
  assert (Forall2 (fun f v => fst f = fst v /\ val_ok (snd f) (snd v)) (fields s) (v_fields v)) as HF.
  { eapply (exec_steps_next b self Hv _ _ size_of_header (replicate 4 0)
      (map Some (enc_fields (fields s) (v_fields v) ++ slices_bytes self (b_slices b)))); [exact Hlay|done|].
    unfold zlen. rewrite length_map. apply Z.le_refl. }
  split; [split; [exact HF|done]|]. split; [done|]. pose proof (length_enc_fields _ _ HF) as Hlf.
  rewrite Hpl, zlen_app. unfold built_size. rewrite Hsz. unfold size_of_struct. lia.
Qed.

Lemma node_size_ok s b self :
  matches s b = true -> built_size b self < 2 ^ 16 ->
  node_size_in_bytes b self = Ret (Ok (built_size b self)).
Proof.
  intros Hm Hs. destruct (matches_inv s b Hm) as (Hsz & _). pose proof (fields_size_nonneg (fields s)).
  unfold node_size_in_bytes. rewrite add_slice_sizes_ok;
    [|rewrite Hsz; unfold size_of_struct, size_of_header; lia|unfold built_size in Hs; lia].
  cbn [obind]. fold (built_size b self). unfold u16_try_from. by rewrite (proj2 (Z.ltb_lt _ _)) by done.
Qed.

Lemma build_node_builds s b self :
  matches s b = true -> value_ok b self -> built_size b self < 2 ^ 16 ->
  view_ok s (built_view s b self) /\
  NodeBuilds (build_node b self)
    (make_node (b_type b) (b_sub b) (encode_struct s (built_view s b self))).
Proof.
  intros Hm Hv Hs. destruct (matches_inv s b Hm) as (Hsz & Hlay & Ht & Hst & _).
  destruct (built_payload s b self Hm Hv) as (Hview & Hpl & Hbs).
  set (v := built_view s b self) in *. set (payload := encode_struct s v) in *.
  unfold size_of_header in *. split; [done|].
  assert (node_wf (make_node (b_type b) (b_sub b) payload)) as Hw.
  { apply make_node_wf; [done|done| |lia]. apply encode_struct_u8; done. }
  assert (node_length (make_node (b_type b) (b_sub b) payload) = built_size b self) as Hnl
    by (rewrite (node_wf_length _ Hw), Hbs; done).
  pose proof (node_size_ok s b self Hm Hs) as Hsize. pose proof (zlen_nonneg payload).
  constructor; [done|by rewrite Hnl|]. intros out Ho. rewrite Hnl in Ho. simpl. unfold node_write_data.
  rewrite Hsize. cbn [obind]. rewrite (proj2 (Z.eqb_eq _ _)) by done. cbn [assert_ obind].
  set (hb := header_bytes (header_new (b_type b) (b_sub b) (built_size b self))).
  assert (length hb = 4%nat) as Hhb by done.
  assert (write_raw out 0 hb = Ret (map Some hb ++ drop 4 out)) as ->.
  { change out with (map Some (@nil Z) ++ out) at 1. rewrite write_raw_next; [by rewrite Hhb|done|].
    unfold zlen in *. rewrite Hhb. lia. }
  cbn [obind]. destruct (exec_steps_next b self Hv (fields s) (b_steps b) 4 hb (drop 4 out)) as [-> _]; [done|done|..];
    change (built_fields self (fields s) (b_steps b)) with (v_fields v); rewrite <- Hpl.
  - unfold zlen in *. rewrite length_drop. lia.
  - rewrite drop_ge by (unfold zlen in *; rewrite length_drop; lia). rewrite app_nil_r.
    unfold node_bytes, make_node. cbn [header data]. unfold hb. by rewrite Hbs.
Qed.

(** The view of the node has every value and every slice of the build struct. *)
Lemma built_view_has s b self : matches s b = true -> value_ok b self ->
  (forall f x, self_field self f = Some (BVal x) -> (f, x) ∈ v_fields (built_view s b self)) /\
  default [] (snd <$> v_dst (built_view s b self)) = concat (map (slice_elems self) (slice_names (b_fields b))).
Proof.
  intros Hm Hv. destruct (matches_inv s b Hm) as (_ & Hlay & _ & _ & Hdst & Hval & _ & Hsl). split.
  - intros f x Hf. destruct (self_field_declared (b_fields b) self f x Hv Hf) as (ty & Hd & Hin).
    eapply built_fields_lookup; [exact Hlay|exact Hd| |done|done].
    apply forallb_forall with (x := (f, Val ty)) in Hval; [|by apply list_elem_of_In].
    by apply bool_decide_eq_true in Hval.
  - rewrite <- Hsl. unfold built_view. cbn [v_dst]. destruct (dst s) as [[dn ty]|]; [done|]. by rewrite Hdst.
Qed.

(** C2: Every build node writes a well-formed node of its announced size, fully
    initialised, which [as_enum] converts back to the same node type with
    every field value and every slice element that the caller supplied. *)
Theorem build_node_as_enum (nm : string) (s : node_struct) (b : node_builder) (self : struct_value) :
  (nm, (s, b)) ∈ build_table -> value_ok b self -> built_size b self < 2 ^ 16 ->
  exists node v, NodeBuilds (build_node b self) node /\
    as_enum node = Ret (Ok (nm, v)) /\
    NoDup (map fst (v_fields v)) /\
    (forall f x, self_field self f = Some (BVal x) -> (f, x) ∈ v_fields v) /\
    default [] (snd <$> v_dst v) = concat (map (slice_elems self) (slice_names (b_fields b))).
Proof.
  intros Hi Hv Hs.
  pose proof (proj1 (Forall_forall _ _) build_table_matches _ Hi) as Hm. simpl in Hm.
  destruct (proj1 (Forall_forall _ _) build_table_dispatch _ Hi) as (c & Harm & Hc). simpl in Harm, Hc.
  destruct (matches_inv s b Hm) as (_ & _ & _ & _ & Hdst & _ & Hnd & _).
  destruct (build_node_builds s b self Hm Hv Hs) as [Hview Hb].
  exists (make_node (b_type b) (b_sub b) (encode_struct s (built_view s b self))), (built_view s b self).
  destruct (decode_encode_struct s (built_view s b self)) as [Hfit Hdec]; [done|by destruct (dst s) as [[? ?]|]; [apply Hdst|]|].
  split; [done|]. split; [|split; [|split]].
  - unfold as_enum. rewrite (dispatch_find_arm _ _ nm c s); [by cbn [data make_node]; rewrite Hdec|exact Harm|exact Hc|apply Hb|exact Hfit].
  - destruct Hview as [HF _]. replace (map fst (v_fields (built_view s b self))) with (map fst (fields s)); [done|].
    clear -HF. induction HF as [|? ? ? ? [E _] _ IH]; simpl; [done|]. by rewrite E, IH.
  - by apply built_view_has.
  - by apply built_view_has.
Qed.

(** A node that does not fit its sixteen-bit length is rejected, and nothing is
    written. *)
Theorem build_node_too_big (nm : string) (s : node_struct) (b : node_builder) (self : struct_value) :
  (nm, (s, b)) ∈ build_table -> 2 ^ 16 <= built_size b self < 2 ^ 64 ->
  size_in_bytes (build_node b self) = Ret (Err NodeTooBig) /\
  (forall d, push d (build_node b self) = Ret (Err NodeTooBig)).
Proof.
  intros Hi Hs. pose proof (proj1 (Forall_forall _ _) build_table_matches _ Hi) as Hm. simpl in Hm.
  destruct (matches_inv s b Hm) as (Hsz & _). pose proof (fields_size_nonneg (fields s)).
  assert (size_in_bytes (build_node b self) = Ret (Err NodeTooBig)) as E.
  { simpl. unfold node_size_in_bytes. unfold built_size in Hs.
    rewrite add_slice_sizes_ok by (rewrite ?Hsz in *; unfold size_of_struct, size_of_header in *; lia).
    cbn [obind]. unfold u16_try_from. by rewrite (proj2 (Z.ltb_ge _ _)) by lia. }
  split; [done|]. intros d. unfold push. by rewrite E.
Qed.

(** A signature the format can represent: an [Unknown] type is not one of the
    known ones. *)
Definition signature_ok (sig : PartitionSignature) : Prop :=
  match sig with
  | SigNone => True
  | Mbr mbr => length mbr = 4%nat /\ Forall is_u8 mbr
  | SigGuid g => length g = 16%nat /\ Forall is_u8 g
  | Unknown t bs => 2 < t /\ is_u8 t /\ length bs = 16%nat /\ Forall is_u8 bs
  end.

Definition HardDrive_ok (hd : HardDrive) : Prop :=
  is_u32 (partition_number hd) /\ is_u64 (partition_start hd) /\ is_u64 (partition_size hd) /\
  signature_ok (hd_partition_signature hd) /\ is_u8 (partition_format hd).

Lemma build_partition_signature_ok hd :
  signature_ok (hd_partition_signature hd) ->
  length (build_partition_signature hd) = 16%nat /\ Forall is_u8 (build_partition_signature hd) /\
  is_u8 (build_signature_type hd) /\
  partition_signature (build_signature_type hd) (build_partition_signature hd) =
    Ret (hd_partition_signature hd).
Proof.
  unfold build_partition_signature, build_signature_type.
  destruct (hd_partition_signature hd) as [|mbr|g|t bs]; simpl.
  - intros _. split; [done|]. split; [|done]. by_decide.
  - intros [Hl Hu]. destruct mbr as [|b0 [|b1 [|b2 [|b3 [|? ?]]]]]; try done.
    split; [done|]. split; [|done]. apply Forall_app. split; [done|]. by_decide.
  - by intros [Hl Hu].
  - intros (Ht & Hu & Hl & Hb). split; [done|]. split; [done|]. split; [done|].
    unfold partition_signature. by rewrite !(proj2 (Z.eqb_neq _ _)) by lia.
Qed.

(** A hard drive node keeps its partition signature: what
    [partition_signature] returns on the parsed node is what was built. *)
Theorem hard_drive_signature_roundtrip (hd : HardDrive) :
  HardDrive_ok hd ->
  exists node v t sig, NodeBuilds (build_node MediaHardDrive_build (HardDrive_value hd)) node /\
    as_enum node = Ret (Ok ("MediaHardDrive", v)) /\
    ("signature_type", VInt t) ∈ v_fields v /\ ("partition_signature", VArr sig) ∈ v_fields v /\
    partition_signature t sig = Ret (hd_partition_signature hd).
Proof.
  intros (H1 & H2 & H3 & H4 & H5).
  destruct (build_partition_signature_ok hd H4) as (Hl & Hu & Ht & Hsig).
  destruct (build_node_builds MediaHardDrive MediaHardDrive_build (HardDrive_value hd)) as [Hview Hb].
  { vm_compute. reflexivity. }
  { unfold value_ok, HardDrive_value. cbn [b_fields MediaHardDrive_build].
    repeat (apply Forall2_cons; split; [split; [done|]|]); cbn [snd bval_ok val_ok]; try done.
    by rewrite Hl. }
  { done. }
  eexists _, (built_view MediaHardDrive MediaHardDrive_build (HardDrive_value hd)),
    (build_signature_type hd), (build_partition_signature hd). split; [exact Hb|].
  destruct (decode_encode_struct _ _ Hview I) as [Hfit Hdec].
  split; [|split; [|split; [|done]]].
  - unfold as_enum. erewrite (dispatch_find_arm node_enum_arms _ "MediaHardDrive" MediaHardDrive_try_from MediaHardDrive).
    + cbn [data make_node]. by rewrite Hdec.
    + reflexivity.
    + by apply sized_conversion.
    + apply Hb.
    + exact Hfit.
  - cbn. do 5 right. left.
  - cbn. do 3 right. left.
Qed.

(** *** The REST service node *)

Definition RestService_tail (rs : RestService) : list Z :=
  match rs_vendor_guid_and_data rs with Some (g, d) => g ++ d | None => [] end.

Definition RestService_ok (rs : RestService) : Prop :=
  is_u8 (service_type rs) /\ is_u8 (access_mode rs) /\ 6 + zlen (RestService_tail rs) < 2 ^ 16 /\
  match rs_vendor_guid_and_data rs with
  | Some (g, d) => service_type rs = RestServiceType_VENDOR /\ length g = 16%nat /\
                   Forall is_u8 g /\ Forall is_u8 d
  | None => True
  end.

Definition RestService_view (rs : RestService) : node_view :=
  mkView [("service_type", VInt (service_type rs)); ("access_mode", VInt (access_mode rs))]
    (Some ("vendor_guid_and_data", map VInt (RestService_tail rs))).

Lemma RestService_tail_u8 rs : RestService_ok rs -> Forall is_u8 (RestService_tail rs).
Proof.
  intros (_ & _ & _ & Hv). unfold RestService_tail. destruct (rs_vendor_guid_and_data rs) as [[g d]|]; [|done].
  destruct Hv as (_ & _ & ? & ?). by apply Forall_app.
Qed.

Lemma u8_elems d : Forall is_u8 d ->
  Forall (val_ok U8) (map VInt d) /\ enc_elems U8 (map VInt d) = d.
Proof.
  unfold enc_elems. induction 1 as [|b d Hb _ [IHv IHe]]; [done|]. simpl. split.
  - by constructor.
  - rewrite IHe. f_equal. by apply Z.mod_small.
Qed.

Lemma build_vendor_spec rs out :
  RestService_ok rs -> zlen out = zlen (RestService_tail rs) ->
  build_vendor_guid_and_data rs out = Ret (map Some (RestService_tail rs)).
Proof.
  intros (_ & _ & _ & Hv) Ho. unfold build_vendor_guid_and_data, RestService_tail in *.
  destruct (rs_vendor_guid_and_data rs) as [[g d]|]; [|by destruct out].
  destruct Hv as (-> & Hg & _ & _). rewrite Z.eqb_refl. cbn [assert_ obind]. rewrite zlen_app in Ho.
  assert (zlen g = 16) as Hgz by (unfold zlen; lia). pose proof (zlen_nonneg d).
  rewrite !slice_ok by lia. cbn [obind]. change (Z.to_nat 0) with 0%nat. rewrite drop_0.
  rewrite write_raw_all by (unfold zlen in *; rewrite length_take; lia). cbn [obind].
  assert (zlen (take (Z.to_nat (zlen out - 16)) (drop (Z.to_nat 16) out)) = zlen d) as Hd
    by (unfold zlen in *; rewrite length_take, length_drop; lia).
  rewrite Hd, read_raw_ok by lia. cbn [obind]. change (Z.to_nat 0) with 0%nat. rewrite drop_0.
  rewrite (take_ge d) by (unfold zlen; lia). rewrite write_raw_all by done. cbn [obind]. by rewrite map_app.
Qed.

Lemma build_rest_service_builds rs :
  RestService_ok rs ->
  NodeBuilds (build_rest_service rs)
    (make_node DeviceType_MESSAGING DeviceSubType_MESSAGING_REST_SERVICE
      (service_type rs :: access_mode rs :: RestService_tail rs)).
Proof.
  intros Hok. pose proof (RestService_tail_u8 rs Hok) as Hu. pose proof Hok as (Hst & Ham & Hs & Hv).
  set (node := make_node _ _ _). pose proof (zlen_nonneg (RestService_tail rs)).
  assert (node_wf node) as Hw.
  { apply make_node_wf; [done|done| |rewrite !zlen_cons; lia]. by rewrite !Forall_cons. }
  assert (node_length node = 6 + zlen (RestService_tail rs)) as Hnl.
  { rewrite (node_wf_length _ Hw). unfold node. cbn [data make_node]. rewrite !zlen_cons.
    unfold size_of_header. lia. }
  assert (RestService_size_in_bytes rs = Ret (Ok (node_length node))) as Hsize.
  { assert (build_size_vendor_guid_and_data rs = Ret (zlen (RestService_tail rs))) as E.
    { unfold build_size_vendor_guid_and_data, RestService_tail in *.
      destruct (rs_vendor_guid_and_data rs) as [[g d]|]; [|done]. destruct Hv as (-> & Hg & _ & _).
      rewrite Z.eqb_refl. cbn [assert_ obind]. rewrite zlen_app in *. pose proof (zlen_nonneg d).
      unfold zlen at 2. rewrite Hg. rewrite usize_add_ok; [done|lia|lia|unfold zlen in *; lia]. }
    unfold RestService_size_in_bytes. rewrite E. cbn [obind]. rewrite usize_add_ok by lia. cbn [obind].
    unfold u16_try_from. rewrite (proj2 (Z.ltb_lt _ _)) by lia. by rewrite Hnl. }
  constructor; [done|done|]. intros out Ho. simpl. unfold RestService_write_data. rewrite Hsize. cbn [obind].
  rewrite (proj2 (Z.eqb_eq _ _)) by done. cbn [assert_ obind].
  set (hb := header_bytes _).
  assert (write_raw out 0 hb = Ret (map Some hb ++ drop 4 out)) as ->.
  { change out with (map Some (@nil Z) ++ out) at 1. rewrite write_raw_next; [done|done|].
    change (zlen hb) with 4. lia. }
  cbn [obind]. rewrite write_raw_next by (done || (unfold zlen in *; rewrite length_drop; simpl; lia)).
  cbn [obind]. rewrite drop_drop.
  rewrite write_raw_next by (done || (unfold zlen in *; rewrite length_drop; simpl; lia)). cbn [obind].
  rewrite drop_drop. simpl Nat.add.
  match goal with |- context [map Some ?l ++ drop ?k out] => set (w := l); set (r := drop k out) end.
  assert (zlen r = zlen (RestService_tail rs)) as Hr by (unfold r, zlen in *; rewrite length_drop; lia).
  assert (length (map Some w) = 6%nat) as Hwl by done.
  assert (zlen (map Some w ++ r) = 6 + zlen r) as Hwr by (rewrite zlen_app; unfold zlen at 1; rewrite Hwl; done).
  rewrite slice_ok by lia. cbn [obind]. rewrite drop_app_length' by (rewrite Hwl; done).
  rewrite take_ge by (unfold zlen in *; lia). rewrite build_vendor_spec by done. cbn [obind].
  rewrite take_app_length' by (by rewrite Hwl). rewrite <- map_app. do 2 f_equal.
  unfold w, node, node_bytes, make_node. cbn [header data]. unfold hb. rewrite Hnl.
  simpl enc_val. rewrite !Z.mod_small by done. rewrite !zlen_cons. unfold size_of_header.
  replace (4 + (1 + (1 + zlen (RestService_tail rs)))) with (6 + zlen (RestService_tail rs)) by lia.
  by rewrite <- !app_assoc.
Qed.

(** A REST service node with vendor data is read back with that data; vendor
    data on another service type is a panic, not a malformed node. *)
Theorem rest_service_roundtrip (rs : RestService) :
  (RestService_ok rs ->
   exists node, NodeBuilds (build_rest_service rs) node /\
     as_enum node = Ret (Ok ("MessagingRestService", RestService_view rs)) /\
     vendor_guid_and_data (service_type rs) (RestService_tail rs) =
       Ret (rs_vendor_guid_and_data rs)) /\
  (service_type rs <> RestServiceType_VENDOR -> rs_vendor_guid_and_data rs <> None ->
   forall d, push d (build_rest_service rs) = Panic AssertFailed).
Proof.
  split.
  - intros Hok. pose proof (build_rest_service_builds rs Hok) as Hb. eexists. split; [exact Hb|].
    pose proof (RestService_tail_u8 rs Hok) as Hu. destruct (u8_elems _ Hu) as [Hvs He].
    destruct Hok as (Hst & Ham & Hs & Hv).
    assert (view_ok MessagingRestService (RestService_view rs)) as Hview
      by (split; [repeat (apply Forall2_cons; split; [done|]); done|done]).
    destruct (decode_encode_struct _ _ Hview ltac:(simpl; lia)) as [Hfit Hdec].
    assert (encode_struct MessagingRestService (RestService_view rs) =
      service_type rs :: access_mode rs :: RestService_tail rs) as Henc.
    { unfold encode_struct. cbn [fields dst MessagingRestService v_fields v_dst RestService_view].
      rewrite He. simpl. by rewrite !Z.mod_small. }
    rewrite Henc in *. split.
    + unfold as_enum. erewrite (dispatch_find_arm node_enum_arms _ "MessagingRestService"
        MessagingRestService_try_from MessagingRestService); [by cbn [data make_node]; rewrite Hdec|reflexivity| |apply Hb|exact Hfit].
      eapply dst_conversion; [reflexivity|simpl; lia|reflexivity].
    + unfold vendor_guid_and_data, RestService_tail in *.
      destruct (rs_vendor_guid_and_data rs) as [[g d]|].
      * destruct Hv as (-> & Hg & _ & _). rewrite Z.eqb_refl. pose proof (zlen_nonneg d).
        assert (zlen g = 16) as Hgz by (unfold zlen; lia).
        rewrite (proj2 (Z.leb_le _ _)) by (rewrite zlen_app; lia). cbn [andb].
        rewrite !slice_ok by (rewrite ?zlen_app; lia). cbn [obind].
        change (Z.to_nat (16 - 0)) with 16%nat. change (Z.to_nat 16) with 16%nat. change (Z.to_nat 0) with 0%nat.
        rewrite drop_0, take_app_length', drop_app_length' by done.
        by rewrite take_ge by (rewrite zlen_app; unfold zlen in *; lia).
      * by rewrite andb_false_r.
  - intros Hne Hsome d. unfold push. simpl. unfold RestService_size_in_bytes, build_size_vendor_guid_and_data.
    destruct (rs_vendor_guid_and_data rs) as [[g dd]|]; [|done].
    by rewrite (proj2 (Z.eqb_neq _ _)).
Qed.

End build_nodes.

(** ** Examples *)

Definition example_vendor : struct_value :=
  [("vendor_guid", BVal (VArr (replicate 16 0xAB))); ("vendor_defined_data", BSlice U8 [VInt 1; VInt 2])].

Lemma example_vendor_ok : value_ok HardwareVendor_build example_vendor.
Proof.
  apply Forall2_cons. split; [split; [reflexivity|split; [reflexivity|]]|].
  { by_decide. }
  apply Forall2_cons. split; [split; [reflexivity|split; [reflexivity|]]|constructor].
  repeat constructor; vm_compute; first [reflexivity|discriminate].
Defined.

Lemma build_node_as_enum_witness :
  exists node v, NodeBuilds (build_node (H := release_profile) HardwareVendor_build example_vendor) node /\
    as_enum node = Ret (Ok ("HardwareVendor", v)) /\
    ("vendor_guid", VArr (replicate 16 0xAB)) ∈ v_fields v /\
    v_dst v <> None.
Proof.
  destruct (@build_node_as_enum release_profile "HardwareVendor" HardwareVendor HardwareVendor_build
    example_vendor) as (node & v & Hb & He & _ & Hf & Hd).
  - do 5 right. left.
  - exact example_vendor_ok.
  - by vm_compute.
  - exists node, v. split; [exact Hb|]. split; [exact He|]. split.
    + apply Hf. reflexivity.
    + intros E. rewrite E in Hd. discriminate.
Defined.

Lemma build_node_too_big_witness :
  size_in_bytes (build_node (H := release_profile) MessagingUri_build
    [("value", BSlice U8 (replicate 65536 (VInt 0x61)))]) = Ret (Err NodeTooBig).
Proof.
  refine (proj1 (@build_node_too_big release_profile "MessagingUri" MessagingUri MessagingUri_build _ _ _)).
  - apply list_elem_of_lookup_2 with 33%nat. reflexivity.
  - split; vm_compute; first [reflexivity|discriminate].
Defined.

Definition example_hard_drive : HardDrive := mkHardDrive 1 2048 4096 (Mbr [1; 2; 3; 4]) 1.

Lemma hard_drive_signature_roundtrip_witness :
  exists node v t sig,
    NodeBuilds (build_node (H := debug_profile) MediaHardDrive_build (HardDrive_value example_hard_drive)) node /\
    as_enum node = Ret (Ok ("MediaHardDrive", v)) /\
    ("signature_type", VInt t) ∈ v_fields v /\ ("partition_signature", VArr sig) ∈ v_fields v /\
    partition_signature t sig = Ret (Mbr [1; 2; 3; 4]).
Proof.
  apply (@hard_drive_signature_roundtrip debug_profile example_hard_drive).
  repeat split; try (vm_compute; first [reflexivity|discriminate]).
  by_decide.
Defined.

Lemma rest_service_roundtrip_witness :
  (exists node,
    NodeBuilds (build_rest_service (H := debug_profile) (mkRestService 0xff 1 (Some (replicate 16 7, [5])))) node /\
    as_enum node = Ret (Ok ("MessagingRestService",
      RestService_view (mkRestService 0xff 1 (Some (replicate 16 7, [5])))))) /\
  push (H := debug_profile) (with_vec []) (build_rest_service (H := debug_profile) (mkRestService 1 1 (Some (replicate 16 7, [5])))) =
    Panic AssertFailed.
Proof.
  split.
  - destruct (proj1 (@rest_service_roundtrip debug_profile (mkRestService 0xff 1 (Some (replicate 16 7, [5])))))
      as (node & Hb & He & _).
    + repeat split; try (vm_compute; first [reflexivity|discriminate]);
        by_decide.
    + exists node. split; [exact Hb|exact He].
  - apply (proj2 (@rest_service_roundtrip debug_profile (mkRestService 1 1 (Some (replicate 16 7, [5])))));
      discriminate.
Defined.
