(* ===== verification/NodeGen.v ===== *)
(** * The device path code generator: [xtask/src/device_path]

    [cargo xtask gen-code] reads [spec.rs] and writes the two [device_path_gen.rs] files.
    Here are the syntax it reads, the parsers of [field.rs], [node.rs], [group.rs] and
    [mod.rs], and the code they generate, as syntax trees: what [quote!] puts together is
    a value of the types under "Generated code", with the constants and names that are
    spliced into it.  The parsers of the [syn] crate and the case conversions of the
    [heck] crate are the class [Crates]. *)
From stdpp Require Import strings.
From S2P Require Import Prelude.
#[local] Open Scope string_scope.
#[local] Open Scope Z_scope.
#[local] Open Scope list_scope.

(** ** Rust syntax, as [syn] has it *)

(** Types: a path is a list of segments with their generic arguments, the empty string
    when there are none; the length of an array is [None] when it is not a literal. *)
Inductive Type_ : Set :=
| TPath (segments : list (string * string))
| TSlice (elem : Type_)
| TArray (elem : Type_) (len : option Z)
| TRef (lifetime : string) (elem : Type_)
| TOther (tokens : string).

Inductive Lit : Set := LitStr (s : string) | LitInt (n : Z) | LitBool (b : bool) | LitOther.

(** One entry of a list of nested attributes: [path], [path = literal], or the path followed
    by something else. *)
Inductive meta_rest : Set := NoValue | EqLit (l : Lit) | OtherTokens.
Record Meta : Set := mkMeta { m_path : list string; m_rest : meta_rest }.

(** An attribute; [None] when its arguments are not a parenthesised list. *)
Record Attribute : Set := mkAttr { a_path : list string; a_args : option (list Meta) }.

Record Field : Set := mkField { f_attrs : list Attribute; f_ident : option string; f_ty : Type_ }.
Inductive Fields : Set := Named (named : list Field) | Unnamed (unnamed : list Field) | Unit.

(** Visibility and generics, and the contents of the items that are only passed through,
    are not looked at. *)
Record ItemStruct : Set := mkItemStruct { s_attrs : list Attribute; s_ident : string; s_fields : Fields }.
Inductive Item : Set :=
| IStruct (item : ItemStruct)
| IImpl (attrs : list Attribute) (tokens : string)
| IMacro (tokens : string)
| IMod (ident : string) (content : option (list Item))
| IOther (tokens : string).

(** What the generator uses of other crates: [syn::parse_str::<Type>], and
    [to_shouty_snake_case] and [to_upper_camel_case] of [heck]. *)
Class Crates : Type := {
  parse_str_type : string -> option Type_;
  to_shouty_snake_case : string -> string;
  to_upper_camel_case : string -> string;
}.

(** [Path::is_ident], [Path::get_ident]. *)
Definition is_ident (path : list string) (s : string) : bool := bool_decide (path = [s]).
Definition get_ident (segments : list (string * string)) : option string :=
  match segments with [(ident, "")] => Some ident | _ => None end.

(** [str::to_uppercase] on ASCII. *)
Definition char_to_uppercase (c : Ascii.ascii) : Ascii.ascii :=
  let n := Ascii.nat_of_ascii c in
  if (97 <=? n)%nat && (n <=? 122)%nat then Ascii.ascii_of_nat (n - 32) else c.
Fixpoint to_uppercase (s : string) : string :=
  match s with
  | EmptyString => EmptyString
  | String c s => String (char_to_uppercase c) (to_uppercase s)
  end.

(** [Ident::new] panics on a string that is not an identifier (ASCII ones here). *)
Definition ident_char (c : Ascii.ascii) : bool :=
  let n := Ascii.nat_of_ascii c in
  ((97 <=? n) && (n <=? 122) || (65 <=? n) && (n <=? 90) || (48 <=? n) && (n <=? 57) || (n =? 95))%nat.
Fixpoint string_forallb (p : Ascii.ascii -> bool) (s : string) : bool :=
  match s with EmptyString => true | String c s => p c && string_forallb p s end.
Definition valid_ident (s : string) : bool :=
  match s with
  | EmptyString => false
  | String c _ =>
      string_forallb ident_char s && negb ((48 <=? Ascii.nat_of_ascii c) && (Ascii.nat_of_ascii c <=? 57))%nat
  end.
Definition Ident_new (s : string) : outcome string := if valid_ident s then Ret s else Panic Explicit.

(** [LitInt::base10_parse::<usize>]. *)
Definition base10_parse_usize (n : Z) : option Z := if bool_decide (in_width 64 n) then Some n else None.

(** [util.rs]. *)
Definition is_doc_attr (attr : Attribute) : bool := is_ident (a_path attr) "doc".

(** ** Fields: [field.rs] *)

Record BaseType : Set := mkBaseType { bt_path : list (string * string); bt_size_in_bytes : Z }.

Definition path_str (path : list (string * string)) : string := String.concat "::" (map fst path).

Fixpoint assoc {A} (k : string) (l : list (string * A)) : option A :=
  match l with
  | [] => None
  | (k', a) :: l => if String.eqb k k' then Some a else assoc k l
  end.

Definition base_type_sizes : list (string * Z) :=
  [ ("u8", 1); ("u16", 2); ("u32", 4); ("u64", 8)
  ; ("Guid", 16); ("IpAddress", 16); ("MemoryType", 4)
  ; ("device_path::hardware::BmcInterfaceType", 1)
  ; ("device_path::messaging::BluetoothLeAddressType", 1)
  ; ("device_path::messaging::DnsAddressType", 1)
  ; ("device_path::messaging::InfinibandResourceFlags", 4)
  ; ("device_path::messaging::Ipv4AddressOrigin", 1)
  ; ("device_path::messaging::Ipv6AddressOrigin", 1)
  ; ("device_path::messaging::IscsiLoginOptions", 2)
  ; ("device_path::messaging::IscsiProtocol", 2)
  ; ("device_path::messaging::MasterSlave", 1)
  ; ("device_path::messaging::Parity", 1)
  ; ("device_path::messaging::PrimarySecondary", 1)
  ; ("device_path::messaging::RestServiceAccessMode", 1)
  ; ("device_path::messaging::RestServiceType", 1)
  ; ("device_path::messaging::StopBits", 1)
  ; ("device_path::media::PartitionFormat", 1)
  ; ("device_path::media::RamDiskType", 16)
  ; ("device_path::media::SignatureType", 1) ].

Definition BaseType_new (ty : Type_) : outcome BaseType :=
  match ty with
  | TPath path =>
      match assoc (path_str path) base_type_sizes with
      | Some size_in_bytes => Ret (mkBaseType path size_in_bytes)
      | None => Panic Explicit
      end
  | _ => Panic Explicit
  end.

Definition is_u8_type (b : BaseType) : bool :=
  match get_ident (bt_path b) with Some ident => String.eqb ident "u8" | None => false end.

Definition BaseType_to_tokens (b : BaseType) : Type_ := TPath (bt_path b).

Inductive PackedType : Set :=
| PBase (base : BaseType)
| PArray (base : BaseType) (len : Z)
| PSlice (base : BaseType).

Definition PackedType_new (ty : Type_) : outcome PackedType :=
  match ty with
  | TSlice elem => let! b := BaseType_new elem in Ret (PSlice b)
  | TArray elem (Some len) =>
      match base10_parse_usize len with
      | Some len => let! b := BaseType_new elem in Ret (PArray b len)
      | None => Panic UnwrapFailed
      end
  | _ => let! b := BaseType_new ty in Ret (PBase b)
  end.

Definition PackedType_to_tokens (t : PackedType) : Type_ :=
  match t with
  | PBase base => BaseType_to_tokens base
  | PArray base len => TArray (BaseType_to_tokens base) (Some len)
  | PSlice base => TSlice (BaseType_to_tokens base)
  end.

Inductive BuildType : Set := BuildNone | BuildPacked | BuildCustom (ty : Type_).
Inductive GetFunc : Set := GetNone | GetAuto | GetCustom.

Record FieldNodeAttr : Set := mkFieldNodeAttr {
  get_func : GetFunc;
  build_type : BuildType;
  custom_build_impl : bool;
  custom_build_size_impl : bool;
}.

Definition FieldNodeAttr_default : FieldNodeAttr := mkFieldNodeAttr GetAuto BuildPacked false false.

Record NodeField : Set := mkNodeField {
  nf_docs : list Attribute;
  nf_name : string;
  packed_ty : PackedType;
  nf_attr : FieldNodeAttr;
}.

Section field.
Context `{Profile} {C : Crates}.

Definition PackedType_size_in_bytes (t : PackedType) : outcome (option Z) :=
  match t with
  | PBase base => Ret (Some (bt_size_in_bytes base))
  | PArray base len => let! n := usize_mul (bt_size_in_bytes base) len in Ret (Some n)
  | PSlice _ => Ret None
  end.

(** The closure of [parse_nested_meta]: [None] is the error that makes the attribute one
    of the wrong format. *)
Definition from_meta (out : FieldNodeAttr) (meta : Meta) : option FieldNodeAttr :=
  let path := m_path meta in
  let flag (out : FieldNodeAttr) := match m_rest meta with NoValue => Some out | _ => None end in
  if is_ident path "no_get_func" then
    flag (mkFieldNodeAttr GetNone (build_type out) (custom_build_impl out) (custom_build_size_impl out))
  else if is_ident path "custom_get_impl" then
    flag (mkFieldNodeAttr GetCustom (build_type out) (custom_build_impl out) (custom_build_size_impl out))
  else if is_ident path "custom_build_impl" then
    flag (mkFieldNodeAttr (get_func out) (build_type out) true (custom_build_size_impl out))
  else if is_ident path "custom_build_size_impl" then
    flag (mkFieldNodeAttr (get_func out) (build_type out) (custom_build_impl out) true)
  else if is_ident path "build_type" then
    match m_rest meta with
    | EqLit (LitStr s) =>
        ty ← parse_str_type s;
        Some (mkFieldNodeAttr (get_func out) (BuildCustom ty) (custom_build_impl out) (custom_build_size_impl out))
    | EqLit (LitBool false) =>
        Some (mkFieldNodeAttr (get_func out) BuildNone (custom_build_impl out) (custom_build_size_impl out))
    | _ => None
    end
  else None.

Definition FieldNodeAttr_from_attr (attr : Attribute) : option FieldNodeAttr :=
  if is_ident (a_path attr) "node" then
    metas ← a_args attr;
    foldl (fun out meta => out ← out; from_meta out meta) (Some FieldNodeAttr_default) metas
  else None.

(** The loop over the attributes of a field. *)
Fixpoint NodeField_parse_attrs (out : NodeField) (attrs : list Attribute) : outcome NodeField :=
  match attrs with
  | [] => Ret out
  | attr :: attrs =>
      match FieldNodeAttr_from_attr attr with
      | Some a => NodeField_parse_attrs (mkNodeField (nf_docs out) (nf_name out) (packed_ty out) a) attrs
      | None =>
          if is_doc_attr attr
          then NodeField_parse_attrs (mkNodeField (nf_docs out ++ [attr]) (nf_name out) (packed_ty out) (nf_attr out)) attrs
          else Panic Explicit
      end
  end.

Definition NodeField_parse (field : Field) : outcome NodeField :=
  match f_ident field with
  | None => Panic UnwrapFailed
  | Some name =>
      let! ty := PackedType_new (f_ty field) in
      NodeField_parse_attrs (mkNodeField [] name ty FieldNodeAttr_default) (f_attrs field)
  end.
End field.

Definition slice_elem_ty (f : NodeField) : option BaseType :=
  match packed_ty f with PSlice b => Some b | _ => None end.
Definition is_slice (f : NodeField) : bool := match slice_elem_ty f with Some _ => true | None => false end.

Definition raw_ty (f : NodeField) : PackedType :=
  match packed_ty f with PSlice ty => PArray ty 0 | ty => ty end.

Definition is_hidden (f : NodeField) : bool :=
  match nf_name f with String c _ => Nat.eqb (Ascii.nat_of_ascii c) 95 | EmptyString => false end.

(** ** Generated code *)

Record packed_struct : Set := mkPacked {
  ps_docs : list Attribute;
  ps_pointee : bool;                        (* #[derive(Pointee)] *)
  ps_ident : string;
  ps_fields : list (string * Type_);
}.

Record raw_struct : Set := mkRaw { rs_ident : string; rs_fields : list (string * Type_) }.

(** The value that a getter returns: [self.f], [&self.f], [UnalignedSlice::new] on the parts
    of [addr_of!(self.f)], or what a method gives. *)
Inductive get_expr : Set := SelfField (f : string) | SelfRef (f : string) | SelfUnaligned (elem : Type_) (f : string) | SelfCall (m : string).
Record get_method : Set := mkGet { g_docs : list Attribute; g_name : string; g_ret : Type_; g_val : get_expr }.

(** The arguments of [debug_struct(..).field(..)]: a copy of the field, its bytes when it is
    a slice, or the [data] of a group of slices. *)
Inductive debug_call : Set := DebugCopy (f : string) | DebugBytes (elem : Type_) (f : string) | DebugData.

Inductive try_from_body : Set := SizedBody | DstBody (static_size : Z) (elem : Type_).
Record try_from_impl : Set := mkTryFrom {
  tf_ident : string;
  tf_device_type : string;
  tf_sub_type : string;
  tf_body : try_from_body;
}.

(** [pub struct Ident;], or one with fields. *)
Record builder_struct : Set := mkBuilderStruct {
  bs_docs : list Attribute;
  bs_ident : string;
  bs_unit : bool;
  bs_lifetime : bool;
  bs_fields : list (list Attribute * string * Type_);
}.

(** The terms added to the literal size: [size_of_val(self.f)] and [self.m()]. *)
Inductive size_term : Set := SizeOfVal (f : string) | SizeCall (m : string).

(** [out_ptr.add(off)] and [out_ptr.add(off + dst_group_offset)]. *)
Inductive out_ptr : Set := OutAt (off : Z) | OutGroup (off : Z).

(** [self.f] and [self.m()]. *)
Inductive build_expr : Set := FieldVal (f : string) | CallVal (m : string).

Inductive stmt : Set :=
| LetGroupOffset                                              (* let mut dst_group_offset = 0; *)
| AddGroupOffset (f : string)                                 (* dst_group_offset += size_of_val(self.f); *)
| CopySlice (f : string) (out : out_ptr) (size : size_term)   (* self.f.as_ptr().cast::<u8>().copy_to_nonoverlapping(out, size); *)
| CallBuild (m : string) (off : Z)                            (* self.m(&mut out[off..]) *)
| WriteZeros (off : Z) (ty : Type_)                           (* out_ptr.add(off).write_bytes(0, size_of::<ty>()); *)
| WriteVal (off : Z) (ty : Type_) (val : build_expr).         (* out_ptr.add(off).cast::<ty>().write_unaligned(val); *)

Record builder_impl : Set := mkBuilderImpl {
  bi_ident : string;
  bi_lifetime : bool;
  bi_size : Z * list size_term;
  bi_device_type : string;
  bi_sub_type : string;
  bi_stmts : list stmt;
}.

(** *** Code generated for a field *)

Definition field_build_type (f : NodeField) : option Type_ :=
  match build_type (nf_attr f) with
  | BuildNone => None
  | BuildCustom ty => Some ty
  | BuildPacked =>
      let ty := PackedType_to_tokens (packed_ty f) in
      Some (if is_slice f then TRef "'a" ty else ty)
  end.

Definition gen_packed_struct_get_method (f : NodeField) : option get_method :=
  if is_hidden f || match get_func (nf_attr f) with GetNone => true | _ => false end then None
  else
    let field_ty := PackedType_to_tokens (packed_ty f) in
    let '(ret_type, ret_val) :=
      match packed_ty f with
      | PSlice slice_elem =>
          if is_u8_type slice_elem then (TRef "" field_ty, SelfRef (nf_name f))
          else
            let elem := BaseType_to_tokens slice_elem in
            (TPath [("UnalignedSlice", "<'_, " +:+ path_str (bt_path slice_elem) +:+ ">")], SelfUnaligned elem (nf_name f))
      | _ => (field_ty, SelfField (nf_name f))
      end in
    let ret_val := match get_func (nf_attr f) with GetCustom => SelfCall ("get_" +:+ nf_name f) | _ => ret_val end in
    Some (mkGet (nf_docs f) (nf_name f) ret_type ret_val).

Definition gen_builder_dynamic_size (f : NodeField) : option size_term :=
  if custom_build_size_impl (nf_attr f) then Some (SizeCall ("build_size_" +:+ nf_name f))
  else if is_slice f then Some (SizeOfVal (nf_name f))
  else None.

(** Splicing [None] into the call leaves out the argument, which does not compile; the
    assertion excludes it. *)
Definition gen_builder_write_slice (f : NodeField) (out : out_ptr) : outcome stmt :=
  let! _ := assert_ (is_slice f) in
  match gen_builder_dynamic_size f with
  | Some size => Ret (CopySlice (nf_name f) out size)
  | None => Panic Explicit
  end.

(** ** Nodes: [node.rs] *)

(** The device type of a module: [group.rs]. *)
Record DeviceType : Set := mkDeviceType { dt_ident : string }.
Definition module_ident (d : DeviceType) : string := dt_ident d.
Definition upper_name (d : DeviceType) : string := to_uppercase (dt_ident d).
Definition const_ident (d : DeviceType) : outcome string := Ident_new (upper_name d).

Record Node : Set := mkNode {
  n_docs : list Attribute;
  n_device_type : DeviceType;
  n_sub_type : string;
  struct_ident : string;
  n_fields : list NodeField;
  static_size : Z;
}.

Record NodeAttr : Set := mkNodeAttr { na_static_size : Z; na_sub_type : option string }.

Definition node_meta (out : option Z * option string) (meta : Meta) : option (option Z * option string) :=
  if is_ident (m_path meta) "static_size" then
    match m_rest meta with
    | EqLit (LitInt n) => n ← base10_parse_usize n; Some (Some n, snd out)
    | _ => None
    end
  else if is_ident (m_path meta) "sub_type" then
    match m_rest meta with
    | EqLit (LitStr s) => Some (fst out, Some s)
    | _ => None
    end
  else None.

Definition parse_node_attr (attr : Attribute) : option NodeAttr :=
  if is_ident (a_path attr) "node" then
    metas ← a_args attr;
    '(size, sub_type) ← foldl (fun out meta => out ← out; node_meta out meta) (Some (None, None)) metas;
    size ← size;
    Some (mkNodeAttr size sub_type)
  else None.

Definition is_node_attr (attr : Attribute) : bool :=
  match parse_node_attr attr with Some _ => true | None => false end.

Definition is_dst (n : Node) : bool :=
  match last (n_fields n) with Some f => is_slice f | None => false end.

Definition has_dst_group (n : Node) : bool := (1 <? length (filter (fun f => is_slice f = true) (n_fields n)))%nat.

(** The loop over the attributes of a struct. *)
Fixpoint Node_parse_attrs (out : Node) (attrs : list Attribute) : outcome Node :=
  match attrs with
  | [] => Ret out
  | attr :: attrs =>
      match parse_node_attr attr with
      | Some a =>
          let! st := match na_sub_type a with Some st => Ident_new st | None => Ret (n_sub_type out) end in
          Node_parse_attrs (mkNode (n_docs out) (n_device_type out) st (struct_ident out) (n_fields out) (na_static_size a)) attrs
      | None =>
          if is_doc_attr attr
          then Node_parse_attrs (mkNode (n_docs out ++ [attr]) (n_device_type out) (n_sub_type out) (struct_ident out) (n_fields out) (static_size out)) attrs
          else Panic Explicit
      end
  end.

Fixpoint mapM_outcome {A B} (f : A -> outcome B) (l : list A) : outcome (list B) :=
  match l with
  | [] => Ret []
  | a :: l => let! b := f a in let! bs := mapM_outcome f l in Ret (b :: bs)
  end.

Section node.
Context `{Profile} {C : Crates}.

Fixpoint sum_field_sizes (accum : Z) (fields : list NodeField) : outcome Z :=
  match fields with
  | [] => Ret accum
  | field :: fields =>
      let! field_size := PackedType_size_in_bytes (packed_ty field) in
      match checked_add accum (default 0 field_size) with
      | Some accum => sum_field_sizes accum fields
      | None => Panic UnwrapFailed
      end
  end.

Definition calculate_static_size (n : Node) : outcome Z :=
  let! size := sum_field_sizes 4 (n_fields n) in
  let! _ := assert_ (bool_decide (in_width 16 size)) in
  Ret size.

Definition Node_parse (struct_item : ItemStruct) (device_type : DeviceType) : outcome Node :=
  let! sub_type := Ident_new (upper_name device_type +:+ "_" +:+ to_shouty_snake_case (s_ident struct_item)) in
  let! out := Node_parse_attrs (mkNode [] device_type sub_type (s_ident struct_item) [] 0) (s_attrs struct_item) in
  let! fields :=
    match s_fields struct_item with
    | Named fields => mapM_outcome NodeField_parse fields
    | _ => Ret []
    end in
  let out := mkNode (n_docs out) (n_device_type out) (n_sub_type out) (struct_ident out) fields (static_size out) in
  let! size := calculate_static_size out in
  let! _ := assert_ (size =? static_size out) in
  Ret out.

(** *** Code generated for a node *)

(** The fields of the structs, with the slices of a group left out; [ty] gives the type of
    a field. *)
Definition struct_fields (n : Node) (ty : NodeField -> PackedType) : list (string * Type_) :=
  base.omap (fun f => if is_slice f && has_dst_group n then None
                 else Some (nf_name f, PackedType_to_tokens (ty f))) (n_fields n).

Definition DevicePathHeader_ty : Type_ := TPath [("DevicePathHeader", "")].
Definition u8_ty : Type_ := TPath [("u8", "")].

Definition gen_raw_struct (n : Node) : raw_struct :=
  mkRaw (struct_ident n)
    (("header", DevicePathHeader_ty) :: struct_fields n raw_ty ++
     if has_dst_group n then [("data", TArray u8_ty (Some 0))] else []).

Definition gen_packed_struct (n : Node) : packed_struct :=
  mkPacked (n_docs n) (is_dst n) (struct_ident n)
    (("header", DevicePathHeader_ty) :: struct_fields n packed_ty ++
     if has_dst_group n then [("data", TSlice u8_ty)] else []).

Definition gen_packed_struct_impl (n : Node) : string * list get_method :=
  (struct_ident n, base.omap gen_packed_struct_get_method (n_fields n)).

Definition gen_packed_struct_debug_impl (n : Node) : string * list debug_call :=
  (struct_ident n,
   base.omap (fun f => match slice_elem_ty f with
                  | Some elem => if has_dst_group n then None else Some (DebugBytes (BaseType_to_tokens elem) (nf_name f))
                  | None => Some (DebugCopy (nf_name f))
                  end) (n_fields n) ++
   if has_dst_group n then [DebugData] else []).

Definition gen_packed_struct_try_from_impl (n : Node) : outcome try_from_impl :=
  let! body :=
    if is_dst n then
      match last (n_fields n) ≫= slice_elem_ty with
      | Some elem => Ret (DstBody (static_size n) (BaseType_to_tokens elem))
      | None => Panic UnwrapFailed
      end
    else Ret SizedBody in
  let! device_type := const_ident (n_device_type n) in
  Ret (mkTryFrom (struct_ident n) device_type (n_sub_type n) body).

Record packed_code : Set := mkPackedCode {
  pc_struct : packed_struct;
  pc_impl : string * list get_method;
  pc_debug : string * list debug_call;
  pc_try_from : try_from_impl;
}.

Definition gen_packed_code (n : Node) : outcome packed_code :=
  let! try_impl := gen_packed_struct_try_from_impl n in
  Ret (mkPackedCode (gen_packed_struct n) (gen_packed_struct_impl n) (gen_packed_struct_debug_impl n) try_impl).

Definition builder_lifetime (n : Node) : bool := is_dst n.

Definition gen_builder (n : Node) : builder_struct :=
  match n_fields n with
  | [] => mkBuilderStruct (n_docs n) (struct_ident n) true false []
  | _ =>
      mkBuilderStruct (n_docs n) (struct_ident n) false (builder_lifetime n)
        (base.omap (fun f => if is_hidden f then None
                        else ty ← field_build_type f; Some (nf_docs f, nf_name f, ty)) (n_fields n))
  end.

Definition gen_builder_size_in_bytes_method (n : Node) : Z * list size_term :=
  (static_size n, if is_dst n then base.omap gen_builder_dynamic_size (n_fields n) else []).

(** The statements for the fields from [index] on; [field_offset] is the variable of the
    source. *)
Fixpoint gen_copy_stmts (n : Node) (index : nat) (field_offset : Z) (fields : list NodeField) : outcome (list stmt) :=
  match fields with
  | [] => Ret []
  | field :: fields =>
      let! cs :=
        if is_slice field then
          if has_dst_group n then
            let! write_field := gen_builder_write_slice field (OutGroup field_offset) in
            if (index =? length (n_fields n) - 1)%nat then Ret [write_field]
            else Ret [write_field; AddGroupOffset (nf_name field)]
          else if custom_build_impl (nf_attr field) then Ret [CallBuild ("build_" +:+ nf_name field) field_offset]
          else let! s := gen_builder_write_slice field (OutAt field_offset) in Ret [s]
        else if is_hidden field then Ret [WriteZeros field_offset (PackedType_to_tokens (packed_ty field))]
        else
          let val := if custom_build_impl (nf_attr field) then CallVal ("build_" +:+ nf_name field) else FieldVal (nf_name field) in
          Ret [WriteVal field_offset (PackedType_to_tokens (packed_ty field)) val] in
      let! size := PackedType_size_in_bytes (packed_ty field) in
      let! field_offset := match size with Some size => usize_add field_offset size | None => Ret field_offset end in
      let! rest := gen_copy_stmts n (S index) field_offset fields in
      Ret (cs ++ rest)
  end.

Definition gen_builder_write_data_method (n : Node) : outcome (string * string * list stmt) :=
  let! device_type := const_ident (n_device_type n) in
  let! stmts := gen_copy_stmts n 0 4 (n_fields n) in
  Ret (device_type, n_sub_type n, (if has_dst_group n then [LetGroupOffset] else []) ++ stmts).

Definition gen_builder_impl (n : Node) : outcome builder_impl :=
  let! write_data := gen_builder_write_data_method n in
  let '(device_type, sub_type, stmts) := write_data in
  Ret (mkBuilderImpl (struct_ident n) (is_dst n) (gen_builder_size_in_bytes_method n) device_type sub_type stmts).

Definition gen_builder_code (n : Node) : outcome (builder_struct * builder_impl) :=
  let! b_impl := gen_builder_impl n in
  Ret (gen_builder n, b_impl).

(** ** Groups of nodes: [group.rs] *)

Definition camel_name (d : DeviceType) : string := to_upper_camel_case (dt_ident d).

Record NodeGroup : Set := mkNodeGroup {
  ng_device_type : DeviceType;
  ng_nodes : list Node;
  friends : list Item;
  build_friends : list Item;
}.

Definition is_build_attr (attr : Attribute) : bool := is_ident (a_path attr) "build".

Definition has_build_attr (item : Item) : bool :=
  match item with
  | IImpl attrs _ => existsb is_build_attr attrs
  | IStruct item => existsb is_build_attr (s_attrs item)
  | _ => false
  end.

Definition remove_build_attr (item : Item) : Item :=
  let retain := filter (fun attr => is_build_attr attr = false) in
  match item with
  | IImpl attrs tokens => IImpl (retain attrs) tokens
  | IStruct item => IStruct (mkItemStruct (retain (s_attrs item)) (s_ident item) (s_fields item))
  | item => item
  end.

Definition get_node_struct (item : Item) : option ItemStruct :=
  match item with
  | IStruct item => if existsb is_node_attr (s_attrs item) then Some item else None
  | _ => None
  end.

Fixpoint NodeGroup_parse_items (group : NodeGroup) (items : list Item) : outcome NodeGroup :=
  match items with
  | [] => Ret group
  | item :: items =>
      match get_node_struct item with
      | Some struct_item =>
          let! node := Node_parse struct_item (ng_device_type group) in
          NodeGroup_parse_items (mkNodeGroup (ng_device_type group) (ng_nodes group ++ [node]) (friends group) (build_friends group)) items
      | None =>
          if has_build_attr item
          then NodeGroup_parse_items (mkNodeGroup (ng_device_type group) (ng_nodes group) (friends group) (build_friends group ++ [remove_build_attr item])) items
          else NodeGroup_parse_items (mkNodeGroup (ng_device_type group) (ng_nodes group) (friends group ++ [item]) (build_friends group)) items
      end
  end.

Definition NodeGroup_parse (ident : string) (content : option (list Item)) : outcome NodeGroup :=
  match content with
  | None => Panic UnwrapFailed
  | Some items => NodeGroup_parse_items (mkNodeGroup (mkDeviceType ident) [] [] []) items
  end.

(** A generated module: its doc comment, its name, the code of its nodes and its friends. *)
Record gen_module (A : Set) : Set := mkModule { gm_doc : string; gm_ident : string; gm_nodes : list A; gm_friends : list Item }.
#[global] Arguments mkModule {A}.
#[global] Arguments gm_doc {A}.
#[global] Arguments gm_ident {A}.
#[global] Arguments gm_nodes {A}.
#[global] Arguments gm_friends {A}.

Definition is_struct_or_macro (item : Item) : bool := match item with IStruct _ | IMacro _ => true | _ => false end.

Definition gen_raw_module (g : NodeGroup) : outcome (gen_module raw_struct) :=
  let! c := const_ident (ng_device_type g) in
  Ret (mkModule (" Device path nodes for [`DeviceType::" +:+ c +:+ "`].") (module_ident (ng_device_type g)) (map gen_raw_struct (ng_nodes g))
    (filter (fun f => is_struct_or_macro f = true) (friends g))).

Definition gen_packed_module (g : NodeGroup) : outcome (gen_module packed_code) :=
  let! nodes := mapM_outcome gen_packed_code (ng_nodes g) in
  let! c := const_ident (ng_device_type g) in
  Ret (mkModule (" Device path nodes for [`DeviceType::" +:+ c +:+ "`].") (module_ident (ng_device_type g)) nodes (friends g)).

Definition gen_builder_module (g : NodeGroup) : outcome (gen_module (builder_struct * builder_impl)) :=
  let! nodes := mapM_outcome gen_builder_code (ng_nodes g) in
  let! c := const_ident (ng_device_type g) in
  Ret (mkModule (" Device path build nodes for [`DeviceType::" +:+ c +:+ "`].") (module_ident (ng_device_type g)) nodes (build_friends g)).

(** The variants of [DevicePathNodeEnum], with the struct each refers to, and the arms of its
    conversion. *)
Record enum_variant : Set := mkVariant { ev_docs : list Attribute; ev_name : string; ev_module : string; ev_struct : string }.
Record enum_arm : Set := mkArm { ea_device_type : string; ea_sub_type : string; ea_variant : string }.

Definition variant_name (g : NodeGroup) (n : Node) : outcome string := Ident_new (camel_name (ng_device_type g) +:+ struct_ident n).

Definition gen_variant (g : NodeGroup) (n : Node) : outcome enum_variant :=
  let! name := variant_name g n in
  Ret (mkVariant (n_docs n) name (module_ident (ng_device_type g)) (struct_ident n)).

Definition gen_arm (g : NodeGroup) (n : Node) : outcome enum_arm :=
  let! name := variant_name g n in
  let! device_type := const_ident (n_device_type n) in
  Ret (mkArm device_type (n_sub_type n) name).

Definition flat_map_nodes {A} (f : NodeGroup -> Node -> outcome A) (groups : list NodeGroup) : outcome (list A) :=
  let! l := mapM_outcome (fun g => mapM_outcome (f g) (ng_nodes g)) groups in
  Ret (concat l).

Definition gen_node_enum (groups : list NodeGroup) : outcome (list enum_variant * list enum_arm) :=
  let! variants := flat_map_nodes gen_variant groups in
  let! arms := flat_map_nodes gen_arm groups in
  Ret (variants, arms).

(** ** The whole: [mod.rs] *)

Definition parse_spec (items : list Item) : outcome (list NodeGroup) :=
  mapM_outcome (fun item => match item with
                            | IMod ident content => NodeGroup_parse ident content
                            | _ => Panic Explicit
                            end) items.

Definition gen_uefi_raw_code (groups : list NodeGroup) : outcome (list (gen_module raw_struct)) :=
  mapM_outcome gen_raw_module groups.

Record uefi_code : Set := mkUefiCode {
  uc_packed : list (gen_module packed_code);
  uc_enum : list enum_variant * list enum_arm;
  uc_build : list (gen_module (builder_struct * builder_impl));
}.

Definition gen_uefi_code (groups : list NodeGroup) : outcome uefi_code :=
  let! packed := mapM_outcome gen_packed_module groups in
  let! node_enum := gen_node_enum groups in
  let! build := mapM_outcome gen_builder_module groups in
  Ret (mkUefiCode packed node_enum build).

(** Both files from the items of [spec.rs]. *)
Definition gen_code (spec : list Item) : outcome (list (gen_module raw_struct) * uefi_code) :=
  let! groups := parse_spec spec in
  let! raw := gen_uefi_raw_code groups in
  let! uefi := gen_uefi_code groups in
  Ret (raw, uefi).
End node.
