(* ===== verification/NodeSpec.v ===== *)
(** * The input and one output of the code generator

    [spec.rs], item by item, and the structs of [uefi-raw]'s [device_path_gen.rs].  Doc
    comments are left out, and the items that are only passed through ([impl] blocks,
    macro calls, functions) are named by what they define. *)
From stdpp Require Import strings.
From S2P Require Import Prelude NodeGen.
#[local] Open Scope string_scope.
#[local] Open Scope Z_scope.
#[local] Open Scope list_scope.

#[local] Abbreviation ty s := (TPath [(s, "")]).
#[local] Abbreviation path l := (TPath (map (fun s => (s, "")) l)).
#[local] Abbreviation flag s := (mkMeta [s] NoValue).
#[local] Abbreviation value s l := (mkMeta [s] (EqLit l)).
#[local] Abbreviation list_attr s l := (mkAttr [s] (Some l)).
#[local] Abbreviation field nm t := (mkField [] (Some nm) t).
#[local] Abbreviation field_with attrs nm t := (mkField attrs (Some nm) t).

(** ** Module [end] *)

Definition spec_EndInstance : Item := IStruct (mkItemStruct [list_attr "node" [value "static_size" (LitInt 4)]]
  "Instance" Unit).

Definition spec_EndEntire : Item := IStruct (mkItemStruct [list_attr "node" [value "static_size" (LitInt 4)]] "Entire"
  Unit).

Definition spec_end : Item := IMod "end" (Some [spec_EndInstance; spec_EndEntire]).

(** ** Module [hardware] *)

Definition spec_HardwarePci : Item := IStruct (mkItemStruct [list_attr "node" [value "static_size" (LitInt 6)]] "Pci"
  (Named [field "function" (ty "u8"); field "device" (ty "u8")])).

Definition spec_HardwarePccard : Item := IStruct (mkItemStruct [list_attr "node" [value "static_size" (LitInt 5)]]
  "Pccard" (Named [field "function" (ty "u8")])).

Definition spec_HardwareMemoryMapped : Item := IStruct (mkItemStruct [list_attr "node" [value "static_size" (LitInt
  24)]] "MemoryMapped" (Named [field "memory_type" (ty "MemoryType"); field "start_address" (ty "u64"); field
  "end_address" (ty "u64")])).

Definition spec_HardwareVendor : Item := IStruct (mkItemStruct [list_attr "node" [value "static_size" (LitInt 20)]]
  "Vendor" (Named [field "vendor_guid" (ty "Guid"); field "vendor_defined_data" (TSlice (ty "u8"))])).

Definition spec_HardwareController : Item := IStruct (mkItemStruct [list_attr "node" [value "static_size" (LitInt 8)]]
  "Controller" (Named [field "controller_number" (ty "u32")])).

Definition spec_HardwareBmc : Item := IStruct (mkItemStruct [list_attr "node" [value "static_size" (LitInt 13)]] "Bmc"
  (Named [field "interface_type" (path ["device_path"; "hardware"; "BmcInterfaceType"]); field "base_address" (ty
  "u64")])).

Definition spec_hardware : Item := IMod "hardware" (Some [spec_HardwarePci; spec_HardwarePccard;
  spec_HardwareMemoryMapped; spec_HardwareVendor; spec_HardwareController; spec_HardwareBmc; IMacro
  "newtype_enum! BmcInterfaceType"]).

(** ** Module [acpi] *)

Definition spec_AcpiAcpi : Item := IStruct (mkItemStruct [list_attr "node" [value "static_size" (LitInt 12); value
  "sub_type" (LitStr "ACPI")]] "Acpi" (Named [field "hid" (ty "u32"); field "uid" (ty "u32")])).

Definition spec_AcpiExpanded : Item := IStruct (mkItemStruct [list_attr "node" [value "static_size" (LitInt 16)]]
  "Expanded" (Named [field "hid" (ty "u32"); field "uid" (ty "u32"); field "cid" (ty "u32"); field_with [list_attr
  "node" [flag "custom_get_impl"]] "hid_str" (TSlice (ty "u8")); field_with [list_attr "node" [flag
  "custom_get_impl"]] "uid_str" (TSlice (ty "u8")); field_with [list_attr "node" [flag "custom_get_impl"]] "cid_str"
  (TSlice (ty "u8"))])).

Definition spec_AcpiAdr : Item := IStruct (mkItemStruct [list_attr "node" [value "static_size" (LitInt 4)]] "Adr"
  (Named [field_with [list_attr "node" [value "build_type" (LitStr "&'a AdrSlice")]] "adr" (TSlice (ty "u32"))])).

Definition spec_AcpiAdrSlice : Item := IStruct (mkItemStruct [mkAttr ["build"] None; list_attr "repr" [flag
  "transparent"]; list_attr "derive" [flag "Debug"]] "AdrSlice" (Unnamed [mkField [] None (TSlice (ty "u32"))])).

Definition spec_AcpiNvdimm : Item := IStruct (mkItemStruct [list_attr "node" [value "static_size" (LitInt 8)]]
  "Nvdimm" (Named [field "nfit_device_handle" (ty "u32")])).

Definition spec_acpi : Item := IMod "acpi" (Some [spec_AcpiAcpi; spec_AcpiExpanded; IImpl [] "Expanded"; IOther
  "fn acpi_expanded_null_indices"; IOther "fn get_acpi_expanded_substr"; IOther "mod tests"; spec_AcpiAdr;
  spec_AcpiAdrSlice; IImpl [mkAttr ["build"] None] "AdrSlice"; spec_AcpiNvdimm]).

(** ** Module [messaging] *)

Definition spec_MessagingAtapi : Item := IStruct (mkItemStruct [list_attr "node" [value "static_size" (LitInt 8)]]
  "Atapi" (Named [field "primary_secondary" (path ["device_path"; "messaging"; "PrimarySecondary"]); field
  "master_slave" (path ["device_path"; "messaging"; "MasterSlave"]); field "logical_unit_number" (ty "u16")])).

Definition spec_MessagingScsi : Item := IStruct (mkItemStruct [list_attr "node" [value "static_size" (LitInt 8)]]
  "Scsi" (Named [field "target_id" (ty "u16"); field "logical_unit_number" (ty "u16")])).

Definition spec_MessagingFibreChannel : Item := IStruct (mkItemStruct [list_attr "node" [value "static_size" (LitInt
  24)]] "FibreChannel" (Named [field "_reserved" (ty "u32"); field "world_wide_name" (ty "u64"); field
  "logical_unit_number" (ty "u64")])).

Definition spec_MessagingFibreChannelEx : Item := IStruct (mkItemStruct [list_attr "node" [value "static_size" (LitInt
  24)]] "FibreChannelEx" (Named [field "_reserved" (ty "u32"); field "world_wide_name" (TArray (ty "u8") (Some 8));
  field "logical_unit_number" (TArray (ty "u8") (Some 8))])).

Definition spec_MessagingIeee1394 : Item := IStruct (mkItemStruct [list_attr "node" [value "static_size" (LitInt 16);
  value "sub_type" (LitStr "MESSAGING_1394")]] "Ieee1394" (Named [field "_reserved" (ty "u32"); field "guid" (TArray
  (ty "u8") (Some 8))])).

Definition spec_MessagingUsb : Item := IStruct (mkItemStruct [list_attr "node" [value "static_size" (LitInt 6)]] "Usb"
  (Named [field "parent_port_number" (ty "u8"); field "interface" (ty "u8")])).

Definition spec_MessagingSata : Item := IStruct (mkItemStruct [list_attr "node" [value "static_size" (LitInt 10)]]
  "Sata" (Named [field "hba_port_number" (ty "u16"); field "port_multiplier_port_number" (ty "u16"); field
  "logical_unit_number" (ty "u16")])).

Definition spec_MessagingUsbWwid : Item := IStruct (mkItemStruct [list_attr "node" [value "static_size" (LitInt 10)]]
  "UsbWwid" (Named [field "interface_number" (ty "u16"); field "device_vendor_id" (ty "u16"); field
  "device_product_id" (ty "u16"); field "serial_number" (TSlice (ty "u16"))])).

Definition spec_MessagingDeviceLogicalUnit : Item := IStruct (mkItemStruct [list_attr "node" [value "static_size"
  (LitInt 5)]] "DeviceLogicalUnit" (Named [field "logical_unit_number" (ty "u8")])).

Definition spec_MessagingUsbClass : Item := IStruct (mkItemStruct [list_attr "node" [value "static_size" (LitInt 11)]]
  "UsbClass" (Named [field "vendor_id" (ty "u16"); field "product_id" (ty "u16"); field "device_class" (ty "u8");
  field "device_subclass" (ty "u8"); field "device_protocol" (ty "u8")])).

Definition spec_MessagingI2o : Item := IStruct (mkItemStruct [list_attr "node" [value "static_size" (LitInt 8)]] "I2o"
  (Named [field "target_id" (ty "u32")])).

Definition spec_MessagingMacAddress : Item := IStruct (mkItemStruct [list_attr "node" [value "static_size" (LitInt
  37)]] "MacAddress" (Named [field "mac_address" (TArray (ty "u8") (Some 32)); field "interface_type" (ty "u8")])).

Definition spec_MessagingIpv4 : Item := IStruct (mkItemStruct [list_attr "node" [value "static_size" (LitInt 27)]]
  "Ipv4" (Named [field "local_ip_address" (TArray (ty "u8") (Some 4)); field "remote_ip_address" (TArray (ty "u8")
  (Some 4)); field "local_port" (ty "u16"); field "remote_port" (ty "u16"); field "protocol" (ty "u16"); field
  "ip_address_origin" (path ["device_path"; "messaging"; "Ipv4AddressOrigin"]); field "gateway_ip_address" (TArray (ty
  "u8") (Some 4)); field "subnet_mask" (TArray (ty "u8") (Some 4))])).

Definition spec_MessagingIpv6 : Item := IStruct (mkItemStruct [list_attr "node" [value "static_size" (LitInt 60)]]
  "Ipv6" (Named [field "local_ip_address" (TArray (ty "u8") (Some 16)); field "remote_ip_address" (TArray (ty "u8")
  (Some 16)); field "local_port" (ty "u16"); field "remote_port" (ty "u16"); field "protocol" (ty "u16"); field
  "ip_address_origin" (path ["device_path"; "messaging"; "Ipv6AddressOrigin"]); field "prefix_length" (ty "u8"); field
  "gateway_ip_address" (TArray (ty "u8") (Some 16))])).

Definition spec_MessagingVlan : Item := IStruct (mkItemStruct [list_attr "node" [value "static_size" (LitInt 6)]]
  "Vlan" (Named [field "vlan_id" (ty "u16")])).

Definition spec_MessagingInfiniband : Item := IStruct (mkItemStruct [list_attr "node" [value "static_size" (LitInt
  48)]] "Infiniband" (Named [field "resource_flags" (path ["device_path"; "messaging"; "InfinibandResourceFlags"]);
  field "port_gid" (TArray (ty "u8") (Some 16)); field "ioc_guid_or_service_id" (ty "u64"); field "target_port_id" (ty
  "u64"); field "device_id" (ty "u64")])).

Definition spec_MessagingUart : Item := IStruct (mkItemStruct [list_attr "node" [value "static_size" (LitInt 19)]]
  "Uart" (Named [field "_reserved" (ty "u32"); field "baud_rate" (ty "u64"); field "data_bits" (ty "u8"); field
  "parity" (path ["device_path"; "messaging"; "Parity"]); field "stop_bits" (path ["device_path"; "messaging";
  "StopBits"])])).

Definition spec_MessagingVendor : Item := IStruct (mkItemStruct [list_attr "node" [value "static_size" (LitInt 20)]]
  "Vendor" (Named [field "vendor_guid" (ty "Guid"); field "vendor_defined_data" (TSlice (ty "u8"))])).

Definition spec_MessagingSasEx : Item := IStruct (mkItemStruct [list_attr "node" [value "static_size" (LitInt 24);
  value "sub_type" (LitStr "MESSAGING_SCSI_SAS_EX")]] "SasEx" (Named [field "sas_address" (TArray (ty "u8") (Some 8));
  field "logical_unit_number" (TArray (ty "u8") (Some 8)); field "info" (ty "u16"); field "relative_target_port" (ty
  "u16")])).

Definition spec_MessagingIscsi : Item := IStruct (mkItemStruct [list_attr "node" [value "static_size" (LitInt 18)]]
  "Iscsi" (Named [field "protocol" (path ["device_path"; "messaging"; "IscsiProtocol"]); field "options" (path
  ["device_path"; "messaging"; "IscsiLoginOptions"]); field "logical_unit_number" (TArray (ty "u8") (Some 8)); field
  "target_portal_group_tag" (ty "u16"); field "iscsi_target_name" (TSlice (ty "u8"))])).

Definition spec_MessagingNvmeNamespace : Item := IStruct (mkItemStruct [list_attr "node" [value "static_size" (LitInt
  16)]] "NvmeNamespace" (Named [field "namespace_identifier" (ty "u32"); field "ieee_extended_unique_identifier" (ty
  "u64")])).

Definition spec_MessagingUri : Item := IStruct (mkItemStruct [list_attr "node" [value "static_size" (LitInt 4)]] "Uri"
  (Named [field "value" (TSlice (ty "u8"))])).

Definition spec_MessagingUfs : Item := IStruct (mkItemStruct [list_attr "node" [value "static_size" (LitInt 6)]] "Ufs"
  (Named [field "target_id" (ty "u8"); field "logical_unit_number" (ty "u8")])).

Definition spec_MessagingSd : Item := IStruct (mkItemStruct [list_attr "node" [value "static_size" (LitInt 5)]] "Sd"
  (Named [field "slot_number" (ty "u8")])).

Definition spec_MessagingBluetooth : Item := IStruct (mkItemStruct [list_attr "node" [value "static_size" (LitInt
  10)]] "Bluetooth" (Named [field "device_address" (TArray (ty "u8") (Some 6))])).

Definition spec_MessagingWifi : Item := IStruct (mkItemStruct [list_attr "node" [value "static_size" (LitInt 36)]]
  "Wifi" (Named [field "ssid" (TArray (ty "u8") (Some 32))])).

Definition spec_MessagingEmmc : Item := IStruct (mkItemStruct [list_attr "node" [value "static_size" (LitInt 5)]]
  "Emmc" (Named [field "slot_number" (ty "u8")])).

Definition spec_MessagingBluetoothLe : Item := IStruct (mkItemStruct [list_attr "node" [value "static_size" (LitInt
  11)]] "BluetoothLe" (Named [field "device_address" (TArray (ty "u8") (Some 6)); field "address_type" (path
  ["device_path"; "messaging"; "BluetoothLeAddressType"])])).

Definition spec_MessagingDns : Item := IStruct (mkItemStruct [list_attr "node" [value "static_size" (LitInt 5)]] "Dns"
  (Named [field "address_type" (path ["device_path"; "messaging"; "DnsAddressType"]); field "addresses" (TSlice (ty
  "IpAddress"))])).

Definition spec_MessagingNvdimmNamespace : Item := IStruct (mkItemStruct [list_attr "node" [value "static_size"
  (LitInt 20)]] "NvdimmNamespace" (Named [field "uuid" (TArray (ty "u8") (Some 16))])).

Definition spec_MessagingRestService : Item := IStruct (mkItemStruct [list_attr "node" [value "static_size" (LitInt
  6)]] "RestService" (Named [field "service_type" (path ["device_path"; "messaging"; "RestServiceType"]); field
  "access_mode" (path ["device_path"; "messaging"; "RestServiceAccessMode"]); field_with [list_attr "node" [flag
  "no_get_func"; flag "custom_build_impl"; flag "custom_build_size_impl"; value "build_type" (LitStr
  "Option<RestServiceVendorData<'a>>")]] "vendor_guid_and_data" (TSlice (ty "u8"))])).

Definition spec_MessagingRestServiceVendorData : Item := IStruct (mkItemStruct [mkAttr ["build"] None; list_attr
  "derive" [flag "Debug"]] "RestServiceVendorData" (Named [field "vendor_guid" (ty "Guid"); field
  "vendor_defined_data" (TRef "'a" (TSlice (ty "u8")))])).

Definition spec_MessagingNvmeOfNamespace : Item := IStruct (mkItemStruct [list_attr "node" [value "static_size"
  (LitInt 21)]] "NvmeOfNamespace" (Named [field "nidt" (ty "u8"); field "nid" (TArray (ty "u8") (Some 16)); field
  "subsystem_nqn" (TSlice (ty "u8"))])).

Definition spec_messaging : Item := IMod "messaging" (Some [spec_MessagingAtapi; IMacro
  "newtype_enum! PrimarySecondary"; IMacro "newtype_enum! MasterSlave"; spec_MessagingScsi;
  spec_MessagingFibreChannel; spec_MessagingFibreChannelEx; spec_MessagingIeee1394; spec_MessagingUsb;
  spec_MessagingSata; spec_MessagingUsbWwid; spec_MessagingDeviceLogicalUnit; spec_MessagingUsbClass;
  spec_MessagingI2o; spec_MessagingMacAddress; spec_MessagingIpv4; IMacro "newtype_enum! Ipv4AddressOrigin";
  spec_MessagingIpv6; IMacro "newtype_enum! Ipv6AddressOrigin"; spec_MessagingVlan; spec_MessagingInfiniband; IMacro
  "bitflags! InfinibandResourceFlags"; spec_MessagingUart; IMacro "newtype_enum! Parity"; IMacro
  "newtype_enum! StopBits"; spec_MessagingVendor; IImpl [] "Vendor"; spec_MessagingSasEx; spec_MessagingIscsi; IMacro
  "newtype_enum! IscsiProtocol"; IMacro "bitflags! IscsiLoginOptions"; spec_MessagingNvmeNamespace; spec_MessagingUri;
  spec_MessagingUfs; spec_MessagingSd; spec_MessagingBluetooth; spec_MessagingWifi; spec_MessagingEmmc;
  spec_MessagingBluetoothLe; IMacro "newtype_enum! BluetoothLeAddressType"; spec_MessagingDns; IMacro
  "newtype_enum! DnsAddressType"; spec_MessagingNvdimmNamespace; spec_MessagingRestService; IImpl [] "RestService";
  IMacro "newtype_enum! RestServiceType"; IMacro "newtype_enum! RestServiceAccessMode";
  spec_MessagingRestServiceVendorData; IImpl [mkAttr ["build"] None] "RestService<'_>";
  spec_MessagingNvmeOfNamespace]).

(** ** Module [media] *)

Definition spec_MediaHardDrive : Item := IStruct (mkItemStruct [list_attr "node" [value "static_size" (LitInt 42)]]
  "HardDrive" (Named [field "partition_number" (ty "u32"); field "partition_start" (ty "u64"); field "partition_size"
  (ty "u64"); field_with [list_attr "node" [flag "no_get_func"; flag "custom_build_impl"; value "build_type" (LitStr
  "device_path::media::PartitionSignature")]] "partition_signature" (TArray (ty "u8") (Some 16)); field
  "partition_format" (path ["device_path"; "media"; "PartitionFormat"]); field_with [list_attr "node" [flag
  "no_get_func"; flag "custom_build_impl"; value "build_type" (LitBool false)]] "signature_type" (ty "u8")])).

Definition spec_MediaCdRom : Item := IStruct (mkItemStruct [list_attr "node" [value "static_size" (LitInt 24)]]
  "CdRom" (Named [field "boot_entry" (ty "u32"); field "partition_start" (ty "u64"); field "partition_size" (ty
  "u64")])).

Definition spec_MediaVendor : Item := IStruct (mkItemStruct [list_attr "node" [value "static_size" (LitInt 20)]]
  "Vendor" (Named [field "vendor_guid" (ty "Guid"); field "vendor_defined_data" (TSlice (ty "u8"))])).

Definition spec_MediaFilePath : Item := IStruct (mkItemStruct [list_attr "node" [value "static_size" (LitInt 4)]]
  "FilePath" (Named [field_with [list_attr "node" [value "build_type" (LitStr "&'a CStr16")]] "path_name" (TSlice (ty
  "u16"))])).

Definition spec_MediaProtocol : Item := IStruct (mkItemStruct [list_attr "node" [value "static_size" (LitInt 20)]]
  "Protocol" (Named [field "protocol_guid" (ty "Guid")])).

Definition spec_MediaPiwgFirmwareFile : Item := IStruct (mkItemStruct [list_attr "node" [value "static_size" (LitInt
  4)]] "PiwgFirmwareFile" (Named [field "data" (TSlice (ty "u8"))])).

Definition spec_MediaPiwgFirmwareVolume : Item := IStruct (mkItemStruct [list_attr "node" [value "static_size" (LitInt
  4)]] "PiwgFirmwareVolume" (Named [field "data" (TSlice (ty "u8"))])).

Definition spec_MediaRelativeOffsetRange : Item := IStruct (mkItemStruct [list_attr "node" [value "static_size"
  (LitInt 24)]] "RelativeOffsetRange" (Named [field "_reserved" (ty "u32"); field "starting_offset" (ty "u64"); field
  "ending_offset" (ty "u64")])).

Definition spec_MediaRamDisk : Item := IStruct (mkItemStruct [list_attr "node" [value "static_size" (LitInt 38)]]
  "RamDisk" (Named [field "starting_address" (ty "u64"); field "ending_address" (ty "u64"); field "disk_type" (path
  ["device_path"; "media"; "RamDiskType"]); field "disk_instance" (ty "u16")])).

Definition spec_media : Item := IMod "media" (Some [spec_MediaHardDrive; IImpl [] "HardDrive"; IImpl [mkAttr ["build"]
  None] "HardDrive"; IOther "enum PartitionSignature"; IMacro "newtype_enum! PartitionFormat"; spec_MediaCdRom;
  spec_MediaVendor; spec_MediaFilePath; spec_MediaProtocol; spec_MediaPiwgFirmwareFile; spec_MediaPiwgFirmwareVolume;
  spec_MediaRelativeOffsetRange; spec_MediaRamDisk; IMacro "newtype_enum! RamDiskType"]).

(** ** Module [bios_boot_spec] *)

Definition spec_BiosBootSpecBootSpecification : Item := IStruct (mkItemStruct [list_attr "node" [value "static_size"
  (LitInt 8); value "sub_type" (LitStr "BIOS_BOOT_SPECIFICATION")]] "BootSpecification" (Named [field "device_type"
  (ty "u16"); field "status_flag" (ty "u16"); field "description_string" (TSlice (ty "u8"))])).

Definition spec_bios_boot_spec : Item := IMod "bios_boot_spec" (Some [spec_BiosBootSpecBootSpecification]).

(** [spec.rs]. *)
Definition spec : list Item := [spec_end; spec_hardware; spec_acpi; spec_messaging; spec_media; spec_bios_boot_spec].

(** ** Module [end] of [uefi-raw] *)

Definition raw_EndInstance : raw_struct := mkRaw "Instance" [("header", ty "DevicePathHeader")].

Definition raw_EndEntire : raw_struct := mkRaw "Entire" [("header", ty "DevicePathHeader")].

Definition raw_end : gen_module raw_struct := mkModule " Device path nodes for [`DeviceType::END`]." "end"
  [raw_EndInstance; raw_EndEntire] [].

(** ** Module [hardware] of [uefi-raw] *)

Definition raw_HardwarePci : raw_struct := mkRaw "Pci" [("header", ty "DevicePathHeader"); ("function", ty "u8");
  ("device", ty "u8")].

Definition raw_HardwarePccard : raw_struct := mkRaw "Pccard" [("header", ty "DevicePathHeader"); ("function", ty
  "u8")].

Definition raw_HardwareMemoryMapped : raw_struct := mkRaw "MemoryMapped" [("header", ty "DevicePathHeader");
  ("memory_type", ty "MemoryType"); ("start_address", ty "u64"); ("end_address", ty "u64")].

Definition raw_HardwareVendor : raw_struct := mkRaw "Vendor" [("header", ty "DevicePathHeader"); ("vendor_guid", ty
  "Guid"); ("vendor_defined_data", TArray (ty "u8") (Some 0))].

Definition raw_HardwareController : raw_struct := mkRaw "Controller" [("header", ty "DevicePathHeader");
  ("controller_number", ty "u32")].

Definition raw_HardwareBmc : raw_struct := mkRaw "Bmc" [("header", ty "DevicePathHeader"); ("interface_type", path
  ["device_path"; "hardware"; "BmcInterfaceType"]); ("base_address", ty "u64")].

Definition raw_hardware : gen_module raw_struct := mkModule " Device path nodes for [`DeviceType::HARDWARE`]."
  "hardware" [raw_HardwarePci; raw_HardwarePccard; raw_HardwareMemoryMapped; raw_HardwareVendor;
  raw_HardwareController; raw_HardwareBmc] [IMacro "newtype_enum! BmcInterfaceType"].

(** ** Module [acpi] of [uefi-raw] *)

Definition raw_AcpiAcpi : raw_struct := mkRaw "Acpi" [("header", ty "DevicePathHeader"); ("hid", ty "u32"); ("uid", ty
  "u32")].

Definition raw_AcpiExpanded : raw_struct := mkRaw "Expanded" [("header", ty "DevicePathHeader"); ("hid", ty "u32");
  ("uid", ty "u32"); ("cid", ty "u32"); ("data", TArray (ty "u8") (Some 0))].

Definition raw_AcpiAdr : raw_struct := mkRaw "Adr" [("header", ty "DevicePathHeader"); ("adr", TArray (ty "u32") (Some
  0))].

Definition raw_AcpiNvdimm : raw_struct := mkRaw "Nvdimm" [("header", ty "DevicePathHeader"); ("nfit_device_handle", ty
  "u32")].

Definition raw_acpi : gen_module raw_struct := mkModule " Device path nodes for [`DeviceType::ACPI`]." "acpi"
  [raw_AcpiAcpi; raw_AcpiExpanded; raw_AcpiAdr; raw_AcpiNvdimm] [].

(** ** Module [messaging] of [uefi-raw] *)

Definition raw_MessagingAtapi : raw_struct := mkRaw "Atapi" [("header", ty "DevicePathHeader"); ("primary_secondary",
  path ["device_path"; "messaging"; "PrimarySecondary"]); ("master_slave", path ["device_path"; "messaging";
  "MasterSlave"]); ("logical_unit_number", ty "u16")].

Definition raw_MessagingScsi : raw_struct := mkRaw "Scsi" [("header", ty "DevicePathHeader"); ("target_id", ty "u16");
  ("logical_unit_number", ty "u16")].

Definition raw_MessagingFibreChannel : raw_struct := mkRaw "FibreChannel" [("header", ty "DevicePathHeader");
  ("_reserved", ty "u32"); ("world_wide_name", ty "u64"); ("logical_unit_number", ty "u64")].

Definition raw_MessagingFibreChannelEx : raw_struct := mkRaw "FibreChannelEx" [("header", ty "DevicePathHeader");
  ("_reserved", ty "u32"); ("world_wide_name", TArray (ty "u8") (Some 8)); ("logical_unit_number", TArray (ty "u8")
  (Some 8))].

Definition raw_MessagingIeee1394 : raw_struct := mkRaw "Ieee1394" [("header", ty "DevicePathHeader"); ("_reserved", ty
  "u32"); ("guid", TArray (ty "u8") (Some 8))].

Definition raw_MessagingUsb : raw_struct := mkRaw "Usb" [("header", ty "DevicePathHeader"); ("parent_port_number", ty
  "u8"); ("interface", ty "u8")].

Definition raw_MessagingSata : raw_struct := mkRaw "Sata" [("header", ty "DevicePathHeader"); ("hba_port_number", ty
  "u16"); ("port_multiplier_port_number", ty "u16"); ("logical_unit_number", ty "u16")].

Definition raw_MessagingUsbWwid : raw_struct := mkRaw "UsbWwid" [("header", ty "DevicePathHeader");
  ("interface_number", ty "u16"); ("device_vendor_id", ty "u16"); ("device_product_id", ty "u16"); ("serial_number",
  TArray (ty "u16") (Some 0))].

Definition raw_MessagingDeviceLogicalUnit : raw_struct := mkRaw "DeviceLogicalUnit" [("header", ty
  "DevicePathHeader"); ("logical_unit_number", ty "u8")].

Definition raw_MessagingUsbClass : raw_struct := mkRaw "UsbClass" [("header", ty "DevicePathHeader"); ("vendor_id", ty
  "u16"); ("product_id", ty "u16"); ("device_class", ty "u8"); ("device_subclass", ty "u8"); ("device_protocol", ty
  "u8")].

Definition raw_MessagingI2o : raw_struct := mkRaw "I2o" [("header", ty "DevicePathHeader"); ("target_id", ty "u32")].

Definition raw_MessagingMacAddress : raw_struct := mkRaw "MacAddress" [("header", ty "DevicePathHeader");
  ("mac_address", TArray (ty "u8") (Some 32)); ("interface_type", ty "u8")].

Definition raw_MessagingIpv4 : raw_struct := mkRaw "Ipv4" [("header", ty "DevicePathHeader"); ("local_ip_address",
  TArray (ty "u8") (Some 4)); ("remote_ip_address", TArray (ty "u8") (Some 4)); ("local_port", ty "u16");
  ("remote_port", ty "u16"); ("protocol", ty "u16"); ("ip_address_origin", path ["device_path"; "messaging";
  "Ipv4AddressOrigin"]); ("gateway_ip_address", TArray (ty "u8") (Some 4)); ("subnet_mask", TArray (ty "u8") (Some
  4))].

Definition raw_MessagingIpv6 : raw_struct := mkRaw "Ipv6" [("header", ty "DevicePathHeader"); ("local_ip_address",
  TArray (ty "u8") (Some 16)); ("remote_ip_address", TArray (ty "u8") (Some 16)); ("local_port", ty "u16");
  ("remote_port", ty "u16"); ("protocol", ty "u16"); ("ip_address_origin", path ["device_path"; "messaging";
  "Ipv6AddressOrigin"]); ("prefix_length", ty "u8"); ("gateway_ip_address", TArray (ty "u8") (Some 16))].

Definition raw_MessagingVlan : raw_struct := mkRaw "Vlan" [("header", ty "DevicePathHeader"); ("vlan_id", ty "u16")].

Definition raw_MessagingInfiniband : raw_struct := mkRaw "Infiniband" [("header", ty "DevicePathHeader");
  ("resource_flags", path ["device_path"; "messaging"; "InfinibandResourceFlags"]); ("port_gid", TArray (ty "u8")
  (Some 16)); ("ioc_guid_or_service_id", ty "u64"); ("target_port_id", ty "u64"); ("device_id", ty "u64")].

Definition raw_MessagingUart : raw_struct := mkRaw "Uart" [("header", ty "DevicePathHeader"); ("_reserved", ty "u32");
  ("baud_rate", ty "u64"); ("data_bits", ty "u8"); ("parity", path ["device_path"; "messaging"; "Parity"]);
  ("stop_bits", path ["device_path"; "messaging"; "StopBits"])].

Definition raw_MessagingVendor : raw_struct := mkRaw "Vendor" [("header", ty "DevicePathHeader"); ("vendor_guid", ty
  "Guid"); ("vendor_defined_data", TArray (ty "u8") (Some 0))].

Definition raw_MessagingSasEx : raw_struct := mkRaw "SasEx" [("header", ty "DevicePathHeader"); ("sas_address", TArray
  (ty "u8") (Some 8)); ("logical_unit_number", TArray (ty "u8") (Some 8)); ("info", ty "u16");
  ("relative_target_port", ty "u16")].

Definition raw_MessagingIscsi : raw_struct := mkRaw "Iscsi" [("header", ty "DevicePathHeader"); ("protocol", path
  ["device_path"; "messaging"; "IscsiProtocol"]); ("options", path ["device_path"; "messaging"; "IscsiLoginOptions"]);
  ("logical_unit_number", TArray (ty "u8") (Some 8)); ("target_portal_group_tag", ty "u16"); ("iscsi_target_name",
  TArray (ty "u8") (Some 0))].

Definition raw_MessagingNvmeNamespace : raw_struct := mkRaw "NvmeNamespace" [("header", ty "DevicePathHeader");
  ("namespace_identifier", ty "u32"); ("ieee_extended_unique_identifier", ty "u64")].

Definition raw_MessagingUri : raw_struct := mkRaw "Uri" [("header", ty "DevicePathHeader"); ("value", TArray (ty "u8")
  (Some 0))].

Definition raw_MessagingUfs : raw_struct := mkRaw "Ufs" [("header", ty "DevicePathHeader"); ("target_id", ty "u8");
  ("logical_unit_number", ty "u8")].

Definition raw_MessagingSd : raw_struct := mkRaw "Sd" [("header", ty "DevicePathHeader"); ("slot_number", ty "u8")].

Definition raw_MessagingBluetooth : raw_struct := mkRaw "Bluetooth" [("header", ty "DevicePathHeader");
  ("device_address", TArray (ty "u8") (Some 6))].

Definition raw_MessagingWifi : raw_struct := mkRaw "Wifi" [("header", ty "DevicePathHeader"); ("ssid", TArray (ty
  "u8") (Some 32))].

Definition raw_MessagingEmmc : raw_struct := mkRaw "Emmc" [("header", ty "DevicePathHeader"); ("slot_number", ty
  "u8")].

Definition raw_MessagingBluetoothLe : raw_struct := mkRaw "BluetoothLe" [("header", ty "DevicePathHeader");
  ("device_address", TArray (ty "u8") (Some 6)); ("address_type", path ["device_path"; "messaging";
  "BluetoothLeAddressType"])].

Definition raw_MessagingDns : raw_struct := mkRaw "Dns" [("header", ty "DevicePathHeader"); ("address_type", path
  ["device_path"; "messaging"; "DnsAddressType"]); ("addresses", TArray (ty "IpAddress") (Some 0))].

Definition raw_MessagingNvdimmNamespace : raw_struct := mkRaw "NvdimmNamespace" [("header", ty "DevicePathHeader");
  ("uuid", TArray (ty "u8") (Some 16))].

Definition raw_MessagingRestService : raw_struct := mkRaw "RestService" [("header", ty "DevicePathHeader");
  ("service_type", path ["device_path"; "messaging"; "RestServiceType"]); ("access_mode", path ["device_path";
  "messaging"; "RestServiceAccessMode"]); ("vendor_guid_and_data", TArray (ty "u8") (Some 0))].

Definition raw_MessagingNvmeOfNamespace : raw_struct := mkRaw "NvmeOfNamespace" [("header", ty "DevicePathHeader");
  ("nidt", ty "u8"); ("nid", TArray (ty "u8") (Some 16)); ("subsystem_nqn", TArray (ty "u8") (Some 0))].

Definition raw_messaging : gen_module raw_struct := mkModule " Device path nodes for [`DeviceType::MESSAGING`]."
  "messaging" [raw_MessagingAtapi; raw_MessagingScsi; raw_MessagingFibreChannel; raw_MessagingFibreChannelEx;
  raw_MessagingIeee1394; raw_MessagingUsb; raw_MessagingSata; raw_MessagingUsbWwid; raw_MessagingDeviceLogicalUnit;
  raw_MessagingUsbClass; raw_MessagingI2o; raw_MessagingMacAddress; raw_MessagingIpv4; raw_MessagingIpv6;
  raw_MessagingVlan; raw_MessagingInfiniband; raw_MessagingUart; raw_MessagingVendor; raw_MessagingSasEx;
  raw_MessagingIscsi; raw_MessagingNvmeNamespace; raw_MessagingUri; raw_MessagingUfs; raw_MessagingSd;
  raw_MessagingBluetooth; raw_MessagingWifi; raw_MessagingEmmc; raw_MessagingBluetoothLe; raw_MessagingDns;
  raw_MessagingNvdimmNamespace; raw_MessagingRestService; raw_MessagingNvmeOfNamespace] [IMacro
  "newtype_enum! PrimarySecondary"; IMacro "newtype_enum! MasterSlave"; IMacro "newtype_enum! Ipv4AddressOrigin";
  IMacro "newtype_enum! Ipv6AddressOrigin"; IMacro "bitflags! InfinibandResourceFlags"; IMacro "newtype_enum! Parity";
  IMacro "newtype_enum! StopBits"; IMacro "newtype_enum! IscsiProtocol"; IMacro "bitflags! IscsiLoginOptions"; IMacro
  "newtype_enum! BluetoothLeAddressType"; IMacro "newtype_enum! DnsAddressType"; IMacro
  "newtype_enum! RestServiceType"; IMacro "newtype_enum! RestServiceAccessMode"].

(** ** Module [media] of [uefi-raw] *)

Definition raw_MediaHardDrive : raw_struct := mkRaw "HardDrive" [("header", ty "DevicePathHeader");
  ("partition_number", ty "u32"); ("partition_start", ty "u64"); ("partition_size", ty "u64"); ("partition_signature",
  TArray (ty "u8") (Some 16)); ("partition_format", path ["device_path"; "media"; "PartitionFormat"]);
  ("signature_type", ty "u8")].

Definition raw_MediaCdRom : raw_struct := mkRaw "CdRom" [("header", ty "DevicePathHeader"); ("boot_entry", ty "u32");
  ("partition_start", ty "u64"); ("partition_size", ty "u64")].

Definition raw_MediaVendor : raw_struct := mkRaw "Vendor" [("header", ty "DevicePathHeader"); ("vendor_guid", ty
  "Guid"); ("vendor_defined_data", TArray (ty "u8") (Some 0))].

Definition raw_MediaFilePath : raw_struct := mkRaw "FilePath" [("header", ty "DevicePathHeader"); ("path_name", TArray
  (ty "u16") (Some 0))].

Definition raw_MediaProtocol : raw_struct := mkRaw "Protocol" [("header", ty "DevicePathHeader"); ("protocol_guid", ty
  "Guid")].

Definition raw_MediaPiwgFirmwareFile : raw_struct := mkRaw "PiwgFirmwareFile" [("header", ty "DevicePathHeader");
  ("data", TArray (ty "u8") (Some 0))].

Definition raw_MediaPiwgFirmwareVolume : raw_struct := mkRaw "PiwgFirmwareVolume" [("header", ty "DevicePathHeader");
  ("data", TArray (ty "u8") (Some 0))].

Definition raw_MediaRelativeOffsetRange : raw_struct := mkRaw "RelativeOffsetRange" [("header", ty
  "DevicePathHeader"); ("_reserved", ty "u32"); ("starting_offset", ty "u64"); ("ending_offset", ty "u64")].

Definition raw_MediaRamDisk : raw_struct := mkRaw "RamDisk" [("header", ty "DevicePathHeader"); ("starting_address",
  ty "u64"); ("ending_address", ty "u64"); ("disk_type", path ["device_path"; "media"; "RamDiskType"]);
  ("disk_instance", ty "u16")].

Definition raw_media : gen_module raw_struct := mkModule " Device path nodes for [`DeviceType::MEDIA`]." "media"
  [raw_MediaHardDrive; raw_MediaCdRom; raw_MediaVendor; raw_MediaFilePath; raw_MediaProtocol;
  raw_MediaPiwgFirmwareFile; raw_MediaPiwgFirmwareVolume; raw_MediaRelativeOffsetRange; raw_MediaRamDisk] [IMacro
  "newtype_enum! PartitionFormat"; IMacro "newtype_enum! RamDiskType"].

(** ** Module [bios_boot_spec] of [uefi-raw] *)

Definition raw_BiosBootSpecBootSpecification : raw_struct := mkRaw "BootSpecification" [("header", ty
  "DevicePathHeader"); ("device_type", ty "u16"); ("status_flag", ty "u16"); ("description_string", TArray (ty "u8")
  (Some 0))].

Definition raw_bios_boot_spec : gen_module raw_struct := mkModule
  " Device path nodes for [`DeviceType::BIOS_BOOT_SPEC`]." "bios_boot_spec" [raw_BiosBootSpecBootSpecification] [].

Definition raw_modules : list (gen_module raw_struct) := [raw_end; raw_hardware; raw_acpi; raw_messaging; raw_media; raw_bios_boot_spec].
