(* ===== verification/NodeGenSem.v ===== *)
(** * What the generated device path code does

    The meaning of the code that [NodeGen] generates: the layout of its packed structs, the
    conversions and the dispatch of [DevicePathNodeEnum], and the execution of the builders'
    [size_in_bytes] and [write_data], statement by statement.  It is given in the terms of
    [DevicePathNodes] and [DevicePathBuildNodes], which model the checked-in output; a name
    or a type that the generated code does not find is code that does not compile. *)
From stdpp Require Import strings.
From S2P Require Import Prelude DevicePath DevicePathNodes DevicePathBuild DevicePathBuildNodes NodeGen.
#[local] Open Scope string_scope.
#[local] Open Scope Z_scope.
#[local] Open Scope list_scope.

(** ** Names the generated code refers to *)

Definition rust_types : list (string * fty) :=
  [ ("u8", U8); ("u16", U16); ("u32", U32); ("u64", U64)
  ; ("Guid", Guid); ("IpAddress", IpAddress); ("MemoryType", MemoryType)
  ; ("device_path::hardware::BmcInterfaceType", BmcInterfaceType)
  ; ("device_path::messaging::BluetoothLeAddressType", BluetoothLeAddressType)
  ; ("device_path::messaging::DnsAddressType", DnsAddressType)
  ; ("device_path::messaging::InfinibandResourceFlags", InfinibandResourceFlags)
  ; ("device_path::messaging::Ipv4AddressOrigin", Ipv4AddressOrigin)
  ; ("device_path::messaging::Ipv6AddressOrigin", Ipv6AddressOrigin)
  ; ("device_path::messaging::IscsiLoginOptions", IscsiLoginOptions)
  ; ("device_path::messaging::IscsiProtocol", IscsiProtocol)
  ; ("device_path::messaging::MasterSlave", MasterSlave)
  ; ("device_path::messaging::Parity", Parity)
  ; ("device_path::messaging::PrimarySecondary", PrimarySecondary)
  ; ("device_path::messaging::RestServiceAccessMode", RestServiceAccessMode)
  ; ("device_path::messaging::RestServiceType", RestServiceType)
  ; ("device_path::messaging::StopBits", StopBits)
  ; ("device_path::media::PartitionFormat", PartitionFormat)
  ; ("device_path::media::RamDiskType", RamDiskType) ].

(** The layout of a type of a field that is not a slice. *)
Definition type_layout (t : Type_) : option fty :=
  match t with
  | TPath p => assoc (path_str p) rust_types
  | TArray (TPath p) (Some n) => if String.eqb (path_str p) "u8" then Some (Arr (Z.to_nat n)) else None
  | _ => None
  end.

(** [DeviceType::X] and [DeviceSubType::X]. *)
Definition device_types : list (string * Z) :=
  [ ("HARDWARE", DeviceType_HARDWARE); ("ACPI", DeviceType_ACPI); ("MESSAGING", DeviceType_MESSAGING)
  ; ("MEDIA", DeviceType_MEDIA); ("BIOS_BOOT_SPEC", DeviceType_BIOS_BOOT_SPEC); ("END", DeviceType_END) ].

Definition device_sub_types : list (string * Z) :=
  [ ("HARDWARE_PCI", DeviceSubType_HARDWARE_PCI); ("HARDWARE_PCCARD", DeviceSubType_HARDWARE_PCCARD)
  ; ("HARDWARE_MEMORY_MAPPED", DeviceSubType_HARDWARE_MEMORY_MAPPED); ("HARDWARE_VENDOR", DeviceSubType_HARDWARE_VENDOR)
  ; ("HARDWARE_CONTROLLER", DeviceSubType_HARDWARE_CONTROLLER); ("HARDWARE_BMC", DeviceSubType_HARDWARE_BMC)
  ; ("ACPI", DeviceSubType_ACPI); ("ACPI_EXPANDED", DeviceSubType_ACPI_EXPANDED)
  ; ("ACPI_ADR", DeviceSubType_ACPI_ADR); ("ACPI_NVDIMM", DeviceSubType_ACPI_NVDIMM)
  ; ("MESSAGING_ATAPI", DeviceSubType_MESSAGING_ATAPI); ("MESSAGING_SCSI", DeviceSubType_MESSAGING_SCSI)
  ; ("MESSAGING_FIBRE_CHANNEL", DeviceSubType_MESSAGING_FIBRE_CHANNEL); ("MESSAGING_1394", DeviceSubType_MESSAGING_1394)
  ; ("MESSAGING_USB", DeviceSubType_MESSAGING_USB); ("MESSAGING_I2O", DeviceSubType_MESSAGING_I2O)
  ; ("MESSAGING_INFINIBAND", DeviceSubType_MESSAGING_INFINIBAND); ("MESSAGING_VENDOR", DeviceSubType_MESSAGING_VENDOR)
  ; ("MESSAGING_MAC_ADDRESS", DeviceSubType_MESSAGING_MAC_ADDRESS); ("MESSAGING_IPV4", DeviceSubType_MESSAGING_IPV4)
  ; ("MESSAGING_IPV6", DeviceSubType_MESSAGING_IPV6); ("MESSAGING_UART", DeviceSubType_MESSAGING_UART)
  ; ("MESSAGING_USB_CLASS", DeviceSubType_MESSAGING_USB_CLASS); ("MESSAGING_USB_WWID", DeviceSubType_MESSAGING_USB_WWID)
  ; ("MESSAGING_DEVICE_LOGICAL_UNIT", DeviceSubType_MESSAGING_DEVICE_LOGICAL_UNIT); ("MESSAGING_SATA", DeviceSubType_MESSAGING_SATA)
  ; ("MESSAGING_ISCSI", DeviceSubType_MESSAGING_ISCSI); ("MESSAGING_VLAN", DeviceSubType_MESSAGING_VLAN)
  ; ("MESSAGING_FIBRE_CHANNEL_EX", DeviceSubType_MESSAGING_FIBRE_CHANNEL_EX); ("MESSAGING_SCSI_SAS_EX", DeviceSubType_MESSAGING_SCSI_SAS_EX)
  ; ("MESSAGING_NVME_NAMESPACE", DeviceSubType_MESSAGING_NVME_NAMESPACE); ("MESSAGING_URI", DeviceSubType_MESSAGING_URI)
  ; ("MESSAGING_UFS", DeviceSubType_MESSAGING_UFS); ("MESSAGING_SD", DeviceSubType_MESSAGING_SD)
  ; ("MESSAGING_BLUETOOTH", DeviceSubType_MESSAGING_BLUETOOTH); ("MESSAGING_WIFI", DeviceSubType_MESSAGING_WIFI)
  ; ("MESSAGING_EMMC", DeviceSubType_MESSAGING_EMMC); ("MESSAGING_BLUETOOTH_LE", DeviceSubType_MESSAGING_BLUETOOTH_LE)
  ; ("MESSAGING_DNS", DeviceSubType_MESSAGING_DNS); ("MESSAGING_NVDIMM_NAMESPACE", DeviceSubType_MESSAGING_NVDIMM_NAMESPACE)
  ; ("MESSAGING_REST_SERVICE", DeviceSubType_MESSAGING_REST_SERVICE); ("MESSAGING_NVME_OF_NAMESPACE", DeviceSubType_MESSAGING_NVME_OF_NAMESPACE)
  ; ("MEDIA_HARD_DRIVE", DeviceSubType_MEDIA_HARD_DRIVE); ("MEDIA_CD_ROM", DeviceSubType_MEDIA_CD_ROM)
  ; ("MEDIA_VENDOR", DeviceSubType_MEDIA_VENDOR); ("MEDIA_FILE_PATH", DeviceSubType_MEDIA_FILE_PATH)
  ; ("MEDIA_PROTOCOL", DeviceSubType_MEDIA_PROTOCOL); ("MEDIA_PIWG_FIRMWARE_FILE", DeviceSubType_MEDIA_PIWG_FIRMWARE_FILE)
  ; ("MEDIA_PIWG_FIRMWARE_VOLUME", DeviceSubType_MEDIA_PIWG_FIRMWARE_VOLUME); ("MEDIA_RELATIVE_OFFSET_RANGE", DeviceSubType_MEDIA_RELATIVE_OFFSET_RANGE)
  ; ("MEDIA_RAM_DISK", DeviceSubType_MEDIA_RAM_DISK); ("BIOS_BOOT_SPECIFICATION", DeviceSubType_BIOS_BOOT_SPECIFICATION)
  ; ("END_INSTANCE", DeviceSubType_END_INSTANCE); ("END_ENTIRE", DeviceSubType_END_ENTIRE) ].

(** ** Packed structs and conversions *)

(** Only the last field of a struct may be a slice. *)
Fixpoint struct_layout (fs : list (string * Type_)) : option node_struct :=
  match fs with
  | [] => Some (mkStruct [] None)
  | [(nm, TSlice e)] => t ← type_layout e; Some (mkStruct [] (Some (nm, t)))
  | (nm, ty) :: fs =>
      t ← type_layout ty; s ← struct_layout fs;
      Some (mkStruct ((nm, t) :: fields s) (dst s))
  end.

Definition packed_layout (s : packed_struct) : option node_struct :=
  match ps_fields s with
  | ("header", TPath [("DevicePathHeader", "")]) :: fs => struct_layout fs
  | _ => None
  end.

Definition conversion_of_impl (s : node_struct) (tf : try_from_impl) : option conversion :=
  dt ← assoc (tf_device_type tf) device_types;
  st ← assoc (tf_sub_type tf) device_sub_types;
  match tf_body tf with
  | SizedBody => Some (try_from_sized dt st s)
  | DstBody static_size elem => t ← type_layout elem; Some (try_from_dst dt st static_size t s)
  end.

Definition conversion_of_code (p : packed_code) : option conversion :=
  s ← packed_layout (pc_struct p);
  conversion_of_impl s (pc_try_from p).

(** The item called [nm], by the name [f] gives. *)
Fixpoint find_named {A} (f : A -> string) (nm : string) (l : list A) : option A :=
  match l with
  | [] => None
  | a :: l => if String.eqb nm (f a) then Some a else find_named f nm l
  end.

(** [module::Struct] in the generated modules. *)
Definition find_node {A : Set} (ident : A -> string) (modules : list (gen_module A)) (v : enum_variant) : option A :=
  m ← find_named gm_ident (ev_module v) modules;
  find_named ident (ev_struct v) (gm_nodes m).

(** [(DeviceType::X, DeviceSubType::Y) => Self::V(node.try_into()?)]: the conversion is the one
    to the type of [V]'s payload. *)
Definition arm_of_code (u : uefi_code) (a : enum_arm) : option ((Z * Z) * (string * conversion)) :=
  dt ← assoc (ea_device_type a) device_types;
  st ← assoc (ea_sub_type a) device_sub_types;
  v ← find_named ev_name (ea_variant a) (fst (uc_enum u));
  p ← find_node (fun p => ps_ident (pc_struct p)) (uc_packed u) v;
  c ← conversion_of_code p;
  Some ((dt, st), (ea_variant a, c)).

Definition arms_of_code (u : uefi_code) : option (list ((Z * Z) * (string * conversion))) :=
  mapM (arm_of_code u) (snd (uc_enum u)).

(** The build node of the same name as a variant of the enum. *)
Definition builder_of_variant (u : uefi_code) (nm : string) : option (builder_struct * builder_impl) :=
  v ← find_named ev_name nm (fst (uc_enum u));
  find_node (fun b => bs_ident (fst b)) (uc_build u) v.

(** ** Builder structs *)

(** The types of the build structs' fields; [AdrSlice] and [CStr16] are transparent wrappers of
    slices. *)
Definition build_type_layout (t : Type_) : option bty :=
  match t with
  | TRef _ (TSlice e) => t ← type_layout e; Some (Slice t)
  | TRef _ (TPath [("AdrSlice", "")]) => Some (Slice U32)
  | TRef _ (TPath [("CStr16", "")]) => Some (Slice U16)
  | t => t ← type_layout t; Some (Val t)
  end.

Definition builder_fields (b : builder_struct) : option (list (string * bty)) :=
  mapM (fun f => t ← build_type_layout (snd f); Some (snd (fst f), t)) (bs_fields b).

(** ** Executing a builder *)

(** What the methods of the build struct see: the fields, the values of [self.m()], and the
    custom methods that give a size or write to the rest of the output. *)
Record build_env : Type := mkEnv {
  e_field : string -> option bval;
  e_val : string -> option fval;
  e_size : string -> outcome Z;
  e_out : string -> mem_uninit -> outcome mem_uninit;
}.

Definition env_slice (env : build_env) (f : string) : list Z :=
  match e_field env f with Some (BSlice ty vs) => enc_elems ty vs | _ => [] end.

Section exec.
Context `{Profile} (env : build_env).

Definition eval_size (t : size_term) : outcome Z :=
  match t with
  | SizeOfVal f => Ret (zlen (env_slice env f))
  | SizeCall m => e_size env m
  end.

Fixpoint eval_sizes (size : Z) (ts : list size_term) : outcome Z :=
  match ts with
  | [] => Ret size
  | t :: ts => let! n := eval_size t in let! size := usize_add size n in eval_sizes size ts
  end.

Definition code_size_in_bytes (b : builder_impl) : outcome (result Z BuildError) :=
  let! size := eval_sizes (fst (bi_size b)) (snd (bi_size b)) in
  Ret (u16_try_from size).

Definition eval_val (v : build_expr) : option fval :=
  match v with
  | FieldVal f => match e_field env f with Some (BVal v) => Some v | _ => None end
  | CallVal m => e_val env m
  end.

(** The output and [dst_group_offset]. *)
Definition exec_stmt (st : mem_uninit * Z) (s : stmt) : outcome (mem_uninit * Z) :=
  let '(out, group) := st in
  match s with
  | LetGroupOffset => Ret (out, 0)
  | AddGroupOffset f => let! group := usize_add group (zlen (env_slice env f)) in Ret (out, group)
  | CopySlice f ptr size =>
      let! off := match ptr with OutAt off => Ret off | OutGroup off => usize_add off group end in
      let! n := eval_size size in
      let! bs := read_raw (env_slice env f) 0 n in
      let! out := write_raw out off bs in
      Ret (out, group)
  | CallBuild m off =>
      let! rest := slice out off (zlen out) in
      let! rest := e_out env m rest in
      Ret (take (Z.to_nat off) out ++ rest, group)
  | WriteZeros off ty =>
      match type_layout ty with
      | Some t => let! out := write_raw out off (replicate (size_of_ty t) 0) in Ret (out, group)
      | None => Undefined
      end
  | WriteVal off ty v =>
      match type_layout ty, eval_val v with
      | Some t, Some v => let! out := write_raw out off (enc_val t v) in Ret (out, group)
      | _, _ => Undefined
      end
  end.

Fixpoint exec_stmts (st : mem_uninit * Z) (ss : list stmt) : outcome mem_uninit :=
  match ss with
  | [] => Ret (fst st)
  | s :: ss => let! st := exec_stmt st s in exec_stmts st ss
  end.

Definition code_write_data (b : builder_impl) (out : mem_uninit) : outcome mem_uninit :=
  let! r := code_size_in_bytes b in
  match r with
  | Err _ => Panic UnwrapFailed
  | Ok size =>
      let! _ := assert_ (size =? zlen out) in
      match assoc (bi_device_type b) device_types, assoc (bi_sub_type b) device_sub_types with
      | Some dt, Some st =>
          let! out := write_raw out 0 (header_bytes (header_new dt st size)) in
          exec_stmts (out, 0) (bi_stmts b)
      | _, _ => Undefined
      end
  end.

Definition code_build_node (b : builder_impl) : BuildNode := mkBuildNode (code_size_in_bytes b) (code_write_data b).
End exec.

(** The build struct [self]; the value of [self.build_f()] is kept under the name [f]. *)
Definition strip_build (m : string) : option string :=
  if String.prefix "build_" m then Some (String.substring 6 (String.length m - 6) m) else None.

Definition env_of (self : struct_value) : build_env :=
  {| e_field := self_field self;
     e_val m := f ← strip_build m; match self_field self f with Some (BVal v) => Some v | _ => None end;
     e_size _ := Undefined; e_out _ _ := Undefined |}.

(** ** The builder that the code amounts to *)

Definition val_name (v : build_expr) : option string :=
  match v with FieldVal f => Some f | CallVal m => strip_build m end.

(** The copies of a group of slices. *)
Fixpoint group_names (off : Z) (ss : list stmt) : option (list string) :=
  match ss with
  | [CopySlice f (OutGroup o) (SizeOfVal g)] => if (o =? off) && String.eqb f g then Some [f] else None
  | CopySlice f (OutGroup o) (SizeOfVal g) :: AddGroupOffset h :: ss =>
      if (o =? off) && String.eqb f g && String.eqb f h then nms ← group_names off ss; Some (f :: nms) else None
  | _ => None
  end.

Fixpoint steps_of (ss : list stmt) : option (list build_step) :=
  match ss with
  | [] => Some []
  | WriteZeros off ty :: ss => t ← type_layout ty; r ← steps_of ss; Some (Zero off t :: r)
  | WriteVal off ty v :: ss => t ← type_layout ty; nm ← val_name v; r ← steps_of ss; Some (Write off nm t :: r)
  | [CopySlice f (OutAt off) (SizeOfVal g)] => if String.eqb f g then Some [Copy off [f]] else None
  | CopySlice _ (OutGroup off) _ :: _ => nms ← group_names off ss; Some [Copy off nms]
  | _ => None
  end.

Definition body_steps (ss : list stmt) : option (list build_step) :=
  match ss with LetGroupOffset :: ss => steps_of ss | ss => steps_of ss end.

Definition term_names (ts : list size_term) : option (list string) :=
  mapM (fun t => match t with SizeOfVal f => Some f | SizeCall _ => None end) ts.

Definition builder_of_code (fs : list (string * bty)) (b : builder_impl) : option node_builder :=
  dt ← assoc (bi_device_type b) device_types;
  st ← assoc (bi_sub_type b) device_sub_types;
  nms ← term_names (snd (bi_size b));
  steps ← body_steps (bi_stmts b);
  Some {| b_fields := fs; b_type := dt; b_sub := st; b_size := fst (bi_size b); b_slices := nms; b_steps := steps |}.
