(* ===== verification/NodeGenCorrect.v ===== *)
(** * Correctness of the device path code generator

    The checked-in output is what the generator makes of [spec.rs]; and for any plain node
    struct that it accepts, the builder it generates and the conversion it generates are
    inverse to each other. *)
From stdpp Require Import strings.
From S2P Require Import Prelude DevicePath DevicePathNodes DevicePathBuild DevicePathBuildNodes NodeGen NodeSpec NodeGenSem.
#[local] Open Scope string_scope.
#[local] Open Scope Z_scope.
#[local] Open Scope list_scope.

(** ** The other crates *)

Definition is_uppercase (c : Ascii.ascii) : bool := let n := Ascii.nat_of_ascii c in ((65 <=? n) && (n <=? 90))%nat.
Definition is_lower_or_digit (c : Ascii.ascii) : bool :=
  let n := Ascii.nat_of_ascii c in ((97 <=? n) && (n <=? 122) || (48 <=? n) && (n <=? 57))%nat.

(** A word of a camel-case name, and one of a snake-case name. *)
Definition camel_word (w : string) : bool :=
  match w with String c w => is_uppercase c && string_forallb is_lower_or_digit w | EmptyString => false end.
Definition snake_word (w : string) : bool :=
  match w with String c w => negb (is_uppercase c) && string_forallb is_lower_or_digit (String c w) | EmptyString => false end.

Definition capitalize (w : string) : string :=
  match w with String c w => String (char_to_uppercase c) w | EmptyString => EmptyString end.

(** What [heck] and [syn] document, of what [spec.rs] needs. *)
Class CrateLaws (C : Crates) : Prop := {
  shouty_words : forall ws, ws <> [] -> forallb camel_word ws = true ->
    to_shouty_snake_case (String.concat "" ws) = String.concat "_" (map to_uppercase ws);
  camel_words : forall ws, ws <> [] -> forallb snake_word ws = true ->
    to_upper_camel_case (String.concat "_" ws) = String.concat "" (map capitalize ws);
  parse_adr_slice : parse_str_type "&'a AdrSlice" = Some (TRef "'a" (TPath [("AdrSlice", "")]));
  parse_cstr16 : parse_str_type "&'a CStr16" = Some (TRef "'a" (TPath [("CStr16", "")]));
  parse_signature : parse_str_type "device_path::media::PartitionSignature" =
    Some (TPath [("device_path", ""); ("media", ""); ("PartitionSignature", "")]);
  parse_vendor_data : parse_str_type "Option<RestServiceVendorData<'a>>" =
    Some (TPath [("Option", "<RestServiceVendorData<'a>>")]);
}.

(** The words of a camel-case name, of a snake-case name, and crates that keep the laws. *)
Fixpoint split_camel (s : string) : list string :=
  match s with
  | EmptyString => []
  | String c s =>
      match split_camel s with
      | String d w :: ws => if is_uppercase d then String c "" :: String d w :: ws else String c (String d w) :: ws
      | ws => String c "" :: ws
      end
  end.

Fixpoint split_snake (s : string) : list string :=
  match s with
  | EmptyString => [""]
  | String c s =>
      if (Ascii.nat_of_ascii c =? 95)%nat then "" :: split_snake s
      else match split_snake s with w :: ws => String c w :: ws | [] => [String c ""] end
  end.

Definition spec_types : list (string * Type_) :=
  [ ("&'a AdrSlice", TRef "'a" (TPath [("AdrSlice", "")]))
  ; ("&'a CStr16", TRef "'a" (TPath [("CStr16", "")]))
  ; ("device_path::media::PartitionSignature", TPath [("device_path", ""); ("media", ""); ("PartitionSignature", "")])
  ; ("Option<RestServiceVendorData<'a>>", TPath [("Option", "<RestServiceVendorData<'a>>")]) ].

Definition ref_crates : Crates := {|
  parse_str_type s := assoc s spec_types;
  to_shouty_snake_case s := String.concat "_" (map to_uppercase (split_camel s));
  to_upper_camel_case s := String.concat "" (map capitalize (split_snake s));
|}.

(** The names and types that the laws speak about. *)
Definition camel_name_ok (s : string) : bool :=
  let ws := split_camel s in String.eqb (String.concat "" ws) s && forallb camel_word ws && negb (bool_decide (ws = [])).
Definition snake_name_ok (s : string) : bool :=
  let ws := split_snake s in String.eqb (String.concat "_" ws) s && forallb snake_word ws && negb (bool_decide (ws = [])).
Definition meta_ok (m : Meta) : bool :=
  match m_rest m with
  | EqLit (LitStr s) => negb (is_ident (m_path m) "build_type") || match assoc s spec_types with Some _ => true | None => false end
  | _ => true
  end.
Definition attr_ok (a : Attribute) : bool := match a_args a with Some ms => forallb meta_ok ms | None => true end.
Definition struct_ok (s : ItemStruct) : bool :=
  camel_name_ok (s_ident s) &&
  match s_fields s with Named fs => forallb (fun f => forallb attr_ok (f_attrs f)) fs | _ => true end.
Definition item_ok (i : Item) : bool :=
  match get_node_struct i with Some s => struct_ok s | None => true end.
Definition module_ok (i : Item) : bool :=
  match i with IMod ident content => snake_name_ok ident && forallb item_ok (default [] content) | _ => true end.

Section agree.
Context `{Profile} (C : Crates) {L : CrateLaws C}.

Lemma shouty_agrees s : camel_name_ok s = true -> @to_shouty_snake_case C s = @to_shouty_snake_case ref_crates s.
Proof.
  unfold camel_name_ok. intros [[E%String.eqb_eq Hw]%andb_true_iff Hn]%andb_true_iff. rewrite <- E at 1.
  apply shouty_words; [|done]. by apply negb_true_iff, bool_decide_eq_false in Hn.
Qed.

Lemma camel_agrees s : snake_name_ok s = true -> @to_upper_camel_case C s = @to_upper_camel_case ref_crates s.
Proof.
  unfold snake_name_ok. intros [[E%String.eqb_eq Hw]%andb_true_iff Hn]%andb_true_iff. rewrite <- E at 1.
  apply camel_words; [|done]. by apply negb_true_iff, bool_decide_eq_false in Hn.
Qed.

Lemma parse_agrees s t : assoc s spec_types = Some t -> @parse_str_type C s = Some t.
Proof.
  unfold spec_types. cbn [assoc].
  repeat match goal with |- context [String.eqb s ?k] => destruct (String.eqb_spec s k) as [->|]; [intros [= <-]; apply L|] end. done.
Qed.

Lemma from_meta_agrees out m : meta_ok m = true -> @from_meta C out m = @from_meta ref_crates out m.
Proof.
  unfold meta_ok, from_meta. destruct (m_rest m) as [|[s|n|b|]|]; try done. destruct (is_ident (m_path m) "build_type"); [|done].
  cbn [negb orb]. destruct (assoc s spec_types) as [t|] eqn:E; [|done]. intros _. rewrite (parse_agrees s t E).
  cbn [parse_str_type ref_crates]. by rewrite E.
Qed.

Lemma from_attr_agrees a : attr_ok a = true -> @FieldNodeAttr_from_attr C a = @FieldNodeAttr_from_attr ref_crates a.
Proof.
  unfold attr_ok, FieldNodeAttr_from_attr. destruct (is_ident (a_path a) "node"); [|done]. destruct (a_args a) as [ms|]; [|done].
  cbn [mbind option_bind]. generalize (Some FieldNodeAttr_default). induction ms as [|m ms IH]; intros out Hms; [done|].
  cbn [forallb] in Hms. apply andb_true_iff in Hms as [Hm Hms]. cbn [foldl]. rewrite IH by done. f_equal.
  destruct out as [out|]; [|done]. cbn [mbind option_bind]. by apply from_meta_agrees.
Qed.

Lemma parse_attrs_agrees attrs : forall out, forallb attr_ok attrs = true ->
  @NodeField_parse_attrs C out attrs = @NodeField_parse_attrs ref_crates out attrs.
Proof.
  induction attrs as [|a attrs IH]; intros out Ha; [done|]. cbn [forallb] in Ha. apply andb_true_iff in Ha as [Ha Hr].
  cbn [NodeField_parse_attrs]. rewrite from_attr_agrees by done. destruct (FieldNodeAttr_from_attr a); [by apply IH|].
  destruct (is_doc_attr a); [by apply IH|done].
Qed.

Lemma obind_cong {A B} (m : outcome A) (k k' : A -> outcome B) : (forall a, k a = k' a) -> obind m k = obind m k'.
Proof. intros E. destruct m; [apply E|done..]. Qed.

Lemma mapM_agrees {A B} (f g : A -> outcome B) l : Forall (fun a => f a = g a) l -> mapM_outcome f l = mapM_outcome g l.
Proof. induction 1 as [|a l E _ IH]; [done|]. cbn [mapM_outcome]. by rewrite E, IH. Qed.

Lemma node_parse_agrees s d : struct_ok s = true -> @Node_parse _ C s d = @Node_parse _ ref_crates s d.
Proof.
  intros Hs. apply andb_true_iff in Hs as [Hn Hf]. unfold Node_parse. rewrite shouty_agrees by done.
  do 2 (apply obind_cong; intros ?). destruct (s_fields s) as [fs| |]; try done. f_equal. apply mapM_agrees.
  apply Forall_forall. intros f Hin. unfold NodeField_parse. destruct (f_ident f); [|done]. apply obind_cong. intros ty.
  apply parse_attrs_agrees. rewrite forallb_forall in Hf. by apply Hf, list_elem_of_In.
Qed.

Lemma parse_items_agrees items : forall g, forallb item_ok items = true ->
  @NodeGroup_parse_items _ C g items = @NodeGroup_parse_items _ ref_crates g items.
Proof.
  induction items as [|i items IH]; intros g Hi; [done|]. cbn [forallb] in Hi. apply andb_true_iff in Hi as [Hi Hr].
  cbn [NodeGroup_parse_items]. unfold item_ok in Hi. destruct (get_node_struct i) as [st|].
  - rewrite node_parse_agrees by done. apply obind_cong. intros n. by apply IH.
  - destruct (has_build_attr i); by apply IH.
Qed.

Lemma parse_spec_agrees items : forallb module_ok items = true -> @parse_spec _ C items = @parse_spec _ ref_crates items.
Proof.
  intros Hi. apply mapM_agrees, Forall_forall. intros i Hin%list_elem_of_In. rewrite forallb_forall in Hi. specialize (Hi i Hin).
  destruct i as [| | |ident [items'|]|]; try done. apply andb_true_iff in Hi as [_ Hi]. cbn in Hi. by apply parse_items_agrees.
Qed.

(** The groups keep the names of their modules. *)
Lemma parse_items_type items : forall g g', @NodeGroup_parse_items _ ref_crates g items = Ret g' -> ng_device_type g' = ng_device_type g.
Proof.
  induction items as [|i items IH]; intros g g' E; [by injection E as <-|]. cbn [NodeGroup_parse_items] in E.
  destruct (get_node_struct i) as [st|].
  - apply obind_Ret_inv in E as (n & _ & E). by apply IH in E.
  - destruct (has_build_attr i); by apply IH in E.
Qed.

Lemma mapM_Forall {A B} (f : A -> outcome B) (Q : B -> Prop) l bs :
  Forall (fun a => forall b, f a = Ret b -> Q b) l -> mapM_outcome f l = Ret bs -> Forall Q bs.
Proof.
  intros Hl. revert bs. induction Hl as [|a l Ha _ IH]; intros bs E; [by injection E as <-|]. cbn [mapM_outcome] in E.
  apply obind_Ret_inv in E as (b & Eb & E). apply obind_Ret_inv in E as (bs' & Ebs & [= <-]). constructor; [by apply Ha|by apply IH].
Qed.

Lemma parse_spec_names items groups : forallb module_ok items = true -> @parse_spec _ ref_crates items = Ret groups ->
  Forall (fun g => snake_name_ok (dt_ident (ng_device_type g)) = true) groups.
Proof.
  intros Hi. apply mapM_Forall, Forall_forall. intros i Hin%list_elem_of_In b E. rewrite forallb_forall in Hi. specialize (Hi i Hin).
  destruct i as [| | |ident [items'|]|]; try done. apply andb_true_iff in Hi as [Hn _]. by rewrite (parse_items_type _ _ _ E).
Qed.

Lemma flat_map_agrees {A} (f g : NodeGroup -> Node -> outcome A) groups :
  Forall (fun gr => forall n, f gr n = g gr n) groups -> flat_map_nodes f groups = flat_map_nodes g groups.
Proof.
  intros Hg. unfold flat_map_nodes. f_equal. apply mapM_agrees. eapply Forall_impl; [exact Hg|]. intros gr E.
  apply mapM_agrees, Forall_forall. intros n _. apply E.
Qed.

Lemma node_enum_agrees groups : Forall (fun g => snake_name_ok (dt_ident (ng_device_type g)) = true) groups ->
  @gen_node_enum C groups = @gen_node_enum ref_crates groups.
Proof.
  intros Hg. assert (Forall (fun g => forall n, @variant_name C g n = @variant_name ref_crates g n) groups) as Hv.
  { eapply Forall_impl; [exact Hg|]. intros g Hn n. unfold variant_name, camel_name. by rewrite camel_agrees. }
  unfold gen_node_enum. rewrite (flat_map_agrees (@gen_variant C) (@gen_variant ref_crates)).
  - rewrite (flat_map_agrees (@gen_arm C) (@gen_arm ref_crates)); [done|]. eapply Forall_impl; [exact Hv|]. intros g E n. unfold gen_arm. by rewrite E.
  - eapply Forall_impl; [exact Hv|]. intros g E n. unfold gen_variant. by rewrite E.
Qed.

(** The generator's result does not depend on which crates keep the laws. *)
Lemma gen_code_agrees items : forallb module_ok items = true -> @gen_code _ C items = @gen_code _ ref_crates items.
Proof.
  intros Hi. unfold gen_code. rewrite parse_spec_agrees by done. destruct (parse_spec items) as [groups| | |] eqn:E; try done.
  cbn [obind]. apply obind_cong. intros raw. unfold gen_uefi_code. by rewrite node_enum_agrees by (by eapply parse_spec_names).
Qed.
End agree.

(** ** The code does what the builder it amounts to does *)

Section steps.
Context `{Profile} (self : struct_value).

(** The slices a step copies end below the largest address. *)
Definition step_fits (s : build_step) : Prop :=
  match s with Copy off nms => 0 <= off /\ off + zlen (slices_bytes self nms) < 2 ^ 64 | _ => True end.

Lemma eval_sizes_names ts : forall nms size, term_names ts = Some nms ->
  eval_sizes (env_of self) size ts = add_slice_sizes self size nms.
Proof.
  unfold term_names. induction ts as [|t ts IH]; intros nms size E; [by injection E as <-|].
  apply mapM_Some in E. apply Forall2_cons_inv_l in E as (nm & nms' & Et & Ets & ->). apply mapM_Some in Ets.
  destruct t as [f|m]; [|done]. injection Et as <-. cbn [eval_sizes eval_size obind add_slice_sizes].
  apply obind_cong. intros size'. by apply IH.
Qed.

Lemma copy_one out off f : exec_stmt (env_of self) (out, 0) (CopySlice f (OutAt off) (SizeOfVal f)) =
  let! out := write_raw out off (slice_bytes self f) in Ret (out, 0).
Proof.
  cbn [exec_stmt eval_size obind]. change (env_slice (env_of self) f) with (slice_bytes self f).
  rewrite read_raw_ok by (pose proof (zlen_nonneg (slice_bytes self f)); lia). cbn [obind]. change (Z.to_nat 0) with 0%nat.
  by rewrite drop_0, take_ge by (unfold zlen; lia).
Qed.

Lemma copy_group out off group f : 0 <= off -> 0 <= group -> off + group < 2 ^ 64 ->
  exec_stmt (env_of self) (out, group) (CopySlice f (OutGroup off) (SizeOfVal f)) =
  let! out := write_raw out (off + group) (slice_bytes self f) in Ret (out, group).
Proof.
  intros. cbn [exec_stmt eval_size obind]. change (env_slice (env_of self) f) with (slice_bytes self f).
  rewrite usize_add_ok by lia. cbn [obind].
  rewrite read_raw_ok by (pose proof (zlen_nonneg (slice_bytes self f)); lia). cbn [obind]. change (Z.to_nat 0) with 0%nat.
  by rewrite drop_0, take_ge by (unfold zlen; lia).
Qed.

Lemma group_names_cons off ss f nms : group_names off ss = Some (f :: nms) ->
  (ss = [CopySlice f (OutGroup off) (SizeOfVal f)] /\ nms = []) \/
  exists ss', ss = CopySlice f (OutGroup off) (SizeOfVal f) :: AddGroupOffset f :: ss' /\ group_names off ss' = Some nms.
Proof.
  destruct ss as [|s1 ss]; [done|]. destruct s1 as [| |f1 [|o1] [g1|]| | |]; try by destruct ss as [|[] ?].
  destruct ss as [|s2 ss].
  - cbn [group_names]. destruct ((o1 =? off) && String.eqb f1 g1) eqn:Eb; [|done]. apply andb_true_iff in Eb as [->%Z.eqb_eq ->%String.eqb_eq].
    intros [= -> <-]. by left.
  - destruct s2 as [|h| | | |]; try done. cbn [group_names]. destruct (_ && _) eqn:Eb; [|done].
    apply andb_true_iff in Eb as [[->%Z.eqb_eq ->%String.eqb_eq]%andb_true_iff <-%String.eqb_eq].
    destruct (group_names off ss) as [nms'|] eqn:E; [|done]. intros [= -> ->]. right. eauto.
Qed.

Lemma group_exec off nms : forall ss out group, group_names off ss = Some nms -> 0 <= off -> 0 <= group ->
  off + group + zlen (slices_bytes self nms) < 2 ^ 64 ->
  exec_stmts (env_of self) (out, group) ss = copy_slices self out (off + group) nms.
Proof.
  induction nms as [|f nms IH]; intros ss out group E Ho Hg Hz.
  { destruct ss as [|[| |? [|] []| | |] [|[] ?]]; try done; cbn [group_names] in E; destruct (_ && _); try done.
    all: by destruct (group_names off _). }
  unfold slices_bytes in *. cbn [map concat] in Hz. rewrite zlen_app in Hz.
  pose proof (zlen_nonneg (slice_bytes self f)). pose proof (zlen_nonneg (concat (map (slice_bytes self) nms))).
  apply group_names_cons in E as [[-> ->]|(ss' & -> & E)]; cbn [exec_stmts copy_slices]; rewrite copy_group by lia; rewrite obind_assoc.
  - by apply obind_cong.
  - apply obind_cong. intros out'. cbn [obind exec_stmt]. change (env_slice (env_of self) f) with (slice_bytes self f).
    rewrite usize_add_ok by lia. cbn [obind]. rewrite (IH ss' out' (group + zlen (slice_bytes self f)) E) by lia.
    unfold size_of_val. f_equal. lia.
Qed.

Lemma eval_val_name v nm : val_name v = Some nm ->
  eval_val (env_of self) v = match self_field self nm with Some (BVal v) => Some v | _ => None end.
Proof. destruct v as [f|m]; cbn; [by intros [= ->]|]. by intros ->. Qed.

Lemma steps_exec ss : forall steps out, steps_of ss = Some steps -> Forall step_fits steps ->
  exec_stmts (env_of self) (out, 0) ss = exec_steps self out steps.
Proof.
  induction ss as [|s ss IH]; intros steps out E Hf; [by injection E as <-|].
  destruct s as [|f|f [off|off] [g|m]|m off|off ty|off ty v]; try done; try by destruct ss.
  - cbn [steps_of] in E. destruct ss; [|done]. destruct (String.eqb_spec f g) as [<-|]; [|done]. injection E as <-.
    cbn [exec_stmts exec_steps exec_step copy_slices]. rewrite copy_one, !obind_assoc. by apply obind_cong.
  - cbn [steps_of] in E. destruct (group_names off _) as [nms|] eqn:Eg; [|done]. injection E as <-.
    apply Forall_cons in Hf as [[Ho Hz] _]. rewrite (group_exec off nms) by (done || lia). cbn [exec_steps exec_step].
    rewrite Z.add_0_r. by destruct (copy_slices _ _ _ _).
  - cbn [steps_of] in E. destruct (type_layout ty) as [t|] eqn:Et; [|done]. destruct (steps_of ss) as [r|]; [|done]. injection E as <-.
    apply Forall_cons in Hf as [_ Hf]. cbn [exec_stmts exec_stmt exec_steps exec_step]. rewrite Et, obind_assoc.
    apply obind_cong. intros out'. cbn [obind]. by apply IH.
  - cbn [steps_of] in E. destruct (type_layout ty) as [t|] eqn:Et; [|done]. destruct (val_name v) as [nm|] eqn:Ev; [|done].
    destruct (steps_of ss) as [r|]; [|done]. injection E as <-. apply Forall_cons in Hf as [_ Hf].
    cbn [exec_stmts exec_stmt exec_steps exec_step]. rewrite Et, (eval_val_name v nm Ev).
    destruct (self_field self nm) as [[x|]|]; try done. rewrite obind_assoc. apply obind_cong. intros out'. cbn [obind]. by apply IH.
Qed.

Lemma layout_fits b ss : forall off fs, layout_ok b off fs ss = true -> 0 <= off -> off + fields_size fs = b_size b ->
  built_size b self < 2 ^ 64 -> Forall step_fits ss.
Proof.
  induction ss as [|st ss IH]; intros off fs Hl Ho Hs Hb; [constructor|].
  destruct st as [o ty|o nm ty|o nms]; destruct fs as [|[nm' ty'] fs]; cbn [layout_ok] in Hl; try done; try by destruct ss.
  - z_bools. match goal with E : bool_decide (ty = ty') = true |- _ => apply bool_decide_eq_true in E as <- end.
    cbn [fields_size] in Hs. constructor; [done|]. eapply IH; [eassumption|lia|lia|done].
  - z_bools. match goal with E : bool_decide (ty = ty') = true |- _ => apply bool_decide_eq_true in E as <- end.
    cbn [fields_size] in Hs. constructor; [done|]. eapply IH; [eassumption|lia|lia|done].
  - destruct ss; [|done]. z_bools. match goal with E : bool_decide _ = true |- _ => apply bool_decide_eq_true in E as -> end.
    constructor; [|done]. cbn [fields_size] in Hs. unfold built_size in Hb. split; lia.
Qed.

(** The generated methods are those of the builder. *)
Lemma code_agrees s b fs bi : builder_of_code fs bi = Some b -> matches s b = true -> built_size b self < 2 ^ 64 ->
  code_size_in_bytes (env_of self) bi = node_size_in_bytes b self /\
  forall out, code_write_data (env_of self) bi out = node_write_data b self out.
Proof.
  unfold builder_of_code. intros E Hm Hb. destruct (assoc (bi_device_type bi) device_types) as [dt|] eqn:Edt; [|done].
  destruct (assoc (bi_sub_type bi) device_sub_types) as [st|] eqn:Est; [|done].
  destruct (term_names _) as [nms|] eqn:Et; [|done]. destruct (body_steps _) as [steps|] eqn:Eb; [|done]. cbn in E.
  destruct (matches_inv s b Hm) as (Hsz & Hlay & _). injection E as <-. cbn [b_size b_steps b_slices] in *.
  assert (code_size_in_bytes (env_of self) bi = node_size_in_bytes
    {| b_fields := fs; b_type := dt; b_sub := st; b_size := fst (bi_size bi); b_slices := nms; b_steps := steps |} self) as Esz.
  { unfold code_size_in_bytes, node_size_in_bytes. cbn [b_size b_slices]. by rewrite (eval_sizes_names _ nms). }
  split; [done|]. intros out. unfold code_write_data, node_write_data. rewrite Esz. apply obind_cong. intros [size|]; [|done].
  apply obind_cong. intros _. rewrite Edt, Est. apply obind_cong. intros out'. cbn [b_steps].
  assert (Forall step_fits steps) as Hf.
  { eapply (layout_fits _ _ size_of_header (fields s)); [exact Hlay|by vm_compute|by rewrite Hsz|done]. }
  unfold body_steps in Eb. destruct (bi_stmts bi) as [|s0 ss]; [by apply steps_exec|]. destruct s0; try by apply steps_exec.
  cbn [exec_stmts exec_stmt obind]. by apply steps_exec.
Qed.
End steps.

(** ** The checked-in code *)

Section current.
Context `{Profile}.

(** The methods of [build::messaging::RestService]: the two custom ones come with [spec.rs]. *)
Definition RestService_env (rs : RestService) : build_env :=
  {| e_field f := if String.eqb f "service_type" then Some (BVal (VInt (service_type rs)))
                  else if String.eqb f "access_mode" then Some (BVal (VInt (access_mode rs))) else None;
     e_val _ := None;
     e_size m := if String.eqb m "build_size_vendor_guid_and_data" then build_size_vendor_guid_and_data rs else Undefined;
     e_out m := if String.eqb m "build_vendor_guid_and_data" then build_vendor_guid_and_data rs else fun _ => Undefined |}.

Definition generated : uefi_code :=
  match gen_code (C := ref_crates) spec with Ret (_, u) => u | _ => mkUefiCode [] ([], []) [] end.

Lemma generated_eq : gen_code (C := ref_crates) spec = Ret (raw_modules, generated).
Proof. vm_compute. reflexivity. Qed.

Lemma generated_arms : arms_of_code generated = Some node_enum_arms.
Proof. vm_compute. reflexivity. Qed.

Lemma generated_builders : Forall (fun e => exists bs bi, builder_of_variant generated (fst e) = Some (bs, bi) /\
  (fst e <> "MediaHardDrive" -> builder_fields bs = Some (b_fields (snd (snd e)))) /\
  builder_of_code (b_fields (snd (snd e))) bi = Some (snd (snd e))) build_table.
Proof. unfold build_table. repeat (constructor; [do 2 eexists; split; [vm_compute; reflexivity|split; [intros ?; try done; vm_compute; reflexivity|vm_compute; reflexivity]]|]). constructor. Qed.

Lemma generated_rest_service : exists bs bi, builder_of_variant generated "MessagingRestService" = Some (bs, bi) /\
  forall rs, code_size_in_bytes (RestService_env rs) bi = RestService_size_in_bytes rs /\
  forall out, code_write_data (RestService_env rs) bi out = RestService_write_data rs out.
Proof.
  do 2 eexists. split; [vm_compute; reflexivity|]. intros rs.
  match goal with |- code_size_in_bytes _ ?bi = _ /\ _ => set (b := bi) end.
  assert (code_size_in_bytes (RestService_env rs) b = RestService_size_in_bytes rs) as Es.
  { unfold code_size_in_bytes, RestService_size_in_bytes. change (bi_size b) with (6, [SizeCall "build_size_vendor_guid_and_data"]).
    cbn [fst snd eval_sizes eval_size]. rewrite obind_assoc. apply obind_cong. intros n. by destruct (usize_add 6 n). }
  split; [done|]. intros out. unfold code_write_data, RestService_write_data. rewrite Es. apply obind_cong. intros [size|]; [|done].
  apply obind_cong. intros _. change (assoc (bi_device_type b) device_types) with (Some DeviceType_MESSAGING).
  change (assoc (bi_sub_type b) device_sub_types) with (Some DeviceSubType_MESSAGING_REST_SERVICE). apply obind_cong. intros out1.
  unfold b. cbn [bi_stmts exec_stmts].
  change (exec_stmt (RestService_env rs) (out1, 0) (WriteVal 4 _ _)) with (let! o := write_raw out1 4 (enc_val U8 (VInt (service_type rs))) in Ret (o, 0)).
  rewrite obind_assoc. apply obind_cong. intros out2. cbn [obind].
  change (exec_stmt (RestService_env rs) (out2, 0) (WriteVal 5 _ _)) with (let! o := write_raw out2 5 (enc_val U8 (VInt (access_mode rs))) in Ret (o, 0)).
  rewrite obind_assoc. apply obind_cong. intros out3. cbn [obind exec_stmt]. rewrite obind_assoc. apply obind_cong. intros rest.
  rewrite obind_assoc. by apply obind_cong.
Qed.
End current.


(** *** Crates that keep the laws *)

Lemma concat_cons sep w v ws : String.concat sep (w :: v :: ws) = w +:+ sep +:+ String.concat sep (v :: ws).
Proof. done. Qed.

Lemma split_camel_head d s : exists v ws, split_camel (String d s) = String d v :: ws.
Proof. cbn [split_camel]. destruct (split_camel s) as [|[|e v] ws]; eauto. destruct (is_uppercase e); eauto. Qed.

Lemma lower_not_upper c : is_lower_or_digit c = true -> is_uppercase c = false.
Proof.
  unfold is_lower_or_digit, is_uppercase. intros [[Hc _]%andb_true_iff|[_ Hc]%andb_true_iff]%orb_true_iff;
    apply Nat.leb_le in Hc; apply andb_false_iff; rewrite !Nat.leb_gt; lia.
Qed.

Lemma split_camel_next c d s v ws : split_camel (String d s) = String d v :: ws ->
  split_camel (String c (String d s)) = if is_uppercase d then String c "" :: String d v :: ws else String c (String d v) :: ws.
Proof.
  intros E. change (split_camel (String c (String d s))) with (match split_camel (String d s) with
    | String d w :: ws => if is_uppercase d then String c "" :: String d w :: ws else String c (String d w) :: ws
    | ws => String c "" :: ws end). by rewrite E.
Qed.

Lemma split_camel_word w s c : string_forallb is_lower_or_digit w = true ->
  (s = "" \/ exists d s', s = String d s' /\ is_uppercase d = true) ->
  split_camel (String c (w +:+ s)) = String c w :: split_camel s.
Proof.
  revert c. induction w as [|d w IH]; intros c Hw Hs.
  - destruct Hs as [->|(d & s' & -> & Hd)]; [done|]. destruct (split_camel_head d s') as (v & ws & E).
    change (split_camel (String c (String d s')) = String c "" :: split_camel (String d s')). by rewrite (split_camel_next c d s' v ws E), Hd, E.
  - cbn [string_forallb] in Hw. apply andb_true_iff in Hw as [Hd Hw].
    change (split_camel (String c (String d (w +:+ s))) = String c (String d w) :: split_camel s).
    rewrite (split_camel_next c d (w +:+ s) w (split_camel s)) by by apply IH. by rewrite (lower_not_upper d Hd).
Qed.

Lemma append_nil w : w +:+ "" = w.
Proof. induction w as [|d w IH]; [done|]. change (String d (w +:+ "") = String d w). by rewrite IH. Qed.

Lemma split_camel_concat ws : forallb camel_word ws = true -> split_camel (String.concat "" ws) = ws.
Proof.
  induction ws as [|w ws IH]; [done|]. cbn [forallb]. intros [Hw Hws]%andb_true_iff. destruct w as [|c w]; [done|].
  apply andb_true_iff in Hw as [Hc Hw]. replace (String.concat "" (String c w :: ws)) with (String c (w +:+ String.concat "" ws)).
  - rewrite split_camel_word; [by rewrite IH|done|]. destruct ws as [|[|d v] ws]; [by left|done|]. right.
    apply andb_true_iff in Hws as [[Hd _]%andb_true_iff _]. exists d. destruct ws; cbn; eauto.
  - destruct ws; [|done]. change (String c (w +:+ "") = String c w). by rewrite append_nil.
Qed.

Lemma split_snake_char c s : is_lower_or_digit c = true ->
  split_snake (String c s) = match split_snake s with w :: ws => String c w :: ws | [] => [String c ""] end.
Proof.
  intros Hc. cbn [split_snake]. replace (Ascii.nat_of_ascii c =? 95)%nat with false; [done|]. symmetry. apply Nat.eqb_neq.
  unfold is_lower_or_digit in Hc. intros E. by rewrite E in Hc.
Qed.

Lemma split_snake_word w s : string_forallb is_lower_or_digit w = true -> split_snake (w +:+ "_" +:+ s) = w :: split_snake s.
Proof.
  induction w as [|c w IH]; [done|]. cbn [string_forallb]. intros [Hc Hw]%andb_true_iff.
  change (split_snake (String c (w +:+ "_" +:+ s)) = String c w :: split_snake s). by rewrite split_snake_char, IH.
Qed.

Lemma split_snake_last w : string_forallb is_lower_or_digit w = true -> split_snake w = [w].
Proof.
  induction w as [|c w IH]; [done|]. cbn [string_forallb]. intros [Hc Hw]%andb_true_iff. by rewrite split_snake_char, IH.
Qed.

Lemma split_snake_concat ws : ws <> [] -> forallb snake_word ws = true -> split_snake (String.concat "_" ws) = ws.
Proof.
  induction ws as [|w ws IH]; [done|]. intros _. cbn [forallb]. intros [Hw Hws]%andb_true_iff.
  assert (string_forallb is_lower_or_digit w = true) as Hl by (destruct w; [done|]; by apply andb_true_iff in Hw as [_ ?]).
  destruct ws as [|v ws]; [by apply split_snake_last|]. by rewrite concat_cons, split_snake_word, IH.
Qed.

#[export] Instance ref_crates_laws : CrateLaws ref_crates.
Proof.
  split; try done.
  - intros ws _ Hws. cbn [to_shouty_snake_case ref_crates]. by rewrite split_camel_concat.
  - intros ws Hne Hws. cbn [to_upper_camel_case ref_crates]. by rewrite split_snake_concat.
Qed.

