(* ===== verification/NodeGenRoundtrip.v ===== *)
(** * Generated builders and conversions are inverse

    For a node struct of any specification: when [Node::parse] accepts it and it is plain
    (its slices come last, nothing is written by hand), the build node that is generated
    for it writes what the conversion that is generated for it reads. *)
From stdpp Require Import strings.
From S2P Require Import Prelude DevicePath DevicePathNodes DevicePathBuild DevicePathBuildNodes NodeGen NodeSpec NodeGenSem NodeGenCorrect.
#[local] Open Scope string_scope.
#[local] Open Scope Z_scope.
#[local] Open Scope list_scope.

(** ** Plain nodes *)

(** The layout of a field, of the elements if it is a slice. *)
Definition field_layout (f : NodeField) : option fty :=
  match packed_ty f with
  | PSlice b => type_layout (BaseType_to_tokens b)
  | t => type_layout (PackedType_to_tokens t)
  end.

(** The build struct has the field with the type it has in the node, and its code is not
    replaced; a hidden field is a number. *)
Definition plain_field (f : NodeField) : bool :=
  match field_layout f with
  | Some t =>
      bool_decide (field_build_type f ≫= build_type_layout = Some (if is_slice f then Slice t else Val t)) &&
      (negb (is_hidden f) || negb (is_slice f) && is_scalar_ty t)
  | None => false
  end && negb (custom_build_impl (nf_attr f)) && negb (custom_build_size_impl (nf_attr f)).

Fixpoint slices_last (fs : list NodeField) : bool :=
  match fs with
  | [] => true
  | f :: fs => if is_slice f then forallb is_slice fs else slices_last fs
  end.

(** A group of slices is a group of byte slices. *)
Definition plain (n : Node) : bool :=
  forallb plain_field (n_fields n) && slices_last (n_fields n) &&
  bool_decide (NoDup (map nf_name (n_fields n))) &&
  (negb (has_dst_group n) || forallb (fun f => negb (is_slice f) || bool_decide (field_layout f = Some U8)) (n_fields n)) &&
  match assoc (upper_name (n_device_type n)) device_types, assoc (n_sub_type n) device_sub_types with
  | Some _, Some _ => true
  | _, _ => false
  end.

(** ** What parsing ensures *)

Definition base_ok (b : BaseType) : Prop := assoc (path_str (bt_path b)) base_type_sizes = Some (bt_size_in_bytes b).
Definition packed_ok (t : PackedType) : Prop :=
  match t with PBase b | PSlice b => base_ok b | PArray b len => base_ok b /\ in_width 64 len end.

Lemma base_type_new_ok ty b : BaseType_new ty = Ret b -> base_ok b.
Proof.
  destruct ty as [p| | | |]; try done. cbn [BaseType_new]. destruct (assoc (path_str p) base_type_sizes) as [z|] eqn:E; [|done].
  by intros [= <-].
Qed.

Lemma packed_type_new_ok ty t : PackedType_new ty = Ret t -> packed_ok t.
Proof.
  destruct ty as [p|e|e [n|]|lt e|tok]; cbn [PackedType_new]; try done.
  - intros (b & E & [= <-])%obind_Ret_inv. by eapply base_type_new_ok.
  - intros (b & E & [= <-])%obind_Ret_inv. by eapply base_type_new_ok.
  - unfold base10_parse_usize. destruct (bool_decide_reflect (in_width 64 n)); [|done].
    intros (b & E & [= <-])%obind_Ret_inv. split; [by eapply base_type_new_ok|done].
Qed.

(** The table of sizes is right for every type that exists. *)
Lemma base_size b t : base_ok b -> type_layout (BaseType_to_tokens b) = Some t ->
  bt_size_in_bytes b = Z.of_nat (size_of_ty t) /\ (0 < size_of_ty t)%nat.
Proof.
  unfold base_ok. cbn [type_layout BaseType_to_tokens]. generalize (path_str (bt_path b)) as p. intros p. unfold base_type_sizes. cbn [assoc].
  repeat match goal with |- context [String.eqb p ?k] => destruct (String.eqb_spec p k) as [->|?]; [cbn; intros [= <-] Et; first [discriminate|injection Et as <-; split; [done|cbn; lia]]|] end.
  done.
Qed.

Section parse.
Context `{Profile} {C : Crates}.

Lemma parse_field_attrs_ty attrs : forall out f, NodeField_parse_attrs out attrs = Ret f -> packed_ty f = packed_ty out.
Proof.
  induction attrs as [|a attrs IH]; intros out f E; [by injection E as <-|]. cbn [NodeField_parse_attrs] in E.
  destruct (FieldNodeAttr_from_attr a); [by apply IH in E|]. destruct (is_doc_attr a); [by apply IH in E|done].
Qed.

Lemma parse_field_ok fld f : NodeField_parse fld = Ret f -> packed_ok (packed_ty f).
Proof.
  unfold NodeField_parse. destruct (f_ident fld) as [nm|]; [|done]. intros (ty & Et & E)%obind_Ret_inv.
  rewrite (parse_field_attrs_ty _ _ _ E). by apply packed_type_new_ok in Et.
Qed.

Lemma node_parse_ok item d n : Node_parse item d = Ret n ->
  Forall (fun f => packed_ok (packed_ty f)) (n_fields n) /\ sum_field_sizes 4 (n_fields n) = Ret (static_size n) /\ in_width 16 (static_size n).
Proof.
  unfold Node_parse. intros (st & _ & E)%obind_Ret_inv. apply obind_Ret_inv in E as (out & _ & E).
  apply obind_Ret_inv in E as (fs & Ef & E). apply obind_Ret_inv in E as (size & Es & E). apply obind_Ret_inv in E as (? & Ea & [= <-]).
  unfold calculate_static_size in Es. apply obind_Ret_inv in Es as (size' & Es & Ew). apply obind_Ret_inv in Ew as (? & Ew & [= <-]).
  cbn [n_fields static_size] in *. unfold assert_ in Ea, Ew. destruct (Z.eqb_spec size' (static_size out)) as [<-|]; [|done].
  destruct (bool_decide_reflect (in_width 16 size')); [|done]. split; [|done].
  destruct (s_fields item) as [named| |]; [|injection Ef as <-; constructor..].
  eapply mapM_Forall; [|exact Ef]. apply Forall_forall. intros fld _ f E. by eapply parse_field_ok.
Qed.
End parse.

(** ** Fields with a layout *)

(** A field of a plain node with its layout. *)
Record laid_out (f : NodeField) (t : fty) : Prop := {
  lo_packed : packed_ok (packed_ty f);
  lo_layout : field_layout f = Some t;
  lo_build : field_build_type f ≫= build_type_layout = Some (if is_slice f then Slice t else Val t);
  lo_hidden : is_hidden f = true -> is_slice f = false /\ is_scalar_ty t = true;
  lo_impl : custom_build_impl (nf_attr f) = false;
  lo_size : custom_build_size_impl (nf_attr f) = false;
}.

Lemma plain_field_laid_out f : packed_ok (packed_ty f) -> plain_field f = true -> exists t, laid_out f t.
Proof.
  unfold plain_field. intros Hp [[Hf Hc%negb_true_iff]%andb_true_iff Hs%negb_true_iff]%andb_true_iff.
  destruct (field_layout f) as [t|] eqn:El; [|done]. apply andb_true_iff in Hf as [Hb%bool_decide_eq_true Hh]. exists t.
  split; try done. intros Hid. rewrite Hid in Hh. cbn in Hh. apply andb_true_iff in Hh as [Hsl Hsc]. by apply negb_true_iff in Hsl.
Qed.

Lemma laid_out_size `{Profile} f t : laid_out f t -> is_slice f = false ->
  PackedType_size_in_bytes (packed_ty f) = Ret (Some (Z.of_nat (size_of_ty t))).
Proof.
  intros [Hp Hl _ _ _ _] Hs. unfold field_layout, is_slice, slice_elem_ty in *. destruct (packed_ty f) as [b|b len|b]; [| |done].
  - cbn [PackedType_size_in_bytes PackedType_to_tokens] in *. by destruct (base_size b t Hp Hl) as [-> _].
  - destruct Hp as [Hb Hw]. cbn [PackedType_size_in_bytes PackedType_to_tokens BaseType_to_tokens type_layout] in *.
    destruct (String.eqb_spec (path_str (bt_path b)) "u8") as [E|]; [|done]. injection Hl as <-. unfold base_ok in Hb. rewrite E in Hb.
    cbn in Hb. injection Hb as <-. unfold in_width in Hw. rewrite usize_mul_ok by lia. cbn [obind size_of_ty]. do 2 f_equal. lia.
Qed.

Lemma laid_out_elem f t b : laid_out f t -> packed_ty f = PSlice b ->
  type_layout (BaseType_to_tokens b) = Some t /\ (0 < size_of_ty t)%nat.
Proof.
  intros [Hp Hl _ _ _ _] E. unfold field_layout in Hl. rewrite E in Hl, Hp. split; [done|]. by apply (base_size b t).
Qed.

(** ** The fields and then the slices *)

Abbreviation lfield := (NodeField * fty)%type.
Definition val_ok_field (x : lfield) : Prop := laid_out (fst x) (snd x) /\ is_slice (fst x) = false.
Definition slice_ok_field (x : lfield) : Prop := laid_out (fst x) (snd x) /\ is_slice (fst x) = true.
Definition vfield (x : lfield) : string * fty := (nf_name (fst x), snd x).
Definition lname (x : lfield) : string := nf_name (fst x).

Lemma plain_split fs : Forall (fun f => packed_ok (packed_ty f)) fs -> forallb plain_field fs = true -> slices_last fs = true ->
  exists vals slices : list lfield, fs = map fst (vals ++ slices) /\ Forall val_ok_field vals /\ Forall slice_ok_field slices.
Proof.
  induction fs as [|f fs IH]; intros Hp Hf Hs; [exists [], []; done|]. apply Forall_cons in Hp as [Hp1 Hp]. cbn [forallb] in Hf.
  apply andb_true_iff in Hf as [Hf1 Hf]. destruct (plain_field_laid_out f Hp1 Hf1) as [t Ht]. cbn [slices_last] in Hs.
  destruct (is_slice f) eqn:Es.
  - assert (exists slices : list lfield, fs = map fst slices /\ Forall slice_ok_field slices) as (slices & -> & Hsl).
    { clear -Hp Hf Hs. induction fs as [|g fs IH]; [by exists []|]. cbn [forallb] in Hf, Hs. apply andb_true_iff in Hf as [Hg Hf], Hs as [Hgs Hs].
      apply Forall_cons in Hp as [Hpg Hp]. destruct IH as (slices & -> & Hsl); [done..|]. destruct (plain_field_laid_out g Hpg Hg) as [t Ht].
      exists ((g, t) :: slices). split; [done|]. by constructor. }
    exists [], ((f, t) :: slices). split; [done|]. split; [done|]. by constructor.
  - destruct IH as (vals & slices & -> & Hv & Hsl); [done..|]. exists ((f, t) :: vals), slices. split; [done|]. split; [by constructor|done].
Qed.

(** The statements and the steps for the fields, from an offset on. *)
Definition val_stmt (off : Z) (x : lfield) : stmt :=
  let ty := PackedType_to_tokens (packed_ty (fst x)) in
  if is_hidden (fst x) then WriteZeros off ty else WriteVal off ty (FieldVal (lname x)).
Definition val_step (off : Z) (x : lfield) : build_step :=
  if is_hidden (fst x) then Zero off (snd x) else Write off (lname x) (snd x).

Fixpoint with_offsets {A} (f : Z -> lfield -> A) (off : Z) (vals : list lfield) : list A :=
  match vals with
  | [] => []
  | x :: vals => f off x :: with_offsets f (off + Z.of_nat (size_of_ty (snd x))) vals
  end.

Fixpoint group_stmts (off : Z) (nms : list string) : list stmt :=
  match nms with
  | [] => []
  | [nm] => [CopySlice nm (OutGroup off) (SizeOfVal nm)]
  | nm :: nms => CopySlice nm (OutGroup off) (SizeOfVal nm) :: AddGroupOffset nm :: group_stmts off nms
  end.

Lemma fields_size_cons x vals : fields_size (map vfield (x :: vals)) = Z.of_nat (size_of_ty (snd x)) + fields_size (map vfield vals).
Proof. done. Qed.

Lemma slice_no_size `{Profile} x : slice_ok_field x -> PackedType_size_in_bytes (packed_ty (fst x)) = Ret None.
Proof. intros [_ Hs]. unfold is_slice, slice_elem_ty in Hs. by destruct (packed_ty (fst x)). Qed.

Lemma checked_add_eq a b z : checked_add a b = Some z -> z = a + b.
Proof. unfold checked_add. case_bool_decide; congruence. Qed.

Section gen.
Context `{Profile} (n : Node).

Lemma sum_sizes vals slices : Forall val_ok_field vals -> Forall slice_ok_field slices -> forall accum z,
  sum_field_sizes accum (map fst (vals ++ slices)) = Ret z -> z = accum + fields_size (map vfield vals).
Proof.
  intros Hv Hs. induction Hv as [|x vals [Hx Hxs] _ IH]; intros accum z.
  - cbn [app map fields_size]. revert accum. induction Hs as [|x slices Hx _ IH]; intros accum E; cbn [map sum_field_sizes] in E; [injection E; lia|].
    rewrite slice_no_size in E by done. cbn [obind default] in E. destruct (checked_add accum 0) as [a|] eqn:Ea; [|done].
    apply checked_add_eq in Ea. apply IH in E. lia.
  - rewrite fields_size_cons. cbn [app map sum_field_sizes]. rewrite (laid_out_size _ _ Hx Hxs). cbn [obind default].
    destruct (checked_add accum _) as [a|] eqn:Ea; [|done]. intros E%IH. apply checked_add_eq in Ea. cbn in Ea. lia.
Qed.

Lemma write_slice x ptr : slice_ok_field x -> gen_builder_write_slice (fst x) ptr = Ret (CopySlice (lname x) ptr (SizeOfVal (lname x))).
Proof. intros [Hx Hs]. unfold gen_builder_write_slice, gen_builder_dynamic_size. by rewrite Hs, (lo_size _ _ Hx). Qed.

(** The fields, then what is generated for the rest. *)
Lemma gen_copy_vals vals rest : Forall val_ok_field vals -> forall idx off, 0 <= off -> off + fields_size (map vfield vals) < 2 ^ 64 ->
  gen_copy_stmts n idx off (map fst vals ++ rest) =
  let! r := gen_copy_stmts n (idx + length vals) (off + fields_size (map vfield vals)) rest in Ret (with_offsets val_stmt off vals ++ r).
Proof.
  induction 1 as [|x vals [Hx Hs] _ IH]; intros idx off Ho Hz.
  - cbn [map app fields_size length with_offsets]. rewrite Nat.add_0_r, Z.add_0_r. by destruct (gen_copy_stmts _ _ _ _).
  - rewrite fields_size_cons in Hz |- *. pose proof (fields_size_nonneg (map vfield vals)). cbn [map app gen_copy_stmts]. rewrite Hs, (lo_impl _ _ Hx), (laid_out_size _ _ Hx Hs).
    assert (forall A (a b : A), (if is_hidden (fst x) then Ret a else Ret b) = Ret (if is_hidden (fst x) then a else b)) as Eif by (intros; by destruct (is_hidden (fst x))).
    rewrite Eif. cbn [obind]. rewrite usize_add_ok by lia. cbn [obind]. rewrite IH by lia. rewrite !obind_assoc.
    cbn [length with_offsets]. rewrite Nat.add_succ_r.
    replace (off + Z.of_nat (size_of_ty (snd x)) + fields_size (map vfield vals)) with (off + (Z.of_nat (size_of_ty (snd x)) + fields_size (map vfield vals))) by lia.
    apply obind_cong. intros r. cbn [obind app]. do 2 f_equal. unfold val_stmt. by destruct (is_hidden (fst x)).
Qed.

Lemma gen_copy_single x idx off : slice_ok_field x -> has_dst_group n = false ->
  gen_copy_stmts n idx off [fst x] = Ret [CopySlice (lname x) (OutAt off) (SizeOfVal (lname x))].
Proof.
  intros Hx Hg. cbn [gen_copy_stmts]. rewrite (proj2 Hx), Hg, (lo_impl _ _ (proj1 Hx)), write_slice by done. cbn [obind].
  by rewrite slice_no_size.
Qed.

Lemma gen_copy_group slices : Forall slice_ok_field slices -> has_dst_group n = true -> forall idx off,
  (idx + length slices)%nat = length (n_fields n) -> gen_copy_stmts n idx off (map fst slices) = Ret (group_stmts off (map lname slices)).
Proof.
  intros Hs Hg. induction Hs as [|x slices Hx _ IH]; intros idx off Hi; [done|]. cbn [map gen_copy_stmts].
  rewrite (proj2 Hx), Hg, write_slice by done. cbn [obind]. rewrite slice_no_size by done. cbn [length] in Hi.
  destruct (Nat.eqb_spec idx (length (n_fields n) - 1)) as [E|E]; cbn [obind].
  - destruct slices; [done|cbn [length] in Hi; lia].
  - rewrite IH by lia. cbn [obind]. destruct slices as [|y slices]; [cbn in Hi; lia|]. done.
Qed.
End gen.

(** ** The steps *)

Lemma val_layout x : val_ok_field x -> type_layout (PackedType_to_tokens (packed_ty (fst x))) = Some (snd x).
Proof.
  intros [Hx Hs]. pose proof (lo_layout _ _ Hx) as Hl. unfold field_layout, is_slice, slice_elem_ty in *. by destruct (packed_ty (fst x)).
Qed.

Lemma steps_of_vals vals tail : Forall val_ok_field vals -> forall off,
  steps_of (with_offsets val_stmt off vals ++ tail) = (r ← steps_of tail; Some (with_offsets val_step off vals ++ r)).
Proof.
  induction 1 as [|x vals Hx _ IH]; intros off; [cbn [with_offsets app]; by destruct (steps_of tail)|]. cbn [with_offsets app]. pose proof (val_layout x Hx) as Hl.
  unfold val_stmt, val_step. destruct (is_hidden (fst x)); cbn [steps_of val_name]; rewrite Hl, IH; by destruct (steps_of tail).
Qed.

Lemma group_stmts_cons off nm nm' nms : group_stmts off (nm :: nm' :: nms) =
  CopySlice nm (OutGroup off) (SizeOfVal nm) :: AddGroupOffset nm :: group_stmts off (nm' :: nms).
Proof. done. Qed.

Lemma group_names_stmts off nms : nms <> [] -> group_names off (group_stmts off nms) = Some nms.
Proof.
  induction nms as [|nm nms IH]; [done|]. intros _. destruct nms as [|nm' nms].
  - cbn [group_stmts group_names]. by rewrite Z.eqb_refl, String.eqb_refl.
  - rewrite group_stmts_cons. cbn [group_names]. rewrite Z.eqb_refl, String.eqb_refl. cbn [andb]. by rewrite IH.
Qed.

Lemma group_steps off nms : nms <> [] -> steps_of (group_stmts off nms) = Some [Copy off nms].
Proof.
  intros Hne. pose proof (group_names_stmts off nms Hne) as E. destruct nms as [|nm [|nm' nms]]; [done| |].
  - cbn [group_stmts] in *. cbn [steps_of]. by rewrite E.
  - rewrite group_stmts_cons in *. cbn [steps_of]. by rewrite E.
Qed.

(** ** The fields of the build struct *)

Definition bty_of (x : lfield) : bty := if is_slice (fst x) then Slice (snd x) else Val (snd x).
Definition bfields (l : list lfield) : list (string * bty) :=
  base.omap (fun x => if is_hidden (fst x) then None else Some (lname x, bty_of x)) l.

Lemma builder_fields_gen n l : n_fields n = map fst l -> Forall (fun x => laid_out (fst x) (snd x)) l ->
  builder_fields (gen_builder n) = Some (bfields l).
Proof.
  intros En Hl. assert (bs_fields (gen_builder n) = base.omap (fun f => if is_hidden f then None
    else ty ← field_build_type f; Some (nf_docs f, nf_name f, ty)) (map fst l)) as E.
  { unfold gen_builder. rewrite En. by destruct l. }
  unfold builder_fields. rewrite E. clear En E. induction Hl as [|x l Hx _ IH]; [done|]. cbn [map base.omap list_omap bfields].
  destruct (is_hidden (fst x)); [exact IH|]. pose proof (lo_build _ _ Hx) as Hb. destruct (field_build_type (fst x)) as [ty|]; [|done]. cbn in Hb.
  cbn [mbind option_bind mapM snd fst]. rewrite Hb. cbn [mbind option_bind]. cbn [base.omap] in IH. rewrite IH. done.
Qed.

Lemma bfields_declared l x : NoDup (map lname l) -> x ∈ l ->
  declared (bfields l) (lname x) = if is_hidden (fst x) then None else Some (bty_of x).
Proof.
  assert (forall l nm, nm ∉ map lname l -> declared (bfields l) nm = None) as Hn.
  { clear. intros l nm. induction l as [|y l IH]; intros Hn; [done|]. cbn [map] in Hn. apply not_elem_of_cons in Hn as [Hy Hn].
    cbn [bfields base.omap list_omap]. destruct (is_hidden (fst y)); [by apply IH|]. cbn [declared]. rewrite decide_False by done. by apply IH. }
  induction l as [|y l IH]; intros Hd Hx; [by apply not_elem_of_nil in Hx|]. cbn [map] in Hd. apply NoDup_cons in Hd as [Hy Hd].
  cbn [bfields base.omap list_omap]. apply elem_of_cons in Hx as [->|Hx].
  - destruct (is_hidden (fst y)) eqn:Eh; [by apply Hn|]. cbn [declared]. by rewrite decide_True.
  - assert (lname x <> lname y) by (intros E; apply Hy; rewrite <- E; by apply list_elem_of_fmap_2).
    destruct (is_hidden (fst y)); [by apply IH|]. cbn [declared]. rewrite decide_False by done. by apply IH.
Qed.

Lemma slice_visible x : slice_ok_field x -> is_hidden (fst x) = false.
Proof. intros [Hx Hs]. destruct (is_hidden (fst x)) eqn:E; [|done]. apply (lo_hidden _ _ Hx) in E as [E _]. congruence. Qed.

Lemma slice_names_bfields vals slices : Forall val_ok_field vals -> Forall slice_ok_field slices ->
  slice_names (bfields (vals ++ slices)) = map lname slices.
Proof.
  intros Hv Hs. induction Hv as [|x vals [_ Hx] _ IH].
  - induction Hs as [|x slices Hx _ IH]; [done|]. cbn [app bfields base.omap list_omap map]. rewrite slice_visible by done.
    unfold bty_of at 1. rewrite (proj2 Hx). cbn [slice_names]. by f_equal.
  - cbn [app bfields base.omap list_omap]. destruct (is_hidden (fst x)); [done|]. unfold bty_of at 1. rewrite Hx. done.
Qed.

(** ** Shapes *)

Lemma is_dst_gen n vals slices : n_fields n = map fst (vals ++ slices) -> Forall val_ok_field vals -> Forall slice_ok_field slices ->
  is_dst n = negb (bool_decide (slices = [])).
Proof.
  intros En Hv Hs. unfold is_dst. rewrite En. destruct slices as [|y slices] using rev_ind.
  - rewrite app_nil_r. destruct vals as [|x vals _] using rev_ind; [done|]. rewrite map_app. cbn [map]. rewrite last_snoc.
    apply Forall_app in Hv as [_ [[_ Hx] _]%Forall_cons]. exact Hx.
  - rewrite app_assoc, map_app. cbn [map]. rewrite last_snoc. apply Forall_app in Hs as [_ [[_ Hy] _]%Forall_cons]. rewrite Hy. symmetry.
    apply negb_true_iff, bool_decide_eq_false. by destruct slices.
Qed.

Lemma has_dst_group_gen n vals slices : n_fields n = map fst (vals ++ slices) -> Forall val_ok_field vals -> Forall slice_ok_field slices ->
  has_dst_group n = (1 <? length slices)%nat.
Proof.
  intros En Hv Hs. unfold has_dst_group. rewrite En. clear En. f_equal. induction Hv as [|x vals [_ Hx] _ IH]; cbn [app map].
  - induction Hs as [|y slices [_ Hy] _ IH]; [done|]. cbn [map]. rewrite filter_cons_True by done. cbn [length]. by rewrite IH.
  - rewrite filter_cons_False by (rewrite Hx; discriminate). exact IH.
Qed.

Lemma size_terms_gen vals slices : Forall val_ok_field vals -> Forall slice_ok_field slices ->
  base.omap gen_builder_dynamic_size (map fst (vals ++ slices)) = map SizeOfVal (map lname slices).
Proof.
  intros Hv Hs. induction Hv as [|x vals [Hx Hxs] _ IH]; cbn [app map base.omap list_omap].
  - induction Hs as [|y slices [Hy Hys] _ IH]; [done|]. cbn [map base.omap list_omap]. unfold gen_builder_dynamic_size at 1.
    rewrite (lo_size _ _ Hy), Hys. by f_equal.
  - unfold gen_builder_dynamic_size at 1. by rewrite (lo_size _ _ Hx), Hxs.
Qed.

Lemma term_names_map nms : term_names (map SizeOfVal nms) = Some nms.
Proof. unfold term_names. apply mapM_Some. induction nms; constructor; done. Qed.

(** ** The struct and the builder that are generated *)

Section node.
Context `{Profile} (n : Node) (vals slices : list lfield) (dt st : Z).
Hypothesis En : n_fields n = map fst (vals ++ slices).
Hypothesis Hv : Forall val_ok_field vals.
Hypothesis Hs : Forall slice_ok_field slices.
Hypothesis Hnd : NoDup (map lname (vals ++ slices)).
Hypothesis Hgroup : (1 < length slices)%nat -> Forall (fun x => snd x = U8) slices.
Hypothesis Esize : static_size n = 4 + fields_size (map vfield vals).
Hypothesis Hsize : in_width 16 (static_size n).
Hypothesis Hdt : assoc (upper_name (n_device_type n)) device_types = Some dt.
Hypothesis Hst : assoc (n_sub_type n) device_sub_types = Some st.

Definition gen_layout : node_struct :=
  mkStruct (map vfield vals)
    (match slices with [] => None | [x] => Some (vfield x) | _ => Some ("data", U8) end).

Definition gen_node_builder : node_builder :=
  {| b_fields := bfields (vals ++ slices); b_type := dt; b_sub := st; b_size := static_size n;
     b_slices := map lname slices;
     b_steps := with_offsets val_step 4 vals ++
       match slices with [] => [] | _ => [Copy (static_size n) (map lname slices)] end |}.

Lemma all_laid_out : Forall (fun x => laid_out (fst x) (snd x)) (vals ++ slices).
Proof. apply Forall_app. split; [eapply Forall_impl; [exact Hv|]|eapply Forall_impl; [exact Hs|]]; by intros x []. Qed.

Lemma const_ident_gen : const_ident (n_device_type n) = Ret (upper_name (n_device_type n)).
Proof.
  unfold const_ident, Ident_new. replace (valid_ident (upper_name (n_device_type n))) with true; [done|]. clear -Hdt. symmetry. revert Hdt.
  generalize (upper_name (n_device_type n)) as s. intros s. unfold device_types. cbn [assoc].
  repeat match goal with |- context [String.eqb s ?k] => destruct (String.eqb_spec s k) as [->|]; [done|] end. done.
Qed.

Lemma types_u8 : is_u8 dt /\ is_u8 st.
Proof.
  assert (forall k z l, Forall (fun e : string * Z => is_u8 (snd e)) l -> assoc k l = Some z -> is_u8 z) as Hall.
  { clear. intros k z l Hl. induction Hl as [|[k' z'] l Hz _ IH]; [done|]. cbn [assoc]. destruct (String.eqb k k'); [by intros [= <-]|done]. }
  split; (eapply Hall; [|eassumption]); by_decide.
Qed.

Lemma struct_layout_vals tail s : struct_layout tail = Some s ->
  struct_layout (map (fun x => (lname x, PackedType_to_tokens (packed_ty (fst x)))) vals ++ tail) =
  Some (mkStruct (map vfield vals ++ fields s) (dst s)).
Proof.
  intros Et. pose proof Hv as Hvs. clear -Et Hvs. induction Hvs as [|x vs Hx _ IH]; [by destruct s|]. cbn [map app]. pose proof (val_layout x Hx) as Hl.
  set (ty := PackedType_to_tokens (packed_ty (fst x))) in *.
  match goal with |- struct_layout (_ :: ?r) = _ => set (rest := r) in * end.
  assert (struct_layout ((lname x, ty) :: rest) = (t ← type_layout ty; s ← struct_layout rest; Some (mkStruct ((lname x, t) :: fields s) (dst s)))) as ->
    by by destruct ty, rest.
  by rewrite Hl, IH.
Qed.

Lemma struct_fields_gen : struct_fields n packed_ty =
  map (fun x => (lname x, PackedType_to_tokens (packed_ty (fst x)))) (vals ++ if (1 <? length slices)%nat then [] else slices).
Proof.
  unfold struct_fields. rewrite (has_dst_group_gen n vals slices En Hv Hs), En. destruct (1 <? length slices)%nat.
  - rewrite app_nil_r. pose proof Hv as Hvs. pose proof Hs as Hss. clear -Hvs Hss. induction Hvs as [|x vs [_ Hx] _ IH]; cbn [app map base.omap list_omap].
    + induction Hss as [|y ss [_ Hy] _ IH]; [done|]. cbn [map base.omap list_omap]. rewrite Hy. exact IH.
    + rewrite Hx. cbn [andb]. f_equal. exact IH.
  - generalize (vals ++ slices) as l. clear. induction l as [|x l IH]; [done|]. cbn [map base.omap list_omap]. rewrite andb_false_r. f_equal. exact IH.
Qed.

Lemma packed_layout_gen : packed_layout (gen_packed_struct n) = Some gen_layout.
Proof.
  change (struct_layout (struct_fields n packed_ty ++ if has_dst_group n then [("data", TSlice u8_ty)] else []) = Some gen_layout).
  rewrite (has_dst_group_gen n vals slices En Hv Hs), struct_fields_gen. unfold gen_layout. clear Hgroup Hnd En.
  destruct slices as [|y [|z ss]]; cbn [length Nat.ltb Nat.leb]; rewrite map_app, ?app_nil_r.
  - rewrite <- (app_nil_r (map _ vals)). by rewrite (struct_layout_vals [] (mkStruct [] None)), app_nil_r.
  - apply Forall_cons in Hs as [[Hy Hys] _]. unfold is_slice, slice_elem_ty in Hys. destruct (packed_ty (fst y)) as [| |b] eqn:Ey; try done.
    destruct (laid_out_elem _ _ b Hy Ey) as [El _]. rewrite (struct_layout_vals _ (mkStruct [] (Some (vfield y)))); [by rewrite app_nil_r|].
    cbn [map struct_layout PackedType_to_tokens]. rewrite Ey. cbn [PackedType_to_tokens]. by rewrite El.
  - by rewrite (struct_layout_vals _ (mkStruct [] (Some ("data", U8)))), app_nil_r.
Qed.

(** The statements of [write_data], without the declaration of the group's offset. *)
Lemma gen_copy_all : exists ss, gen_copy_stmts n 0 4 (n_fields n) = Ret ss /\ steps_of ss = Some (b_steps gen_node_builder).
Proof.
  rewrite En, map_app. pose proof (fields_size_nonneg (map vfield vals)). unfold in_width in Hsize.
  rewrite gen_copy_vals by (done || lia). cbn [Nat.add]. rewrite <- Esize. cbn [gen_node_builder b_steps].
  pose proof (has_dst_group_gen n vals slices En Hv Hs) as Hg. pose proof Hs as Hss.
  assert ((length vals + length slices)%nat = length (n_fields n)) as Hlen by by rewrite En, length_map, length_app.
  clear Hgroup Hnd En. destruct slices as [|y [|z ss]].
  - cbn [map gen_copy_stmts obind]. eexists. split; [done|]. rewrite steps_of_vals by done. done.
  - apply Forall_cons in Hss as [Hy _]. cbn [map]. rewrite gen_copy_single by done. cbn [obind]. eexists. split; [done|].
    rewrite steps_of_vals by done. cbn [steps_of]. by rewrite String.eqb_refl.
  - rewrite gen_copy_group by done. cbn [obind]. eexists. split; [done|]. rewrite steps_of_vals by done. by rewrite group_steps.
Qed.

Lemma steps_not_group ss steps : steps_of ss = Some steps -> body_steps ss = Some steps.
Proof. by destruct ss as [|[] ss]. Qed.

Lemma gen_builder_code_ok : exists bi, gen_builder_code n = Ret (gen_builder n, bi) /\
  builder_of_code (bfields (vals ++ slices)) bi = Some gen_node_builder.
Proof.
  destruct gen_copy_all as (ss & Es & Est). unfold gen_builder_code, gen_builder_impl, gen_builder_write_data_method.
  rewrite const_ident_gen, Es. cbn [obind]. eexists. split; [done|]. unfold builder_of_code. cbn [bi_device_type bi_sub_type bi_size bi_stmts].
  rewrite Hdt, Hst. cbn [mbind option_bind].
  assert (term_names (snd (gen_builder_size_in_bytes_method n)) = Some (map lname slices)) as ->.
  { unfold gen_builder_size_in_bytes_method. cbn [snd]. rewrite (is_dst_gen n vals slices En Hv Hs), En, (size_terms_gen vals slices Hv Hs).
    destruct slices; [done|]. apply term_names_map. }
  cbn [mbind option_bind]. replace (body_steps _) with (Some (b_steps gen_node_builder)); [done|]. symmetry.
  destruct (has_dst_group n); [exact Est|by apply steps_not_group].
Qed.

Lemma layout_ok_vals b tail vs : Forall val_ok_field vs ->
  Forall (fun x => declared (b_fields b) (lname x) = if is_hidden (fst x) then None else Some (Val (snd x))) vs -> forall off,
  layout_ok b off (map vfield vs) (with_offsets val_step off vs ++ tail) = layout_ok b (off + fields_size (map vfield vs)) [] tail.
Proof.
  intros Hvs Hd. clear -Hvs Hd. induction Hvs as [|x vs [Hx Hxs] _ IH]; intros off.
  - cbn [map with_offsets app fields_size]. by rewrite Z.add_0_r.
  - apply Forall_cons in Hd as [Hdx Hd]. rewrite fields_size_cons, Z.add_assoc. cbn [map with_offsets app]. unfold val_step at 1.
    change (vfield x) with (lname x, snd x). destruct (is_hidden (fst x)) eqn:Eh; cbn [layout_ok]; rewrite Z.eqb_refl, !(bool_decide_true (_ = _)) by done.
    + rewrite (proj2 (lo_hidden _ _ Hx Eh)). cbn [andb]. by apply IH.
    + cbn [andb]. by apply IH.
Qed.

Lemma val_declared x : x ∈ vals -> declared (bfields (vals ++ slices)) (lname x) = if is_hidden (fst x) then None else Some (Val (snd x)).
Proof.
  intros Hx. rewrite bfields_declared by (try done; apply elem_of_app; by left). rewrite Forall_forall in Hv. destruct (Hv x Hx) as [_ Hns].
  unfold bty_of. by rewrite Hns.
Qed.

Lemma slice_declared x : x ∈ slices -> declared (bfields (vals ++ slices)) (lname x) = Some (Slice (snd x)).
Proof.
  intros Hx. rewrite bfields_declared by (try done; apply elem_of_app; by right). rewrite Forall_forall in Hs. pose proof (Hs x Hx) as Hsx.
  rewrite slice_visible by done. unfold bty_of. by rewrite (proj2 Hsx).
Qed.

(** The builder agrees with the struct. *)
Lemma gen_matches : matches gen_layout gen_node_builder = true.
Proof.
  destruct types_u8 as [Hu1 Hu2]. unfold matches. cbn [gen_layout gen_node_builder b_size b_type b_sub b_slices b_fields fields dst].
  rewrite !andb_true_iff. repeat apply conj.
  - apply Z.eqb_eq. exact Esize.
  - change size_of_header with 4. change (b_steps gen_node_builder) with (with_offsets val_step 4 vals ++ match slices with [] => [] | _ => [Copy (static_size n) (map lname slices)] end). rewrite layout_ok_vals; [|done|]; cbn [b_fields gen_node_builder].
    + rewrite <- Esize. unfold gen_node_builder. clear Hgroup Hnd En. destruct slices as [|y ss]; [by apply bool_decide_eq_true|].
      cbn [layout_ok b_slices]. by rewrite Z.eqb_refl, bool_decide_true.
    + apply Forall_forall. intros x Hx. by apply val_declared.
  - by apply bool_decide_eq_true.
  - by apply bool_decide_eq_true.
  - pose proof slice_declared as Hdec. pose proof Hs as Hss. pose proof Hgroup as Hg. clear Hgroup Hnd En.
    assert (forall t, Forall (fun x => snd x = t) slices ->
      forallb (fun nm => bool_decide (declared (bfields (vals ++ slices)) nm = Some (Slice t))) (map lname slices) = true) as Hall.
    { intros t Ht. rewrite forallb_forall. intros nm (x & <- & Hx%list_elem_of_In)%in_map_iff. apply bool_decide_eq_true.
      rewrite Hdec by done. rewrite Forall_forall in Ht. by rewrite (Ht x Hx). }
    destruct slices as [|y [|z ss]]; [by apply bool_decide_eq_true| |].
    + apply Forall_cons in Hss as [[Hy Hys] _]. unfold is_slice, slice_elem_ty in Hys. destruct (packed_ty (fst y)) as [| |b] eqn:Ey; try done.
      destruct (laid_out_elem _ _ b Hy Ey) as [_ Hp]. change (vfield y) with (lname y, snd y). apply andb_true_iff. split; [by apply Nat.ltb_lt|].
      apply Hall. by constructor.
    + apply andb_true_iff. split; [done|]. apply Hall, Hg. cbn. lia.
  - rewrite forallb_forall. intros [nm [t|t]] Hin; [|done]. apply bool_decide_eq_true. cbn [fst snd]. apply list_elem_of_In in Hin.
    apply list_elem_of_omap in Hin as (x & Hx & Ex). destruct (is_hidden (fst x)); [done|]. injection Ex as <- Et. unfold bty_of in Et.
    destruct (is_slice (fst x)) eqn:Exs; [done|]. injection Et as <-. apply list_elem_of_fmap. exists x. split; [done|].
    apply elem_of_app in Hx as [Hx|Hx]; [done|]. rewrite Forall_forall in Hs. destruct (Hs x Hx). congruence.
  - apply bool_decide_eq_true. rewrite map_map. change (fun x => fst (vfield x)) with lname. rewrite map_app in Hnd. by apply NoDup_app in Hnd as [? _].
  - apply bool_decide_eq_true. symmetry. by apply slice_names_bfields.
Qed.

(** The conversion has the constants that the layout demands. *)
Lemma gen_conversion_ok : exists p c, gen_packed_code n = Ret p /\ packed_layout (pc_struct p) = Some gen_layout /\
  conversion_of_code p = Some c /\ conversion_of c (dt, st) gen_layout.
Proof.
  unfold gen_packed_code, gen_packed_struct_try_from_impl. rewrite const_ident_gen, (is_dst_gen n vals slices En Hv Hs).
  pose proof packed_layout_gen as Hl. pose proof gen_matches as Hm. destruct (matches_inv _ _ Hm) as (Hsz & _ & _ & _ & Hd & _). cbn [b_size gen_node_builder] in Hsz.
  assert (slices = [] \/ exists ss y, slices = ss ++ [y]) as [Hnil|(ss & y & Hlast)] by (destruct slices using rev_ind; eauto).
  - rewrite bool_decide_true by done. cbn [negb obind]. do 2 eexists. split; [done|]. cbn [pc_struct pc_try_from]. split; [exact Hl|].
    unfold conversion_of_code, conversion_of_impl. cbn [pc_struct pc_try_from tf_device_type tf_sub_type tf_body]. rewrite Hl. cbn [mbind option_bind].
    rewrite Hdt, Hst. cbn [mbind option_bind]. split; [done|]. apply sized_conversion. unfold gen_layout. cbn [dst]. by rewrite Hnil.
  - rewrite bool_decide_false by (rewrite Hlast; by destruct ss). cbn [negb].
    assert (slice_ok_field y) as [Hy Hys] by (rewrite Forall_forall in Hs; apply Hs; rewrite Hlast; apply elem_of_app; right; left).
    unfold is_slice, slice_elem_ty in Hys. destruct (packed_ty (fst y)) as [| |b] eqn:Ey; try done.
    assert (last (n_fields n) = Some (fst y)) as -> by (rewrite En, Hlast, app_assoc, map_app; cbn [map]; by rewrite last_snoc).
    cbn [mbind option_bind]. unfold slice_elem_ty. rewrite Ey. cbn [obind]. do 2 eexists. split; [done|]. cbn [pc_struct pc_try_from]. split; [exact Hl|].
    unfold conversion_of_code, conversion_of_impl. cbn [pc_struct pc_try_from tf_device_type tf_sub_type tf_body]. rewrite Hl. cbn [mbind option_bind].
    destruct (laid_out_elem _ _ b Hy Ey) as [El Hp]. rewrite Hdt, Hst, El. cbn [mbind option_bind]. split; [done|].
    assert (exists nm, dst gen_layout = Some (nm, snd y)) as [nm Hdst].
    { unfold gen_layout. cbn [dst]. pose proof Hgroup as Hg. rewrite Hlast in *. destruct ss as [|z ss]; [by eexists|].
      assert (snd y = U8) as ->; [|destruct ss; by eexists]. assert (Forall (fun x => snd x = U8) ((z :: ss) ++ [y])) as Hu by (apply Hg; rewrite length_app; cbn; lia).
      apply Forall_app in Hu as [_ [Hu _]%Forall_cons]. exact Hu. }
    by eapply dst_conversion.
Qed.
End node.

(** ** The theorem *)

Lemma plain_inv n : plain n = true ->
  forallb plain_field (n_fields n) = true /\ slices_last (n_fields n) = true /\ NoDup (map nf_name (n_fields n)) /\
  (has_dst_group n = true -> forall f, f ∈ n_fields n -> is_slice f = true -> field_layout f = Some U8) /\
  exists dt st, assoc (upper_name (n_device_type n)) device_types = Some dt /\ assoc (n_sub_type n) device_sub_types = Some st.
Proof.
  unfold plain. intros [[[[Hf Hl]%andb_true_iff Hd%bool_decide_eq_true]%andb_true_iff Hg]%andb_true_iff Ht]%andb_true_iff.
  do 3 (split; [done|]). split.
  - intros Hgr f Hin Hs. rewrite Hgr in Hg. cbn [negb orb] in Hg. rewrite forallb_forall in Hg. apply list_elem_of_In, Hg in Hin.
    rewrite Hs in Hin. by apply bool_decide_eq_true in Hin.
  - destruct (assoc _ device_types) as [dt|]; [|done]. destruct (assoc _ device_sub_types) as [st|]; [|done]. eauto.
Qed.

Lemma node_builds_ext b b' node : size_in_bytes b = size_in_bytes b' -> (forall out, write_data b out = write_data b' out) ->
  NodeBuilds b' node -> NodeBuilds b node.
Proof. intros Es Ew [Hw Hs Hd]. split; [done|by rewrite Es|]. intros out Ho. rewrite Ew. by apply Hd. Qed.

Section roundtrip.
Context `{Profile} {C : Crates}.

(** C5: Generated builders and generated conversions are inverse, for any specification: when
    a plain node struct is accepted, code is generated for it, and every value of its build
    struct either is written as a well-formed node, of the announced size, from which the
    conversion reads back each field and the elements of the slices, or is refused because the
    node would be longer than its length field can say. *)
Theorem generated_roundtrip (item : ItemStruct) (d : DeviceType) (n : Node) :
  Node_parse item d = Ret n -> plain n = true ->
  exists p bs bi c fs, gen_packed_code n = Ret p /\ gen_builder_code n = Ret (bs, bi) /\
    conversion_of_code p = Some c /\ builder_fields bs = Some fs /\
    forall self, Forall2 (fun f v => fst f = fst v /\ bval_ok (snd f) (snd v)) fs self ->
      let size := static_size n + zlen (slices_bytes self (slice_names fs)) in
      (size < 2 ^ 16 ->
         exists node v, NodeBuilds (code_build_node (env_of self) bi) node /\ node_length node = size /\
           c node = Ret (Ok v) /\ (forall f x, self_field self f = Some (BVal x) -> (f, x) ∈ v_fields v) /\
           default [] (snd <$> v_dst v) = concat (map (slice_elems self) (slice_names fs))) /\
      (2 ^ 16 <= size < 2 ^ 64 -> size_in_bytes (code_build_node (env_of self) bi) = Ret (Err NodeTooBig)).
Proof.
  intros Hp Hpl. destruct (node_parse_ok item d n Hp) as (Hok & Hsum & Hw). destruct (plain_inv n Hpl) as (Hf & Hlast & Hnd & Hgr & dt & st & Hdt & Hst).
  destruct (plain_split _ Hok Hf Hlast) as (vals & slices & En & Hv & Hs).
  assert (NoDup (map lname (vals ++ slices))) as Hnd' by (rewrite En, map_map in Hnd; exact Hnd).
  assert ((1 < length slices)%nat -> Forall (fun x => snd x = U8) slices) as Hgroup.
  { intros Hlen. apply Forall_forall. intros x Hx. rewrite Forall_forall in Hs. destruct (Hs x Hx) as [Hlx Hsx].
    rewrite (has_dst_group_gen n vals slices En Hv) in Hgr by by apply Forall_forall.
    assert (field_layout (fst x) = Some U8) as E; [|rewrite (lo_layout _ _ Hlx) in E; by injection E].
    apply Hgr; [by apply Nat.ltb_lt| |done]. rewrite En, map_app. apply elem_of_app. right. by apply list_elem_of_fmap_2. }
  assert (static_size n = 4 + fields_size (map vfield vals)) as Esize by (rewrite En in Hsum; by apply (sum_sizes vals slices)).
  destruct (gen_builder_code_ok n vals slices dt st) as (bi & Ebi & Eb); [done..|].
  destruct (gen_conversion_ok n vals slices dt st) as (p & c & Ep & _ & Ec & Hc); [done..|].
  assert (matches (gen_layout vals slices) (gen_node_builder n vals slices dt st) = true) as Hm by by apply gen_matches.
  exists p, (gen_builder n), bi, c, (bfields (vals ++ slices)). do 3 (split; [done|]).
  split; [apply builder_fields_gen; [done|by apply all_laid_out]|]. intros self Hself. rewrite (slice_names_bfields vals slices Hv Hs).
  set (b := gen_node_builder n vals slices dt st) in *. set (s := gen_layout vals slices) in *. assert (value_ok b self) as Hval by exact Hself.
  change (static_size n + zlen (slices_bytes self (map lname slices))) with (built_size b self). intros size. split.
  - intros Hsz. destruct (code_agrees self s b _ bi Eb Hm) as [Es Ew]; [fold size; lia|].
    destruct (build_node_builds s b self Hm Hval Hsz) as [Hview Hb]. destruct (matches_inv s b Hm) as (_ & _ & _ & _ & Hdst & _).
    destruct (decode_encode_struct s (built_view s b self)) as [Hfit Hdec]; [done|by destruct (dst s) as [[? ?]|]; [apply Hdst|]|].
    exists (make_node dt st (encode_struct s (built_view s b self))), (built_view s b self).
    split; [exact (node_builds_ext (code_build_node (env_of self) bi) (build_node b self) _ Es Ew Hb)|]. split; [|split].
    + destruct (built_payload s b self Hm Hval) as (_ & _ & E). etransitivity; [apply (node_wf_length _ (builds_wf (NodeBuilds := Hb)))|symmetry; exact E].
    + rewrite (conversion_spec c (dt, st) s) by (done || apply Hb). rewrite bool_decide_true by done. cbn [data make_node]. by rewrite Hfit, Hdec.
    + rewrite <- (slice_names_bfields vals slices Hv Hs). apply (built_view_has s b self Hm Hval).
  - intros Hsz. destruct (code_agrees self s b _ bi Eb Hm) as [Es _]; [by apply Hsz|]. cbn [size_in_bytes code_build_node]. rewrite Es.
    unfold node_size_in_bytes. destruct (matches_inv s b Hm) as (Ebs & _). rewrite add_slice_sizes_ok;
      [|rewrite Ebs; pose proof (fields_size_nonneg (fields s)); unfold size_of_struct, size_of_header; lia|by apply Hsz].
    cbn [obind]. fold (built_size b self). unfold u16_try_from. by rewrite (proj2 (Z.ltb_ge _ _)) by apply Hsz.
Qed.
End roundtrip.

(** ** Examples *)

(** All nodes of [spec.rs] are plain, but the two whose build code is written by hand. *)
Lemma spec_nodes_plain : match parse_spec (H := debug_profile) (C := ref_crates) spec with
  | Ret groups => forallb (fun n => eqb (plain n) (negb (String.eqb (struct_ident n) "HardDrive" || String.eqb (struct_ident n) "RestService")))
      (concat (map ng_nodes groups))
  | _ => false
  end = true.
Proof. vm_compute. reflexivity. Qed.

Definition two_slices (elem : string) : ItemStruct :=
  mkItemStruct [mkAttr ["node"] (Some [mkMeta ["static_size"] (EqLit (LitInt 5)); mkMeta ["sub_type"] (EqLit (LitStr "MESSAGING_URI"))])] "Two"
    (Named [mkField [] (Some "first") (TPath [("u8", "")]); mkField [] (Some "left") (TSlice (TPath [(elem, "")]));
            mkField [] (Some "right") (TSlice (TPath [(elem, "")]))]).

Definition two_values (elem : fty) : struct_value :=
  [("first", BVal (VInt 7)); ("left", BSlice elem [VInt 1; VInt 2]); ("right", BSlice elem [VInt 3])].

Lemma generated_roundtrip_witness :
  exists n bs bi (c : conversion) node v, Node_parse (H := debug_profile) (C := ref_crates) (two_slices "u8") (mkDeviceType "messaging") = Ret n /\
    gen_builder_code (H := debug_profile) n = Ret (bs, bi) /\
    NodeBuilds (code_build_node (H := debug_profile) (env_of (two_values U8)) bi) node /\
    c node = Ret (Ok v) /\ ("first", VInt 7) ∈ v_fields v /\ default [] (snd <$> v_dst v) = [VInt 1; VInt 2; VInt 3].
Proof.
  destruct (Node_parse (H := debug_profile) (C := ref_crates) (two_slices "u8") (mkDeviceType "messaging")) as [n| | |] eqn:E; [|vm_compute in E; discriminate..].
  pose proof E as En. vm_compute in En. injection En as En.
  destruct (@generated_roundtrip debug_profile ref_crates _ _ n E) as (p & bs & bi & c & fs & Ep & Eb & Ec & Ef & Hr); [by rewrite <- En|].
  pose proof Eb as Ebs. rewrite <- En in Ebs. vm_compute in Ebs. injection Ebs as Ebs _. rewrite <- Ebs in Ef. vm_compute in Ef. injection Ef as <-.
  destruct (Hr (two_values U8)) as [(node & v & Hb & _ & Hc & Hf & Hd) _].
  - repeat (apply Forall2_cons; split; [split; [done|]|]); [by vm_compute|..]; try done; split; try done; repeat constructor; by vm_compute.
  - rewrite <- En. by vm_compute.
  - exists n, bs, bi, c, node, v. do 3 (split; [done|]). split; [exact Hc|]. split; [by apply Hf|exact Hd].
Defined.

(** Two slices of wider elements are accepted too, but the node's [data] is a slice of bytes whose
    length is counted in elements: of the six bytes that are built, three are read back. *)
Lemma wide_group_truncated :
  let node := make_node DeviceType_MESSAGING DeviceSubType_MESSAGING_URI [7; 1; 0; 2; 0; 3; 0] in
  exists n bs bi p (c : conversion) v,
    Node_parse (H := debug_profile) (C := ref_crates) (two_slices "u16") (mkDeviceType "messaging") = Ret n /\
    gen_builder_code (H := debug_profile) n = Ret (bs, bi) /\ gen_packed_code n = Ret p /\ conversion_of_code p = Some c /\
    code_write_data (H := debug_profile) (env_of (two_values U16)) bi (replicate 11 None) = Ret (map Some (node_bytes node)) /\
    c node = Ret (Ok v) /\ v_dst v = Some ("data", [VInt 1; VInt 0; VInt 2]).
Proof. cbv zeta. do 6 eexists. do 6 (split; [vm_compute; reflexivity|]). vm_compute. reflexivity. Qed.
