(* ===== verification/CheckRaw.v ===== *)
(** * The checker of the raw definitions: [xtask/src/check_raw.rs]

    [cargo xtask check-raw] reads the sources of [uefi-raw] and refuses what must not appear in
    an interface to firmware.  Here are the syntax it looks at, the checks in the order of the
    source with the errors they report, the rules it enforces, stated without regard to order,
    and what it leaves unchecked in the generated structs. *)
From stdpp Require Import strings pretty.
From S2P Require Import Prelude NodeGen NodeSpec.
#[local] Open Scope string_scope.
#[local] Open Scope Z_scope.
#[local] Open Scope list_scope.

(** ** Syntax *)

(** [abi] is [None] without [extern], [Some None] without a name. *)
Inductive Ty : Set :=
| TyArray (elem : Ty)
| TyBareFn (abi : option (option string)) (unsafety : bool) (inputs : list Ty) (variadic : bool) (output : option Ty)
| TyNever
| TyPath (path : string)
| TyPtr (elem : Ty)
| TyElse (tokens : string).

Inductive Visibility : Set := Public | Restricted | Inherited.

(** What follows a path in [repr(..)]: nothing, an integer in parentheses, something else. *)
Inductive repr_rest : Set := NoRest | ParenInt (n : Z) | OtherRest.
Record ReprMeta : Set := mkReprMeta { rm_path : string; rm_rest : repr_rest }.
Record Attr : Set := mkAttr' { at_path : list string; at_args : option (list ReprMeta) }.

Record RField : Set := mkRField { rf_vis : Visibility; rf_ident : option string; rf_ty : Ty }.

(** A unit struct has no fields; the body of a macro is given by the attributes it starts with,
    [None] when they do not parse. *)
Record RStruct : Set := mkRStruct { st_attrs : list Attr; st_vis : Visibility; st_fields : list RField }.
Inductive RItem : Set :=
| ItemConst (vis : Visibility) (ty : Ty)
| ItemEnum (tokens : string)
| ItemImpl (tokens : string)
| ItemMacro (path : list string) (body : option (list Attr))
| ItemMod (ident : string) (items : list RItem)
| ItemStruct' (item : RStruct)
| ItemType (vis : Visibility)
| ItemUnion (item : RStruct)
| ItemUse (tokens : string)
| ItemElse (tokens : string).

(** ** Errors *)

Inductive ItemKind : Set := KEnum | KOther.
Definition ItemKind_from (item : RItem) : ItemKind := match item with ItemEnum _ => KEnum | _ => KOther end.

Inductive ErrorKind : Set :=
| ForbiddenAbi | ForbiddenAttr | ForbiddenItemKind (k : ItemKind) | ForbiddenRepr | ForbiddenType
| MalformedAttrs | MissingPub | MissingRepr | MissingUnsafe | UnderscoreField | UnknownRepr.

Definition ErrorKind_display (k : ErrorKind) : string :=
  match k with
  | ForbiddenAbi => "forbidden ABI"
  | ForbiddenAttr => "forbidden attribute"
  | ForbiddenItemKind KEnum => "forbidden use of enum; use the `newtype_enum!` macro instead"
  | ForbiddenItemKind _ => "forbidden type of item"
  | ForbiddenRepr => "forbidden repr"
  | ForbiddenType => "forbidden type"
  | MalformedAttrs => "malformed attribute contents"
  | MissingPub => "missing pub"
  | MissingRepr => "missing repr"
  | MissingUnsafe => "missing unsafe"
  | UnderscoreField => "field name starts with `_`"
  | UnknownRepr => "unknown repr"
  end.

(** What an error points at; [proc_macro2] gives its line, column and text. *)
Inductive Spanned : Set :=
| AtAttr (a : Attr) | AtType (t : Ty) | AtField (f : RField) | AtIdent (s : string)
| AtItem (i : RItem) | AtStruct (s : RStruct) | AtToken (s : string) | AtMacro (path : list string).

Class Spans : Type := { span_line : Spanned -> Z; span_column : Spanned -> Z; source_text : Spanned -> option string }.

Record CheckError : Set := mkCheckError { ce_kind : ErrorKind; ce_path : string; ce_line : Z; ce_column : Z; ce_code : string }.

Definition Error_new {S : Spans} (kind : ErrorKind) (path : string) (at_ : Spanned) : CheckError :=
  mkCheckError kind path (span_line at_) (span_column at_) (default "" (source_text at_)).

Definition newline : string := String (Ascii.ascii_of_nat 10) "".
Definition Error_display (e : CheckError) : string :=
  "error: " +:+ ErrorKind_display (ce_kind e) +:+ newline +:+ "  --> " +:+ ce_path e +:+ ":" +:+ pretty (ce_line e) +:+ ":" +:+
  pretty (ce_column e + 1) +:+ newline +:+ ce_code e.

(** ** Attributes *)

Definition is_pub (vis : Visibility) : bool := match vis with Public => true | _ => false end.

Inductive Repr : Set := Align (n : Z) | ReprC | Packed | ReprRust | Transparent.
#[export] Instance Repr_eq_dec : EqDecision Repr.
Proof. solve_decision. Defined.

Inductive ParsedAttr : Set := PDerive | PDoc | PRepr (r : Repr).

(** The derived order: by variant, and by alignment. *)
Definition repr_rank (r : Repr) : Z := match r with Align _ => 0 | ReprC => 1 | Packed => 2 | ReprRust => 3 | Transparent => 4 end.
Definition repr_le (r s : Repr) : bool :=
  match r, s with Align m, Align n => m <=? n | _, _ => repr_rank r <=? repr_rank s end.

(** [parse_nested_meta] on [repr(..)]: the reprs, and whether one is unknown. *)
Fixpoint parse_reprs (metas : list ReprMeta) : option (list Repr * bool) :=
  match metas with
  | [] => Some ([], false)
  | m :: metas =>
      let path := rm_path m in
      let plain (r : list Repr * bool) := match rm_rest m with NoRest => Some r | _ => None end in
      r ← (if String.eqb path "C" then plain ([ReprC], false)
           else if String.eqb path "packed" then plain ([Packed], false)
           else if String.eqb path "Rust" then plain ([ReprRust], false)
           else if String.eqb path "transparent" then plain ([Transparent], false)
           else if String.eqb path "align" then
             match rm_rest m with ParenInt n => n ← base10_parse_usize n; Some ([Align n], false) | _ => None end
           else plain ([], true));
      rest ← parse_reprs metas;
      Some (fst r ++ fst rest, snd r || snd rest)
  end.

Definition parse_repr_attr (attr : Attr) : option (list Repr * bool) :=
  match at_args attr with Some metas => parse_reprs metas | None => None end.

Fixpoint insert_repr (r : Repr) (l : list Repr) : list Repr :=
  match l with [] => [r] | s :: l => if repr_le r s then r :: s :: l else s :: insert_repr r l end.
Definition sort_reprs (l : list Repr) : list Repr := foldr insert_repr [] l.

Definition get_reprs (attrs : list ParsedAttr) : list Repr :=
  sort_reprs (base.omap (fun a => match a with PRepr r => Some r | _ => None end) attrs).

Definition ALLOWED_REPRS : list (list Repr) := [[ReprC]; [ReprC; Packed]; [Transparent]].

(** ** The checks *)

Definition is_efiapi (abi : option (option string)) : bool := match abi with Some (Some name) => String.eqb name "efiapi" | _ => false end.

Section checks.
Context {S : Spans} (src : string).
Abbreviation checked := (result unit CheckError).

Definition fail {A} (kind : ErrorKind) (at_ : Spanned) : result A CheckError := Err (Error_new kind src at_).

Definition and_then (r : checked) (k : checked) : checked := match r with Ok _ => k | Err e => Err e end.

Fixpoint parse_attrs (attrs : list Attr) : result (list ParsedAttr) CheckError :=
  match attrs with
  | [] => Ok []
  | attr :: attrs =>
      let found : result (list ParsedAttr) CheckError :=
        if is_ident (at_path attr) "derive" then Ok [PDerive]
        else if is_ident (at_path attr) "doc" then Ok [PDoc]
        else if is_ident (at_path attr) "repr" then
          match parse_repr_attr attr with
          | None => fail MalformedAttrs (AtAttr attr)
          | Some (reprs, unknown) => if unknown then fail UnknownRepr (AtAttr attr) else Ok (map PRepr reprs)
          end
        else fail ForbiddenAttr (AtAttr attr) in
      match found with
      | Err e => Err e
      | Ok found => match parse_attrs attrs with Err e => Err e | Ok va => Ok (found ++ va) end
      end
  end.

Definition check_all {A} (check : A -> checked) : list A -> checked :=
  fix go l := match l with [] => Ok tt | a :: l => and_then (check a) (go l) end.

(** [check_type] and, for function pointers, [check_fn_ptr]. *)
Fixpoint check_type (ty : Ty) : checked :=
  match ty with
  | TyArray elem => check_type elem
  | TyBareFn abi unsafety inputs variadic output =>
      if negb (is_efiapi abi) && negb variadic then fail ForbiddenAbi (AtType ty)
      else if negb unsafety then fail MissingUnsafe (AtType ty)
      else
        and_then (check_all check_type inputs)
          (match output with None => Ok tt | Some output => check_type output end)
  | TyNever | TyPath _ => Ok tt
  | TyPtr elem => check_type elem
  | TyElse _ => fail ForbiddenType (AtType ty)
  end.

Definition starts_with_underscore (s : string) : bool :=
  match s with String c _ => Nat.eqb (Ascii.nat_of_ascii c) 95 | EmptyString => false end.

Definition check_field (field : RField) : checked :=
  if negb (is_pub (rf_vis field)) then fail MissingPub (AtField field)
  else
    and_then
      (match rf_ident field with
       | Some ident => if starts_with_underscore ident then fail UnderscoreField (AtIdent ident) else Ok tt
       | None => Ok tt
       end)
      (check_type (rf_ty field)).

Definition check_fields (fields : list RField) : checked := check_all check_field fields.

Definition check_type_attrs (attrs : list Attr) (spanned : Spanned) : checked :=
  match parse_attrs attrs with
  | Err e => Err e
  | Ok attrs =>
      let reprs := get_reprs attrs in
      if bool_decide (reprs = []) then fail MissingRepr spanned
      else if bool_decide (reprs ∈ ALLOWED_REPRS) then Ok tt
      else fail ForbiddenRepr spanned
  end.

Definition check_struct (item : RStruct) : checked :=
  if negb (is_pub (st_vis item)) then fail MissingPub (AtToken "struct")
  else and_then (check_fields (st_fields item)) (check_type_attrs (st_attrs item) (AtStruct item)).

Definition check_union (item : RStruct) : checked :=
  if negb (is_pub (st_vis item)) then fail MissingPub (AtToken "union")
  else and_then (check_fields (st_fields item)) (check_type_attrs (st_attrs item) (AtStruct item)).

Definition check_macro (path : list string) (body : option (list Attr)) : checked :=
  if is_ident path "bitflags" then
    match body with
    | None => fail MalformedAttrs (AtMacro path)
    | Some attrs =>
        match parse_attrs attrs with
        | Err e => Err e
        | Ok attrs => if bool_decide (get_reprs attrs ∈ [[Transparent]]) then Ok tt else fail ForbiddenRepr (AtMacro path)
        end
    end
  else Ok tt.

Definition check_item (item : RItem) : checked :=
  match item with
  | ItemConst vis ty => if negb (is_pub vis) then fail MissingPub (AtItem item) else check_type ty
  | ItemStruct' s => check_struct s
  | ItemUnion s => check_union s
  | ItemMacro path body => check_macro path body
  | ItemType vis => if negb (is_pub vis) then fail MissingPub (AtItem item) else Ok tt
  | ItemImpl _ | ItemMod _ _ | ItemUse _ => Ok tt
  | item => fail (ForbiddenItemKind (ItemKind_from item)) (AtItem item)
  end.

(** The items of a file: the first error is printed and ends the process. *)
Definition check_file (items : list RItem) : checked := check_all check_item items.
End checks.

(** The files of the package, each with its path, its extension and its items; [None] is a
    file that cannot be read or parsed. *)
Inductive check_result : Set := Passed | Unreadable (path : string) | Rejected (e : CheckError).

Fixpoint check_raw {S : Spans} (entries : list (string * option string * option (list RItem))) : check_result :=
  match entries with
  | [] => Passed
  | (path, ext, items) :: entries =>
      if bool_decide (ext = Some "rs") then
        match items with
        | None => Unreadable path
        | Some items => match check_file path items with Err e => Rejected e | Ok _ => check_raw entries end
        end
      else check_raw entries
  end.

(** ** The rules *)

(** Types that may cross the interface: no references, function pointers only with the
    calling convention of the firmware or variadic, and unsafe. *)
Inductive ffi_type : Ty -> Prop :=
| ffi_array elem : ffi_type elem -> ffi_type (TyArray elem)
| ffi_ptr elem : ffi_type elem -> ffi_type (TyPtr elem)
| ffi_never : ffi_type TyNever
| ffi_path p : ffi_type (TyPath p)
| ffi_fn abi inputs variadic output :
    (abi = Some (Some "efiapi") \/ variadic = true) -> Forall ffi_type inputs ->
    (forall t, output = Some t -> ffi_type t) -> ffi_type (TyBareFn abi true inputs variadic output).

Definition field_rule (f : RField) : Prop :=
  rf_vis f = Public /\ (forall s, rf_ident f = Some s -> starts_with_underscore s = false) /\ ffi_type (rf_ty f).

Definition attr_rule (a : Attr) : Prop :=
  at_path a = ["derive"] \/ at_path a = ["doc"] \/ (at_path a = ["repr"] /\ exists rs, parse_repr_attr a = Some (rs, false)).

(** The reprs of a type, over all its attributes. *)
Definition attr_reprs (a : Attr) : list Repr :=
  if is_ident (at_path a) "repr" then match parse_repr_attr a with Some (rs, _) => rs | None => [] end else [].
Definition all_reprs (attrs : list Attr) : list Repr := concat (map attr_reprs attrs).

Definition repr_rule (attrs : list Attr) : Prop :=
  all_reprs attrs ≡ₚ [ReprC] \/ all_reprs attrs ≡ₚ [ReprC; Packed] \/ all_reprs attrs ≡ₚ [Transparent].

Definition item_rule (item : RItem) : Prop :=
  match item with
  | ItemConst vis ty => vis = Public /\ ffi_type ty
  | ItemStruct' s | ItemUnion s =>
      st_vis s = Public /\ Forall field_rule (st_fields s) /\ Forall attr_rule (st_attrs s) /\ repr_rule (st_attrs s)
  | ItemMacro path body =>
      path = ["bitflags"] -> exists attrs, body = Some attrs /\ Forall attr_rule attrs /\ all_reprs attrs ≡ₚ [Transparent]
  | ItemType vis => vis = Public
  | ItemImpl _ | ItemMod _ _ | ItemUse _ => True
  | ItemEnum _ | ItemElse _ => False
  end.

(** ** The reprs *)

Lemma insert_repr_perm r l : insert_repr r l ≡ₚ r :: l.
Proof. induction l as [|s l IH]; [done|]. cbn [insert_repr]. destruct (repr_le r s); [done|]. rewrite IH. apply Permutation_swap. Qed.

Lemma sort_reprs_perm l : sort_reprs l ≡ₚ l.
Proof. induction l as [|r l IH]; [done|]. cbn [sort_reprs foldr]. rewrite insert_repr_perm. by apply Permutation_skip. Qed.

Lemma sort_single l r : sort_reprs l = [r] <-> l ≡ₚ [r].
Proof. split; intros E; [by rewrite <- E, sort_reprs_perm|]. by apply Permutation_singleton_r in E as ->. Qed.

Lemma sort_c_packed l : sort_reprs l = [ReprC; Packed] <-> l ≡ₚ [ReprC; Packed].
Proof.
  split; intros E; [by rewrite <- E, sort_reprs_perm|]. symmetry in E. by apply Permutation_length_2_inv in E as [-> | ->].
Qed.

Lemma allowed_reprs l : sort_reprs l ∈ ALLOWED_REPRS <-> l ≡ₚ [ReprC] \/ l ≡ₚ [ReprC; Packed] \/ l ≡ₚ [Transparent].
Proof. unfold ALLOWED_REPRS. rewrite !elem_of_cons, elem_of_nil, !sort_single, sort_c_packed. tauto. Qed.

Section proofs.
Context {S : Spans} (src : string).

Lemma and_then_ok r k : and_then r k = Ok tt <-> r = Ok tt /\ k = Ok tt.
Proof. destruct r as [[]|e]; cbn; naive_solver. Qed.

Lemma check_all_ok {A} (check : A -> result unit CheckError) (P : A -> Prop) l :
  Forall (fun a => check a = Ok tt <-> P a) l -> check_all check l = Ok tt <-> Forall P l.
Proof.
  induction 1 as [|a l Ha _ IH]; cbn [check_all]; [by split|]. rewrite and_then_ok, Ha, IH. by rewrite Forall_cons.
Qed.

(** Types have types inside. *)
Lemma Ty_nested_ind (P : Ty -> Prop) :
  (forall e, P e -> P (TyArray e)) -> (forall e, P e -> P (TyPtr e)) -> P TyNever -> (forall p, P (TyPath p)) -> (forall t, P (TyElse t)) ->
  (forall abi u inputs v output, Forall P inputs -> (forall t, output = Some t -> P t) -> P (TyBareFn abi u inputs v output)) -> forall t, P t.
Proof.
  intros Ha Hp Hn Hpath He Hf. fix IH 1. intros [e|abi u inputs v output| |p|e|t]; [apply Ha, IH| |exact Hn|apply Hpath|apply Hp, IH|apply He].
  apply Hf.
  - induction inputs as [|t l IHl]; constructor; [apply IH|exact IHl].
  - intros t E. destruct output as [t'|]; [|discriminate]. injection E as <-. apply IH.
Qed.

Lemma check_fn_eq abi u inputs v output : check_type src (TyBareFn abi u inputs v output) =
  if negb (is_efiapi abi) && negb v then fail src ForbiddenAbi (AtType (TyBareFn abi u inputs v output))
  else if negb u then fail src MissingUnsafe (AtType (TyBareFn abi u inputs v output))
  else and_then (check_all (check_type src) inputs) (match output with None => Ok tt | Some t => check_type src t end).
Proof. done. Qed.

Lemma is_efiapi_spec abi : is_efiapi abi = true <-> abi = Some (Some "efiapi").
Proof. destruct abi as [[s|]|]; cbn; [|done..]. rewrite String.eqb_eq. naive_solver. Qed.

Lemma check_type_ok t : check_type src t = Ok tt <-> ffi_type t.
Proof.
  induction t as [e IH|e IH| |p|t|abi u inputs v output IHi IHo] using Ty_nested_ind.
  - cbn [check_type]. rewrite IH. split; [apply ffi_array|by inversion 1].
  - cbn [check_type]. rewrite IH. split; [apply ffi_ptr|by inversion 1].
  - split; [intros _; apply ffi_never|done].
  - split; [intros _; apply ffi_path|done].
  - split; [discriminate|inversion 1].
  - rewrite check_fn_eq. pose proof (check_all_ok (check_type src) ffi_type inputs IHi) as Hi.
    pose proof (is_efiapi_spec abi) as Ha. split.
    + destruct (is_efiapi abi) eqn:Eabi, v, u; cbn [negb andb]; try discriminate; intros [Hin Hout]%and_then_ok;
        (apply ffi_fn; [naive_solver|by apply Hi|]; intros t ->; by apply (IHo t eq_refl)).
    + inversion 1 as [| | | |? ? ? ? Habi Hin Hout]; subst. replace (negb (is_efiapi abi) && negb v) with false.
      * cbn [negb]. apply and_then_ok. split; [by apply Hi|]. destruct output as [t|]; [|done]. by apply (IHo t eq_refl), Hout.
      * destruct Habi as [E | ->]; [|by rewrite andb_false_r]. by rewrite (proj2 Ha E).
Qed.

Lemma is_pub_spec v : is_pub v = true <-> v = Public.
Proof. by destruct v. Qed.

Lemma check_field_ok f : check_field src f = Ok tt <-> field_rule f.
Proof.
  unfold check_field, field_rule. rewrite <- is_pub_spec. destruct (is_pub (rf_vis f)); cbn [negb]; [|split; [discriminate|by intros [? _]]].
  rewrite and_then_ok, check_type_ok. destruct (rf_ident f) as [s|]; [|naive_solver]. destruct (starts_with_underscore s) eqn:E.
  - split; [intros [Hf _]; discriminate Hf|]. intros (_ & Hs & _). by rewrite (Hs s eq_refl) in E.
  - naive_solver.
Qed.

Lemma is_ident_spec p s : is_ident p s = true <-> p = [s].
Proof. unfold is_ident. apply bool_decide_eq_true. Qed.

(** Parsing the attributes succeeds on the permitted ones and gives their reprs. *)
Lemma parse_attrs_ok attrs va : parse_attrs src attrs = Ok va ->
  Forall attr_rule attrs /\ base.omap (fun a => match a with PRepr r => Some r | _ => None end) va = all_reprs attrs.
Proof.
  revert va. induction attrs as [|a attrs IH]; intros va E; [by injection E as <-|]. cbn [parse_attrs] in E.
  unfold attr_rule, all_reprs in *. cbn [map concat]. unfold attr_reprs at 1.
  destruct (is_ident (at_path a) "derive") eqn:E1.
  { apply is_ident_spec in E1. destruct (parse_attrs src attrs) as [va'|] eqn:E'; [|done]. injection E as <-. destruct (IH va' eq_refl) as [Hr Ho].
    split; [constructor; [by left|done]|]. rewrite E1. exact Ho. }
  destruct (is_ident (at_path a) "doc") eqn:E2.
  { apply is_ident_spec in E2. destruct (parse_attrs src attrs) as [va'|] eqn:E'; [|done]. injection E as <-. destruct (IH va' eq_refl) as [Hr Ho].
    split; [constructor; [by right; left|done]|]. rewrite E2. exact Ho. }
  destruct (is_ident (at_path a) "repr") eqn:E3; [|done]. destruct (parse_repr_attr a) as [[rs [|]]|] eqn:Er; [done| |done].
  apply is_ident_spec in E3. destruct (parse_attrs src attrs) as [va'|] eqn:E'; [|done]. injection E as <-. destruct (IH va' eq_refl) as [Hr Ho].
  split; [constructor; [right; right; split; [done|by exists rs]|done]|]. rewrite <- Ho. clear. induction rs as [|r rs IHr]; [done|]. cbn. by f_equal.
Qed.

Lemma parse_attrs_total attrs : Forall attr_rule attrs -> exists va, parse_attrs src attrs = Ok va.
Proof.
  induction 1 as [|a attrs Ha _ [va IH]]; [by exists []|]. cbn [parse_attrs]. rewrite IH.
  destruct Ha as [Ea|[Ea|[Ea [rs Er]]]]; rewrite Ea; cbn; eauto. rewrite Er. eauto.
Qed.

Lemma check_type_attrs_ok attrs at_ : check_type_attrs src attrs at_ = Ok tt <-> Forall attr_rule attrs /\ repr_rule attrs.
Proof.
  unfold check_type_attrs, repr_rule. destruct (parse_attrs src attrs) as [va|e] eqn:E.
  - destruct (parse_attrs_ok attrs va E) as [Hr Ho]. unfold get_reprs. rewrite Ho, <- allowed_reprs. destruct (bool_decide_reflect (sort_reprs (all_reprs attrs) = [])) as [En|_].
    + split; [discriminate|]. rewrite En. intros [_ Hin]. unfold ALLOWED_REPRS in Hin. rewrite !elem_of_cons, elem_of_nil in Hin. naive_solver.
    + destruct (bool_decide_reflect (sort_reprs (all_reprs attrs) ∈ ALLOWED_REPRS)); [by split|]. split; [discriminate|by intros [_ ?]].
  - split; [discriminate|]. intros [Hr _]. destruct (parse_attrs_total attrs Hr) as [va Ev]. congruence.
Qed.

Lemma check_fields_ok fs : check_fields src fs = Ok tt <-> Forall field_rule fs.
Proof. apply check_all_ok, Forall_forall. intros f _. apply check_field_ok. Qed.

Lemma check_body_ok token s at_ : (if negb (is_pub (st_vis s)) then fail src MissingPub (AtToken token)
    else and_then (check_fields src (st_fields s)) (check_type_attrs src (st_attrs s) at_)) = Ok tt <->
  st_vis s = Public /\ Forall field_rule (st_fields s) /\ Forall attr_rule (st_attrs s) /\ repr_rule (st_attrs s).
Proof.
  rewrite <- is_pub_spec. destruct (is_pub (st_vis s)); cbn [negb]; [|split; [discriminate|by intros [? _]]].
  rewrite and_then_ok, check_fields_ok, check_type_attrs_ok. tauto.
Qed.

Lemma check_macro_ok path body : check_macro src path body = Ok tt <-> item_rule (ItemMacro path body).
Proof.
  unfold check_macro, item_rule. destruct (is_ident path "bitflags") eqn:Ep.
  - apply is_ident_spec in Ep. destruct body as [attrs|]; [|split; [discriminate|intros Hr; by destruct (Hr Ep) as (? & ? & _)]].
    destruct (parse_attrs src attrs) as [va|e] eqn:E.
    + destruct (parse_attrs_ok attrs va E) as [Hr Ho]. unfold get_reprs. rewrite Ho.
      destruct (bool_decide_reflect (sort_reprs (all_reprs attrs) ∈ [[Transparent]])) as [Hin|Hin]; rewrite list_elem_of_singleton, sort_single in Hin.
      * split; [|done]. intros _ _. by exists attrs.
      * split; [discriminate|]. intros Hx. destruct (Hx Ep) as (? & [= <-] & _ & ?). done.
    + split; [discriminate|]. intros Hx. destruct (Hx Ep) as (? & [= <-] & Hr & _). destruct (parse_attrs_total attrs Hr) as [va Ev]. congruence.
  - split; [|done]. intros _ ->. by apply not_true_iff_false in Ep.
Qed.

Lemma check_item_ok item : check_item src item = Ok tt <-> item_rule item.
Proof.
  destruct item as [vis ty|t|t|path body|ident items|s|vis|s|t|t]; try (split; [discriminate|done]); try (by split).
  - cbn [check_item item_rule]. rewrite <- is_pub_spec. destruct (is_pub vis); cbn [negb]; [rewrite check_type_ok; tauto|split; [discriminate|by intros [? _]]].
  - apply check_macro_ok.
  - apply check_body_ok.
  - cbn [check_item item_rule]. rewrite <- is_pub_spec. destruct (is_pub vis); cbn [negb]; [by split|]. split; [discriminate|done].
  - apply check_body_ok.
Qed.

Lemma check_file_ok items : check_file src items = Ok tt <-> Forall item_rule items.
Proof. apply check_all_ok, Forall_forall. intros i _. apply check_item_ok. Qed.

(** ** The errors *)

(** What the checks look at in an item. *)
Definition item_fields (item : RItem) : list RField := match item with ItemStruct' s | ItemUnion s => st_fields s | _ => [] end.
Definition item_types (item : RItem) : list Ty := match item with ItemConst _ ty => [ty] | item => map rf_ty (item_fields item) end.
Definition item_attrs (item : RItem) : list Attr :=
  match item with ItemStruct' s | ItemUnion s => st_attrs s | ItemMacro _ body => default [] body | _ => [] end.
Definition item_vis (item : RItem) : list Visibility :=
  match item with
  | ItemConst vis _ | ItemType vis => [vis]
  | ItemStruct' s | ItemUnion s => st_vis s :: map rf_vis (st_fields s)
  | _ => []
  end.

Inductive part_of : Ty -> Ty -> Prop :=
| part_self t : part_of t t
| part_array t e : part_of t e -> part_of t (TyArray e)
| part_ptr t e : part_of t e -> part_of t (TyPtr e)
| part_input t a abi u inputs v output : a ∈ inputs -> part_of t a -> part_of t (TyBareFn abi u inputs v output)
| part_output t a abi u inputs v : part_of t a -> part_of t (TyBareFn abi u inputs v (Some a)).

Definition type_fault (k : ErrorKind) (t : Ty) : Prop :=
  match k, t with
  | ForbiddenAbi, TyBareFn abi _ _ v _ => abi <> Some (Some "efiapi") /\ v = false
  | MissingUnsafe, TyBareFn _ u _ _ _ => u = false
  | ForbiddenType, TyElse _ => True
  | _, _ => False
  end.

(** The item breaks the rule that the error names. *)
Definition breaks (k : ErrorKind) (item : RItem) : Prop :=
  match k with
  | ForbiddenAbi | MissingUnsafe | ForbiddenType => exists ty t, ty ∈ item_types item /\ part_of t ty /\ type_fault k t
  | MissingPub => exists v, v ∈ item_vis item /\ v <> Public
  | UnderscoreField => exists f s, f ∈ item_fields item /\ rf_ident f = Some s /\ starts_with_underscore s = true
  | ForbiddenAttr => exists a, a ∈ item_attrs item /\ at_path a <> ["derive"] /\ at_path a <> ["doc"] /\ at_path a <> ["repr"]
  | MalformedAttrs => (exists a, a ∈ item_attrs item /\ at_path a = ["repr"] /\ parse_repr_attr a = None) \/ item = ItemMacro ["bitflags"] None
  | UnknownRepr => exists a rs, a ∈ item_attrs item /\ at_path a = ["repr"] /\ parse_repr_attr a = Some (rs, true)
  | MissingRepr => all_reprs (item_attrs item) = []
  | ForbiddenRepr => match item with ItemMacro _ _ => ~ all_reprs (item_attrs item) ≡ₚ [Transparent] | _ => ~ repr_rule (item_attrs item) end
  | ForbiddenItemKind k => k = ItemKind_from item /\ ~ item_rule item
  end.

Definition error_in {A} (r : result A CheckError) (Q : ErrorKind -> Prop) : Prop := forall e, r = Err e -> ce_path e = src /\ Q (ce_kind e).

Lemma error_fail {A} k at_ (Q : ErrorKind -> Prop) : Q k -> error_in (fail (A := A) src k at_) Q.
Proof. intros Hq e [= <-]. done. Qed.

Lemma error_and_then r k Q : error_in r Q -> error_in k Q -> error_in (and_then r k) Q.
Proof. intros Hr Hk e E. destruct r as [[]|e']; cbn in E; [by apply Hk|]. apply Hr. congruence. Qed.

Lemma error_all {A} (check : A -> result unit CheckError) l Q : (forall a, a ∈ l -> error_in (check a) Q) -> error_in (check_all check l) Q.
Proof.
  induction l as [|a l IH]; intros Ha; [by intros e [=]|]. apply error_and_then; [apply Ha; left|]. apply IH. intros b Hb. apply Ha. by right.
Qed.

Lemma error_impl {A} (r : result A CheckError) (P Q : ErrorKind -> Prop) : error_in r P -> (forall k, P k -> Q k) -> error_in r Q.
Proof. intros Hr Hpq e E. destruct (Hr e E). auto. Qed.

Lemma type_error t : error_in (check_type src t) (fun k => exists t', part_of t' t /\ type_fault k t').
Proof.
  induction t as [e IH|e IH| |p|t|abi u inputs v output IHi IHo] using Ty_nested_ind; try (by intros e [=]).
  - eapply error_impl; [exact IH|]. intros k (t' & Hp & Hf). exists t'. split; [by apply part_array|done].
  - eapply error_impl; [exact IH|]. intros k (t' & Hp & Hf). exists t'. split; [by apply part_ptr|done].
  - apply error_fail. eexists. split; [apply part_self|done].
  - rewrite check_fn_eq. pose proof (is_efiapi_spec abi) as Ha. destruct (negb (is_efiapi abi) && negb v) eqn:Eb.
    { apply andb_true_iff in Eb as [Eb1%negb_true_iff Eb2%negb_true_iff]. apply error_fail. eexists. split; [apply part_self|]. split; [|done].
      intros E%Ha. congruence. }
    destruct u; cbn [negb]; [|apply error_fail; eexists; split; [apply part_self|done]]. apply error_and_then.
    + apply error_all. intros a Hin. rewrite Forall_forall in IHi. eapply error_impl; [by apply IHi|]. intros k (t' & Hp & Hf). exists t'. split; [by eapply part_input|done].
    + destruct output as [t|]; [|by intros e [=]]. eapply error_impl; [by apply IHo|]. intros k (t' & Hp & Hf). exists t'. split; [by apply part_output|done].
Qed.

(** Errors in attributes. *)
Definition attr_fault (k : ErrorKind) (attrs : list Attr) : Prop :=
  exists a, a ∈ attrs /\
  match k with
  | ForbiddenAttr => at_path a <> ["derive"] /\ at_path a <> ["doc"] /\ at_path a <> ["repr"]
  | MalformedAttrs => at_path a = ["repr"] /\ parse_repr_attr a = None
  | UnknownRepr => at_path a = ["repr"] /\ exists rs, parse_repr_attr a = Some (rs, true)
  | _ => False
  end.

Lemma attrs_error attrs : error_in (parse_attrs src attrs) (fun k => attr_fault k attrs).
Proof.
  induction attrs as [|a attrs IH]; [by intros e [=]|]. cbn [parse_attrs].
  assert (error_in (match parse_attrs src attrs with Err e => Err e | Ok va => Ok va end) (fun k => attr_fault k (a :: attrs))) as Hrest.
  { intros e E. destruct (parse_attrs src attrs) as [|e']; [done|]. destruct (IH e) as [Hp (b & Hb & Hk)]; [congruence|]. split; [done|]. exists b. split; [by right|done]. }
  assert (forall found, error_in (match parse_attrs src attrs with Err e => Err e | Ok va => Ok (found ++ va) end) (fun k => attr_fault k (a :: attrs))) as Hany.
  { intros found e E. apply Hrest. by destruct (parse_attrs src attrs). }
  assert (forall k, attr_fault k (a :: attrs) -> error_in (match fail (A := list ParsedAttr) src k (AtAttr a) with Err e => Err e
    | Ok found => match parse_attrs src attrs with Err e => Err e | Ok va => Ok (found ++ va) end end) (fun k => attr_fault k (a :: attrs))) as Hfail.
  { intros k Hk e [= <-]. done. }
  destruct (is_ident (at_path a) "derive") eqn:E1; [apply Hany|]. destruct (is_ident (at_path a) "doc") eqn:E2; [apply Hany|].
  apply bool_decide_eq_false in E1, E2. destruct (is_ident (at_path a) "repr") eqn:E3.
  - apply is_ident_spec in E3. destruct (parse_repr_attr a) as [[rs [|]]|] eqn:Er; [|apply Hany|]; apply Hfail; exists a; (split; [left|]); eauto.
  - apply bool_decide_eq_false in E3. apply Hfail. exists a. split; [left|done].
Qed.

Lemma attr_fault_breaks k item : attr_fault k (item_attrs item) -> breaks k item.
Proof. intros (a & Ha & Hk). destruct k; cbn in *; try done; [by exists a|left; by exists a|]. destruct Hk as (? & rs & ?). by exists a, rs. Qed.

Lemma type_fault_breaks k t ty item : ty ∈ item_types item -> part_of t ty -> type_fault k t -> breaks k item.
Proof. intros Hty Hp Hf. destruct k; try (by destruct t); by exists ty, t. Qed.

Lemma not_public v : is_pub v = false -> v <> Public.
Proof. by destruct v. Qed.

Lemma field_error item f : f ∈ item_fields item -> rf_ty f ∈ item_types item -> rf_vis f ∈ item_vis item ->
  error_in (check_field src f) (fun k => breaks k item).
Proof.
  intros Hf Ht Hv. unfold check_field. destruct (is_pub (rf_vis f)) eqn:Ev; cbn [negb].
  - apply error_and_then.
    + destruct (rf_ident f) as [s|] eqn:Es; [|by intros ? [=]]. destruct (starts_with_underscore s) eqn:Eu; [|by intros e [=]].
      apply error_fail. by exists f, s.
    + eapply error_impl; [apply type_error|]. intros k (t & Hp & Hk). by eapply type_fault_breaks.
  - apply error_fail. exists (rf_vis f). split; [done|by apply not_public].
Qed.

Lemma type_attrs_error attrs at_ item : item_attrs item = attrs -> error_in (check_type_attrs src attrs at_) (fun k => breaks k item).
Proof.
  intros <-. unfold check_type_attrs. pose proof (attrs_error (item_attrs item)) as Ha. destruct (parse_attrs src (item_attrs item)) as [va|e] eqn:E.
  - destruct (parse_attrs_ok _ _ E) as [_ Ho]. unfold get_reprs. rewrite Ho. destruct (bool_decide_reflect (sort_reprs (all_reprs (item_attrs item)) = [])) as [En|_].
    + apply error_fail. apply Permutation_nil. rewrite <- En. apply sort_reprs_perm.
    + destruct (bool_decide_reflect (sort_reprs (all_reprs (item_attrs item)) ∈ ALLOWED_REPRS)) as [|Hn]; [by intros ? [=]|]. apply error_fail.
      rewrite allowed_reprs in Hn. cbn [breaks]. destruct item; try exact Hn. intros Hp. apply Hn. auto.
  - intros e' [= <-]. destruct (Ha e eq_refl) as [Hp Hk]. split; [done|by apply attr_fault_breaks].
Qed.

Lemma body_error token s item at_ : item = ItemStruct' s \/ item = ItemUnion s ->
  error_in (if negb (is_pub (st_vis s)) then fail src MissingPub (AtToken token)
    else and_then (check_fields src (st_fields s)) (check_type_attrs src (st_attrs s) at_)) (fun k => breaks k item).
Proof.
  intros Hi. assert (item_fields item = st_fields s /\ item_attrs item = st_attrs s /\ item_types item = map rf_ty (st_fields s) /\
    item_vis item = st_vis s :: map rf_vis (st_fields s)) as (Ef & Ea & Et & Ev) by by destruct Hi as [-> | ->].
  destruct (is_pub (st_vis s)) eqn:Ep; cbn [negb].
  - apply error_and_then; [|by apply type_attrs_error]. apply error_all. intros f Hf. apply field_error; rewrite ?Ef, ?Et, ?Ev; [done|by apply list_elem_of_fmap_2|].
    right. by apply list_elem_of_fmap_2.
  - apply error_fail. exists (st_vis s). rewrite Ev. split; [left|by apply not_public].
Qed.

Lemma item_error item : error_in (check_item src item) (fun k => breaks k item).
Proof.
  destruct item as [vis ty|t|t|path body|ident items|s|vis|s|t|t]; try (by intros ? [=]).
  - cbn [check_item]. destruct (is_pub vis) eqn:Ep; cbn [negb].
    + eapply error_impl; [apply type_error|]. intros k (t & Hp & Hk). eapply type_fault_breaks; [|exact Hp|exact Hk]. left.
    + apply error_fail. exists vis. split; [left|by apply not_public].
  - apply error_fail. split; [done|]. by intros [].
  - cbn [check_item]. unfold check_macro. destruct (is_ident path "bitflags") eqn:Ei; [|by intros ? [=]]. apply is_ident_spec in Ei as ->.
    destruct body as [attrs|]; [|apply error_fail; by right]. pose proof (attrs_error attrs) as Ha. destruct (parse_attrs src attrs) as [va|e] eqn:E.
    + destruct (parse_attrs_ok _ _ E) as [_ Ho]. unfold get_reprs. rewrite Ho.
      destruct (bool_decide_reflect (sort_reprs (all_reprs attrs) ∈ [[Transparent]])) as [|Hn]; [by intros ? [=]|]. apply error_fail.
      intros Hp. apply Hn, list_elem_of_singleton, sort_single. exact Hp.
    + intros e' [= <-]. destruct (Ha e eq_refl) as [Hp Hk]. split; [done|]. by apply (attr_fault_breaks _ (ItemMacro ["bitflags"] (Some attrs))).
  - apply body_error. by left.
  - cbn [check_item]. destruct (is_pub vis) eqn:Ep; cbn [negb]; [by intros ? [=]|]. apply error_fail. exists vis. split; [left|by apply not_public].
  - apply body_error. by right.
  - apply error_fail. split; [done|]. by intros [].
Qed.
End proofs.

Lemma check_all_error {S : Spans} {A} (check : A -> result unit CheckError) l e : check_all check l = Err e -> exists a, a ∈ l /\ check a = Err e.
Proof.
  induction l as [|a l IH]; [done|]. change (check_all check (a :: l)) with (and_then (check a) (check_all check l)).
  destruct (check a) as [[]|e'] eqn:Ea; cbn [and_then].
  - intros E. destruct (IH E) as (b & Hb & Eb). exists b. split; [by right|done].
  - intros [= ->]. exists a. split; [left|done].
Qed.

(** C40: The checker enforces its rules and nothing else: the package passes exactly when every
    [.rs] file parses and every top-level item in it keeps the rules, whatever the order of its
    attributes; and an error names the file and a rule that an item of that file really
    breaks. *)
Theorem check_raw_enforces {S : Spans} (entries : list (string * option string * option (list RItem))) :
  (check_raw entries = Passed <->
   Forall (fun e => snd (fst e) = Some "rs" -> exists items, snd e = Some items /\ Forall item_rule items) entries) /\
  (forall e, check_raw entries = Rejected e ->
     exists items item, (ce_path e, Some "rs", Some items) ∈ entries /\ item ∈ items /\ breaks (ce_kind e) item).
Proof.
  induction entries as [|[[path ext] content] entries [IH1 IH2]]; [by split|]. cbn [check_raw]. rewrite Forall_cons. cbn [fst snd].
  destruct (bool_decide_reflect (ext = Some "rs")) as [->|Hne].
  - destruct content as [items|].
    + destruct (check_file path items) as [[]|e] eqn:E.
      * apply check_file_ok in E. split; [rewrite IH1; naive_solver|]. intros e Ee. destruct (IH2 e Ee) as (items' & item & Hin & Hr). exists items', item. split; [by right|done].
      * split.
        -- split; [done|]. intros [Hr _]. destruct (Hr eq_refl) as (? & [= <-] & Hf). apply (check_file_ok path) in Hf. congruence.
        -- intros e' [= <-]. destruct (check_all_error _ _ _ E) as (item & Hin & Ei). destruct (item_error path item e Ei) as [<- Hb].
           exists items, item. split; [left|done].
    + split; [|done]. split; [done|]. intros [Hr _]. by destruct (Hr eq_refl) as (? & ? & _).
  - split; [rewrite IH1; naive_solver|]. intros e Ee. destruct (IH2 e Ee) as (items' & item & Hin & Hr). exists items', item. split; [by right|done].
Qed.

(** ** Examples *)

Definition no_spans : Spans := {| span_line _ := 1; span_column _ := 0; source_text _ := None |}.

(** [pub struct S { pub f: u32 }] with [repr(C)], and with a private field. *)
Definition sample (vis : Visibility) : RItem :=
  ItemStruct' (mkRStruct [mkAttr' ["repr"] (Some [mkReprMeta "C" NoRest])] Public [mkRField vis (Some "f") (TyPath "u32")]).

Lemma check_raw_enforces_witness :
  check_raw (S := no_spans) [("a.rs", Some "rs", Some [sample Public])] = Passed /\
  exists e, check_raw (S := no_spans) [("a.rs", Some "rs", Some [sample Inherited])] = Rejected e /\
    Error_display e = "error: missing pub" +:+ newline +:+ "  --> a.rs:1:1" +:+ newline /\ breaks MissingPub (sample Inherited).
Proof.
  split.
  - apply (@check_raw_enforces no_spans). constructor; [|constructor]. intros _. eexists. split; [reflexivity|]. constructor; [|constructor].
    split; [reflexivity|]. split; [constructor; [|constructor]; split; [reflexivity|split; [by intros s [= <-]|apply ffi_path]]|].
    split; [constructor; [|constructor]; right; right; split; [reflexivity|by eexists]|by left].
  - eexists. split; [reflexivity|]. split; [by vm_compute|].
    destruct (proj2 (@check_raw_enforces no_spans [("a.rs", Some "rs", Some [sample Inherited])]) _ eq_refl) as (items & item & Hin & Hi & Hb).
    apply list_elem_of_singleton in Hin as [= ->]. apply list_elem_of_singleton in Hi as ->. exact Hb.
Defined.

(** ** The generated structs *)

(** The structs that [NodeGen] generates for [uefi-raw], as the checker sees them. *)
Fixpoint raw_type (t : Type_) : Ty :=
  match t with
  | TPath p => TyPath (path_str p)
  | TArray e _ => TyArray (raw_type e)
  | TSlice _ => TyElse "slice"
  | TRef _ _ => TyElse "reference"
  | TOther s => TyElse s
  end.

Definition raw_item (s : raw_struct) : RItem :=
  ItemStruct' (mkRStruct [mkAttr' ["repr"] (Some [mkReprMeta "C" NoRest; mkReprMeta "packed" NoRest])] Public
    (map (fun f => mkRField Public (Some (fst f)) (raw_type (snd f))) (rs_fields s))).

Definition raw_module_item (m : gen_module raw_struct) : RItem := ItemMod (gm_ident m) (map raw_item (gm_nodes m)).

(** Modules are not entered: the generated file passes, but the struct [FibreChannel] in it has a
    field whose name starts with an underscore, which the rules forbid. *)
Lemma modules_not_entered :
  check_raw (S := no_spans) [("device_path_gen.rs", Some "rs", Some (map raw_module_item raw_modules))] = Passed /\
  exists e, check_item (S := no_spans) "device_path_gen.rs" (raw_item raw_MessagingFibreChannel) = Err e /\ ce_kind e = UnderscoreField.
Proof. split; [by vm_compute|]. eexists. split; vm_compute; reflexivity. Qed.
