(* ===== verification/Status.v ===== *)
(** * Status codes, results, alignment and boxed firmware data

    [uefi-raw/src/status.rs], [uefi/src/result/{status,error,mod}.rs], the trait
    [Align] of [uefi/src/data_types/mod.rs] and [make_boxed] of
    [uefi/src/mem/util.rs].  A status is the [usize] that the firmware returns. *)
From S2P Require Import Prelude.

(** ** [Status] *)

Module Status.
Definition ERROR_BIT : Z := Z.shiftl 1 (usize_bits - 1).

Definition SUCCESS : Z := 0.
Definition WARN_UNKNOWN_GLYPH : Z := 1.
Definition WARN_DELETE_FAILURE : Z := 2.
Definition WARN_WRITE_FAILURE : Z := 3.
Definition WARN_BUFFER_TOO_SMALL : Z := 4.
Definition WARN_STALE_DATA : Z := 5.
Definition WARN_FILE_SYSTEM : Z := 6.
Definition WARN_RESET_REQUIRED : Z := 7.
Definition LOAD_ERROR : Z := Z.lor ERROR_BIT 1.
Definition INVALID_PARAMETER : Z := Z.lor ERROR_BIT 2.
Definition UNSUPPORTED : Z := Z.lor ERROR_BIT 3.
Definition BAD_BUFFER_SIZE : Z := Z.lor ERROR_BIT 4.
Definition BUFFER_TOO_SMALL : Z := Z.lor ERROR_BIT 5.
Definition NOT_READY : Z := Z.lor ERROR_BIT 6.
Definition DEVICE_ERROR : Z := Z.lor ERROR_BIT 7.
Definition WRITE_PROTECTED : Z := Z.lor ERROR_BIT 8.
Definition OUT_OF_RESOURCES : Z := Z.lor ERROR_BIT 9.
Definition VOLUME_CORRUPTED : Z := Z.lor ERROR_BIT 10.
Definition VOLUME_FULL : Z := Z.lor ERROR_BIT 11.
Definition NO_MEDIA : Z := Z.lor ERROR_BIT 12.
Definition MEDIA_CHANGED : Z := Z.lor ERROR_BIT 13.
Definition NOT_FOUND : Z := Z.lor ERROR_BIT 14.
Definition ACCESS_DENIED : Z := Z.lor ERROR_BIT 15.
Definition NO_RESPONSE : Z := Z.lor ERROR_BIT 16.
Definition NO_MAPPING : Z := Z.lor ERROR_BIT 17.
Definition TIMEOUT : Z := Z.lor ERROR_BIT 18.
Definition NOT_STARTED : Z := Z.lor ERROR_BIT 19.
Definition ALREADY_STARTED : Z := Z.lor ERROR_BIT 20.
Definition ABORTED : Z := Z.lor ERROR_BIT 21.
Definition ICMP_ERROR : Z := Z.lor ERROR_BIT 22.
Definition TFTP_ERROR : Z := Z.lor ERROR_BIT 23.
Definition PROTOCOL_ERROR : Z := Z.lor ERROR_BIT 24.
Definition INCOMPATIBLE_VERSION : Z := Z.lor ERROR_BIT 25.
Definition SECURITY_VIOLATION : Z := Z.lor ERROR_BIT 26.
Definition CRC_ERROR : Z := Z.lor ERROR_BIT 27.
Definition END_OF_MEDIA : Z := Z.lor ERROR_BIT 28.
Definition END_OF_FILE : Z := Z.lor ERROR_BIT 31.
Definition INVALID_LANGUAGE : Z := Z.lor ERROR_BIT 32.
Definition COMPROMISED_DATA : Z := Z.lor ERROR_BIT 33.
Definition IP_ADDRESS_CONFLICT : Z := Z.lor ERROR_BIT 34.
Definition HTTP_ERROR : Z := Z.lor ERROR_BIT 35.

Definition is_success (s : Z) : bool := s =? SUCCESS.
Definition is_warning (s : Z) : bool := negb (s =? SUCCESS) && (Z.land s ERROR_BIT =? 0).
Definition is_error (s : Z) : bool := negb (Z.land s ERROR_BIT =? 0).
End Status.

(** ** [Error<Data>] and [Result<Output, ErrData>] *)

Record Error (Data : Type) : Type := mkError { err_status : Z; err_data : Data }.
Arguments mkError {Data} _ _.
Arguments err_status {Data} _.
Arguments err_data {Data} _.

#[export] Instance Error_eq_dec {D} `{EqDecision D} : EqDecision (Error D).
Proof. solve_decision. Defined.

Abbreviation uresult T D := (result T (Error D)).

Section errors.
Context {T D : Type}.

(** [Error::new] panics on [SUCCESS]. *)
Definition error_new (status : Z) (d : D) : outcome (Error D) :=
  let! _ := assert_ (negb (status =? Status.SUCCESS)) in
  Ret (mkError status d).

Definition error_split (e : Error D) : Z * D := (err_status e, err_data e).

Definition to_err_without_payload (e : Error D) : Error unit := mkError (err_status e) tt.
End errors.

(** [From<Status> for Error<()>]. *)
Definition error_from_status (status : Z) : outcome (Error unit) := error_new status tt.

(** ** [StatusExt] *)

Section status_ext.
Context {T D : Type}.

Definition to_result_with (status : Z) (val : T) (err : Z -> D) : outcome (uresult T D) :=
  if Status.is_success status then Ret (Ok val)
  else let! e := error_new status (err status) in Ret (Err e).

Definition to_result_with_val (status : Z) (val : T) : outcome (uresult T unit) :=
  if Status.is_success status then Ret (Ok val)
  else let! e := error_from_status status in Ret (Err e).

Definition to_result_with_err (status : Z) (err : Z -> D) : outcome (uresult unit D) :=
  if Status.is_success status then Ret (Ok tt)
  else let! e := error_new status (err status) in Ret (Err e).

Definition to_result (status : Z) : outcome (uresult unit unit) :=
  if Status.is_success status then Ret (Ok tt)
  else let! e := error_from_status status in Ret (Err e).

(** ** [ResultExt] *)

Definition result_status (r : uresult T D) : Z :=
  match r with Ok _ => Status.SUCCESS | Err e => err_status e end.

Definition discard_errdata (r : uresult T D) : outcome (uresult T unit) :=
  match r with
  | Ok o => Ret (Ok o)
  | Err e => let! e := error_from_status (err_status e) in Ret (Err e)
  end.

Definition handle_warning (r : uresult T D) (op : Error D -> uresult T D) : uresult T D :=
  match r with
  | Ok o => Ok o
  | Err err => if Status.is_warning (err_status err) then op err else Err err
  end.
End status_ext.

(** ** [Align] *)

Section align.
Context `{Profile} (alignment : Z).

Definition offset_up_to_alignment (val : Z) : outcome Z :=
  let! _ := assert_ (negb (alignment =? 0)) in
  let! r := usize_rem val alignment in
  if r =? 0 then Ret 0 else usize_sub alignment r.

Definition round_up_to_alignment (val : Z) : outcome Z :=
  let! off := offset_up_to_alignment val in
  usize_add val off.

(** [ptr.align_offset(alignment)] of a byte pointer. *)
Definition align_offset (a : Z) : Z := (- a) mod alignment.

Definition align_buf (b : Buffer) : option Buffer :=
  let offset := align_offset (addr b) in
  if offset <=? zlen (bytes b)
  then Some (mkBuffer (addr b + offset) (drop (Z.to_nat offset) (bytes b)))
  else None.

Definition assert_aligned (b : Buffer) : outcome unit :=
  match bytes b with
  | [] => Ret tt
  | _ => assert_ (align_offset (addr b) =? 0)
  end.
End align.

(** ** [make_boxed] *)

(** The global allocator: it returns the new block, or [None] for null. *)
Class Allocator (W : Type) := {
  alloc : Z -> Z -> W -> option Buffer * W;
  dealloc : Buffer -> Z -> Z -> W -> W;
}.

(** [Layout::from_size_align(size, align).unwrap().pad_to_align()]: the padded
    size; a size that overflows [isize] when padded, or an alignment that is not
    a power of two, panics. *)
Definition padded_layout (size align : Z) : outcome Z :=
  let padded := (size + align - 1) / align * align in
  if (0 <? align) && (2 ^ Z.log2 align =? align) && (padded <=? isize_MAX)
  then Ret padded else Panic UnwrapFailed.

Section make_boxed.
Context {W Data : Type} `{!Allocator W} (alignment : Z).

(** A function that fills the buffer and returns the data it holds. *)
Context (fetch_data_fn : Buffer -> W -> outcome (uresult Data (option Z) * W)).

(** The empty slice is at a dangling address. *)
Definition empty_slice : Buffer := mkBuffer 1 [].

(** The size that the first call reports. *)
Definition boxed_required_size (r : uresult Data (option Z)) : outcome (uresult Z unit) :=
  match r with
  | Ok _ => let! e := error_from_status Status.UNSUPPORTED in Ret (Err e)
  | Err e =>
      match error_split e with
      | (status, Some required_size) =>
          if status =? Status.BUFFER_TOO_SMALL then Ret (Ok required_size)
          else let! e := error_from_status status in Ret (Err e)
      | (status, None) => let! e := error_from_status status in Ret (Err e)
      end
  end.

Definition make_boxed (w : W) : outcome (uresult Data unit * W) :=
  let! (r, w) := fetch_data_fn empty_slice w in
  let! required_size := boxed_required_size r in
  match required_size with
  | Err e => Ret (Err e, w)
  | Ok required_size =>
      let! layout := padded_layout required_size alignment in
      let (block, w) := alloc layout alignment w in
      match block with
      | None => let! e := error_from_status Status.OUT_OF_RESOURCES in Ret (Err e, w)
      | Some heap_buf =>
          let buffer := mkBuffer (addr heap_buf) (take (Z.to_nat required_size) (bytes heap_buf)) in
          let! (r, w) := fetch_data_fn buffer w in
          let! data := discard_errdata r in
          match data with
          | Ok data => Ret (Ok data, w)
          | Err err => Ret (Err err, dealloc heap_buf layout alignment w)
          end
      end
  end.
End make_boxed.

(** ** Properties *)

Lemma to_result_cases s : to_result s = Ret (if s =? 0 then Ok tt else Err (mkError s tt)).
Proof.
  unfold to_result, Status.is_success, error_from_status, error_new.
  change Status.SUCCESS with 0. by destruct (s =? 0).
Qed.

Lemma to_result_with_val_cases {A} s (a : A) :
  to_result_with_val s a = Ret (if s =? 0 then Ok a else Err (mkError s tt)).
Proof.
  unfold to_result_with_val, Status.is_success, error_from_status, error_new.
  change Status.SUCCESS with 0. by destruct (s =? 0).
Qed.

Lemma ERROR_BIT_value : Status.ERROR_BIT = 2 ^ 63.
Proof. reflexivity. Qed.

(** The error bit of a [usize] is set exactly in the upper half of its range. *)
Lemma error_bit_range s : is_usize s -> (Z.land s Status.ERROR_BIT =? 0) = (s <? 2 ^ 63).
Proof.
  intros [H0 H1]. change Status.ERROR_BIT with (2 ^ 63).
  assert (Z.land s (2 ^ 63) = if Z.testbit s 63 then 2 ^ 63 else 0) as ->.
  { apply Z.bits_inj'. intros n Hn. rewrite Z.land_spec, Z.pow2_bits_eqb by lia.
    destruct (Z.eqb_spec 63 n) as [<-|Hne].
    - rewrite andb_true_r. destruct (Z.testbit s 63); [|by rewrite Z.bits_0].
      by rewrite Z.pow2_bits_eqb.
    - rewrite andb_false_r. destruct (Z.testbit s 63); [|by rewrite Z.bits_0].
      rewrite Z.pow2_bits_eqb by lia. symmetry. by apply Z.eqb_neq. }
  rewrite Z.testbit_odd, Z.shiftr_div_pow2 by lia.
  destruct (Z.ltb_spec s (2 ^ 63)) as [Hlt|Hge].
  - by rewrite Z.div_small by lia.
  - replace (s / 2 ^ 63) with 1; [done|].
    apply (Z.div_unique _ _ _ (s - 2 ^ 63)); lia.
Qed.

(** Every status is exactly one of success, warning and error, and only
    success converts to [Ok]: warnings are errors of the [Result]. *)
Theorem status_classes {T D} (s : Z) (v : T) (f : Z -> D) :
  is_usize s ->
  (Status.is_success s, Status.is_warning s, Status.is_error s) ∈
    [(true, false, false); (false, true, false); (false, false, true)] /\
  (Status.is_warning s = true <-> 0 < s < 2 ^ 63) /\
  to_result_with s v f =
    if Status.is_success s then Ret (Ok v) else Ret (Err (mkError s (f s))).
Proof.
  intros Hs. unfold Status.is_success, Status.is_warning, Status.is_error, to_result_with, error_new.
  rewrite error_bit_range by done. unfold Status.is_success, Status.SUCCESS. destruct Hs as [H0 _].
  destruct (Z.eqb_spec s 0) as [->|Hne]; simpl.
  - split; [left|]. split; [|done]. split; [done|lia].
  - split; [|split; [|done]].
    + destruct (Z.ltb_spec s (2 ^ 63)); simpl; [right; left|right; right; left].
    + rewrite Z.ltb_lt. lia.
Qed.

(** *** Alignment *)

Lemma offset_up_ok `{Profile} al val :
  0 < al < 2 ^ 63 -> 0 <= val ->
  offset_up_to_alignment al val = Ret ((- val) mod al).
Proof.
  intros Ha Hv. unfold offset_up_to_alignment, usize_rem.
  rewrite (proj2 (Z.eqb_neq al 0)) by lia. cbn [negb assert_ obind].
  pose proof (Z.mod_pos_bound val al ltac:(lia)).
  destruct (Z.eqb_spec (val mod al) 0) as [E|E].
  - by rewrite Z.mod_opp_l_z by lia.
  - rewrite usize_sub_ok by lia. by rewrite Z.mod_opp_l_nz by lia.
Qed.

(** [round_up_to_alignment] returns the least multiple of the alignment that is
    not below the value, and [align_buf] the longest aligned suffix. *)
Theorem align_spec `{Profile} (al val : Z) (b : Buffer) :
  0 < al < 2 ^ 63 -> 0 <= val < 2 ^ 63 ->
  (exists r, round_up_to_alignment al val = Ret r /\ r mod al = 0 /\ val <= r < val + al) /\
  match align_buf al b with
  | Some b' => addr b' mod al = 0 /\ bytes b = take (Z.to_nat (addr b' - addr b)) (bytes b) ++ bytes b' /\
               0 <= addr b' - addr b < al
  | None => zlen (bytes b) < align_offset al (addr b)
  end.
Proof.
  intros Ha Hv.
  assert (forall x, (x + (- x) mod al) mod al = 0) as Hmod.
  { intros x. rewrite Zplus_mod_idemp_r. by rewrite Z.add_opp_diag_r, Zmod_0_l. }
  split.
  - unfold round_up_to_alignment. rewrite offset_up_ok by lia. cbn [obind].
    pose proof (Z.mod_pos_bound (- val) al ltac:(lia)).
    rewrite usize_add_ok by lia. eexists; split; [done|]. split; [apply Hmod|lia].
  - unfold align_buf, align_offset. pose proof (Z.mod_pos_bound (- addr b) al ltac:(lia)).
    destruct (Z.leb_spec ((- addr b) mod al) (zlen (bytes b))) as [Hl|Hl]; [|done]. simpl.
    rewrite Z.add_simpl_l. split; [apply Hmod|]. split; [by rewrite take_drop|done].
Qed.

(** *** Boxed data *)

(** What [make_boxed] relies on: blocks have the requested size and alignment,
    and are counted. *)
Class AllocatorLaws (W : Type) `{!Allocator W} := {
  live_blocks : W -> Z;
  alloc_spec : forall size align w,
    match alloc size align w with
    | (Some b, w') => (0 <= size -> zlen (bytes b) = size) /\ addr b mod align = 0 /\ live_blocks w' = live_blocks w + 1
    | (None, w') => live_blocks w' = live_blocks w
    end;
  dealloc_spec : forall b size align w, live_blocks (dealloc b size align w) = live_blocks w - 1;
}.

Section make_boxed_spec.
Context {W Data : Type} `{!Allocator W} `{!AllocatorLaws W} (alignment : Z)
  (fetch : Buffer -> W -> outcome (uresult Data (option Z) * W)).

(** The fetch function does not allocate. *)
Hypothesis fetch_live : forall b w r w', fetch b w = Ret (r, w') -> live_blocks w' = live_blocks w.

Lemma padded_layout_Ret size layout :
  padded_layout size alignment = Ret layout ->
  layout = (size + alignment - 1) / alignment * alignment.
Proof. unfold padded_layout. case_scrutinee; [|done]. by intros [= <-]. Qed.

Lemma make_boxed_leaks_nothing (w : W) (r : uresult Data unit) (w' : W) :
  make_boxed alignment fetch w = Ret (r, w') ->
  live_blocks w' = live_blocks w + (if is_ok r then 1 else 0).
Proof.
  intros E. unfold make_boxed in E. apply obind_Ret_inv in E as ([r0 w1] & E0 & E).
  pose proof (fetch_live _ _ _ _ E0) as L0. apply obind_Ret_inv in E as ([n|e] & En & E).
  2: { injection E as <- <-. simpl. lia. }
  apply obind_Ret_inv in E as (layout & El & E). apply padded_layout_Ret in El as ->.
  pose proof (alloc_spec ((n + alignment - 1) / alignment * alignment) alignment w1) as Ha.
  destruct (alloc _ _ w1) as [[b|] w2] eqn:Eal.
  2: { simpl in E. injection E as <- <-. rewrite Ha. simpl. lia. }
  destruct Ha as (_ & _ & L2). apply obind_Ret_inv in E as ([r1 w3] & E1 & E).
  pose proof (fetch_live _ _ _ _ E1) as L3. apply obind_Ret_inv in E as (data & Ed & E).
  destruct data as [d'|e2]; injection E as <- <-; simpl; [lia|]. rewrite dealloc_spec. lia.
Qed.

Lemma padded_layout_ok (k n : Z) :
  0 <= k -> alignment = 2 ^ k -> n + alignment <= 2 ^ 63 ->
  padded_layout n alignment = Ret ((n + alignment - 1) / alignment * alignment).
Proof.
  intros Hk -> Hn. unfold padded_layout. pose proof (Z.pow_pos_nonneg 2 k ltac:(lia) Hk).
  rewrite Z.log2_pow2, Z.eqb_refl, (proj2 (Z.ltb_lt _ _)) by lia.
  rewrite (proj2 (Z.leb_le _ _)); [done|].
  pose proof (Z.mul_div_le (n + 2 ^ k - 1) (2 ^ k) ltac:(lia)). unfold isize_MAX. lia.
Qed.

Lemma make_boxed_returns (w : W) k n w1 b w2 d w3 :
  0 <= k -> alignment = 2 ^ k -> n + alignment <= 2 ^ 63 ->
  fetch empty_slice w = Ret (Err (mkError Status.BUFFER_TOO_SMALL (Some n)), w1) ->
  alloc ((n + alignment - 1) / alignment * alignment) alignment w1 = (Some b, w2) ->
  fetch (mkBuffer (addr b) (take (Z.to_nat n) (bytes b))) w2 = Ret (Ok d, w3) ->
  make_boxed alignment fetch w = Ret (Ok d, w3).
Proof.
  intros Hk Hal Hn E1 Ea E2. unfold make_boxed. rewrite E1. cbn [obind].
  unfold boxed_required_size, error_split. cbn [err_status err_data]. rewrite Z.eqb_refl. cbn [obind].
  rewrite (padded_layout_ok k) by done. cbn [obind]. rewrite Ea, E2. done.
Qed.

(** [make_boxed] asks for the size with an empty buffer, then fetches into a
    fresh block of the padded size.  When the firmware reports a size, the
    block can be allocated and the second fetch delivers, it returns the data
    and keeps the block; and on every error the block is freed again. *)
Theorem make_boxed_spec (w : W) :
  (forall r w', make_boxed alignment fetch w = Ret (r, w') ->
    live_blocks w' = live_blocks w + (if is_ok r then 1 else 0)) /\
  (forall k n w1 b w2 d w3, 0 <= k -> alignment = 2 ^ k -> n + alignment <= 2 ^ 63 ->
    fetch empty_slice w = Ret (Err (mkError Status.BUFFER_TOO_SMALL (Some n)), w1) ->
    alloc ((n + alignment - 1) / alignment * alignment) alignment w1 = (Some b, w2) ->
    fetch (mkBuffer (addr b) (take (Z.to_nat n) (bytes b))) w2 = Ret (Ok d, w3) ->
    make_boxed alignment fetch w = Ret (Ok d, w3)).
Proof.
  split; [apply make_boxed_leaks_nothing|].
  intros k n w1 b w2 d w3 Hk Hal Hn E1 Ea E2. by eapply make_boxed_returns.
Qed.
End make_boxed_spec.

(** *** Instances *)

(** A bump allocator: the next free address and the number of live blocks. *)
Record bump : Set := mkBump { bump_next : Z; bump_live : Z }.

#[export] Instance bump_allocator : Allocator bump := {|
  alloc size align w :=
    let a := (bump_next w + align - 1) / align * align in
    (Some (mkBuffer a (replicate (Z.to_nat size) 0)), mkBump (a + size) (bump_live w + 1));
  dealloc _ _ _ w := mkBump (bump_next w) (bump_live w - 1) |}.

#[export, refine] Instance bump_laws : AllocatorLaws bump := {| live_blocks := bump_live |}.
Proof.
  - intros size align w. simpl. split; [|split; [|done]].
    + intros. unfold zlen. rewrite length_replicate. lia.
    + apply Z_mod_mult.
  - done.
Defined.

(** Firmware that holds three bytes and copies them into a large enough buffer. *)
Definition three_bytes (b : Buffer) (w : bump) : outcome (uresult (list Z) (option Z) * bump) :=
  if 3 <=? zlen (bytes b) then Ret (Ok [7; 8; 9], w)
  else Ret (Err (mkError Status.BUFFER_TOO_SMALL (Some 3)), w).

Lemma status_classes_witness :
  is_usize Status.NOT_FOUND /\
  to_result_with Status.NOT_FOUND 5 (fun s => s) =
    Ret (Err (mkError Status.NOT_FOUND Status.NOT_FOUND)).
Proof.
  split; [by_decide|]. apply (status_classes Status.NOT_FOUND 5 (fun s => s)). by_decide.
Defined.

Lemma align_spec_witness :
  exists r, round_up_to_alignment (H := release_profile) 8 13 = Ret r /\ r mod 8 = 0 /\ 13 <= r < 13 + 8.
Proof.
  apply (align_spec (H := release_profile) 8 13 (mkBuffer 4 [1; 2])); lia.
Defined.

Lemma make_boxed_spec_witness :
  make_boxed 4 three_bytes (mkBump 17 0) = Ret (Ok [7; 8; 9], mkBump 24 1).
Proof.
  eapply (make_boxed_spec 4 three_bytes) with (k := 2) (n := 3).
  - intros b w r w'. unfold three_bytes. case_scrutinee; intros [= _ <-]; done.
  - lia.
  - done.
  - lia.
  - reflexivity.
  - reflexivity.
  - reflexivity.
Defined.
