(* ===== verification/Time.v ===== *)
(** * Dates and times

    [uefi-raw/src/time.rs] and the type [Time] of [uefi/src/runtime.rs]: the
    firmware's sixteen-byte date and time, its validation and its conversion
    from bytes.  Formatting is not modelled. *)
From S2P Require Import Prelude.

(** ** [uefi_raw::time::Time] *)

Record Time : Set := mkTime {
  t_year : Z; t_month : Z; t_day : Z; t_hour : Z; t_minute : Z; t_second : Z; t_pad1 : Z;
  t_nanosecond : Z; t_time_zone : Z; t_daylight : Z; t_pad2 : Z;
}.

#[export] Instance Time_eq_dec : EqDecision Time.
Proof. solve_decision. Defined.

Definition UNSPECIFIED_TIMEZONE : Z := 0x07ff.

Module Daylight.
Definition ADJUST_DAYLIGHT : Z := 0x01.
Definition IN_DAYLIGHT : Z := 0x02.
(** [from_bits]: unknown bits are refused. *)
Definition from_bits (bits : Z) : option Z :=
  if Z.land bits (Z.lor ADJUST_DAYLIGHT IN_DAYLIGHT) =? bits then Some bits else None.
End Daylight.

Definition time_invalid : Time := mkTime 0 0 0 0 0 0 0 0 0 0 0.

(** [(a..=b).contains(&x)]. *)
Definition in_range (a b x : Z) : bool := (a <=? x) && (x <=? b).

Definition raw_is_valid (self : Time) : bool :=
  in_range 1900 9999 (t_year self) && in_range 1 12 (t_month self) && in_range 1 31 (t_day self) &&
  (t_hour self <=? 23) && (t_minute self <=? 59) && (t_second self <=? 59) &&
  (t_nanosecond self <=? 999999999) &&
  (in_range (-1440) 1440 (t_time_zone self) || (t_time_zone self =? UNSPECIFIED_TIMEZONE)).

(** [PartialEq for Time]: the padding is ignored. *)
Definition time_eq (self other : Time) : bool :=
  (t_year self =? t_year other) && (t_month self =? t_month other) && (t_day self =? t_day other) &&
  (t_hour self =? t_hour other) && (t_minute self =? t_minute other) &&
  (t_second self =? t_second other) && (t_nanosecond self =? t_nanosecond other) &&
  (t_time_zone self =? t_time_zone other) && (t_daylight self =? t_daylight other).

(** ** [uefi::runtime::Time] *)

Record TimeParams : Set := mkTimeParams {
  p_year : Z; p_month : Z; p_day : Z; p_hour : Z; p_minute : Z; p_second : Z;
  p_nanosecond : Z; p_time_zone : option Z; p_daylight : Z;
}.

Record TimeError : Set := mkTimeError {
  e_year : bool; e_month : bool; e_day : bool; e_hour : bool; e_minute : bool; e_second : bool;
  e_nanosecond : bool; e_timezone : bool; e_daylight : bool;
}.

#[export] Instance TimeError_eq_dec : EqDecision TimeError.
Proof. solve_decision. Defined.

Definition time_error_default : TimeError :=
  mkTimeError false false false false false false false false false.

Definition year (self : Time) : Z := t_year self.
Definition month (self : Time) : Z := t_month self.
Definition day (self : Time) : Z := t_day self.
Definition hour (self : Time) : Z := t_hour self.
Definition minute (self : Time) : Z := t_minute self.
Definition second (self : Time) : Z := t_second self.
Definition nanosecond (self : Time) : Z := t_nanosecond self.
Definition time_zone (self : Time) : option Z :=
  if t_time_zone self =? UNSPECIFIED_TIMEZONE then None else Some (t_time_zone self).
Definition daylight (self : Time) : Z := t_daylight self.

Definition time_is_valid (self : Time) : result unit TimeError :=
  let err := mkTimeError
    (negb (in_range 1900 9999 (year self)))
    (negb (in_range 1 12 (month self)))
    (negb (in_range 1 31 (day self)))
    (23 <? hour self)
    (59 <? minute self)
    (59 <? second self)
    (999999999 <? nanosecond self)
    (match time_zone self with Some tz => negb (in_range (-1440) 1440 tz) | None => false end)
    false in
  if bool_decide (err = time_error_default) then Ok tt else Err err.

Definition time_new (params : TimeParams) : result Time TimeError :=
  let time := mkTime (p_year params) (p_month params) (p_day params) (p_hour params)
    (p_minute params) (p_second params) 0 (p_nanosecond params)
    (default UNSPECIFIED_TIMEZONE (p_time_zone params)) (p_daylight params) 0 in
  rmap (fun _ => time) (time_is_valid time).

Inductive TimeByteConversionError : Set :=
| InvalidFields (e : TimeError)
| InvalidSize.

(** [i16::from_le_bytes]. *)
Definition i16_from_le_bytes (bs : list Z) : Z :=
  if le_val bs <? 2 ^ 15 then le_val bs else le_val bs - 2 ^ 16.

Definition size_of_Time : Z := 16.

Definition time_try_from (bytes : list Z) : outcome (result Time TimeByteConversionError) :=
  if size_of_Time <=? zlen bytes then
    let! y := slice bytes 0 2 in
    let! month := index bytes 2 in
    let! day := index bytes 3 in
    let! hour := index bytes 4 in
    let! minute := index bytes 5 in
    let! second := index bytes 6 in
    let! ns := slice bytes 8 12 in
    let! tz := slice bytes 12 14 in
    let time_zone := if i16_from_le_bytes tz =? UNSPECIFIED_TIMEZONE then None
                     else Some (i16_from_le_bytes tz) in
    let! d := index bytes 14 in
    match Daylight.from_bits d with
    | None => Ret (Err (InvalidFields (mkTimeError false false false false false false false false true)))
    | Some daylight =>
        Ret (map_err InvalidFields (time_new
          (mkTimeParams (le_val y) month day hour minute second (le_val ns) time_zone daylight)))
    end
  else Ret (Err InvalidSize).

(** ** Properties *)

(** The struct in memory. *)
Definition time_bytes (t : Time) : list Z :=
  le_bytes 2 (t_year t) ++ [t_month t; t_day t; t_hour t; t_minute t; t_second t; t_pad1 t] ++
  le_bytes 4 (t_nanosecond t) ++ le_bytes 2 (t_time_zone t mod 2 ^ 16) ++ [t_daylight t; t_pad2 t].

(** The values that fit the fields. *)
Definition time_in_width (t : Time) : Prop :=
  is_u16 (t_year t) /\ is_u8 (t_month t) /\ is_u8 (t_day t) /\ is_u8 (t_hour t) /\
  is_u8 (t_minute t) /\ is_u8 (t_second t) /\ is_u8 (t_pad1 t) /\ is_u32 (t_nanosecond t) /\
  -(2 ^ 15) <= t_time_zone t < 2 ^ 15 /\ is_u8 (t_daylight t) /\ is_u8 (t_pad2 t).

#[export] Instance time_in_width_dec t : Decision (time_in_width t).
Proof. unfold time_in_width. apply _. Defined.

(** The two validations agree. *)
Lemma is_valid_agree t : is_ok (time_is_valid t) = raw_is_valid t.
Proof.
  unfold time_is_valid, raw_is_valid, year, month, day, hour, minute, second, nanosecond.
  assert (match time_zone t with Some tz => negb (in_range (-1440) 1440 tz) | None => false end =
    negb (in_range (-1440) 1440 (t_time_zone t) || (t_time_zone t =? UNSPECIFIED_TIMEZONE))) as ->.
  { unfold time_zone. destruct (t_time_zone t =? UNSPECIFIED_TIMEZONE); by rewrite ?orb_true_r, ?orb_false_r. }
  generalize (in_range (-1440) 1440 (t_time_zone t) || (t_time_zone t =? UNSPECIFIED_TIMEZONE)) as b.
  rewrite !Z.ltb_antisym. intros b.
  destruct (in_range 1900 9999 _), (in_range 1 12 _), (in_range 1 31 _), (t_hour t <=? 23),
    (t_minute t <=? 59), (t_second t <=? 59), (t_nanosecond t <=? 999999999), b; reflexivity.
Qed.

Lemma time_is_valid_Ok t : raw_is_valid t = true -> time_is_valid t = Ok tt.
Proof. rewrite <- is_valid_agree. by destruct (time_is_valid t) as [[]|]. Qed.

Lemma i16_back z : -(2 ^ 15) <= z < 2 ^ 15 -> i16_from_le_bytes (le_bytes 2 (z mod 2 ^ 16)) = z.
Proof.
  intros Hz. unfold i16_from_le_bytes. rewrite le_val_bytes by (apply Z.mod_pos_bound; done).
  destruct (Z.lt_ge_cases z 0).
  - rewrite <- (Z.mod_unique z (2 ^ 16) (-1) (z + 2 ^ 16)) by lia.
    rewrite (proj2 (Z.ltb_ge _ _)) by lia. lia.
  - rewrite Z.mod_small by lia. by rewrite (proj2 (Z.ltb_lt _ _)) by lia.
Qed.

Lemma time_zone_default t :
  default UNSPECIFIED_TIMEZONE
    (if t_time_zone t =? UNSPECIFIED_TIMEZONE then None else Some (t_time_zone t)) = t_time_zone t.
Proof. by destruct (Z.eqb_spec (t_time_zone t) UNSPECIFIED_TIMEZONE) as [->|]. Qed.

(** Two-byte and four-byte encodings as explicit lists. *)
Lemma le_bytes_list n z : exists l, le_bytes n z = l /\ length l = n.
Proof. eexists. split; [reflexivity|]. apply length_le_bytes. Qed.

(** What [try_from] reads from the memory of a [Time]. *)
Lemma try_from_bytes t rest :
  time_in_width t ->
  time_try_from (time_bytes t ++ rest) =
  match Daylight.from_bits (t_daylight t) with
  | None => Ret (Err (InvalidFields (mkTimeError false false false false false false false false true)))
  | Some d => Ret (map_err InvalidFields (time_new
      (mkTimeParams (t_year t) (t_month t) (t_day t) (t_hour t) (t_minute t) (t_second t)
         (t_nanosecond t) (if t_time_zone t =? UNSPECIFIED_TIMEZONE then None else Some (t_time_zone t)) d)))
  end.
Proof.
  intros (Hy & _ & _ & _ & _ & _ & _ & Hns & Htz & _ & _). unfold in_width in *.
  pose proof (le_val_bytes 2 (t_year t) ltac:(simpl; lia)) as Ey.
  pose proof (le_val_bytes 4 (t_nanosecond t) ltac:(simpl; lia)) as En.
  pose proof (i16_back (t_time_zone t) Htz) as Et. unfold time_bytes.
  destruct (le_bytes_list 2 (t_year t)) as (ly & Ely & Hly).
  destruct (le_bytes_list 4 (t_nanosecond t)) as (ln & Eln & Hln).
  destruct (le_bytes_list 2 (t_time_zone t mod 2 ^ 16)) as (lt & Elt & Hlt).
  rewrite Ely, Eln, Elt in *. clear Ely Eln Elt.
  destruct ly as [|y0 [|y1 [|]]]; try done. destruct ln as [|n0 [|n1 [|n2 [|n3 [|]]]]]; try done.
  destruct lt as [|z0 [|z1 [|]]]; try done. simpl app. unfold time_try_from.
  rewrite (proj2 (Z.leb_le _ _)) by (unfold zlen, size_of_Time; simpl; lia).
  rewrite !slice_ok by (rewrite ?zlen_cons; pose proof (zlen_nonneg rest); lia).
  rewrite !(index_ok _ 2 (t_month t)), !(index_ok _ 3 (t_day t)), !(index_ok _ 4 (t_hour t)),
    !(index_ok _ 5 (t_minute t)), !(index_ok _ 6 (t_second t)), !(index_ok _ 14 (t_daylight t)) by done.
  cbn [obind]. change (take _ (drop (Z.to_nat 0) _)) with [y0; y1].
  change (take _ (drop (Z.to_nat 8) _)) with [n0; n1; n2; n3].
  change (take _ (drop (Z.to_nat 12) _)) with [z0; z1]. rewrite Ey, En, Et. done.
Qed.

Definition with_pads (t : Time) (p1 p2 : Z) : Time :=
  mkTime (t_year t) (t_month t) (t_day t) (t_hour t) (t_minute t) (t_second t) p1
    (t_nanosecond t) (t_time_zone t) (t_daylight t) p2.

Lemma daylight_from_bits_Some b d : Daylight.from_bits b = Some d -> d = b.
Proof. unfold Daylight.from_bits. case_scrutinee; congruence. Qed.

(** What [try_from] returns for the memory of any [Time]. *)
Lemma try_from_bytes_cases t rest :
  time_in_width t ->
  exists r, time_try_from (time_bytes t ++ rest) = Ret r /\
  if raw_is_valid t && bool_decide (is_Some (Daylight.from_bits (t_daylight t)))
  then r = Ok (with_pads t 0 0)
  else exists e, r = Err (InvalidFields e) /\ e <> time_error_default.
Proof.
  intros Ht. rewrite try_from_bytes by done. destruct (Daylight.from_bits _) as [d|] eqn:Ed.
  2: { eexists; split; [done|]. rewrite andb_false_r. eauto. }
  apply daylight_from_bits_Some in Ed as ->. eexists; split; [done|]. unfold time_new. cbn zeta.
  cbn [p_year p_month p_day p_hour p_minute p_second p_nanosecond p_time_zone p_daylight].
  rewrite time_zone_default, andb_true_r. change (mkTime _ _ _ _ _ _ 0 _ _ _ 0) with (with_pads t 0 0).
  change (raw_is_valid t) with (raw_is_valid (with_pads t 0 0)). rewrite <- is_valid_agree.
  unfold time_is_valid. cbn zeta. case_bool_decide; [done|]. simpl. eauto.
Qed.

Ltac all_u8 := repeat (apply Forall_cons_2; [assumption|]); apply Forall_nil_2.

(** Sixteen bytes are the memory of some [Time]. *)
Lemma bytes_are_time bytes :
  Forall is_u8 bytes -> 16 <= zlen bytes ->
  exists t rest, time_in_width t /\ bytes = time_bytes t ++ rest.
Proof.
  intros Hb Hl. unfold zlen in Hl.
  do 16 (destruct bytes as [|? bytes]; [simpl in Hl; lia|]). clear Hl.
  rewrite !Forall_cons in Hb. destruct Hb as (H0 & H1 & H2 & H3 & H4 & H5 & H6 & H7 & H8 & H9 & H10 & H11 & H12 & H13 & H14 & H15 & _).
  exists (mkTime (le_val [z; z0]) z1 z2 z3 z4 z5 z6 (le_val [z7; z8; z9; z10])
    (i16_from_le_bytes [z11; z12]) z13 z14), bytes.
  unfold time_in_width, time_bytes. cbn [t_year t_month t_day t_hour t_minute t_second t_pad1 t_nanosecond t_time_zone t_daylight t_pad2].
  assert (le_bytes 2 (le_val [z; z0]) = [z; z0]) as Hy by (apply (le_bytes_val [_; _]); all_u8).
  assert (le_bytes 4 (le_val [z7; z8; z9; z10]) = [z7; z8; z9; z10]) as Hn
    by (apply (le_bytes_val [_; _; _; _]); all_u8).
  assert (le_bytes 2 (le_val [z11; z12]) = [z11; z12]) as Hz by (apply (le_bytes_val [_; _]); all_u8).
  pose proof (le_val_bound [z; z0] ltac:(all_u8)) as By.
  pose proof (le_val_bound [z7; z8; z9; z10] ltac:(all_u8)) as Bn.
  pose proof (le_val_bound [z11; z12] ltac:(all_u8)) as Bz.
  assert (i16_from_le_bytes [z11; z12] mod 2 ^ 16 = le_val [z11; z12] /\
    -(2 ^ 15) <= i16_from_le_bytes [z11; z12] < 2 ^ 15) as [Ez Rz].
  { unfold i16_from_le_bytes. destruct (Z.ltb_spec (le_val [z11; z12]) (2 ^ 15)); cbn [length] in Bz.
    - rewrite Z.mod_small by lia. lia.
    - split; [|lia]. symmetry. apply (Z.mod_unique _ _ (-1)); lia. }
  split.
  - cbn [length] in By, Bn. unfold in_width in *. repeat split; try apply Rz; try lia.
  - rewrite Ez, Hy, Hn, Hz. done.
Qed.

(** Converting bytes into a [Time] fails for short input, reports the fields
    that are out of range, and otherwise gives the valid time whose memory the
    bytes are, up to padding; in particular the memory of every valid time with
    known daylight bits converts back to it. *)
Theorem time_try_from_spec (bytes : list Z) :
  Forall is_u8 bytes ->
  exists r, time_try_from bytes = Ret r /\
  match r with
  | Ok t => raw_is_valid t = true /\ is_Some (Daylight.from_bits (t_daylight t)) /\
      exists p1 p2 rest, t = with_pads t 0 0 /\ bytes = time_bytes (with_pads t p1 p2) ++ rest
  | Err InvalidSize => zlen bytes < size_of_Time
  | Err (InvalidFields e) => size_of_Time <= zlen bytes /\ e <> time_error_default /\
      exists t rest, bytes = time_bytes t ++ rest /\
        (raw_is_valid t = false \/ Daylight.from_bits (t_daylight t) = None)
  end.
Proof.
  intros Hb. destruct (Z.leb_spec 16 (zlen bytes)) as [Hl|Hl].
  2: { exists (Err InvalidSize). split; [|done]. unfold time_try_from.
       by rewrite (proj2 (Z.leb_gt _ _)). }
  destruct (bytes_are_time bytes Hb Hl) as (t & rest & Ht & ->).
  destruct (try_from_bytes_cases t rest Ht) as (r & E & Hr). exists r. split; [done|].
  destruct (raw_is_valid t) eqn:Hv; cbn [andb] in Hr.
  - case_bool_decide as Hd.
    + subst r. split; [done|]. split; [done|]. exists (t_pad1 t), (t_pad2 t), rest. split; [done|]. by destruct t.
    + destruct Hr as (e & -> & He). do 2 (split; [done|]). exists t, rest. split; [done|]. right.
      by apply eq_None_not_Some.
  - destruct Hr as (e & -> & He). do 2 (split; [done|]). exists t, rest. auto.
Qed.

Lemma time_try_from_spec_witness :
  exists r, time_try_from (time_bytes (mkTime 2023 5 18 11 29 57 0 123456789 (-90) 3 0)) = Ret r /\ is_ok r = true.
Proof.
  destruct (time_try_from_spec (time_bytes (mkTime 2023 5 18 11 29 57 0 123456789 (-90) 3 0))) as (r & E & _).
  { by_decide. }
  exists r. split; [exact E|]. vm_compute in E. injection E as <-. reflexivity.
Defined.
