(* ===== verification/BootMemory.v ===== *)
(** * Memory services and the allocator

    The memory functions of [uefi/src/boot.rs], [MemoryMapBackingMemory] of
    [uefi/src/mem/memory_map/impl_.rs] and the global allocator of
    [uefi/src/allocator.rs], over the firmware's boot services. *)
From stdpp Require Import gmap.
From S2P Require Import Prelude Firmware Status MemoryMap MemoryMapSort.

(** ** The firmware's boot services *)

(** [peek] and [poke] are the machine's memory, read and written a pointer at a
    time; [contents] are the bytes at an address and [memory_type_cell] is the
    static [MEMORY_TYPE] of the allocator.  [efi_get_memory_map] is given
    the size of the buffer and returns the status, the map's size, key,
    descriptor size and version, and the bytes it stored in the buffer. *)
Class BootServices (W : Type) : Type := {
  boot_active : W -> bool;
  efi_allocate_pages : Z -> Z -> Z -> Z -> W -> (Z * Z) * W;
  efi_free_pages : Z -> Z -> W -> Z * W;
  efi_allocate_pool : Z -> Z -> W -> (Z * Z) * W;
  efi_free_pool : Z -> W -> Z * W;
  efi_get_memory_map : Z -> W -> (Z * MemoryMapMeta * list Z) * W;
  peek : Z -> W -> Z;
  poke : Z -> Z -> W -> W;
  contents : Z -> Z -> W -> list Z;
  memory_type_cell : W -> Z;
  set_memory_type_cell : Z -> W -> W;
}.

Definition PAGE_SIZE : Z := 4096.
Definition MemoryType_RESERVED : Z := 0.
Definition MemoryType_LOADER_DATA : Z := 2.

Inductive AllocateType : Set := AnyPages | MaxAddress (addr : Z) | Address (addr : Z).

Module RawAllocateType.
Definition ANY_PAGES : Z := 0.
Definition MAX_ADDRESS : Z := 1.
Definition ADDRESS : Z := 2.
End RawAllocateType.

Section boot.
Context `{Profile} {W : Type} `{!BootServices W}.

(** [boot_services_raw_panicking]. *)
Definition boot_services_raw_panicking : fw W unit := fun w =>
  if boot_active w then Ret (tt, w) else Panic UnwrapFailed.

Definition are_boot_services_active : fw W bool := fun w => Ret (boot_active w, w).

(** [NonNull::new(ptr).ok_or(OUT_OF_RESOURCES)]. *)
Definition nonnull (ptr : Z) : outcome (uresult Z unit) :=
  if ptr =? 0 then let! e := error_from_status Status.OUT_OF_RESOURCES in Ret (Err e)
  else Ret (Ok ptr).

(** An allocation at address zero is exchanged for a second one. *)
Definition allocate_pages (allocation_type : AllocateType) (memory_type count : Z)
  : fw W (uresult Z unit) :=
  boot_services_raw_panicking;;
  let (ty, initial_addr) := match allocation_type with
    | AnyPages => (RawAllocateType.ANY_PAGES, 0)
    | MaxAddress addr => (RawAllocateType.MAX_ADDRESS, addr)
    | Address addr => (RawAllocateType.ADDRESS, addr)
    end in
  '(s1, addr1) ← call (efi_allocate_pages ty memory_type count initial_addr);
  try _ <- lift (to_result s1);
  if negb (addr1 =? 0) then mret (Ok addr1)
  else
    '(s2, addr2) ← call (efi_allocate_pages ty memory_type count initial_addr);
    r ← lift (to_result s2);
    _ ← call (efi_free_pages addr1 count);
    try _ <- mret r;
    lift (nonnull addr2).

Definition free_pages (ptr count : Z) : fw W (uresult unit unit) :=
  boot_services_raw_panicking;;
  s ← call (efi_free_pages ptr count);
  lift (to_result s).

Definition allocate_pool (memory_type size : Z) : fw W (uresult Z unit) :=
  boot_services_raw_panicking;;
  '(s, buffer) ← call (efi_allocate_pool memory_type size);
  try ptr <- lift (to_result_with_val s buffer);
  lift (nonnull ptr).

Definition free_pool (ptr : Z) : fw W (uresult unit unit) :=
  boot_services_raw_panicking;;
  s ← call (efi_free_pool ptr);
  lift (to_result s).

(** ** The memory map *)

Definition memory_map_size : fw W MemoryMapMeta :=
  boot_services_raw_panicking;;
  '(status, mmm, _) ← call (efi_get_memory_map 0);
  lift (assert_ (status =? Status.BUFFER_TOO_SMALL));;
  r ← lift (usize_rem (map_size mmm) (desc_size mmm));
  lift (assert_ (r =? 0));;
  lift (assert_sanity_checks mmm);;
  mret mmm.

(** The result and the buffer. *)
Definition get_memory_map (buf : Buffer) : fw W (uresult MemoryMapMeta unit * Buffer) :=
  boot_services_raw_panicking;;
  lift (assert_ (addr buf mod align_of_MemoryDescriptor =? 0));;
  '(status, mmm, out) ← call (efi_get_memory_map (zlen (bytes buf)));
  m ← lift (write_raw (bytes buf) 0 out);
  r ← lift (to_result_with_val status mmm);
  mret (r, mkBuffer (addr buf) m).

(** [MemoryMapBackingMemory::new]. *)
Definition backing_new (memory_type : Z) : fw W (uresult Buffer unit) :=
  memory_map_meta ← memory_map_size;
  len ← lift (MemoryMapBackingMemory.safe_allocation_size_hint memory_map_meta);
  try ptr <- allocate_pool memory_type len;
  lift (assert_ (ptr mod align_of_MemoryDescriptor =? 0));;
  r ← lift (usize_rem (map_size memory_map_meta) (desc_size memory_map_meta));
  lift (assert_ (r =? 0));;
  b ← ((fun w => lift (MemoryMapBackingMemory.from_raw ptr (contents ptr len w)) w) : fw W Buffer);
  mret (Ok b).

(** [Drop for MemoryMapBackingMemory]: a failure to free is only logged. *)
Definition backing_drop (b : Buffer) : fw W unit :=
  active ← are_boot_services_active;
  if active : bool then _ ← free_pool (addr b); mret tt else mret tt.

Definition memory_map (mt : Z) : fw W (uresult MemoryMapOwned.t unit) :=
  try buffer <- backing_new mt;
  '(meta, buffer) ← get_memory_map buffer;
  match meta with
  | Err e =>
      if err_status e =? Status.BUFFER_TOO_SMALL then lift (Panic Explicit)
      else backing_drop buffer;; mret (Err e)
  | Ok meta =>
      m ← lift (MemoryMapOwned.from_initialized_mem buffer meta);
      mret (Ok m)
  end.

(** ** The global allocator *)

Record Layout : Set := mkLayout { l_size : Z; l_align : Z }.

Definition layout_allows_page_alloc_shortcut (layout : Layout) : bool :=
  (l_size layout mod PAGE_SIZE =? 0) && (l_align layout =? PAGE_SIZE).

(** [usize::div_ceil]. *)
Definition div_ceil (a b : Z) : Z := (a + b - 1) / b.

(** The aligned address inside a larger allocation; the address of the
    allocation is stored in the eight bytes before it. *)
Definition alloc_pool_aligned (memory_type size align : Z) : fw W Z :=
  n ← lift (usize_add size align);
  full_alloc_ptr ← allocate_pool memory_type n;
  match full_alloc_ptr with
  | Err _ => mret 0
  | Ok full_alloc_ptr =>
      let offset := align_offset align full_alloc_ptr in
      let offset := if offset =? 0 then align else offset in
      let aligned_ptr := full_alloc_ptr + offset in
      call (fun w => (tt, poke (aligned_ptr - 8) full_alloc_ptr w));;
      mret aligned_ptr
  end.

(** The memory type of the loaded image's data, through its protocol. *)
Context (image_data_type : fw W (uresult Z unit)).

(** The loaded image is asked once and the answer is cached. *)
Definition get_memory_type : fw W Z :=
  memory_type ← call (fun w => (memory_type_cell w, w));
  if memory_type =? MemoryType_RESERVED then
    r ← image_data_type;
    let memory_type := match r with Ok t => t | Err _ => MemoryType_LOADER_DATA end in
    call (fun w => (tt, set_memory_type_cell memory_type w));;
    mret memory_type
  else mret memory_type.

Definition alloc (layout : Layout) : fw W Z :=
  active ← are_boot_services_active;
  if negb active then mret 0
  else
    memory_type ← get_memory_type;
    if layout_allows_page_alloc_shortcut layout then
      let count := div_ceil (l_size layout) PAGE_SIZE in
      r ← allocate_pages AnyPages memory_type count;
      mret (match r with Ok ptr => ptr | Err _ => 0 end)
    else if l_align layout <=? 8 then
      r ← allocate_pool memory_type (l_size layout);
      mret (match r with Ok ptr => ptr | Err _ => 0 end)
    else alloc_pool_aligned memory_type (l_size layout) (l_align layout).

(** [.unwrap()] of a result. *)
Definition unwrap_result {A} (r : uresult A unit) : outcome A :=
  match r with Ok a => Ret a | Err _ => Panic UnwrapFailed end.

Definition dealloc (ptr : Z) (layout : Layout) : fw W unit :=
  lift (if ptr =? 0 then Panic UnwrapFailed else Ret tt);;
  if layout_allows_page_alloc_shortcut layout then
    let count := div_ceil (l_size layout) PAGE_SIZE in
    r ← free_pages ptr count;
    lift (unwrap_result r)
  else if l_align layout <=? 8 then
    r ← free_pool ptr;
    lift (unwrap_result r)
  else
    actual_alloc_ptr ← call (fun w => (peek (ptr - 8) w, w));
    lift (if actual_alloc_ptr =? 0 then Panic UnwrapFailed else Ret tt);;
    r ← free_pool actual_alloc_ptr;
    lift (unwrap_result r).
End boot.

(** ** Properties

    A block of memory that the firmware handed out. *)
Inductive block : Set := Pages (a count : Z) | Pool (a size : Z).

#[export] Instance block_eq_dec : EqDecision block.
Proof. solve_decision. Defined.

(** The blocks that are allocated in a state. *)
Class Blocks (W : Type) : Type := live : W -> block -> Prop.

Definition block_start (b : block) : Z := match b with Pages a _ | Pool a _ => a end.
Definition block_end (b : block) : Z :=
  match b with Pages a n => a + n * PAGE_SIZE | Pool a n => a + n end.

Section changes.
Context {W : Type} `{!BootServices W, !Blocks W}.

Definition same_blocks (w w' : W) : Prop := keeps live w w' /\ boot_active w' = boot_active w.
Definition adds (b : block) (w w' : W) : Prop := acquires live b w w' /\ boot_active w' = boot_active w.
Definition drops (b : block) (w w' : W) : Prop := releases live b w w' /\ boot_active w' = boot_active w.

Definition disjoint_blocks (b c : block) : Prop :=
  block_end b <= block_start c \/ block_end c <= block_start b.

(** A new block lies in the address space, aligned and apart from the blocks in
    use. *)
Definition fresh_block (b : block) (w : W) : Prop :=
  0 <= block_start b /\ block_end b <= 2 ^ 64 /\ (forall c, live w c -> disjoint_blocks b c) /\
  match b with
  | Pages a _ => a mod PAGE_SIZE = 0
  | Pool a _ => a <> 0 /\ a mod 8 = 0
  end.
End changes.

(** What the specification documents of the memory services: pool allocations
    are eight-byte aligned and not null, pages are page-aligned, memory in use is not handed
    out again, a failing allocation allocates nothing, what is allocated can be
    freed, and memory holds what was stored. *)
Class MemoryLaws (W : Type) `{!BootServices W, !Blocks W} : Prop := {
  pages_ok : forall ty mt n a w p w', 0 < n -> efi_allocate_pages ty mt n a w = ((0, p), w') ->
    fresh_block (Pages p n) w /\ adds (Pages p n) w w';
  pages_fail : forall ty mt n a w s p w', efi_allocate_pages ty mt n a w = ((s, p), w') ->
    s <> 0 -> same_blocks w w';
  pages_free : forall a n w, live w (Pages a n) ->
    exists w', efi_free_pages a n w = (0, w') /\ drops (Pages a n) w w';
  pool_ok : forall mt n w p w', 0 <= n -> efi_allocate_pool mt n w = ((0, p), w') ->
    fresh_block (Pool p n) w /\ adds (Pool p n) w w';
  pool_fail : forall mt n w s p w', efi_allocate_pool mt n w = ((s, p), w') ->
    s <> 0 -> same_blocks w w';
  pool_free : forall a n w, live w (Pool a n) ->
    exists w', efi_free_pool a w = (0, w') /\ drops (Pool a n) w w';
  peek_poke : forall a v w, peek a (poke a v w) = v;
  poke_blocks : forall a v w, same_blocks w (poke a v w);
  cell_blocks : forall t w, same_blocks w (set_memory_type_cell t w);
}.

Section memory_properties.
Context `{Profile} {W : Type} `{!BootServices W, !Blocks W}.

Lemma adds_same b w w1 w2 : adds b w w1 -> same_blocks w1 w2 -> adds b w w2.
Proof. intros [A Ha] [K Hk]. split; [by rewrite <- K|congruence]. Qed.

Lemma same_adds b w w1 w2 : same_blocks w w1 -> adds b w1 w2 -> adds b w w2.
Proof. intros [K Hk] [A Ha]. split; [by rewrite K|congruence]. Qed.

Lemma same_trans w w1 w2 : same_blocks w w1 -> same_blocks w1 w2 -> same_blocks w w2.
Proof. intros [K1 H1] [K2 H2]. split; [by etrans|congruence]. Qed.

Lemma adds_drops b w w1 w2 : adds b w w1 -> drops b w1 w2 -> same_blocks w w2.
Proof. intros [A Ha] [D Hd]. split; [by eapply acquires_releases|congruence]. Qed.

Lemma adds_adds_drops b c w w1 w2 w3 :
  b <> c -> adds b w w1 -> adds c w1 w2 -> drops b w2 w3 -> adds c w w3.
Proof. intros Hbc [A1 H1] [A2 H2] [D H3]. split; [by eapply acquires_acquires_releases|congruence]. Qed.

Lemma fresh_same b w w' : same_blocks w w' -> fresh_block b w' -> fresh_block b w.
Proof. unfold same_blocks, keeps, fresh_block. intros [Hs _]. destruct b; naive_solver. Qed.

Lemma boot_run {A} (k : unit -> fw W A) w :
  boot_active w = true -> (boot_services_raw_panicking ≫= k) w = k tt w.
Proof. unfold mbind, fw_bind, boot_services_raw_panicking. by intros ->. Qed.

Context `{!MemoryLaws W}.

(** [allocate_pages] never returns the null pointer, and the block that it
    returns is the only one that is allocated when it is done, also when the
    firmware first hands out the pages at address zero and when the second
    attempt fails. *)
Definition alloc_post (kind : Z -> block) (w : W) (r : uresult Z unit) (w' : W) : Prop :=
  match r with
  | Ok p => p <> 0 /\ fresh_block (kind p) w /\ adds (kind p) w w'
  | Err _ => same_blocks w w'
  end.

Lemma allocate_pages_runs (at_ : AllocateType) (mt count : Z) (w : W) :
  boot_active w = true -> 0 < count ->
  exists r w', allocate_pages at_ mt count w = Ret (r, w') /\
    alloc_post (fun p => Pages p count) w r w'.
Proof.
  intros Hact Hc. unfold allocate_pages. rewrite boot_run by done.
  set (tya := match at_ with AnyPages => _ | MaxAddress _ => _ | Address _ => _ end).
  destruct tya as [ty a]. rewrite fw_bind_call.
  destruct (efi_allocate_pages ty mt count a w) as [[s1 a1] w1] eqn:E1. cbn [fst snd].
  rewrite to_result_cases. erewrite fw_try_Ret by done.
  destruct (Z.eqb_spec s1 0) as [->|Hs1]; [|do 2 eexists; split; [done|]; by eapply pages_fail].
  destruct (pages_ok _ _ _ _ _ _ _ Hc E1) as [F1 A1].
  destruct (Z.eqb_spec a1 0) as [->|Ha1]; cbn [negb]; [|do 2 eexists; split; [done|split; auto]].
  rewrite fw_bind_call. destruct (efi_allocate_pages ty mt count a w1) as [[s2 a2] w2] eqn:E2.
  cbn [fst snd]. rewrite to_result_cases, fw_bind_lift, fw_bind_call.
  destruct (Z.eqb_spec s2 0) as [->|Hs2].
  - destruct (pages_ok _ _ _ _ _ _ _ Hc E2) as [F2 A2].
    destruct (pages_free 0 count w2) as (w3 & -> & D3); [by apply A2; left; apply A1; right|].
    cbn [fst snd]. erewrite fw_try_Ret by done.
    assert (a2 <> 0) as Ha2.
    { intros ->. destruct F2 as (_ & _ & F2 & _). destruct (F2 (Pages 0 count)) as [Hd|Hd];
        [by apply A1; right| |]; cbn [block_start block_end] in Hd; unfold PAGE_SIZE in Hd; lia. }
    unfold nonnull. rewrite (proj2 (Z.eqb_neq _ _)) by done.
    do 2 eexists; split; [done|]. split; [done|]. split; [|eapply adds_adds_drops; eauto; congruence].
    destruct F2 as (? & ? & F2 & ?). repeat split; auto. intros c Hc0. apply F2, A1. by left.
  - pose proof (pages_fail _ _ _ _ _ _ _ _ E2 Hs2) as S2.
    destruct (pages_free 0 count w2) as (w3 & -> & D3); [by apply S2, A1; right|].
    cbn [fst snd]. erewrite fw_try_Ret by done.
    do 2 eexists; split; [done|]. eapply adds_drops; [by eapply adds_same|done].
Qed.

Lemma allocate_pool_runs (mt size : Z) (w : W) :
  boot_active w = true -> 0 <= size ->
  exists r w', allocate_pool mt size w = Ret (r, w') /\ alloc_post (fun p => Pool p size) w r w'.
Proof.
  intros Hact Hs. unfold allocate_pool. rewrite boot_run by done. rewrite fw_bind_call.
  destruct (efi_allocate_pool mt size w) as [[s p] w1] eqn:E1. cbn [fst snd].
  rewrite to_result_with_val_cases. erewrite fw_try_Ret by done.
  destruct (Z.eqb_spec s 0) as [->|Hs1].
  2: { do 2 eexists; split; [done|]. by eapply pool_fail. }
  destruct (pool_ok _ _ _ _ _ Hs E1) as [F1 A1]. assert (p <> 0) as Hp by apply F1.
  unfold nonnull. rewrite (proj2 (Z.eqb_neq _ _)) by done. do 2 eexists; split; [done|]. by split.
Qed.

Lemma free_pool_runs p n w :
  boot_active w = true -> live w (Pool p n) ->
  exists w', free_pool p w = Ret (Ok tt, w') /\ drops (Pool p n) w w'.
Proof.
  intros Hact (w' & E & D)%pool_free. exists w'. split; [|done]. unfold free_pool.
  rewrite boot_run, fw_bind_call, E by done. cbn [fst snd]. by rewrite to_result_cases.
Qed.

Lemma free_pages_runs p n w :
  boot_active w = true -> live w (Pages p n) ->
  exists w', free_pages p n w = Ret (Ok tt, w') /\ drops (Pages p n) w w'.
Proof.
  intros Hact (w' & E & D)%pages_free. exists w'. split; [|done]. unfold free_pages.
  rewrite boot_run, fw_bind_call, E by done. cbn [fst snd]. by rewrite to_result_cases.
Qed.

(** ** The allocator *)

(** A layout as [Layout::from_size_align] admits it; the allocator's contract
    rules out the size zero. *)
Definition layout_ok (l : Layout) : Prop :=
  0 < l_size l /\ (exists k, 0 <= k < 63 /\ l_align l = 2 ^ k) /\ l_size l + l_align l - 1 <= isize_MAX.

(** The block behind an allocation at [p]. *)
Definition backing (l : Layout) (p : Z) (w : W) : block :=
  if layout_allows_page_alloc_shortcut l then Pages p (div_ceil (l_size l) PAGE_SIZE)
  else if l_align l <=? 8 then Pool p (l_size l)
  else Pool (peek (p - 8) w) (l_size l + l_align l).

(** The bytes that an allocation uses: those it hands out, and the pointer
    before them. *)
Definition used_from (l : Layout) (p : Z) : Z :=
  if layout_allows_page_alloc_shortcut l || (l_align l <=? 8) then p else p - 8.

(** The result of an allocation: null and nothing allocated, or an aligned
    address in a block of its own that holds all the bytes in use. *)
Definition alloc_result (l : Layout) (w : W) (p : Z) (w' : W) : Prop :=
  if p =? 0 then same_blocks w w'
  else let b := backing l p w' in
    adds b w w' /\ fresh_block b w /\ p mod l_align l = 0 /\
    block_start b <= used_from l p /\ p + l_size l <= block_end b.

Lemma aligned_offset_cases (k a : Z) :
  3 < k -> a mod 8 = 0 ->
  let o := align_offset (2 ^ k) a in
  let o := if o =? 0 then 2 ^ k else o in 8 <= o <= 2 ^ k /\ (a + o) mod 2 ^ k = 0.
Proof.
  intros Hk Ha. cbn zeta. unfold align_offset.
  assert (2 ^ k = 8 * 2 ^ (k - 3)) as Hp by (change 8 with (2 ^ 3); rewrite <- Z.pow_add_r by lia; f_equal; lia).
  pose proof (Z.pow_pos_nonneg 2 (k - 3) ltac:(lia) ltac:(lia)).
  pose proof (Z.mod_pos_bound (- a) (2 ^ k) ltac:(lia)) as Hb.
  assert (((- a) mod 2 ^ k) mod 8 = 0) as H8.
  { rewrite Hp, <- Znumtheory.Zmod_div_mod; [|lia|lia|by exists (2 ^ (k - 3)); lia].
    by apply Z_mod_zero_opp_full. }
  destruct (Z.eqb_spec ((- a) mod 2 ^ k) 0) as [E|E].
  - split; [lia|]. apply Z_mod_zero_opp_full in E. rewrite Z.opp_involutive in E.
    rewrite Z.add_mod, E, Z_mod_same_full by lia. done.
  - split; [|by rewrite Zplus_mod_idemp_r, Z.add_opp_diag_r, Zmod_0_l].
    apply Z.mod_divide in H8 as [q Hq]; [|done]. lia.
Qed.

(** One block on the direct branches of [alloc]: [kind p] is the backing block. *)
Lemma alloc_post_result l kind w r w' :
  alloc_post kind w r w' ->
  (forall p, backing l p w' = kind p /\ used_from l p = p /\ block_start (kind p) = p) ->
  (forall p, fresh_block (kind p) w -> p mod l_align l = 0 /\ p + l_size l <= block_end (kind p)) ->
  alloc_result l w (match r with Ok p => p | Err _ => 0 end) w'.
Proof.
  intros Hpost Hb Hf. unfold alloc_result. destruct r as [p|e]; [|exact Hpost].
  destruct Hpost as (Hp & F & A). rewrite (proj2 (Z.eqb_neq _ _)) by done. cbn zeta.
  destruct (Hb p) as (-> & -> & ->). destruct (Hf p F). auto with lia.
Qed.

Lemma alloc_pool_aligned_runs mt l w :
  boot_active w = true -> layout_ok l ->
  layout_allows_page_alloc_shortcut l = false -> (l_align l <=? 8) = false ->
  exists p w', alloc_pool_aligned mt (l_size l) (l_align l) w = Ret (p, w') /\ alloc_result l w p w'.
Proof.
  intros Hact (Hs & (k & Hk & Hal) & Hmax) Hsc H8. unfold alloc_pool_aligned, isize_MAX in *.
  pose proof (proj1 (Z.leb_gt _ _) H8) as Hgt.
  assert (3 < k) as Hk3.
  { apply Z.nle_gt. intros Hle. pose proof (Z.pow_le_mono_r 2 k 3 ltac:(lia) Hle). lia. }
  rewrite usize_add_ok by (unfold in_width; lia). rewrite fw_bind_lift.
  destruct (allocate_pool_runs mt (l_size l + l_align l) w) as (r & w1 & E & Hpost); [done|lia|].
  erewrite fw_bind_Ret by done. destruct r as [a|e]; [|by do 2 eexists].
  destruct Hpost as (Ha & F & A). pose proof F as (F0 & Fe & _ & _ & Fm). cbn [block_start block_end] in F0, Fe.
  destruct (aligned_offset_cases k a Hk3 Fm) as [Ho Hm]. rewrite <- Hal in Ho, Hm.
  set (o := if align_offset (l_align l) a =? 0 then l_align l else align_offset (l_align l) a) in *.
  do 2 eexists; split; [done|]. unfold alloc_result, used_from. rewrite (proj2 (Z.eqb_neq _ _)) by lia.
  cbn zeta. unfold backing. rewrite Hsc, H8. cbn [orb snd]. rewrite peek_poke. cbn [block_start block_end].
  split; [by eapply adds_same, poke_blocks|]. auto with lia.
Qed.

(** Asking for the loaded image, which the allocator does the first time. *)
Context (image_data_type : fw W (uresult Z unit)).

Lemma get_memory_type_runs w :
  runs image_data_type w (fun _ w' => same_blocks w w') ->
  runs (get_memory_type image_data_type) w (fun _ w' => same_blocks w w').
Proof.
  intros Himg. unfold get_memory_type. repeat runs_step. cbn [fst snd].
  destruct (memory_type_cell w =? MemoryType_RESERVED); [|by repeat runs_step].
  runs_step. eapply runs_weaken; [exact Himg|]. intros r w1 S1. repeat runs_step.
  eapply same_trans, cell_blocks. done.
Qed.

Lemma alloc_result_same l w w1 p w' :
  same_blocks w w1 -> alloc_result l w1 p w' -> alloc_result l w p w'.
Proof.
  unfold alloc_result. intros Hs. destruct (p =? 0); [by apply same_trans|].
  intros (A & F & Hr). split; [by eapply same_adds|]. split; [by eapply fresh_same|done].
Qed.

Lemma page_bytes size : size mod PAGE_SIZE = 0 -> div_ceil size PAGE_SIZE * PAGE_SIZE = size.
Proof.
  unfold div_ceil, PAGE_SIZE. intros [q ->]%Z.mod_divide; [|done]. f_equal.
  symmetry. apply Z.div_unique with 4095; lia.
Qed.

Lemma small_align_divides k a : 0 <= k -> 2 ^ k <= 8 -> a mod 8 = 0 -> a mod 2 ^ k = 0.
Proof.
  intros Hk H8 Ha. assert (k <= 3) as Hk3 by (apply (Z.pow_le_mono_r_iff 2); lia).
  apply Z.mod_divide; [lia|]. apply Z.mod_divide in Ha; [|done]. etrans; [|exact Ha].
  exists (2 ^ (3 - k)). rewrite <- Z.pow_add_r by lia. by replace (3 - k + k) with 3 by lia.
Qed.

(** Every allocation returns: either null, and nothing is allocated, or an
    address of the requested alignment in a block of its own, which contains
    the requested bytes and the pointer stored before them. *)
Lemma alloc_runs l w :
  boot_active w = true -> layout_ok l -> runs image_data_type w (fun _ w' => same_blocks w w') ->
  exists p w', alloc image_data_type l w = Ret (p, w') /\ alloc_result l w p w'.
Proof.
  intros Hact Hl Himg. unfold alloc, are_boot_services_active. rewrite (fw_bind_Ret _ _ w true w) by by rewrite Hact.
  cbn [negb]. destruct (get_memory_type_runs w Himg) as (mt & w1 & E & S1). erewrite fw_bind_Ret by done.
  assert (boot_active w1 = true) as Hact1 by (by rewrite (proj2 S1)).
  pose proof Hl as (Hs & (k & Hk & Hal) & Hmax).
  destruct (layout_allows_page_alloc_shortcut l) eqn:Hsc; [|destruct (l_align l <=? 8) eqn:H8].
  - pose proof Hsc as [Hm%Z.eqb_eq Ha%Z.eqb_eq]%andb_true_iff. pose proof (page_bytes _ Hm).
    destruct (allocate_pages_runs AnyPages mt (div_ceil (l_size l) PAGE_SIZE) w1) as (r & w2 & E2 & Hp);
      [done|unfold PAGE_SIZE in *; lia|].
    erewrite fw_bind_Ret by done. do 2 eexists; split; [done|]. eapply alloc_result_same; [done|].
    eapply alloc_post_result; [exact Hp| |].
    + intros p. unfold backing, used_from. by rewrite Hsc.
    + intros p (_ & _ & _ & Hpm). rewrite Ha. cbn [block_end]. auto with lia.
  - destruct (allocate_pool_runs mt (l_size l) w1) as (r & w2 & E2 & Hp); [done|lia|].
    erewrite fw_bind_Ret by done. do 2 eexists; split; [done|]. eapply alloc_result_same; [done|].
    eapply alloc_post_result; [exact Hp| |].
    + intros p. unfold backing, used_from. by rewrite Hsc, H8.
    + intros p (_ & _ & _ & _ & Hpm). rewrite Hal. cbn [block_end]. split; [|lia].
      apply small_align_divides; [lia| |done]. apply Z.leb_le in H8. lia.
  - destruct (alloc_pool_aligned_runs mt l w1) as (p & w2 & E2 & Hp); [done..|].
    do 2 eexists; split; [done|]. by eapply alloc_result_same.
Qed.

Lemma dealloc_runs l w p :
  boot_active w = true -> p <> 0 -> live w (backing l p w) -> block_start (backing l p w) <> 0 ->
  exists w', dealloc p l w = Ret (tt, w') /\ drops (backing l p w) w w'.
Proof.
  intros Hact Hp Hlive Hb. unfold dealloc. rewrite (proj2 (Z.eqb_neq _ _)), fw_bind_lift by done.
  unfold backing in *. destruct (layout_allows_page_alloc_shortcut l); [|destruct (l_align l <=? 8)].
  - destruct (free_pages_runs _ _ _ Hact Hlive) as (w' & E & D). erewrite fw_bind_Ret by done. by eexists.
  - destruct (free_pool_runs _ _ _ Hact Hlive) as (w' & E & D). erewrite fw_bind_Ret by done. by eexists.
  - rewrite fw_bind_call. cbn [fst snd block_start] in *. rewrite (proj2 (Z.eqb_neq _ _)), fw_bind_lift by done.
    destruct (free_pool_runs _ _ _ Hact Hlive) as (w' & E & D). erewrite fw_bind_Ret by done. by eexists.
Qed.

(** In every later state that still has the block and the pointer before the
    allocation, freeing the address frees exactly this block. *)
Lemma dealloc_after_alloc l w p w' w1 :
  alloc_result l w p w' -> p <> 0 -> boot_active w1 = true -> live w1 (backing l p w') ->
  peek (p - 8) w1 = peek (p - 8) w' ->
  exists w2, dealloc p l w1 = Ret (tt, w2) /\ drops (backing l p w') w1 w2.
Proof.
  intros Hr Hp Hact1 Hlive Hpeek.
  assert (backing l p w' = backing l p w1) as Hb by (unfold backing; by rewrite Hpeek).
  unfold alloc_result in Hr. rewrite (proj2 (Z.eqb_neq _ _)) in Hr by done. destruct Hr as (_ & F & _).
  rewrite Hb in *. apply dealloc_runs; try done.
  unfold backing, fresh_block in *. repeat case_match; cbn [block_start]; naive_solver.
Qed.
End memory_properties.

(** ** The memory map is retrieved *)

(** What the specification documents of [GetMemoryMap]: a buffer that is too
    small is reported with the size and the descriptor size that are needed; one
    that is large enough receives the map, whose descriptors extend
    [MemoryDescriptor] and keep its alignment. *)
Class MapLaws (W : Type) `{!BootServices W} : Type := {
  current_meta : W -> MemoryMapMeta;
  current_map : W -> list Z;
  current_map_size : forall w, zlen (current_map w) = map_size (current_meta w);
  get_map_small : forall n w, n < map_size (current_meta w) ->
    efi_get_memory_map n w = ((Status.BUFFER_TOO_SMALL, current_meta w, []), w);
  get_map_fits : forall n w, map_size (current_meta w) <= n ->
    efi_get_memory_map n w = ((0, current_meta w, current_map w), w);
  current_meta_sane : forall w, let m := current_meta w in
    0 < map_size m <= ONE_GB /\ map_size m mod desc_size m = 0 /\
    40 <= desc_size m /\ desc_size m mod 8 = 0;
  contents_size : forall a n w, 0 <= n -> zlen (contents a n w) = n;
}.

Section map_properties.
Context `{Profile} {W : Type} `{!BootServices W, !Blocks W, !MemoryLaws W, !MapLaws W}.

(** An allocation of a pool adds at most eight entries to the map. *)
Hypothesis few_new_entries : forall p n w w', adds (Pool p n) w w' ->
  desc_size (current_meta w') = desc_size (current_meta w) /\
  map_size (current_meta w') <= map_size (current_meta w) + 8 * desc_size (current_meta w).

Lemma sane_desc_size w : desc_size (current_meta w) <= ONE_GB.
Proof.
  destruct (current_meta_sane w) as (Hm & Hr & Hd & _).
  apply Z.mod_divide in Hr; [|lia]. apply Z.divide_pos_le in Hr; lia.
Qed.

Lemma rem_sane w : usize_rem (map_size (current_meta w)) (desc_size (current_meta w)) = Ret 0.
Proof.
  destruct (current_meta_sane w) as (Hm & Hr & Hd & _). unfold usize_rem.
  by rewrite (proj2 (Z.eqb_neq _ _)), Hr by lia.
Qed.

Lemma memory_map_size_runs w :
  boot_active w = true -> memory_map_size w = Ret (current_meta w, w).
Proof.
  intros Hact. unfold memory_map_size. rewrite boot_run, fw_bind_call by done.
  destruct (current_meta_sane w) as (Hm & Hr & Hd & _). rewrite get_map_small by lia. cbn [fst snd].
  rewrite Z.eqb_refl. cbn [assert_]. rewrite fw_bind_lift, rem_sane, fw_bind_lift. rewrite Z.eqb_refl. cbn [assert_]. rewrite fw_bind_lift.
  unfold assert_sanity_checks, size_of_MemoryDescriptor.
  by rewrite !(proj2 (Z.ltb_lt _ _)), !(proj2 (Z.leb_le _ _)) by lia.
Qed.

Lemma size_hint_runs w :
  MemoryMapBackingMemory.safe_allocation_size_hint (current_meta w) =
    Ret (map_size (current_meta w) + desc_size (current_meta w) * 8).
Proof.
  destruct (current_meta_sane w) as (Hm & _ & Hd & _). pose proof (sane_desc_size w).
  unfold MemoryMapBackingMemory.safe_allocation_size_hint, MemoryMapBackingMemory.EXTRA_ENTRIES, ONE_GB in *.
  rewrite usize_mul_ok by (unfold in_width; lia). cbn [obind]. by rewrite usize_add_ok by (unfold in_width; lia).
Qed.

(** The buffer is a pool block with room for eight more descriptors. *)
Lemma backing_new_runs mt w :
  boot_active w = true ->
  let n := map_size (current_meta w) + desc_size (current_meta w) * 8 in
  exists r w', backing_new mt w = Ret (r, w') /\
    match r with
    | Ok b => zlen (bytes b) = n /\ addr b mod 8 = 0 /\ adds (Pool (addr b) n) w w'
    | Err _ => same_blocks w w'
    end.
Proof.
  intros Hact n. unfold backing_new. rewrite (fw_bind_Ret _ _ w _ w) by by apply memory_map_size_runs.
  rewrite size_hint_runs, fw_bind_lift. fold n. destruct (current_meta_sane w) as (Hm & _ & Hd & _).
  destruct (allocate_pool_runs mt n w) as (r & w1 & E & Hp); [done|lia|].
  erewrite fw_try_Ret by done. destruct r as [p|e]; [|by do 2 eexists].
  destruct Hp as (Hp0 & (_ & _ & _ & _ & Hp8) & A). change align_of_MemoryDescriptor with 8.
  rewrite Hp8. cbn [Z.eqb assert_]. rewrite fw_bind_lift, rem_sane, fw_bind_lift.
  cbn [Z.eqb assert_]. rewrite fw_bind_lift. unfold MemoryMapBackingMemory.from_raw.
  change align_of_MemoryDescriptor with 8. rewrite Hp8, (proj2 (Z.eqb_neq p 0)) by done.
  do 2 eexists; split; [done|]. split; [by apply contents_size; lia|done].
Qed.

Lemma get_memory_map_runs b w :
  boot_active w = true -> addr b mod 8 = 0 -> map_size (current_meta w) <= zlen (bytes b) ->
  exists b', get_memory_map b w = Ret ((Ok (current_meta w), b'), w) /\
    addr b' = addr b /\ zlen (bytes b') = zlen (bytes b) /\
    range (bytes b') 0 (map_size (current_meta w)) = current_map w.
Proof.
  intros Hact Ha Hn. unfold get_memory_map. rewrite boot_run by done.
  change align_of_MemoryDescriptor with 8. rewrite Ha. cbn [Z.eqb assert_].
  rewrite fw_bind_lift, fw_bind_call, get_map_fits by done. cbn [fst snd].
  destruct (write_raw_ok (bytes b) 0 (current_map w)) as (m & -> & Hl & Hr & _);
    [lia|rewrite current_map_size; lia|].
  rewrite fw_bind_lift, to_result_with_val_cases, fw_bind_lift. rewrite current_map_size in Hr.
  eexists; split; [done|]. done.
Qed.

Lemma owned_map_runs b w :
  addr b mod 8 = 0 -> map_size (current_meta w) <= zlen (bytes b) <= isize_MAX ->
  exists n, MemoryMapOwned.from_initialized_mem b (current_meta w) =
    Ret (MemoryMapOwned.mk b (current_meta w) n) /\ wf_map (MemoryMapOwned.mk b (current_meta w) n).
Proof.
  intros Ha Hl. destruct (current_meta_sane w) as (Hm & Hrem & Hd & Hd8).
  exists (map_size (current_meta w) / desc_size (current_meta w)). split.
  - unfold MemoryMapOwned.from_initialized_mem, entry_count, usize_div, size_of_MemoryDescriptor.
    rewrite (proj2 (Z.leb_le _ _)), rem_sane by lia. cbn [assert_ obind Z.eqb].
    by rewrite (proj2 (Z.eqb_neq _ _)) by lia.
  - constructor; try done; try apply Hl; cbn; [apply Z.div_pos; lia|].
    pose proof (Z.div_mod (map_size (current_meta w)) (desc_size (current_meta w))). lia.
Qed.

Lemma backing_drop_runs b n w w1 :
  boot_active w = true -> adds (Pool (addr b) n) w w1 ->
  exists w2, backing_drop b w1 = Ret (tt, w2) /\ same_blocks w w2.
Proof.
  intros Hact A. assert (boot_active w1 = true) as Hact1 by (by rewrite (proj2 A)).
  unfold backing_drop, are_boot_services_active. rewrite (fw_bind_Ret _ _ w1 true w1) by by rewrite Hact1.
  destruct (free_pool_runs (addr b) n w1) as (w2 & Ef & D); [done|by apply A; right|].
  erewrite fw_bind_Ret by done. eexists; split; [done|]. by eapply adds_drops.
Qed.

(** C9: [memory_map] does not panic: it reports the failed allocation and allocates
    nothing, or returns a well-formed map of the firmware's current descriptors
    that owns exactly one new block of memory, which dropping the map frees. *)
Theorem memory_map_spec (mt : Z) (w : W) :
  boot_active w = true ->
  exists r w', memory_map mt w = Ret (r, w') /\
    match r with
    | Ok m => wf_map m /\ meta m = current_meta w' /\
        range (bytes (buffer m)) 0 (map_size (meta m)) = current_map w' /\
        adds (Pool (addr (buffer m)) (zlen (bytes (buffer m)))) w w' /\
        exists w2, backing_drop (buffer m) w' = Ret (tt, w2) /\ same_blocks w w2
    | Err _ => same_blocks w w'
    end.
Proof.
  intros Hact. unfold memory_map. destruct (backing_new_runs mt w Hact) as (r & w1 & E & Hr).
  erewrite fw_try_Ret by done. destruct r as [b|e]; [|by do 2 eexists].
  destruct Hr as (Hl & Ha & A). destruct (few_new_entries _ _ _ _ A) as (Hds & Hms).
  assert (boot_active w1 = true) as Hact1 by (by rewrite (proj2 A)).
  destruct (get_memory_map_runs b w1 Hact1 Ha) as (b' & E2 & Ha' & Hl' & Hr'); [lia|].
  erewrite fw_bind_Ret by done. destruct (current_meta_sane w) as (Hm & _ & Hd & _).
  pose proof (sane_desc_size w). unfold ONE_GB in *.
  destruct (owned_map_runs b' w1) as (k & -> & Hwf); [congruence|unfold isize_MAX; lia|].
  rewrite fw_bind_lift. do 2 eexists; split; [done|]. do 3 (split; [done|]).
  cbn [buffer MemoryMapOwned.inst MemoryMapOwned.buf]. rewrite Ha', Hl', Hl.
  split; [done|]. eapply backing_drop_runs; [done|]. by rewrite Ha'.
Qed.
End map_properties.

(** ** An in-memory machine

    Blocks are handed out at the first page behind all blocks in use, pools not
    at address zero; there are two kinds of memory in its map. *)
Record machine : Type := mkMachine {
  m_pages : gmap Z Z; m_pools : gmap Z Z; m_words : gmap Z Z; m_cell : Z; m_active : bool;
}.

Module Machine.
Definition top_pages (m : gmap Z Z) : Z := map_fold (fun a n r => (a + (n `max` 1) * PAGE_SIZE) `max` r) 0 m.
Definition top_pools (m : gmap Z Z) : Z := map_fold (fun a n r => (a + (n `max` 0) + 1) `max` r) 0 m.
Definition next_page (w : machine) : Z :=
  div_ceil (top_pages (m_pages w) `max` top_pools (m_pools w)) PAGE_SIZE * PAGE_SIZE.

Definition set_pages (w : machine) f := mkMachine (f (m_pages w)) (m_pools w) (m_words w) (m_cell w) (m_active w).
Definition set_pools (w : machine) f := mkMachine (m_pages w) (f (m_pools w)) (m_words w) (m_cell w) (m_active w).

Definition allocate_pages (n : Z) (w : machine) : (Z * Z) * machine :=
  let a := next_page w in
  if n <=? 0 then ((Status.INVALID_PARAMETER, 0), w)
  else if 2 ^ 64 <? a + n * PAGE_SIZE then ((Status.OUT_OF_RESOURCES, 0), w)
  else ((0, a), set_pages w (insert a n)).

Definition allocate_pool (n : Z) (w : machine) : (Z * Z) * machine :=
  let a := PAGE_SIZE `max` next_page w in
  if 2 ^ 64 <? a + n then ((Status.OUT_OF_RESOURCES, 0), w)
  else ((0, a), set_pools w (insert a n)).

Definition descriptors : list Z := replicate 96 0.
Definition map_meta : MemoryMapMeta := mkMemoryMapMeta 96 48 1 1.

#[global] Instance boot_services : BootServices machine := {|
  boot_active := m_active;
  efi_allocate_pages _ _ n _ := allocate_pages n;
  efi_free_pages a n w :=
    if decide (m_pages w !! a = Some n) then (0, set_pages w (delete a)) else (Status.NOT_FOUND, w);
  efi_allocate_pool _ n := allocate_pool n;
  efi_free_pool a w :=
    match m_pools w !! a with Some _ => (0, set_pools w (delete a)) | None => (Status.INVALID_PARAMETER, w) end;
  efi_get_memory_map n w :=
    if n <? 96 then ((Status.BUFFER_TOO_SMALL, map_meta, []), w) else ((0, map_meta, descriptors), w);
  peek a w := default 0 (m_words w !! a);
  poke a v w := mkMachine (m_pages w) (m_pools w) (<[a := v]> (m_words w)) (m_cell w) (m_active w);
  contents _ n _ := replicate (Z.to_nat n) 0;
  memory_type_cell := m_cell;
  set_memory_type_cell t w := mkMachine (m_pages w) (m_pools w) (m_words w) t (m_active w);
|}.

#[global] Instance blocks : Blocks machine := fun w b =>
  match b with Pages a n => m_pages w !! a = Some n | Pool a n => m_pools w !! a = Some n end.

Lemma fold_max_ge (f : Z -> Z -> Z) (m : gmap Z Z) a n :
  m !! a = Some n -> f a n <= map_fold (fun a n r => f a n `max` r) 0 m.
Proof.
  revert a n. apply (map_fold_weak_ind (fun r m => forall a n, m !! a = Some n -> f a n <= r)).
  - done.
  - intros i x m' r Hi IH a n [[-> ->]|[? Ha]]%lookup_insert_Some; [lia|]. specialize (IH _ _ Ha). lia.
Qed.

Lemma next_page_ge w : top_pages (m_pages w) <= next_page w /\ top_pools (m_pools w) <= next_page w.
Proof.
  unfold next_page, div_ceil, PAGE_SIZE.
  set (t := top_pages _ `max` _). pose proof (Z.mod_pos_bound (t + 4096 - 1) 4096 ltac:(lia)).
  pose proof (Z.div_mod (t + 4096 - 1) 4096 ltac:(lia)). lia.
Qed.

Lemma next_page_nonneg w : 0 <= next_page w.
Proof.
  assert (0 <= top_pages (m_pages w)).
  { unfold top_pages. apply (map_fold_weak_ind (fun r _ => 0 <= r)); [done|]. intros. lia. }
  pose proof (next_page_ge w). lia.
Qed.

Lemma next_page_aligned w : next_page w mod PAGE_SIZE = 0.
Proof. apply Z_mod_mult. Qed.

(** Blocks in use end before the next page, and start strictly before it. *)
Lemma live_below w c : live w c -> block_end c <= next_page w /\ block_start c < next_page w.
Proof.
  destruct (next_page_ge w) as [Hp Hq]. destruct c as [a n|a n]; intros Hl; cbn [block_end block_start].
  - pose proof (fold_max_ge (fun a n => a + (n `max` 1) * PAGE_SIZE) _ _ _ Hl : _ <= top_pages (m_pages w)).
    unfold PAGE_SIZE in *. lia.
  - pose proof (fold_max_ge (fun a n => a + (n `max` 0) + 1) _ _ _ Hl : _ <= top_pools (m_pools w)). lia.
Qed.

Lemma above_fresh w b :
  next_page w <= block_start b -> forall c, live w c -> disjoint_blocks b c.
Proof. intros Hb c Hc%live_below. right. lia. Qed.

Lemma above_unused w b : next_page w <= block_start b -> ~ live w b.
Proof. intros Hb Hl%live_below. lia. Qed.

Lemma insert_adds (m : gmap Z Z) a n :
  (forall k, m !! a <> Some k) -> forall b k, <[a := n]> m !! b = Some k <-> m !! b = Some k \/ (b = a /\ k = n).
Proof.
  intros Ha b k. rewrite lookup_insert_Some. split; [naive_solver|].
  intros [Hk|[-> ->]]; [|by left]. right. split; [|done]. intros ->. by apply (Ha k).
Qed.

Lemma allocate_pages_ok n w p w' : 0 < n -> allocate_pages n w = ((0, p), w') ->
  fresh_block (Pages p n) w /\ adds (Pages p n) w w'.
Proof.
  intros Hn. unfold allocate_pages. rewrite (proj2 (Z.leb_gt _ _)) by done.
  destruct (Z.ltb_spec (2 ^ 64) (next_page w + n * PAGE_SIZE)); [done|]. intros [= <- <-]. split.
  - split; [apply next_page_nonneg|]. split; [done|]. split; [by apply above_fresh|apply next_page_aligned].
  - split; [|done]. split; [by apply above_unused|].
    intros [a k|a k]; unfold live, blocks; cbn [set_pages m_pages m_pools]; [|naive_solver].
    rewrite insert_adds; [naive_solver|]. intros m. by apply (above_unused w (Pages _ m)).
Qed.

Lemma insert_pool_adds n w : let a := PAGE_SIZE `max` next_page w in adds (Pool a n) w (set_pools w (insert a n)).
Proof.
  assert (next_page w <= PAGE_SIZE `max` next_page w) as Hge by lia. split; [|done]. split; [by apply above_unused|].
  intros [a k|a k]; unfold live, blocks; cbn [set_pools m_pages m_pools]; [naive_solver|].
  rewrite insert_adds; [naive_solver|]. intros m. by apply (above_unused w (Pool _ m)).
Qed.

Lemma allocate_pool_ok n w p w' : allocate_pool n w = ((0, p), w') ->
  fresh_block (Pool p n) w /\ adds (Pool p n) w w'.
Proof.
  unfold allocate_pool. destruct (Z.ltb_spec (2 ^ 64) (PAGE_SIZE `max` next_page w + n)); [done|].
  intros [= <- <-]. assert (next_page w <= PAGE_SIZE `max` next_page w) as Hge by lia. split.
  - unfold PAGE_SIZE in *. split; [cbn; lia|]. split; [done|]. split; [by apply above_fresh|].
    split; [lia|]. destruct (Z.max_spec 4096 (next_page w)) as [[_ ->]|[_ ->]]; [|done].
    pose proof (next_page_aligned w) as [q ->]%Z.mod_divide; [|done].
    unfold PAGE_SIZE. rewrite Z.mul_comm. by rewrite (Z.mul_mod 4096 q 8).
  - apply insert_pool_adds.
Qed.

#[global] Instance memory_laws : MemoryLaws machine.
Proof.
  constructor.
  - intros ty mt n a w p w'. apply allocate_pages_ok.
  - intros ty mt n a w s p w'. cbn [efi_allocate_pages boot_services]. unfold allocate_pages.
    repeat case_match; intros [= <- <- <-]; done.
  - intros a n w Hl. cbn [efi_free_pages boot_services]. rewrite decide_True by done.
    eexists; split; [done|]. split; [|done]. intros [b k|b k]; unfold live, blocks in *; cbn [set_pages m_pages m_pools];
      [rewrite lookup_delete_Some|]; naive_solver.
  - intros mt n w p w' _. apply allocate_pool_ok.
  - intros mt n w s p w'. cbn [efi_allocate_pool boot_services]. unfold allocate_pool.
    repeat case_match; intros [= <- <- <-]; done.
  - intros a n w Hl. cbn [efi_free_pool boot_services]. unfold live, blocks in Hl. rewrite Hl.
    eexists; split; [done|]. split; [|done]. intros [b k|b k]; unfold live, blocks in *; cbn [set_pools m_pages m_pools];
      [|rewrite lookup_delete_Some]; naive_solver.
  - intros a v w. cbn. by rewrite lookup_insert_eq.
  - done.
  - done.
Qed.

#[global, refine] Instance map_laws : MapLaws machine :=
  {| current_meta _ := map_meta; current_map _ := descriptors |}.
Proof.
  - done.
  - intros n w Hn. cbn in *. by rewrite (proj2 (Z.ltb_lt _ _)).
  - intros n w Hn. cbn in *. by rewrite (proj2 (Z.ltb_ge _ _)).
  - intros w. repeat split; by vm_compute.
  - intros a n w Hn. unfold zlen. cbn. rewrite length_replicate. lia.
Defined.

Definition initial : machine := mkMachine ∅ ∅ ∅ 0 true.
(** The loaded image's protocol is not found. *)
Definition no_image : fw machine (uresult Z unit) := mret (Err (mkError Status.NOT_FOUND tt)).
End Machine.

Lemma memory_map_spec_witness :
  exists m w', memory_map (H := debug_profile) 2 Machine.initial = Ret (Ok m, w') /\ wf_map m /\ len m = 2.
Proof.
  destruct (memory_map_spec (H := debug_profile) (W := machine) ltac:(intros; split; [reflexivity|by vm_compute]) 2 Machine.initial eq_refl)
    as (r & w' & E & Hr).
  destruct r as [m|e]; [|vm_compute in E; discriminate].
  exists m, w'. split; [done|]. split; [apply Hr|]. vm_compute in E. by injection E as <- _.
Defined.

(** ** A part of a larger machine

    The memory services of a machine of which [W] is a part: [part] reads it and
    [with_part] replaces it. *)
Section lifting.
Context {W V : Type} (part : V -> W) (with_part : W -> V -> V).
Context (part_with : forall w v, part (with_part w v) = w).

Definition lift_call {A} (f : W -> A * W) (v : V) : A * V :=
  let (a, w) := f (part v) in (a, with_part w v).

Definition lift_boot_services `{!BootServices W} : BootServices V := {|
  boot_active v := boot_active (part v);
  efi_allocate_pages ty mt n a := lift_call (efi_allocate_pages ty mt n a);
  efi_free_pages a n := lift_call (efi_free_pages a n);
  efi_allocate_pool mt n := lift_call (efi_allocate_pool mt n);
  efi_free_pool a := lift_call (efi_free_pool a);
  efi_get_memory_map n := lift_call (efi_get_memory_map n);
  peek a v := peek a (part v);
  poke a x v := with_part (poke a x (part v)) v;
  contents a n v := contents a n (part v);
  memory_type_cell v := memory_type_cell (part v);
  set_memory_type_cell t v := with_part (set_memory_type_cell t (part v)) v;
|}.

Definition lift_blocks `{!Blocks W} : Blocks V := fun v b => live (part v) b.

Lemma lift_call_inv {A} (f : W -> A * W) v a v' :
  lift_call f v = (a, v') -> f (part v) = (a, part v') /\ v' = with_part (part v') v.
Proof. unfold lift_call. destruct (f (part v)) as [b w]. intros [= -> <-]. by rewrite part_with. Qed.

Lemma lift_memory_laws `{!BootServices W, !Blocks W, !MemoryLaws W} :
  @MemoryLaws V lift_boot_services lift_blocks.
Proof.
  split.
  - intros ty mt n a v p v' Hn [E _]%lift_call_inv. exact (pages_ok _ _ _ _ _ _ _ Hn E).
  - intros ty mt n a v s p v' [E _]%lift_call_inv Hs. exact (pages_fail _ _ _ _ _ _ _ _ E Hs).
  - intros a n v Hl. destruct (pages_free a n (part v) Hl) as (w' & E & D). exists (with_part w' v).
    split; [by cbn; unfold lift_call; rewrite E|]. unfold drops, releases, live, lift_blocks. cbn. by rewrite part_with.
  - intros mt n v p v' Hn [E _]%lift_call_inv. exact (pool_ok _ _ _ _ _ Hn E).
  - intros mt n v s p v' [E _]%lift_call_inv Hs. exact (pool_fail _ _ _ _ _ _ E Hs).
  - intros a n v Hl. destruct (pool_free a n (part v) Hl) as (w' & E & D). exists (with_part w' v).
    split; [by cbn; unfold lift_call; rewrite E|]. unfold drops, releases, live, lift_blocks. cbn. by rewrite part_with.
  - intros a x v. cbn. rewrite part_with. apply peek_poke.
  - intros a x v. unfold same_blocks, keeps, live, lift_blocks. cbn. rewrite part_with. apply (poke_blocks a x).
  - intros t v. unfold same_blocks, keeps, live, lift_blocks. cbn. rewrite part_with. apply (cell_blocks t).
Qed.
End lifting.
