(* ===== verification/AlignedBuffer.v ===== *)
(** * Aligned buffers and the memory of requests

    [AlignedBuffer] of [uefi/src/mem/aligned_buffer.rs] over the Rust heap, and the
    reasoning about the buffers that a pass-through request holds
    ([proto/{scsi,nvme,ata}]): which of them the request owns, which it borrows, and
    what the pointers and lengths in the packet for the firmware stand for. *)
From stdpp Require Import gmap.
From S2P Require Import Prelude Firmware Status BootMemory.

#[export] Instance Layout_eq_dec : EqDecision Layout.
Proof. solve_decision. Defined.

Inductive LayoutError : Set := layout_error.
Inductive AlignmentError : Set := alignment_error.

Definition is_power_of_two (z : Z) : bool := (0 <? z) && (Z.land z (z - 1) =? 0).

(** [Layout::from_size_align]. *)
Definition layout_from_size_align (size align : Z) : result Layout LayoutError :=
  if is_power_of_two align && (size <=? isize_MAX - (align - 1)) then Ok (mkLayout size align)
  else Err layout_error.

(** ** The heap

    A block has the layout it was allocated with and its bytes, [None] while they
    are uninitialised.  The allocator picks the address, zero when it has no
    memory. *)
Record HeapBlock : Set := mkHeapBlock { hb_layout : Layout; hb_data : list (option Z) }.

Class Heap (W : Type) : Type := {
  heap : W -> gmap Z HeapBlock;
  set_heap : gmap Z HeapBlock -> W -> W;
  pick : Layout -> W -> Z * W;
}.

Section heap.
Context {W : Type} `{!Heap W}.

(** [alloc::alloc::alloc]: a layout of size zero is undefined. *)
Definition heap_alloc (l : Layout) : fw W Z := fun w =>
  if l_size l =? 0 then Undefined
  else let (p, w) := pick l w in
    if p =? 0 then Ret (0, w)
    else Ret (p, set_heap (<[p := mkHeapBlock l (replicate (Z.to_nat (l_size l)) None)]> (heap w)) w).

(** [alloc::alloc::dealloc]: only a block in use, with its layout. *)
Definition heap_dealloc (p : Z) (l : Layout) : fw W unit := fun w =>
  match heap w !! p with
  | Some b => if decide (hb_layout b = l) then Ret (tt, set_heap (delete p (heap w)) w) else Undefined
  | None => Undefined
  end.

(** A write through a pointer to a block. *)
Definition heap_store (p : Z) (data : list Z) : fw W unit := fun w =>
  match heap w !! p with
  | Some b =>
      if zlen data <=? zlen (hb_data b) then
        Ret (tt, set_heap (<[p := mkHeapBlock (hb_layout b) ((Some <$> data) ++ drop (length data) (hb_data b))]> (heap w)) w)
      else Undefined
  | None => Undefined
  end.

(** [slice::from_raw_parts(p, n)] of a block: its bytes have to be initialised. *)
Definition heap_slice (p n : Z) : fw W (list Z) := fun w =>
  match heap w !! p with
  | Some b =>
      if (0 <=? n) && (n <=? zlen (hb_data b)) then
        match mapM id (take (Z.to_nat n) (hb_data b)) with
        | Some d => Ret (d, w)
        | None => Undefined
        end
      else Undefined
  | None => Undefined
  end.
End heap.

(** ** [AlignedBuffer] *)

Record AlignedBuffer : Set := mkAlignedBuffer { ab_ptr : Z; ab_layout : Layout }.

Section aligned_buffer.
Context {W : Type} `{!Heap W}.

Definition from_layout (layout : Layout) : fw W AlignedBuffer :=
  ptr ← heap_alloc layout;
  if ptr =? 0 then lift (Panic UnwrapFailed)
  else mret (mkAlignedBuffer ptr layout).

Definition from_size_align (len alignment : Z) : fw W (result AlignedBuffer LayoutError) :=
  try layout <- mret (layout_from_size_align len alignment);
  b ← from_layout layout;
  mret (Ok b).

Definition ab_size (self : AlignedBuffer) : Z := l_size (ab_layout self).

Definition copy_from_slice (self : AlignedBuffer) (src : list Z) : fw W unit :=
  lift (assert_ (ab_size self =? zlen src));;
  heap_store (ab_ptr self) src.

Definition check_alignment (self : AlignedBuffer) (required_alignment : Z) : outcome (result unit AlignmentError) :=
  let! r := usize_rem (ab_ptr self) required_alignment in
  Ret (if negb (r =? 0) then Err alignment_error else Ok tt).

(** [Drop for AlignedBuffer], and of an [Option] of one. *)
Definition ab_drop (self : AlignedBuffer) : fw W unit := heap_dealloc (ab_ptr self) (ab_layout self).
Definition drop_opt (o : option AlignedBuffer) : fw W unit :=
  match o with Some b => ab_drop b | None => mret tt end.

(** The buffers of a struct that goes out of scope, in the order of its fields. *)
Fixpoint drop_fields (fields : list (option AlignedBuffer)) : fw W unit :=
  match fields with
  | [] => mret tt
  | f :: fields => drop_opt f;; drop_fields fields
  end.

(** The [?] operator in a function that owns a value: an error drops it. *)
Definition try_owning {A B E} (owned : fw W unit) (m : fw W (result A E)) (k : A -> fw W (result B E))
  : fw W (result B E) :=
  r ← m; match r with Ok a => k a | Err e => owned;; mret (Err e) end.
End aligned_buffer.

Notation "'owning' d 'try' x '<-' m ; k" := (try_owning d m (fun x => k))
  (at level 20, d at level 9, x pattern, m at level 100, k at level 200, right associativity).

(** ** What a request holds *)

(** What a request was given for one of the buffers of its packet. *)
Inductive supply : Set :=
| Absent
| Space (n : Z)                   (* a new buffer for the device to fill *)
| Filled (d : list Z)             (* a new buffer with these bytes *)
| Borrowed (b : AlignedBuffer).   (* a buffer of the caller *)

Definition supply_len (s : supply) : Z :=
  match s with Absent => 0 | Space n => n | Filled d => zlen d | Borrowed b => ab_size b end.

(** The pointer and the length in the packet, the buffer that the request owns, and
    what they represent. *)
Record slot : Set := mkSlot { s_ptr : Z; s_len : Z; s_owned : option AlignedBuffer; s_supply : supply }.

Definition absent_slot : slot := mkSlot 0 0 None Absent.
Definition owned_slot (b : AlignedBuffer) (x : supply) : slot := mkSlot (ab_ptr b) (supply_len x) (Some b) x.
Definition borrowed_slot (b : AlignedBuffer) : slot := mkSlot (ab_ptr b) (ab_size b) None (Borrowed b).

Definition slot_ok (align : Z) (base : gmap Z Layout) (s : slot) : Prop :=
  match s_supply s with
  | Absent => s = absent_slot
  | Borrowed b => s = borrowed_slot b /\ ab_ptr b <> 0 /\ ab_ptr b mod align = 0 /\ base !! ab_ptr b = Some (ab_layout b)
  | x => exists b, s = owned_slot b x /\ ab_ptr b <> 0 /\ ab_ptr b mod align = 0 /\ ab_size b = supply_len x
  end.

Lemma slot_ok_owned align base b x :
  slot_ok align base (owned_slot b x) -> ab_ptr b <> 0 /\ ab_ptr b mod align = 0 /\ ab_size b = supply_len x.
Proof.
  unfold slot_ok. destruct x; cbn; [done| | |by intros [? _]]; intros (b' & E & Hb);
    (assert (b = b') as -> by (by injection E)); exact Hb.
Qed.

(** A slot owns nothing, or it is the slot of its buffer. *)
Lemma slot_ok_cases align base s :
  slot_ok align base s -> s_owned s = None \/ exists b x, s = owned_slot b x.
Proof.
  unfold slot_ok. destruct (s_supply s); [intros ->; by left| | |intros [-> _]; by left];
    intros (b & -> & _); right; eauto.
Qed.

(** The layouts of the blocks in use. *)
Definition shape (h : gmap Z HeapBlock) : gmap Z Layout := hb_layout <$> h.

Definition owned (slots : list slot) : list (Z * Layout) :=
  base.omap (fun s => (fun b => (ab_ptr b, ab_layout b)) <$> s_owned s) slots.

(** The bytes of a block that was filled are still there. *)
Definition slot_data (h : gmap Z HeapBlock) (s : slot) : Prop :=
  match s_supply s with
  | Filled d => hb_data <$> h !! s_ptr s = Some (Some <$> d)
  | _ => True
  end.

Definition full_blocks (h : gmap Z HeapBlock) : Prop :=
  forall p b, h !! p = Some b -> zlen (hb_data b) = l_size (hb_layout b).

(** Besides the blocks of [base], exactly those that the slots own are in use, each
    by one slot. *)
Record held (align : Z) (base : gmap Z Layout) (slots : list slot) (h : gmap Z HeapBlock) : Prop := {
  held_shape : forall p l, shape h !! p = Some l <-> (p, l) ∈ owned slots \/ base !! p = Some l;
  held_once : NoDup (owned slots).*1;
  held_apart : forall p l, (p, l) ∈ owned slots -> base !! p = None;
  held_slots : Forall (slot_ok align base) slots;
  held_data : Forall (slot_data h) slots;
  held_full : full_blocks h;
}.

#[export] Instance held_perm align base : Proper ((≡ₚ) ==> eq ==> iff) (held align base).
Proof.
  assert (forall l k h, l ≡ₚ k -> held align base l h -> held align base k h) as Hi.
  { intros l k h Hlk [Hs Ho Ha Hsl Hd Hf]. assert (owned l ≡ₚ owned k) as Hp by (unfold owned; by rewrite Hlk).
    split; [|by rewrite <- Hp| |by rewrite <- Hlk|by rewrite <- Hlk|done].
    - intros p x. by rewrite <- Hp.
    - intros p x Hx. apply (Ha p x). by rewrite Hp. }
  intros l k Hlk h ? <-. split; apply Hi; done.
Qed.

Section held_lemmas.
Context (align : Z) (base : gmap Z Layout).

Lemma held_absent slots h : held align base (absent_slot :: slots) h <-> held align base slots h.
Proof.
  split; intros [Hs Ho Ha Hsl Hd Hf]; (split; [done..| | |done]).
  - by inversion Hsl.
  - by inversion Hd.
  - by constructor.
  - by constructor.
Qed.

Lemma held_nil h : full_blocks h -> held align base [] h <-> shape h = base.
Proof.
  intros Hf. split.
  - intros [Hs _ _ _ _]. apply map_eq. intros p. apply option_eq. intros l. rewrite (Hs p l). cbn. set_solver.
  - intros <-. split; [|by constructor|by intros ? ? ?%elem_of_nil|done..]. intros p l. cbn. set_solver.
Qed.

Lemma held_owned_size b x slots h :
  held align base slots h -> owned_slot b x ∈ slots -> ab_size b = supply_len x.
Proof.
  intros Hh Hin. pose proof (held_slots _ _ _ _ Hh) as Hsl. rewrite Forall_forall in Hsl.
  by destruct (slot_ok_owned _ _ _ _ (Hsl _ Hin)) as (_ & _ & ?).
Qed.

Lemma held_borrow b slots h :
  held align base slots h -> ab_ptr b <> 0 -> ab_ptr b mod align = 0 -> base !! ab_ptr b = Some (ab_layout b) ->
  held align base (borrowed_slot b :: slots) h.
Proof. intros [Hs Ho Ha Hsl Hd Hf] H0 Hm Hb. split; [done..| | |done]; by constructor. Qed.

Lemma held_owned_block b x slots h :
  held align base (owned_slot b x :: slots) h -> exists blk, h !! ab_ptr b = Some blk /\ hb_layout blk = ab_layout b.
Proof.
  intros [Hs _ _ _ _]. specialize (Hs (ab_ptr b) (ab_layout b)). unfold shape in Hs. rewrite lookup_fmap in Hs.
  destruct (h !! ab_ptr b) as [blk|]; cbn in Hs.
  - exists blk. split; [done|]. destruct Hs as [_ Hs]. enough (Some (hb_layout blk) = Some (ab_layout b)) by congruence.
    apply Hs. left. left.
  - destruct Hs as [_ Hs]. discriminate Hs. left. left.
Qed.

(** The owned block of the first slot is not used by another one. *)
Lemma held_elsewhere b x slots h s :
  held align base (owned_slot b x :: slots) h -> s ∈ slots -> s_ptr s <> ab_ptr b.
Proof.
  intros [_ Ho Ha Hsl _ _] Hin Heq. assert (slot_ok align base s) as Hok.
  { inversion Hsl as [|? ? _ Hsl']; subst. rewrite Forall_forall in Hsl'. by apply Hsl'. }
  assert (forall b', s = owned_slot b' (s_supply s) -> False) as Hown.
  { intros b' Es. cbn in Ho. apply NoDup_cons in Ho as [Hn _]. apply Hn. apply list_elem_of_fmap.
    exists (ab_ptr b, ab_layout b'). split; [done|]. apply list_elem_of_omap. exists s. split; [done|].
    rewrite Es in Heq |- *. cbn in Heq |- *. by rewrite Heq. }
  assert (ab_ptr b <> 0) as Hb0.
  { apply Forall_cons in Hsl as [Hb _]. by apply slot_ok_owned in Hb as []. }
  unfold slot_ok in Hok. destruct (s_supply s) eqn:Ex.
  - by rewrite Hok in Heq.
  - destruct Hok as (b' & Es & _). by apply (Hown b').
  - destruct Hok as (b' & Es & _). by apply (Hown b').
  - destruct Hok as (-> & _ & _ & Hl). cbn in Heq. specialize (Ha (ab_ptr b) (ab_layout b) ltac:(left)). congruence.
Qed.
End held_lemmas.

(** ** Running out of memory

    [guarded m w Q]: [m] returns with [Q], or it panics because an allocation
    failed; it is never undefined. *)
Definition guarded {W A} (m : fw W A) (w : W) (Q : A -> W -> Prop) : Prop :=
  match m w with
  | Ret (a, w') => Q a w'
  | Panic UnwrapFailed => True
  | _ => False
  end.

Section guarded_rules.
Context {W : Type}.

Lemma guarded_weaken {A} (m : fw W A) w (P Q : A -> W -> Prop) :
  guarded m w P -> (forall a w', P a w' -> Q a w') -> guarded m w Q.
Proof. unfold guarded. intros Hm HPQ. destruct (m w) as [[a w']| | |]; [by apply HPQ|done..]. Qed.

Lemma guarded_bind {A B} (m : fw W A) (k : A -> fw W B) w Q :
  guarded m w (fun a w' => guarded (k a) w' Q) -> guarded (m ≫= k) w Q.
Proof. unfold guarded, mbind, fw_bind. by destruct (m w) as [[a w']| | |]. Qed.

Lemma guarded_runs {A} (m : fw W A) w Q : runs m w Q -> guarded m w Q.
Proof. unfold guarded. by intros (a & w' & -> & H). Qed.

Lemma guarded_ret {A} (a : A) w (Q : A -> W -> Prop) : Q a w -> guarded (mret a) w Q.
Proof. done. Qed.

Lemma guarded_try {A B E} (d : fw W unit) (m : fw W (result A E)) (k : A -> fw W (result B E)) w Q :
  guarded m w (fun r w' => match r with
    | Ok a => guarded (k a) w' Q
    | Err e => runs d w' (fun _ w'' => Q (Err e) w'')
    end) -> guarded (try_owning d m k) w Q.
Proof.
  intros Hm. apply guarded_bind. eapply guarded_weaken; [exact Hm|]. intros [a|e] w' H; [done|].
  apply guarded_bind, guarded_runs. eapply runs_weaken; [exact H|]. intros [] w'' Hq. exact Hq.
Qed.
End guarded_rules.

(** ** What the operations do to the slots *)

Class HeapLaws (W : Type) `{!Heap W} : Prop := {
  heap_set_heap : forall h (w : W), heap (set_heap h w) = h;
  pick_heap : forall l (w : W) p w', pick l w = (p, w') -> heap w' = heap w;
  pick_fresh : forall l (w : W) p w', pick l w = (p, w') -> p <> 0 -> heap w !! p = None /\ p mod l_align l = 0;
}.

Section held_ops.
Context {W : Type} `{!Heap W, !HeapLaws W} (align : Z) (base : gmap Z Layout).

Lemma layout_cases n a :
  layout_from_size_align n a = Ok (mkLayout n a) \/ layout_from_size_align n a = Err layout_error.
Proof. unfold layout_from_size_align. case_match; auto. Qed.

Lemma held_alloc n slots (w : W) :
  held align base slots (heap w) -> 0 < n ->
  guarded (from_size_align n align) w (fun r w' => match r with
    | Ok b => held align base (owned_slot b (Space n) :: slots) (heap w')
    | Err _ => held align base slots (heap w')
    end).
Proof.
  intros [Hs Ho Ha Hsl Hd Hf] Hn. unfold guarded, from_size_align, fw_try, mbind, fw_bind, mret, fw_ret.
  cbn [obind fst snd]. destruct (layout_cases n align) as [-> | ->]; cbn [obind fst snd]; [|done].
  unfold from_layout, heap_alloc, mbind, fw_bind. cbn [l_size]. rewrite (proj2 (Z.eqb_neq n 0)) by lia.
  destruct (pick (mkLayout n align) w) as [p w1] eqn:Ep. pose proof (pick_heap _ _ _ _ Ep) as Hh.
  destruct (Z.eqb_spec p 0) as [->|Hp]; cbn [obind fst snd]; [done|].
  rewrite (proj2 (Z.eqb_neq p 0)) by done. unfold mret, fw_ret. cbn [obind fst snd].
  destruct (pick_fresh _ _ _ _ Ep Hp) as [Hfr Hal]. rewrite heap_set_heap, Hh.
  assert (forall l, (p, l) ∉ owned slots /\ base !! p ≠ Some l) as Hnew.
  { intros l. assert (shape (heap w) !! p = None) as E by (unfold shape; by rewrite lookup_fmap, Hfr).
    pose proof (Hs p l) as Hi. rewrite E in Hi. naive_solver. }
  split.
  - intros q l. unfold shape. rewrite lookup_fmap. cbn [owned list_omap base.omap s_owned owned_slot fmap option_fmap option_map].
    destruct (decide (q = p)) as [->|Hq].
    + rewrite lookup_insert_eq. cbn. rewrite elem_of_cons. destruct (Hnew l) as [H1 H2]. naive_solver.
    + rewrite lookup_insert_ne by done. rewrite <- lookup_fmap. specialize (Hs q l). unfold shape in Hs. rewrite Hs, elem_of_cons. naive_solver.
  - cbn. constructor; [|done]. intros ((? & l) & -> & Hl)%list_elem_of_fmap. by destruct (Hnew l).
  - intros q l [[= -> ->]|Hl]%elem_of_cons; [|by eapply Ha]. destruct (base !! p) as [x|] eqn:E; [|done]. by destruct (Hnew x).
  - constructor; [|done]. by exists (mkAlignedBuffer p (mkLayout n align)).
  - constructor; [done|]. eapply Forall_impl; [exact Hd|]. intros s. unfold slot_data. destruct (s_supply s); [done..| |done].
    intros Hs2. destruct (decide (s_ptr s = p)) as [E|E]; [|by rewrite lookup_insert_ne]. by rewrite E, Hfr in Hs2.
  - intros q b. destruct (decide (q = p)) as [->|Hq].
    + rewrite lookup_insert_eq. intros [= <-]. cbn. unfold zlen. rewrite length_replicate. lia.
    + rewrite lookup_insert_ne by done. apply Hf.
Qed.

Lemma held_fill b n d slots (w : W) :
  held align base (owned_slot b (Space n) :: slots) (heap w) -> zlen d = n ->
  runs (copy_from_slice b d) w (fun _ w' => held align base (owned_slot b (Filled d) :: slots) (heap w')).
Proof.
  intros Hh Hn. assert (forall s, s ∈ slots -> s_ptr s <> ab_ptr b) as Helse by (intros; by eapply held_elsewhere).
  destruct (held_owned_block _ _ _ _ _ _ Hh) as (blk & Hb & Hl). destruct Hh as [Hs Ho Ha Hsl Hd Hf].
  pose proof (Hf _ _ Hb) as Hlen. apply Forall_cons in Hsl as [(H0 & Hm & Hsz)%slot_ok_owned Hsl'].
  apply Forall_cons in Hd as [_ Hd']. cbn in Hsz.
  unfold copy_from_slice. repeat runs_step. eapply runs_lift; [by rewrite Hsz, Hn, Z.eqb_refl|].
  eapply runs_eq; [unfold heap_store; rewrite Hb, (proj2 (Z.leb_le _ _)) by (rewrite Hlen, Hl; unfold ab_size in Hsz; lia); done|].
  rewrite heap_set_heap. rewrite drop_ge by (unfold zlen, ab_size in *; rewrite Hl in Hlen; lia). rewrite app_nil_r. split.
  - intros q l. unfold shape. rewrite lookup_fmap. specialize (Hs q l). unfold shape in Hs. rewrite lookup_fmap in Hs.
    destruct (decide (q = ab_ptr b)) as [->|Hq]; [|by rewrite lookup_insert_ne].
    rewrite lookup_insert_eq. by rewrite Hb in Hs.
  - done.
  - done.
  - constructor; [|done]. exists b. split_and!; [done..|]. cbn. congruence.
  - constructor; [by cbn; rewrite lookup_insert_eq|]. apply Forall_forall. intros s Hin. rewrite Forall_forall in Hd'.
    specialize (Hd' s Hin). unfold slot_data in *. destruct (s_supply s); [done..| |done].
    rewrite lookup_insert_ne; [done|]. intros E. by eapply Helse.
  - intros q x. destruct (decide (q = ab_ptr b)) as [->|Hq].
    + rewrite lookup_insert_eq. intros [= <-]. cbn. rewrite Hl. unfold zlen in *. rewrite length_fmap. unfold ab_size in Hsz. lia.
    + rewrite lookup_insert_ne by done. apply Hf.
Qed.

Lemma held_drop s slots (w : W) :
  held align base (s :: slots) (heap w) ->
  runs (drop_opt (s_owned s)) w (fun _ w' => held align base slots (heap w')).
Proof.
  intros Hh. pose proof (held_slots _ _ _ _ Hh) as [Hok _]%Forall_cons.
  destruct (slot_ok_cases _ _ _ Hok) as [Hn|(b & x & ->)].
  { rewrite Hn. cbn [drop_opt]. runs_step. destruct Hh as [Hs Ho Ha Hsl Hd Hf]. unfold owned in *. cbn [base.omap list_omap] in *. rewrite Hn in *.
    split; [done..|by apply Forall_cons in Hsl as []|by apply Forall_cons in Hd as []|done]. }
  assert (forall s, s ∈ slots -> s_ptr s <> ab_ptr b) as Helse by (intros; by eapply held_elsewhere).
  destruct (held_owned_block _ _ _ _ _ _ Hh) as (blk & Hb & Hl). destruct Hh as [Hs Ho Ha Hsl Hd Hf].
  cbn [drop_opt s_owned owned_slot ab_drop].
  eapply runs_eq; [unfold ab_drop, heap_dealloc; rewrite Hb, decide_True by done; done|]. rewrite heap_set_heap.
  cbn [owned base.omap list_omap s_owned owned_slot fmap option_fmap option_map list_fmap] in Ho.
  apply NoDup_cons in Ho as [Hni Ho]. split.
  - intros q l. unfold shape. rewrite lookup_fmap. specialize (Hs q l). unfold shape in Hs. rewrite lookup_fmap in Hs.
    destruct (decide (q = ab_ptr b)) as [->|Hq].
    + rewrite lookup_delete_eq. specialize (Ha (ab_ptr b) (ab_layout b) ltac:(left)). rewrite Ha. split; [done|].
      intros [Hin|?]; [|done]. destruct Hni. apply list_elem_of_fmap. by exists (ab_ptr b, l).
    + rewrite lookup_delete_ne, Hs by done. cbn. rewrite elem_of_cons. split; [intros [[[= -> ->]|?]|?]; tauto|tauto].
  - done.
  - intros q l Hq. apply (Ha q l). by right.
  - by apply Forall_cons in Hsl as [].
  - apply Forall_cons in Hd as [_ Hd]. apply Forall_forall. intros s Hin. rewrite Forall_forall in Hd.
    specialize (Hd s Hin). unfold slot_data in *. destruct (s_supply s); [done..| |done].
    rewrite lookup_delete_ne; [done|]. intros E. by eapply Helse.
  - intros q y [_ Hy]%lookup_delete_Some. by eapply Hf.
Qed.

(** Dropping the owner gives back exactly the blocks that were in use before. *)
Lemma held_drop_fields slots (w : W) :
  held align base slots (heap w) ->
  runs (drop_fields (s_owned <$> slots)) w (fun _ w' => shape (heap w') = base).
Proof.
  revert w. induction slots as [|s slots IH]; intros w Hh.
  - cbn [fmap list_fmap drop_fields]. runs_step. apply (held_nil align); [apply Hh|done].
  - cbn. runs_step. eapply runs_weaken; [by apply held_drop|]. intros ? w' Hh'. by apply IH.
Qed.

(** A buffer that the caller has, and lends. *)
Definition caller_buffer (b : AlignedBuffer) : Prop := ab_ptr b <> 0 /\ base !! ab_ptr b = Some (ab_layout b).

(** The three ways in which a builder supplies one of its buffers: an error drops
    the builder with all it owns. *)
Section supply_steps.
Context {R : Type} (pre : list slot) (s : slot) (post : list slot) (w : W)
  (Hheld : held align base (pre ++ s :: post) (heap w)).

Definition supplied (new : AlignedBuffer -> slot) (mk : AlignedBuffer -> R) {E} (r : result R E) (w' : W) : Prop :=
  match r with
  | Ok req => exists b, req = mk b /\ held align base (pre ++ new b :: post) (heap w')
  | Err _ => shape (heap w') = base
  end.

(** The new slot replaces the old one. *)
Lemma supply_replace {E} t new mk b w1 :
  held align base (t :: pre ++ s :: post) (heap w1) -> t = new b ->
  guarded (drop_opt (s_owned s);; mret (Ok (mk b) : result R E)) w1 (supplied new mk).
Proof using HeapLaws0.
  intros Hh ->. apply guarded_bind, guarded_runs.
  rewrite <- Permutation_middle, Permutation_swap in Hh.
  eapply runs_weaken; [by apply held_drop|]. intros ? w' Hr. cbv beta in Hr. exists b. split; [done|].
  by rewrite <- Permutation_middle.
Qed.

Lemma supply_space n mk :
  0 < n ->
  guarded (owning (drop_fields (s_owned <$> (pre ++ s :: post))) try b <- from_size_align n align;
    (drop_opt (s_owned s);; mret (Ok (mk b)))) w (supplied (fun b => owned_slot b (Space n)) mk).
Proof using Hheld HeapLaws0.
  intros Hn. apply guarded_try. eapply guarded_weaken; [by apply held_alloc|]. intros [b|e] w1 Hh.
  - by eapply supply_replace.
  - by apply held_drop_fields.
Qed.

Lemma supply_filled d mk :
  0 < zlen d ->
  guarded (owning (drop_fields (s_owned <$> (pre ++ s :: post))) try b <- from_size_align (zlen d) align;
    (copy_from_slice b d;; drop_opt (s_owned s);; mret (Ok (mk b)))) w (supplied (fun b => owned_slot b (Filled d)) mk).
Proof using Hheld HeapLaws0.
  intros Hn. apply guarded_try. eapply guarded_weaken; [by apply held_alloc|]. intros [b|e] w1 Hh.
  - apply guarded_bind, guarded_runs. eapply runs_weaken; [by eapply held_fill|]. intros ? w2 Hh2. cbv beta in Hh2. by eapply supply_replace.
  - by apply held_drop_fields.
Qed.

Lemma supply_borrowed b (req : R) :
  0 < align -> caller_buffer b ->
  guarded (owning (drop_fields (s_owned <$> (pre ++ s :: post))) try _ <- lift (check_alignment b align);
    (drop_opt (s_owned s);; mret (Ok req))) w (supplied (fun _ => borrowed_slot b) (fun _ => req)).
Proof using Hheld HeapLaws0.
  intros Ha [H0 Hb]. apply guarded_try, guarded_runs. unfold check_alignment, usize_rem.
  rewrite (proj2 (Z.eqb_neq align 0)) by lia. cbn [obind].
  destruct (Z.eqb_spec (ab_ptr b mod align) 0) as [E|E]; cbn [negb]; (eapply runs_lift; [done|]); cbv iota.
  - eapply (supply_replace _ (fun _ => borrowed_slot b) (fun _ => req) b); [|done]. by apply held_borrow.
  - by apply held_drop_fields.
Qed.
End supply_steps.
End held_ops.

(** ** Builders

    A builder [R] represents an abstract description [O] of what it was given; its
    calls [Op] change both. *)
Section builders.
Context {W : Type} `{!Heap W, !HeapLaws W} {R O Op : Type} (base : gmap Z Layout).

(** A call returns a builder that represents [o], or has given back the memory. *)
Definition refined (rep : R -> W -> Prop) (r : result R unit) (w : W) : Prop :=
  match r with Ok self => rep self w | Err _ => shape (heap w) = base end.

(** The error types of the calls are forgotten. *)
Definition any_error {E} (m : fw W (result R E)) : fw W (result R unit) :=
  r ← m; mret (map_err (fun _ => tt) r).

Lemma supplied_refined {E} align pre new mk post (rep : R -> W -> Prop) (m : fw W (result R E)) w :
  guarded m w (supplied align base pre post new mk) ->
  (forall b w', held align base (pre ++ new b :: post) (heap w') -> rep (mk b) w') ->
  guarded (any_error m) w (refined rep).
Proof.
  intros Hm Hmk. apply guarded_bind. eapply guarded_weaken; [exact Hm|].
  intros [self|e] w' Hr; apply guarded_ret; [|exact Hr]. destruct Hr as (b & -> & Hh). by apply Hmk.
Qed.

Context (apply_op : R -> Op -> fw W (result R unit)).

Fixpoint run_ops (self : R) (xs : list Op) : fw W (result R unit) :=
  match xs with
  | [] => mret (Ok self)
  | x :: xs => try self <- apply_op self x; run_ops self xs
  end.

Lemma run_ops_refined (rep : O -> R -> W -> Prop) (give : O -> Op -> O) (ok : Op -> Prop) :
  (forall o self x w, rep o self w -> ok x -> guarded (apply_op self x) w (refined (rep (give o x)))) ->
  forall xs o self w, Forall ok xs -> rep o self w -> guarded (run_ops self xs) w (refined (rep (foldl give o xs))).
Proof.
  intros Hop xs o self w Hxs. revert o self w. induction Hxs as [|x xs Hx _ IH]; intros o self w Hr; cbn [run_ops foldl].
  { by apply guarded_ret. }
  apply guarded_bind. eapply guarded_weaken; [by apply Hop|]. intros [self'|e] w' Hr'; [|by apply guarded_ret].
  apply IH. exact Hr'.
Qed.
End builders.

(** Applies one of the [supply_] lemmas to a call and finds the length of the new
    buffer, which fits in the field of the packet; [tac] unfolds the
    representation. *)
Tactic Notation "supplied" "by" uconstr(l) "with" tactic3(tac) :=
  eapply supplied_refined; [apply l; first [done|lia]|];
  let Hr := fresh "Hr" in intros ? ? Hr; cbv beta in Hr; tac;
  try match type of Hr with context [owned_slot ?b ?x] =>
    rewrite (held_owned_size _ _ b x _ _ Hr) by (apply elem_of_app; right; left); cbn [supply_len] end;
  rewrite ?wrap_small by (unfold in_width; lia); exact Hr.

(** ** What the device does *)

(** The first [n] bytes at [p] are [d]. *)
Definition stored (h : gmap Z HeapBlock) (p : Z) (d : list Z) : Prop :=
  exists b, h !! p = Some b /\ take (length d) (hb_data b) = Some <$> d.

(** A pointer and a length that the device may be given. *)
Definition presented (align : Z) (h : gmap Z HeapBlock) (p n : Z) : Prop :=
  p = 0 /\ n = 0 \/
  p <> 0 /\ p mod align = 0 /\ exists b, h !! p = Some b /\ n = l_size (hb_layout b) /\ n = zlen (hb_data b).

(** The device neither allocates nor frees, and stores in the buffers that it is
    given for its output only. *)
Record device_step (outputs : list Z) (h h' : gmap Z HeapBlock) : Prop := {
  ds_shape : shape h' = shape h;
  ds_full : full_blocks h -> full_blocks h';
  ds_frame : forall p, p ∉ outputs -> h' !! p = h !! p;
}.

(** A transfer into a buffer: none without one, else at most what it holds. *)
Definition transferred (h : gmap Z HeapBlock) (p n n' : Z) : Prop :=
  0 <= n' <= n /\ (p <> 0 -> exists d, zlen d = n' /\ stored h p d).

(** The data that a response returns: none without a buffer, else what the device
    stored in it. *)
Definition received (h : gmap Z HeapBlock) (x : supply) (p n : Z) (data : option (list Z)) : Prop :=
  match x with
  | Absent => data = None
  | _ => exists d, data = Some d /\ zlen d = n /\ stored h p d
  end.

Section device.
Context {W : Type} `{!Heap W, !HeapLaws W} (align : Z) (base : gmap Z Layout).

Lemma held_presented slots h s :
  held align base slots h -> s ∈ slots -> presented align h (s_ptr s) (s_len s).
Proof.
  intros [Hs Ho Ha Hsl Hd Hf] Hin. assert (slot_ok align base s) as Hok by (rewrite Forall_forall in Hsl; by apply Hsl).
  assert (forall p l, (p, l) ∈ owned slots \/ base !! p = Some l ->
    exists b, h !! p = Some b /\ l_size l = l_size (hb_layout b) /\ l_size l = zlen (hb_data b)) as Hblk.
  { intros p l Hp. apply Hs in Hp. unfold shape in Hp. rewrite lookup_fmap in Hp. apply fmap_Some in Hp as (b & Hb & ->).
    exists b. split; [done|]. by rewrite (Hf _ _ Hb). }
  destruct (slot_ok_cases _ _ _ Hok) as [Hn|(b & x & ->)].
  - unfold slot_ok in Hok. destruct (s_supply s).
    + left. by rewrite Hok.
    + destruct Hok as (b & -> & _). discriminate Hn.
    + destruct Hok as (b & -> & _). discriminate Hn.
    + right. destruct Hok as (-> & H0 & Hm & Hb). split; [done|]. split; [done|]. apply Hblk. by right.
  - right. apply slot_ok_owned in Hok as (H0 & Hm & Hsz). split; [done|]. split; [done|]. cbn [s_ptr s_len owned_slot].
    rewrite <- Hsz. apply Hblk. left. apply list_elem_of_omap. by exists (owned_slot b x).
Qed.

(** What is owned does not depend on what the device stores. *)
Lemma held_device_drop slots h (w : W) outputs :
  held align base slots h -> device_step outputs h (heap w) ->
  runs (drop_fields (s_owned <$> slots)) w (fun _ w' => shape (heap w') = base).
Proof.
  intros Hh [Es Hf' _]. set (forget s := mkSlot (s_ptr s) (s_len s) (s_owned s)
    (match s_supply s with Filled d => Space (zlen d) | x => x end)).
  assert (s_owned <$> slots = s_owned <$> (forget <$> slots)) as ->.
  { rewrite <- list_fmap_compose. by apply list_fmap_ext. }
  assert (owned (forget <$> slots) = owned slots) as Eo.
  { clear. unfold owned. induction slots as [|s slots IH]; [done|]. cbn. rewrite <- IH. by destruct (s_owned s). }
  apply (held_drop_fields align). destruct Hh as [Hs Ho Ha Hsl Hd Hf].
  split; [|by rewrite Eo|by rewrite Eo| | |by apply Hf'].
  - intros p l. by rewrite Es, Eo, Hs.
  - apply Forall_fmap. eapply Forall_impl; [exact Hsl|]. intros s Hok. unfold slot_ok, compose, forget in *. cbn.
    destruct (s_supply s) eqn:E.
    + by rewrite Hok.
    + destruct Hok as (b & -> & H). by exists b.
    + destruct Hok as (b & -> & H). by exists b.
    + destruct Hok as (-> & H). done.
  - apply Forall_fmap, Forall_true. intros s. unfold slot_data, forget, compose. cbn. by destruct (s_supply s).
Qed.

Lemma heap_slice_stored p d (w : W) : stored (heap w) p d -> heap_slice p (zlen d) w = Ret (d, w).
Proof.
  intros (b & Hb & Ht). unfold heap_slice. rewrite Hb.
  assert (length d <= length (hb_data b))%nat as Hl.
  { apply (f_equal length) in Ht. rewrite length_take, length_fmap in Ht. lia. }
  unfold zlen. rewrite !(proj2 (Z.leb_le _ _)) by lia. cbn [andb]. rewrite Nat2Z.id, Ht.
  rewrite (proj2 (mapM_Some id _ d)); [done|]. clear. by induction d; constructor.
Qed.

Lemma held_all_presented slots h :
  held align base slots h -> Forall (fun s => presented align h (s_ptr s) (s_len s)) slots.
Proof. intros Hh. apply Forall_forall. intros s Hin. by eapply held_presented. Qed.

(** Reading the buffer of a slot back after the device has stored in it. *)
Lemma slice_received p len o x slots h (w : W) n' :
  held align base slots h -> mkSlot p len o x ∈ slots -> transferred (heap w) p len n' ->
  runs (if p =? 0 then mret None else d ← heap_slice p n'; mret (Some d)) w
    (fun data w' => w' = w /\ received (heap w) x p n' data).
Proof.
  intros Hh Hin [Hn Ht]. assert (slot_ok align base (mkSlot p len o x)) as Hok.
  { pose proof (held_slots _ _ _ _ Hh) as Hsl. rewrite Forall_forall in Hsl. by apply Hsl. }
  unfold slot_ok in Hok. cbn in Hok. destruct (Z.eqb_spec p 0) as [->|E].
  - runs_step. split; [done|]. destruct x; [done|..];
      [destruct Hok as (? & [= E _] & H0 & _)|destruct Hok as (? & [= E _] & H0 & _)|destruct Hok as ([= E _] & H0 & _)]; congruence.
  - destruct (Ht E) as (d & <- & Hd). runs_step. eapply runs_eq; [by apply heap_slice_stored|]. runs_step.
    split; [done|]. destruct x; [by injection Hok|by exists d..].
Qed.
End device.

(** ** A heap of its own

    A machine whose state is just the heap: an allocation goes above everything in
    use.  A device on it stores the same byte over and over. *)
Module Bench.
Abbreviation world := (gmap Z HeapBlock).

Definition top (h : world) : Z := map_fold (fun p _ m => Z.max p m) 0 h.

Lemma top_le h p b : h !! p = Some b -> p <= top h.
Proof.
  revert p b. unfold top.
  apply (map_fold_weak_ind (fun m h => forall p b, h !! p = Some b -> p <= m)); [by intros ? ? ?%lookup_empty_Some|].
  intros q x h' m Hq IH p b [[-> _]|[_ Hp]]%lookup_insert_Some; [lia|]. specialize (IH _ _ Hp). lia.
Qed.

#[global] Instance bench_heap : Heap world := {|
  heap h := h;
  set_heap h _ := h;
  pick l h := ((if 0 <? l_align l then (top h / l_align l + 1) * l_align l else 0), h);
|}.

#[global] Instance bench_heap_laws : HeapLaws world.
Proof.
  split; [done|by intros l w p w' [= _ <-]|]. intros l w p w' [= <- _] Hp. destruct (Z.ltb_spec 0 (l_align l)); [|done].
  split; [|by apply Z.mod_mul; lia].
  destruct (heap w !! _) as [b|] eqn:E; [|done]. apply top_le in E. cbn in E.
  pose proof (Z.mod_pos_bound (top w) (l_align l) ltac:(lia)). pose proof (Z.div_mod (top w) (l_align l) ltac:(lia)). lia.
Qed.

Definition fill (v p n : Z) (h : world) : world :=
  match h !! p with
  | Some b => <[p := mkHeapBlock (hb_layout b)
      (replicate (Z.to_nat n `min` length (hb_data b)) (Some v) ++ drop (Z.to_nat n) (hb_data b))]> h
  | None => h
  end.

Lemma fill_step v p n h outputs : p ∈ outputs -> device_step outputs h (fill v p n h).
Proof.
  intros Hin. unfold fill. destruct (h !! p) as [b|] eqn:E; [|by split]. split.
  - unfold shape. rewrite fmap_insert. cbn. rewrite insert_id; [done|]. by rewrite lookup_fmap, E.
  - intros Hf q x. destruct (decide (q = p)) as [->|Hq].
    + rewrite lookup_insert_eq. intros [= <-]. specialize (Hf _ _ E). unfold zlen in *. cbn.
      rewrite length_app, length_replicate, length_drop. lia.
    + rewrite lookup_insert_ne by done. apply Hf.
  - intros q Hq. rewrite lookup_insert_ne; [done|]. by intros ->.
Qed.

Lemma fill_transferred align v p n len h :
  presented align h p len -> 0 <= n -> transferred (fill v p n h) p len (Z.min n len).
Proof.
  intros [[-> ->]|(H0 & _ & b & Hb & Hl & Hd)] Hn.
  { split; [lia|done]. }
  pose proof (zlen_nonneg (hb_data b)). split; [lia|]. intros _. exists (replicate (Z.to_nat (Z.min n len)) v).
  split; [unfold zlen; rewrite length_replicate; lia|]. unfold fill. rewrite Hb. eexists. split; [by apply lookup_insert_eq|].
  cbn. rewrite length_replicate, fmap_replicate. unfold zlen in *.
  rewrite take_app_length' by (rewrite length_replicate; lia). f_equal. lia.
Qed.

(** A buffer that was presented may be reported as empty. *)
Lemma none_transferred align p len h h' outputs :
  presented align h p len -> device_step outputs h h' -> transferred h' p len 0.
Proof.
  intros Hp [Hsh _ _]. split.
  - destruct Hp as [[_ ->]|(_ & _ & b & _ & _ & ->)]; [done|]. pose proof (zlen_nonneg (hb_data b)). lia.
  - intros Hne. exists []. split; [done|]. destruct Hp as [[? _]|(_ & _ & b & Hb & _)]; [done|].
    apply (f_equal (fun m => m !! p)) in Hsh. unfold shape in Hsh. rewrite !lookup_fmap, Hb in Hsh.
    apply fmap_Some in Hsh as (b' & Hb' & _). exists b'. by split.
Qed.
End Bench.
