(* ===== verification/Scsi.v ===== *)
(** * SCSI pass-through

    [ScsiRequest], its builder and response ([uefi/src/proto/scsi/mod.rs]) and the
    protocol that executes requests and enumerates the devices of a channel
    ([uefi/src/proto/scsi/pass_thru.rs]).  A request refines the buffers that it was
    given: the packet for the device points to exactly them, and every path gives
    back the memory. *)
From stdpp Require Import gmap.
From S2P Require Import Prelude Firmware Status BootMemory AlignedBuffer.

Module DataDirection.
Definition READ : Z := 0.
Definition WRITE : Z := 1.
Definition BIDIRECTIONAL : Z := 2.
End DataDirection.

Definition SCSI_TARGET_MAX_BYTES : nat := 16.

(** [ScsiIoScsiRequestPacket]; the pointers are addresses of heap blocks. *)
Module Packet.
Record t : Set := mk {
  timeout : Z;
  in_data_buffer : Z;
  out_data_buffer : Z;
  sense_data : Z;
  cdb : Z;
  in_transfer_length : Z;
  out_transfer_length : Z;
  cdb_length : Z;
  data_direction : Z;
  host_adapter_status : Z;
  target_status : Z;
  sense_data_length : Z;
}.

(** Assignments to the fields. *)
Definition set_timeout (v : Z) (p : t) : t :=
  mk v (in_data_buffer p) (out_data_buffer p) (sense_data p) (cdb p) (in_transfer_length p) (out_transfer_length p)
    (cdb_length p) (data_direction p) (host_adapter_status p) (target_status p) (sense_data_length p).
Definition set_in (ptr len : Z) (p : t) : t :=
  mk (timeout p) ptr (out_data_buffer p) (sense_data p) (cdb p) len (out_transfer_length p)
    (cdb_length p) (data_direction p) (host_adapter_status p) (target_status p) (sense_data_length p).
Definition set_out (ptr len : Z) (p : t) : t :=
  mk (timeout p) (in_data_buffer p) ptr (sense_data p) (cdb p) (in_transfer_length p) len
    (cdb_length p) (data_direction p) (host_adapter_status p) (target_status p) (sense_data_length p).
Definition set_sense (ptr len : Z) (p : t) : t :=
  mk (timeout p) (in_data_buffer p) (out_data_buffer p) ptr (cdb p) (in_transfer_length p) (out_transfer_length p)
    (cdb_length p) (data_direction p) (host_adapter_status p) (target_status p) len.
Definition set_cdb (ptr len : Z) (p : t) : t :=
  mk (timeout p) (in_data_buffer p) (out_data_buffer p) (sense_data p) ptr (in_transfer_length p) (out_transfer_length p)
    len (data_direction p) (host_adapter_status p) (target_status p) (sense_data_length p).
End Packet.

(** The builder wraps the request, and the response too. *)
Record ScsiRequest : Set := mkScsiRequest {
  packet : Packet.t;
  io_align : Z;
  in_data_buffer : option AlignedBuffer;
  out_data_buffer : option AlignedBuffer;
  sense_data_buffer : option AlignedBuffer;
  cdb_buffer : option AlignedBuffer;
}.

(** ** The builder *)

Definition builder_new (direction io_align : Z) : ScsiRequest :=
  mkScsiRequest (Packet.mk 0 0 0 0 0 0 0 0 direction 0 0 0) io_align None None None None.
Definition read (io_align : Z) : ScsiRequest := builder_new DataDirection.READ io_align.
Definition write (io_align : Z) : ScsiRequest := builder_new DataDirection.WRITE io_align.
Definition bidirectional (io_align : Z) : ScsiRequest := builder_new DataDirection.BIDIRECTIONAL io_align.

(** The timeout is given in nanoseconds. *)
Definition with_timeout (self : ScsiRequest) (timeout : Z) : ScsiRequest :=
  mkScsiRequest (Packet.set_timeout (wrap 64 (timeout / 100)) (packet self)) (io_align self)
    (in_data_buffer self) (out_data_buffer self) (sense_data_buffer self) (cdb_buffer self).

Section builder.
Context {W : Type} `{!Heap W}.

Definition request_drop (self : ScsiRequest) : fw W unit :=
  drop_fields [in_data_buffer self; out_data_buffer self; sense_data_buffer self; cdb_buffer self].

Definition use_read_buffer (self : ScsiRequest) (bfr : AlignedBuffer) : fw W (result ScsiRequest AlignmentError) :=
  owning (request_drop self) try _ <- lift (check_alignment bfr (io_align self));
  (drop_opt (in_data_buffer self);;
  mret (Ok (mkScsiRequest (Packet.set_in (ab_ptr bfr) (wrap 32 (ab_size bfr)) (packet self)) (io_align self)
    None (out_data_buffer self) (sense_data_buffer self) (cdb_buffer self)))).

Definition with_read_buffer (self : ScsiRequest) (len : Z) : fw W (result ScsiRequest LayoutError) :=
  owning (request_drop self) try bfr <- from_size_align len (io_align self);
  (drop_opt (in_data_buffer self);;
  mret (Ok (mkScsiRequest (Packet.set_in (ab_ptr bfr) (wrap 32 (ab_size bfr)) (packet self)) (io_align self)
    (Some bfr) (out_data_buffer self) (sense_data_buffer self) (cdb_buffer self)))).

Definition with_sense_buffer (self : ScsiRequest) (len : Z) : fw W (result ScsiRequest LayoutError) :=
  owning (request_drop self) try bfr <- from_size_align len (io_align self);
  (drop_opt (sense_data_buffer self);;
  mret (Ok (mkScsiRequest (Packet.set_sense (ab_ptr bfr) len (packet self)) (io_align self)
    (in_data_buffer self) (out_data_buffer self) (Some bfr) (cdb_buffer self)))).

Definition use_write_buffer (self : ScsiRequest) (bfr : AlignedBuffer) : fw W (result ScsiRequest AlignmentError) :=
  owning (request_drop self) try _ <- lift (check_alignment bfr (io_align self));
  (drop_opt (out_data_buffer self);;
  mret (Ok (mkScsiRequest (Packet.set_out (ab_ptr bfr) (wrap 32 (ab_size bfr)) (packet self)) (io_align self)
    (in_data_buffer self) None (sense_data_buffer self) (cdb_buffer self)))).

Definition with_write_data (self : ScsiRequest) (data : list Z) : fw W (result ScsiRequest LayoutError) :=
  owning (request_drop self) try bfr <- from_size_align (zlen data) (io_align self);
  (copy_from_slice bfr data;;
  drop_opt (out_data_buffer self);;
  mret (Ok (mkScsiRequest (Packet.set_out (ab_ptr bfr) (wrap 32 (ab_size bfr)) (packet self)) (io_align self)
    (in_data_buffer self) (Some bfr) (sense_data_buffer self) (cdb_buffer self)))).

Definition use_command_buffer (self : ScsiRequest) (data : AlignedBuffer) : fw W (result ScsiRequest AlignmentError) :=
  lift (assert_ (ab_size data <=? 255));;
  owning (request_drop self) try _ <- lift (check_alignment data (io_align self));
  (drop_opt (cdb_buffer self);;
  mret (Ok (mkScsiRequest (Packet.set_cdb (ab_ptr data) (wrap 8 (ab_size data)) (packet self)) (io_align self)
    (in_data_buffer self) (out_data_buffer self) (sense_data_buffer self) None))).

Definition with_command_data (self : ScsiRequest) (data : list Z) : fw W (result ScsiRequest LayoutError) :=
  lift (assert_ (zlen data <=? 255));;
  owning (request_drop self) try bfr <- from_size_align (zlen data) (io_align self);
  (copy_from_slice bfr data;;
  drop_opt (cdb_buffer self);;
  mret (Ok (mkScsiRequest (Packet.set_cdb (ab_ptr bfr) (wrap 8 (ab_size bfr)) (packet self)) (io_align self)
    (in_data_buffer self) (out_data_buffer self) (sense_data_buffer self) (Some bfr)))).

(** ** The response *)

Definition read_buffer (self : ScsiRequest) : fw W (option (list Z)) :=
  if Packet.in_data_buffer (packet self) =? 0 then mret None
  else d ← heap_slice (Packet.in_data_buffer (packet self)) (Packet.in_transfer_length (packet self)); mret (Some d).

Definition sense_data (self : ScsiRequest) : fw W (option (list Z)) :=
  if Packet.sense_data (packet self) =? 0 then mret None
  else d ← heap_slice (Packet.sense_data (packet self)) (Packet.sense_data_length (packet self)); mret (Some d).

Definition host_adapter_status (self : ScsiRequest) : Z := Packet.host_adapter_status (packet self).
Definition target_status (self : ScsiRequest) : Z := Packet.target_status (packet self).
End builder.

(** ** The protocol *)

Record ExtScsiPassThruMode : Set := mkMode { adapter_id : Z; attributes : Z; mode_io_align : Z }.

Definition ScsiTarget : Set := list Z.
Record ScsiTargetLun : Set := mkTargetLun { target_of : ScsiTarget; lun_of : Z }.
Definition target_lun_default : ScsiTargetLun := mkTargetLun (replicate SCSI_TARGET_MAX_BYTES 255) 0.

(** [efi_get_next_target_lun] returns the status, what it left in the target buffer
    it was given, the bytes behind the pointer when it exchanged the pointer, and
    the logical unit. *)
Class ScsiServices (W : Type) : Type := {
  passthru_mode : W -> ExtScsiPassThruMode;
  efi_scsi_pass_thru : ScsiTarget -> Z -> Packet.t -> W -> (Z * Packet.t) * W;
  efi_get_next_target_lun : ScsiTarget -> Z -> W -> (Z * ScsiTarget * option ScsiTarget * Z) * W;
  efi_scsi_build_device_path : ScsiTarget -> Z -> W -> (Z * Z) * W;
  efi_reset_channel : W -> Z * W;
  efi_reset_target_lun : ScsiTarget -> Z -> W -> Z * W;
}.

Section protocol.
Context {W : Type} `{!Heap W, !ScsiServices W}.

(** An alignment of zero means the same as one. *)
Definition mode : fw W ExtScsiPassThruMode := fun w =>
  let m := passthru_mode w in Ret (mkMode (adapter_id m) (attributes m) (Z.max (mode_io_align m) 1), w).

Definition proto_io_align : fw W Z := m ← mode; mret (mode_io_align m).

Definition alloc_io_buffer (len : Z) : fw W (result AlignedBuffer LayoutError) :=
  a ← proto_io_align; from_size_align len a.

Definition iter_devices : ScsiTargetLun := target_lun_default.

Definition reset_channel : fw W (uresult unit unit) :=
  s ← call efi_reset_channel; lift (to_result s).

(** A device is its address. *)
Definition path_node (self : ScsiTargetLun) : fw W (uresult Z unit) :=
  '(s, p) ← call (efi_scsi_build_device_path (target_of self) (lun_of self));
  try _ <- lift (to_result s);
  lift (nonnull p).

Definition device_reset (self : ScsiTargetLun) : fw W (uresult unit unit) :=
  s ← call (efi_reset_target_lun (target_of self) (lun_of self)); lift (to_result s).

(** The request is moved into the response; on an error it is dropped. *)
Definition execute_command (self : ScsiTargetLun) (scsi_req : ScsiRequest) : fw W (uresult ScsiRequest unit) :=
  '(s, pk) ← call (efi_scsi_pass_thru (target_of self) (lun_of self) (packet scsi_req));
  let scsi_req := mkScsiRequest pk (io_align scsi_req) (in_data_buffer scsi_req) (out_data_buffer scsi_req)
    (sense_data_buffer scsi_req) (cdb_buffer scsi_req) in
  r ← lift (to_result_with_val s scsi_req);
  match r with
  | Ok response => mret (Ok response)
  | Err e => request_drop scsi_req;; mret (Err e)
  end.

(** [ScsiTargetLunIterator::next]: the device, and the iterator. *)
Definition next (prev : ScsiTargetLun) : fw W (option ScsiTargetLun * ScsiTargetLun) :=
  '(result, target, exchanged, lun) ← call (efi_get_next_target_lun (target_of prev) (lun_of prev));
  let target := match exchanged with Some t => take SCSI_TARGET_MAX_BYTES t | None => target end in
  let prev := mkTargetLun target lun in
  if result =? Status.SUCCESS then mret (Some prev, prev)
  else if result =? Status.NOT_FOUND then mret (None, prev)
  else lift (Panic Explicit).

End protocol.

(** ** What a request stands for *)

(** The buffers and parameters that a request was given. *)
Record offer : Set := mkOffer {
  o_align : Z; o_direction : Z; o_timeout : Z;
  o_in : supply; o_out : supply; o_sense : supply; o_cdb : supply;
}.

Definition slots (self : ScsiRequest) (o : offer) : list slot :=
  [mkSlot (Packet.in_data_buffer (packet self)) (Packet.in_transfer_length (packet self)) (in_data_buffer self) (o_in o);
   mkSlot (Packet.out_data_buffer (packet self)) (Packet.out_transfer_length (packet self)) (out_data_buffer self) (o_out o);
   mkSlot (Packet.sense_data (packet self)) (Packet.sense_data_length (packet self)) (sense_data_buffer self) (o_sense o);
   mkSlot (Packet.cdb (packet self)) (Packet.cdb_length (packet self)) (cdb_buffer self) (o_cdb o)].

(** The calls of the builder, and what each of them changes. *)
Inductive op : Set :=
| Timeout (t : Z) | UseReadBuffer (b : AlignedBuffer) | WithReadBuffer (n : Z) | WithSenseBuffer (n : Z)
| UseWriteBuffer (b : AlignedBuffer) | WithWriteData (d : list Z)
| UseCommandBuffer (b : AlignedBuffer) | WithCommandData (d : list Z).

Definition give (o : offer) (x : op) : offer :=
  let '(mkOffer a d t i u s c) := o in
  match x with
  | Timeout t => mkOffer a d (wrap 64 (t / 100)) i u s c
  | UseReadBuffer b => mkOffer a d t (Borrowed b) u s c
  | WithReadBuffer n => mkOffer a d t (Space n) u s c
  | WithSenseBuffer n => mkOffer a d t i u (Space n) c
  | UseWriteBuffer b => mkOffer a d t i (Borrowed b) s c
  | WithWriteData x => mkOffer a d t i (Filled x) s c
  | UseCommandBuffer b => mkOffer a d t i u s (Borrowed b)
  | WithCommandData x => mkOffer a d t i u s (Filled x)
  end.

Section refinement.
Context {W : Type} `{!Heap W, !HeapLaws W} (base : gmap Z Layout).

Definition apply_op (self : ScsiRequest) (x : op) : fw W (result ScsiRequest unit) :=
  match x with
  | Timeout t => mret (Ok (with_timeout self t))
  | UseReadBuffer b => any_error (use_read_buffer self b)
  | WithReadBuffer n => any_error (with_read_buffer self n)
  | WithSenseBuffer n => any_error (with_sense_buffer self n)
  | UseWriteBuffer b => any_error (use_write_buffer self b)
  | WithWriteData d => any_error (with_write_data self d)
  | UseCommandBuffer b => any_error (use_command_buffer self b)
  | WithCommandData d => any_error (with_command_data self d)
  end.

(** A borrowed buffer is one of the caller's; sizes are not zero and fit in the
    fields of the packet. *)
Definition op_ok (x : op) : Prop :=
  match x with
  | Timeout _ => True
  | UseReadBuffer b | UseWriteBuffer b => caller_buffer base b /\ 0 <= ab_size b < 2 ^ 32
  | WithReadBuffer n => 0 < n < 2 ^ 32
  | WithSenseBuffer n => 0 < n < 2 ^ 8
  | WithWriteData d => 0 < zlen d < 2 ^ 32
  | UseCommandBuffer b => caller_buffer base b /\ 0 <= ab_size b < 2 ^ 8
  | WithCommandData d => 0 < zlen d < 2 ^ 8
  end.

Definition represents (o : offer) (self : ScsiRequest) (w : W) : Prop :=
  0 < o_align o /\ io_align self = o_align o /\ Packet.data_direction (packet self) = o_direction o /\
  Packet.timeout (packet self) = o_timeout o /\ held (o_align o) base (slots self o) (heap w).

Ltac unfolds := unfold represents, slots; cbn; split_and!; [done..|].

Lemma scsi_op_refines o self x w :
  represents o self w -> op_ok x -> guarded (apply_op self x) w (refined base (represents (give o x))).
Proof.
  destruct self as [[t i u se c il ul cl d hs ts sl] al bi bu bs bc], o as [oa od ot oi ou os oc].
  intros (Hal & Ea & Ed & Et & Hh) Hok. cbn in Ea, Ed, Et, Hok, Hal |- *. subst oa od ot. unfold slots in Hh. cbn in Hh.
  set (s1 := mkSlot i il bi oi) in Hh. set (s2 := mkSlot u ul bu ou) in Hh.
  set (s3 := mkSlot se sl bs os) in Hh. set (s4 := mkSlot c cl bc oc) in Hh.
  destruct x as [t'|b|n|n|b|x|b|x]; cbn [apply_op give refined]; cbn [op_ok] in Hok.
  - by apply guarded_ret.
  - destruct Hok as [Hb Hn]. supplied by (supply_borrowed al base [] s1 [s2; s3; s4]) with unfolds.
  - supplied by (supply_space al base [] s1 [s2; s3; s4]) with unfolds.
  - supplied by (supply_space al base [s1; s2] s3 [s4]) with unfolds.
  - destruct Hok as [Hb Hn]. supplied by (supply_borrowed al base [s1] s2 [s3; s4]) with unfolds.
  - supplied by (supply_filled al base [s1] s2 [s3; s4]) with unfolds.
  - destruct Hok as [Hb Hn]. unfold use_command_buffer. rewrite (proj2 (Z.leb_le _ _)) by lia. supplied by (supply_borrowed al base [s1; s2; s3] s4 []) with unfolds.
  - unfold with_command_data. rewrite (proj2 (Z.leb_le _ _)) by lia. supplied by (supply_filled al base [s1; s2; s3] s4 []) with unfolds.
Qed.

Definition offer_new (direction align : Z) : offer := mkOffer align direction 0 Absent Absent Absent Absent.

Lemma scsi_builder_new_represents direction align w :
  shape (heap w) = base -> full_blocks (heap w) -> 0 < align ->
  represents (offer_new direction align) (builder_new direction align) w.
Proof.
  intros Hs Hf Ha. split_and!; [done..|]. unfold slots. cbn. rewrite !held_absent. by apply held_nil.
Qed.
End refinement.

(** ** Sessions with a device *)

(** The packet describes buffers as the firmware requires them. *)
Definition describes (pk : Packet.t) (h : gmap Z HeapBlock) : Prop :=
  exists align, presented align h (Packet.in_data_buffer pk) (Packet.in_transfer_length pk) /\
    presented align h (Packet.out_data_buffer pk) (Packet.out_transfer_length pk) /\
    presented align h (Packet.sense_data pk) (Packet.sense_data_length pk) /\
    presented align h (Packet.cdb pk) (Packet.cdb_length pk).

(** What the specification promises: the packet's pointers are left alone, the
    device stores in the input and sense buffers only, and a success reports in
    the lengths how much it stored. *)
Class ScsiLaws (W : Type) `{!Heap W, !ScsiServices W} : Prop := {
  scsi_device : forall t l pk (w : W) s pk' w',
    efi_scsi_pass_thru t l pk w = ((s, pk'), w') -> describes pk (heap w) ->
    Packet.in_data_buffer pk' = Packet.in_data_buffer pk /\ Packet.sense_data pk' = Packet.sense_data pk /\
    device_step [Packet.in_data_buffer pk; Packet.sense_data pk] (heap w) (heap w') /\
    (s = 0 ->
     transferred (heap w') (Packet.in_data_buffer pk) (Packet.in_transfer_length pk) (Packet.in_transfer_length pk') /\
     transferred (heap w') (Packet.sense_data pk) (Packet.sense_data_length pk) (Packet.sense_data_length pk'))
}.

Section sessions.
Context {W : Type} `{!Heap W, !HeapLaws W, !ScsiServices W, !ScsiLaws W}.

(** A client that builds a request, executes it, and looks at the response. *)
Definition session (dev : ScsiTargetLun) (direction align : Z) (xs : list op)
  : fw W (result (option (list Z) * option (list Z)) unit) :=
  try req <- run_ops apply_op (builder_new direction align) xs;
  r ← execute_command dev req;
  match r with
  | Err _ => mret (Err tt)
  | Ok response =>
      data ← read_buffer response;
      sense ← sense_data response;
      request_drop response;;
      mret (Ok (data, sense))
  end.

Lemma represents_describes base o req (w : W) : represents base o req w -> describes (packet req) (heap w).
Proof.
  intros (_ & _ & _ & _ & Hh%held_all_presented). unfold slots in Hh. rewrite !Forall_cons in Hh.
  destruct Hh as (H1 & H2 & H3 & H4 & _). by exists (o_align o).
Qed.


(** What the client sees, and what the device was asked. *)
Definition answered (base : gmap Z Layout) (dev : ScsiTargetLun) (o : offer) (data sense : option (list Z)) : Prop :=
  exists req (w1 : W) pk w2,
    represents base o req w1 /\
    efi_scsi_pass_thru (target_of dev) (lun_of dev) (packet req) w1 = ((0, pk), w2) /\
    received (heap w2) (o_in o) (Packet.in_data_buffer (packet req)) (Packet.in_transfer_length pk) data /\
    received (heap w2) (o_sense o) (Packet.sense_data (packet req)) (Packet.sense_data_length pk) sense.

Lemma scsi_execute_refines base dev o req (w : W) :
  represents base o req w ->
  runs (r ← execute_command dev req;
    match r with
    | Err _ => mret (Err tt)
    | Ok response =>
        data ← read_buffer response; sense ← sense_data response; request_drop response;; mret (Ok (data, sense))
    end) w
    (fun r w' => shape (heap w') = base /\ forall data sense, r = Ok (data, sense) -> answered base dev o data sense).
Proof.
  intros Hr. pose proof (represents_describes _ _ _ _ Hr) as Hpk. pose proof Hr as (_ & _ & _ & _ & Hh).
  unfold execute_command. repeat runs_step.
  destruct (efi_scsi_pass_thru _ _ (packet req) w) as [[s pk] w2] eqn:E.
  destruct (scsi_device _ _ _ _ _ _ _ E Hpk) as (Ei & Es & Hdev & Hok). cbn [fst snd]. repeat runs_step.
  eapply runs_lift; [apply to_result_with_val_cases|]. destruct (Z.eqb_spec s 0) as [->|Hs].
  - destruct (Hok eq_refl) as [Ti Ts]. repeat runs_step. unfold read_buffer. cbn [packet]. rewrite Ei.
    eapply runs_weaken; [eapply (slice_received _ _ _ _ _ _ _ _ _ _ Hh); [left|exact Ti]|].
    intros data ? [-> Hdata]. runs_step. unfold sense_data. cbn [packet]. rewrite Es.
    eapply runs_weaken; [eapply (slice_received _ _ _ _ _ _ _ _ _ _ Hh); [right; right; left|exact Ts]|].
    intros sense ? [-> Hsense]. runs_step. eapply runs_weaken; [exact (held_device_drop _ _ _ _ _ _ Hh Hdev)|].
    intros ? w3 Hsh. cbv beta in Hsh. runs_step. split; [done|]. intros ? ? [= <- <-]. exists req, w, pk, w2. by split_and!.
  - repeat runs_step. eapply runs_weaken; [exact (held_device_drop _ _ _ _ _ _ Hh Hdev)|].
    intros ? w3 Hsh. cbv beta in Hsh. repeat runs_step. by split.
Qed.

End sessions.

(** ** Enumerating the devices *)

(** The addresses on the channel.  The target with all bits set asks for the first
    one, an address for the one after it; the answer is stored in the buffer or
    behind a new pointer. *)
Class ScsiBus (W : Type) `{!ScsiServices W} : Type := {
  bus : W -> list ScsiTargetLun;
  bus_next : forall i prev (w : W),
    match i with O => prev = target_lun_default | S j => bus w !! j = Some prev end ->
    let '((s, target, exchanged, lun), w') := efi_get_next_target_lun (target_of prev) (lun_of prev) w in
    bus w' = bus w /\
    match bus w !! i with
    | Some d => s = Status.SUCCESS /\ lun = lun_of d /\
        default target (take SCSI_TARGET_MAX_BYTES <$> exchanged) = target_of d
    | None => s = Status.NOT_FOUND
    end;
}.

Section enumeration.
Context {W : Type} `{!ScsiServices W, !ScsiBus W}.

Definition at_device (i : nat) (prev : ScsiTargetLun) (w : W) : Prop :=
  match i with O => prev = target_lun_default | S j => bus w !! j = Some prev end.

Lemma scsi_next_runs i prev w : at_device i prev w ->
  runs (next prev) w (fun r w' => bus w' = bus w /\ r.1 = bus w !! i /\ (is_Some r.1 -> at_device (S i) r.2 w')).
Proof.
  intros Hi. unfold next. repeat runs_step. pose proof (bus_next i prev w Hi) as Hn.
  destruct (efi_get_next_target_lun _ _ w) as [[[[s t] e] l] w1]. destruct Hn as [Eb Hn]. cbn [fst snd].
  destruct (bus w !! i) as [d|] eqn:Ed.
  - destruct Hn as (-> & -> & Et). rewrite Z.eqb_refl. runs_step.
    match goal with |- context [mkTargetLun ?x (lun_of d)] => assert (mkTargetLun x (lun_of d) = d) as -> end.
    { destruct d as [td ld]. cbn in *. f_equal. by destruct e. }
    split; [done|]. split; [done|]. intros _. cbn. by rewrite Eb.
  - subst s. change (Status.NOT_FOUND =? Status.SUCCESS) with false. rewrite Z.eqb_refl. runs_step.
    split; [done|]. split; [done|]. by intros [? ?].
Qed.

(** Iterating over the devices terminates and yields exactly the addresses on the
    channel, in the firmware's order, wherever it stores its answers. *)
Theorem scsi_devices_complete (w : W) (fuel : nat) :
  (length (bus w) < fuel)%nat -> exists w', collect_iter next fuel iter_devices w = Ret (bus w, w').
Proof.
  intros Hf. destruct (collect_iter_runs next bus at_device scsi_next_runs fuel target_lun_default w)
    as (ds & w' & E & ->); [done|lia|]. by exists w'.
Qed.
End enumeration.

(** ** A channel with two devices *)

Module Channel.
Definition address (b : Z) : ScsiTargetLun := mkTargetLun (replicate SCSI_TARGET_MAX_BYTES b) 0.
Definition addresses : list ScsiTargetLun := [address 1; address 2].

(** The device stores up to five bytes; the channel exchanges the pointer for the
    second device. *)
#[global] Instance channel : ScsiServices Bench.world := {|
  passthru_mode _ := mkMode 0 0 0;
  efi_scsi_pass_thru _ _ pk w :=
    ((0, Packet.set_sense (Packet.sense_data pk) 0
          (Packet.set_in (Packet.in_data_buffer pk) (Z.min 5 (Packet.in_transfer_length pk)) pk)),
     Bench.fill 7 (Packet.in_data_buffer pk) 5 w);
  efi_get_next_target_lun target lun w :=
    (if decide (target = target_of target_lun_default) then (Status.SUCCESS, target_of (address 1), None, 0)
     else if decide (target = target_of (address 1)) then (Status.SUCCESS, target, Some (target_of (address 2)), 0)
     else (Status.NOT_FOUND, target, None, lun), w);
  efi_scsi_build_device_path _ _ w := ((Status.UNSUPPORTED, 0), w);
  efi_reset_channel w := (Status.UNSUPPORTED, w);
  efi_reset_target_lun _ _ w := (Status.UNSUPPORTED, w);
|}.

#[global] Instance channel_laws : ScsiLaws Bench.world.
Proof.
  split. intros t l pk w s pk' w' [= <- <- <-] (al & Hi & _ & Hs & _). cbn. split_and!; [done..| |].
  - apply Bench.fill_step. left.
  - intros _. split; [by eapply Bench.fill_transferred|]. eapply Bench.none_transferred; [exact Hs|].
    apply (Bench.fill_step _ _ _ _ [Packet.in_data_buffer pk]). left.
Qed.

#[global, refine] Instance channel_bus : ScsiBus Bench.world := {| bus _ := addresses |}.
Proof.
  intros [|[|[|i]]] prev w; cbn; [intros ->|intros [= <-]|intros [= <-]|done]; vm_compute; done.
Defined.

Definition borrowed : AlignedBuffer := mkAlignedBuffer 64 (mkLayout 4 4).
Definition initial : Bench.world := {[ 64 := mkHeapBlock (mkLayout 4 4) [Some 1; Some 2; Some 3; Some 4] ]}.
Definition inquiry : list op :=
  [WithReadBuffer 36; UseWriteBuffer borrowed; WithSenseBuffer 18; WithReadBuffer 8; WithCommandData [18; 0; 0; 0; 36; 0]].
End Channel.


Lemma scsi_devices_complete_witness :
  omap fst (collect_iter next 3 iter_devices Channel.initial) = Ret Channel.addresses.
Proof.
  destruct (scsi_devices_complete Channel.initial 3) as (w' & ->); [cbn; lia|reflexivity].
Defined.

(** The slices of a response carry the lifetime of the borrowed buffers, not that
    of the response that owns the others: a slice of an owned buffer may be used
    after the response is dropped, when its memory is gone. *)
Example response_slice_dangles :
  (r ← with_read_buffer (read 4) 36;
   match r with
   | Ok req =>
       r ← execute_command (Channel.address 1) req;
       match r with Ok response => request_drop response;; read_buffer response | Err _ => mret None end
   | Err _ => mret None
   end) Channel.initial = Undefined.
Proof. vm_compute. reflexivity. Qed.

(** A read buffer without bytes is allocated with a layout of size zero. *)
Example empty_read_buffer_undefined : with_read_buffer (read 4) 0 Channel.initial = Undefined.
Proof. vm_compute. reflexivity. Qed.

(** The length of a buffer of four gigabytes is truncated to zero. *)
Example huge_buffer_truncated :
  omap fst ((r ← use_read_buffer (read 4) (mkAlignedBuffer 64 (mkLayout (2 ^ 32) 4));
    mret (match r with Ok req => Some (Packet.in_transfer_length (packet req)) | Err _ => None end)) Channel.initial)
  = Ret (Some 0).
Proof. vm_compute. reflexivity. Qed.
