(* ===== verification/Nvme.v ===== *)
(** * NVMe pass-through

    [NvmeRequest], its builder and response ([uefi/src/proto/nvme/mod.rs]) and the
    protocol that executes requests and enumerates the namespaces of a controller
    ([uefi/src/proto/nvme/pass_thru.rs]). *)
From stdpp Require Import gmap.
From S2P Require Import Prelude Firmware Status BootMemory AlignedBuffer.

(** [NvmExpressCommand]. *)
Module Command.
Record t : Set := mk {
  cdw0 : Z;
  flags : Z;
  nsid : Z;
  cdw2 : Z;
  cdw3 : Z;
  cdw10 : Z;
  cdw11 : Z;
  cdw12 : Z;
  cdw13 : Z;
  cdw14 : Z;
  cdw15 : Z;
}.
Definition default : t := mk 0 0 0 0 0 0 0 0 0 0 0.

(** Assignments to the fields; a data word is marked as valid with its flag. *)
Definition set_nsid (v : Z) (c : t) : t :=
  mk (cdw0 c) (flags c) v (cdw2 c) (cdw3 c) (cdw10 c) (cdw11 c) (cdw12 c) (cdw13 c) (cdw14 c) (cdw15 c).
Definition set_cdw2 (v : Z) (c : t) : t :=
  mk (cdw0 c) (Z.lor (flags c) 0x01) (nsid c) v (cdw3 c) (cdw10 c) (cdw11 c) (cdw12 c) (cdw13 c) (cdw14 c) (cdw15 c).
Definition set_cdw3 (v : Z) (c : t) : t :=
  mk (cdw0 c) (Z.lor (flags c) 0x02) (nsid c) (cdw2 c) v (cdw10 c) (cdw11 c) (cdw12 c) (cdw13 c) (cdw14 c) (cdw15 c).
Definition set_cdw10 (v : Z) (c : t) : t :=
  mk (cdw0 c) (Z.lor (flags c) 0x04) (nsid c) (cdw2 c) (cdw3 c) v (cdw11 c) (cdw12 c) (cdw13 c) (cdw14 c) (cdw15 c).
Definition set_cdw11 (v : Z) (c : t) : t :=
  mk (cdw0 c) (Z.lor (flags c) 0x08) (nsid c) (cdw2 c) (cdw3 c) (cdw10 c) v (cdw12 c) (cdw13 c) (cdw14 c) (cdw15 c).
Definition set_cdw12 (v : Z) (c : t) : t :=
  mk (cdw0 c) (Z.lor (flags c) 0x10) (nsid c) (cdw2 c) (cdw3 c) (cdw10 c) (cdw11 c) v (cdw13 c) (cdw14 c) (cdw15 c).
Definition set_cdw13 (v : Z) (c : t) : t :=
  mk (cdw0 c) (Z.lor (flags c) 0x20) (nsid c) (cdw2 c) (cdw3 c) (cdw10 c) (cdw11 c) (cdw12 c) v (cdw14 c) (cdw15 c).
Definition set_cdw14 (v : Z) (c : t) : t :=
  mk (cdw0 c) (Z.lor (flags c) 0x40) (nsid c) (cdw2 c) (cdw3 c) (cdw10 c) (cdw11 c) (cdw12 c) (cdw13 c) v (cdw15 c).
Definition set_cdw15 (v : Z) (c : t) : t :=
  mk (cdw0 c) (Z.lor (flags c) 0x80) (nsid c) (cdw2 c) (cdw3 c) (cdw10 c) (cdw11 c) (cdw12 c) (cdw13 c) (cdw14 c) v.

(** The command data words, in the order of their flags. *)
Definition cdws (c : t) : list Z :=
  [cdw2 c; cdw3 c; cdw10 c; cdw11 c; cdw12 c; cdw13 c; cdw14 c; cdw15 c].
End Command.

(** [NvmExpressCompletion]. *)
Record NvmeCompletion : Set := mkCompletion { dw0 : Z; dw1 : Z; dw2 : Z; dw3 : Z }.
Definition completion_default : NvmeCompletion := mkCompletion 0 0 0 0.

(** [NvmExpressPassThruCommandPacket]; the buffers are addresses of heap blocks, and
    the command and the completion are what the pointers refer to, if not null. *)
Module Packet.
Record t : Set := mk {
  command_timeout : Z;
  transfer_buffer : Z;
  transfer_length : Z;
  meta_data_buffer : Z;
  meta_data_length : Z;
  queue_type : Z;
  nvme_cmd : option Command.t;
  nvme_completion : option NvmeCompletion;
}.

Definition set_timeout (v : Z) (p : t) : t :=
  mk v (transfer_buffer p) (transfer_length p) (meta_data_buffer p) (meta_data_length p) (queue_type p) (nvme_cmd p) (nvme_completion p).
Definition set_transfer (ptr len : Z) (p : t) : t :=
  mk (command_timeout p) ptr len (meta_data_buffer p) (meta_data_length p) (queue_type p) (nvme_cmd p) (nvme_completion p).
Definition set_meta (ptr len : Z) (p : t) : t :=
  mk (command_timeout p) (transfer_buffer p) (transfer_length p) ptr len (queue_type p) (nvme_cmd p) (nvme_completion p).
Definition set_cmd (c : Command.t) (d : NvmeCompletion) (p : t) : t :=
  mk (command_timeout p) (transfer_buffer p) (transfer_length p) (meta_data_buffer p) (meta_data_length p) (queue_type p) (Some c) (Some d).
End Packet.

Module QueueType.
Definition ADMIN : Z := 0.
Definition IO : Z := 1.
End QueueType.

(** The builder wraps the request. *)
Record NvmeRequest : Set := mkNvmeRequest {
  io_align : Z;
  cmd : Command.t;
  packet : Packet.t;
  transfer_buffer : option AlignedBuffer;
  meta_data_buffer : option AlignedBuffer;
}.
Record NvmeResponse : Set := mkNvmeResponse { req : NvmeRequest; completion : NvmeCompletion }.

(** ** The builder *)

Definition builder_new (io_align opcode queue_type : Z) : NvmeRequest :=
  mkNvmeRequest io_align (Command.mk opcode 0 0 0 0 0 0 0 0 0 0) (Packet.mk 0 0 0 0 0 queue_type None None) None None.

(** The timeout is given in nanoseconds. *)
Definition with_timeout (self : NvmeRequest) (timeout : Z) : NvmeRequest :=
  mkNvmeRequest (io_align self) (cmd self) (Packet.set_timeout (wrap 64 (timeout / 100)) (packet self))
    (transfer_buffer self) (meta_data_buffer self).

Definition with_cdw2 (self : NvmeRequest) (v : Z) : NvmeRequest :=
  mkNvmeRequest (io_align self) (Command.set_cdw2 v (cmd self)) (packet self) (transfer_buffer self) (meta_data_buffer self).
Definition with_cdw3 (self : NvmeRequest) (v : Z) : NvmeRequest :=
  mkNvmeRequest (io_align self) (Command.set_cdw3 v (cmd self)) (packet self) (transfer_buffer self) (meta_data_buffer self).
Definition with_cdw10 (self : NvmeRequest) (v : Z) : NvmeRequest :=
  mkNvmeRequest (io_align self) (Command.set_cdw10 v (cmd self)) (packet self) (transfer_buffer self) (meta_data_buffer self).
Definition with_cdw11 (self : NvmeRequest) (v : Z) : NvmeRequest :=
  mkNvmeRequest (io_align self) (Command.set_cdw11 v (cmd self)) (packet self) (transfer_buffer self) (meta_data_buffer self).
Definition with_cdw12 (self : NvmeRequest) (v : Z) : NvmeRequest :=
  mkNvmeRequest (io_align self) (Command.set_cdw12 v (cmd self)) (packet self) (transfer_buffer self) (meta_data_buffer self).
Definition with_cdw13 (self : NvmeRequest) (v : Z) : NvmeRequest :=
  mkNvmeRequest (io_align self) (Command.set_cdw13 v (cmd self)) (packet self) (transfer_buffer self) (meta_data_buffer self).
Definition with_cdw14 (self : NvmeRequest) (v : Z) : NvmeRequest :=
  mkNvmeRequest (io_align self) (Command.set_cdw14 v (cmd self)) (packet self) (transfer_buffer self) (meta_data_buffer self).
Definition with_cdw15 (self : NvmeRequest) (v : Z) : NvmeRequest :=
  mkNvmeRequest (io_align self) (Command.set_cdw15 v (cmd self)) (packet self) (transfer_buffer self) (meta_data_buffer self).

Section builder.
Context {W : Type} `{!Heap W}.

Definition request_drop (self : NvmeRequest) : fw W unit := drop_fields [transfer_buffer self; meta_data_buffer self].

Definition use_transfer_buffer (self : NvmeRequest) (bfr : AlignedBuffer) : fw W (result NvmeRequest AlignmentError) :=
  owning (request_drop self) try _ <- lift (check_alignment bfr (io_align self));
  (drop_opt (transfer_buffer self);;
  mret (Ok (mkNvmeRequest (io_align self) (cmd self)
    (Packet.set_transfer (ab_ptr bfr) (wrap 32 (ab_size bfr)) (packet self)) None (meta_data_buffer self)))).

Definition with_transfer_buffer (self : NvmeRequest) (len : Z) : fw W (result NvmeRequest LayoutError) :=
  owning (request_drop self) try bfr <- from_size_align len (io_align self);
  (drop_opt (transfer_buffer self);;
  mret (Ok (mkNvmeRequest (io_align self) (cmd self)
    (Packet.set_transfer (ab_ptr bfr) (wrap 32 (ab_size bfr)) (packet self)) (Some bfr) (meta_data_buffer self)))).

Definition use_metadata_buffer (self : NvmeRequest) (bfr : AlignedBuffer) : fw W (result NvmeRequest AlignmentError) :=
  owning (request_drop self) try _ <- lift (check_alignment bfr (io_align self));
  (drop_opt (meta_data_buffer self);;
  mret (Ok (mkNvmeRequest (io_align self) (cmd self)
    (Packet.set_meta (ab_ptr bfr) (wrap 32 (ab_size bfr)) (packet self)) (transfer_buffer self) None))).

Definition with_metadata_buffer (self : NvmeRequest) (len : Z) : fw W (result NvmeRequest LayoutError) :=
  owning (request_drop self) try bfr <- from_size_align len (io_align self);
  (drop_opt (meta_data_buffer self);;
  mret (Ok (mkNvmeRequest (io_align self) (cmd self)
    (Packet.set_meta (ab_ptr bfr) (wrap 32 (ab_size bfr)) (packet self)) (transfer_buffer self) (Some bfr)))).

(** ** The response *)

Definition response_transfer_buffer (self : NvmeResponse) : fw W (option (list Z)) :=
  if Packet.transfer_buffer (packet (req self)) =? 0 then mret None
  else d ← heap_slice (Packet.transfer_buffer (packet (req self))) (Packet.transfer_length (packet (req self)));
       mret (Some d).

Definition metadata_buffer (self : NvmeResponse) : fw W (option (list Z)) :=
  if Packet.meta_data_buffer (packet (req self)) =? 0 then mret None
  else d ← heap_slice (Packet.meta_data_buffer (packet (req self))) (Packet.meta_data_length (packet (req self)));
       mret (Some d).
End builder.

(** ** The protocol *)

Record NvmePassThruMode : Set := mkMode { attributes : Z; mode_io_align : Z; nvme_version : Z }.

(** [efi_nvme_pass_thru] returns the status, the packet and what it stored as the
    completion. *)
Class NvmeServices (W : Type) : Type := {
  nvme_mode : W -> NvmePassThruMode;
  efi_nvme_pass_thru : Z -> Packet.t -> W -> (Z * Packet.t * NvmeCompletion) * W;
  efi_get_next_namespace : Z -> W -> (Z * Z) * W;
  efi_nvme_build_device_path : Z -> W -> (Z * Z) * W;
}.

Section protocol.
Context {W : Type} `{!Heap W, !NvmeServices W}.

Definition mode : fw W NvmePassThruMode := fun w => Ret (nvme_mode w, w).
Definition proto_io_align : fw W Z := m ← mode; mret (mode_io_align m).
Definition alloc_io_buffer (len : Z) : fw W (result AlignedBuffer LayoutError) :=
  a ← proto_io_align; from_size_align len a.

(** An iterator is the namespace it returned last, and a namespace is its id. *)
Definition iter_namespaces : Z := 0xFFFFFFFF.
Definition controller : Z := 0.

Definition path_node (namespace_id : Z) : fw W (uresult Z unit) :=
  '(s, p) ← call (efi_nvme_build_device_path namespace_id);
  try _ <- lift (to_result s);
  lift (nonnull p).

(** The request is moved into the response; on an error it is dropped. *)
Definition execute_command (namespace_id : Z) (req : NvmeRequest) : fw W (uresult NvmeResponse unit) :=
  let cmd := Command.set_nsid namespace_id (cmd req) in
  '(s, pk, completion) ← call (efi_nvme_pass_thru namespace_id (Packet.set_cmd cmd completion_default (packet req)));
  let req := mkNvmeRequest (io_align req) cmd pk (transfer_buffer req) (meta_data_buffer req) in
  r ← lift (to_result_with_val s (mkNvmeResponse req completion));
  match r with
  | Ok response => mret (Ok response)
  | Err e => request_drop req;; mret (Err e)
  end.

(** [NvmeNamespaceIterator::next]. *)
Definition next (prev : Z) : fw W (option Z * Z) :=
  '(result, prev) ← call (efi_get_next_namespace prev);
  if result =? Status.SUCCESS then mret (Some prev, prev)
  else if result =? Status.NOT_FOUND then mret (None, prev)
  else lift (Panic Explicit).
End protocol.

(** ** What a request stands for *)

(** The parameters that a request was given; [o_cdws] has the data words that
    were set. *)
Record offer : Set := mkOffer {
  o_align : Z; o_opcode : Z; o_queue : Z; o_timeout : Z; o_cdws : list (option Z); o_transfer : supply; o_meta : supply;
}.

Definition slots (self : NvmeRequest) (o : offer) : list slot :=
  [mkSlot (Packet.transfer_buffer (packet self)) (Packet.transfer_length (packet self)) (transfer_buffer self) (o_transfer o);
   mkSlot (Packet.meta_data_buffer (packet self)) (Packet.meta_data_length (packet self)) (meta_data_buffer self) (o_meta o)].

Inductive op : Set :=
| Timeout (t : Z) | Cdw (i : nat) (v : Z)
| UseTransferBuffer (b : AlignedBuffer) | WithTransferBuffer (n : Z)
| UseMetadataBuffer (b : AlignedBuffer) | WithMetadataBuffer (n : Z).

Definition give (o : offer) (x : op) : offer :=
  let '(mkOffer a c q t ds d m) := o in
  match x with
  | Timeout t => mkOffer a c q (wrap 64 (t / 100)) ds d m
  | Cdw i v => mkOffer a c q t (<[i := Some v]> ds) d m
  | UseTransferBuffer b => mkOffer a c q t ds (Borrowed b) m
  | WithTransferBuffer n => mkOffer a c q t ds (Space n) m
  | UseMetadataBuffer b => mkOffer a c q t ds d (Borrowed b)
  | WithMetadataBuffer n => mkOffer a c q t ds d (Space n)
  end.

(** The command that the controller is to see: a data word that was not set is zero
    and not marked as valid. *)
Definition commands (o : offer) (c : Command.t) : Prop :=
  Command.cdw0 c = o_opcode o /\ length (o_cdws o) = 8%nat /\ Command.cdws c = default 0 <$> o_cdws o /\
  forall i, (i < 8)%nat -> Z.testbit (Command.flags c) (Z.of_nat i) = bool_decide (is_Some (mjoin (o_cdws o !! i))).

Section refinement.
Context {W : Type} `{!Heap W, !HeapLaws W} (base : gmap Z Layout).

(** The setters of the data words. *)
Definition setters : list (NvmeRequest -> Z -> NvmeRequest) :=
  [with_cdw2; with_cdw3; with_cdw10; with_cdw11; with_cdw12; with_cdw13; with_cdw14; with_cdw15].

Definition apply_op (self : NvmeRequest) (x : op) : fw W (result NvmeRequest unit) :=
  match x with
  | Timeout t => mret (Ok (with_timeout self t))
  | Cdw i v => mret (Ok (match setters !! i with Some set => set self v | None => self end))
  | UseTransferBuffer b => any_error (use_transfer_buffer self b)
  | WithTransferBuffer n => any_error (with_transfer_buffer self n)
  | UseMetadataBuffer b => any_error (use_metadata_buffer self b)
  | WithMetadataBuffer n => any_error (with_metadata_buffer self n)
  end.

Definition op_ok (x : op) : Prop :=
  match x with
  | Timeout _ => True
  | Cdw i _ => (i < 8)%nat
  | UseTransferBuffer b | UseMetadataBuffer b => caller_buffer base b /\ 0 <= ab_size b < 2 ^ 32
  | WithTransferBuffer n | WithMetadataBuffer n => 0 < n < 2 ^ 32
  end.

Definition represents (o : offer) (self : NvmeRequest) (w : W) : Prop :=
  0 < o_align o /\ io_align self = o_align o /\ Packet.queue_type (packet self) = o_queue o /\
  Packet.command_timeout (packet self) = o_timeout o /\ commands o (cmd self) /\
  held (o_align o) base (slots self o) (heap w).

(** Setting a word sets its flag. *)
Lemma set_cdw_commands o c c' k v :
  commands o c -> (k < 8)%nat ->
  Command.cdw0 c' = Command.cdw0 c -> Command.cdws c' = <[k := v]> (Command.cdws c) ->
  Command.flags c' = Z.lor (Command.flags c) (2 ^ Z.of_nat k) ->
  commands (give o (Cdw k v)) c'.
Proof.
  destruct o as [a q qt t ds d m]. intros (E0 & El & Ec & Ef) Hk H0 Hc Hf. cbn in *. split_and!; cbn.
  - congruence.
  - by rewrite length_insert.
  - by rewrite Hc, Ec, list_fmap_insert.
  - intros i Hi. rewrite Hf, Z.lor_spec, Z.pow2_bits_eqb, Ef by lia. destruct (decide (i = k)) as [->|Hne].
    + rewrite list_lookup_insert_eq by lia. by rewrite Z.eqb_refl, orb_true_r.
    + rewrite list_lookup_insert_ne by done. rewrite (proj2 (Z.eqb_neq _ _)) by lia. by rewrite orb_false_r.
Qed.

Ltac unfolds := unfold represents, slots; cbn; split_and!; [done..|].

Lemma nvme_op_refines o self x w :
  represents o self w -> op_ok x -> guarded (apply_op self x) w (refined base (represents (give o x))).
Proof.
  intros (Hal & Ea & Eq & Et & Hc & Hh) Hok.
  destruct x as [t'|i v|b|n|b|n]; cbn [apply_op op_ok] in *.
  3-6: destruct self as [al c [t tb tl mb ml q x1 x2] bt bm], o as [oa oc oq ot ds od om]; cbn in Ea, Eq, Et, Hal; subst.
  - apply guarded_ret. destruct self, o. done.
  - apply guarded_ret. cbn [refined].
    do 8 (destruct i as [|i]; [cbn [setters lookup list_lookup]; destruct o; split_and!; try done;
      eapply set_cdw_commands; [exact Hc|lia|reflexivity..]|]). lia.
  - destruct Hok as [Hb Hn]. supplied by (supply_borrowed oa base [] (mkSlot tb tl bt od) [mkSlot mb ml bm om]) with unfolds.
  - supplied by (supply_space oa base [] (mkSlot tb tl bt od) [mkSlot mb ml bm om]) with unfolds.
  - destruct Hok as [Hb Hn]. supplied by (supply_borrowed oa base [mkSlot tb tl bt od] (mkSlot mb ml bm om) []) with unfolds.
  - supplied by (supply_space oa base [mkSlot tb tl bt od] (mkSlot mb ml bm om) []) with unfolds.
Qed.

Definition offer_new (align opcode queue_type : Z) : offer :=
  mkOffer align opcode queue_type 0 (replicate 8 None) Absent Absent.

Lemma nvme_builder_new_represents align opcode queue_type w :
  shape (heap w) = base -> full_blocks (heap w) -> 0 < align ->
  represents (offer_new align opcode queue_type) (builder_new align opcode queue_type) w.
Proof.
  intros Hs Hf Ha. split_and!; [done..| |].
  - split_and!; [done..|]. intros i Hi. do 8 (destruct i as [|i]; [done|]). lia.
  - unfold slots. cbn. rewrite !held_absent. by apply held_nil.
Qed.
End refinement.

(** ** Sessions with a namespace *)

Definition describes (pk : Packet.t) (h : gmap Z HeapBlock) : Prop :=
  exists align, presented align h (Packet.transfer_buffer pk) (Packet.transfer_length pk) /\
    presented align h (Packet.meta_data_buffer pk) (Packet.meta_data_length pk).

(** What the specification promises: the packet's pointers are left alone, the
    controller stores in its two buffers only, and after a success the lengths say
    how much of them holds data. *)
Class NvmeLaws (W : Type) `{!Heap W, !NvmeServices W} : Prop := {
  nvme_device : forall nsid pk (w : W) s pk' c w',
    efi_nvme_pass_thru nsid pk w = ((s, pk', c), w') -> describes pk (heap w) ->
    Packet.transfer_buffer pk' = Packet.transfer_buffer pk /\ Packet.meta_data_buffer pk' = Packet.meta_data_buffer pk /\
    device_step [Packet.transfer_buffer pk; Packet.meta_data_buffer pk] (heap w) (heap w') /\
    (s = 0 ->
     transferred (heap w') (Packet.transfer_buffer pk) (Packet.transfer_length pk) (Packet.transfer_length pk') /\
     transferred (heap w') (Packet.meta_data_buffer pk) (Packet.meta_data_length pk) (Packet.meta_data_length pk'))
}.

Section sessions.
Context {W : Type} `{!Heap W, !HeapLaws W, !NvmeServices W, !NvmeLaws W}.

Definition look (r : uresult NvmeResponse unit) : fw W (result (option (list Z) * option (list Z) * NvmeCompletion) unit) :=
  match r with
  | Err _ => mret (Err tt)
  | Ok response =>
      data ← response_transfer_buffer response;
      meta ← metadata_buffer response;
      request_drop (req response);;
      mret (Ok (data, meta, completion response))
  end.

(** A client that builds a request, executes it, and looks at the response. *)
Definition session (nsid align opcode queue_type : Z) (xs : list op)
  : fw W (result (option (list Z) * option (list Z) * NvmeCompletion) unit) :=
  try req <- run_ops apply_op (builder_new align opcode queue_type) xs;
  r ← execute_command nsid req;
  look r.

(** What the client sees, and what the controller was asked. *)
Definition answered (base : gmap Z Layout) (nsid : Z) (o : offer) (data meta : option (list Z)) (c : NvmeCompletion) : Prop :=
  exists self (w1 : W) command pk w2,
    represents base o self w1 /\ commands o command /\ Command.nsid command = nsid /\
    efi_nvme_pass_thru nsid (Packet.set_cmd command completion_default (packet self)) w1 = ((0, pk, c), w2) /\
    received (heap w2) (o_transfer o) (Packet.transfer_buffer (packet self)) (Packet.transfer_length pk) data /\
    received (heap w2) (o_meta o) (Packet.meta_data_buffer (packet self)) (Packet.meta_data_length pk) meta.

Lemma nvme_execute_refines base nsid o self (w : W) :
  represents base o self w ->
  runs (r ← execute_command nsid self; look r) w (fun r w' => shape (heap w') = base /\
    forall data meta c, r = Ok (data, meta, c) -> answered base nsid o data meta c).
Proof.
  intros Hr. pose proof Hr as (_ & _ & _ & _ & Hc & Hh). pose proof Hh as Hp%held_all_presented.
  unfold slots in Hp. rewrite !Forall_cons in Hp. destruct Hp as (H1 & H2 & _).
  unfold execute_command. repeat runs_step.
  destruct (efi_nvme_pass_thru _ _ w) as [[[s pk] c] w2] eqn:E.
  destruct (nvme_device _ _ _ _ _ _ _ E) as (Ei & Em & Hdev & Hok); [by exists (o_align o)|].
  cbn in Ei, Em, Hdev, Hok. cbn [fst snd]. repeat runs_step.
  eapply runs_lift; [apply to_result_with_val_cases|]. destruct (Z.eqb_spec s 0) as [->|Hs].
  - destruct (Hok eq_refl) as [Ti Tm]. repeat runs_step. cbn [look]. runs_step.
    unfold response_transfer_buffer. cbn [packet req]. rewrite Ei.
    eapply runs_weaken; [eapply (slice_received _ _ _ _ _ _ _ _ _ _ Hh); [left|exact Ti]|].
    intros data ? [-> Hdata]. runs_step. unfold metadata_buffer. cbn [packet req]. rewrite Em.
    eapply runs_weaken; [eapply (slice_received _ _ _ _ _ _ _ _ _ _ Hh); [right; left|exact Tm]|].
    intros meta ? [-> Hmeta]. runs_step. eapply runs_weaken; [exact (held_device_drop _ _ _ _ _ _ Hh Hdev)|].
    intros ? w3 Hsh. cbv beta in Hsh. runs_step. split; [done|]. intros ? ? ? [= <- <- <-].
    exists self, w, (Command.set_nsid nsid (cmd self)), pk, w2. by split_and!.
  - repeat runs_step. eapply runs_weaken; [exact (held_device_drop _ _ _ _ _ _ Hh Hdev)|].
    intros ? w3 Hsh. cbv beta in Hsh. repeat runs_step. cbn [look]. runs_step. by split.
Qed.

(** However a request is put together, and whatever the controller answers, a
    session that does not run out of memory is never undefined and leaves the heap
    with the blocks that were there before; a success sent a command to the
    namespace in which exactly the data words that were set are marked as valid, and
    returns what the controller stored in the buffers that were given last. *)
Theorem nvme_session_refines (nsid align opcode queue_type : Z) (xs : list op) (w : W) :
  full_blocks (heap w) -> 0 < align -> Forall (op_ok (shape (heap w))) xs ->
  guarded (session nsid align opcode queue_type xs) w (fun r w' =>
    shape (heap w') = shape (heap w) /\
    forall data meta c, r = Ok (data, meta, c) ->
      answered (shape (heap w)) nsid (foldl give (offer_new align opcode queue_type) xs) data meta c).
Proof.
  intros Hf Ha Hxs. apply guarded_bind. eapply guarded_weaken.
  { eapply (run_ops_refined (shape (heap w)) apply_op); [apply nvme_op_refines|exact Hxs|].
    by apply (nvme_builder_new_represents _ align opcode queue_type). }
  intros [self|e] w1 Hr; [|by apply guarded_ret]. apply guarded_runs. by apply nvme_execute_refines.
Qed.
End sessions.

(** ** Enumerating the namespaces *)

(** The ids of the active namespaces; the id with all bits set asks for the
    first one. *)
Class NvmeNamespaces (W : Type) `{!NvmeServices W} : Type := {
  namespaces : W -> list Z;
  namespaces_next : forall i prev (w : W),
    match i with O => prev = 0xFFFFFFFF | S j => namespaces w !! j = Some prev end ->
    let '((s, id), w') := efi_get_next_namespace prev w in
    namespaces w' = namespaces w /\
    match namespaces w !! i with
    | Some n => s = Status.SUCCESS /\ id = n
    | None => s = Status.NOT_FOUND
    end;
}.

Section enumeration.
Context {W : Type} `{!NvmeServices W, !NvmeNamespaces W}.

Definition at_namespace (i : nat) (prev : Z) (w : W) : Prop :=
  match i with O => prev = 0xFFFFFFFF | S j => namespaces w !! j = Some prev end.

Lemma nvme_next_runs i prev w : at_namespace i prev w ->
  runs (next prev) w (fun r w' => namespaces w' = namespaces w /\ r.1 = namespaces w !! i /\
    (is_Some r.1 -> at_namespace (S i) r.2 w')).
Proof.
  intros Hi. unfold next. repeat runs_step. pose proof (namespaces_next i prev w Hi) as Hn.
  destruct (efi_get_next_namespace _ w) as [[s id] w1]. destruct Hn as [Eb Hn]. cbn [fst snd].
  destruct (namespaces w !! i) as [n|] eqn:Ed.
  - destruct Hn as (-> & ->). rewrite Z.eqb_refl. runs_step. split_and!; [done..|]. intros _. cbn. by rewrite Eb.
  - subst s. change (Status.NOT_FOUND =? Status.SUCCESS) with false. rewrite Z.eqb_refl. runs_step.
    split_and!; [done..|]. by intros [? ?].
Qed.

(** Iterating over the namespaces terminates and yields exactly the active ones. *)
Theorem nvme_namespaces_complete (w : W) (fuel : nat) :
  (length (namespaces w) < fuel)%nat -> exists w', collect_iter next fuel iter_namespaces w = Ret (namespaces w, w').
Proof.
  intros Hf. destruct (collect_iter_runs next namespaces at_namespace nvme_next_runs fuel 0xFFFFFFFF w)
    as (ds & w' & E & ->); [done|lia|]. by exists w'.
Qed.
End enumeration.

(** ** A controller with two namespaces *)

Module Controller.
#[global] Instance controller_services : NvmeServices Bench.world := {|
  nvme_mode _ := mkMode 0 0 0x10000;
  efi_nvme_pass_thru _ pk w :=
    ((0, Packet.set_meta (Packet.meta_data_buffer pk) 0
          (Packet.set_transfer (Packet.transfer_buffer pk) (Z.min 4 (Packet.transfer_length pk)) pk), mkCompletion 0 0 0 1),
     Bench.fill 9 (Packet.transfer_buffer pk) 4 w);
  efi_get_next_namespace prev w :=
    (if prev =? 0xFFFFFFFF then (Status.SUCCESS, 1) else if prev =? 1 then (Status.SUCCESS, 4) else (Status.NOT_FOUND, prev), w);
  efi_nvme_build_device_path _ w := ((Status.UNSUPPORTED, 0), w);
|}.

#[global] Instance controller_laws : NvmeLaws Bench.world.
Proof.
  split. intros n pk w s pk' c w' [= <- <- <- <-] (al & Hi & Hm). cbn. split_and!; [done..| |].
  - apply Bench.fill_step. left.
  - intros _. split; [by eapply Bench.fill_transferred|]. eapply Bench.none_transferred; [exact Hm|].
    apply (Bench.fill_step _ _ _ _ [Packet.transfer_buffer pk]). left.
Qed.

#[global, refine] Instance controller_namespaces : NvmeNamespaces Bench.world := {| namespaces _ := [1; 4] |}.
Proof.
  intros [|[|[|i]]] prev w; cbn; [intros ->|intros [= <-]|intros [= <-]|done]; vm_compute; done.
Defined.

Definition borrowed : AlignedBuffer := mkAlignedBuffer 64 (mkLayout 4 4).
Definition initial : Bench.world := {[ 64 := mkHeapBlock (mkLayout 4 4) [Some 1; Some 2; Some 3; Some 4] ]}.
Definition identify : list op := [Cdw 2 1; UseMetadataBuffer borrowed; WithTransferBuffer 16; Timeout 500; Cdw 0 7].
End Controller.

Lemma nvme_session_refines_witness :
  exists w', session 1 4 6 QueueType.ADMIN Controller.identify Controller.initial
    = Ret (Ok (Some [9; 9; 9; 9], Some [], mkCompletion 0 0 0 1), w') /\
    shape (heap w') = shape (heap Controller.initial).
Proof.
  pose proof (nvme_session_refines 1 4 6 QueueType.ADMIN Controller.identify Controller.initial) as Hs.
  unfold guarded in Hs.
  assert (omap fst (session 1 4 6 QueueType.ADMIN Controller.identify Controller.initial) =
    Ret (Ok (Some [9; 9; 9; 9], Some [], mkCompletion 0 0 0 1))) as E by (vm_compute; reflexivity).
  destruct (session _ _ _ _ _ _) as [[r w']| | |]; [|discriminate E..]. injection E as ->. exists w'. split; [reflexivity|].
  apply Hs.
  - intros p b Hp. change (heap Controller.initial) with Controller.initial in Hp. unfold Controller.initial in Hp.
    by apply lookup_singleton_Some in Hp as [<- <-].
  - reflexivity.
  - repeat (constructor; [cbn; first [lia|done|split; [split; [discriminate|reflexivity]|lia]]|]). constructor.
Defined.

Lemma nvme_namespaces_complete_witness :
  omap fst (collect_iter next 3 iter_namespaces Controller.initial) = Ret [1; 4].
Proof.
  destruct (nvme_namespaces_complete Controller.initial 3) as (w' & ->); [cbn; lia|reflexivity].
Defined.

(** Unlike for SCSI, an alignment of zero, which the specification admits for one,
    is passed on: no buffer can be allocated, and checking one divides by zero. *)
Example zero_alignment_fails :
  omap fst (alloc_io_buffer 16 Controller.initial) = Ret (Err layout_error) /\
  (a ← proto_io_align; use_transfer_buffer (builder_new a 6 QueueType.ADMIN) Controller.borrowed) Controller.initial
    = Panic DivByZero.
Proof. split; vm_compute; reflexivity. Qed.
