(* ===== verification/Ata.v ===== *)
(** * ATA pass-through

    [AtaRequest], its builder and response ([uefi/src/proto/ata/mod.rs]) and the
    protocol that executes requests and enumerates the devices of a controller
    ([uefi/src/proto/ata/pass_thru.rs]). *)
From stdpp Require Import gmap.
From S2P Require Import Prelude Firmware Status BootMemory AlignedBuffer.

Module CommandProtocol.
Definition UDMA_DATA_IN : Z := 0x0A.
Definition UDMA_DATA_OUT : Z := 0x0B.
End CommandProtocol.
Definition AtaPassThruLength_BYTES : Z := 0x80.

(** [AtaCommandBlock], without the reserved fields, which are zero. *)
Module Acb.
Record t : Set := mk {
  command : Z;
  features : Z;
  sector_number : Z;
  cylinder_low : Z;
  cylinder_high : Z;
  device_head : Z;
  sector_number_exp : Z;
  cylinder_low_exp : Z;
  cylinder_high_exp : Z;
  features_exp : Z;
  sector_count : Z;
  sector_count_exp : Z;
}.
Definition default : t := mk 0 0 0 0 0 0 0 0 0 0 0 0.

(** Its memory: one byte per field, after two and before six reserved ones. *)
Definition bytes (b : t) : list Z :=
  [0; 0; command b; features b; sector_number b; cylinder_low b; cylinder_high b; device_head b; sector_number_exp b; cylinder_low_exp b; cylinder_high_exp b; features_exp b; sector_count b; sector_count_exp b; 0; 0; 0; 0; 0; 0].

Definition set_features (v : Z) (b : t) : t := mk (command b) v (sector_number b) (cylinder_low b) (cylinder_high b) (device_head b) (sector_number_exp b) (cylinder_low_exp b) (cylinder_high_exp b) (features_exp b) (sector_count b) (sector_count_exp b).
Definition set_sector_number (v : Z) (b : t) : t := mk (command b) (features b) v (cylinder_low b) (cylinder_high b) (device_head b) (sector_number_exp b) (cylinder_low_exp b) (cylinder_high_exp b) (features_exp b) (sector_count b) (sector_count_exp b).
Definition set_device_head (v : Z) (b : t) : t := mk (command b) (features b) (sector_number b) (cylinder_low b) (cylinder_high b) v (sector_number_exp b) (cylinder_low_exp b) (cylinder_high_exp b) (features_exp b) (sector_count b) (sector_count_exp b).
Definition set_sector_number_exp (v : Z) (b : t) : t := mk (command b) (features b) (sector_number b) (cylinder_low b) (cylinder_high b) (device_head b) v (cylinder_low_exp b) (cylinder_high_exp b) (features_exp b) (sector_count b) (sector_count_exp b).
Definition set_features_exp (v : Z) (b : t) : t := mk (command b) (features b) (sector_number b) (cylinder_low b) (cylinder_high b) (device_head b) (sector_number_exp b) (cylinder_low_exp b) (cylinder_high_exp b) v (sector_count b) (sector_count_exp b).
Definition set_sector_count (v : Z) (b : t) : t := mk (command b) (features b) (sector_number b) (cylinder_low b) (cylinder_high b) (device_head b) (sector_number_exp b) (cylinder_low_exp b) (cylinder_high_exp b) (features_exp b) v (sector_count_exp b).
Definition set_sector_count_exp (v : Z) (b : t) : t := mk (command b) (features b) (sector_number b) (cylinder_low b) (cylinder_high b) (device_head b) (sector_number_exp b) (cylinder_low_exp b) (cylinder_high_exp b) (features_exp b) (sector_count b) v.
Definition set_cylinder (low high : Z) (b : t) : t := mk (command b) (features b) (sector_number b) low high (device_head b) (sector_number_exp b) (cylinder_low_exp b) (cylinder_high_exp b) (features_exp b) (sector_count b) (sector_count_exp b).
Definition set_cylinder_exp (low high : Z) (b : t) : t := mk (command b) (features b) (sector_number b) (cylinder_low b) (cylinder_high b) (device_head b) (sector_number_exp b) low high (features_exp b) (sector_count b) (sector_count_exp b).
End Acb.

(** [AtaStatusBlock]. *)
Module Asb.
Record t : Set := mk {
  status : Z;
  error : Z;
  sector_number : Z;
  cylinder_low : Z;
  cylinder_high : Z;
  device_head : Z;
  sector_number_exp : Z;
  cylinder_low_exp : Z;
  cylinder_high_exp : Z;
  reserved2 : Z;
  sector_count : Z;
  sector_count_exp : Z;
}.

Definition size : Z := 20.
Definition decode (d : list Z) : t :=
  let at_ i := nth i d 0 in
  mk (at_ 2%nat) (at_ 3%nat) (at_ 4%nat) (at_ 5%nat) (at_ 6%nat) (at_ 7%nat) (at_ 8%nat) (at_ 9%nat) (at_ 10%nat) (at_ 11%nat) (at_ 12%nat) (at_ 13%nat).
End Asb.

(** [AtaPassThruCommandPacket]; the buffers and the status block are addresses of
    heap blocks, and the command block is what the pointer refers to, if not
    null. *)
Module Packet.
Record t : Set := mk {
  asb : Z;
  acb : option Acb.t;
  timeout : Z;
  in_data_buffer : Z;
  out_data_buffer : Z;
  in_transfer_length : Z;
  out_transfer_length : Z;
  protocol : Z;
  length : Z;
}.

Definition set_acb (v : Acb.t) (p : t) : t :=
  mk (asb p) (Some v) (timeout p) (in_data_buffer p) (out_data_buffer p) (in_transfer_length p) (out_transfer_length p) (protocol p) (length p).
Definition set_timeout (v : Z) (p : t) : t :=
  mk (asb p) (acb p) v (in_data_buffer p) (out_data_buffer p) (in_transfer_length p) (out_transfer_length p) (protocol p) (length p).
Definition set_in (ptr len : Z) (p : t) : t :=
  mk (asb p) (acb p) (timeout p) ptr (out_data_buffer p) len (out_transfer_length p) (protocol p) (length p).
Definition set_out (ptr len : Z) (p : t) : t :=
  mk (asb p) (acb p) (timeout p) (in_data_buffer p) ptr (in_transfer_length p) len (protocol p) (length p).
End Packet.

(** The builder and the response wrap the request. *)
Record AtaRequest : Set := mkAtaRequest {
  io_align : Z;
  acb : Acb.t;
  packet : Packet.t;
  in_data_buffer : option AlignedBuffer;
  out_data_buffer : option AlignedBuffer;
  asb : AlignedBuffer;
}.

(** ** The builder *)

Definition set_acb (self : AtaRequest) (f : Acb.t -> Acb.t) : AtaRequest :=
  mkAtaRequest (io_align self) (f (acb self)) (packet self) (in_data_buffer self) (out_data_buffer self) (asb self).

(** The timeout is given in nanoseconds. *)
Definition with_timeout (self : AtaRequest) (timeout : Z) : AtaRequest :=
  mkAtaRequest (io_align self) (acb self) (Packet.set_timeout (wrap 64 (timeout / 100)) (packet self))
    (in_data_buffer self) (out_data_buffer self) (asb self).
Definition with_features (self : AtaRequest) (v : Z) : AtaRequest := set_acb self (Acb.set_features v).
Definition with_sector_number (self : AtaRequest) (v : Z) : AtaRequest := set_acb self (Acb.set_sector_number v).
Definition with_device_head (self : AtaRequest) (v : Z) : AtaRequest := set_acb self (Acb.set_device_head v).
Definition with_sector_number_exp (self : AtaRequest) (v : Z) : AtaRequest := set_acb self (Acb.set_sector_number_exp v).
Definition with_features_exp (self : AtaRequest) (v : Z) : AtaRequest := set_acb self (Acb.set_features_exp v).
Definition with_sector_count (self : AtaRequest) (v : Z) : AtaRequest := set_acb self (Acb.set_sector_count v).
Definition with_sector_count_exp (self : AtaRequest) (v : Z) : AtaRequest := set_acb self (Acb.set_sector_count_exp v).
Definition with_cylinder (self : AtaRequest) (low high : Z) : AtaRequest := set_acb self (Acb.set_cylinder low high).
Definition with_cylinder_exp (self : AtaRequest) (low high : Z) : AtaRequest := set_acb self (Acb.set_cylinder_exp low high).

Section builder.
Context {W : Type} `{!Heap W}.

(** The status block is in an aligned buffer of its own. *)
Definition builder_new (io_align command protocol : Z) : fw W (result AtaRequest LayoutError) :=
  try asb <- from_size_align Asb.size io_align;
  mret (Ok (mkAtaRequest io_align (Acb.mk command 0 0 0 0 0 0 0 0 0 0 0)
    (Packet.mk (ab_ptr asb) None 0 0 0 0 0 protocol AtaPassThruLength_BYTES) None None asb)).
Definition read_udma (io_align command : Z) : fw W (result AtaRequest LayoutError) :=
  builder_new io_align command CommandProtocol.UDMA_DATA_IN.
Definition write_udma (io_align command : Z) : fw W (result AtaRequest LayoutError) :=
  builder_new io_align command CommandProtocol.UDMA_DATA_OUT.

Definition request_drop (self : AtaRequest) : fw W unit :=
  drop_fields [in_data_buffer self; out_data_buffer self; Some (asb self)].

Definition use_read_buffer (self : AtaRequest) (bfr : AlignedBuffer) : fw W (result AtaRequest AlignmentError) :=
  owning (request_drop self) try _ <- lift (check_alignment bfr (io_align self));
  (drop_opt (in_data_buffer self);;
  mret (Ok (mkAtaRequest (io_align self) (acb self) (Packet.set_in (ab_ptr bfr) (wrap 32 (ab_size bfr)) (packet self))
    None (out_data_buffer self) (asb self)))).

Definition with_read_buffer (self : AtaRequest) (len : Z) : fw W (result AtaRequest LayoutError) :=
  owning (request_drop self) try bfr <- from_size_align len (io_align self);
  (drop_opt (in_data_buffer self);;
  mret (Ok (mkAtaRequest (io_align self) (acb self) (Packet.set_in (ab_ptr bfr) (wrap 32 (ab_size bfr)) (packet self))
    (Some bfr) (out_data_buffer self) (asb self)))).

Definition use_write_buffer (self : AtaRequest) (bfr : AlignedBuffer) : fw W (result AtaRequest AlignmentError) :=
  owning (request_drop self) try _ <- lift (check_alignment bfr (io_align self));
  (drop_opt (out_data_buffer self);;
  mret (Ok (mkAtaRequest (io_align self) (acb self) (Packet.set_out (ab_ptr bfr) (wrap 32 (ab_size bfr)) (packet self))
    (in_data_buffer self) None (asb self)))).

Definition with_write_data (self : AtaRequest) (data : list Z) : fw W (result AtaRequest LayoutError) :=
  owning (request_drop self) try bfr <- from_size_align (zlen data) (io_align self);
  (copy_from_slice bfr data;;
  drop_opt (out_data_buffer self);;
  mret (Ok (mkAtaRequest (io_align self) (acb self) (Packet.set_out (ab_ptr bfr) (wrap 32 (ab_size bfr)) (packet self))
    (in_data_buffer self) (Some bfr) (asb self)))).

(** ** The response *)

Definition status (self : AtaRequest) : fw W Asb.t :=
  if ab_ptr (asb self) =? 0 then lift (Panic UnwrapFailed)
  else d ← heap_slice (ab_ptr (asb self)) Asb.size; mret (Asb.decode d).

Definition read_buffer (self : AtaRequest) : fw W (option (list Z)) :=
  if Packet.in_data_buffer (packet self) =? 0 then mret None
  else d ← heap_slice (Packet.in_data_buffer (packet self)) (Packet.in_transfer_length (packet self)); mret (Some d).
End builder.

(** ** The protocol *)

Record AtaPassThruMode : Set := mkMode { attributes : Z; mode_io_align : Z }.
Record AtaDevice : Set := mkAtaDevice { port : Z; pmp : Z }.
Record AtaDeviceIterator : Set := mkIterator { end_of_port : bool; prev_port : Z; prev_pmp : Z }.

Class AtaServices (W : Type) : Type := {
  ata_mode : W -> AtaPassThruMode;
  efi_ata_pass_thru : Z -> Z -> Packet.t -> W -> (Z * Packet.t) * W;
  efi_get_next_port : Z -> W -> (Z * Z) * W;
  efi_get_next_device : Z -> Z -> W -> (Z * Z) * W;
  efi_ata_build_device_path : Z -> Z -> W -> (Z * Z) * W;
  efi_reset_device : Z -> Z -> W -> Z * W;
}.

Section protocol.
Context {W : Type} `{!Heap W, !AtaServices W}.

Definition mode : fw W AtaPassThruMode := fun w => Ret (ata_mode w, w).
Definition proto_io_align : fw W Z := m ← mode; mret (mode_io_align m).
Definition alloc_io_buffer (len : Z) : fw W (result AlignedBuffer LayoutError) :=
  a ← proto_io_align; from_size_align len a.

Definition iter_devices : AtaDeviceIterator := mkIterator true 0xFFFF 0xFFFF.

Definition device_reset (self : AtaDevice) : fw W (uresult unit unit) :=
  s ← call (efi_reset_device (port self) (pmp self)); lift (to_result s).

Definition path_node (self : AtaDevice) : fw W (uresult Z unit) :=
  '(s, p) ← call (efi_ata_build_device_path (port self) (pmp self));
  try _ <- lift (to_result s);
  lift (nonnull p).

(** The request is moved into the response; on an error it is dropped. *)
Definition execute_command (self : AtaDevice) (req : AtaRequest) : fw W (uresult AtaRequest unit) :=
  '(s, pk) ← call (efi_ata_pass_thru (port self) (pmp self) (Packet.set_acb (acb req) (packet req)));
  let req := mkAtaRequest (io_align req) (acb req) pk (in_data_buffer req) (out_data_buffer req) (asb req) in
  r ← lift (to_result_with_val s req);
  match r with
  | Ok response => mret (Ok response)
  | Err e => request_drop req;; mret (Err e)
  end.

(** The first part of the loop: [None] is [return None]. *)
Definition next_port (self : AtaDeviceIterator) : fw W (option AtaDeviceIterator * AtaDeviceIterator) :=
  if end_of_port self then
    '(result, p) ← call (efi_get_next_port (prev_port self));
    if result =? Status.SUCCESS then
      let self := mkIterator false p (prev_pmp self) in mret (Some self, self)
    else if result =? Status.NOT_FOUND then mret (None, mkIterator (end_of_port self) p (prev_pmp self))
    else lift (Panic Explicit)
  else mret (Some self, self).

(** [AtaDeviceIterator::next]: after a failure to find another device on a port the
    loop starts over. *)
Fixpoint next_loop (fuel : nat) (self : AtaDeviceIterator) : fw W (option AtaDevice * AtaDeviceIterator) :=
  match fuel with
  | O => lift NoFuel
  | S fuel =>
      '(go, self) ← next_port self;
      match go with
      | None => mret (None, self)
      | Some self =>
          let was_first := prev_pmp self =? 0xFFFF in
          '(result, p) ← call (efi_get_next_device (prev_port self) (prev_pmp self));
          if result =? Status.SUCCESS then
            mret (Some (mkAtaDevice (prev_port self) p),
                  mkIterator (if p =? 0xFFFF then true else end_of_port self) (prev_port self) p)
          else if result =? Status.NOT_FOUND then
            let self := mkIterator true (prev_port self) 0xFFFF in
            if was_first then mret (Some (mkAtaDevice (prev_port self) 0xFFFF), self)
            else next_loop fuel self
          else lift (Panic Explicit)
      end
  end.

(** The second round never starts over: it is the first query on its port. *)
Definition next (self : AtaDeviceIterator) : fw W (option AtaDevice * AtaDeviceIterator) := next_loop 2 self.
End protocol.

(** ** What a request stands for *)

(** The parameters that a request was given, with the command block as memory. *)
Record offer : Set := mkOffer {
  o_align : Z; o_protocol : Z; o_timeout : Z; o_acb : list Z; o_in : supply; o_out : supply;
}.

Definition slots (self : AtaRequest) (o : offer) : list slot :=
  [mkSlot (Packet.in_data_buffer (packet self)) (Packet.in_transfer_length (packet self)) (in_data_buffer self) (o_in o);
   mkSlot (Packet.out_data_buffer (packet self)) (Packet.out_transfer_length (packet self)) (out_data_buffer self) (o_out o);
   mkSlot (Packet.asb (packet self)) Asb.size (Some (asb self)) (Space Asb.size)].

Inductive op : Set :=
| Timeout (t : Z) | Features (v : Z) | SectorNumber (v : Z) | Cylinder (low high : Z) | DeviceHead (v : Z)
| SectorNumberExp (v : Z) | CylinderExp (low high : Z) | FeaturesExp (v : Z) | SectorCount (v : Z) | SectorCountExp (v : Z)
| UseReadBuffer (b : AlignedBuffer) | WithReadBuffer (n : Z)
| UseWriteBuffer (b : AlignedBuffer) | WithWriteData (d : list Z).

(** The bytes of the command block that a call stores. *)
Definition acb_writes (x : op) : list (nat * Z) :=
  match x with
  | Features v => [(3%nat, v)]
  | SectorNumber v => [(4%nat, v)]
  | Cylinder low high => [(5%nat, low); (6%nat, high)]
  | DeviceHead v => [(7%nat, v)]
  | SectorNumberExp v => [(8%nat, v)]
  | CylinderExp low high => [(9%nat, low); (10%nat, high)]
  | FeaturesExp v => [(11%nat, v)]
  | SectorCount v => [(12%nat, v)]
  | SectorCountExp v => [(13%nat, v)]
  | _ => []
  end.

Definition give (o : offer) (x : op) : offer :=
  let '(mkOffer a p t b i u) := o in
  let b := foldl (fun b '(k, v) => <[k := v]> b) b (acb_writes x) in
  match x with
  | Timeout t => mkOffer a p (wrap 64 (t / 100)) b i u
  | UseReadBuffer r => mkOffer a p t b (Borrowed r) u
  | WithReadBuffer n => mkOffer a p t b (Space n) u
  | UseWriteBuffer r => mkOffer a p t b i (Borrowed r)
  | WithWriteData d => mkOffer a p t b i (Filled d)
  | _ => mkOffer a p t b i u
  end.

Section refinement.
Context {W : Type} `{!Heap W, !HeapLaws W} (base : gmap Z Layout).

Definition apply_op (self : AtaRequest) (x : op) : fw W (result AtaRequest unit) :=
  match x with
  | Timeout t => mret (Ok (with_timeout self t))
  | Features v => mret (Ok (with_features self v))
  | SectorNumber v => mret (Ok (with_sector_number self v))
  | Cylinder low high => mret (Ok (with_cylinder self low high))
  | DeviceHead v => mret (Ok (with_device_head self v))
  | SectorNumberExp v => mret (Ok (with_sector_number_exp self v))
  | CylinderExp low high => mret (Ok (with_cylinder_exp self low high))
  | FeaturesExp v => mret (Ok (with_features_exp self v))
  | SectorCount v => mret (Ok (with_sector_count self v))
  | SectorCountExp v => mret (Ok (with_sector_count_exp self v))
  | UseReadBuffer b => any_error (use_read_buffer self b)
  | WithReadBuffer n => any_error (with_read_buffer self n)
  | UseWriteBuffer b => any_error (use_write_buffer self b)
  | WithWriteData d => any_error (with_write_data self d)
  end.

Definition op_ok (x : op) : Prop :=
  match x with
  | UseReadBuffer b | UseWriteBuffer b => caller_buffer base b /\ 0 <= ab_size b < 2 ^ 32
  | WithReadBuffer n => 0 < n < 2 ^ 32
  | WithWriteData d => 0 < zlen d < 2 ^ 32
  | _ => True
  end.

Definition represents (o : offer) (self : AtaRequest) (w : W) : Prop :=
  0 < o_align o /\ io_align self = o_align o /\ Packet.protocol (packet self) = o_protocol o /\
  Packet.timeout (packet self) = o_timeout o /\ Packet.asb (packet self) = ab_ptr (asb self) /\
  Packet.length (packet self) = AtaPassThruLength_BYTES /\
  Acb.bytes (acb self) = o_acb o /\ held (o_align o) base (slots self o) (heap w).

Ltac unfolds := unfold represents, slots; cbn; split_and!; [done..|].

Lemma ata_op_refines o self x w :
  represents o self w -> op_ok x -> guarded (apply_op self x) w (refined base (represents (give o x))).
Proof.
  destruct self as [al c [sp x1 t i u il ul p l] bi bu bs], o as [oa op' ot oc oi ou].
  intros (Hal & Ea & Ep & Et & Es & El & Hc & Hh) Hok. cbn in Hal, Ea, Ep, Et, Es, El, Hc. subst.
  unfold slots in Hh. cbn in Hh.
  set (s1 := mkSlot i il bi oi) in Hh. set (s2 := mkSlot u ul bu ou) in Hh.
  set (s3 := mkSlot (ab_ptr bs) Asb.size (Some bs) (Space Asb.size)) in Hh.
  destruct x; cbn [apply_op op_ok] in *; try (apply guarded_ret; by split_and!).
  - destruct Hok as [Hb Hn]. supplied by (supply_borrowed oa base [] s1 [s2; s3]) with unfolds.
  - supplied by (supply_space oa base [] s1 [s2; s3]) with unfolds.
  - destruct Hok as [Hb Hn]. supplied by (supply_borrowed oa base [s1] s2 [s3]) with unfolds.
  - supplied by (supply_filled oa base [s1] s2 [s3]) with unfolds.
Qed.

Definition offer_new (align command protocol : Z) : offer :=
  mkOffer align protocol 0 [0; 0; command; 0; 0; 0; 0; 0; 0; 0; 0; 0; 0; 0; 0; 0; 0; 0; 0; 0] Absent Absent.

Lemma builder_new_refined align command protocol w :
  shape (heap w) = base -> full_blocks (heap w) -> 0 < align ->
  guarded (any_error (builder_new align command protocol)) w (refined base (represents (offer_new align command protocol))).
Proof.
  intros Hs Hf Ha. assert (held align base [absent_slot; absent_slot] (heap w)) as Hh by (rewrite !held_absent; by apply held_nil).
  apply guarded_bind, guarded_bind. eapply guarded_weaken; [by apply held_alloc|].
  intros [b|e] w' Hh'; apply guarded_ret; apply guarded_ret; cbn [refined map_err].
  - unfolds. eapply held_perm; [|reflexivity|exact Hh']. symmetry. exact (Permutation_cons_append [absent_slot; absent_slot] _).
  - rewrite !held_absent in Hh'. by apply held_nil in Hh'; [|apply Hh'].
Qed.
End refinement.

(** ** Sessions with a device *)

Definition describes (pk : Packet.t) (h : gmap Z HeapBlock) : Prop :=
  exists align, presented align h (Packet.in_data_buffer pk) (Packet.in_transfer_length pk) /\
    presented align h (Packet.out_data_buffer pk) (Packet.out_transfer_length pk) /\
    presented align h (Packet.asb pk) Asb.size.

(** What the specification promises: the packet's pointers are left alone, the
    device stores in the read buffer and the status block only, and after a success
    it has stored the whole status block and as much data as it reports. *)
Class AtaLaws (W : Type) `{!Heap W, !AtaServices W} : Prop := {
  ata_device : forall port pmp pk (w : W) s pk' w',
    efi_ata_pass_thru port pmp pk w = ((s, pk'), w') -> describes pk (heap w) ->
    Packet.in_data_buffer pk' = Packet.in_data_buffer pk /\
    device_step [Packet.in_data_buffer pk; Packet.asb pk] (heap w) (heap w') /\
    (s = 0 ->
     transferred (heap w') (Packet.in_data_buffer pk) (Packet.in_transfer_length pk) (Packet.in_transfer_length pk') /\
     transferred (heap w') (Packet.asb pk) Asb.size Asb.size)
}.

Section sessions.
Context {W : Type} `{!Heap W, !HeapLaws W, !AtaServices W, !AtaLaws W}.

Definition look (r : uresult AtaRequest unit) : fw W (result (Asb.t * option (list Z)) unit) :=
  match r with
  | Err _ => mret (Err tt)
  | Ok response =>
      s ← status response;
      data ← read_buffer response;
      request_drop response;;
      mret (Ok (s, data))
  end.

(** A client that builds a request, executes it, and looks at the response. *)
Definition session (dev : AtaDevice) (align command protocol : Z) (xs : list op)
  : fw W (result (Asb.t * option (list Z)) unit) :=
  try self <- any_error (builder_new align command protocol);
  try self <- run_ops apply_op self xs;
  r ← execute_command dev self;
  look r.

(** What the client sees, and what the device was asked. *)
Definition answered (base : gmap Z Layout) (dev : AtaDevice) (o : offer) (s : Asb.t) (data : option (list Z)) : Prop :=
  exists self (w1 : W) pk w2 d,
    represents base o self w1 /\
    efi_ata_pass_thru (port dev) (pmp dev) (Packet.set_acb (acb self) (packet self)) w1 = ((0, pk), w2) /\
    stored (heap w2) (Packet.asb (packet self)) d /\ zlen d = Asb.size /\ s = Asb.decode d /\
    received (heap w2) (o_in o) (Packet.in_data_buffer (packet self)) (Packet.in_transfer_length pk) data.

Lemma ata_execute_refines base dev o self (w : W) :
  represents base o self w ->
  runs (r ← execute_command dev self; look r) w (fun r w' => shape (heap w') = base /\
    forall s data, r = Ok (s, data) -> answered base dev o s data).
Proof.
  intros Hr. pose proof Hr as (_ & _ & _ & _ & Ea & _ & _ & Hh). pose proof Hh as Hp%held_all_presented.
  unfold slots in Hp. rewrite !Forall_cons in Hp. destruct Hp as (H1 & H2 & H3 & _).
  assert (ab_ptr (asb self) <> 0) as Hne.
  { pose proof (held_slots _ _ _ _ Hh) as Hsl. unfold slots in Hsl. rewrite !Forall_cons in Hsl. cbn in Hsl.
    destruct Hsl as (_ & _ & (b & [= E1 E2] & Hb & _) & _). congruence. }
  unfold execute_command. repeat runs_step.
  destruct (efi_ata_pass_thru _ _ _ w) as [[s pk] w2] eqn:E.
  destruct (ata_device _ _ _ _ _ _ _ E) as (Ei & Hdev & Hok); [by exists (o_align o)|].
  cbn in Ei, Hdev, Hok. cbn [fst snd]. repeat runs_step.
  eapply runs_lift; [apply to_result_with_val_cases|]. destruct (Z.eqb_spec s 0) as [->|Hs].
  - destruct (Hok eq_refl) as [Ti [_ Ts]]. destruct Ts as (d & Hd & Hst); [by rewrite Ea|]. repeat runs_step. cbn [look]. runs_step.
    unfold status. cbn [asb]. rewrite (proj2 (Z.eqb_neq _ _)) by done. runs_step. rewrite Ea in Hst.
    eapply runs_eq; [rewrite <- Hd; by apply heap_slice_stored|]. repeat runs_step.
    unfold read_buffer. cbn [packet]. rewrite Ei.
    eapply runs_weaken; [eapply (slice_received _ _ _ _ _ _ _ _ _ _ Hh); [left|exact Ti]|].
    intros data ? [-> Hdata]. runs_step. eapply runs_weaken; [exact (held_device_drop _ _ _ _ _ _ Hh Hdev)|].
    intros ? w3 Hsh. cbv beta in Hsh. runs_step. split; [done|]. intros ? ? [= <- <-].
    exists self, w, pk, w2, d. rewrite Ea. by split_and!.
  - repeat runs_step. eapply runs_weaken; [exact (held_device_drop _ _ _ _ _ _ Hh Hdev)|].
    intros ? w3 Hsh. cbv beta in Hsh. repeat runs_step. cbn [look]. runs_step. by split.
Qed.

(** However a request is put together, and whatever the device answers, a session
    that does not run out of memory is never undefined and leaves the heap with the
    blocks that were there before; a success sent a command block whose bytes are
    those that were set, and returns the status block and the data that the device
    stored. *)
Theorem ata_session_refines (dev : AtaDevice) (align command protocol : Z) (xs : list op) (w : W) :
  full_blocks (heap w) -> 0 < align -> Forall (op_ok (shape (heap w))) xs ->
  guarded (session dev align command protocol xs) w (fun r w' =>
    shape (heap w') = shape (heap w) /\
    forall s data, r = Ok (s, data) ->
      answered (shape (heap w)) dev (foldl give (offer_new align command protocol) xs) s data).
Proof.
  intros Hf Ha Hxs. apply guarded_bind. eapply guarded_weaken; [by apply builder_new_refined|].
  intros [self|e] w1 Hr; [|by apply guarded_ret]. apply guarded_bind. eapply guarded_weaken.
  { eapply (run_ops_refined (shape (heap w)) apply_op); [apply ata_op_refines|exact Hxs|exact Hr]. }
  intros [self2|e] w2 Hr2; [|by apply guarded_ret]. apply guarded_runs. by apply ata_execute_refines.
Qed.
End sessions.

(** ** Enumerating the devices *)

(** The ports of the controller with the ports of their multipliers; a port without
    a multiplier has none of these. *)
Class AtaPorts (W : Type) `{!AtaServices W} : Type := {
  ports : W -> list (Z * list Z);
  multiplied : forall w p ms, (p, ms) ∈ ports w -> 0xFFFF ∉ ms;
  ports_next : forall i prev (w : W),
    match i with O => prev = 0xFFFF | S j => fst <$> ports w !! j = Some prev end ->
    let '((s, p), w') := efi_get_next_port prev w in
    ports w' = ports w /\
    match ports w !! i with
    | Some (q, _) => s = Status.SUCCESS /\ p = q
    | None => s = Status.NOT_FOUND
    end;
  devices_next : forall j q ms i prev (w : W),
    ports w !! j = Some (q, ms) ->
    match i with O => prev = 0xFFFF | S k => ms !! k = Some prev end ->
    let '((s, m), w') := efi_get_next_device q prev w in
    ports w' = ports w /\
    match ms !! i with
    | Some n => s = Status.SUCCESS /\ m = n
    | None => s = Status.NOT_FOUND \/ ms = [] /\ s = Status.SUCCESS /\ m = 0xFFFF
    end;
}.

(** The addresses: a port without a multiplier may have a device directly. *)
Definition port_devices (x : Z * list Z) : list AtaDevice :=
  match x.2 with
  | [] => [mkAtaDevice x.1 0xFFFF]
  | ms => mkAtaDevice x.1 <$> ms
  end.
Definition devices (ps : list (Z * list Z)) : list AtaDevice := concat (port_devices <$> ps).

Section enumeration.
Context {W : Type} `{!AtaServices W, !AtaPorts W}.

(** What is still to come: the ports from [j] on, or first the rest of the
    multiplier of the port [j]. *)
Inductive rem : AtaDeviceIterator -> W -> list AtaDevice -> Prop :=
| rem_ports j prev w :
    match j with O => prev = 0xFFFF | S k => fst <$> ports w !! k = Some prev end ->
    rem (mkIterator true prev 0xFFFF) w (devices (drop j (ports w)))
| rem_multiplier j q ms k m w :
    ports w !! j = Some (q, ms) -> ms !! k = Some m ->
    rem (mkIterator false q m) w ((mkAtaDevice q <$> drop (S k) ms) ++ devices (drop (S j) (ports w))).

Lemma devices_drop j x (ps : list (Z * list Z)) :
  ps !! j = Some x -> devices (drop j ps) = port_devices x ++ devices (drop (S j) ps).
Proof. intros Hj. by rewrite (drop_S ps x j Hj). Qed.

(** [r] yields the first of the items that were to come. *)
Definition yields (l : list AtaDevice) (r : option AtaDevice * AtaDeviceIterator) (w' : W) : Prop :=
  r.1 = head l /\ (l <> [] -> rem r.2 w' (tail l)).

Lemma next_loop_port fuel j prev (w : W) :
  match j with O => prev = 0xFFFF | S k => fst <$> ports w !! k = Some prev end ->
  runs (next_loop (S fuel) (mkIterator true prev 0xFFFF)) w (yields (devices (drop j (ports w)))).
Proof.
  intros Hj. cbn [next_loop]. unfold next_port. cbn [end_of_port prev_port prev_pmp]. repeat runs_step.
  pose proof (ports_next j prev w Hj) as Hn. destruct (efi_get_next_port prev w) as [[s p] w1]. destruct Hn as [Ep Hn].
  cbn [fst snd]. destruct (ports w !! j) as [[q ms]|] eqn:Eq.
  - destruct Hn as [-> ->]. rewrite Z.eqb_refl. runs_step. cbv beta iota zeta. cbn [prev_pmp prev_port end_of_port]. runs_step. runs_step.
    rewrite (devices_drop _ _ _ Eq), <- Ep. rewrite <- Ep in Eq. pose proof (devices_next j q ms 0 0xFFFF w1 Eq eq_refl) as Hd.
    destruct (efi_get_next_device q 0xFFFF w1) as [[s m] w2]. destruct Hd as [Ep2 Hd]. cbn [fst snd]. rewrite Z.eqb_refl.
    assert (yields ([mkAtaDevice q 0xFFFF] ++ devices (drop (S j) (ports w1)))
      (Some (mkAtaDevice q 0xFFFF), mkIterator true q 0xFFFF) w2) as Hdirect.
    { split; [done|]. intros _. cbn [tail app snd]. rewrite <- Ep2. apply rem_ports. by rewrite Ep2, Eq. }
    destruct ms as [|m0 ms]; cbn [port_devices fst snd].
    + destruct Hd as [->|(_ & -> & ->)].
      * change (Status.NOT_FOUND =? Status.SUCCESS) with false. rewrite Z.eqb_refl. by runs_step.
      * rewrite !Z.eqb_refl. by runs_step.
    + destruct Hd as [-> ->]. rewrite Z.eqb_refl.
      assert (m0 <> 0xFFFF) as Hm by (intros ->; apply (multiplied w1 q (0xFFFF :: ms)); [by eapply list_elem_of_lookup_2|left]).
      rewrite (proj2 (Z.eqb_neq _ _)) by done. runs_step. split; [done|]. intros _. cbn [tail app fmap list_fmap snd].
      rewrite <- Ep2. apply (rem_multiplier j q (m0 :: ms) 0); [by rewrite Ep2|done].
  - subst s. change (Status.NOT_FOUND =? Status.SUCCESS) with false. rewrite Z.eqb_refl. repeat (runs_step; cbv beta iota).
    rewrite drop_ge by (by apply lookup_ge_None). by split.
Qed.

Lemma next_yields self (w : W) l : rem self w l -> runs (next self) w (yields l).
Proof.
  unfold next. intros Hrem. destruct Hrem as [j prev w Hj|j q ms k m w Hj Hk]; [by apply next_loop_port|].
  cbn [next_loop]. unfold next_port. cbn [end_of_port prev_port prev_pmp]. repeat runs_step. cbv beta iota zeta.
  cbn [prev_pmp prev_port end_of_port].
  assert (m <> 0xFFFF) as Hm by (intros ->; apply (multiplied w q ms); by eapply list_elem_of_lookup_2).
  pose proof (devices_next j q ms (S k) m w Hj Hk) as Hd. destruct (efi_get_next_device q m w) as [[s m'] w2].
  destruct Hd as [Ep Hd]. cbn [fst snd]. destruct (ms !! S k) as [n|] eqn:En.
  - destruct Hd as [-> ->]. rewrite Z.eqb_refl. runs_step.
    assert (n <> 0xFFFF) as Hn by (intros ->; apply (multiplied w q ms); by eapply list_elem_of_lookup_2).
    rewrite (proj2 (Z.eqb_neq _ _)) by done. rewrite (drop_S ms n (S k) En). split; [done|]. intros _.
    cbn [tail app fmap list_fmap snd]. rewrite <- Ep. apply (rem_multiplier j q ms (S k)); [by rewrite Ep|done].
  - assert (s = Status.NOT_FOUND) as -> by (destruct Hd as [?|[-> _]]; [done|by rewrite lookup_nil in Hk]).
    change (Status.NOT_FOUND =? Status.SUCCESS) with false. rewrite Z.eqb_refl, (proj2 (Z.eqb_neq m _)) by done.
    rewrite (drop_ge ms) by (by apply lookup_ge_None). cbn [fmap list_fmap app]. rewrite <- Ep.
    apply (next_loop_port 0 (S j) q w2). by rewrite Ep, Hj.
Qed.

(** C30: Iterating over the devices terminates and yields exactly the addresses of the
    controller: those behind the port multipliers, and one for each port without a
    multiplier, whichever way the firmware answers there. *)
Theorem ata_devices_complete (w : W) (fuel : nat) :
  (length (devices (ports w)) < fuel)%nat ->
  exists w', collect_iter next fuel iter_devices w = Ret (devices (ports w), w').
Proof.
  intros Hf. destruct (collect_iter_rem next rem next_yields fuel iter_devices w (devices (ports w)))
    as (l & w' & E & ->); [by apply (rem_ports 0)|done|]. by exists w'.
Qed.
End enumeration.

(** ** A controller with two ports *)

Module Controller.
Definition layout : list (Z * list Z) := [(0, []); (3, [1; 2]); (5, [])].

(** The first port without a multiplier is answered with a success, the second one
    is not found. *)
#[global] Instance controller_services : AtaServices Bench.world := {|
  ata_mode _ := mkMode 0 0;
  efi_ata_pass_thru _ _ pk w :=
    ((0, Packet.set_in (Packet.in_data_buffer pk) 0 pk), Bench.fill 80 (Packet.asb pk) Asb.size w);
  efi_get_next_port prev w :=
    (if prev =? 0xFFFF then (Status.SUCCESS, 0) else if prev =? 0 then (Status.SUCCESS, 3)
     else if prev =? 3 then (Status.SUCCESS, 5) else (Status.NOT_FOUND, prev), w);
  efi_get_next_device q prev w :=
    (if q =? 0 then (Status.SUCCESS, 0xFFFF)
     else if q =? 3 then
       if prev =? 0xFFFF then (Status.SUCCESS, 1) else if prev =? 1 then (Status.SUCCESS, 2) else (Status.NOT_FOUND, prev)
     else (Status.NOT_FOUND, prev), w);
  efi_ata_build_device_path _ _ w := ((Status.UNSUPPORTED, 0), w);
  efi_reset_device _ _ w := (Status.UNSUPPORTED, w);
|}.

#[global] Instance controller_laws : AtaLaws Bench.world.
Proof.
  split. intros p m pk w s pk' w' [= <- <- <-] (al & Hi & _ & Hs). cbn. split_and!; [done| |].
  - apply Bench.fill_step. right. left.
  - intros _. split; [|by eapply Bench.fill_transferred]. eapply Bench.none_transferred; [exact Hi|].
    apply (Bench.fill_step _ _ _ _ [Packet.asb pk]). left.
Qed.

#[global, refine] Instance controller_ports : AtaPorts Bench.world := {| ports _ := layout |}.
Proof.
  - intros _ p ms Hin. unfold layout in Hin. rewrite !elem_of_cons, elem_of_nil in Hin.
    destruct Hin as [[= _ ->]|[[= _ ->]|[[= _ ->]|[]]]]; by_decide.
  - intros [|[|[|[|i]]]] prev w; cbn; [intros ->|intros [= <-]|intros [= <-]|intros [= <-]|done]; vm_compute; done.
  - intros [|[|[|j]]] q ms i prev w; cbn; [intros [= <- <-]|intros [= <- <-]|intros [= <- <-]|done];
      (destruct i as [|[|[|i]]]; cbn; [intros ->|try done; intros [= <-]|try done; intros [= <-]|done]); vm_compute; naive_solver.
Defined.

Definition initial : Bench.world := {[ 64 := mkHeapBlock (mkLayout 4 4) [Some 1; Some 2; Some 3; Some 4] ]}.
Definition borrowed : AlignedBuffer := mkAlignedBuffer 64 (mkLayout 4 4).
Definition identify : list op := [UseWriteBuffer borrowed; SectorCount 1; WithReadBuffer 512; Cylinder 7 8; WithReadBuffer 16].
End Controller.

Lemma ata_session_refines_witness :
  exists w', session (mkAtaDevice 0 0xFFFF) 4 0xEC CommandProtocol.UDMA_DATA_IN Controller.identify Controller.initial
    = Ret (Ok (Asb.mk 80 80 80 80 80 80 80 80 80 80 80 80, Some []), w') /\
    shape (heap w') = shape (heap Controller.initial).
Proof.
  pose proof (ata_session_refines (mkAtaDevice 0 0xFFFF) 4 0xEC CommandProtocol.UDMA_DATA_IN Controller.identify Controller.initial) as Hs.
  unfold guarded in Hs.
  assert (omap fst (session (mkAtaDevice 0 0xFFFF) 4 0xEC CommandProtocol.UDMA_DATA_IN Controller.identify Controller.initial) =
    Ret (Ok (Asb.mk 80 80 80 80 80 80 80 80 80 80 80 80, Some []))) as E by (vm_compute; reflexivity).
  destruct (session _ _ _ _ _ _) as [[r w']| | |]; [|discriminate E..]. injection E as ->. exists w'. split; [reflexivity|].
  apply Hs.
  - intros p b Hp. change (heap Controller.initial) with Controller.initial in Hp. unfold Controller.initial in Hp.
    by apply lookup_singleton_Some in Hp as [<- <-].
  - reflexivity.
  - repeat (constructor; [cbn; first [lia|done|split; [split; [discriminate|reflexivity]|lia]]|]). constructor.
Defined.

Lemma ata_devices_complete_witness :
  omap fst (collect_iter next 5 iter_devices Controller.initial) =
    Ret [mkAtaDevice 0 0xFFFF; mkAtaDevice 3 1; mkAtaDevice 3 2; mkAtaDevice 5 0xFFFF].
Proof.
  destruct (ata_devices_complete Controller.initial 5) as (w' & ->); [cbn; lia|reflexivity].
Defined.
