(* ===== verification/LoadedImage.v ===== *)
(** * The loaded image protocol

    [LoadedImage] of [uefi/src/proto/loaded_image.rs] over the struct of
    [uefi-raw/src/protocol/loaded_image.rs].  The struct is its fields; pointers
    are addresses, and [mem a] is the memory from the address [a] to the end of its
    allocation. *)
From S2P Require Import Prelude Strs MemoryMap DevicePath.

Record LoadedImageProtocol : Set := mkLoadedImage {
  li_revision : Z;
  li_parent_handle : Z;
  li_system_table : Z;
  li_device_handle : Z;
  li_file_path : Z;
  li_reserved : Z;
  li_load_options_size : Z;
  li_load_options : Z;
  li_image_base : Z;
  li_image_size : Z;
  li_image_code_type : Z;
  li_image_data_type : Z;
  li_unload : Z;
}.

Definition size_of_LoadedImageProtocol : Z := 96.

(** The [repr(C)] layout on a 64-bit target. *)
Definition decode_loaded_image (bs : list Z) : LoadedImageProtocol :=
  mkLoadedImage (field_at bs 0 4) (field_at bs 8 8) (field_at bs 16 8) (field_at bs 24 8)
    (field_at bs 32 8) (field_at bs 40 8) (field_at bs 48 4) (field_at bs 56 8)
    (field_at bs 64 8) (field_at bs 72 8) (field_at bs 80 4) (field_at bs 84 4) (field_at bs 88 8).

(** A reference to the struct at the front of [mem]. *)
Definition read_loaded_image (mem : list Z) : outcome LoadedImageProtocol :=
  let! bs := read_raw mem 0 size_of_LoadedImageProtocol in
  Ret (decode_loaded_image bs).

Inductive LoadOptionsError : Set :=
| NotSet
| NotAligned
| InvalidString (e : FromSliceWithNulError.t).

(** [Handle::from_ptr], [NonNull::new]: null is [None]. *)
Definition handle_from_ptr (ptr : Z) : option Z := if ptr =? 0 then None else Some ptr.

(** The units of a UTF-16 buffer in memory. *)
Fixpoint units_of (bs : list Z) : list Z :=
  match bs with
  | lo :: hi :: bs => le_val [lo; hi] :: units_of bs
  | _ => []
  end.

Section loaded_image.
Context `{Profile} (mem : Z -> list Z).

Definition device (self : LoadedImageProtocol) : option Z := handle_from_ptr (li_device_handle self).

Definition li_path (self : LoadedImageProtocol) : outcome (option (list Z)) :=
  if li_file_path self =? 0 then Ret None
  else let! p := path_from_ffi_ptr (mem (li_file_path self)) in Ret (Some p).

Definition load_options_as_cstr16 (self : LoadedImageProtocol)
  : outcome (result (list Z) LoadOptionsError) :=
  let load_options_size := li_load_options_size self in
  if li_load_options self =? 0 then Ret (Err NotSet)
  else if negb (load_options_size mod 2 =? 0) || negb (li_load_options self mod 2 =? 0)
  then Ret (Err NotAligned)
  else
    let! bs := read_raw (mem (li_load_options self)) 0 (load_options_size / 2 * 2) in
    Ret (map_err InvalidString (cstr16_from_u16_with_nul (units_of bs))).

Definition load_options_as_bytes (self : LoadedImageProtocol) : outcome (option (list Z)) :=
  if li_load_options self =? 0 then Ret None
  else let! bs := read_raw (mem (li_load_options self)) 0 (li_load_options_size self) in Ret (Some bs).

Definition set_image (self : LoadedImageProtocol) (data size : Z) : LoadedImageProtocol :=
  mkLoadedImage (li_revision self) (li_parent_handle self) (li_system_table self)
    (li_device_handle self) (li_file_path self) (li_reserved self) (li_load_options_size self)
    (li_load_options self) data size (li_image_code_type self) (li_image_data_type self) (li_unload self).

Definition set_unload (self : LoadedImageProtocol) (unload : Z) : LoadedImageProtocol :=
  mkLoadedImage (li_revision self) (li_parent_handle self) (li_system_table self)
    (li_device_handle self) (li_file_path self) (li_reserved self) (li_load_options_size self)
    (li_load_options self) (li_image_base self) (li_image_size self) (li_image_code_type self)
    (li_image_data_type self) unload.

Definition set_load_options (self : LoadedImageProtocol) (options size : Z) : LoadedImageProtocol :=
  mkLoadedImage (li_revision self) (li_parent_handle self) (li_system_table self)
    (li_device_handle self) (li_file_path self) (li_reserved self) size options
    (li_image_base self) (li_image_size self) (li_image_code_type self) (li_image_data_type self)
    (li_unload self).

Definition info (self : LoadedImageProtocol) : Z * Z := (li_image_base self, li_image_size self).
Definition code_type (self : LoadedImageProtocol) : Z := li_image_code_type self.
Definition data_type (self : LoadedImageProtocol) : Z := li_image_data_type self.
End loaded_image.

(** ** Properties *)

Lemma units_of_bytes (s : list Z) : Forall is_u16 s -> units_of (concat (map (le_bytes 2) s)) = s.
Proof.
  induction 1 as [|u s Hu _ IH]; [done|]. simpl. fold (le_bytes 2). f_equal; [|exact IH].
  exact (le_val_bytes 2 u Hu).
Qed.

(** Load options that were set to a C string in aligned memory are read back as
    that string and as its bytes. *)
Theorem load_options_roundtrip (mem : Z -> list Z) (self : LoadedImageProtocol) (options : Z) (s rest : list Z) :
  cstr16_wf s -> options <> 0 -> options mod 2 = 0 ->
  mem options = concat (map (le_bytes 2) s) ++ rest ->
  let self' := set_load_options self options (zlen s * 2) in
  load_options_as_cstr16 mem self' = Ret (Ok s) /\
  load_options_as_bytes mem self' = Ret (Some (concat (map (le_bytes 2) s))).
Proof.
  intros Hs Ho Ha Hm self'. unfold load_options_as_cstr16, load_options_as_bytes.
  cbn [self' set_load_options li_load_options li_load_options_size].
  rewrite (proj2 (Z.eqb_neq _ _)), Z.mod_mul, Ha, Hm by done. cbn [Z.eqb negb orb].
  set (bs := concat (map (le_bytes 2) s)).
  assert (zlen bs = zlen s * 2) as Hl by (apply zlen_concat_map; intros; apply zlen_le_bytes).
  rewrite Z.div_mul, <- Hl, read_raw_front by done. cbn [obind]. split; [|done].
  pose proof (Forall_impl _ _ _ (cstr16_wf_ucs2 s Hs) (fun c H => proj1 H)) as Hu16.
  unfold bs. rewrite units_of_bytes by done. destruct Hs as (b & -> & Hb). by rewrite from_u16_with_nul_ok.
Qed.

Lemma load_options_roundtrip_witness :
  load_options_as_cstr16 (fun a => if a =? 64 then [0x61; 0; 0x62; 0x20; 0; 0; 7] else [])
    (set_load_options (decode_loaded_image []) 64 6) = Ret (Ok [0x61; 0x2062; 0]).
Proof.
  apply (load_options_roundtrip (fun a => if a =? 64 then [0x61; 0; 0x62; 0x20; 0; 0; 7] else [])
    (decode_loaded_image []) 64 [0x61; 0x2062; 0] [7]); [by_decide|done|done|done].
Defined.
