(* ===== verification/BootProtocols.v ===== *)
(** * Handles and protocols

    The handle and protocol functions of [uefi/src/boot.rs], the guards that
    release what they obtain ([ScopedProtocol], [HandleBuffer],
    [ProtocolsPerHandle]), and what uses them: [get_image_file_system] and the
    allocator's query for the memory type of the loaded image.  Handles,
    interfaces, registrations and events are addresses; a GUID is its number. *)
From stdpp Require Import gmap.
From S2P Require Import Prelude Firmware Status MemoryMap DevicePath DevicePathBuild BootMemory LoadedImage.

(** ** The firmware's protocol services

    [memory_at a] is the memory from the address [a] to the end of its
    allocation; [image_handle_cell] is the static [IMAGE_HANDLE]. *)
Class ProtocolServices (W : Type) : Type := {
  image_handle_cell : W -> Z;
  set_image_handle_cell : Z -> W -> W;
  memory_at : Z -> W -> list Z;
  efi_open_protocol : Z -> Z -> Z -> Z -> Z -> W -> (Z * Z) * W;
  efi_close_protocol : Z -> Z -> Z -> Z -> W -> Z * W;
  efi_locate_handle : Z -> Z -> Z -> Z -> W -> (Z * Z * list Z) * W;
  efi_locate_handle_buffer : Z -> Z -> Z -> W -> (Z * Z * Z) * W;
  efi_protocols_per_handle : Z -> W -> (Z * Z * Z) * W;
  efi_locate_device_path : Z -> Z -> W -> (Z * Z * Z) * W;
  efi_install_protocol_interface : Z -> Z -> Z -> Z -> W -> (Z * Z) * W;
  efi_reinstall_protocol_interface : Z -> Z -> Z -> Z -> W -> Z * W;
  efi_uninstall_protocol_interface : Z -> Z -> Z -> W -> Z * W;
  efi_register_protocol_notify : Z -> Z -> W -> (Z * Z) * W;
  efi_connect_controller : Z -> Z -> Z -> bool -> W -> Z * W;
  efi_disconnect_controller : Z -> Z -> Z -> W -> Z * W;
}.

(** [Handle::opt_to_ptr]. *)
Definition opt_to_ptr (handle : option Z) : Z := default 0 handle.

(** The type parameter [P: ProtocolPointer]: its GUID, and the metadata of the
    pointer that [mut_ptr_from_ffi] makes of the memory at the interface. *)
Record ProtocolPointer : Type := mkProtocolPointer {
  pp_guid : Z;
  pp_metadata : list Z -> outcome Z;
}.

(** A sized protocol: the pointer is cast. *)
Definition sized_protocol (guid : Z) : ProtocolPointer := mkProtocolPointer guid (fun _ => Ret 0).

Definition LoadedImage_P : ProtocolPointer := sized_protocol 0x5b1b31a1956211d28e3f00a0c969723b.
Definition SimpleFileSystem_P : ProtocolPointer := sized_protocol 0x964e5b22645911d28e3900a0c969723b.
Definition DevicePath_P `{Profile} : ProtocolPointer :=
  mkProtocolPointer 0x09576e916d3f11d28e3900a0c969723b size_in_bytes_from_ptr.

Inductive OpenProtocolAttributes : Set :=
| GetProtocol | ByChildController | ByDriver | ByDriverExclusive | Exclusive.

Definition attributes_bits (a : OpenProtocolAttributes) : Z :=
  match a with
  | GetProtocol => 0x02
  | ByChildController => 0x08
  | ByDriver => 0x10
  | ByDriverExclusive => 0x30
  | Exclusive => 0x20
  end.

Definition TEST_PROTOCOL : Z := 0x04.
Definition NATIVE_INTERFACE : Z := 0.

Record OpenProtocolParams : Set := mkOpenProtocolParams {
  op_handle : Z; op_agent : Z; op_controller : option Z;
}.

(** The interface is the address and the metadata of the pointer. *)
Record ScopedProtocol : Set := mkScopedProtocol {
  sp_interface : option (Z * Z);
  open_params : OpenProtocolParams;
}.

Inductive SearchType : Set :=
| AllHandles
| ByProtocol (guid : Z)
| ByRegisterNotify (key : Z).

Definition from_proto (P : ProtocolPointer) : SearchType := ByProtocol (pp_guid P).

(** The arguments of the firmware's search functions. *)
Definition search_params (search_ty : SearchType) : Z * Z * Z :=
  match search_ty with
  | AllHandles => (0, 0, 0)
  | ByRegisterNotify registration => (1, 0, registration)
  | ByProtocol guid => (2, guid, 0)
  end.

Record HandleBuffer : Set := mkHandleBuffer { hb_count : Z; hb_buffer : Z }.
Record ProtocolsPerHandle : Set := mkProtocolsPerHandle { pph_protocols : Z; pph_count : Z }.

Definition size_of_Handle : Z := 8.

Section protocols.
Context `{Profile} {W : Type} `{!BootServices W, !ProtocolServices W}.

(** ** The image handle *)

Definition image_handle : fw W Z :=
  ptr ← call (fun w => (image_handle_cell w, w));
  lift (unwrap (handle_from_ptr ptr)).

Definition set_image_handle (image_handle : Z) : fw W unit :=
  call (fun w => (tt, set_image_handle_cell image_handle w)).

(** ** Opening and closing *)

Definition open_protocol (P : ProtocolPointer) (params : OpenProtocolParams)
  (attributes : OpenProtocolAttributes) : fw W (uresult ScopedProtocol unit) :=
  boot_services_raw_panicking;;
  '(status, interface) ← call (efi_open_protocol (op_handle params) (pp_guid P)
    (op_agent params) (opt_to_ptr (op_controller params)) (attributes_bits attributes));
  try _ <- lift (to_result status);
  if interface =? 0 then mret (Ok (mkScopedProtocol None params))
  else
    mem ← call (fun w => (memory_at interface w, w));
    metadata ← lift (pp_metadata P mem);
    mret (Ok (mkScopedProtocol (Some (interface, metadata)) params)).

Definition open_protocol_exclusive (P : ProtocolPointer) (handle : Z)
  : fw W (uresult ScopedProtocol unit) :=
  agent ← image_handle;
  open_protocol P (mkOpenProtocolParams handle agent None) Exclusive.

(** [Drop for ScopedProtocol]. *)
Definition scoped_drop (P : ProtocolPointer) (self : ScopedProtocol) : fw W unit :=
  boot_services_raw_panicking;;
  status ← call (efi_close_protocol (op_handle (open_params self)) (pp_guid P)
    (op_agent (open_params self)) (opt_to_ptr (op_controller (open_params self))));
  lift (assert_ (status =? Status.SUCCESS)).

(** [Deref], [DerefMut] and [get]. *)
Definition scoped_deref (self : ScopedProtocol) : outcome (Z * Z) := unwrap (sp_interface self).
Definition scoped_get (self : ScopedProtocol) : option (Z * Z) := sp_interface self.

Definition test_protocol (P : ProtocolPointer) (params : OpenProtocolParams) : fw W (uresult bool unit) :=
  boot_services_raw_panicking;;
  '(status, _) ← call (efi_open_protocol (op_handle params) (pp_guid P)
    (op_agent params) (opt_to_ptr (op_controller params)) TEST_PROTOCOL);
  if status =? Status.SUCCESS then mret (Ok true)
  else if status =? Status.UNSUPPORTED then mret (Ok false)
  else e ← lift (error_from_status status); mret (Err e).

(** ** Installing *)

Definition install_protocol_interface (handle : option Z) (protocol interface : Z) : fw W (uresult Z unit) :=
  boot_services_raw_panicking;;
  '(status, handle) ← call (efi_install_protocol_interface (opt_to_ptr handle) protocol
    NATIVE_INTERFACE interface);
  try _ <- lift (to_result status);
  h ← lift (unwrap (handle_from_ptr handle));
  mret (Ok h).

Definition reinstall_protocol_interface (handle protocol old_interface new_interface : Z)
  : fw W (uresult unit unit) :=
  boot_services_raw_panicking;;
  status ← call (efi_reinstall_protocol_interface handle protocol old_interface new_interface);
  lift (to_result status).

Definition uninstall_protocol_interface (handle protocol interface : Z) : fw W (uresult unit unit) :=
  boot_services_raw_panicking;;
  status ← call (efi_uninstall_protocol_interface handle protocol interface);
  lift (to_result status).

Definition register_protocol_notify (protocol event : Z) : fw W (uresult SearchType unit) :=
  boot_services_raw_panicking;;
  '(status, key) ← call (efi_register_protocol_notify protocol event);
  try _ <- lift (to_result status);
  k ← lift (unwrap (handle_from_ptr key));
  mret (Ok (ByRegisterNotify k)).

Definition connect_controller (controller : Z) (driver_image : option Z)
  (remaining_device_path : option Buffer) (recursive : bool) : fw W (uresult unit unit) :=
  boot_services_raw_panicking;;
  status ← call (efi_connect_controller controller (opt_to_ptr driver_image)
    (match remaining_device_path with Some dp => addr dp | None => 0 end) recursive);
  lift (to_result_with_err status (fun _ => tt)).

Definition disconnect_controller (controller : Z) (driver_image child : option Z) : fw W (uresult unit unit) :=
  boot_services_raw_panicking;;
  status ← call (efi_disconnect_controller controller (opt_to_ptr driver_image) (opt_to_ptr child));
  lift (to_result_with_err status (fun _ => tt)).

(** ** Searching *)

(** A reference to the device path at an address. *)
Definition device_path_at (ptr : Z) : fw W Buffer :=
  mem ← call (fun w => (memory_at ptr w, w));
  bs ← lift (path_from_ffi_ptr mem);
  mret (mkBuffer ptr bs).

(** The result and the device path that is left. *)
Definition locate_device_path (P : ProtocolPointer) (device_path : Buffer)
  : fw W (uresult Z unit * Buffer) :=
  boot_services_raw_panicking;;
  '(status, device_path_ptr, handle) ← call (efi_locate_device_path (pp_guid P) (addr device_path));
  r ← lift (to_result status);
  match r with
  | Err e => mret (Err e, device_path)
  | Ok tt =>
      device_path ← device_path_at device_path_ptr;
      h ← lift (unwrap (handle_from_ptr handle));
      mret (Ok h, device_path)
  end.

(** [buffer_len] slots; the result is the initialised front of the buffer. *)
Definition locate_handle (search_ty : SearchType) (buffer_len : Z)
  : fw W (uresult (list Z) (option Z)) :=
  boot_services_raw_panicking;;
  let '(ty, guid, key) := search_params search_ty in
  '(status, buffer_size, out) ←
    call (efi_locate_handle ty guid key (buffer_len * size_of_Handle));
  buffer ← lift (write_raw (replicate (Z.to_nat buffer_len) None) 0 out);
  let num_handles := buffer_size / size_of_Handle in
  if status =? Status.SUCCESS then
    front ← lift (slice buffer 0 num_handles);
    handles ← lift (assume_init front);
    mret (Ok handles)
  else if status =? Status.BUFFER_TOO_SMALL then
    e ← lift (error_new status (Some num_handles)); mret (Err e)
  else e ← lift (error_new status None); mret (Err e).

(** Words in memory at consecutive addresses: [slice::from_raw_parts]. *)
Definition words_at (p n : Z) : fw W (list Z) :=
  call (fun w => (map (fun i => peek (p + size_of_Handle * Z.of_nat i) w) (seq 0 (Z.to_nat n)), w)).

Definition locate_handle_buffer (search_ty : SearchType) : fw W (uresult HandleBuffer unit) :=
  boot_services_raw_panicking;;
  let '(ty, guid, key) := search_params search_ty in
  '(status, num_handles, buffer) ← call (efi_locate_handle_buffer ty guid key);
  try _ <- lift (to_result status);
  b ← lift (unwrap (handle_from_ptr buffer));
  mret (Ok (mkHandleBuffer num_handles b)).

(** [Drop] and [Deref for HandleBuffer]. *)
Definition handle_buffer_drop (self : HandleBuffer) : fw W unit :=
  _ ← free_pool (hb_buffer self); mret tt.
Definition handle_buffer_deref (self : HandleBuffer) : fw W (list Z) :=
  words_at (hb_buffer self) (hb_count self).

Definition protocols_per_handle (handle : Z) : fw W (uresult ProtocolsPerHandle unit) :=
  boot_services_raw_panicking;;
  '(status, protocols, count) ← call (efi_protocols_per_handle handle);
  try _ <- lift (to_result status);
  p ← lift (unwrap (handle_from_ptr protocols));
  mret (Ok (mkProtocolsPerHandle p count)).

(** [Drop] and [Deref for ProtocolsPerHandle]. *)
Definition protocols_per_handle_drop (self : ProtocolsPerHandle) : fw W unit :=
  _ ← free_pool (pph_protocols self); mret tt.
Definition protocols_per_handle_deref (self : ProtocolsPerHandle) : fw W (list Z) :=
  words_at (pph_protocols self) (pph_count self).

(** [capacity n] is the capacity of the [Vec] that [with_capacity(n)] makes. *)
Definition find_handles (capacity : Z -> Z) (P : ProtocolPointer) : fw W (uresult (list Z) unit) :=
  let search_type := from_proto P in
  r ← locate_handle search_type 0;
  match r with
  | Ok _ => lift (Panic Explicit)
  | Err err =>
      if err_status err =? Status.BUFFER_TOO_SMALL then
        num_handles ← lift (unwrap (err_data err));
        r ← locate_handle search_type (capacity num_handles);
        handles ← lift (discard_errdata r);
        mret handles
      else mret (Err (to_err_without_payload err))
  end.

(** The buffer lives to the end of the expression. *)
Definition get_handle_for_protocol (P : ProtocolPointer) : fw W (uresult Z unit) :=
  try buffer <- locate_handle_buffer (ByProtocol (pp_guid P));
  handles ← handle_buffer_deref buffer;
  r ← lift (match head handles with
            | Some h => Ret (Ok h)
            | None => let! e := error_from_status Status.NOT_FOUND in Ret (Err e)
            end);
  handle_buffer_drop buffer;;
  mret r.

(** ** Uses *)

(** The struct behind an open [LoadedImage] protocol. *)
Definition loaded_image_deref (sp : ScopedProtocol) : fw W LoadedImageProtocol :=
  '(ptr, _) ← lift (scoped_deref sp);
  mem ← call (fun w => (memory_at ptr w, w));
  lift (read_loaded_image mem).

(** The scope of a guard: the guard is dropped at its end, also when the body
    fails. *)
Definition scoped {A} (P : ProtocolPointer) (handle : Z) (body : ScopedProtocol -> fw W (uresult A unit))
  : fw W (uresult A unit) :=
  try sp <- open_protocol_exclusive P handle;
  r ← body sp;
  scoped_drop P sp;;
  mret r.

Definition get_image_file_system (image_handle : Z) : fw W (uresult ScopedProtocol unit) :=
  scoped LoadedImage_P image_handle (fun loaded_image =>
    li ← loaded_image_deref loaded_image;
    match device li with
    | None => e ← lift (error_new Status.UNSUPPORTED tt); mret (Err e)
    | Some device_handle =>
        scoped DevicePath_P device_handle (fun device_path =>
          '(ptr, _) ← lift (scoped_deref device_path);
          dp ← device_path_at ptr;
          '(located, _) ← locate_device_path SimpleFileSystem_P dp;
          match located with
          | Err e => mret (Err e)
          | Ok device_handle => open_protocol_exclusive SimpleFileSystem_P device_handle
          end)
    end).

(** The allocator's query for the type of the image's data. *)
Definition image_data_type : fw W (uresult Z unit) :=
  h ← image_handle;
  scoped LoadedImage_P h (fun loaded_image =>
    li ← loaded_image_deref loaded_image;
    mret (Ok (data_type li))).
End protocols.

(** ** Properties *)

(** What a protocol call does not touch: the memory blocks and the image handle. *)
Definition calm {W} `{!BootServices W, !Blocks W, !ProtocolServices W} (w w' : W) : Prop :=
  same_blocks w w' /\ image_handle_cell w' = image_handle_cell w.

(** A device path can be read at an address. *)
Definition path_at {W} `{Profile, !ProtocolServices W} (p : Z) (w : W) : Prop :=
  exists bs, path_from_ffi_ptr (memory_at p w) = Ret bs.

(** What the specification documents of the protocol services.  [is_open w (h, g)]:
    the image has the protocol [g] of the handle [h] open in exclusive mode.
    [handles_of w g] are the handles that support [g]. *)
Class ProtocolLaws (W : Type) `{Profile, !BootServices W, !Blocks W, !ProtocolServices W} : Type := {
  is_open : W -> Z * Z -> Prop;
  handles_of : W -> Z -> list Z;
  open_ok : forall h g w p w',
    efi_open_protocol h g (image_handle_cell w) 0 (attributes_bits Exclusive) w = ((0, p), w') ->
    acquires is_open (h, g) w w' /\ calm w w';
  open_fail : forall h g w s p w',
    efi_open_protocol h g (image_handle_cell w) 0 (attributes_bits Exclusive) w = ((s, p), w') -> s <> 0 ->
    keeps is_open w w' /\ calm w w';
  close_ok : forall h g w, is_open w (h, g) ->
    exists w', efi_close_protocol h g (image_handle_cell w) 0 w = (0, w') /\
      releases is_open (h, g) w w' /\ calm w w';
  loaded_image_interface : forall h w p w',
    efi_open_protocol h (pp_guid LoadedImage_P) (image_handle_cell w) 0 (attributes_bits Exclusive) w = ((0, p), w') ->
    p <> 0 /\ exists li, read_loaded_image (memory_at p w') = Ret li;
  device_path_interface : forall h w p w',
    efi_open_protocol h (pp_guid DevicePath_P) (image_handle_cell w) 0 (attributes_bits Exclusive) w = ((0, p), w') ->
    p <> 0 /\ path_at p w';
  locate_path : forall g p w s p' h w', efi_locate_device_path g p w = ((s, p', h), w') ->
    keeps is_open w w' /\ calm w w' /\ (s = 0 -> h <> 0 /\ path_at p' w');
  locate_none : forall g n w, handles_of w g = [] ->
    exists m, efi_locate_handle 2 g 0 n w = ((Status.NOT_FOUND, m, []), w);
  locate_small : forall g n w, 0 <= n < zlen (handles_of w g) * size_of_Handle ->
    efi_locate_handle 2 g 0 n w =
      ((Status.BUFFER_TOO_SMALL, zlen (handles_of w g) * size_of_Handle, []), w);
  locate_fits : forall g n w, handles_of w g <> [] -> zlen (handles_of w g) * size_of_Handle <= n ->
    efi_locate_handle 2 g 0 n w = ((0, zlen (handles_of w g) * size_of_Handle, handles_of w g), w);
  locate_buffer : forall g w s n p w', efi_locate_handle_buffer 2 g 0 w = ((s, n, p), w') ->
    if s =? 0 then p <> 0 /\ n = zlen (handles_of w g) /\ adds (Pool p (n * size_of_Handle)) w w' /\
      forall i, (i < length (handles_of w g))%nat ->
        Some (peek (p + size_of_Handle * Z.of_nat i) w') = handles_of w g !! i
    else same_blocks w w';
}.

Section protocol_properties.
Context `{Profile} {W : Type} `{!BootServices W, !Blocks W, !ProtocolServices W, !ProtocolLaws W}.

#[local] Instance calm_preorder : PreOrder calm.
Proof.
  split.
  - intros w. split; [split; [reflexivity|done]|done].
  - intros w w1 w2 [S1 H1] [S2 H2]. split; [by eapply same_trans|congruence].
Qed.

Lemma calm_active w w' : calm w w' -> boot_active w = true -> boot_active w' = true.
Proof. intros [[_ H1] _]. congruence. Qed.

Lemma runs_boot {A} (k : unit -> fw W A) w Q :
  boot_active w = true -> runs (k tt) w Q -> runs (boot_services_raw_panicking ≫= k) w Q.
Proof. intros Hact (a & w' & E & HQ). exists a, w'. by rewrite boot_run. Qed.

(** The guard that opening the protocol [g] of the handle [h] makes. *)
Definition guards (h : Z) (w : W) (sp : ScopedProtocol) : Prop :=
  open_params sp = mkOpenProtocolParams h (image_handle_cell w) None.

Lemma runs_image_handle w (Q : Z -> W -> Prop) :
  image_handle_cell w <> 0 -> Q (image_handle_cell w) w -> runs image_handle w Q.
Proof.
  intros Hi HQ. unfold image_handle. repeat runs_step. cbn [fst snd]. unfold handle_from_ptr.
  rewrite (proj2 (Z.eqb_neq _ _)) by done. by eapply runs_lift.
Qed.

(** Opening in exclusive mode, for a protocol whose pointer can be made. *)
Lemma open_exclusive_runs P h w :
  boot_active w = true -> image_handle_cell w <> 0 ->
  (forall p w', efi_open_protocol h (pp_guid P) (image_handle_cell w) 0 (attributes_bits Exclusive) w = ((0, p), w') ->
    p <> 0 -> exists m, pp_metadata P (memory_at p w') = Ret m) ->
  runs (open_protocol_exclusive P h) w (fun r w' => calm w w' /\
    match r with
    | Ok sp => acquires is_open (h, pp_guid P) w w' /\ guards h w sp /\
        exists p, efi_open_protocol h (pp_guid P) (image_handle_cell w) 0 (attributes_bits Exclusive) w = ((0, p), w') /\
          (p <> 0 -> exists m, sp_interface sp = Some (p, m))
    | Err _ => keeps is_open w w'
    end).
Proof.
  intros Hact Hi Hmeta. unfold open_protocol_exclusive. runs_step. apply runs_image_handle; [done|].
  unfold open_protocol. apply runs_boot; [done|]. repeat runs_step.
  cbn [op_handle op_agent op_controller opt_to_ptr default].
  destruct (efi_open_protocol h (pp_guid P) (image_handle_cell w) 0 _ w) as [[s p] w'] eqn:E. cbn [fst snd].
  runs_step. rewrite to_result_cases. eapply runs_lift; [done|]. destruct (Z.eqb_spec s 0) as [->|Hs].
  2: { destruct (open_fail _ _ _ _ _ _ E Hs) as [K C]. done. }
  destruct (open_ok _ _ _ _ _ E) as [A C]. destruct (Z.eqb_spec p 0) as [->|Hp].
  - runs_step. split; [done|]. do 2 (split; [done|]). by exists 0.
  - repeat runs_step. destruct (Hmeta _ _ eq_refl Hp) as [m Hm]. eapply runs_lift; [exact Hm|].
    runs_step. split; [done|]. do 2 (split; [done|]). exists p. eauto.
Qed.

Lemma scoped_drop_runs P h w0 w sp :
  boot_active w = true -> guards h w0 sp -> image_handle_cell w = image_handle_cell w0 ->
  is_open w (h, pp_guid P) ->
  runs (scoped_drop P sp) w (fun _ w' => releases is_open (h, pp_guid P) w w' /\ calm w w').
Proof.
  intros Hact Hg Hi Ho. unfold scoped_drop. apply runs_boot; [done|]. repeat runs_step.
  rewrite Hg. cbn [op_handle op_agent op_controller opt_to_ptr default]. rewrite <- Hi.
  destruct (close_ok _ _ _ Ho) as (w' & -> & R & C). cbn [fst snd]. by eapply runs_lift.
Qed.

(** What a computation that may return a guard of the protocol [g] leaves open. *)
Definition leaves {A} (g : option (Z * (Z -> W -> A -> Prop))) (w : W) (r : uresult A unit) (w' : W) : Prop :=
  calm w w' /\
  match r, g with
  | Ok a, Some (g, owner) => exists h, acquires is_open (h, g) w w' /\ owner h w a
  | _, _ => keeps is_open w w'
  end.

(** A guard is closed again at the end of its scope, whatever the body leaves
    open of another protocol. *)
Lemma scoped_runs {A} P h (body : ScopedProtocol -> fw W (uresult A unit)) g w :
  boot_active w = true -> image_handle_cell w <> 0 ->
  (forall p w', efi_open_protocol h (pp_guid P) (image_handle_cell w) 0 (attributes_bits Exclusive) w = ((0, p), w') ->
    p <> 0 /\ exists m, pp_metadata P (memory_at p w') = Ret m) ->
  (match g with Some (g, owner) => g <> pp_guid P /\ (forall h a w w', calm w w' -> owner h w' a -> owner h w a) | None => True end) ->
  (forall sp p m w1, efi_open_protocol h (pp_guid P) (image_handle_cell w) 0 (attributes_bits Exclusive) w = ((0, p), w1) ->
    sp_interface sp = Some (p, m) -> calm w w1 -> runs (body sp) w1 (leaves g w1)) ->
  runs (scoped P h body) w (leaves g w).
Proof.
  intros Hact Hi Hmeta Hg Hbody. unfold scoped. runs_step.
  eapply runs_weaken; [apply open_exclusive_runs; [done|done|]|].
  { intros p w' E _. by apply (Hmeta p w'). }
  intros [sp|e] w1 (C1 & Hr); [|by split]. destruct Hr as (A1 & G1 & p & E & Hint).
  destruct (Hmeta _ _ E) as [Hp _]. destruct (Hint Hp) as [m Hm].
  runs_step. eapply runs_weaken; [by apply (Hbody sp p m)|]. intros r w2 (C2 & Hr).
  assert (is_open w2 (h, pp_guid P)) as Ho.
  { apply acquires_held in A1. destruct r as [a|e], g as [[g owner]|]; try by apply Hr.
    destruct Hr as (h' & [_ A2] & _). apply A2. by left. }
  runs_step. eapply runs_weaken; [eapply scoped_drop_runs; [|exact G1| |exact Ho]|].
  { eapply calm_active; [exact C2|]. by eapply calm_active. }
  { destruct C1, C2. congruence. }
  intros _ w3 (R & C3). runs_step. split; [by etrans; [|etrans]|].
  destruct r as [a|e], g as [[g owner]|]; cbn beta iota in Hr |- *.
  1: { destruct Hr as (h' & A2 & Hown). destruct Hg as [Hne Hmono]. exists h'. split; [|by eapply Hmono].
       eapply acquires_acquires_releases; [|exact A1|exact A2|exact R]. congruence. }
  all: rewrite <- Hr in R; by eapply acquires_releases.
Qed.

Lemma runs_device_path_at p w (Q : Buffer -> W -> Prop) :
  path_at p w -> (forall b, Q b w) -> runs (device_path_at p) w Q.
Proof.
  intros [bs E] HQ. unfold device_path_at. repeat runs_step. cbn [fst snd].
  eapply runs_lift; [exact E|]. runs_step. apply HQ.
Qed.

Lemma path_metadata p w : path_at p w -> exists m, pp_metadata DevicePath_P (memory_at p w) = Ret m.
Proof. intros [bs E]. unfold path_from_ffi_ptr in E. apply obind_Ret_inv in E as (n & E & _). by exists n. Qed.

Lemma guards_calm h sp w w' : calm w w' -> guards h w' sp -> guards h w sp.
Proof. unfold guards. intros [_ ->]. done. Qed.

(** The last two steps of [get_image_file_system]. *)
Lemma locate_and_open_runs dp w :
  boot_active w = true -> image_handle_cell w <> 0 ->
  runs ('(located, _) ← locate_device_path SimpleFileSystem_P dp;
        match located with
        | Err e => mret (Err e)
        | Ok device_handle => open_protocol_exclusive SimpleFileSystem_P device_handle
        end) w (leaves (Some (pp_guid SimpleFileSystem_P, guards)) w).
Proof.
  intros Hact Hi. unfold locate_device_path. runs_step. apply runs_boot; [done|]. repeat runs_step.
  destruct (efi_locate_device_path (pp_guid SimpleFileSystem_P) (addr dp) w) as [[[s p'] h] w1] eqn:E.
  destruct (locate_path _ _ _ _ _ _ _ E) as (K & C & Hok). cbn [fst snd]. runs_step.
  rewrite to_result_cases. eapply runs_lift; [done|]. destruct (Z.eqb_spec s 0) as [->|Hs]; [|repeat runs_step; by split].
  destruct (Hok eq_refl) as [Hh Hpath]. runs_step. apply runs_device_path_at; [done|]. intros b. repeat runs_step.
  unfold handle_from_ptr. rewrite (proj2 (Z.eqb_neq _ _)) by done. eapply runs_lift; [done|]. runs_step.
  eapply runs_weaken; [apply open_exclusive_runs|].
  - by eapply calm_active.
  - destruct C. congruence.
  - intros p w' _ _. by exists 0.
  - intros [sp|e] w2 (C2 & Hr); (split; [by etrans|]).
    + destruct Hr as (A & G & _). exists h. split; [by rewrite K|by eapply guards_calm].
    + by rewrite K.
Qed.

(** C10: [get_image_file_system] returns, and whatever happens on the way, the
    protocols it opened to find the file system are closed again: it leaves open
    exactly the file system that it returns, and nothing when it fails. *)
Theorem get_image_file_system_spec (image : Z) (w : W) :
  boot_active w = true -> image_handle_cell w <> 0 ->
  exists r w', get_image_file_system image w = Ret (r, w') /\ calm w w' /\
    match r with
    | Ok sp => exists h, acquires is_open (h, pp_guid SimpleFileSystem_P) w w' /\ guards h w sp
    | Err _ => keeps is_open w w'
    end.
Proof.
  intros Hact Hi. apply (scoped_runs LoadedImage_P image _ (Some (pp_guid SimpleFileSystem_P, guards))); [done|done| | |].
  { intros p w1 E. split; [by eapply loaded_image_interface|by exists 0]. }
  { split; [done|]. intros h a w1 w2. apply guards_calm. }
  intros sp p m w1 E Hm C1. destruct (loaded_image_interface _ _ _ _ E) as (Hp & li & Hli).
  unfold loaded_image_deref, scoped_deref. rewrite Hm. cbn [unwrap]. repeat runs_step. cbn [fst snd].
  eapply runs_lift; [exact Hli|]. destruct (device li) as [dh|].
  2: { repeat runs_step. split; reflexivity. }
  apply scoped_runs.
  - by eapply calm_active.
  - destruct C1. congruence.
  - intros p2 w2 E2. destruct (device_path_interface _ _ _ _ E2) as [? ?]. split; [done|]. by apply path_metadata.
  - split; [done|]. intros h a w2 w3. apply guards_calm.
  - intros sp2 p2 m2 w2 E2 Hm2 C2. destruct (device_path_interface _ _ _ _ E2) as [Hp2 Hpath].
    unfold scoped_deref. rewrite Hm2. cbn [unwrap]. repeat runs_step. apply runs_device_path_at; [done|]. intros b.
    apply locate_and_open_runs.
    + do 2 (eapply calm_active; [done|]). done.
    + destruct C1, C2. congruence.
Qed.

Lemma image_data_type_runs w :
  boot_active w = true -> image_handle_cell w <> 0 ->
  runs image_data_type w (fun r w' => leaves None w r w').
Proof.
  intros Hact Hi. unfold image_data_type. runs_step. apply runs_image_handle; [done|].
  apply scoped_runs; [done|done| |done|].
  { intros p w1 E. split; [by eapply loaded_image_interface|by exists 0]. }
  intros sp p m w1 E Hm C1. destruct (loaded_image_interface _ _ _ _ E) as (Hp & li & Hli).
  unfold loaded_image_deref, scoped_deref. rewrite Hm. cbn [unwrap]. repeat runs_step. cbn [fst snd].
  eapply runs_lift; [exact Hli|]. repeat runs_step. split; reflexivity.
Qed.

(** C6: The global allocator with its query for the image's memory type: an
    allocation returns null and allocates nothing, or returns an address of
    the requested alignment inside a new block, apart from all blocks in use,
    that holds the requested bytes and the pointer stored before them; and in
    every later state that still has the block and that pointer, freeing the
    address frees exactly this block. *)
Theorem global_alloc_spec `{!MemoryLaws W} (l : Layout) (w : W) :
  boot_active w = true -> image_handle_cell w <> 0 -> layout_ok l ->
  exists p w', alloc image_data_type l w = Ret (p, w') /\ alloc_result l w p w' /\
    (p <> 0 -> forall w1, boot_active w1 = true -> live w1 (backing l p w') ->
      peek (p - 8) w1 = peek (p - 8) w' ->
      exists w2, dealloc p l w1 = Ret (tt, w2) /\ drops (backing l p w') w1 w2).
Proof.
  intros Hact Hi Hl. destruct (alloc_runs image_data_type l w Hact Hl) as (p & w' & E & Hr).
  { eapply runs_weaken; [by apply image_data_type_runs|]. by intros r w' [[S _] _]. }
  exists p, w'. do 2 (split; [done|]). intros Hp w1 Hact1 Hlive Hpeek. by eapply dealloc_after_alloc.
Qed.

(** *** Searching *)

Lemma write_nothing out : write_raw out 0 [] = Ret out.
Proof.
  unfold write_raw. pose proof (zlen_nonneg out). rewrite (proj2 (Z.leb_le (0 + zlen (@nil Z)) (zlen out))) by done. done.
Qed.

Lemma locate_handle_none g n w :
  boot_active w = true -> 0 <= n -> handles_of w g = [] ->
  locate_handle (ByProtocol g) n w = Ret (Err (mkError Status.NOT_FOUND None), w).
Proof.
  intros Hact Hn Hh. unfold locate_handle. rewrite boot_run by done. cbn [search_params]. cbv beta iota. rewrite fw_bind_call.
  destruct (locate_none g (n * size_of_Handle) w Hh) as [m ->]. cbn [fst snd].
  by rewrite write_nothing.
Qed.

Lemma locate_handle_small g n w :
  boot_active w = true -> 0 <= n < zlen (handles_of w g) ->
  locate_handle (ByProtocol g) n w =
    Ret (Err (mkError Status.BUFFER_TOO_SMALL (Some (zlen (handles_of w g)))), w).
Proof.
  intros Hact Hn. unfold locate_handle. rewrite boot_run by done. cbn [search_params]. cbv beta iota. rewrite fw_bind_call.
  rewrite locate_small by (unfold size_of_Handle; lia). cbn [fst snd].
  rewrite write_nothing, fw_bind_lift, Z.div_mul by done. done.
Qed.

Lemma locate_handle_fits g n w :
  boot_active w = true -> handles_of w g <> [] -> zlen (handles_of w g) <= n ->
  locate_handle (ByProtocol g) n w = Ret (Ok (handles_of w g), w).
Proof.
  intros Hact Hne Hn. unfold locate_handle. rewrite boot_run by done. cbn [search_params]. cbv beta iota. rewrite fw_bind_call.
  pose proof (zlen_nonneg (handles_of w g)).
  rewrite locate_fits by (done || (unfold size_of_Handle; lia)). cbn [fst snd].
  unfold write_raw. assert (zlen (replicate (Z.to_nat n) (@None Z)) = n) as Hr
    by (unfold zlen; rewrite length_replicate; lia).
  rewrite Hr, (proj2 (Z.leb_le (0 + _) n)) by lia. change (0 <=? 0) with true. cbn [andb].
  change (Z.to_nat 0) with 0%nat. rewrite take_0. cbn [app Nat.add].
  rewrite fw_bind_lift, Z.div_mul by done. change (0 =? Status.SUCCESS) with true. cbv iota.
  rewrite slice_ok; [|lia|rewrite zlen_app; unfold zlen; rewrite length_map; lia].
  rewrite fw_bind_lift, Z.sub_0_r, drop_0.
  unfold zlen. rewrite Nat2Z.id, take_app_length' by by rewrite length_map.
  by rewrite assume_init_Some.
Qed.

(** [find_handles] does not panic: it returns exactly the handles that support
    the protocol, or [NOT_FOUND] when there are none, whatever capacity the
    vector gets. *)
Theorem find_handles_spec (capacity : Z -> Z) (P : ProtocolPointer) (w : W) :
  boot_active w = true -> (forall n, n <= capacity n) ->
  find_handles capacity P w =
    Ret (match handles_of w (pp_guid P) with
         | [] => Err (mkError Status.NOT_FOUND tt)
         | hs => Ok hs
         end, w).
Proof.
  intros Hact Hc. unfold find_handles, from_proto.
  destruct (handles_of w (pp_guid P)) as [|h hs] eqn:E.
  - erewrite fw_bind_Ret by (by apply locate_handle_none). done.
  - assert (0 < zlen (handles_of w (pp_guid P))) as Hpos by (rewrite E, zlen_cons; pose proof (zlen_nonneg hs); lia).
    erewrite fw_bind_Ret by (apply locate_handle_small; [done|lia]). cbn [err_status err_data].
    rewrite Z.eqb_refl. cbn [unwrap]. rewrite fw_bind_lift.
    erewrite fw_bind_Ret by (apply locate_handle_fits; [done|by rewrite E|apply Hc]). by rewrite E.
Qed.

Lemma words_at_list (hs : list Z) p (w' : W) :
  (forall i, (i < length (hs))%nat ->
    Some (peek (p + size_of_Handle * Z.of_nat i) w') = hs !! i) ->
  words_at p (zlen (hs)) w' = Ret (hs, w').
Proof.
  intros Hp. unfold words_at, call. f_equal. f_equal. unfold zlen. rewrite Nat2Z.id.
  apply list_eq. intros i. destruct (decide (i < length (hs))%nat) as [Hi|Hi].
  - rewrite <- Hp by done. rewrite list_lookup_fmap, lookup_seq_lt by done. done.
  - rewrite !(proj2 (lookup_ge_None _ _)) by (rewrite ?length_fmap, ?length_seq; lia). done.
Qed.

(** [get_handle_for_protocol] returns the first handle that supports the
    protocol, and frees the buffer that the firmware allocated for the search. *)
Theorem get_handle_for_protocol_spec `{!MemoryLaws W} (P : ProtocolPointer) (w : W) :
  boot_active w = true ->
  exists r w', get_handle_for_protocol P w = Ret (r, w') /\ same_blocks w w' /\
    forall h, r = Ok h -> head (handles_of w (pp_guid P)) = Some h.
Proof.
  intros Hact. apply runs_try. unfold locate_handle_buffer. apply runs_boot; [done|]. cbn [search_params]. cbv beta iota. repeat runs_step.
  destruct (efi_locate_handle_buffer 2 (pp_guid P) 0 w) as [[[s n] p] w1] eqn:E.
  pose proof (locate_buffer _ _ _ _ _ _ E) as Hl. cbn [fst snd]. runs_step. rewrite to_result_cases.
  eapply runs_lift; [done|]. destruct (s =? 0); [|by split].
  destruct Hl as (Hp & -> & A & Hw). unfold handle_from_ptr. rewrite (proj2 (Z.eqb_neq _ _)) by done.
  repeat runs_step. eapply runs_eq; [by apply words_at_list|].
  assert (boot_active w1 = true) as Hact1 by (by rewrite (proj2 A)).
  destruct (free_pool_runs p (zlen (handles_of w (pp_guid P)) * size_of_Handle) w1) as (w2 & Ef & D);
    [done|by eapply acquires_held, A|].
  destruct (head (handles_of w (pp_guid P))) as [h|]; repeat runs_step; unfold handle_buffer_drop; repeat runs_step; (eapply runs_eq; [exact Ef|]); repeat runs_step;
    (split; [by eapply adds_drops|]); by intros ? [= <-].
Qed.
End protocol_properties.

(** ** An in-memory handle database

    The image is handle 1, loaded from the device 2; the device's file system is
    handle 3.  A protocol can be open in exclusive mode once. *)
Module Handles.
Record t : Type := mk { base : machine; opened : gset (Z * Z); image : Z }.

Definition with_base (m : machine) (w : t) : t := mk m (opened w) (image w).
Definition with_opened (o : gset (Z * Z)) (w : t) : t := mk (base w) o (image w).

#[global] Instance boot_services : BootServices t := lift_boot_services base with_base.
#[global] Instance blocks : Blocks t := lift_blocks base.
#[global] Instance memory_laws : MemoryLaws t := lift_memory_laws base with_base (fun _ _ => eq_refl).

Definition LI : Z := pp_guid LoadedImage_P.
Definition DP : Z := pp_guid (DevicePath_P (H := debug_profile)).
Definition FS : Z := pp_guid SimpleFileSystem_P.

(** The protocol for the names of drivers. *)
Definition DN : Z := 0x6a7a5cffe8d94f70bada75ab3025ce14.

(** The handles that support a protocol, and the interface. *)
Definition supporting (g : Z) : list Z :=
  if g =? LI then [1] else if g =? DP then [2] else if g =? FS then [3] else if g =? DN then [4] else [].
Definition interface (g : Z) : Z :=
  if g =? LI then 0x1000 else if g =? DP then 0x2000 else if g =? FS then 0x3000 else 0x4000.

(** A loaded image from device 2 with data type 4, the text "FAT" and the empty
    path. *)
Definition memory (a : Z) : list Z :=
  if a =? 0x1000 then replicate 24 0 ++ [2] ++ replicate 59 0 ++ [4] ++ replicate 11 0
  else if a =? 0x4000 then [70; 0; 65; 0; 84; 0; 0; 0]
  else [0x7f; 0xff; 4; 0].

Definition open (h g : Z) (w : t) : (Z * Z) * t :=
  if decide (h ∈ supporting g) then
    if decide ((h, g) ∈ opened w) then ((Status.ACCESS_DENIED, 0), w)
    else ((0, interface g), with_opened (opened w ∪ {[(h, g)]}) w)
  else ((Status.UNSUPPORTED, 0), w).

Definition close (h g : Z) (w : t) : Z * t :=
  if decide ((h, g) ∈ opened w) then (0, with_opened (opened w ∖ {[(h, g)]}) w) else (Status.NOT_FOUND, w).

Definition locate (g n : Z) (w : t) : (Z * Z * list Z) * t :=
  let hs := supporting g in
  if decide (hs = []) then ((Status.NOT_FOUND, n, []), w)
  else if n <? zlen hs * 8 then ((Status.BUFFER_TOO_SMALL, zlen hs * 8, []), w)
  else ((0, zlen hs * 8, hs), w).

Definition locate_buffer (g : Z) (w : t) : (Z * Z * Z) * t :=
  match supporting g with
  | [h] =>
      let '((s, p), w') := efi_allocate_pool MemoryType_LOADER_DATA 8 w in
      if s =? 0 then ((0, 1, p), poke p h w') else ((s, 0, 0), w')
  | _ => ((Status.NOT_FOUND, 0, 0), w)
  end.

#[global] Instance services : ProtocolServices t := {|
  image_handle_cell := image;
  set_image_handle_cell h w := mk (base w) (opened w) h;
  memory_at a _ := memory a;
  efi_open_protocol h g _ _ _ := open h g;
  efi_close_protocol h g _ _ := close h g;
  efi_locate_handle _ g _ n := locate g n;
  efi_locate_handle_buffer _ g _ := locate_buffer g;
  efi_protocols_per_handle _ w := ((Status.UNSUPPORTED, 0, 0), w);
  efi_locate_device_path g _ w :=
    match supporting g with h :: _ => ((0, 0x2000, h), w) | [] => ((Status.NOT_FOUND, 0, 0), w) end;
  efi_install_protocol_interface _ _ _ _ w := ((Status.UNSUPPORTED, 0), w);
  efi_reinstall_protocol_interface _ _ _ _ w := (Status.UNSUPPORTED, w);
  efi_uninstall_protocol_interface _ _ _ w := (Status.UNSUPPORTED, w);
  efi_register_protocol_notify _ _ w := ((Status.UNSUPPORTED, 0), w);
  efi_connect_controller _ _ _ _ w := (Status.UNSUPPORTED, w);
  efi_disconnect_controller _ _ _ w := (Status.UNSUPPORTED, w);
|}.

Lemma supporting_cases g : supporting g = [] \/ exists h, supporting g = [h] /\ h <> 0.
Proof. unfold supporting. repeat case_match; eauto. Qed.

#[global, refine] Instance laws : @ProtocolLaws t debug_profile _ _ _ :=
  {| is_open w r := r ∈ opened w; handles_of _ g := supporting g |}.
Proof.
  - intros h g w p w'. cbn. unfold open. repeat case_decide; [done| |done]. intros [= <- <-].
    split; [|done]. split; [done|]. intros c. cbn. set_solver.
  - intros h g w s p w'. cbn. unfold open. repeat case_decide; intros [= <- <- <-] Hs; done.
  - intros h g w Ho. exists (with_opened (opened w ∖ {[(h, g)]}) w). cbn. unfold close. rewrite decide_True by done.
    split; [done|]. split; [|done]. intros c. cbn. set_solver.
  - intros h w p w'. cbn. unfold open. repeat case_decide; [done| |done]. intros [= <- <-]. split; [done|].
    eexists. by vm_compute.
  - intros h w p w'. cbn. unfold open. repeat case_decide; [done| |done]. intros [= <- <-]. split; [done|].
    eexists. by vm_compute.
  - intros g p w s p' h w'. cbn. destruct (supporting_cases g) as [->|(h0 & -> & Hh)]; intros [= <- <- <- <-].
    + done.
    + do 2 (split; [done|]). intros _. split; [done|]. eexists. by vm_compute.
  - intros g n w Hh. cbn. unfold locate. rewrite decide_True by done. eauto.
  - intros g n w Hn. cbn. unfold locate. case_decide as Hd; [rewrite Hd in Hn; unfold zlen, size_of_Handle in Hn; simpl in Hn; lia|by rewrite (proj2 (Z.ltb_lt _ _)) by apply Hn].
  - intros g n w Hne Hn. cbn. unfold locate. rewrite decide_False by done. by rewrite (proj2 (Z.ltb_ge _ _)).
  - intros g w s n p w'. cbn [efi_locate_handle_buffer services]. unfold locate_buffer.
    destruct (supporting_cases g) as [->|(h0 & -> & Hh)]; [by intros [= <- <- <- <-]|].
    destruct (efi_allocate_pool MemoryType_LOADER_DATA 8 w) as [[s1 p1] w1] eqn:E.
    destruct (Z.eqb_spec s1 0) as [->|Hs]; intros [= <- <- <- <-].
    + destruct (pool_ok _ 8 _ _ _ ltac:(done) E) as [F A]. cbn [Z.eqb]. split; [by apply F|]. split; [done|].
      split; [exact (adds_same _ _ _ _ A (poke_blocks p1 h0 w1))|]. intros [|i] Hi; [|simpl in Hi; lia].
      cbn [Z.of_nat]. rewrite Z.mul_0_r, Z.add_0_r. exact (f_equal Some (peek_poke p1 h0 w1)).
    + rewrite (proj2 (Z.eqb_neq _ _)) by done. by eapply pool_fail.
Defined.

Definition initial : t := mk Machine.initial ∅ 1.
End Handles.

(** The file system of handle 3 is found, and only it stays open. *)
Lemma get_image_file_system_spec_witness :
  exists sp w', get_image_file_system (H := debug_profile) 1 Handles.initial = Ret (Ok sp, w') /\
    Handles.opened w' = {[(3, Handles.FS)]}.
Proof.
  assert (omap (fun p => match p.1 with Ok sp => Some (op_handle (open_params sp)) | Err _ => None end)
    (get_image_file_system (H := debug_profile) 1 Handles.initial) = Ret (Some 3)) as Hev by (by vm_compute).
  destruct (get_image_file_system_spec (H := debug_profile) 1 Handles.initial) as (r & w' & E & _ & Hr);
    [reflexivity|discriminate|].
  rewrite E in Hev. destruct r as [sp|e]; [|discriminate Hev]. exists sp, w'. split; [exact E|].
  destruct Hr as (h & [_ A] & G). red in G. injection Hev as Hev. rewrite G in Hev. cbn in Hev. subst h. clear E G.
  apply leibniz_equiv. intros r. rewrite (A r). cbn. set_solver.
Defined.

(** Two pages: address zero is exchanged for the next pages.  Forty-eight bytes
    aligned to 64: the pointer to the pool block is before them. *)
Lemma global_alloc_spec_witness :
  (exists w', alloc (H := debug_profile) image_data_type (mkLayout 8192 4096) Handles.initial = Ret (8192, w')) /\
  (exists w', alloc (H := debug_profile) image_data_type (mkLayout 48 64) Handles.initial = Ret (4160, w') /\
    exists w2, dealloc 4160 (mkLayout 48 64) w' = Ret (tt, w2)).
Proof.
  assert (forall l, layout_ok l -> exists p w',
    alloc (H := debug_profile) image_data_type l Handles.initial = Ret (p, w') /\
    alloc_result l Handles.initial p w' /\ (p <> 0 -> live w' (backing l p w') -> boot_active w' = true ->
      exists w2, dealloc p l w' = Ret (tt, w2))) as Hs.
  { intros l Hl.
    destruct (global_alloc_spec (H := debug_profile) l Handles.initial) as (p & w' & E & Hr & Hd);
      [reflexivity|discriminate|exact Hl|].
    exists p, w'. do 2 (split; [done|]). intros Hp Hlive Hact.
    destruct (Hd Hp w' Hact Hlive eq_refl) as (w2 & E2 & _). eauto. }
  split.
  - assert (omap fst (alloc (H := debug_profile) image_data_type (mkLayout 8192 4096) Handles.initial) = Ret 8192)
      as Hev by (by vm_compute).
    destruct (Hs (mkLayout 8192 4096)) as (p & w' & E & _).
    { split; [done|]. split; [exists 12|]; by_decide. }
    exists w'. rewrite E in Hev |- *. by injection Hev as ->.
  - assert (omap (fun r => (r.1, boot_active r.2))
      (alloc (H := debug_profile) image_data_type (mkLayout 48 64) Handles.initial) = Ret (4160, true))
      as Hev by (by vm_compute).
    destruct (Hs (mkLayout 48 64)) as (p & w' & E & Hr & Hd).
    { split; [done|]. split; [exists 6|]; by_decide. }
    rewrite E in Hev. injection Hev as -> Hact. exists w'. split; [exact E|].
    apply Hd; [done| |exact Hact]. apply Hr. by right.
Defined.

Lemma find_handles_spec_witness :
  find_handles (fun n => n + 3) SimpleFileSystem_P Handles.initial = Ret (Ok [3], Handles.initial).
Proof.
  rewrite (find_handles_spec (H := debug_profile)); [by vm_compute|reflexivity|]. intros n. lia.
Defined.

Lemma get_handle_for_protocol_spec_witness :
  exists w', get_handle_for_protocol SimpleFileSystem_P Handles.initial = Ret (Ok 3, w') /\ same_blocks Handles.initial w'.
Proof.
  destruct (get_handle_for_protocol_spec (H := debug_profile) SimpleFileSystem_P Handles.initial)
    as (r & w' & E & S & Hr); [reflexivity|].
  assert (omap fst (get_handle_for_protocol SimpleFileSystem_P Handles.initial) = Ret (Ok 3)) as Hev by (by vm_compute).
  exists w'. rewrite E in Hev |- *. by injection Hev as ->.
Defined.
