(* ===== verification/GlobalHeap.v ===== *)
(** * Boxed data on the global allocator

    [make_boxed] of [uefi/src/mem/util.rs] allocates through the interface [Allocator];
    in a program that uses the library's allocator that is [GlobalAlloc for Allocator]
    of [uefi/src/allocator.rs].  Here the one is put on the other: the blocks behind
    the boxes are blocks of the firmware. *)
From S2P Require Import Prelude Firmware Status BootMemory BootProtocols.

Section heap.
Context `{Profile} {W : Type} `{!BootServices W, !ProtocolServices W}.

(** [alloc::alloc::alloc] and [dealloc] with the global allocator; a panic of theirs
    ends the program, so the state after it does not matter. *)
#[local] Instance global_allocator : Status.Allocator W := {|
  Status.alloc size align w :=
    match BootMemory.alloc image_data_type (mkLayout size align) w with
    | Ret (p, w') => (if p =? 0 then None else Some (mkBuffer p (contents p size w')), w')
    | _ => (None, w)
    end;
  Status.dealloc b size align w :=
    match BootMemory.dealloc (addr b) (mkLayout size align) w with
    | Ret (_, w') => w'
    | _ => w
    end |}.

Definition make_boxed_global {Data} (alignment : Z) (fetch : Buffer -> fw W (uresult Data (option Z))) : fw W (uresult Data unit) :=
  make_boxed alignment fetch.

Context `{!Blocks W, !MemoryLaws W, !ProtocolLaws W} (memory_size : forall a n (w : W), 0 <= n -> zlen (contents a n w) = n).

(** A function that fills a buffer: it allocates nothing, and leaves alone what is
    stored before the buffer; it fails with an error, and asks for sizes that fit the
    address space with room for the alignment. *)
Definition fetches {Data} (alignment : Z) (fetch : Buffer -> fw W (uresult Data (option Z))) : Prop :=
  forall b w, boot_active w = true -> runs (fetch b) w (fun r w' =>
    same_blocks w w' /\ image_handle_cell w' = image_handle_cell w /\ peek (addr b - 8) w' = peek (addr b - 8) w /\
    match r with
    | Ok _ => True
    | Err e => err_status e <> 0 /\ forall n, err_data e = Some n -> 0 < n /\ n + 2 * alignment <= isize_MAX
    end).

Lemma error_new_ok {D} s (d : D) : s <> 0 -> error_new s d = Ret (mkError s d).
Proof. intros Hs. unfold error_new. change Status.SUCCESS with 0. by rewrite (proj2 (Z.eqb_neq s 0)). Qed.

(** The first call: an error, or the size that is needed. *)
Lemma required_size_cases {Data} alignment (r : uresult Data (option Z)) :
  match r with
  | Ok _ => True
  | Err e => err_status e <> 0 /\ forall n, err_data e = Some n -> 0 < n /\ n + 2 * alignment <= isize_MAX
  end ->
  (exists e, boxed_required_size r = Ret (Err e)) \/
  exists n, boxed_required_size r = Ret (Ok n) /\ 0 < n /\ n + 2 * alignment <= isize_MAX.
Proof.
  destruct r as [d|[s o]]; cbn [err_status err_data boxed_required_size error_split]; [eauto|]. intros [Hs Hn].
  destruct o as [n|]; [|left; unfold error_from_status; rewrite error_new_ok by done; cbn [obind]; eauto].
  destruct (s =? Status.BUFFER_TOO_SMALL); [right; eauto|]. left. unfold error_from_status. rewrite error_new_ok by done. cbn [obind]. eauto.
Qed.

Lemma padded_bounds k n :
  0 <= k -> 0 < n -> let p := (n + 2 ^ k - 1) / 2 ^ k * 2 ^ k in n <= p < n + 2 ^ k.
Proof.
  intros Hk Hn. cbn zeta. pose proof (Z.pow_pos_nonneg 2 k ltac:(lia) Hk).
  pose proof (Z.div_mod (n + 2 ^ k - 1) (2 ^ k) ltac:(lia)). pose proof (Z.mod_pos_bound (n + 2 ^ k - 1) (2 ^ k) ltac:(lia)). lia.
Qed.

End heap.

(** Firmware that holds three bytes, or that fails when they are read. *)
Definition three_bytes_or (broken : bool) (b : Buffer) : fw Handles.t (uresult (list Z) (option Z)) :=
  mret (if zlen (bytes b) <? 3 then Err (mkError Status.BUFFER_TOO_SMALL (Some 3))
        else if broken then Err (mkError Status.DEVICE_ERROR None) else Ok [7; 8; 9]).

Lemma three_bytes_fetches broken : fetches (2 ^ 4) (three_bytes_or broken).
Proof.
  intros b w Ha. eexists _, w. split; [reflexivity|]. split; [by split|]. do 2 (split; [done|]).
  destruct (_ <? 3); [|destruct broken; [|done]]; (split; [done|]); intros n [= <-]. by_decide.
Qed.

