(* ===== verification/Guards.v ===== *)
(** * Guards of shared protocols

    A protocol that is opened with [GetProtocol] may be open several times; its guard
    ([ScopedProtocol] of [uefi/src/boot.rs]) closes it once when it is dropped.
    [GuardLaws] is what clients rely on: [uses] counts how often a protocol of a
    handle is open, the relation [R] is what opening and closing leave alone, and
    [bad] holds after a failure to open. *)
From S2P Require Import Prelude Firmware Status BootMemory BootProtocols.

Section counting.
Context {W : Type} (uses : W -> Z * Z -> nat).

Definition same_uses (w w' : W) : Prop := forall d, uses w' d = uses w d.
Definition plus_one (c : Z * Z) (w w' : W) : Prop :=
  forall d, uses w' d = (uses w d + if decide (d = c) then 1 else 0)%nat.
Definition minus_one (c : Z * Z) (w w' : W) : Prop :=
  forall d, uses w' d = (uses w d - if decide (d = c) then 1 else 0)%nat.

#[export] Instance same_uses_equivalence : Equivalence same_uses.
Proof. split; unfold same_uses; repeat intro; congruence. Qed.

#[export] Instance plus_one_proper c : Proper (same_uses ==> same_uses ==> iff) (plus_one c).
Proof. unfold same_uses, plus_one. intros w1 w2 Hw v1 v2 Hv. setoid_rewrite Hw. setoid_rewrite Hv. done. Qed.
#[export] Instance minus_one_proper c : Proper (same_uses ==> same_uses ==> iff) (minus_one c).
Proof. unfold same_uses, minus_one. intros w1 w2 Hw v1 v2 Hv. setoid_rewrite Hw. setoid_rewrite Hv. done. Qed.

Lemma plus_minus c w w1 w2 : plus_one c w w1 -> minus_one c w1 w2 -> same_uses w w2.
Proof. intros P M d. rewrite (M d), (P d). case_decide; lia. Qed.

Lemma plus_used c w w' : plus_one c w w' -> (0 < uses w' c)%nat.
Proof. intros P. rewrite (P c), decide_True by done. lia. Qed.
End counting.

Class GuardLaws {W : Type} `{!BootServices W, !ProtocolServices W}
    (R : relation W) (uses : W -> Z * Z -> nat) (bad : W -> Prop) (covers : Z -> Prop) : Prop := {
  guard_active : forall w w', R w w' -> boot_active w' = boot_active w;
  guard_image : forall w w', R w w' -> image_handle_cell w' = image_handle_cell w;
  guard_open : forall h g w s p w', covers g ->
    efi_open_protocol h g (image_handle_cell w) 0 (attributes_bits GetProtocol) w = ((s, p), w') ->
    R w w' /\ if s =? 0 then p <> 0 /\ plus_one uses (h, g) w w' else same_uses uses w w' /\ bad w';
  guard_close : forall h g w, covers g -> (0 < uses w (h, g))%nat ->
    exists w', efi_close_protocol h g (image_handle_cell w) 0 w = (0, w') /\ R w w' /\ minus_one uses (h, g) w w';
}.

Section guards.
Context {W : Type} `{!BootServices W, !ProtocolServices W}.
Context (R : relation W) (uses : W -> Z * Z -> nat) (bad : W -> Prop) (covers : Z -> Prop) `{!GuardLaws R uses bad covers}.

Lemma runs_services {A} (k : unit -> fw W A) w Q :
  boot_active w = true -> runs (k tt) w Q -> runs (boot_services_raw_panicking ≫= k) w Q.
Proof. intros Hact (a & w' & E & HQ). exists a, w'. by rewrite boot_run. Qed.

(** A guard of a protocol of [h], with the interface [p]. *)
Definition shared_guard (h p : Z) (w : W) (sp : ScopedProtocol) : Prop :=
  open_params sp = mkOpenProtocolParams h (image_handle_cell w) None /\ sp_interface sp = Some (p, 0) /\ p <> 0.

Lemma shared_guard_image h p w w' sp :
  image_handle_cell w' = image_handle_cell w -> shared_guard h p w sp -> shared_guard h p w' sp.
Proof. unfold shared_guard. by intros ->. Qed.

Lemma get_runs g h w :
  covers g -> boot_active w = true ->
  runs (open_protocol (sized_protocol g) (mkOpenProtocolParams h (image_handle_cell w) None) GetProtocol) w (fun r w' =>
    R w w' /\ match r with
    | Ok sp => plus_one uses (h, g) w w' /\ exists p, shared_guard h p w' sp
    | Err _ => same_uses uses w w' /\ bad w'
    end).
Proof.
  intros Hg Hact. unfold open_protocol. apply runs_services; [done|]. repeat runs_step.
  cbn [op_handle op_agent op_controller opt_to_ptr default sized_protocol pp_guid].
  destruct (efi_open_protocol h g (image_handle_cell w) 0 (attributes_bits GetProtocol) w) as [[s p] w'] eqn:E.
  destruct (guard_open _ _ _ _ _ _ Hg E) as [HR Hl]. cbn [fst snd]. runs_step. rewrite to_result_cases.
  eapply runs_lift; [done|]. destruct (s =? 0); [|done]. destruct Hl as [Hp Ho].
  rewrite (proj2 (Z.eqb_neq p 0)) by done. repeat runs_step. split; [done|]. split; [done|]. exists p.
  unfold shared_guard. by rewrite (guard_image _ _ HR).
Qed.

Lemma guard_drop_runs g h p w sp :
  covers g -> boot_active w = true -> shared_guard h p w sp -> (0 < uses w (h, g))%nat ->
  runs (scoped_drop (sized_protocol g) sp) w (fun _ w' => R w w' /\ minus_one uses (h, g) w w').
Proof.
  intros Hg Hact (Ep & _) Ho. unfold scoped_drop. apply runs_services; [done|]. repeat runs_step. rewrite Ep.
  cbn [op_handle op_agent op_controller opt_to_ptr default sized_protocol pp_guid].
  destruct (guard_close h g w Hg Ho) as (w' & -> & Hl). cbn [fst snd]. by eapply runs_lift.
Qed.

Lemma runs_interface h p w sp (Q : Z * Z -> W -> Prop) : shared_guard h p w sp -> Q (p, 0) w -> runs (lift (scoped_deref sp)) w Q.
Proof. intros (_ & E & _) HQ. unfold scoped_deref. rewrite E. by eapply runs_lift. Qed.
End guards.
