(* ===== verification/Runtime.v ===== *)
(** * Runtime services

    The functions of [uefi/src/runtime.rs] over the firmware's runtime services
    table, which is the interface [RuntimeServices]: time, variables with the
    iterator [VariableKeys], capsules and the virtual address map.  The
    theorems are about variables: what was set is what is read back, and the
    iterator yields every variable once.  [reset] is in [BootExit]. *)
From stdpp Require Import gmap.
From S2P Require Import Prelude Firmware Strs MemoryMap Status Time.

(** [Revision::new]. *)
Definition revision_new (major minor : Z) : Z := Z.lor (Z.shiftl major 16) minor.
Definition EFI_2_00 : Z := revision_new 2 0.

Module VariableAttributes.
Definition NON_VOLATILE : Z := 0x01.
Definition BOOTSERVICE_ACCESS : Z := 0x02.
Definition RUNTIME_ACCESS : Z := 0x04.
Definition HARDWARE_ERROR_RECORD : Z := 0x08.
Definition AUTHENTICATED_WRITE_ACCESS : Z := 0x10.
Definition TIME_BASED_AUTHENTICATED_WRITE_ACCESS : Z := 0x20.
Definition APPEND_WRITE : Z := 0x40.
Definition ENHANCED_AUTHENTICATED_ACCESS : Z := 0x80.
End VariableAttributes.

Record TimeCapabilities : Set := mkTimeCapabilities {
  resolution : Z; accuracy : Z; sets_to_zero : Z;
}.

Record VariableStorageInfo : Set := mkVariableStorageInfo {
  maximum_variable_storage_size : Z;
  remaining_variable_storage_size : Z;
  maximum_variable_size : Z;
}.

Record CapsuleInfo : Set := mkCapsuleInfo { maximum_capsule_size : Z; reset_type : Z }.

(** A vendor is the number of its GUID; a name includes its terminator. *)
Record VariableKey : Set := mkVariableKey { key_vendor : Z; key_name : list Z }.

#[export] Instance VariableKey_eq_dec : EqDecision VariableKey.
Proof. solve_decision. Defined.

(** ** The firmware's runtime services

    A call that stores through a pointer returns what it stores: the attributes,
    size and data of a variable; the size, the name and the vendor of the next
    key.  The name that [efi_get_next_variable_name] is given is the whole
    buffer. *)
Class RuntimeServices (W : Type) : Type := {
  runtime_active : W -> bool;
  rt_revision : W -> Z;
  efi_get_time : bool -> W -> (Z * Time * TimeCapabilities) * W;
  efi_set_time : Time -> W -> Z * W;
  efi_get_variable : list Z -> Z -> Z -> W -> (Z * Z * Z * list Z) * W;
  efi_get_next_variable_name : Z -> list Z -> Z -> W -> (Z * Z * list Z * Z) * W;
  efi_set_variable : list Z -> Z -> Z -> list Z -> W -> Z * W;
  efi_query_variable_info : Z -> W -> (Z * VariableStorageInfo) * W;
  efi_update_capsule : list Z -> Z -> Z -> W -> Z * W;
  efi_query_capsule_capabilities : list Z -> Z -> W -> (Z * CapsuleInfo) * W;
  efi_set_virtual_address_map : Z -> Z -> Z -> list MemoryDescriptor -> W -> Z * W;
  set_system_table : Z -> W -> W;
}.

(** [Vec::resize(n, 0)]. *)
Definition vec_resize (l : list Z) (n : Z) : list Z :=
  if n <=? zlen l then take (Z.to_nat n) l
  else l ++ replicate (Z.to_nat (n - zlen l)) 0.

Section runtime.
Context {W : Type} `{!RuntimeServices W}.

Definition runtime_services_raw_panicking : fw W unit := fun w =>
  if runtime_active w then Ret (tt, w) else Panic UnwrapFailed.

(** ** Time *)

Definition get_time : fw W (uresult Time unit) :=
  runtime_services_raw_panicking;;
  '(status, time, _) ← call (efi_get_time false);
  lift (to_result_with_val status time).

Definition get_time_and_caps : fw W (uresult (Time * TimeCapabilities) unit) :=
  runtime_services_raw_panicking;;
  '(status, time, caps) ← call (efi_get_time true);
  lift (to_result_with_val status (time, caps)).

Definition set_time (time : Time) : fw W (uresult unit unit) :=
  runtime_services_raw_panicking;;
  status ← call (efi_set_time time);
  lift (to_result status).

(** ** Variables *)

Definition variable_exists (name : list Z) (vendor : Z) : fw W (uresult bool unit) :=
  runtime_services_raw_panicking;;
  '(status, _, _, out) ← call (efi_get_variable name vendor 0);
  lift (write_raw [] 0 out);;
  if status =? Status.BUFFER_TOO_SMALL then mret (Ok true)
  else if status =? Status.NOT_FOUND then mret (Ok false)
  else e ← lift (error_from_status status); mret (Err e).

(** The value is the front of the buffer. *)
Definition get_variable (name : list Z) (vendor : Z) (buf : Buffer)
  : fw W (uresult (list Z * Z) (option Z)) :=
  runtime_services_raw_panicking;;
  '(status, attributes, data_size, out) ← call (efi_get_variable name vendor (zlen (bytes buf)));
  m ← lift (write_raw (bytes buf) 0 out);
  if status =? Status.SUCCESS then
    val ← lift (slice m 0 data_size);
    mret (Ok (val, attributes))
  else if status =? Status.BUFFER_TOO_SMALL then
    e ← lift (error_new status (Some data_size)); mret (Err e)
  else e ← lift (error_new status None); mret (Err e).

(** The attributes leave [make_boxed] beside the value, in a captured variable
    that a successful fetch sets. *)
Definition get_variable_boxed `{!Allocator W} (name : list Z) (vendor : Z)
  : fw W (uresult (list Z * Z) unit) :=
  make_boxed 1 (get_variable name vendor).

(** The result with the new contents of [name] and [vendor]. *)
Definition get_next_variable_key (name : list Z) (vendor : Z)
  : fw W (uresult unit (option Z) * (list Z * Z)) :=
  runtime_services_raw_panicking;;
  let name_size_in_bytes := zlen name * 2 in
  '(status, name_size_in_bytes, out, vendor) ←
    call (efi_get_next_variable_name name_size_in_bytes name vendor);
  name ← lift (write_raw name 0 out);
  if status =? Status.SUCCESS then mret (Ok tt, (name, vendor))
  else if status =? Status.BUFFER_TOO_SMALL then
    e ← lift (error_new status (Some (name_size_in_bytes / 2))); mret (Err e, (name, vendor))
  else e ← lift (error_new status None); mret (Err e, (name, vendor)).

Record VariableKeys : Set := mkVariableKeys { vk_name : list Z; vk_vendor : Z; vk_is_done : bool }.

(** [VariableKeys::new]. *)
Definition variable_keys : VariableKeys := mkVariableKeys (replicate 512 0) 0 false.

Definition variable_keys_next (self : VariableKeys)
  : fw W (option (uresult VariableKey unit) * VariableKeys) :=
  if vk_is_done self then mret (None, self)
  else
    '(result, (name, vendor)) ← get_next_variable_key (vk_name self) (vk_vendor self);
    '(result, (name, vendor)) ←
      (match result with
       | Err (mkError _ (Some required_size)) => get_next_variable_key (vec_resize name required_size) vendor
       | _ => mret (result, (name, vendor))
       end);
    match result with
    | Ok tt =>
        let self := mkVariableKeys name vendor (vk_is_done self) in
        match cstr16_from_u16_until_nul name with
        | Err _ => e ← lift (error_from_status Status.UNSUPPORTED); mret (Some (Err e), self)
        | Ok n => mret (Some (Ok (mkVariableKey vendor n)), self)
        end
    | Err err =>
        let self := mkVariableKeys name vendor true in
        if err_status err =? Status.NOT_FOUND then mret (None, self)
        else mret (Some (Err (to_err_without_payload err)), self)
    end.

(** The items of the iterator. *)
Fixpoint variable_keys_collect (fuel : nat) (self : VariableKeys) : fw W (list (uresult VariableKey unit)) :=
  match fuel with
  | O => lift NoFuel
  | S fuel =>
      '(item, self) ← variable_keys_next self;
      match item with
      | None => mret []
      | Some item => rest ← variable_keys_collect fuel self; mret (item :: rest)
      end
  end.

Definition set_variable (name : list Z) (vendor attributes : Z) (data : list Z) : fw W (uresult unit unit) :=
  runtime_services_raw_panicking;;
  status ← call (efi_set_variable name vendor attributes data);
  lift (to_result status).

Definition delete_variable (name : list Z) (vendor : Z) : fw W (uresult unit unit) :=
  set_variable name vendor 0 [].

Definition query_variable_info (attributes : Z) : fw W (uresult VariableStorageInfo unit) :=
  runtime_services_raw_panicking;;
  revision ← call (fun w => (rt_revision w, w));
  if revision <? EFI_2_00 then e ← lift (error_from_status Status.UNSUPPORTED); mret (Err e)
  else
    '(status, info) ← call (efi_query_variable_info attributes);
    lift (to_result_with_val status info).

(** ** Capsules: the arguments are the addresses of the headers and of the first
    block descriptor *)

Definition update_capsule (capsule_header_array : list Z) (capsule_block_descriptors : Z)
  : fw W (uresult unit unit) :=
  runtime_services_raw_panicking;;
  status ← call (efi_update_capsule capsule_header_array (zlen capsule_header_array) capsule_block_descriptors);
  lift (to_result status).

Definition query_capsule_capabilities (capsule_header_array : list Z) : fw W (uresult CapsuleInfo unit) :=
  runtime_services_raw_panicking;;
  '(status, info) ← call (efi_query_capsule_capabilities capsule_header_array (zlen capsule_header_array));
  lift (to_result_with_val status info).

(** ** Virtual addresses *)

Definition set_virtual_address_map (map : list MemoryDescriptor) (new_system_table_virtual_addr : Z)
  : fw W (uresult unit unit) :=
  runtime_services_raw_panicking;;
  let map_size := zlen map * size_of_MemoryDescriptor in
  status ← call (efi_set_virtual_address_map map_size size_of_MemoryDescriptor
    MEMORY_DESCRIPTOR_VERSION map);
  try _ <- lift (to_result status);
  call (fun w => (tt, set_system_table new_system_table_virtual_addr w));;
  mret (Ok tt).
End runtime.

(** ** Properties *)

(** The attributes of a variable that is neither authenticated nor appended to. *)
Definition plain_attributes (attributes : Z) : Prop :=
  Z.land attributes (Z.lor (Z.lor VariableAttributes.AUTHENTICATED_WRITE_ACCESS
    VariableAttributes.TIME_BASED_AUTHENTICATED_WRITE_ACCESS)
    (Z.lor VariableAttributes.APPEND_WRITE VariableAttributes.ENHANCED_AUTHENTICATED_ACCESS)) = 0.

Definition has_access (attributes : Z) : bool :=
  negb (Z.land attributes
    (Z.lor VariableAttributes.BOOTSERVICE_ACCESS VariableAttributes.RUNTIME_ACCESS) =? 0).

(** What storing leaves: empty data, or no access, deletes the variable. *)
Definition stored (attributes : Z) (data : list Z) : option (Z * list Z) :=
  if bool_decide (data = []) || negb (has_access attributes) then None else Some (attributes, data).

(** A buffer and a vendor are the position before the [i]-th key: the empty name
    before the first, the previous key otherwise. *)
Definition before_key (ks : list VariableKey) (name : list Z) (vendor : Z) (i : nat) : Prop :=
  match i with
  | O => exists rest, name = 0 :: rest
  | S j => exists k rest, ks !! j = Some k /\ name = key_name k ++ rest /\ vendor = key_vendor k
  end.

(** What the specification documents of the variable services. *)
Class VariableLaws (W : Type) `{!RuntimeServices W, !Allocator W} : Type := {
  keys : W -> list VariableKey;
  value_of : W -> VariableKey -> option (Z * list Z);
  keys_values : forall w k, k ∈ keys w <-> is_Some (value_of w k);
  keys_names : forall w k, k ∈ keys w -> cstr16_wf (key_name k) /\ key_name k <> [0];
  value_size : forall w k a d, value_of w k = Some (a, d) -> d <> [] /\ zlen d <= isize_MAX;
  next_last : forall w name vendor i, before_key (keys w) name vendor i -> keys w !! i = None ->
    exists n v, efi_get_next_variable_name (zlen name * 2) name vendor w = ((Status.NOT_FOUND, n, [], v), w);
  next_small : forall w name vendor i k, before_key (keys w) name vendor i -> keys w !! i = Some k ->
    zlen name < zlen (key_name k) ->
    efi_get_next_variable_name (zlen name * 2) name vendor w =
      ((Status.BUFFER_TOO_SMALL, zlen (key_name k) * 2, [], vendor), w);
  next_fits : forall w name vendor i k, before_key (keys w) name vendor i -> keys w !! i = Some k ->
    zlen (key_name k) <= zlen name ->
    efi_get_next_variable_name (zlen name * 2) name vendor w =
      ((0, zlen (key_name k) * 2, key_name k, key_vendor k), w);
  get_none : forall w name vendor n, value_of w (mkVariableKey vendor name) = None ->
    exists a m, efi_get_variable name vendor n w = ((Status.NOT_FOUND, a, m, []), w);
  get_small : forall w name vendor n a d, value_of w (mkVariableKey vendor name) = Some (a, d) -> n < zlen d ->
    exists a', efi_get_variable name vendor n w = ((Status.BUFFER_TOO_SMALL, a', zlen d, []), w);
  get_fits : forall w name vendor n a d, value_of w (mkVariableKey vendor name) = Some (a, d) -> zlen d <= n ->
    efi_get_variable name vendor n w = ((0, a, zlen d, d), w);
  set_ok : forall w name vendor a d w', efi_set_variable name vendor a d w = (0, w') -> plain_attributes a ->
    runtime_active w' = runtime_active w /\
    forall k, value_of w' k = if decide (k = mkVariableKey vendor name) then stored a d else value_of w k;
  set_fail : forall w name vendor a d s w', efi_set_variable name vendor a d w = (s, w') -> s <> 0 ->
    runtime_active w' = runtime_active w /\ forall k, value_of w' k = value_of w k;
  alloc_vars : forall n al w o w', alloc n al w = (o, w') ->
    runtime_active w' = runtime_active w /\ (forall k, value_of w' k = value_of w k) /\
    match o with Some b => 0 <= n -> zlen (bytes b) = n | None => True end;
}.

Section variable_properties.
Context {W : Type} `{!RuntimeServices W, !Allocator W, !VariableLaws W}.

Lemma runtime_run {A} (k : unit -> fw W A) w :
  runtime_active w = true -> (runtime_services_raw_panicking ≫= k) w = k tt w.
Proof. unfold mbind, fw_bind, runtime_services_raw_panicking. by intros ->. Qed.

(** *** Reading and writing *)

Lemma variable_exists_runs w name vendor :
  runtime_active w = true ->
  variable_exists name vendor w = Ret (Ok (bool_decide (is_Some (value_of w (mkVariableKey vendor name)))), w).
Proof.
  intros Hact. unfold variable_exists. rewrite runtime_run, fw_bind_call by done.
  destruct (value_of w (mkVariableKey vendor name)) as [[a d]|] eqn:E.
  - destruct (value_size _ _ _ _ E) as [Hd _]. destruct (get_small w name vendor 0 a d E) as (a' & ->); [|done].
    destruct d; [done|]. unfold zlen. simpl. lia.
  - by destruct (get_none w name vendor 0 E) as (a & m & ->).
Qed.

Lemma get_variable_none w name vendor b :
  runtime_active w = true -> value_of w (mkVariableKey vendor name) = None ->
  get_variable name vendor b w = Ret (Err (mkError Status.NOT_FOUND None), w).
Proof.
  intros Hact E. unfold get_variable. rewrite runtime_run, fw_bind_call by done.
  destruct (get_none w name vendor (zlen (bytes b)) E) as (a & m & ->). cbn [fst snd].
  destruct (write_raw_ok (bytes b) 0 []) as (m' & -> & _); [lia|unfold zlen; simpl; lia|]. done.
Qed.

Lemma get_variable_some w name vendor b a d :
  runtime_active w = true -> value_of w (mkVariableKey vendor name) = Some (a, d) ->
  get_variable name vendor b w =
    Ret (if zlen d <=? zlen (bytes b) then Ok (d, a)
         else Err (mkError Status.BUFFER_TOO_SMALL (Some (zlen d))), w).
Proof.
  intros Hact E. unfold get_variable. rewrite runtime_run, fw_bind_call by done.
  destruct (Z.leb_spec (zlen d) (zlen (bytes b))) as [Hl|Hl].
  - rewrite (get_fits _ _ _ _ _ _ E) by done. cbn [fst snd].
    destruct (write_raw_ok (bytes b) 0 d) as (m & -> & Hm & Hr & _); [lia|lia|].
    rewrite fw_bind_lift. change (0 =? Status.SUCCESS) with true. cbv iota.
    pose proof (zlen_nonneg d). rewrite slice_ok by lia. rewrite fw_bind_lift.
    unfold range in Hr. rewrite Z.sub_0_r. by rewrite Hr.
  - destruct (get_small _ _ _ (zlen (bytes b)) _ _ E) as (a' & ->); [done|]. cbn [fst snd].
    destruct (write_raw_ok (bytes b) 0 []) as (m' & -> & _); [lia|unfold zlen; simpl; lia|]. done.
Qed.

Lemma get_variable_boxed_none w name vendor :
  runtime_active w = true -> value_of w (mkVariableKey vendor name) = None ->
  get_variable_boxed name vendor w = Ret (Err (mkError Status.NOT_FOUND tt), w).
Proof. intros Hact E. unfold get_variable_boxed, make_boxed. by rewrite get_variable_none. Qed.

(** The value, unless the heap is exhausted. *)
Lemma get_variable_boxed_some w name vendor a d :
  runtime_active w = true -> value_of w (mkVariableKey vendor name) = Some (a, d) ->
  exists r w', get_variable_boxed name vendor w = Ret (r, w') /\
    (forall k, value_of w' k = value_of w k) /\
    r = if (alloc (zlen d) 1 w).1 then Ok (d, a) else Err (mkError Status.OUT_OF_RESOURCES tt).
Proof.
  intros Hact E. unfold get_variable_boxed, make_boxed. rewrite (get_variable_some _ _ _ _ _ _ Hact E).
  destruct (value_size _ _ _ _ E) as [Hd Hmax]. unfold isize_MAX in Hmax. pose proof (zlen_nonneg d).
  assert (0 < zlen d) as Hpos by (destruct d; [done|]; rewrite zlen_cons; pose proof (zlen_nonneg d); lia).
  change (zlen (bytes empty_slice)) with 0. rewrite (proj2 (Z.leb_gt _ _)) by done. cbn [obind].
  unfold boxed_required_size, error_split. cbn [err_status err_data]. rewrite Z.eqb_refl. cbn [obind].
  rewrite (padded_layout_ok 1 0) by lia. replace ((zlen d + 1 - 1) / 1 * 1) with (zlen d)
    by (rewrite Z.div_1_r; lia). cbn [obind].
  destruct (alloc (zlen d) 1 w) as [[b|] w1] eqn:Ea; destruct (alloc_vars _ _ _ _ _ Ea) as (Ha & Hv & Hb).
  - specialize (Hb ltac:(lia)). erewrite get_variable_some; [|congruence|by rewrite Hv]. cbn [bytes].
    rewrite (proj2 (Z.leb_le _ _)); [by do 2 eexists|]. unfold zlen in *. rewrite length_take. lia.
  - by do 2 eexists.
Qed.

Lemma set_variable_cases w name vendor a d :
  runtime_active w = true -> plain_attributes a ->
  exists r w', set_variable name vendor a d w = Ret (r, w') /\ runtime_active w' = true /\
    forall k, value_of w' k =
      if decide (k = mkVariableKey vendor name /\ is_ok r = true) then stored a d else value_of w k.
Proof.
  intros Hact Hp. unfold set_variable. rewrite runtime_run, fw_bind_call by done.
  destruct (efi_set_variable name vendor a d w) as [s w'] eqn:E. cbn [fst snd]. rewrite to_result_cases.
  do 2 eexists; split; [done|]. destruct (Z.eqb_spec s 0) as [->|Hs].
  - destruct (set_ok _ _ _ _ _ _ E Hp) as [Ha Hv]. split; [congruence|]. intros k. rewrite Hv.
    by repeat case_decide; naive_solver.
  - destruct (set_fail _ _ _ _ _ _ _ E Hs) as [Ha Hv]. split; [congruence|]. intros k. rewrite Hv.
    case_decide; [naive_solver|done].
Qed.

(** C12: A variable that was set successfully exists and is read back with its data
    and attributes (or the heap has no room for them), setting empty data or
    deleting removes it, and no other variable changes. *)
Theorem set_get_variable (w : W) (name : list Z) (vendor a : Z) (d : list Z) :
  runtime_active w = true -> plain_attributes a ->
  exists r w', set_variable name vendor a d w = Ret (r, w') /\
    (forall k, k <> mkVariableKey vendor name -> value_of w' k = value_of w k) /\
    (r = Ok tt -> if stored a d is Some _ then
       variable_exists name vendor w' = Ret (Ok true, w') /\
       exists w2, get_variable_boxed name vendor w' =
         Ret (if (alloc (zlen d) 1 w').1 then Ok (d, a) else Err (mkError Status.OUT_OF_RESOURCES tt), w2)
     else
       variable_exists name vendor w' = Ret (Ok false, w') /\
       get_variable_boxed name vendor w' = Ret (Err (mkError Status.NOT_FOUND tt), w')).
Proof.
  intros Hact Hp. destruct (set_variable_cases w name vendor a d Hact Hp) as (r & w' & E & Hact' & Hv).
  exists r, w'. split; [done|]. split.
  { intros k Hk. rewrite Hv. by rewrite decide_False by tauto. }
  intros ->. specialize (Hv (mkVariableKey vendor name)). rewrite decide_True in Hv by done.
  rewrite variable_exists_runs, Hv by done. unfold stored in *. destruct (_ || _).
  - split; [done|]. by apply get_variable_boxed_none.
  - split; [done|]. destruct (get_variable_boxed_some _ _ _ _ _ Hact' Hv) as (r & w2 & E2 & _ & ->). eauto.
Qed.

(** *** Iterating over the keys *)

Lemma write_front (m d : list Z) : zlen d <= zlen m -> write_raw m 0 d = Ret (d ++ drop (length d) m).
Proof. intros Hd. unfold write_raw. by rewrite (proj2 (Z.leb_le (0 + zlen d) _)) by lia. Qed.

Lemma before_key_app ks name vendor i rest :
  before_key ks name vendor i -> before_key ks (name ++ rest) vendor i.
Proof.
  destruct i; simpl; [intros (r & ->); by eexists|].
  intros (k & r & Hk & -> & ->). exists k, (r ++ rest). by rewrite <- app_assoc.
Qed.

Lemma vec_resize_grow l n : zlen l < n -> exists z, vec_resize l n = l ++ z /\ zlen (vec_resize l n) = n.
Proof.
  intros Hn. unfold vec_resize. rewrite (proj2 (Z.leb_gt _ _)) by done. eexists; split; [done|].
  rewrite zlen_app. unfold zlen at 2. rewrite length_replicate. lia.
Qed.

Lemma next_key_last w name vendor i :
  runtime_active w = true -> before_key (keys w) name vendor i -> keys w !! i = None ->
  exists v, get_next_variable_key name vendor w = Ret ((Err (mkError Status.NOT_FOUND None), (name, v)), w).
Proof.
  intros Hact Hb Hk. destruct (next_last w name vendor i Hb Hk) as (n & v & E). exists v.
  unfold get_next_variable_key. rewrite runtime_run, fw_bind_call, E by done. cbn [fst snd].
  by rewrite write_front by apply zlen_nonneg.
Qed.

Lemma next_key_small w name vendor i k :
  runtime_active w = true -> before_key (keys w) name vendor i -> keys w !! i = Some k ->
  zlen name < zlen (key_name k) ->
  get_next_variable_key name vendor w =
    Ret ((Err (mkError Status.BUFFER_TOO_SMALL (Some (zlen (key_name k)))), (name, vendor)), w).
Proof.
  intros Hact Hb Hk Hl. unfold get_next_variable_key. rewrite runtime_run, fw_bind_call by done.
  rewrite (next_small _ _ _ _ _ Hb Hk Hl). cbn [fst snd]. rewrite write_front by apply zlen_nonneg.
  rewrite fw_bind_lift. cbn [app length]. rewrite drop_0, Z.div_mul by done. done.
Qed.

Lemma next_key_fits w name vendor i k :
  runtime_active w = true -> before_key (keys w) name vendor i -> keys w !! i = Some k ->
  zlen (key_name k) <= zlen name ->
  exists rest, get_next_variable_key name vendor w = Ret ((Ok tt, (key_name k ++ rest, key_vendor k)), w).
Proof.
  intros Hact Hb Hk Hl. eexists. unfold get_next_variable_key. rewrite runtime_run, fw_bind_call by done.
  rewrite (next_fits _ _ _ _ _ Hb Hk Hl). cbn [fst snd]. rewrite write_front by done. done.
Qed.

Lemma until_nul_name s rest : cstr16_wf s -> cstr16_from_u16_until_nul (s ++ rest) = Ok s.
Proof.
  intros (b & -> & Hb). unfold cstr16_from_u16_until_nul. rewrite <- app_assoc.
  rewrite until_nul_loop_skip by done. cbn. by rewrite take_app_add.
Qed.

(** One step: the next key, with a larger buffer when its name needs one. *)
Lemma keys_next_some w it i k :
  runtime_active w = true -> vk_is_done it = false ->
  before_key (keys w) (vk_name it) (vk_vendor it) i -> keys w !! i = Some k ->
  exists it', variable_keys_next it w = Ret ((Some (Ok k), it'), w) /\ vk_is_done it' = false /\
    before_key (keys w) (vk_name it') (vk_vendor it') (S i).
Proof.
  intros Hact Hd Hb Hk. unfold variable_keys_next. rewrite Hd.
  destruct (keys_names w k) as [Hwf _]; [by eapply list_elem_of_lookup_2|].
  destruct (Z.leb_spec (zlen (key_name k)) (zlen (vk_name it))) as [Hl|Hl].
  - destruct (next_key_fits w _ _ _ _ Hact Hb Hk Hl) as (rest & E).
    erewrite fw_bind_Ret by exact E. cbv beta iota. erewrite fw_bind_Ret by done. cbv beta iota zeta.
    rewrite until_nul_name by done. eexists; split; [by destruct k|]. split; [done|].
    by exists k, rest.
  - pose proof (next_key_small w _ _ _ _ Hact Hb Hk Hl) as E. erewrite fw_bind_Ret by exact E.
    destruct (vec_resize_grow (vk_name it) _ Hl) as (z & Ez & Hz). cbv beta iota.
    destruct (next_key_fits w (vec_resize (vk_name it) (zlen (key_name k))) (vk_vendor it) i k)
      as (rest & E2); [done|rewrite Ez; by apply before_key_app|done|lia|].
    erewrite fw_bind_Ret by exact E2. cbv beta iota zeta.
    rewrite until_nul_name by done. eexists; split; [by destruct k|]. split; [done|].
    by exists k, rest.
Qed.

Lemma keys_next_none w it i :
  runtime_active w = true -> vk_is_done it = false ->
  before_key (keys w) (vk_name it) (vk_vendor it) i -> keys w !! i = None ->
  exists it', variable_keys_next it w = Ret ((None, it'), w).
Proof.
  intros Hact Hd Hb Hk. unfold variable_keys_next. rewrite Hd.
  destruct (next_key_last w _ _ _ Hact Hb Hk) as (v & E). erewrite fw_bind_Ret by exact E.
  cbv beta iota. erewrite fw_bind_Ret by done. by eexists.
Qed.

Lemma keys_collect_from w fuel it i :
  runtime_active w = true -> vk_is_done it = false ->
  before_key (keys w) (vk_name it) (vk_vendor it) i -> (length (keys w) - i < fuel)%nat ->
  variable_keys_collect fuel it w = Ret (map Ok (drop i (keys w)), w).
Proof.
  intros Hact. revert it i. induction fuel as [|fuel IH]; intros it i Hd Hb Hf; [lia|]. cbn [variable_keys_collect].
  destruct (keys w !! i) as [k|] eqn:Hk.
  - destruct (keys_next_some w it i k Hact Hd Hb Hk) as (it' & E & Hd' & Hb').
    pose proof (lookup_lt_Some _ _ _ Hk). erewrite fw_bind_Ret by exact E. cbv beta iota.
    erewrite fw_bind_Ret by (apply IH; [done..|lia]). by rewrite (drop_S _ _ _ Hk).
  - destruct (keys_next_none w it i Hact Hd Hb Hk) as (it' & E). erewrite fw_bind_Ret by exact E.
    rewrite drop_ge by (by apply lookup_ge_None). done.
Qed.

(** C11: Iterating over [variable_keys] terminates and yields exactly the keys of the
    firmware's variables in the firmware's order, also those whose names do not
    fit the initial buffer. *)
Theorem variable_keys_complete (w : W) (fuel : nat) :
  runtime_active w = true -> (length (keys w) < fuel)%nat ->
  variable_keys_collect fuel variable_keys w = Ret (map Ok (keys w), w).
Proof.
  intros Hact Hf. apply (keys_collect_from w fuel variable_keys 0); [done|done| |lia].
  by exists (replicate 511 0).
Qed.
End variable_properties.

(** ** Variables kept in memory *)

#[export, refine] Instance VariableKey_countable : Countable VariableKey :=
  inj_countable' (fun k => (key_vendor k, key_name k)) (fun p => mkVariableKey p.1 p.2) _.
Proof. by intros []. Defined.

Module Store.
Record t : Type := mk { entries : gmap VariableKey (Z * list Z) }.

Definition valid (e : VariableKey * (Z * list Z)) : Prop :=
  cstr16_wf (key_name e.1) /\ key_name e.1 <> [0] /\ e.2.2 <> [] /\ zlen e.2.2 <= isize_MAX.
#[global] Instance valid_dec e : Decision (valid e).
Proof. unfold valid. apply _. Defined.

Definition vars (w : t) : gmap VariableKey (Z * list Z) := filter valid (entries w).
Definition all_keys (w : t) : list VariableKey := (map_to_list (vars w)).*1.

(** The position that a name and a vendor denote. *)
Definition position (ks : list VariableKey) (name : list Z) (vendor : Z) : option nat :=
  let n := until_nul name ++ [0] in
  if decide (n = [0]) then Some O
  else match list_find (.= mkVariableKey vendor n) ks with Some (j, _) => Some (S j) | None => None end.

Definition next_name (size : Z) (name : list Z) (vendor : Z) (w : t) : (Z * Z * list Z * Z) * t :=
  match position (all_keys w) name vendor with
  | None => ((Status.INVALID_PARAMETER, size, [], vendor), w)
  | Some i =>
      match all_keys w !! i with
      | None => ((Status.NOT_FOUND, size, [], vendor), w)
      | Some k =>
          let needed := zlen (key_name k) * 2 in
          if size <? needed then ((Status.BUFFER_TOO_SMALL, needed, [], vendor), w)
          else ((0, needed, key_name k, key_vendor k), w)
      end
  end.

Definition get (name : list Z) (vendor n : Z) (w : t) : (Z * Z * Z * list Z) * t :=
  match vars w !! mkVariableKey vendor name with
  | None => ((Status.NOT_FOUND, 0, 0, []), w)
  | Some (a, d) =>
      if n <? zlen d then ((Status.BUFFER_TOO_SMALL, a, zlen d, []), w) else ((0, a, zlen d, d), w)
  end.

Definition set (name : list Z) (vendor a : Z) (d : list Z) (w : t) : Z * t :=
  let k := mkVariableKey vendor name in
  match stored a d with
  | None => (0, mk (delete k (entries w)))
  | Some v => if decide (valid (k, v)) then (0, mk (<[k := v]> (entries w))) else (Status.INVALID_PARAMETER, w)
  end.

#[global] Instance runtime_services : RuntimeServices t := {|
  runtime_active _ := true;
  rt_revision _ := EFI_2_00;
  efi_get_time _ w := ((Status.UNSUPPORTED, time_invalid, mkTimeCapabilities 0 0 0), w);
  efi_set_time _ w := (Status.UNSUPPORTED, w);
  efi_get_variable := get;
  efi_get_next_variable_name := next_name;
  efi_set_variable := set;
  efi_query_variable_info _ w := ((0, mkVariableStorageInfo 65536 65536 1024), w);
  efi_update_capsule _ _ _ w := (Status.UNSUPPORTED, w);
  efi_query_capsule_capabilities _ _ w := ((Status.UNSUPPORTED, mkCapsuleInfo 0 0), w);
  efi_set_virtual_address_map _ _ _ _ w := (Status.UNSUPPORTED, w);
  set_system_table _ w := w;
|}.

#[global] Instance heap : Allocator t := {|
  alloc n _ w := (Some (mkBuffer 16 (replicate (Z.to_nat n) 0)), w);
  dealloc _ _ _ w := w;
|}.

Lemma until_nul_wf s rest : cstr16_wf s -> until_nul (s ++ rest) ++ [0] = s.
Proof.
  intros (b & -> & Hb). f_equal. rewrite <- app_assoc. unfold until_nul.
  induction Hb as [|c b [_ Hc] _ IH]; [done|].
  cbn [app take_while] in IH |- *. rewrite (proj2 (Z.eqb_neq c 0)) by done. cbn [negb]. by rewrite IH.
Qed.

Lemma all_keys_elem w k : k ∈ all_keys w <-> is_Some (vars w !! k).
Proof.
  unfold all_keys. rewrite list_elem_of_fmap. split.
  - intros ([k' v] & -> & Hv%elem_of_map_to_list). by exists v.
  - intros [v Hv]. exists (k, v). by rewrite elem_of_map_to_list.
Qed.

Lemma vars_valid w k v : vars w !! k = Some v -> valid (k, v).
Proof. unfold vars. by intros [_ Hv]%map_lookup_filter_Some. Qed.

Lemma position_before w name vendor i :
  before_key (all_keys w) name vendor i -> position (all_keys w) name vendor = Some i.
Proof.
  destruct i as [|j]; [by intros (rest & ->)|]. intros (k & rest & Hk & -> & ->). unfold position.
  assert (is_Some (vars w !! k)) as [v Hv] by (apply all_keys_elem; by eapply list_elem_of_lookup_2).
  destruct (vars_valid _ _ _ Hv) as (Hwf & Hne & _). rewrite until_nul_wf by done.
  rewrite decide_False by done. destruct k as [kv kn]. cbn [key_name key_vendor] in *.
  assert (list_find (.= mkVariableKey kv kn) (all_keys w) = Some (j, mkVariableKey kv kn)) as ->; [|done].
  apply list_find_Some. split; [done|]. split; [done|]. intros j' y Hy Hlt ->.
  assert (j' = j) by exact (NoDup_lookup _ _ _ _ (NoDup_fst_map_to_list (vars w)) Hy Hk). lia.
Qed.

Lemma set_vars name vendor a d w w' : set name vendor a d w = (0, w') ->
  forall k, vars w' !! k = if decide (k = mkVariableKey vendor name) then stored a d else vars w !! k.
Proof.
  unfold set, vars. set (k0 := mkVariableKey vendor name).
  destruct (stored a d) as [v|] eqn:Ev; [destruct (decide (valid (k0, v))) as [Hv|]; [|done]|];
    intros [= <-] k; cbn [entries]; case_decide as Hk; subst.
  - rewrite map_filter_insert_True by done. apply lookup_insert_eq.
  - rewrite map_filter_insert_True by done. by apply lookup_insert_ne.
  - rewrite map_filter_delete. apply lookup_delete_eq.
  - rewrite map_filter_delete. by apply lookup_delete_ne.
Qed.

#[global, refine] Instance laws : VariableLaws t :=
  {| keys := all_keys; value_of w k := vars w !! k |}.
Proof.
  - apply all_keys_elem.
  - intros w k [v Hv]%all_keys_elem. destruct (vars_valid _ _ _ Hv) as (? & ? & _). done.
  - intros w k a d Hv. destruct (vars_valid _ _ _ Hv) as (_ & _ & ? & ?). done.
  - intros w name vendor i Hb Hk. cbn. unfold next_name. rewrite (position_before _ _ _ _ Hb), Hk. eauto.
  - intros w name vendor i k Hb Hk Hl. cbn. unfold next_name. rewrite (position_before _ _ _ _ Hb), Hk.
    by rewrite (proj2 (Z.ltb_lt _ _)) by lia.
  - intros w name vendor i k Hb Hk Hl. cbn. unfold next_name. rewrite (position_before _ _ _ _ Hb), Hk.
    by rewrite (proj2 (Z.ltb_ge _ _)) by lia.
  - intros w name vendor n E. cbn. unfold get. rewrite E. eauto.
  - intros w name vendor n a d E Hn. cbn. unfold get. rewrite E, (proj2 (Z.ltb_lt _ _)) by lia. eauto.
  - intros w name vendor n a d E Hn. cbn. unfold get. by rewrite E, (proj2 (Z.ltb_ge _ _)) by lia.
  - intros w name vendor a d w' E _. split; [done|]. by apply set_vars.
  - intros w name vendor a d s w' E Hs. split; [done|]. cbn in E. unfold set in E. repeat case_match; by simplify_eq.
  - intros n al w o w' [= <- <-]. do 2 (split; [done|]). intros Hn. unfold zlen. cbn. rewrite length_replicate. lia.
Defined.

(** A long name that does not fit the iterator's first buffer, and a short one. *)
Definition long_name : list Z := replicate 600 0x61 ++ [0].
Definition example : t := mk (<[mkVariableKey 1 long_name := (7, [1])]> (<[mkVariableKey 2 [0x62; 0] := (7, [2; 3])]> ∅)).
End Store.

Lemma set_get_variable_witness :
  exists w', set_variable [0x62; 0] 5 7 [9; 8] Store.example = Ret (Ok tt, w') /\
    exists w2, get_variable_boxed [0x62; 0] 5 w' = Ret (Ok ([9; 8], 7), w2).
Proof.
  destruct (set_get_variable (RuntimeServices0 := Store.runtime_services) (Allocator0 := Store.heap)
    Store.example [0x62; 0] 5 7 [9; 8]) as (r & w' & E & _ & Hr); [done|done|].
  assert (omap fst (set_variable [0x62; 0] 5 7 [9; 8] Store.example) = Ret (Ok tt)) as Hok by (by vm_compute).
  rewrite E in Hok. injection Hok as ->.
  exists w'. split; [done|]. destruct (Hr eq_refl) as (_ & w2 & E2). eauto.
Defined.

Lemma variable_keys_complete_witness :
  exists l, variable_keys_collect 3 variable_keys Store.example = Ret (l, Store.example) /\ length l = 2%nat /\
    Ok (mkVariableKey 1 Store.long_name) ∈ l.
Proof.
  eexists. split; [apply (variable_keys_complete Store.example 3); [reflexivity|by vm_compute; lia]|].
  split; [by vm_compute|]. apply list_elem_of_fmap. eexists; split; [done|].
  apply Store.all_keys_elem. eexists. by vm_compute.
Defined.
