(* ===== verification/BootExit.v ===== *)
(** * Leaving the boot services

    [exit_boot_services], [get_memory_map_and_exit_boot_services] and [exit] of
    [uefi/src/boot.rs], [reset] of [uefi/src/runtime.rs], [helpers::exit] and the
    global [Logger] of [uefi/src/helpers/logger.rs] that it disables.  The
    theorem is a refinement: the function does what the short protocol [exits]
    allows, which asks for the map and offers its key at most twice. *)
From S2P Require Import Prelude Firmware Status MemoryMap MemoryMapSort BootMemory LoadedImage BootProtocols Time Runtime.

(** ** The firmware *)

(** [log_output] is what writing a record to the [Output] protocol does;
    [logger_cell] is the pointer in the static [LOGGER]. *)
Class ExitServices (W : Type) : Type := {
  efi_exit_boot_services : Z -> Z -> W -> Z * W;
  logger_cell : W -> Z;
  set_logger_cell : Z -> W -> W;
  log_output : Z -> W -> W;
}.

Module ResetType.
Definition COLD : Z := 0.
Definition WARM : Z := 1.
Definition SHUTDOWN : Z := 2.
Definition PLATFORM_SPECIFIC : Z := 3.
End ResetType.

(** What becomes of a function that may not return: the firmware resets the
    machine, or ends the image. *)
Inductive control (A : Type) : Type :=
| Returns (a : A)
| ResetSystem (reset_type status size : Z) (data : list Z)
| ExitImage (image_handle status size data : Z).
Arguments Returns {A} a.
Arguments ResetSystem {A} reset_type status size data.
Arguments ExitImage {A} image_handle status size data.

Section exiting.
Context `{Profile} {W : Type} `{!BootServices W, !ProtocolServices W, !RuntimeServices W, !ExitServices W}.

(** ** The logger *)

(** [Logger::output], [Logger::set_output] and [Logger::disable]. *)
Definition logger_output : fw W Z := call (fun w => (logger_cell w, w)).
Definition logger_set_output (output : Z) : fw W unit := call (fun w => (tt, set_logger_cell output w)).
Definition logger_disable : fw W unit := logger_set_output 0.

(** [Log::log] of the logger: errors of the output are ignored. *)
Definition logger_log : fw W unit :=
  output ← logger_output;
  if output =? 0 then mret tt else call (fun w => (tt, log_output output w)).

(** [helpers::exit]. *)
Definition helpers_exit : fw W unit := logger_disable.

(** ** Functions that do not return *)

Definition reset {A} (reset_type status : Z) (data : option (list Z)) : fw W (control A) :=
  runtime_services_raw_panicking;;
  let (size, data) := match data with Some data => (zlen data, data) | None => (0, []) end in
  mret (ResetSystem reset_type status size data).

Definition exit {A} (image_handle exit_status exit_data_size exit_data : Z) : fw W (control A) :=
  boot_services_raw_panicking;;
  mret (ExitImage image_handle exit_status exit_data_size exit_data).

(** ** Exiting *)

Definition get_memory_map_and_exit_boot_services (buf : Buffer) : fw W (uresult MemoryMapMeta unit * Buffer) :=
  boot_services_raw_panicking;;
  '(r, buf) ← get_memory_map buf;
  match r with
  | Err e => mret (Err e, buf)
  | Ok memory_map =>
      h ← image_handle;
      status ← call (efi_exit_boot_services h (map_key memory_map));
      r ← lift (to_result_with_val status memory_map);
      mret (r, buf)
  end.

(** The loop [for _ in 0..n], with the status of the last failure. *)
Fixpoint exit_attempts (n : nat) (status : Z) (buf : Buffer) : fw W (control MemoryMapOwned.t) :=
  match n with
  | O =>
      logger_log;;
      reset ResetType.COLD status None
  | S n =>
      '(r, buf) ← get_memory_map_and_exit_boot_services buf;
      match r with
      | Ok memory_map =>
          m ← lift (MemoryMapOwned.from_initialized_mem buf memory_map);
          mret (Returns m)
      | Err err =>
          logger_log;;
          exit_attempts n (err_status err) buf
      end
  end.

Definition exit_boot_services (custom_memory_type : option Z) : fw W (control MemoryMapOwned.t) :=
  let memory_type := default MemoryType_LOADER_DATA custom_memory_type in
  helpers_exit;;
  r ← backing_new memory_type;
  buf ← lift (unwrap_result r);
  exit_attempts 2 Status.ABORTED buf.
End exiting.

(** ** The protocol of an exit *)

Section exit_spec.
Context {W : Type} `{!BootServices W, !ProtocolServices W, !RuntimeServices W, !ExitServices W, !MapLaws W}.

(** The services are left in a state [w], whose map was the last; or every
    attempt failed, the last one with this status. *)
Inductive verdict : Type := Left_at (w : W) | Gave_up (status : Z).

(** [n] attempts, after one that failed with [s]; the image is [h] and the buffer
    holds [cap] bytes. *)
Inductive exits (h cap : Z) : nat -> Z -> W -> verdict -> W -> Prop :=
| exits_accepted n s w w' :
    map_size (current_meta w) <= cap ->
    efi_exit_boot_services h (map_key (current_meta w)) w = (0, w') ->
    exits h cap (S n) s w (Left_at w) w'
| exits_rejected n s w s1 w1 v w' :
    map_size (current_meta w) <= cap ->
    efi_exit_boot_services h (map_key (current_meta w)) w = (s1, w1) -> s1 <> 0 ->
    exits h cap n s1 w1 v w' -> exits h cap (S n) s w v w'
| exits_small n s w v w' :
    cap < map_size (current_meta w) ->
    exits h cap n Status.BUFFER_TOO_SMALL w v w' -> exits h cap (S n) s w v w'
| exits_never s w : exits h cap 0 s w (Gave_up s) w.

(** What the crate keeps in statics, and the firmware does not change. *)
Definition statics (w : W) : Z * bool * Z := (image_handle_cell w, runtime_active w, logger_cell w).
End exit_spec.
Arguments verdict : clear implicits.

(** An accepted exit ends the boot services; neither answer touches memory. *)
Class ExitLaws (W : Type) `{!BootServices W, !Blocks W, !ProtocolServices W, !RuntimeServices W, !ExitServices W} : Prop := {
  exit_accepted h k w w' : efi_exit_boot_services h k w = (0, w') ->
    boot_active w' = false /\ keeps live w w';
  exit_rejected h k w s w' : efi_exit_boot_services h k w = (s, w') -> s <> 0 ->
    same_blocks w w' /\ statics w' = statics w;
  pool_statics mt n w s p w' : efi_allocate_pool mt n w = ((s, p), w') -> statics w' = statics w;
  logger_laws x w : same_blocks w (set_logger_cell x w) /\
    statics (set_logger_cell x w) = (image_handle_cell w, runtime_active w, x);
}.

Section exit_properties.
Context `{Profile} {W : Type} `{!BootServices W, !Blocks W, !MemoryLaws W, !MapLaws W,
  !ProtocolServices W, !RuntimeServices W, !ExitServices W, !ExitLaws W}.

(** A disabled logger does not touch the firmware. *)
Lemma logger_log_disabled w : logger_cell w = 0 -> logger_log w = Ret (tt, w).
Proof. intros E. unfold logger_log, logger_output. rewrite fw_bind_call. cbn [fst snd]. by rewrite E. Qed.

Lemma get_memory_map_too_small b w :
  boot_active w = true -> addr b mod 8 = 0 -> zlen (bytes b) < map_size (current_meta w) ->
  get_memory_map b w = Ret ((Err (mkError Status.BUFFER_TOO_SMALL tt), b), w).
Proof.
  intros Hact Ha Hn. unfold get_memory_map. rewrite boot_run by done.
  change align_of_MemoryDescriptor with 8. rewrite Ha. cbn [Z.eqb assert_].
  rewrite fw_bind_lift, fw_bind_call, get_map_small by done. cbn [fst snd].
  unfold write_raw. pose proof (zlen_nonneg (bytes b)). rewrite (proj2 (Z.leb_le (0 + zlen (@nil Z)) (zlen (bytes b)))) by done.
  change (0 <=? 0) with true. cbn [andb]. cbv iota. change (Z.to_nat 0 + length [])%nat with 0%nat.
  change (Z.to_nat 0) with 0%nat. rewrite take_0, drop_0, fw_bind_lift, to_result_with_val_cases, fw_bind_lift. by destruct b.
Qed.

(** The memory map that one attempt leaves in the buffer. *)
Definition holds_map (b : Buffer) (w : W) : Prop :=
  range (bytes b) 0 (map_size (current_meta w)) = current_map w.

Lemma attempt_runs b w :
  boot_active w = true -> image_handle_cell w <> 0 -> addr b mod 8 = 0 ->
  map_size (current_meta w) <= zlen (bytes b) ->
  exists b', addr b' = addr b /\ zlen (bytes b') = zlen (bytes b) /\ holds_map b' w /\
    get_memory_map_and_exit_boot_services b w =
      let (s, w') := efi_exit_boot_services (image_handle_cell w) (map_key (current_meta w)) w in
      Ret ((if s =? 0 then Ok (current_meta w) else Err (mkError s tt), b'), w').
Proof.
  intros Hact Hi Ha Hfit. destruct (get_memory_map_runs b w Hact Ha Hfit) as (b' & E & Ha' & Hl & Hr).
  exists b'. do 3 (split; [done|]). unfold get_memory_map_and_exit_boot_services. rewrite boot_run by done.
  rewrite (fw_bind_Ret _ _ _ _ _ E). cbv beta iota. unfold image_handle.
  rewrite (fw_bind_Ret _ _ w (image_handle_cell w) w).
  2: { rewrite fw_bind_call. cbn [fst snd]. unfold handle_from_ptr. by rewrite (proj2 (Z.eqb_neq _ _)). }
  rewrite fw_bind_call. destruct (efi_exit_boot_services _ _ w) as [s w']. cbn [fst snd].
  by rewrite to_result_with_val_cases, fw_bind_lift.
Qed.

(** What a successful exit returns. *)
Definition exited (cap : Z) (p : Z) (w : W) (m : MemoryMapOwned.t) : Prop :=
  wf_map m /\ meta m = current_meta w /\ range (bytes (buffer m)) 0 (map_size (meta m)) = current_map w /\
  addr (buffer m) = p /\ zlen (bytes (buffer m)) = cap.

Lemma attempts_run (n : nat) (b : Buffer) (w : W) (s : Z) :
  boot_active w = true -> image_handle_cell w <> 0 -> runtime_active w = true -> logger_cell w = 0 ->
  addr b mod 8 = 0 -> zlen (bytes b) <= isize_MAX ->
  exists (v : verdict W) (w' : W), exits (image_handle_cell w) (zlen (bytes b)) n s w v w' /\ keeps live w w' /\
    match v with
    | Left_at wl => boot_active w' = false /\
        exists m, exit_attempts n s b w = Ret (Returns m, w') /\ exited (zlen (bytes b)) (addr b) wl m
    | Gave_up s' => exit_attempts n s b w = Ret (ResetSystem ResetType.COLD s' 0 [], w')
    end.
Proof.
  revert b w s. induction n as [|n IH]; intros b w s Hact Hi Hrt Hlog Ha Hmax; cbn [exit_attempts].
  { exists (Gave_up s), w. split; [constructor|]. split; [reflexivity|].
    rewrite (fw_bind_Ret _ _ _ _ _ (logger_log_disabled w Hlog)). unfold reset. by rewrite runtime_run. }
  destruct (Z_lt_le_dec (zlen (bytes b)) (map_size (current_meta w))) as [Hs|Hfit].
  - unfold get_memory_map_and_exit_boot_services.
    rewrite (fw_bind_Ret _ _ w (Err (mkError Status.BUFFER_TOO_SMALL tt), b) w).
    2: { rewrite boot_run by done. by rewrite (fw_bind_Ret _ _ _ _ _ (get_memory_map_too_small b w Hact Ha Hs)). }
    cbv beta iota. rewrite (fw_bind_Ret _ _ _ _ _ (logger_log_disabled w Hlog)).
    destruct (IH b w Status.BUFFER_TOO_SMALL) as (v & w' & Hx & Hv); [done..|].
    exists v, w'. split; [by apply exits_small|done].
  - destruct (attempt_runs b w Hact Hi Ha Hfit) as (b' & Ha' & Hl & Hm & E).
    destruct (efi_exit_boot_services (image_handle_cell w) (map_key (current_meta w)) w) as [s1 w1] eqn:Ex.
    rewrite (fw_bind_Ret _ _ _ _ _ E). cbv beta iota. destruct (Z.eqb_spec s1 0) as [->|Hs1].
    + destruct (owned_map_runs b' w) as (k & Ek & Hwf); [congruence|lia|]. rewrite Ek, fw_bind_lift.
      destruct (exit_accepted _ _ _ _ Ex) as [Hoff Hk]. exists (Left_at w), w1.
      split; [by apply exits_accepted|]. do 2 (split; [done|]). eexists. split; [done|]. do 2 (split; [done|]). split; [exact Hm|done].
    + destruct (exit_rejected _ _ _ _ _ Ex Hs1) as [[Hk Hb] Hst]. injection Hst as Hsi Hsr Hsl.
      rewrite (fw_bind_Ret _ _ w1 tt w1) by (apply logger_log_disabled; congruence). cbn [err_status].
      destruct (IH b' w1 s1) as (v & w' & Hx & Hk' & Hv); [congruence..|].
      rewrite Hsi, Hl in Hx. exists v, w'. split; [by eapply exits_rejected|].
      split; [by transitivity w1|]. destruct v; [|done]. by rewrite <- Ha', <- Hl.
Qed.

(** *** The statics are left alone *)

Definition same_statics (w w' : W) : Prop := statics w' = statics w.

#[local] Instance same_statics_preorder : PreOrder same_statics.
Proof. split; unfold same_statics; repeat intro; congruence. Qed.

#[local] Hint Extern 1 (stable same_statics (call (efi_get_memory_map ?n))) =>
  (apply stable_call; intros w; destruct (Z_lt_le_dec n (map_size (current_meta w)));
     [by rewrite get_map_small|by rewrite get_map_fits]) : stable.
#[local] Hint Extern 1 (stable same_statics (call (efi_allocate_pool ?mt ?n))) =>
  (apply stable_call; intros w; destruct (efi_allocate_pool mt n w) as [[s p] w'] eqn:E;
     exact (pool_statics _ _ _ _ _ _ E)) : stable.

Lemma boot_stable : stable same_statics boot_services_raw_panicking.
Proof. intros w [] w'. unfold boot_services_raw_panicking. case_match; [|done]. intros [= <-]. reflexivity. Qed.
#[local] Hint Resolve boot_stable : stable.

Lemma backing_new_stable mt : stable same_statics (backing_new mt).
Proof.
  unfold backing_new, memory_map_size, allocate_pool. repeat stable_step.
  intros w b w' E. by eapply (stable_lift same_statics).
Qed.

(** C8: [exit_boot_services] refines the protocol [exits] with two attempts: it
    returns a well-formed map that the firmware gave in the state in which it
    accepted the exit, with the boot services ended, one block of memory more in
    use and nothing left to do when the map is dropped; or it resets the machine
    with the status of the second failure.  It panics exactly when there is no
    memory for the map.  The logger is disabled throughout. *)
Theorem exit_boot_services_refines (mt : option Z) (w : W) :
  boot_active w = true -> image_handle_cell w <> 0 -> runtime_active w = true ->
  let w0 := set_logger_cell 0 w in
  exists r w1, backing_new (default MemoryType_LOADER_DATA mt) w0 = Ret (r, w1) /\
  match r with
  | Err _ => exit_boot_services mt w = Panic UnwrapFailed
  | Ok b =>
      let n := zlen (bytes b) in
      exists v w', exits (image_handle_cell w) n 2 Status.ABORTED w1 v w' /\
        acquires live (Pool (addr b) n) w w' /\
        match v with
        | Left_at wl => boot_active w' = false /\
            exists m, exit_boot_services mt w = Ret (Returns m, w') /\ exited n (addr b) wl m /\
              backing_drop (buffer m) w' = Ret (tt, w')
        | Gave_up s => exit_boot_services mt w = Ret (ResetSystem ResetType.COLD s 0 [], w')
        end
  end.
Proof.
  intros Hact Hi Hrt w0. destruct (logger_laws 0 w) as [[Hk0 Ha0] Hst]. fold w0 in Hk0, Ha0, Hst.
  destruct (backing_new_runs (default MemoryType_LOADER_DATA mt) w0) as (r & w1 & E & Hr); [congruence|].
  exists r, w1. split; [done|]. pose proof (backing_new_stable _ _ _ _ E) as Hst1. red in Hst1.
  rewrite Hst in Hst1. injection Hst1 as Hi1 Hrt1 Hl1.
  assert (exit_boot_services mt w = (lift (unwrap_result r) ≫= exit_attempts 2 Status.ABORTED) w1) as ->.
  { unfold exit_boot_services, helpers_exit, logger_disable, logger_set_output. rewrite fw_bind_call. cbn [fst snd].
    fold w0. by rewrite (fw_bind_Ret _ _ _ _ _ E). }
  destruct r as [b|e]; [|done]. cbn [unwrap_result]. rewrite fw_bind_lift. destruct Hr as (Hl & Ha & [A Hb]).
  destruct (current_meta_sane w0) as (Hm & _). pose proof (sane_desc_size w0).
  destruct (attempts_run 2 b w1 Status.ABORTED) as (v & w' & Hx & Hk & Hv);
    [congruence..|by rewrite Hl; unfold ONE_GB, isize_MAX in *; lia|].
  rewrite Hi1 in Hx. exists v, w'. split; [done|]. split; [by rewrite <- Hk, Hk0, Hl|].
  destruct v; [|done]. destruct Hv as (Hoff & m & Em & Hmm). split; [done|]. exists m. do 2 (split; [done|]).
  unfold backing_drop, are_boot_services_active. by rewrite (fw_bind_Ret _ _ w' false w') by by rewrite Hoff.
Qed.
End exit_properties.

(** ** A firmware that rejects the first attempts

    [stale] counts the attempts that come with a stale key. *)
Module Exits.
Record t : Type := mk { base : machine; stale : nat; logger : Z }.

Definition with_base (m : machine) (w : t) : t := mk m (stale w) (logger w).

#[global] Instance boot_services : BootServices t := lift_boot_services base with_base.
#[global] Instance blocks : Blocks t := lift_blocks base.
#[global] Instance memory_laws : MemoryLaws t := lift_memory_laws base with_base (fun _ _ => eq_refl).

#[global, refine] Instance map_laws : MapLaws t :=
  {| current_meta _ := Machine.map_meta; current_map _ := Machine.descriptors |}.
Proof.
  - done.
  - intros n [[] ? ?] Hn. cbn. unfold lift_call. cbn in *. by rewrite (proj2 (Z.ltb_lt _ _)).
  - intros n [[] ? ?] Hn. cbn. unfold lift_call. cbn in *. by rewrite (proj2 (Z.ltb_ge _ _)).
  - intros w. exact (current_meta_sane (base w)).
  - intros a n w. exact (contents_size a n (base w)).
Defined.

Definition unsupported {A} (a : A) (w : t) : (Z * A) * t := ((Status.UNSUPPORTED, a), w).
Definition unsupported2 {A B} (a : A) (b : B) (w : t) : (Z * A * B) * t := ((Status.UNSUPPORTED, a, b), w).

#[global] Instance protocol_services : ProtocolServices t := {|
  image_handle_cell _ := 1;
  set_image_handle_cell _ w := w;
  memory_at _ _ := [];
  efi_open_protocol _ _ _ _ _ := unsupported 0;
  efi_close_protocol _ _ _ _ w := (Status.UNSUPPORTED, w);
  efi_locate_handle _ _ _ _ := unsupported2 0 [];
  efi_locate_handle_buffer _ _ _ := unsupported2 0 0;
  efi_protocols_per_handle _ := unsupported2 0 0;
  efi_locate_device_path _ _ := unsupported2 0 0;
  efi_install_protocol_interface _ _ _ _ := unsupported 0;
  efi_reinstall_protocol_interface _ _ _ _ w := (Status.UNSUPPORTED, w);
  efi_uninstall_protocol_interface _ _ _ w := (Status.UNSUPPORTED, w);
  efi_register_protocol_notify _ _ := unsupported 0;
  efi_connect_controller _ _ _ _ w := (Status.UNSUPPORTED, w);
  efi_disconnect_controller _ _ _ w := (Status.UNSUPPORTED, w);
|}.

Definition no_time : Time := mkTime 0 0 0 0 0 0 0 0 0 0 0.

#[global] Instance runtime_services : RuntimeServices t := {|
  runtime_active _ := true;
  rt_revision _ := EFI_2_00;
  efi_get_time _ := unsupported2 no_time (mkTimeCapabilities 0 0 0);
  efi_set_time _ w := (Status.UNSUPPORTED, w);
  efi_get_variable _ _ _ w := ((Status.UNSUPPORTED, 0, 0, []), w);
  efi_get_next_variable_name _ _ _ w := ((Status.UNSUPPORTED, 0, [], 0), w);
  efi_set_variable _ _ _ _ w := (Status.UNSUPPORTED, w);
  efi_query_variable_info _ := unsupported (mkVariableStorageInfo 0 0 0);
  efi_update_capsule _ _ _ w := (Status.UNSUPPORTED, w);
  efi_query_capsule_capabilities _ _ := unsupported (mkCapsuleInfo 0 0);
  efi_set_virtual_address_map _ _ _ _ w := (Status.UNSUPPORTED, w);
  set_system_table _ w := w;
|}.

Definition end_boot (m : machine) : machine := mkMachine (m_pages m) (m_pools m) (m_words m) (m_cell m) false.

#[global] Instance services : ExitServices t := {|
  efi_exit_boot_services _ k w :=
    match stale w with
    | S n => (Status.INVALID_PARAMETER, mk (base w) n (logger w))
    | O => if k =? map_key Machine.map_meta then (0, mk (end_boot (base w)) 0 (logger w))
           else (Status.INVALID_PARAMETER, w)
    end;
  logger_cell := logger;
  set_logger_cell x w := mk (base w) (stale w) x;
  log_output _ w := w;
|}.

#[global] Instance laws : ExitLaws t.
Proof.
  split.
  - intros h k w w'. cbn. repeat case_match; intros [= <-]. by split.
  - intros h k w s w'. cbn. repeat case_match; intros [= <- <-] Hs; done.
  - intros mt n w s p w' E. cbn in E. unfold lift_call in E. destruct (Machine.allocate_pool n (base w)). by injection E as _ <-.
  - done.
Qed.

Definition initial (n : nat) : t := mk Machine.initial n 7.
End Exits.

(** After one stale key the services are left with a map of two descriptors. *)
Lemma exit_boot_services_refines_witness :
  exists m w', exit_boot_services (H := debug_profile) None (Exits.initial 1) = Ret (Returns m, w') /\
    wf_map m /\ len m = 2 /\ boot_active w' = false.
Proof.
  assert (omap (fun r => match r.1 with Returns m => Some (len m) | _ => None end)
    (exit_boot_services (H := debug_profile) None (Exits.initial 1)) = Ret (Some 2)) as Hev by (by vm_compute).
  destruct (exit_boot_services_refines (H := debug_profile) None (Exits.initial 1)) as (r & w1 & _ & Hr);
    [reflexivity|discriminate|reflexivity|].
  destruct r as [b|e]; [|rewrite Hr in Hev; discriminate Hev].
  destruct Hr as (v & w' & _ & _ & Hv). destruct v as [wl|s]; [|rewrite Hv in Hev; discriminate Hev].
  destruct Hv as (Hoff & m & E & Hm & _). rewrite E in Hev. exists m, w'.
  split; [exact E|]. split; [apply Hm|]. split; [by injection Hev|exact Hoff].
Defined.

(** After two the machine is reset, with the status of the second. *)
Example exit_boot_services_resets :
  omap fst (exit_boot_services (H := debug_profile) None (Exits.initial 2)) =
    Ret (ResetSystem ResetType.COLD Status.INVALID_PARAMETER 0 []).
Proof. by vm_compute. Qed.
