(* ===== verification/BootEvents.v ===== *)
(** * Events, timers, priorities and images

    The remaining functions of [uefi/src/boot.rs]: task priority levels with their
    guard, events and timers, loading and starting images, configuration tables,
    the watchdog, stalling and checksums; [BootPolicy] of
    [uefi/src/proto/boot_policy.rs].  Events, handles and functions are addresses;
    [bt_revision] is the revision in the header of the table. *)
From stdpp Require Import gmap.
From S2P Require Import Prelude Firmware Status BootMemory LoadedImage Time Runtime.

Class EventServices (W : Type) : Type := {
  bt_revision : W -> Z;
  efi_raise_tpl : Z -> W -> Z * W;
  efi_restore_tpl : Z -> W -> W;
  efi_create_event : Z -> Z -> Z -> Z -> W -> (Z * Z) * W;
  efi_create_event_ex : Z -> Z -> Z -> Z -> Z -> W -> (Z * Z) * W;
  efi_check_event : Z -> W -> Z * W;
  efi_signal_event : Z -> W -> Z * W;
  efi_close_event : Z -> W -> Z * W;
  efi_set_timer : Z -> Z -> Z -> W -> Z * W;
  efi_wait_for_event : list Z -> W -> (Z * Z) * W;
  efi_load_image : Z -> Z -> Z -> Z -> Z -> W -> (Z * Z) * W;
  efi_unload_image : Z -> W -> Z * W;
  efi_start_image : Z -> W -> Z * W;
  efi_install_configuration_table : Z -> Z -> W -> Z * W;
  efi_set_watchdog_timer : Z -> Z -> Z -> Z -> W -> Z * W;
  efi_stall : Z -> W -> Z * W;
  efi_calculate_crc32 : list Z -> W -> (Z * Z) * W;
}.

(** [opt_nonnull_to_ptr], and the address of an optional function. *)
Definition opt_nonnull_to_ptr (ptr : option Z) : Z := default 0 ptr.

Module Tpl.
Definition APPLICATION : Z := 4.
Definition CALLBACK : Z := 8.
Definition NOTIFY : Z := 16.
Definition HIGH_LEVEL : Z := 31.
End Tpl.

Module EventType.
Definition TIMER : Z := 0x80000000.
Definition RUNTIME : Z := 0x40000000.
Definition NOTIFY_WAIT : Z := 0x100.
Definition NOTIFY_SIGNAL : Z := 0x200.
Definition SIGNAL_EXIT_BOOT_SERVICES : Z := 0x201.
Definition SIGNAL_VIRTUAL_ADDRESS_CHANGE : Z := 0x60000202.
End EventType.

Module TimerDelay.
Definition CANCEL : Z := 0.
Definition PERIODIC : Z := 1.
Definition RELATIVE : Z := 2.
End TimerDelay.

Record TplGuard : Set := mkTplGuard { old_tpl : Z }.

Inductive TimerTrigger : Set :=
| Cancel
| Periodic (period : Z)
| Relative (delay : Z).

Inductive BootPolicy : Set := BootSelection | ExactMatch.

Definition BootPolicy_default : BootPolicy := ExactMatch.

(** [From<BootPolicy> for Boolean] and [From<Boolean> for BootPolicy]; a
    [Boolean] is a byte. *)
Definition boolean_of_policy (value : BootPolicy) : Z :=
  match value with BootSelection => 1 | ExactMatch => 0 end.
Definition policy_of_boolean (value : Z) : BootPolicy :=
  if value =? 0 then ExactMatch else BootSelection.

(** A buffer is its address and its length, a device path its address. *)
Inductive LoadImageSource : Set :=
| FromBuffer (buffer len : Z) (file_path : option Z)
| FromDevicePath (device_path : Z) (boot_policy : BootPolicy).

Definition to_ffi_params (self : LoadImageSource) : BootPolicy * Z * Z * Z :=
  match self with
  | FromBuffer buffer len file_path => (BootPolicy_default, default 0 file_path, buffer, len)
  | FromDevicePath device_path boot_policy => (boot_policy, device_path, 0, 0)
  end.

(** [Duration]: seconds and nanoseconds below one second. *)
Record Duration : Set := mkDuration { d_secs : Z; d_nanos : Z }.

(** [Duration::as_micros], a [u128]. *)
Definition as_micros (d : Duration) : Z := d_secs d * 1000000 + d_nanos d / 1000.

Section events.
Context {W : Type} `{!BootServices W, !EventServices W}.

(** ** Priority levels *)

Definition raise_tpl (tpl : Z) : fw W TplGuard :=
  boot_services_raw_panicking;;
  old ← call (efi_raise_tpl tpl);
  mret (mkTplGuard old).

Definition tpl_guard_drop (self : TplGuard) : fw W unit :=
  boot_services_raw_panicking;;
  call (fun w => (tt, efi_restore_tpl (old_tpl self) w)).

(** ** Events *)

(** [Event::from_ptr(event).unwrap()], evaluated for a success only. *)
Definition event_result (status event : Z) : outcome (uresult Z unit) :=
  let! r := to_result status in
  match r with
  | Ok _ => let! event := unwrap (handle_from_ptr event) in Ret (Ok event)
  | Err e => Ret (Err e)
  end.

Definition create_event (event_ty notify_tpl : Z) (notify_fn notify_ctx : option Z) : fw W (uresult Z unit) :=
  boot_services_raw_panicking;;
  '(status, event) ← call (efi_create_event event_ty notify_tpl (opt_nonnull_to_ptr notify_fn)
    (opt_nonnull_to_ptr notify_ctx));
  lift (event_result status event).

Definition create_event_ex (event_type notify_tpl : Z) (notify_fn notify_ctx event_group : option Z)
  : fw W (uresult Z unit) :=
  boot_services_raw_panicking;;
  revision ← call (fun w => (bt_revision w, w));
  if revision <? EFI_2_00 then
    e ← lift (error_from_status Status.UNSUPPORTED); mret (Err e)
  else
    '(status, event) ← call (efi_create_event_ex event_type notify_tpl (opt_nonnull_to_ptr notify_fn)
      (opt_nonnull_to_ptr notify_ctx) (opt_nonnull_to_ptr event_group));
    lift (event_result status event).

Definition check_event (event : Z) : fw W (uresult bool unit) :=
  boot_services_raw_panicking;;
  status ← call (efi_check_event event);
  if status =? Status.SUCCESS then mret (Ok true)
  else if status =? Status.NOT_READY then mret (Ok false)
  else e ← lift (error_from_status status); mret (Err e).

Definition signal_event (event : Z) : fw W (uresult unit unit) :=
  boot_services_raw_panicking;;
  status ← call (efi_signal_event event);
  lift (to_result status).

Definition close_event (event : Z) : fw W (uresult unit unit) :=
  boot_services_raw_panicking;;
  status ← call (efi_close_event event);
  lift (to_result status).

Definition set_timer (event : Z) (trigger_time : TimerTrigger) : fw W (uresult unit unit) :=
  boot_services_raw_panicking;;
  let (ty, time) := match trigger_time with
    | Cancel => (TimerDelay.CANCEL, 0)
    | Periodic period => (TimerDelay.PERIODIC, period)
    | Relative delay => (TimerDelay.RELATIVE, delay)
    end in
  status ← call (efi_set_timer event ty time);
  lift (to_result status).

Definition wait_for_event (events : list Z) : fw W (uresult Z (option Z)) :=
  boot_services_raw_panicking;;
  '(status, index) ← call (efi_wait_for_event events);
  lift (to_result_with status index
    (fun s => if s =? Status.INVALID_PARAMETER then Some index else None)).

(** ** Images *)

Definition load_image (parent_image_handle : Z) (source : LoadImageSource) : fw W (uresult Z unit) :=
  boot_services_raw_panicking;;
  let '(boot_policy, device_path, source_buffer, source_size) := to_ffi_params source in
  '(status, image_handle) ← call (efi_load_image (boolean_of_policy boot_policy) parent_image_handle
    device_path source_buffer source_size);
  lift (event_result status image_handle).

Definition unload_image (image_handle : Z) : fw W (uresult unit unit) :=
  boot_services_raw_panicking;;
  status ← call (efi_unload_image image_handle);
  lift (to_result status).

(** The exit data is ignored. *)
Definition start_image (image_handle : Z) : fw W (uresult unit unit) :=
  boot_services_raw_panicking;;
  status ← call (efi_start_image image_handle);
  lift (to_result status).

(** ** Miscellaneous *)

Definition install_configuration_table (guid_entry table_ptr : Z) : fw W (uresult unit unit) :=
  boot_services_raw_panicking;;
  status ← call (efi_install_configuration_table guid_entry table_ptr);
  lift (to_result status).

(** The data is its address and its units. *)
Definition set_watchdog_timer (timeout_in_seconds watchdog_code : Z) (data : option (Z * list Z))
  : fw W (uresult unit unit) :=
  boot_services_raw_panicking;;
  '(data_len, data) ← lift (match data with
    | Some (ptr, d) =>
        let! _ := assert_ (bool_decide (0 ∈ d)) in
        Ret (zlen d, ptr)
    | None => Ret (0, 0)
    end);
  status ← call (efi_set_watchdog_timer timeout_in_seconds watchdog_code data_len data);
  lift (to_result status).

(** [as_micros() as usize] truncates; the status is ignored. *)
Definition stall (duration : Duration) : fw W unit :=
  boot_services_raw_panicking;;
  let microseconds := as_micros duration mod 2 ^ usize_bits in
  _ ← call (efi_stall microseconds);
  mret tt.

Definition calculate_crc32 (data : list Z) : fw W (uresult Z unit) :=
  boot_services_raw_panicking;;
  '(status, crc) ← call (efi_calculate_crc32 data);
  lift (to_result_with_val status crc).
End events.

(** ** Properties

    What the specification documents of events without a notification function:
    [event_state w e] says whether the event [e] is signalled, and is [None] when
    there is no such event. *)
Definition same_level `{!BootServices W} (level : W -> Z) (w w' : W) : Prop :=
  level w' = level w /\ boot_active w' = boot_active w.

Definition event_set {W} (state : W -> Z -> option bool) (e : Z) (o : option bool) (w w' : W) : Prop :=
  forall c, state w' c = if decide (c = e) then o else state w c.

(** The first signalled event of a list. *)
Fixpoint first_signalled {W} (state : W -> Z -> option bool) (w : W) (events : list Z) : option nat :=
  match events with
  | [] => None
  | e :: events => if decide (state w e = Some true) then Some O else S <$> first_signalled state w events
  end.

Class EventLaws (W : Type) `{!BootServices W, !EventServices W} : Type := {
  event_state : W -> Z -> option bool;
  tpl_level : W -> Z;
  create_law : forall ty tpl w s e w', Z.land ty 0x300 = 0 -> efi_create_event ty tpl 0 0 w = ((s, e), w') ->
    same_level tpl_level w w' /\
    if s =? 0 then e <> 0 /\ event_state w e = None /\ event_set event_state e (Some false) w w'
    else forall c, event_state w' c = event_state w c;
  signal_law : forall e b w, event_state w e = Some b -> exists w', efi_signal_event e w = (0, w') /\
    same_level tpl_level w w' /\ event_set event_state e (Some true) w w';
  check_law : forall e b w, event_state w e = Some b -> exists w',
    efi_check_event e w = (if b then 0 else Status.NOT_READY, w') /\
    same_level tpl_level w w' /\ event_set event_state e (Some false) w w';
  close_law : forall e b w, event_state w e = Some b -> exists w', efi_close_event e w = (0, w') /\
    same_level tpl_level w w' /\ event_set event_state e None w w';
  wait_law : forall events w i e, tpl_level w = Tpl.APPLICATION -> (forall e, e ∈ events -> is_Some (event_state w e)) ->
    first_signalled event_state w events = Some i -> events !! i = Some e ->
    exists w', efi_wait_for_event events w = ((0, Z.of_nat i), w') /\
      same_level tpl_level w w' /\ event_set event_state e (Some false) w w';
  wait_level : forall events w, tpl_level w <> Tpl.APPLICATION ->
    exists i, efi_wait_for_event events w = ((Status.UNSUPPORTED, i), w);
  raise_law : forall tpl w, tpl_level w <= tpl -> exists w', efi_raise_tpl tpl w = (tpl_level w, w') /\
    tpl_level w' = tpl /\ boot_active w' = boot_active w /\ forall c, event_state w' c = event_state w c;
  restore_law : forall tpl w, tpl <= tpl_level w ->
    tpl_level (efi_restore_tpl tpl w) = tpl /\ boot_active (efi_restore_tpl tpl w) = boot_active w /\
    forall c, event_state (efi_restore_tpl tpl w) c = event_state w c;
}.

Section event_properties.
Context {W : Type} `{!BootServices W, !EventServices W, !EventLaws W}.

(** [body] at a raised priority level. *)
Definition with_tpl {A} (tpl : Z) (body : fw W A) : fw W A :=
  guard ← raise_tpl tpl;
  r ← body;
  tpl_guard_drop guard;;
  mret r.

Definition at_level (l : Z) (w : W) : Prop := tpl_level w = l /\ boot_active w = true.

Lemma with_tpl_runs {A} tpl (body : fw W A) l w (Q : A -> W -> Prop) :
  at_level l w -> l <= tpl ->
  (forall w1, at_level tpl w1 -> (forall c, event_state w1 c = event_state w c) ->
    runs body w1 (fun r w2 => at_level tpl w2 /\
      forall w3, (forall c, event_state w3 c = event_state w2 c) -> at_level l w3 -> Q r w3)) ->
  runs (with_tpl tpl body) w Q.
Proof.
  intros [Hl Hact] Hle Hb. unfold with_tpl, raise_tpl, tpl_guard_drop. repeat runs_step.
  eapply runs_eq; [unfold boot_services_raw_panicking; by rewrite Hact|]. do 2 runs_step.
  destruct (raise_law tpl w) as (w1 & E & Hl1 & Ha1 & He1); [lia|]. rewrite E. cbn [fst snd old_tpl].
  repeat runs_step. eapply runs_weaken; [apply Hb; [split; congruence|done]|].
  intros r w2 [[Hl2 Ha2] HQ]. repeat runs_step.
  eapply runs_eq; [unfold boot_services_raw_panicking; by rewrite Ha2|]. repeat runs_step.
  destruct (restore_law l w2) as (Hl3 & Ha3 & He3); [lia|]. rewrite Hl.
  cbn [old_tpl]. apply HQ; [done|split; congruence].
Qed.

(** A client: an event is created, signalled at a raised level, waited for, polled
    and closed. *)
Definition handshake (ty tpl : Z) :=
  try e <- create_event ty 0 None None;
  early ← with_tpl tpl (_ ← signal_event e; wait_for_event [e]);
  late ← wait_for_event [e];
  polled ← check_event e;
  closed ← close_event e;
  mret (Ok (early, late, polled, closed)).

Lemma runs_active {A} (k : unit -> fw W A) l w Q :
  at_level l w -> runs (k tt) w Q -> runs (boot_services_raw_panicking ≫= k) w Q.
Proof.
  intros [_ Hact] Hk. runs_step. eapply runs_eq; [unfold boot_services_raw_panicking; by rewrite Hact|done].
Qed.

Lemma signal_runs e b l w :
  at_level l w -> event_state w e = Some b ->
  runs (signal_event e) w (fun r w' => r = Ok tt /\ at_level l w' /\ event_set event_state e (Some true) w w').
Proof.
  intros Hl He. eapply runs_active; [done|]. destruct (signal_law e b w He) as (w' & E & [L1 L2] & S).
  repeat runs_step. rewrite E. cbn [fst snd]. rewrite to_result_cases. runs_step. destruct Hl. split; [done|].
  split; [split; congruence|done].
Qed.

Lemma check_runs e b l w :
  at_level l w -> event_state w e = Some b ->
  runs (check_event e) w (fun r w' => r = Ok b /\ at_level l w' /\ event_set event_state e (Some false) w w').
Proof.
  intros Hl He. eapply runs_active; [done|]. destruct (check_law e b w He) as (w' & E & [L1 L2] & S).
  repeat runs_step. rewrite E. cbn [fst snd]. destruct Hl. destruct b;
    [change (0 =? Status.SUCCESS) with true|change (Status.NOT_READY =? Status.SUCCESS) with false; rewrite Z.eqb_refl];
    cbv iota; runs_step; (split; [done|]); (split; [split; congruence|done]).
Qed.

Lemma close_runs e b l w :
  at_level l w -> event_state w e = Some b ->
  runs (close_event e) w (fun r w' => r = Ok tt /\ at_level l w' /\ event_set event_state e None w w').
Proof.
  intros Hl He. eapply runs_active; [done|]. destruct (close_law e b w He) as (w' & E & [L1 L2] & S).
  repeat runs_step. rewrite E. cbn [fst snd]. rewrite to_result_cases. runs_step. destruct Hl. split; [done|].
  split; [split; congruence|done].
Qed.

Lemma wait_raised events l w :
  at_level l w -> l <> Tpl.APPLICATION ->
  runs (wait_for_event events) w (fun r w' => r = Err (mkError Status.UNSUPPORTED None) /\ w' = w).
Proof.
  intros Hl Hne. eapply runs_active; [done|]. destruct (wait_level events w) as (i & E); [by destruct Hl; congruence|].
  repeat runs_step. rewrite E. cbn [fst snd]. by runs_step.
Qed.

Lemma wait_runs e w :
  at_level Tpl.APPLICATION w -> event_state w e = Some true ->
  runs (wait_for_event [e]) w (fun r w' => r = Ok 0 /\ at_level Tpl.APPLICATION w' /\ event_set event_state e (Some false) w w').
Proof.
  intros Hl He. eapply runs_active; [done|].
  destruct (wait_law [e] w 0 e) as (w' & E & [L1 L2] & S); [apply Hl|by intros c ->%list_elem_of_singleton; rewrite He| |done|].
  { cbn. by rewrite decide_True. }
  repeat runs_step. rewrite E. cbn [fst snd]. runs_step. destruct Hl. split; [done|]. split; [split; congruence|done].
Qed.

(** C25: An event that is signalled at a raised level cannot be waited for there, and
    the failure carries no index; once the guard is dropped the wait returns its
    index and resets it, so that polling finds it unsignalled; closing it leaves
    the events and the priority level as they were. *)
Theorem event_lifecycle (ty tpl : Z) (w : W) :
  Z.land ty 0x300 = 0 -> boot_active w = true -> tpl_level w = Tpl.APPLICATION -> Tpl.APPLICATION < tpl ->
  exists r w', handshake ty tpl w = Ret (r, w') /\ at_level Tpl.APPLICATION w' /\
    (forall c, event_state w' c = event_state w c) /\
    forall x, r = Ok x -> x = (Err (mkError Status.UNSUPPORTED None), Ok 0, Ok false, Ok tt).
Proof.
  intros Hty Hact Hlev Htpl. assert (at_level Tpl.APPLICATION w) as Hl by done.
  unfold handshake, create_event. apply runs_try. eapply runs_active; [done|]. repeat runs_step.
  destruct (efi_create_event ty 0 0 0 w) as [[s e] w1] eqn:E.
  destruct (create_law _ _ _ _ _ _ Hty E) as [[L1 L2] Hc]. cbn [opt_nonnull_to_ptr default]. change (id 0) with 0. rewrite E. cbn [fst snd].
  unfold event_result. rewrite to_result_cases. cbn [obind]. assert (at_level Tpl.APPLICATION w1) as Hl1 by (split; congruence).
  destruct (s =? 0); [|by runs_step]. destruct Hc as (He & Hnone & S1). unfold handle_from_ptr.
  rewrite (proj2 (Z.eqb_neq _ _)) by done. runs_step.
  assert (event_state w1 e = Some false) as Hs1 by (by rewrite (S1 e), decide_True).
  cbv iota. runs_step. apply (with_tpl_runs tpl _ Tpl.APPLICATION); [done|lia|]. intros w2 Hl2 He2. runs_step.
  eapply runs_weaken; [eapply signal_runs; [exact Hl2|by rewrite He2]|]. intros r w3 (_ & Hl3 & S3).
  eapply runs_weaken; [eapply wait_raised; [exact Hl3|lia]|]. intros r2 ? [-> ->]. split; [done|].
  intros w4 He4 Hl4. runs_step.
  eapply runs_weaken; [apply wait_runs; [done|by rewrite He4, (S3 e), decide_True]|]. intros ? w5 (-> & Hl5 & S5). runs_step.
  eapply runs_weaken; [eapply check_runs; [done|by rewrite (S5 e), decide_True]|]. intros ? w6 (-> & Hl6 & S6). runs_step.
  eapply runs_weaken; [eapply close_runs; [done|by rewrite (S6 e), decide_True]|]. intros ? w7 (-> & Hl7 & S7). runs_step.
  split; [done|]. split; [|by intros ? [= <-]].
  intros c. rewrite (S7 c). case_decide as Hc; [by rewrite Hc|].
  by rewrite (S6 c), decide_False, (S5 c), decide_False, He4, (S3 c), decide_False, He2, (S1 c), decide_False.
Qed.
End event_properties.

(** ** An in-memory event table *)
Module Events.
Record t : Type := mk { base : machine; table : gmap Z bool; level : Z }.

Definition with_base (m : machine) (w : t) : t := mk m (table w) (level w).
Definition with_table (e : gmap Z bool) (w : t) : t := mk (base w) e (level w).

#[global] Instance boot_services : BootServices t := lift_boot_services base with_base.

Definition state (w : t) (e : Z) : option bool := table w !! e.

(** A number that is not in use. *)
Definition unused (m : gmap Z bool) : Z := map_fold (fun e _ r => (e + 1) `max` r) 1 m.

Lemma unused_spec m : 0 < unused m /\ forall e b, m !! e = Some b -> e < unused m.
Proof.
  unfold unused. apply (map_fold_weak_ind (fun r m => 0 < r /\ forall e b, m !! e = Some b -> e < r)).
  - split; [lia|]. intros e b. by rewrite lookup_empty.
  - intros e b m' r _ [Hr IH]. split; [lia|]. intros e' b'. rewrite lookup_insert_Some.
    intros [[-> _]|[_ H]]; [lia|]. apply IH in H. lia.
Qed.

Definition wait (events : list Z) (w : t) : (Z * Z) * t :=
  if decide (level w = Tpl.APPLICATION) then
    match first_signalled state w events with
    | Some i => ((0, Z.of_nat i), with_table (<[nth i events 0 := false]> (table w)) w)
    | None => ((Status.INVALID_PARAMETER, 0), w)
    end
  else ((Status.UNSUPPORTED, 0), w).

Definition on_event (e : Z) (w : t) (f : bool -> Z * t) : Z * t :=
  match table w !! e with Some b => f b | None => (Status.INVALID_PARAMETER, w) end.

#[global] Instance services : EventServices t := {|
  bt_revision _ := EFI_2_00;
  efi_raise_tpl l w := (level w, mk (base w) (table w) l);
  efi_restore_tpl l w := mk (base w) (table w) l;
  efi_create_event _ _ _ _ w := let e := unused (table w) in ((0, e), with_table (<[e := false]> (table w)) w);
  efi_create_event_ex _ _ _ _ _ w := ((Status.UNSUPPORTED, 0), w);
  efi_check_event e w := on_event e w (fun b =>
    (if b then 0 else Status.NOT_READY, with_table (<[e := false]> (table w)) w));
  efi_signal_event e w := on_event e w (fun _ => (0, with_table (<[e := true]> (table w)) w));
  efi_close_event e w := on_event e w (fun _ => (0, with_table (delete e (table w)) w));
  efi_set_timer _ _ _ w := (Status.UNSUPPORTED, w);
  efi_wait_for_event := wait;
  efi_load_image _ _ _ _ _ w := ((Status.UNSUPPORTED, 0), w);
  efi_unload_image _ w := (Status.UNSUPPORTED, w);
  efi_start_image _ w := (Status.UNSUPPORTED, w);
  efi_install_configuration_table _ _ w := (Status.UNSUPPORTED, w);
  efi_set_watchdog_timer _ _ _ _ w := (Status.UNSUPPORTED, w);
  efi_stall _ w := (0, w);
  efi_calculate_crc32 _ w := ((Status.UNSUPPORTED, 0), w);
|}.

Lemma insert_set e b w : event_set state e (Some b) w (with_table (<[e := b]> (table w)) w).
Proof. intros c. unfold state. cbn. case_decide as Hc; [subst; by rewrite lookup_insert_eq|by rewrite lookup_insert_ne]. Qed.

Lemma delete_set e w : event_set state e None w (with_table (delete e (table w)) w).
Proof. intros c. unfold state. cbn. case_decide as Hc; [subst; by rewrite lookup_delete_eq|by rewrite lookup_delete_ne]. Qed.

#[global, refine] Instance laws : EventLaws t := {| event_state := state; tpl_level := level |}.
Proof.
  - intros ty tpl w s e w' _. cbn. intros [= <- <- <-]. destruct (unused_spec (table w)) as [H0 Hu].
    split; [done|]. cbn [Z.eqb]. split; [lia|]. split; [|apply insert_set].
    unfold state. destruct (table w !! unused (table w)) as [b|] eqn:E; [|done]. apply Hu in E. lia.
  - intros e b w He. cbn. unfold on_event. unfold state in He. rewrite He. eexists. split; [done|]. split; [done|apply insert_set].
  - intros e b w He. cbn. unfold on_event. unfold state in He. rewrite He. eexists. split; [done|]. split; [done|apply insert_set].
  - intros e b w He. cbn. unfold on_event. unfold state in He. rewrite He. eexists. split; [done|]. split; [done|apply delete_set].
  - intros events w i e Hl _ Hf Hi. cbn. unfold wait. rewrite decide_True, Hf by done. eexists. split; [done|].
    split; [done|]. rewrite nth_lookup, Hi. apply insert_set.
  - intros events w Hl. cbn. unfold wait. rewrite decide_False by done. eauto.
  - intros tpl w _. eexists. by split.
  - done.
Defined.

Definition initial : t := mk Machine.initial {[ 5 := true ]} Tpl.APPLICATION.
End Events.

Lemma event_lifecycle_witness :
  exists w', handshake 0 Tpl.NOTIFY Events.initial =
    Ret (Ok (Err (mkError Status.UNSUPPORTED None), Ok 0, Ok false, Ok tt), w') /\
    event_state w' 5 = Some true /\ event_state w' 6 = None.
Proof.
  assert (omap (fun r => is_ok r.1) (handshake 0 Tpl.NOTIFY Events.initial) = Ret true) as Hev by (by vm_compute).
  destruct (event_lifecycle 0 Tpl.NOTIFY Events.initial) as (r & w' & E & _ & He & Hr); [reflexivity..|].
  rewrite E in Hev. destruct r as [x|f]; [|discriminate Hev]. exists w'. rewrite (Hr x eq_refl) in E.
  split; [exact E|]. split; rewrite He; reflexivity.
Defined.
