(* ===== verification/FileInfo.v ===== *)
(** * File information structures

    [uefi/src/proto/media/file/info.rs]: [FileInfo], [FileSystemInfo] and
    [FileSystemVolumeLabel], dynamically sized structs with a header of fixed
    layout followed by a NUL-terminated UCS-2 name.  A reference to such a
    struct is the memory it points to and the length of its name. *)
From S2P Require Import Prelude Chars Strs Status.

(** ** Data *)

Inductive FileInfoCreationError : Set := InsufficientStorage (bytes : Z).

(** The traits [Align], [Identify] and [InfoInternal]: what is known of each
    info type before a value exists. *)
Class InfoInternal : Type := {
  info_GUID : list Z;
  info_alignment : Z;
  name_offset : Z;
}.

(** A (fat) reference to an info struct. *)
Record InfoRef : Set := mkInfoRef { info_mem : Buffer; name_len : Z }.

#[export] Instance Buffer_eq_dec : EqDecision Buffer.
Proof. solve_decision. Defined.
#[export] Instance InfoRef_eq_dec : EqDecision InfoRef.
Proof. solve_decision. Defined.

(** The bytes of a GUID in memory: three little-endian groups and eight bytes. *)
Definition guid_bytes (a b c : Z) (d : list Z) : list Z :=
  le_bytes 4 a ++ le_bytes 2 b ++ le_bytes 2 c ++ d.

Definition FileInfo : InfoInternal := {|
  info_GUID := guid_bytes 0x09576e92 0x6d3f 0x11d2 [0x8e; 0x39; 0x00; 0xa0; 0xc9; 0x69; 0x72; 0x3b];
  info_alignment := 8; name_offset := 80 |}.

Definition FileSystemInfo : InfoInternal := {|
  info_GUID := guid_bytes 0x09576e93 0x6d3f 0x11d2 [0x8e; 0x39; 0x00; 0xa0; 0xc9; 0x69; 0x72; 0x3b];
  info_alignment := 8; name_offset := 36 |}.

Definition FileSystemVolumeLabel : InfoInternal := {|
  info_GUID := guid_bytes 0xdb47d7d3 0xfe81 0x11d3 [0x9a; 0x35; 0x00; 0x90; 0x27; 0x3f; 0xc1; 0x4d];
  info_alignment := 2; name_offset := 0 |}.

(** [FileAttribute]. *)
Module FileAttribute.
Definition READ_ONLY : Z := 0x1.
Definition HIDDEN : Z := 0x2.
Definition SYSTEM : Z := 0x4.
Definition DIRECTORY : Z := 0x10.
Definition ARCHIVE : Z := 0x20.
Definition VALID_ATTR : Z := 0x37.
Definition contains (self other : Z) : bool := Z.land self other =? other.
End FileAttribute.

(** ** Operations *)

Section info.
Context `{Profile} `{I : InfoInternal}.

(** [name_ptr], read as the units of the memory that follows. *)
Definition name_units (m : list Z) : list Z := units_of_bytes (drop (Z.to_nat name_offset) m).

(** [FromUefi::from_uefi]: scans the name for its terminator to recover the
    length of the fat pointer. *)
Definition from_uefi (ptr : Buffer) : outcome InfoRef :=
  if negb (is_aligned info_alignment ptr) then Undefined
  else
    let! name := cstr16_from_ptr (name_units (bytes ptr)) in
    Ret (mkInfoRef ptr (zlen (cstr16_as_slice_with_nul name))).

(** [InfoInternal::new_impl]; [init] is given the memory and the size. *)
Definition new_impl (storage : Buffer) (name : list Z)
  (init : list Z -> Z -> outcome (list Z)) : outcome (result InfoRef FileInfoCreationError) :=
  let name_length_ucs2 := zlen (cstr16_as_slice_with_nul name) in
  let name_size := 2 * zlen (cstr16_as_slice_with_nul name) in
  let! info_size := usize_add name_offset name_size in
  let! info_size := round_up_to_alignment info_alignment info_size in
  match align_buf info_alignment storage with
  | None => Ret (Err (InsufficientStorage info_size))
  | Some storage =>
      let! _ := assert_aligned info_alignment storage in
      if zlen (bytes storage) <? info_size then Ret (Err (InsufficientStorage info_size))
      else
        let! m := init (bytes storage) info_size in
        let! m := write_raw m name_offset (cstr16_as_bytes name) in
        Ret (Ok (mkInfoRef (mkBuffer (addr storage) m) name_length_ucs2))
  end.

(** The [CStr16] at the name. *)
Definition info_name (self : InfoRef) : outcome (list Z) :=
  cstr16_from_ptr (name_units (bytes (info_mem self))).

(** [size_of_val]: the size of the struct with its trailing padding. *)
Definition info_size_of_val (self : InfoRef) : Z :=
  (name_offset + 2 * name_len self + info_alignment - 1) / info_alignment * info_alignment.
End info.

(** A scalar field at a fixed offset of the header. *)
Definition header_field (self : InfoRef) (off n : Z) : Z := le_val (range (bytes (info_mem self)) off n).

(** Writes of fields through the raw pointer, in order. *)
Fixpoint write_fields (m : list Z) (fs : list (Z * list Z)) : outcome (list Z) :=
  match fs with
  | [] => Ret m
  | (off, bs) :: fs => let! m := write_raw m off bs in write_fields m fs
  end.

(** *** [FileInfo]; a [Time] is its sixteen bytes. *)

Definition file_info_new `{Profile} (storage : Buffer) (file_size physical_size : Z)
  (create_time last_access_time modification_time : list Z) (attribute : Z) (file_name : list Z)
  : outcome (result InfoRef FileInfoCreationError) :=
  new_impl (I := FileInfo) storage file_name (fun ptr size =>
    write_fields ptr
      [ (0, le_bytes 8 size);
        (8, le_bytes 8 file_size);
        (16, le_bytes 8 physical_size);
        (24, create_time);
        (40, last_access_time);
        (56, modification_time);
        (72, le_bytes 8 attribute) ]).

Definition info_size (self : InfoRef) : Z := header_field self 0 8.
Definition file_size (self : InfoRef) : Z := header_field self 8 8.
Definition physical_size (self : InfoRef) : Z := header_field self 16 8.
Definition create_time (self : InfoRef) : list Z := range (bytes (info_mem self)) 24 16.
Definition last_access_time (self : InfoRef) : list Z := range (bytes (info_mem self)) 40 16.
Definition modification_time (self : InfoRef) : list Z := range (bytes (info_mem self)) 56 16.
Definition attribute (self : InfoRef) : Z := header_field self 72 8.
Definition file_name (self : InfoRef) : outcome (list Z) := info_name (I := FileInfo) self.
Definition info_is_directory (self : InfoRef) : bool :=
  FileAttribute.contains (attribute self) FileAttribute.DIRECTORY.
Definition info_is_regular_file (self : InfoRef) : bool := negb (info_is_directory self).

(** *** [FileSystemInfo] *)

Definition file_system_info_new `{Profile} (storage : Buffer) (read_only : bool)
  (volume_size free_space block_size : Z) (volume_label : list Z)
  : outcome (result InfoRef FileInfoCreationError) :=
  new_impl (I := FileSystemInfo) storage volume_label (fun ptr size =>
    write_fields ptr
      [ (0, le_bytes 8 size);
        (8, [Z.b2z read_only]);
        (16, le_bytes 8 volume_size);
        (24, le_bytes 8 free_space);
        (32, le_bytes 4 block_size) ]).

Definition read_only (self : InfoRef) : bool := negb (header_field self 8 1 =? 0).
Definition volume_size (self : InfoRef) : Z := header_field self 16 8.
Definition free_space (self : InfoRef) : Z := header_field self 24 8.
Definition block_size (self : InfoRef) : Z := header_field self 32 4.
Definition system_volume_label (self : InfoRef) : outcome (list Z) :=
  info_name (I := FileSystemInfo) self.

(** *** [FileSystemVolumeLabel] *)

Definition volume_label_new `{Profile} (storage : Buffer) (volume_label : list Z)
  : outcome (result InfoRef FileInfoCreationError) :=
  new_impl (I := FileSystemVolumeLabel) storage volume_label (fun m _ => Ret m).

Definition volume_label (self : InfoRef) : outcome (list Z) :=
  info_name (I := FileSystemVolumeLabel) self.

(** ** Properties *)

(** *** Reading back what was written *)

(** Fields in ascending, disjoint ranges between [lo] and [hi]. *)
Fixpoint fields_ascend (lo hi : Z) (fs : list (Z * list Z)) : Prop :=
  match fs with
  | [] => lo <= hi
  | (off, bs) :: fs => lo <= off /\ fields_ascend (off + zlen bs) hi fs
  end.

Lemma fields_ascend_le lo hi fs : fields_ascend lo hi fs -> lo <= hi.
Proof.
  revert lo. induction fs as [|[off bs] fs IH]; intros lo; [done|]. simpl.
  intros [Hlo Ha%IH]. pose proof (zlen_nonneg bs). lia.
Qed.

Lemma fields_ascend_bounds lo hi fs :
  fields_ascend lo hi fs -> Forall (fun f => lo <= f.1 /\ f.1 + zlen f.2 <= hi) fs.
Proof.
  revert lo. induction fs as [|[off bs] fs IH]; intros lo; [by constructor|]. simpl.
  intros [Hlo Ha]. pose proof (zlen_nonneg bs). constructor.
  - apply fields_ascend_le in Ha. simpl. lia.
  - eapply Forall_weaken, IH, Ha. simpl. lia.
Qed.

Lemma write_fields_ok m fs lo hi :
  0 <= lo -> fields_ascend lo hi fs -> hi <= zlen m ->
  exists m', write_fields m fs = Ret m' /\ zlen m' = zlen m /\
    Forall (fun f => range m' f.1 (zlen f.2) = f.2) fs /\
    (forall o n, 0 <= o -> 0 <= n -> o + n <= lo \/ hi <= o -> range m' o n = range m o n).
Proof.
  revert m lo. induction fs as [|[off bs] fs IH]; intros m lo Hlo Ha Hhi; simpl.
  { exists m. by repeat split. }
  destruct Ha as [Hoff Ha]. pose proof (fields_ascend_le _ _ _ Ha). pose proof (zlen_nonneg bs).
  destruct (write_raw_ok m off bs) as (m1 & -> & Hl1 & Hr1 & Hf1); [lia..|]. cbn [obind].
  destruct (IH m1 (off + zlen bs)) as (m' & -> & Hl & Hr & Hf); [lia|done|lia|].
  exists m'. split; [done|]. split; [lia|]. split.
  - constructor; [|done]. simpl. rewrite Hf by lia. done.
  - intros o n Ho Hn Hd. rewrite Hf, Hf1 by lia. done.
Qed.

Lemma units_of_bytes_app s rest :
  Forall is_u16 s -> units_of_bytes (cstr16_as_bytes s ++ rest) = s ++ units_of_bytes rest.
Proof.
  unfold cstr16_as_bytes. induction 1 as [|c s Hc _ IH]; [done|]. simpl.
  f_equal; [|exact IH]. apply (le_val_bytes 2 c). unfold in_width in Hc. simpl. lia.
Qed.

Lemma cstr16_wf_u16 s : cstr16_wf s -> Forall is_u16 s.
Proof.
  intros (b & -> & Hb). apply Forall_app. split; [|by repeat constructor].
  eapply Forall_weaken, Hb. by intros c [[Hc _] _].
Qed.

(** A name stored in memory is found again. *)
Lemma name_units_found `{I : InfoInternal} m s :
  0 <= name_offset -> cstr16_wf s -> range m name_offset (2 * zlen s) = cstr16_as_bytes s ->
  cstr16_from_ptr (name_units m) = Ret s.
Proof.
  intros Ho Hs E. unfold name_units, range in *.
  rewrite <- (take_drop (Z.to_nat (2 * zlen s)) (drop _ m)), E.
  rewrite units_of_bytes_app by by apply cstr16_wf_u16. by apply from_ptr_wf.
Qed.

(** *** Creating an info struct *)

Section new_impl_spec.
Context `{Profile} `{I : InfoInternal}.
Context (al_pos : 0 < info_alignment < 2 ^ 32) (off_pos : 0 <= name_offset < 2 ^ 32).

(** The size of a struct with the given name. *)
Definition needed_size (name : list Z) : Z :=
  (name_offset + 2 * zlen name + info_alignment - 1) / info_alignment * info_alignment.

Lemma round_up_value al val :
  0 < al -> val + (- val) mod al = (val + al - 1) / al * al.
Proof.
  intros Hal. pose proof (Z.mod_pos_bound (- val) al ltac:(lia)) as Hr.
  pose proof (Z_div_exact_full_2 (val + (- val) mod al) al ltac:(lia)) as E.
  rewrite Zplus_mod_idemp_r, Z.add_opp_diag_r, Zmod_0_l in E. specialize (E eq_refl).
  set (r := (- val) mod al) in *.
  rewrite <- (Z.div_unique (val + al - 1) al ((val + r) / al) (al - 1 - r)); lia.
Qed.

Lemma needed_size_ok (name : list Z) :
  zlen name <= 2 ^ 61 ->
  (let! s := usize_add name_offset (2 * zlen name) in round_up_to_alignment info_alignment s) =
  Ret (needed_size name).
Proof.
  intros Hn. pose proof (zlen_nonneg name). rewrite usize_add_ok by lia. cbn [obind].
  unfold round_up_to_alignment. rewrite offset_up_ok by lia. cbn [obind].
  pose proof (Z.mod_pos_bound (- (name_offset + 2 * zlen name)) info_alignment (proj1 al_pos)).
  rewrite usize_add_ok by lia. f_equal. apply round_up_value. lia.
Qed.

Lemma needed_size_bounds (name : list Z) :
  name_offset + 2 * zlen name <= needed_size name.
Proof.
  unfold needed_size. rewrite <- round_up_value by lia.
  pose proof (Z.mod_pos_bound (- (name_offset + 2 * zlen name)) info_alignment (proj1 al_pos)). lia.
Qed.

Lemma align_buf_Some b b' :
  align_buf info_alignment b = Some b' ->
  is_aligned info_alignment b' = true /\ assert_aligned info_alignment b' = Ret tt /\
  zlen (bytes b') = zlen (bytes b) - align_offset info_alignment (addr b).
Proof.
  unfold align_buf. case_scrutinee; [|done]. intros [= <-]. z_bools.
  unfold is_aligned, assert_aligned, align_offset in *. simpl.
  pose proof (Z.mod_pos_bound (- addr b) info_alignment (proj1 al_pos)).
  assert ((addr b + (- addr b) mod info_alignment) mod info_alignment = 0) as Hm.
  { rewrite Zplus_mod_idemp_r, Z.add_opp_diag_r. apply Zmod_0_l. }
  split; [by apply Z.eqb_eq|]. split.
  - case_match; [done|]. apply assert_true, Z.eqb_eq. rewrite Z.mod_opp_l_z; lia.
  - unfold zlen. rewrite length_drop. unfold zlen in *. lia.
Qed.

(** The outcome of [new_impl] whose [init] writes the header fields [fs]. *)
Lemma new_impl_spec (storage : Buffer) (name : list Z) (fs : Z -> list (Z * list Z)) :
  cstr16_wf name -> zlen name <= 2 ^ 61 ->
  (forall size, fields_ascend 0 name_offset (fs size)) ->
  exists r, new_impl storage name (fun m size => write_fields m (fs size)) = Ret r /\
  match r with
  | Ok i =>
      info_size_of_val i = needed_size name /\ needed_size name <= zlen (bytes (info_mem i)) /\
      from_uefi (info_mem i) = Ret i /\ info_name i = Ret name /\
      Forall (fun f => range (bytes (info_mem i)) f.1 (zlen f.2) = f.2) (fs (needed_size name))
  | Err (InsufficientStorage n) =>
      n = needed_size name /\
      zlen (bytes storage) < needed_size name + align_offset info_alignment (addr storage)
  end.
Proof.
  intros Hw Hn Hfs. unfold new_impl, cstr16_as_slice_with_nul.
  rewrite <- obind_assoc, needed_size_ok by done. cbn [obind].
  pose proof (needed_size_bounds name). pose proof (zlen_nonneg name).
  destruct (align_buf info_alignment storage) as [b|] eqn:Eb.
  2: { eexists; split; [done|]. split; [done|]. unfold align_buf in Eb.
       case_scrutinee; [done|]. z_bools. lia. }
  apply align_buf_Some in Eb as (Hal & -> & Hlen). cbn [obind].
  destruct (Z.ltb_spec (zlen (bytes b)) (needed_size name)).
  { eexists; split; [done|]. split; [done|lia]. }
  destruct (write_fields_ok (bytes b) (fs (needed_size name)) 0 name_offset)
    as (m1 & -> & Hl1 & Hf1 & _); [done|done|lia|]. cbn [obind].
  destruct (as_bytes_roundtrip name ltac:(by apply cstr16_wf_u16)) as [_ Hbl].
  destruct (write_raw_ok m1 name_offset (cstr16_as_bytes name)) as (m2 & -> & Hl2 & Hr2 & Hf2);
    [lia..|]. cbn [obind]. eexists; split; [done|]. rewrite Hbl in Hr2.
  pose proof (name_units_found m2 name (proj1 off_pos) Hw Hr2) as Hname.
  split; [done|]. split; [simpl; lia|]. split; [|split; [done|]].
  - unfold from_uefi, is_aligned in *. cbn [addr bytes info_mem]. rewrite Hal. simpl negb.
    cbn iota. by rewrite Hname.
  - pose proof (fields_ascend_bounds _ _ _ (Hfs (needed_size name))) as Hb.
    pose proof (proj2 (Forall_and _ _) (conj Hf1 Hb)) as Hfb. eapply Forall_weaken, Hfb.
    intros f [E ?]. simpl. pose proof (zlen_nonneg f.2). by rewrite Hf2 by lia.
Qed.
End new_impl_spec.

(** A scalar field that was written little-endian reads back. *)
Lemma header_field_back i off n v :
  range (bytes (info_mem i)) off (zlen (le_bytes n v)) = le_bytes n v ->
  0 <= v < 256 ^ Z.of_nat n -> header_field i off (Z.of_nat n) = v.
Proof.
  unfold header_field, zlen. rewrite length_le_bytes. intros -> ?. by apply le_val_bytes.
Qed.

Lemma needed_size_u64 `{I : InfoInternal} name :
  0 < info_alignment < 2 ^ 32 -> 0 <= name_offset < 2 ^ 32 -> zlen name <= 2 ^ 61 ->
  0 <= needed_size name < 2 ^ 64.
Proof.
  intros Ha Ho Hn. unfold needed_size. pose proof (zlen_nonneg name).
  rewrite <- round_up_value by lia.
  pose proof (Z.mod_pos_bound (- (name_offset + 2 * zlen name)) info_alignment (proj1 Ha)). lia.
Qed.

(** C34: Creating a [FileInfo] in user storage either reports exactly the size that
    is missing, or gives a struct from which every accessor reads back what was
    stored, whose size field is its size in memory, and which the firmware side
    recovers from a bare pointer. *)
Theorem file_info_roundtrip `{Profile} (storage : Buffer) (fsz psz : Z) (ct lat mt : list Z)
  (attr : Z) (name : list Z) :
  cstr16_wf name -> zlen name <= 2 ^ 61 -> is_u64 fsz -> is_u64 psz -> is_u64 attr ->
  zlen ct = 16 -> zlen lat = 16 -> zlen mt = 16 ->
  exists r, file_info_new storage fsz psz ct lat mt attr name = Ret r /\
  match r with
  | Ok i =>
      from_uefi (I := FileInfo) (info_mem i) = Ret i /\
      info_size i = info_size_of_val (I := FileInfo) i /\
      file_size i = fsz /\ physical_size i = psz /\ create_time i = ct /\
      last_access_time i = lat /\ modification_time i = mt /\ attribute i = attr /\
      file_name i = Ret name
  | Err (InsufficientStorage n) =>
      n = needed_size (I := FileInfo) name /\
      zlen (bytes storage) < n + align_offset 8 (addr storage)
  end.
Proof.
  intros Hw Hn Hf Hp Ha Hct Hlat Hmt.
  destruct (new_impl_spec (I := FileInfo) ltac:(done) ltac:(done) storage name
    (fun size => [(0, le_bytes 8 size); (8, le_bytes 8 fsz); (16, le_bytes 8 psz); (24, ct);
                  (40, lat); (56, mt); (72, le_bytes 8 attr)])) as (r & E & Hr); [done|done| |].
  { intros size. cbn [fields_ascend]. rewrite Hct, Hlat, Hmt. unfold zlen. rewrite !length_le_bytes. simpl. lia. }
  exists r. split; [exact E|]. destruct r as [i|[n]]; [|by destruct Hr as [-> ?]].
  destruct Hr as (Hsz & _ & Hu & Hnm & Hfs).
  pose proof (needed_size_u64 (I := FileInfo) name ltac:(done) ltac:(done) Hn) as Hb.
  rewrite !Forall_cons in Hfs. simpl fst in Hfs. simpl snd in Hfs. rewrite Hct, Hlat, Hmt in Hfs.
  destruct Hfs as (H1 & H2 & H3 & H4 & H5 & H6 & H7 & _).
  split; [done|]. rewrite Hsz. unfold in_width in *.
  repeat split; try done; by apply (header_field_back i _ 8).
Qed.

(** The same for the volume information and the volume label. *)
Theorem file_system_info_roundtrip `{Profile} (storage : Buffer) (ro : bool) (vs fsp bsz : Z)
  (label : list Z) :
  cstr16_wf label -> zlen label <= 2 ^ 61 -> is_u64 vs -> is_u64 fsp -> is_u32 bsz ->
  exists r, file_system_info_new storage ro vs fsp bsz label = Ret r /\
  match r with
  | Ok i =>
      from_uefi (I := FileSystemInfo) (info_mem i) = Ret i /\
      info_size i = info_size_of_val (I := FileSystemInfo) i /\
      read_only i = ro /\ volume_size i = vs /\ free_space i = fsp /\ block_size i = bsz /\
      system_volume_label i = Ret label
  | Err (InsufficientStorage n) =>
      n = needed_size (I := FileSystemInfo) label /\
      zlen (bytes storage) < n + align_offset 8 (addr storage)
  end.
Proof.
  intros Hw Hn Hv Hf Hb.
  destruct (new_impl_spec (I := FileSystemInfo) ltac:(done) ltac:(done) storage label
    (fun size => [(0, le_bytes 8 size); (8, [Z.b2z ro]); (16, le_bytes 8 vs); (24, le_bytes 8 fsp);
                  (32, le_bytes 4 bsz)])) as (r & E & Hr); [done|done| |].
  { intros size. cbn [fields_ascend]. unfold zlen. rewrite !length_le_bytes. simpl. lia. }
  exists r. split; [exact E|]. destruct r as [i|[n]]; [|by destruct Hr as [-> ?]].
  destruct Hr as (Hsz & _ & Hu & Hnm & Hfs).
  pose proof (needed_size_u64 (I := FileSystemInfo) label ltac:(done) ltac:(done) Hn) as Hs.
  rewrite !Forall_cons in Hfs. simpl fst in Hfs. simpl snd in Hfs.
  destruct Hfs as (H1 & H2 & H3 & H4 & H5 & _).
  split; [done|]. rewrite Hsz. unfold in_width in *.
  repeat split; try done; try by apply (header_field_back i _ 8).
  - unfold read_only, header_field. change (zlen [Z.b2z ro]) with 1 in H2. rewrite H2. by destruct ro.
  - by apply (header_field_back i _ 4).
Qed.

Lemma file_info_roundtrip_witness :
  exists i, file_info_new (H := debug_profile) (mkBuffer 4096 (replicate 96 0)) 5 512
    (replicate 16 1) (replicate 16 2) (replicate 16 3) FileAttribute.DIRECTORY [0x61; 0x62; 0] =
    Ret (Ok i) /\ file_size i = 5 /\ file_name i = Ret [0x61; 0x62; 0] /\ info_size i = 88.
Proof.
  destruct (@file_info_roundtrip debug_profile (mkBuffer 4096 (replicate 96 0)) 5 512
    (replicate 16 1) (replicate 16 2) (replicate 16 3) FileAttribute.DIRECTORY [0x61; 0x62; 0])
    as (r & E & Hr); [by_decide..|].
  destruct r as [i|e]; [|vm_compute in E; discriminate E].
  exists i. split; [exact E|]. destruct Hr as (_ & Hs & Hf & _ & _ & _ & _ & _ & Hn).
  split; [exact Hf|]. split; [exact Hn|].
  vm_compute in E. injection E as <-. vm_compute. reflexivity.
Defined.
