(* ===== verification/File.v ===== *)
(** * Files and directories over the firmware's file protocol

    [uefi/src/proto/media/fs.rs] and [uefi/src/proto/media/file/{mod,regular,dir}.rs].
    The function table [EFI_FILE_PROTOCOL] belongs to the firmware and is the
    interface [FileProtocol]; the wrappers around it are computations that
    thread the state [W] of the machine. *)
From S2P Require Import Prelude Firmware Chars Strs Status FileInfo.

(** ** The firmware's function tables *)

(** Handles are the pointers the firmware hands out.  A call that fills a
    buffer of the given size returns the status, the updated size and the bytes
    it stored at the start of the buffer. *)
Class FileProtocol (W : Type) : Type := {
  efi_open_volume : W -> (Z * Z) * W;
  efi_open : Z -> list Z -> Z -> Z -> W -> (Z * Z) * W;
  efi_close : Z -> W -> Z * W;
  efi_delete : Z -> W -> Z * W;
  efi_read : Z -> Z -> W -> (Z * Z * list Z) * W;
  efi_write : Z -> list Z -> W -> (Z * Z) * W;
  efi_get_position : Z -> W -> (Z * Z) * W;
  efi_set_position : Z -> Z -> W -> Z * W;
  efi_get_info : Z -> list Z -> Z -> W -> (Z * Z * list Z) * W;
  efi_set_info : Z -> list Z -> list Z -> W -> Z * W;
  efi_flush : Z -> W -> Z * W;
}.

(** ** Modes and types *)

Inductive FileMode : Set := Read | ReadWrite | CreateReadWrite.

#[export] Instance FileMode_eq_dec : EqDecision FileMode.
Proof. solve_decision. Defined.

Definition file_mode_bits (m : FileMode) : Z :=
  match m with
  | Read => 1
  | ReadWrite => Z.lor 2 1
  | CreateReadWrite => Z.lor (Z.lor (Z.shiftl 1 63) 2) 1
  end.

(** [uefi_raw::protocol::file_system::FileMode::from_bits_truncate]. *)
Definition raw_file_mode (bits : Z) : Z := Z.land bits 0x8000000000000003.

(** [FileHandle], [RegularFile] and [Directory] all wrap the pointer. *)
Inductive FileType : Set := Regular (h : Z) | Dir (h : Z).

Definition END_OF_FILE_POSITION : Z := 2 ^ 64 - 1.

Section file.
Context `{Profile} {W : Type} `{!FileProtocol W}.

(** [imp]: the pointer is dereferenced. *)
Definition imp (h : Z) : fw W unit := lift (if h =? 0 then Undefined else Ret tt).

(** ** [SimpleFileSystem] *)

Definition open_volume : fw W (uresult Z unit) :=
  '(status, ptr) ← call efi_open_volume;
  lift (to_result_with_val status ptr).

(** ** The trait [File] *)

Definition file_open (h : Z) (filename : list Z) (open_mode : FileMode) (attributes : Z)
  : fw W (uresult Z unit) :=
  imp h;;
  '(status, ptr) ← call (efi_open h filename (raw_file_mode (file_mode_bits open_mode)) attributes);
  lift (to_result_with_val status ptr).

(** [Drop for FileHandle]. *)
Definition file_drop (h : Z) : fw W unit :=
  imp h;;
  status ← call (efi_close h);
  r ← lift (to_result status);
  lift (match r with Ok _ => Ret tt | Err _ => Panic UnwrapFailed end).

(** [close] drops the handle. *)
Definition file_close (h : Z) : fw W unit := file_drop h.

(** The handle is forgotten: the firmware has closed it. *)
Definition file_delete (h : Z) : fw W (uresult unit unit) :=
  imp h;;
  status ← call (efi_delete h);
  lift (to_result status).

Definition get_info `{I : InfoInternal} (h : Z) (buffer : Buffer)
  : fw W (uresult InfoRef (option Z)) :=
  lift (assert_aligned info_alignment buffer);;
  imp h;;
  '(status, buffer_size, out) ← call (efi_get_info h info_GUID (zlen (bytes buffer)));
  m ← lift (write_raw (bytes buffer) 0 out);
  try _ <- lift (to_result_with status tt (fun s =>
    if s =? Status.BUFFER_TOO_SMALL then Some buffer_size else None));
  info ← lift (from_uefi (mkBuffer (addr buffer) m));
  mret (Ok info).

(** The struct is passed with its size in memory. *)
Definition set_info `{I : InfoInternal} (h : Z) (info : InfoRef) : fw W (uresult unit unit) :=
  imp h;;
  status ← call (efi_set_info h info_GUID (range (bytes (info_mem info)) 0 (info_size_of_val info)));
  lift (to_result status).

Definition file_flush (h : Z) : fw W (uresult unit unit) :=
  imp h;;
  status ← call (efi_flush h);
  lift (to_result status).

Definition get_boxed_info `{!Allocator W} `{I : InfoInternal} (h : Z) : fw W (uresult InfoRef unit) :=
  try file_info <- make_boxed info_alignment (get_info h);
  mret (Ok file_info).

(** ** [FileHandle] *)

(** [self.0.as_mut().unwrap()] panics on a null pointer. *)
Definition is_regular_file (h : Z) : fw W (uresult bool unit) :=
  lift (if h =? 0 then Panic UnwrapFailed else Ret tt);;
  '(status, _) ← call (efi_get_position h);
  if status =? Status.SUCCESS then mret (Ok true)
  else if status =? Status.UNSUPPORTED then mret (Ok false)
  else e ← lift (error_from_status status); mret (Err e).

Definition is_directory (h : Z) : fw W (uresult bool unit) :=
  r ← is_regular_file h;
  mret (rmap negb r).

(** On an error the handle is dropped with the closure that owns it. *)
Definition into_type (h : Z) : fw W (uresult FileType unit) :=
  r ← is_regular_file h;
  match r with
  | Ok is_file => mret (Ok (if is_file : bool then Regular h else Dir h))
  | Err e => file_drop h;; mret (Err e)
  end.

(** A handle of the other type is dropped. *)
Definition into_directory (h : Z) : fw W (option Z) :=
  t ← into_type h;
  match t with
  | Ok (Dir dir) => mret (Some dir)
  | Ok (Regular regular) => file_drop regular;; mret None
  | Err _ => mret None
  end.

Definition into_regular_file (h : Z) : fw W (option Z) :=
  t ← into_type h;
  match t with
  | Ok (Regular regular) => mret (Some regular)
  | Ok (Dir dir) => file_drop dir;; mret None
  | Err _ => mret None
  end.

(** ** [RegularFile] *)

(** [ptr.add(n)] inside the buffer. *)
Definition ptr_add (buffer : list Z) (ptr n : Z) : outcome Z :=
  if ptr + n <=? zlen buffer then Ret (ptr + n) else Undefined.

(** Each iteration that goes on has read a whole chunk, so the length of the
    buffer bounds their number. *)
Fixpoint read_chunked_loop (fuel : nat) (read : Z -> W -> (Z * Z * list Z) * W) (chunk_size : Z)
  (buffer : list Z) (remaining_size total_read_size output_ptr : Z)
  : fw W (uresult Z unit * list Z) :=
  match fuel with
  | O => fun _ => NoFuel
  | S fuel' =>
      if 0 <? remaining_size then
        let requested_read_size := Z.min remaining_size chunk_size in
        '(status, read_size, out) ← call (read requested_read_size);
        buffer ← lift (write_raw buffer output_ptr out);
        if Status.is_success status then
          total_read_size ← lift (usize_add total_read_size read_size);
          remaining_size ← lift (usize_sub remaining_size read_size);
          output_ptr ← lift (ptr_add buffer output_ptr read_size);
          if read_size <? requested_read_size then mret (Ok total_read_size, buffer)
          else read_chunked_loop fuel' read chunk_size buffer remaining_size total_read_size output_ptr
        else
          e ← lift (error_new status tt);
          mret (Err e, buffer)
      else mret (Ok total_read_size, buffer)
  end.

Definition read_chunked (buffer : list Z) (chunk_size : Z)
  (read : Z -> W -> (Z * Z * list Z) * W) : fw W (uresult Z unit * list Z) :=
  read_chunked_loop (S (length buffer)) read chunk_size buffer (zlen buffer) 0 0.

(** The result and the buffer. *)
Definition file_read (h : Z) (buffer : list Z) : fw W (uresult Z unit * list Z) :=
  imp h;;
  read_chunked buffer (1024 * 1024) (efi_read h).

Definition read_unchunked (h : Z) (buffer : list Z) : fw W (uresult Z (option Z) * list Z) :=
  imp h;;
  '(status, buffer_size, out) ← call (efi_read h (zlen buffer));
  buffer ← lift (write_raw buffer 0 out);
  r ← lift (to_result_with status buffer_size (fun s =>
    if s =? Status.BUFFER_TOO_SMALL then Some buffer_size else None));
  mret (r, buffer).

Definition file_write (h : Z) (buffer : list Z) : fw W (uresult unit Z) :=
  imp h;;
  '(status, buffer_size) ← call (efi_write h buffer);
  lift (to_result_with_err status (fun _ => buffer_size)).

Definition get_position (h : Z) : fw W (uresult Z unit) :=
  imp h;;
  '(status, pos) ← call (efi_get_position h);
  lift (to_result_with_val status pos).

Definition set_position (h position : Z) : fw W (uresult unit unit) :=
  imp h;;
  status ← call (efi_set_position h position);
  lift (to_result status).

(** ** [Directory] *)

Definition read_entry (h : Z) (buffer : Buffer) : fw W (uresult (option InfoRef) (option Z)) :=
  lift (assert_aligned (info_alignment (InfoInternal := FileInfo)) buffer);;
  '(r, m) ← read_unchunked h (bytes buffer);
  try read_bytes <- mret r;
  if read_bytes =? 0 then mret (Ok None)
  else
    info ← lift (from_uefi (I := FileInfo) (mkBuffer (addr buffer) m));
    mret (Ok (Some info)).

Section boxed.
Context `{!Allocator W}.

Definition fetch_entry (h : Z) (buf : Buffer) : fw W (uresult InfoRef (option Z)) :=
  try maybe_info <- read_entry h buf;
  match maybe_info with
  | Some info => mret (Ok info)
  | None => lift (Panic UnwrapFailed)
  end.

Definition read_entry_boxed (h : Z) : fw W (uresult (option InfoRef) unit) :=
  read_entry_res ← read_entry h empty_slice;
  match read_entry_res with
  | Ok None => mret (Ok None)
  | _ =>
      try file_info <- make_boxed (info_alignment (InfoInternal := FileInfo)) (fetch_entry h);
      mret (Ok (Some file_info))
  end.
End boxed.

Definition reset_entry_readout (h : Z) : fw W (uresult unit unit) := set_position h 0.
End file.

(** ** Properties *)

(** *** Reading in chunks *)

Section read_chunked_spec.
Context `{Profile} {W : Type} (read : Z -> W -> (Z * Z * list Z) * W).

(** [R l w]: in state [w] the bytes that are still to be read are [l].  The
    documented behaviour of the firmware's read: it delivers as many bytes as
    were asked for, or all that are left. *)
Context (R : list Z -> W -> Prop).
Hypothesis read_law : forall n l w, 0 < n -> R l w ->
  exists w', read n w = ((Status.SUCCESS, zlen (range l 0 n), range l 0 n), w') /\
    R (drop (Z.to_nat n) l) w'.

Lemma zlen_range_0 (l : list Z) n : 0 <= n -> zlen (range l 0 n) = Z.min n (zlen l).
Proof. intros. unfold zlen, range. rewrite drop_0, length_take. lia. Qed.

Lemma take_split_at (l : list Z) n m :
  (n <= m)%nat -> take n l ++ take (m - n) (drop n l) = take m l.
Proof.
  intros. replace m with (n + (m - n))%nat at 2 by lia. apply take_take_drop.
Qed.

(** One iteration, with what is already read split from what is not. *)
Lemma read_chunked_iter chunk_size fuel dn todo out w w1 :
  let n := Z.min (zlen todo) chunk_size in
  read n w = ((Status.SUCCESS, zlen out, out), w1) ->
  0 < zlen todo -> zlen out <= zlen todo -> zlen dn + zlen todo < 2 ^ 63 ->
  let todo' := drop (length out) todo in
  read_chunked_loop (S fuel) read chunk_size (dn ++ todo) (zlen todo) (zlen dn) (zlen dn) w =
  if zlen out <? n then Ret ((Ok (zlen dn + zlen out), dn ++ out ++ todo'), w1)
  else read_chunked_loop fuel read chunk_size ((dn ++ out) ++ todo') (zlen todo')
         (zlen (dn ++ out)) (zlen (dn ++ out)) w1.
Proof.
  intros n E1 Hpos Hot Hb todo'. pose proof (zlen_nonneg dn). pose proof (zlen_nonneg out).
  cbn [read_chunked_loop]. rewrite (proj2 (Z.ltb_lt _ _)) by done. cbn zeta. fold n.
  fw_step ltac:(rewrite E1).
  assert (write_raw (dn ++ todo) (zlen dn) out = Ret (dn ++ out ++ todo')) as Hw.
  { unfold write_raw. rewrite zlen_app, !(proj2 (Z.leb_le _ _)) by lia. simpl.
    unfold zlen. rewrite Nat2Z.id, take_app_length, drop_app_add'; done. }
  fw_step ltac:(rewrite Hw).
  change (Status.is_success Status.SUCCESS) with true. cbn iota.
  fw_step ltac:(rewrite usize_add_ok by lia).
  fw_step ltac:(rewrite usize_sub_ok by lia).
  assert (ptr_add (dn ++ out ++ todo') (zlen dn) (zlen out) = Ret (zlen dn + zlen out)) as Hp.
  { unfold ptr_add. rewrite !zlen_app, (proj2 (Z.leb_le _ _)); [done|].
    pose proof (zlen_nonneg todo'). lia. }
  fw_step ltac:(rewrite Hp).
  destruct (zlen out <? n); [done|]. rewrite zlen_app, <- app_assoc.
  replace (zlen todo') with (zlen todo - zlen out); [done|].
  unfold todo', zlen in *. rewrite length_drop. lia.
Qed.

Lemma read_chunked_loop_spec chunk_size fuel dn todo l w :
  0 < chunk_size -> (length todo < fuel)%nat -> zlen dn + zlen todo < 2 ^ 63 -> R l w ->
  exists w', read_chunked_loop fuel read chunk_size (dn ++ todo) (zlen todo) (zlen dn) (zlen dn) w =
    Ret ((Ok (zlen dn + Z.min (zlen todo) (zlen l)),
          dn ++ take (length todo) l ++ drop (length l) todo), w') /\
    R (drop (length todo) l) w'.
Proof.
  intros Hc. revert dn todo l w. induction fuel as [|fuel IH]; intros dn todo l w Hf Hb HR; [lia|].
  pose proof (zlen_nonneg l) as Hl. destruct todo as [|x todo].
  { exists w. rewrite drop_nil. split; [|done]. simpl. unfold mret, fw_ret.
    change (zlen ([] : list Z)) with 0. by rewrite Z.min_l, Z.add_0_r by lia. }
  set (td := x :: todo) in *. set (n := Z.min (zlen td) chunk_size).
  assert (0 < zlen td) as Hpos by (unfold zlen, td; simpl; lia).
  destruct (read_law n l w ltac:(lia) HR) as (w1 & E1 & HR1).
  assert (range l 0 n = take (Z.to_nat n) l) as Eo by (unfold range; by rewrite drop_0).
  pose proof (zlen_range_0 l n ltac:(lia)) as Ho.
  rewrite (read_chunked_iter _ _ _ _ _ _ _ E1) by lia. fold n. rewrite Eo in *. clear E1 Eo.
  destruct (Z.ltb_spec (zlen (take (Z.to_nat n) l)) n) as [Hshort|Hfull].
  - exists w1. rewrite (take_ge l (Z.to_nat n)), (take_ge l (length td)) in *
      by (unfold zlen in *; lia).
    rewrite (drop_ge l) in HR1 by (unfold zlen in *; lia).
    rewrite (drop_ge l (length td)) by (unfold zlen in *; lia). split; [|done].
    do 4 f_equal. lia.
  - assert (length (take (Z.to_nat n) l) = Z.to_nat n) as Eln by (unfold zlen in *; lia).
    rewrite Eln. destruct (IH (dn ++ take (Z.to_nat n) l) (drop (Z.to_nat n) td)
      (drop (Z.to_nat n) l) w1) as (w' & -> & HR').
    + rewrite length_drop. unfold zlen in *. lia.
    + rewrite zlen_app. unfold zlen in *. rewrite length_drop. lia.
    + done.
    + exists w'. rewrite length_drop, !drop_drop, length_drop in *.
      replace (Z.to_nat n + (length td - Z.to_nat n))%nat with (length td) in HR'
        by (unfold zlen in *; lia).
      split; [|done]. f_equal. f_equal. f_equal.
      * f_equal. rewrite zlen_app. unfold zlen in *. rewrite !length_drop. lia.
      * replace (Z.to_nat n + (length l - Z.to_nat n))%nat with (length l) by (unfold zlen in *; lia).
        rewrite <- app_assoc. f_equal. rewrite app_assoc. f_equal. apply take_split_at.
        unfold zlen in *. lia.
Qed.

(** C33: Reading in chunks of any size terminates and gives what one large read would
    have given: as much of the data as fits is copied to the start of the
    buffer, the rest of the buffer is left alone, and the number of bytes read
    is returned. *)
Theorem read_chunked_spec (chunk_size : Z) (buffer l : list Z) (w : W) :
  0 < chunk_size -> zlen buffer < 2 ^ 63 -> R l w ->
  exists w', read_chunked buffer chunk_size read w =
    Ret ((Ok (Z.min (zlen buffer) (zlen l)),
          take (length buffer) l ++ drop (length l) buffer), w') /\
    R (drop (length buffer) l) w'.
Proof.
  intros. apply (read_chunked_loop_spec chunk_size (S (length buffer)) [] buffer); [done|lia|done|done].
Qed.
End read_chunked_spec.

(** A file as its remaining bytes. *)
Definition bytes_read (n : Z) (l : list Z) : (Z * Z * list Z) * list Z :=
  ((Status.SUCCESS, zlen (range l 0 n), range l 0 n), drop (Z.to_nat n) l).

Lemma bytes_read_law n l w : 0 < n -> w = l ->
  exists w', bytes_read n w = ((Status.SUCCESS, zlen (range l 0 n), range l 0 n), w') /\
    w' = drop (Z.to_nat n) l.
Proof. intros _ ->. eexists. split; reflexivity. Qed.

Lemma read_chunked_spec_witness :
  exists w, read_chunked (H := debug_profile) [0; 0; 0; 0] 2 bytes_read [1; 2; 3] =
    Ret ((Ok 3, [1; 2; 3; 0]), w).
Proof.
  destruct (@read_chunked_spec debug_profile _ bytes_read (fun l w => w = l)
    bytes_read_law 2 [0; 0; 0; 0] [1; 2; 3] [1; 2; 3])
    as (w & E & _); [by_decide|by_decide|done|].
  exists w. exact E.
Defined.

(** *** Resources *)

(** What the firmware promises about handles, however its calls fail: a
    successful open gives one new non-null handle, a failed one none, closing
    always succeeds, deleting closes the handle whatever it returns, and no
    other call opens or closes anything.  The allocator is its own component:
    file calls leave the heap alone and heap calls the files.  [live] counts
    what is in use, at the given price for a handle and for a heap block. *)
Class ResourceLaws (W : Type) `{!FileProtocol W} `{!Allocator W} : Type := {
  live : W -> Z;
  handle_cost : Z;
  block_cost : Z;
  open_volume_live : forall w s h w', efi_open_volume w = ((s, h), w') ->
    live w' = live w + (if s =? 0 then handle_cost else 0);
  open_live : forall h0 name mode attr w s h w', efi_open h0 name mode attr w = ((s, h), w') ->
    live w' = live w + (if s =? 0 then handle_cost else 0);
  close_live : forall h w s w', efi_close h w = (s, w') -> live w' = live w - handle_cost;
  delete_live : forall h w s w', efi_delete h w = (s, w') -> live w' = live w - handle_cost;
  read_live : forall h n w r w', efi_read h n w = (r, w') -> live w' = live w;
  write_live : forall h d w r w', efi_write h d w = (r, w') -> live w' = live w;
  get_position_live : forall h w r w', efi_get_position h w = (r, w') -> live w' = live w;
  set_position_live : forall h p w r w', efi_set_position h p w = (r, w') -> live w' = live w;
  get_info_live : forall h g n w r w', efi_get_info h g n w = (r, w') -> live w' = live w;
  set_info_live : forall h g d w r w', efi_set_info h g d w = (r, w') -> live w' = live w;
  flush_live : forall h w r w', efi_flush h w = (r, w') -> live w' = live w;
  alloc_live : forall size align w b w', alloc size align w = (b, w') ->
    live w' = live w + (match b with Some _ => block_cost | None => 0 end);
  dealloc_live : forall b size align w, live (dealloc b size align w) = live w - block_cost;
}.

Section resources.
Context `{Profile} {W : Type} `{!FileProtocol W} `{!Allocator W} `{!ResourceLaws W}.

Lemma to_result_with_val_ok {T} s (v : T) r :
  to_result_with_val s v = Ret r -> is_ok r = (s =? 0).
Proof.
  unfold to_result_with_val, Status.is_success. change Status.SUCCESS with 0.
  destruct (s =? 0); intros E; inv_outcome; done.
Qed.

Lemma imp_gains h : gains live (imp h) free.
Proof. apply gains_lift_free. Qed.

Lemma open_volume_gains : gains live open_volume (ok_cost handle_cost).
Proof.
  unfold open_volume. eapply gains_bind; [apply (gains_call _ (fun r => if r.1 =? 0 then handle_cost else 0))|].
  - intros w [s h] w' E. by apply open_volume_live in E.
  - intros [s h]. apply gains_lift. intros r E. unfold ok_cost. rewrite (to_result_with_val_ok _ _ _ E). simpl. lia.
Qed.

Lemma file_open_gains h name mode attr : gains live (file_open h name mode attr) (ok_cost handle_cost).
Proof.
  unfold file_open. apply gains_seq; [apply imp_gains|intros _].
  eapply gains_bind; [apply (gains_call _ (fun r => if r.1 =? 0 then handle_cost else 0))|].
  - intros w [s h'] w' E. by apply open_live in E.
  - intros [s h']. apply gains_lift. intros r E. unfold ok_cost. rewrite (to_result_with_val_ok _ _ _ E). simpl. lia.
Qed.

Lemma file_drop_gains h : gains live (file_drop h) (fun _ => - handle_cost).
Proof.
  unfold file_drop. apply gains_seq; [apply imp_gains|intros _].
  eapply gains_bind; [apply (gains_call _ (fun _ => - handle_cost))|].
  - intros w s w' E. apply close_live in E. lia.
  - intros s. apply gains_seq; [apply gains_lift_free|intros r]. apply gains_lift. intros. lia.
Qed.

Lemma file_delete_gains h : gains live (file_delete h) (fun _ => - handle_cost).
Proof.
  unfold file_delete. apply gains_seq; [apply imp_gains|intros _].
  eapply gains_bind; [apply (gains_call _ (fun _ => - handle_cost))|].
  - intros w s w' E. apply delete_live in E. lia.
  - intros s. apply gains_lift. intros. lia.
Qed.

Lemma make_boxed_gains {D} al (fetch : Buffer -> fw W (uresult D (option Z))) :
  (forall b, gains live (fetch b) free) -> gains live (make_boxed al fetch) (ok_cost block_cost).
Proof.
  intros Hf w r w' E. unfold make_boxed in E. apply obind_Ret_inv in E as ([r0 w1] & E0 & E).
  pose proof (Hf _ _ _ _ E0) as L0. apply obind_Ret_inv in E as ([n|e] & En & E).
  2: { injection E as <- <-. unfold ok_cost. simpl in *. lia. }
  apply obind_Ret_inv in E as (layout & _ & E).
  destruct (alloc layout al w1) as [[b|] w2] eqn:Ea; pose proof (alloc_live _ _ _ _ _ Ea) as La.
  2: { simpl in E. injection E as <- <-. unfold ok_cost. simpl in *. lia. }
  apply obind_Ret_inv in E as ([r1 w3] & E1 & E). pose proof (Hf _ _ _ _ E1) as L1.
  apply obind_Ret_inv in E as ([d|e] & _ & E); injection E as <- <-; unfold ok_cost; simpl in *; [lia|].
  rewrite dealloc_live. lia.
Qed.

Lemma get_info_gains `{I : InfoInternal} h b : gains live (get_info h b) free.
Proof. unfold get_info. gains_free. intros w r w'. apply get_info_live. Qed.

Lemma file_flush_gains h : gains live (file_flush h) free.
Proof. unfold file_flush. gains_free. intros w r w'. apply flush_live. Qed.

Lemma file_write_gains h d : gains live (file_write h d) free.
Proof. unfold file_write. gains_free. intros w r w'. apply write_live. Qed.

Lemma read_chunked_gains fuel read ch buf rem tot out :
  (forall n w r w', read n w = (r, w') -> live w' = live w) ->
  gains live (read_chunked_loop fuel read ch buf rem tot out) free.
Proof.
  intros Hr. revert buf rem tot out. induction fuel as [|fuel IH]; intros; [done|]. simpl.
  gains_free; [|done]. intros w r w'. apply Hr.
Qed.

Lemma file_read_gains h buf : gains live (file_read h buf) free.
Proof.
  unfold file_read. gains_free. apply read_chunked_gains. intros n w r w'. apply read_live.
Qed.

Lemma read_entry_gains h b : gains live (read_entry h b) free.
Proof. unfold read_entry, read_unchunked. gains_free. intros w r w'. apply read_live. Qed.

Lemma is_regular_file_gains h : gains live (is_regular_file h) free.
Proof. unfold is_regular_file. gains_free. intros w r w'. apply get_position_live. Qed.

Lemma get_boxed_info_gains `{I : InfoInternal} h : gains live (get_boxed_info h) (ok_cost block_cost).
Proof.
  unfold get_boxed_info. eapply (gains_try _ _ (fun _ => block_cost)).
  - eapply gains_weaken; [apply make_boxed_gains, get_info_gains|]. by intros [].
  - intros i. apply gains_ret. unfold ok_cost. simpl. lia.
Qed.

Definition entry_cost {A E} (r : result (option A) E) : Z :=
  match r with Ok (Some _) => block_cost | _ => 0 end.

Lemma read_entry_boxed_gains h : gains live (read_entry_boxed h) entry_cost.
Proof.
  unfold read_entry_boxed. apply gains_seq; [apply read_entry_gains|intros r].
  assert (gains live (try file_info <- make_boxed (info_alignment (InfoInternal := FileInfo)) (fetch_entry h);
    mret (Ok (Some file_info))) entry_cost) as Hb.
  { eapply (gains_try _ _ (fun _ => block_cost)).
    - eapply gains_weaken.
      + apply make_boxed_gains. intros b. unfold fetch_entry. apply gains_try_free; [apply read_entry_gains|done|].
        intros []; gains_free.
      + by intros [].
    - intros i. apply gains_ret. simpl. lia. }
  destruct r as [[?|]|]; [exact Hb| |exact Hb]. by apply gains_ret.
Qed.

(** A conversion that returns no handle has closed the one it was given. *)
Lemma into_type_gains h : gains live (into_type h) (fun r => if is_ok r then 0 else - handle_cost).
Proof.
  unfold into_type. apply gains_seq; [apply is_regular_file_gains|intros [b|e]].
  - by apply gains_ret.
  - eapply gains_bind; [apply file_drop_gains|]. intros u. apply gains_ret. simpl. lia.
Qed.

Definition converted {A} (o : option A) : Z := if o then 0 else - handle_cost.

Lemma into_regular_file_gains h : gains live (into_regular_file h) converted.
Proof.
  unfold into_regular_file. eapply gains_bind; [apply into_type_gains|].
  intros [[r|d]|e]; [by apply gains_ret| |apply gains_ret; simpl; lia].
  eapply gains_bind; [apply file_drop_gains|]. intros u. apply gains_ret. simpl. lia.
Qed.

Lemma into_directory_gains h : gains live (into_directory h) converted.
Proof.
  unfold into_directory. eapply gains_bind; [apply into_type_gains|].
  intros [[r|d]|e]; [|by apply gains_ret|apply gains_ret; simpl; lia].
  eapply gains_bind; [apply file_drop_gains|]. intros u. apply gains_ret. simpl. lia.
Qed.
End resources.
