(* ===== verification/FileSystem.v ===== *)
(** * The high-level file system

    [FileSystem] of [uefi/src/fs/file_system/fs.rs] with its errors
    ([uefi/src/fs/file_system/error.rs]) and the directory iterator
    ([uefi/src/fs/dir_entry_iter.rs]).  Every handle and every boxed info is
    dropped where Rust drops it: at the end of the scope of its owner, also on
    early returns. *)
From S2P Require Import Prelude Firmware Chars Strs Text OwnedStrs Path Status FileInfo File.

(** ** Errors *)

Inductive IoErrorContext : Set :=
| CantDeleteDirectory
| CantDeleteFile
| FlushFailure
| CantOpenVolume
| Metadata
| OpenError
| ReadFailure
| WriteFailure
| NotADirectory
| NotAFile.

Record IoError : Set := mkIoError {
  io_path : list Z;
  io_context : IoErrorContext;
  uefi_error : Error unit;
}.

Module FsError.
Inductive t : Set :=
| Io (e : IoError)
| Path (e : PathError)
| Utf8Encoding (bytes : list Z).
End FsError.
Abbreviation fs_result T := (result T FsError.t).

#[export] Instance IoErrorContext_eq_dec : EqDecision IoErrorContext.
Proof. solve_decision. Defined.
#[export] Instance IoError_eq_dec : EqDecision IoError.
Proof. solve_decision. Defined.
#[export] Instance FsError_eq_dec : EqDecision FsError.t.
Proof. solve_decision. Defined.

(** ** Operations *)

Section file_system.
Context `{Profile} {W : Type} `{!FileProtocol W} `{!Allocator W}.

(** An owned value that is dropped when the computation that uses it ends. *)
Definition with_handle {A} (h : Z) (m : fw W A) : fw W A :=
  r ← m; file_drop h;; mret r.

(** [Drop for Box<FileInfo>]. *)
Definition drop_box (i : InfoRef) : fw W unit :=
  call (fun w => (tt, dealloc (info_mem i) (info_size_of_val (I := FileInfo) i)
                        (info_alignment (InfoInternal := FileInfo)) w)).

Definition with_box {A} (i : InfoRef) (m : fw W A) : fw W A :=
  r ← m; drop_box i;; mret r.

Definition io_error (path : list Z) (context : IoErrorContext) (err : Error unit)
  : outcome FsError.t :=
  let! p := to_path_buf path in
  Ret (FsError.Io (mkIoError p context err)).

(** An error without a UEFI error behind it. *)
Definition logical_error (path : list Z) (context : IoErrorContext) (status : Z)
  : outcome FsError.t :=
  let! p := to_path_buf path in
  let! e := error_from_status status in
  Ret (FsError.Io (mkIoError p context e)).

(** [.map_err(|err| Error::Io(IoError { path, context, uefi_error: f(err) }))]. *)
Definition map_io {A D} (path : list Z) (context : IoErrorContext) (f : Error D -> Error unit)
  (m : fw W (uresult A D)) : fw W (fs_result A) :=
  r ← m;
  match r with
  | Ok a => mret (Ok a)
  | Err e => err ← lift (io_error path context (f e)); mret (Err err)
  end.

(** [.ok_or(..)] with its argument, which is evaluated first. *)
Definition ok_or_io {A} (path : list Z) (context : IoErrorContext) (o : option A)
  : fw W (fs_result A) :=
  e ← lift (logical_error path context Status.INVALID_PARAMETER);
  mret (ok_or o e).

Definition open_root : fw W (fs_result Z) :=
  r ← open_volume;
  match r with
  | Ok h => mret (Ok h)
  | Err err =>
      path ← lift (pathbuf_push pathbuf_new SEPARATOR_STR);
      mret (Err (FsError.Io (mkIoError path CantOpenVolume err)))
  end.

(** The handle of the root directory is a temporary of the last expression. *)
Definition open (path : list Z) (mode : FileMode) (create_dir : bool) : fw W (fs_result Z) :=
  v ← lift (validate_path path);
  match v with
  | Err e => mret (Err (FsError.Path e))
  | Ok _ =>
      let attr := if bool_decide (mode = CreateReadWrite) && create_dir
                  then FileAttribute.DIRECTORY else 0 in
      try root <- open_root;
      with_handle root (map_io path OpenError id (file_open root path mode attr))
  end.

Definition try_exists (path : list Z) : fw W (fs_result bool) :=
  r ← open path Read false;
  match r with
  | Ok h => file_drop h;; mret (Ok true)
  | Err (FsError.Io err) =>
      if err_status (uefi_error err) =? Status.NOT_FOUND then mret (Ok false)
      else mret (Err (FsError.Io err))
  | Err err => mret (Err err)
  end.

(** [self.open(path, mode, false)?.into_regular_file().ok_or(..)?]. *)
Definition open_regular (path : list Z) (mode : FileMode) (context : IoErrorContext)
  : fw W (fs_result Z) :=
  try h <- open path mode false;
  o ← into_regular_file h;
  ok_or_io path context o.

Definition remove_file (path : list Z) : fw W (fs_result unit) :=
  try h <- open path ReadWrite false;
  t ← into_type h;
  match t with
  | Err _ => lift (Panic UnwrapFailed)
  | Ok (Regular file) => map_io path CantDeleteFile id (file_delete file)
  | Ok (Dir dir) =>
      with_handle dir (e ← lift (logical_error path NotAFile Status.INVALID_PARAMETER); mret (Err e))
  end.

Definition remove_dir (path : list Z) : fw W (fs_result unit) :=
  try h <- open path ReadWrite false;
  t ← into_type h;
  match t with
  | Err _ => lift (Panic UnwrapFailed)
  | Ok (Dir dir) => map_io path CantDeleteDirectory id (file_delete dir)
  | Ok (Regular file) =>
      with_handle file (e ← lift (logical_error path NotADirectory Status.INVALID_PARAMETER); mret (Err e))
  end.

(** The loop of [copy]; [fuel] bounds its iterations. *)
Fixpoint copy_loop (fuel : nat) (src_path dest_path : list Z) (src dest : Z) (chunk : list Z)
  (remaining_size : Z) : fw W (fs_result unit) :=
  match fuel with
  | O => fun _ => NoFuel
  | S fuel' =>
      if 0 <? remaining_size then
        '(r, chunk) ← file_read src chunk;
        try num_bytes_read <- map_io src_path ReadFailure to_err_without_payload (mret r);
        if num_bytes_read =? 0 then
          e ← lift (logical_error src_path ReadFailure Status.ABORTED);
          mret (Err e)
        else
          data ← lift (slice chunk 0 num_bytes_read);
          try _ <- map_io dest_path WriteFailure to_err_without_payload (file_write dest data);
          remaining_size ← lift (usize_sub remaining_size num_bytes_read);
          copy_loop fuel' src_path dest_path src dest chunk remaining_size
      else mret (Ok tt)
  end.

Definition COPY_CHUNK : Z := 1024 * 1024.

Definition copy (fuel : nat) (src_path dest_path : list Z) : fw W (fs_result unit) :=
  try src <- open_regular src_path Read NotAFile;
  with_handle src (
    try src_info <- map_io src_path Metadata id (get_boxed_info (I := FileInfo) src);
    let src_size := file_size src_info in
    drop_box src_info;;
    _ ← remove_file dest_path;
    try dest <- open_regular dest_path CreateReadWrite OpenError;
    with_handle dest (
      try _ <- copy_loop fuel src_path dest_path src dest
                 (replicate (Z.to_nat COPY_CHUNK) 0) src_size;
      try _ <- map_io dest_path FlushFailure id (file_flush dest);
      mret (Ok tt))).

Definition create_dir (path : list Z) : fw W (fs_result unit) :=
  r ← open path CreateReadWrite true;
  match r with
  | Ok h => file_drop h;; mret (Ok tt)
  | Err e => mret (Err e)
  end.

(** The path and its ancestors, longest first; each ancestor is shorter, so the
    length of the path bounds their number. *)
Fixpoint ancestors (fuel : nat) (p : list Z) : outcome (list (list Z)) :=
  match fuel with
  | O => NoFuel
  | S fuel' =>
      let! q := parent p in
      match q with
      | None => Ret [p]
      | Some q => let! ps := ancestors fuel' q in Ret (p :: ps)
      end
  end.

Fixpoint create_missing (dirs : list (list Z)) : fw W (fs_result unit) :=
  match dirs with
  | [] => mret (Ok tt)
  | parent :: dirs =>
      try e <- try_exists parent;
      try _ <- (if negb e then create_dir parent else mret (Ok tt));
      create_missing dirs
  end.

Definition create_dir_all (path : list Z) : fw W (fs_result unit) :=
  p ← lift (to_path_buf path);
  dirs_to_create ← lift (ancestors (S (length path)) p);
  create_missing (reverse dirs_to_create).

Definition metadata (path : list Z) : fw W (fs_result InfoRef) :=
  try file <- open path Read false;
  with_handle file (map_io path Metadata id (get_boxed_info (I := FileInfo) file)).

(** [vec![0; n]]: a capacity above [isize::MAX] panics. *)
Definition vec_zeroed (n : Z) : outcome (list Z) :=
  if isize_MAX <? n then Panic Explicit else Ret (replicate (Z.to_nat n) 0).

Definition read (path : list Z) : fw W (fs_result (list Z)) :=
  try file <- open_regular path Read NotAFile;
  with_handle file (
    try info <- map_io path Metadata id (get_boxed_info (I := FileInfo) file);
    with_box info (
      vec ← lift (vec_zeroed (file_size info));
      '(r, vec) ← file_read file vec;
      try _ <- map_io path ReadFailure to_err_without_payload (mret r);
      mret (Ok vec))).

Definition read_dir (path : list Z) : fw W (fs_result Z) :=
  try h <- open path Read false;
  o ← into_directory h;
  ok_or_io path NotADirectory o.

Definition read_to_string (path : list Z) : fw W (fs_result (list Z)) :=
  try v <- read path;
  mret (ok_or (string_from_utf8 v) (FsError.Utf8Encoding v)).

Definition rename (fuel : nat) (src_path dest_path : list Z) : fw W (fs_result unit) :=
  try _ <- copy fuel src_path dest_path;
  remove_file src_path.

Definition write (path content : list Z) : fw W (fs_result unit) :=
  try e <- try_exists path;
  try _ <- (if e : bool then remove_file path else mret (Ok tt));
  try h <- open path CreateReadWrite false;
  o ← into_regular_file h;
  handle ← lift (unwrap o);
  with_handle handle (
    try _ <- map_io path WriteFailure to_err_without_payload (file_write handle content);
    try _ <- map_io path FlushFailure id (file_flush handle);
    mret (Ok tt)).

(** *** Directory iteration and recursive removal *)

(** [Iterator for UefiDirectoryIter]. *)
Definition dir_iter_next (dir : Z) : fw W (option (uresult InfoRef unit)) :=
  e ← read_entry_boxed dir;
  mret (match e with
        | Ok None => None
        | Ok (Some e) => Some (Ok e)
        | Err e => Some (Err e)
        end).

Definition COMMON_SKIP_DIRS : list (list Z) := [[0x2E; 0]; [0x2E; 0x2E; 0]].

(** One entry of the directory at [path]; [rec] is the recursive call. *)
Definition remove_entry (rec : list Z -> fw W (fs_result unit)) (path : list Z) (info : InfoRef)
  : fw W (fs_result unit) :=
  name ← lift (file_name info);
  if bool_decide (name ∈ COMMON_SKIP_DIRS) then mret (Ok tt)
  else
    p ← lift (pathbuf_push pathbuf_new path);
    abs_entry_path ← lift (pathbuf_push p name);
    if info_is_directory info then rec abs_entry_path
    else remove_file abs_entry_path.

(** The [for] loop over [read_dir(path)?.filter_map(|r| r.ok())]. *)
Fixpoint remove_entries (fuel : nat) (rec : list Z -> fw W (fs_result unit)) (path : list Z) (dir : Z)
  : fw W (fs_result unit) :=
  match fuel with
  | O => fun _ => NoFuel
  | S fuel' =>
      next ← dir_iter_next dir;
      match next with
      | None => mret (Ok tt)
      | Some (Err _) => remove_entries fuel' rec path dir
      | Some (Ok info) =>
          try _ <- with_box info (remove_entry rec path info);
          remove_entries fuel' rec path dir
      end
  end.

(** [fuel] bounds the depth of the recursion and the number of entries read. *)
Fixpoint remove_dir_all (fuel : nat) (path : list Z) : fw W (fs_result unit) :=
  match fuel with
  | O => fun _ => NoFuel
  | S fuel' =>
      try dir <- read_dir path;
      try _ <- with_handle dir (remove_entries fuel (remove_dir_all fuel') path dir);
      remove_dir path
  end.
End file_system.

(** ** No operation leaks a handle or a heap block *)

Section leaks.
Context `{Profile} {W : Type} `{!FileProtocol W} `{!Allocator W} `{!ResourceLaws W}.

Lemma with_handle_gains {A} h (m : fw W A) c c' :
  gains live m c' -> (forall a, c a = c' a - handle_cost) -> gains live (with_handle h m) c.
Proof.
  intros Hm Hc. eapply gains_bind; [exact Hm|]. intros a.
  eapply gains_bind; [apply file_drop_gains|]. intros u. apply gains_ret. rewrite Hc. lia.
Qed.

Lemma drop_box_gains i : gains live (drop_box i) (fun _ => - block_cost).
Proof. apply gains_call. intros w a w' [= <- <-]. rewrite dealloc_live. lia. Qed.

Lemma with_box_gains {A} i (m : fw W A) c c' :
  gains live m c' -> (forall a, c a = c' a - block_cost) -> gains live (with_box i m) c.
Proof.
  intros Hm Hc. eapply gains_bind; [exact Hm|]. intros a.
  eapply gains_bind; [apply drop_box_gains|]. intros u. apply gains_ret. rewrite Hc. lia.
Qed.

(** Changing the error keeps the cost. *)
Lemma map_io_gains {A D} p ctx f (m : fw W (uresult A D)) a b :
  gains live m (fun r => if is_ok r then a else b) ->
  gains live (map_io p ctx f m) (fun r => if is_ok r then a else b).
Proof.
  intros Hm. eapply gains_bind; [exact Hm|]. intros [x|e]; [apply gains_ret; simpl; lia|].
  apply gains_seq; [apply gains_lift_free|]. intros x. apply gains_ret. simpl. lia.
Qed.

Lemma map_io_const {A D} p ctx f (m : fw W (uresult A D)) c :
  gains live m (fun _ => c) -> gains live (map_io p ctx f m) (fun _ => c).
Proof.
  intros Hm. eapply gains_weaken; [apply (map_io_gains p ctx f m c c)|].
  - eapply gains_weaken; [exact Hm|]. by intros [].
  - by intros [].
Qed.

Lemma ok_or_io_gains {A} p ctx (o : option A) c :
  c = converted o -> gains live (ok_or_io p ctx o) (fun r => (if is_ok r then handle_cost else 0) - handle_cost - c).
Proof.
  intros ->. apply gains_seq; [apply gains_lift_free|]. intros e. apply gains_ret.
  destruct o; unfold converted; simpl; lia.
Qed.

(** [m?] where [m] acquires [c] only when it succeeds. *)
Lemma gains_try_ok {A B E} (m : fw W (result A E)) (k : A -> fw W (result B E)) c c2 :
  gains live m (ok_cost c) -> (forall e, c2 (Err e) = 0) ->
  (forall a, gains live (k a) (fun b => c2 b - c)) -> gains live (fw_try m k) c2.
Proof.
  intros Hm He Hk. apply (gains_try _ _ (fun _ => c)); [|exact Hk].
  eapply gains_weaken; [exact Hm|]. intros [a|e]; [done|]. by rewrite He.
Qed.

Lemma open_root_gains : gains live open_root (ok_cost handle_cost).
Proof.
  eapply gains_bind; [apply open_volume_gains|]. unfold ok_cost.
  intros [h|e]; [apply gains_ret; simpl; lia|].
  apply gains_seq; [apply gains_lift_free|]. intros p. apply gains_ret. simpl. lia.
Qed.

Lemma open_gains p mode cd : gains live (open p mode cd) (ok_cost handle_cost).
Proof.
  apply gains_seq; [apply gains_lift_free|]. intros [u|e]; [|by apply gains_ret].
  eapply gains_try_ok; [apply open_root_gains|done|]. intros root.
  eapply with_handle_gains; [apply map_io_gains, file_open_gains|]. unfold ok_cost. intros a. lia.
Qed.

Lemma open_regular_gains p mode ctx : gains live (open_regular p mode ctx) (ok_cost handle_cost).
Proof.
  eapply gains_try_ok; [apply open_gains|done|]. intros h.
  eapply gains_bind; [apply into_regular_file_gains|]. intros o.
  by apply ok_or_io_gains.
Qed.

Lemma read_dir_gains p : gains live (read_dir p) (ok_cost handle_cost).
Proof.
  eapply gains_try_ok; [apply open_gains|done|]. intros h.
  eapply gains_bind; [apply into_directory_gains|]. intros o.
  by apply ok_or_io_gains.
Qed.

Lemma try_exists_gains p : gains live (try_exists p) free.
Proof.
  eapply gains_bind; [apply open_gains|].
  intros [h|[e|e|e]]; [|repeat case_match; apply gains_ret; done..].
  eapply gains_bind; [apply file_drop_gains|]. intros u. apply gains_ret. unfold ok_cost. simpl. lia.
Qed.

Lemma create_dir_gains p : gains live (create_dir p) free.
Proof.
  eapply gains_bind; [apply open_gains|]. intros [h|e]; [|by apply gains_ret].
  eapply gains_bind; [apply file_drop_gains|]. intros u. apply gains_ret. unfold ok_cost. simpl. lia.
Qed.

(** Both removals: the handle is consumed by the deletion or dropped. *)
Lemma remove_gains p ctx k1 k2 :
  (forall h, gains live (k1 h) (fun _ => - handle_cost)) ->
  (forall h, gains live (k2 h) (fun _ => - handle_cost)) ->
  gains live (try h <- open p ReadWrite false;
     t ← into_type h;
     match t with
     | Err _ => lift (Panic ctx)
     | Ok (Regular file) => k1 file
     | Ok (Dir dir) => k2 dir
     end : fw W (fs_result unit)) free.
Proof.
  intros H1 H2. eapply gains_try_ok; [apply open_gains|done|]. intros h.
  eapply gains_bind; [apply into_type_gains|]. intros [[f|d]|e].
  - eapply gains_weaken; [apply H1|]. simpl. lia.
  - eapply gains_weaken; [apply H2|]. simpl. lia.
  - by apply gains_lift.
Qed.

Lemma drop_and_fail_gains h (o : outcome FsError.t) :
  gains live (with_handle h (e ← lift o; mret (Err e : fs_result unit))) (fun _ => - handle_cost).
Proof.
  eapply with_handle_gains; [|intros a; rewrite <- (Z.sub_0_l handle_cost); reflexivity].
  apply gains_seq; [apply gains_lift_free|]. intros e. by apply gains_ret.
Qed.

Lemma remove_file_gains p : gains live (remove_file p) free.
Proof.
  apply remove_gains; intros h; [|apply drop_and_fail_gains]. apply map_io_const, file_delete_gains.
Qed.

Lemma remove_dir_gains p : gains live (remove_dir p) free.
Proof.
  eapply (remove_gains p UnwrapFailed); intros h; [apply drop_and_fail_gains|].
  apply map_io_const, file_delete_gains.
Qed.

Lemma map_io_ret_gains {A D} p ctx f (r : uresult A D) : gains live (map_io p ctx f (mret r)) free.
Proof. apply map_io_const. by apply gains_ret. Qed.

Lemma copy_loop_gains fuel sp dp src dest chunk rem :
  gains live (copy_loop fuel sp dp src dest chunk rem) free.
Proof.
  revert chunk rem. induction fuel as [|fuel IH]; intros chunk rem; [done|]. cbn [copy_loop].
  case_match; [|by apply gains_ret].
  apply gains_seq; [apply file_read_gains|]. intros [r chunk'].
  apply gains_try_free; [apply map_io_ret_gains|done|]. intros n. case_match.
  - apply gains_seq; [apply gains_lift_free|]. intros e. by apply gains_ret.
  - apply gains_seq; [apply gains_lift_free|]. intros data.
    apply gains_try_free; [apply map_io_const, file_write_gains|done|]. intros _.
    apply gains_seq; [apply gains_lift_free|]. intros r'. apply IH.
Qed.

(** The scope of an owned handle. *)
Lemma scope_gains {A E} h (m : fw W (result A E)) c :
  gains live m c -> gains live (with_handle h m) (fun r => c r - handle_cost).
Proof. intros Hm. by eapply with_handle_gains. Qed.

Lemma box_scope_gains {A E} i (m : fw W (result A E)) c :
  gains live m c -> gains live (with_box i m) (fun r => c r - block_cost).
Proof. intros Hm. by eapply with_box_gains. Qed.

Lemma boxed_info_io_gains p h :
  gains live (map_io p Metadata id (get_boxed_info (I := FileInfo) h)) (ok_cost block_cost).
Proof. apply map_io_gains, get_boxed_info_gains. Qed.

Lemma copy_gains fuel sp dp : gains live (copy fuel sp dp) free.
Proof.
  eapply gains_try_ok; [apply open_regular_gains|done|]. intros src. apply scope_gains.
  eapply gains_try_ok; [apply boxed_info_io_gains|done|]. intros info.
  eapply gains_bind; [apply drop_box_gains|]. intros u.
  eapply gains_weaken with (c1 := free); [|intros; lia].
  apply gains_seq; [apply remove_file_gains|]. intros r.
  eapply gains_try_ok; [apply open_regular_gains|done|]. intros dest. apply scope_gains.
  apply gains_try_free; [apply copy_loop_gains|done|]. intros [].
  apply gains_try_free; [apply map_io_const, file_flush_gains|done|]. intros []. by apply gains_ret.
Qed.

Lemma create_missing_gains dirs : gains live (create_missing dirs) free.
Proof.
  induction dirs as [|d dirs IH]; simpl; [by apply gains_ret|].
  apply gains_try_free; [apply try_exists_gains|done|]. intros e.
  apply gains_try_free; [|done|intros _; exact IH].
  case_match; [apply create_dir_gains|by apply gains_ret].
Qed.

Lemma create_dir_all_gains p : gains live (create_dir_all p) free.
Proof.
  apply gains_seq; [apply gains_lift_free|]. intros q.
  apply gains_seq; [apply gains_lift_free|]. intros ps. apply create_missing_gains.
Qed.

Lemma metadata_gains p : gains live (metadata p) (ok_cost block_cost).
Proof.
  eapply gains_try_ok; [apply open_gains|done|]. intros h. apply scope_gains, boxed_info_io_gains.
Qed.

Lemma read_gains p : gains live (read p) free.
Proof.
  eapply gains_try_ok; [apply open_regular_gains|done|]. intros h. apply scope_gains.
  eapply gains_try_ok; [apply boxed_info_io_gains|done|]. intros info. apply box_scope_gains.
  apply gains_seq; [apply gains_lift_free|]. intros vec.
  apply gains_seq; [apply file_read_gains|]. intros [r vec'].
  apply gains_try_free; [apply map_io_ret_gains|done|]. intros _. by apply gains_ret.
Qed.

Lemma write_gains p content : gains live (write p content) free.
Proof.
  apply gains_try_free; [apply try_exists_gains|done|]. intros e.
  apply gains_try_free; [case_match; [apply remove_file_gains|by apply gains_ret]|done|]. intros [].
  eapply gains_try_ok; [apply open_gains|done|]. intros h.
  eapply gains_bind; [apply into_regular_file_gains|]. intros [h'|]; [|intros w a w'; discriminate].
  apply gains_seq; [apply gains_lift_free|]. intros h''.
  eapply gains_weaken; [apply scope_gains with (c := free)|unfold converted; intros; lia].
  apply gains_try_free; [apply map_io_const, file_write_gains|done|]. intros [].
  apply gains_try_free; [apply map_io_const, file_flush_gains|done|]. intros []. by apply gains_ret.
Qed.

Lemma remove_entry_gains rec p i :
  (forall q, gains live (rec q) free) -> gains live (remove_entry rec p i) free.
Proof.
  intros Hr. apply gains_seq; [apply gains_lift_free|]. intros name.
  case_match; [by apply gains_ret|].
  do 2 (apply gains_seq; [apply gains_lift_free|]; intros ?).
  case_match; [apply Hr|apply remove_file_gains].
Qed.

Lemma remove_entries_gains fuel rec p dir :
  (forall q, gains live (rec q) free) -> gains live (remove_entries fuel rec p dir) free.
Proof.
  intros Hr. induction fuel as [|fuel IH]; [done|]. cbn [remove_entries].
  eapply gains_bind with (c1 := fun o => match o with Some (Ok _) => block_cost | _ => 0 end).
  - eapply gains_bind; [apply read_entry_boxed_gains|].
    intros [[i|]|e]; apply gains_ret; simpl; lia.
  - intros [[i|e]|]; [|exact IH|by apply gains_ret].
    eapply (gains_try _ _ (fun _ => - block_cost)); [|intros a; eapply gains_weaken; [exact IH|]; intros; simpl; lia].
    eapply gains_weaken; [apply box_scope_gains, remove_entry_gains, Hr|]. intros [?|?]; simpl; lia.
Qed.

Lemma remove_dir_all_gains fuel p : gains live (remove_dir_all fuel p) free.
Proof.
  revert p. induction fuel as [|fuel IH]; intros p; [done|]. cbn [remove_dir_all].
  eapply gains_try_ok; [apply read_dir_gains|done|]. intros dir.
  eapply (gains_try _ _ (fun _ => - handle_cost)).
  - eapply gains_weaken; [apply scope_gains, remove_entries_gains, IH|]. intros [?|?]; simpl; lia.
  - intros u. eapply gains_weaken; [apply remove_dir_gains|]. intros. simpl. lia.
Qed.
End leaks.

Section file_system_properties.
Context `{Profile} {W : Type} `{!FileProtocol W} `{!Allocator W}.

(** C15: Whatever the firmware answers, a file-system operation that returns, with a
    value or with an error, has closed every handle and freed every heap block
    it acquired, except the directory handle that [read_dir] and the boxed info
    that [metadata] hand to their caller when they succeed. *)
Theorem operations_leak_nothing `{!ResourceLaws W} (fuel : nat) (p q content : list Z) :
  gains live (try_exists p) (fun _ => 0) /\ gains live (read p) (fun _ => 0) /\
  gains live (write p content) (fun _ => 0) /\ gains live (copy fuel p q) (fun _ => 0) /\
  gains live (rename fuel p q) (fun _ => 0) /\ gains live (read_to_string p) (fun _ => 0) /\
  gains live (create_dir p) (fun _ => 0) /\ gains live (create_dir_all p) (fun _ => 0) /\
  gains live (remove_file p) (fun _ => 0) /\ gains live (remove_dir p) (fun _ => 0) /\
  gains live (remove_dir_all fuel p) (fun _ => 0) /\
  gains live (read_dir p) (ok_cost handle_cost) /\
  gains live (metadata p) (ok_cost block_cost).
Proof.
  do 4 (split; [auto using try_exists_gains, read_gains, write_gains, copy_gains|]).
  split; [apply gains_try_free; [apply copy_gains|done|intros []; apply remove_file_gains]|].
  split; [apply gains_try_free; [apply read_gains|done|intros v; by apply gains_ret]|].
  repeat split; auto using create_dir_gains, create_dir_all_gains, remove_file_gains, remove_dir_gains,
    remove_dir_all_gains, read_dir_gains, metadata_gains.
Qed.

(** [create_dir_all] of an absolute path with a single component never reaches
    the firmware: it fails on the empty parent path. *)
Theorem create_dir_all_toplevel_fails (c : list Z) (w : W) :
  Forall body_char c -> zlen c < isize_MAX - 1 -> component_ok c -> no_sep c ->
  create_dir_all (SEPARATOR :: c ++ [0]) w = Ret (Err (FsError.Path Empty), w).
Proof.
  intros Hc Hl Hok Hns.
  assert (to_path_buf (SEPARATOR :: c ++ [0]) = Ret (SEPARATOR :: c ++ [0])) as Hb.
  { unfold to_path_buf, cstring16_from_cstr16, cstr16_to_owned, cstr16_as_slice_with_nul.
    rewrite app_comm_cons, pathbuf_from_app, replace_char_id; [done|].
    apply not_elem_of_cons. split; [done|]. by apply component_ok_no_slash. }
  unfold create_dir_all. erewrite fw_bind_Ret by (unfold lift; rewrite Hb; reflexivity). cbv beta.
  destruct (parent_of_toplevel_is_empty c Hc Hl Hok Hns) as [Hp _].
  erewrite fw_bind_Ret.
  2: { unfold lift. cbn [ancestors length]. rewrite Hp. cbn [obind]. rewrite length_app. simpl plus.
       rewrite Nat.add_comm. cbn [ancestors plus]. reflexivity. }
  reflexivity.
Qed.

(** *** Directory iteration *)

Lemma remove_entries_diverges fuel rec path dir e w :
  (forall w, exists w', dir_iter_next dir w = Ret (Some (Err e), w')) ->
  remove_entries (W := W) fuel rec path dir w = NoFuel.
Proof.
  intros He. revert w. induction fuel as [|fuel IH]; intros w; [done|]. cbn [remove_entries].
  destruct (He w) as [w' E]. rewrite (fw_bind_Ret _ _ _ _ _ E). apply IH.
Qed.

(** C38: When the firmware keeps failing to read the entries of a directory,
    [remove_dir_all] skips the error and asks again, without end: no number of
    iterations suffices. *)
Theorem remove_dir_all_diverges (path : list Z) (dir : Z) (e : Error unit) (w w1 : W) :
  read_dir path w = Ret (Ok dir, w1) ->
  (forall w, exists w', dir_iter_next dir w = Ret (Some (Err e), w')) ->
  forall fuel, remove_dir_all fuel path w = NoFuel.
Proof.
  intros Hr He [|fuel]; [done|]. cbn [remove_dir_all]. unfold fw_try.
  rewrite (fw_bind_Ret _ _ _ _ _ Hr). unfold with_handle, mbind, fw_bind.
  by rewrite (remove_entries_diverges _ _ _ _ _ _ He).
Qed.
End file_system_properties.

(** A firmware whose directories open but whose media cannot be read. *)
Definition broken_protocol : FileProtocol unit := {|
  efi_open_volume w := ((Status.SUCCESS, 1), w);
  efi_open _ _ _ _ w := ((Status.SUCCESS, 2), w);
  efi_close _ w := (Status.SUCCESS, w);
  efi_delete _ w := (Status.WARN_DELETE_FAILURE, w);
  efi_read _ _ w := ((Status.DEVICE_ERROR, 0, []), w);
  efi_write _ _ w := ((Status.DEVICE_ERROR, 0), w);
  efi_get_position _ w := ((Status.UNSUPPORTED, 0), w);
  efi_set_position _ _ w := (Status.DEVICE_ERROR, w);
  efi_get_info _ _ _ w := ((Status.DEVICE_ERROR, 0, []), w);
  efi_set_info _ _ _ w := (Status.DEVICE_ERROR, w);
  efi_flush _ w := (Status.DEVICE_ERROR, w);
|}.

Definition no_memory : Allocator unit := {| alloc _ _ w := (None, w); dealloc _ _ _ w := w |}.

Lemma create_dir_all_toplevel_fails_witness :
  create_dir_all (H := debug_profile) (FileProtocol0 := broken_protocol) [SEPARATOR; 0x61; 0] tt =
  Ret (Err (FsError.Path Empty), tt).
Proof.
  apply (@create_dir_all_toplevel_fails debug_profile unit broken_protocol [0x61] tt);
    by_decide.
Defined.

Lemma remove_dir_all_diverges_witness :
  remove_dir_all (H := debug_profile) (FileProtocol0 := broken_protocol)
    (Allocator0 := no_memory) 1000 [0x61; 0] tt = NoFuel.
Proof.
  apply (@remove_dir_all_diverges debug_profile unit broken_protocol no_memory [0x61; 0] 2
    (mkError Status.DEVICE_ERROR tt) tt tt).
  - vm_compute. reflexivity.
  - intros []. exists tt. vm_compute. reflexivity.
Defined.
