(* ===== verification/Volume.v ===== *)
(** * The file system over a well-behaved volume

    An abstract volume is a tree of directories and files and the handles open
    on it.  [VolumeLaws] states what the UEFI specification documents of the
    firmware's file protocol in its terms, and the theorems here show that the
    operations of [FileSystem] then have the effect their names promise: the
    concrete operations refine the updates of the tree.  An in-memory volume
    shows that the laws can be met. *)
From stdpp Require Import gmap.
From S2P Require Import Prelude Firmware Chars Strs OwnedStrs Path Status FileInfo File FileSystem.

(** ** Abstract volumes *)

(** The name of a file: the components of its path. *)
Abbreviation fkey := (list (list Z)).

Inductive node : Set := DirNode | FileNode (content : list Z).

#[export] Instance node_eq_dec : EqDecision node.
Proof. solve_decision. Defined.

(** An open handle: the file it is for and the position in it. *)
Record hstate : Set := mkH { h_key : fkey; h_pos : Z }.

Record vol : Set := mkVol { tree : gmap fkey node; handles : gmap Z hstate }.

Definition add_handle (v : vol) (h : Z) (k : fkey) (pos : Z) : vol :=
  mkVol (tree v) (<[h := mkH k pos]> (handles v)).
Definition del_handle (v : vol) (h : Z) : vol := mkVol (tree v) (delete h (handles v)).
Definition set_node (v : vol) (k : fkey) (n : node) : vol := mkVol (<[k := n]> (tree v)) (handles v).
Definition del_node (v : vol) (k : fkey) : vol := mkVol (delete k (tree v)) (handles v).

(** No handle is open on [k]. *)
Definition not_open (v : vol) (k : fkey) : Prop := map_Forall (fun _ s => h_key s <> k) (handles v).

Definition parent_is_dir (v : vol) (k : fkey) : Prop := tree v !! removelast k = Some DirNode.

#[export] Instance not_open_dec v k : Decision (not_open v k).
Proof. unfold not_open. apply _. Defined.
#[export] Instance parent_is_dir_dec v k : Decision (parent_is_dir v k).
Proof. unfold parent_is_dir. apply _. Defined.

(** The paths that name a file by its components: valid ones without [.] and [..]. *)
Definition good_path (p : list Z) : Prop :=
  path_wf p /\ body p <> [] /\ Forall component_ok (path_components (body p)) /\
  Forall (fun c => c <> [0x2E] /\ c <> [0x2E; 0x2E]) (path_components (body p)).

#[export] Instance component_ok_dec c : Decision (component_ok c).
Proof. unfold component_ok. apply _. Defined.
#[export] Instance good_path_dec p : Decision (good_path p).
Proof. unfold good_path. apply _. Defined.

(** Encodings of [EFI_FILE_INFO] for a file of the given size. *)
Definition info_encodes (enc : list Z) (size : Z) : Prop :=
  exists name, cstr16_wf name /\ zlen name < 2 ^ 32 /\ zlen enc = 80 + 2 * zlen name /\
    range enc 80 (2 * zlen name) = cstr16_as_bytes name /\ le_val (range enc 8 8) = size.

Definition creates (mode : Z) : bool := Z.testbit mode 63.

(** ** What the firmware promises *)

Class VolumeLaws (W : Type) `{!FileProtocol W} `{!Allocator W} : Type := {
  view : W -> vol;
  (** The file system may fold the case of names. *)
  canon : list Z -> list Z;
  info_enc : vol -> Z -> list Z;
  vol_open_volume : forall w, exists h w',
    efi_open_volume w = ((Status.SUCCESS, h), w') /\ h <> 0 /\ handles (view w) !! h = None /\
    view w' = add_handle (view w) h [] 0;
  vol_open_existing : forall w h0 p mode attr n,
    handles (view w) !! h0 = Some (mkH [] 0) -> good_path p ->
    tree (view w) !! map canon (path_components (body p)) = Some n ->
    creates mode = false ->
    exists h w', efi_open h0 p mode attr w = ((Status.SUCCESS, h), w') /\ h <> 0 /\
      handles (view w) !! h = None /\
      view w' = add_handle (view w) h (map canon (path_components (body p))) 0;
  vol_open_missing : forall w h0 p mode attr,
    handles (view w) !! h0 = Some (mkH [] 0) -> good_path p ->
    tree (view w) !! map canon (path_components (body p)) = None -> creates mode = false ->
    exists h w', efi_open h0 p mode attr w = ((Status.NOT_FOUND, h), w') /\ view w' = view w;
  vol_create : forall w h0 p mode attr,
    handles (view w) !! h0 = Some (mkH [] 0) -> good_path p ->
    tree (view w) !! map canon (path_components (body p)) = None -> creates mode = true ->
    parent_is_dir (view w) (map canon (path_components (body p))) ->
    exists h w', efi_open h0 p mode attr w = ((Status.SUCCESS, h), w') /\ h <> 0 /\
      handles (view w) !! h = None /\
      view w' = add_handle
        (set_node (view w) (map canon (path_components (body p)))
           (if FileAttribute.contains attr FileAttribute.DIRECTORY then DirNode else FileNode []))
        h (map canon (path_components (body p))) 0;
  vol_close : forall w h, is_Some (handles (view w) !! h) -> exists w',
    efi_close h w = (Status.SUCCESS, w') /\ view w' = del_handle (view w) h;
  vol_delete : forall w h k pos c,
    handles (view w) !! h = Some (mkH k pos) -> tree (view w) !! k = Some (FileNode c) ->
    not_open (del_handle (view w) h) k ->
    exists w', efi_delete h w = (Status.SUCCESS, w') /\
      view w' = del_node (del_handle (view w) h) k;
  vol_get_position : forall w h k pos n,
    handles (view w) !! h = Some (mkH k pos) -> tree (view w) !! k = Some n ->
    exists w', efi_get_position h w =
      (match n with FileNode _ => (Status.SUCCESS, pos) | DirNode => (Status.UNSUPPORTED, 0) end, w') /\
      view w' = view w;
  vol_read : forall w h k pos c n,
    handles (view w) !! h = Some (mkH k pos) -> tree (view w) !! k = Some (FileNode c) ->
    0 <= n -> 0 <= pos ->
    exists w', efi_read h n w = ((Status.SUCCESS, zlen (range c pos n), range c pos n), w') /\
      view w' = add_handle (view w) h k (pos + zlen (range c pos n));
  vol_write : forall w h k pos c d,
    handles (view w) !! h = Some (mkH k pos) -> tree (view w) !! k = Some (FileNode c) ->
    0 <= pos <= zlen c ->
    exists w', efi_write h d w = ((Status.SUCCESS, zlen d), w') /\
      view w' = add_handle (set_node (view w) k
        (FileNode (take (Z.to_nat pos) c ++ d ++ drop (Z.to_nat pos + length d) c))) h k (pos + zlen d);
  vol_get_info : forall w h k pos c n,
    handles (view w) !! h = Some (mkH k pos) -> tree (view w) !! k = Some (FileNode c) ->
    zlen c < 2 ^ 63 ->
    info_encodes (info_enc (view w) h) (zlen c) /\
    exists w', efi_get_info h (info_GUID (InfoInternal := FileInfo)) n w =
      (if n <? zlen (info_enc (view w) h)
       then (Status.BUFFER_TOO_SMALL, zlen (info_enc (view w) h), [])
       else (Status.SUCCESS, zlen (info_enc (view w) h), info_enc (view w) h), w') /\
      view w' = view w;
  vol_flush : forall w h, is_Some (handles (view w) !! h) -> exists w',
    efi_flush h w = (Status.SUCCESS, w') /\ view w' = view w;
  vol_alloc : forall w size al, 0 <= size -> 0 < al -> exists b w',
    alloc size al w = (Some b, w') /\ zlen (bytes b) = size /\ addr b mod al = 0 /\ view w' = view w;
  vol_dealloc : forall w b size al, view (dealloc b size al w) = view w;
}.

Definition key `{VolumeLaws W} (p : list Z) : fkey := map canon (path_components (body p)).

(** ** Total correctness *)

Section triples.
Context `{Profile} {W : Type} `{!FileProtocol W} `{!Allocator W} `{!VolumeLaws W}.

(** From every state with view [v], [m] returns, and [Q] holds of the result
    and the new view. *)
Definition spec {A} (m : fw W A) (v : vol) (Q : A -> vol -> Prop) : Prop :=
  forall w, view w = v -> exists a w', m w = Ret (a, w') /\ Q a (view w').

Lemma spec_bind {A B} (m : fw W A) (k : A -> fw W B) v P Q :
  spec m v P -> (forall a v', P a v' -> spec (k a) v' Q) -> spec (m ≫= k) v Q.
Proof.
  intros Hm Hk w Hw. destruct (Hm w Hw) as (a & w1 & E & HP).
  destruct (Hk a _ HP w1 eq_refl) as (b & w2 & E2 & HQ). exists b, w2. split; [|done].
  by rewrite (fw_bind_Ret _ _ _ _ _ E).
Qed.

Lemma spec_ret {A} (a : A) v (Q : A -> vol -> Prop) : Q a v -> spec (mret a) v Q.
Proof. intros HQ w <-. by exists a, w. Qed.

Lemma spec_lift {A} (o : outcome A) a v (Q : A -> vol -> Prop) : o = Ret a -> Q a v -> spec (lift o) v Q.
Proof. intros -> HQ w <-. by exists a, w. Qed.

Lemma spec_call {A} (f : W -> A * W) v (Q : A -> vol -> Prop) :
  (forall w, view w = v -> exists a w', f w = (a, w') /\ Q a (view w')) -> spec (call f) v Q.
Proof. intros Hf w Hw. destruct (Hf w Hw) as (a & w' & E & HQ). exists a, w'. by rewrite <- E. Qed.

Lemma spec_conseq {A} (m : fw W A) v P Q :
  spec m v P -> (forall a v', P a v' -> Q a v') -> spec m v Q.
Proof. intros Hm HPQ w Hw. destruct (Hm w Hw) as (a & w' & E & HP). eauto. Qed.

(** [m?] where [m] succeeds. *)
Lemma spec_try {A B E} (m : fw W (result A E)) (k : A -> fw W (result B E)) v P Q :
  spec m v (fun r v' => exists a, r = Ok a /\ P a v') ->
  (forall a v', P a v' -> spec (k a) v' Q) -> spec (fw_try m k) v Q.
Proof. intros Hm Hk. eapply spec_bind; [exact Hm|]. intros r v' (a & -> & HP). by apply Hk. Qed.

(** The next step is a lifted value. *)
Lemma spec_lift_bind {A B} (o : outcome A) (k : A -> fw W B) a v Q :
  o = Ret a -> spec (k a) v Q -> spec (lift o ≫= k) v Q.
Proof. intros Ho Hk. eapply spec_bind; [by eapply (spec_lift _ a _ (fun x v' => x = a /\ v' = v))|]. by intros ? ? [-> ->]. Qed.

Lemma spec_imp {B} h (k : unit -> fw W B) v Q : h <> 0 -> spec (k tt) v Q -> spec (imp h ≫= k) v Q.
Proof. intros Hh. apply spec_lift_bind. by rewrite (proj2 (Z.eqb_neq h 0)). Qed.

(** ** Handles *)

Lemma file_drop_spec h v :
  h <> 0 -> is_Some (handles v !! h) -> spec (file_drop h) v (fun _ v' => v' = del_handle v h).
Proof.
  intros Hh Hv. apply spec_imp; [done|]. eapply spec_bind.
  - apply (spec_call _ _ (fun s v' => s = Status.SUCCESS /\ v' = del_handle v h)).
    intros w <-. destruct (vol_close w h Hv) as (w' & E & Ev). eauto.
  - intros s v' [-> ->]. eapply spec_lift_bind; [done|]. by eapply spec_lift.
Qed.

Lemma with_handle_spec {A} h (m : fw W A) v Q :
  h <> 0 -> spec m v (fun a v' => is_Some (handles v' !! h) /\ Q a (del_handle v' h)) ->
  spec (with_handle h m) v Q.
Proof.
  intros Hh Hm. eapply spec_bind; [exact Hm|]. intros a v' [Hs HQ].
  eapply spec_bind; [by apply file_drop_spec|]. intros u v'' ->. by apply spec_ret.
Qed.

Lemma del_add_handle v h k pos : handles v !! h = None -> del_handle (add_handle v h k pos) h = v.
Proof. destruct v as [t hs]. unfold del_handle, add_handle. simpl. intros. by rewrite delete_insert_id. Qed.

Lemma del_add_handle_ne v h h' k pos :
  h <> h' -> del_handle (add_handle v h' k pos) h = add_handle (del_handle v h) h' k pos.
Proof. intros. unfold del_handle, add_handle. simpl. by rewrite delete_insert_ne. Qed.

Lemma add_add_handle v h k pos k' pos' :
  add_handle (add_handle v h k pos) h k' pos' = add_handle v h k' pos'.
Proof. unfold add_handle. simpl. by rewrite insert_insert_eq. Qed.

Lemma lookup_add_handle v h k pos : handles (add_handle v h k pos) !! h = Some (mkH k pos).
Proof. apply lookup_insert_eq. Qed.

(** ** Opening *)

Lemma good_path_valid p : good_path p -> validate_path p = Ret (Ok tt).
Proof.
  intros (Hw & Hne & Hok & _). destruct (path_wf_inv p Hw) as (b & -> & Eb & Hb & Hl).
  rewrite Eb in *. rewrite validate_path_app by done. rewrite bool_decide_false by done.
  f_equal. induction Hok as [|c cs [Hc Hd] _ IH]; [done|]. simpl.
  rewrite bool_decide_false by done. replace (List.find denied c) with (@None Z); [exact IH|].
  clear Hc IH. induction Hd as [|x c Hx _ IHc]; [done|]. simpl. by rewrite Hx.
Qed.

Lemma to_path_buf_ok p : path_wf p -> exists q, to_path_buf p = Ret q.
Proof.
  intros (b & -> & _ & _)%path_wf_inv. unfold to_path_buf, cstring16_from_cstr16, cstr16_to_owned.
  unfold cstr16_as_slice_with_nul. rewrite pathbuf_from_app. eauto.
Qed.

(** The temporary handle of the root directory is gone when [open] returns. *)
Lemma open_via_root p mode cd v Q :
  good_path p ->
  (forall root, root <> 0 -> handles v !! root = None ->
     let attr := if bool_decide (mode = CreateReadWrite) && cd then FileAttribute.DIRECTORY else 0 in
     spec (map_io p OpenError id (file_open root p mode attr)) (add_handle v root [] 0)
       (fun r v' => is_Some (handles v' !! root) /\ Q r (del_handle v' root))) ->
  spec (open p mode cd) v Q.
Proof.
  intros Hp Hm. eapply spec_lift_bind; [by apply good_path_valid|]. cbn iota.
  eapply (spec_try _ _ _ (fun root v' => root <> 0 /\ handles v !! root = None /\ v' = add_handle v root [] 0)).
  - eapply spec_bind with (P := fun r v' => exists root, r = Ok root /\ root <> 0 /\
      handles v !! root = None /\ v' = add_handle v root [] 0).
    + eapply spec_bind.
      * apply (spec_call _ _ (fun r v' => exists root, r = (Status.SUCCESS, root) /\ root <> 0 /\
          handles v !! root = None /\ v' = add_handle v root [] 0)).
        intros w <-. destruct (vol_open_volume w) as (h & w' & E & Hh & Hn & Ev).
        exists (Status.SUCCESS, h), w'. split; [done|]. eauto.
      * intros [s h] v' (root & [= -> ->] & Hr). eapply spec_lift; [done|]. eauto.
    + intros r v' (root & -> & Hr). apply spec_ret. eauto.
  - intros root v' (Hr & Hn & ->). apply with_handle_spec; [done|]. by apply Hm.
Qed.

(** What [open] gives when it succeeds: one new handle at position zero. *)
Definition opened (v : vol) (k : fkey) (r : fs_result Z) (v' : vol) : Prop :=
  exists h, r = Ok h /\ h <> 0 /\ handles v !! h = None /\ v' = add_handle v h k 0.

Lemma creates_mode mode :
  creates (raw_file_mode (file_mode_bits mode)) = bool_decide (mode = CreateReadWrite).
Proof. by destruct mode. Qed.

(** The successful outcomes of the firmware's open under the root handle. *)
Lemma file_open_opened p mode attr v v1 root :
  root <> 0 -> handles v !! root = None ->
  (forall w, view w = add_handle v root [] 0 -> exists h w',
     efi_open root p (raw_file_mode (file_mode_bits mode)) attr w = ((Status.SUCCESS, h), w') /\ h <> 0 /\
     handles (view w) !! h = None /\ view w' = add_handle (add_handle v1 root [] 0) h (key p) 0) ->
  handles v1 = handles v ->
  spec (map_io p OpenError id (file_open root p mode attr)) (add_handle v root [] 0)
    (fun r v' => is_Some (handles v' !! root) /\ opened v1 (key p) r (del_handle v' root)).
Proof.
  intros Hr Hn Ho Hv. eapply spec_bind with (P := fun r v' => exists h, r = Ok h /\ h <> 0 /\ h <> root /\
    handles v !! h = None /\ v' = add_handle (add_handle v1 root [] 0) h (key p) 0).
  - apply spec_imp; [done|]. eapply spec_bind.
    + apply (spec_call _ _ (fun r v' => exists h, r = (Status.SUCCESS, h) /\ h <> 0 /\ h <> root /\
        handles v !! h = None /\ v' = add_handle (add_handle v1 root [] 0) h (key p) 0)).
      intros w Hw. destruct (Ho w Hw) as (h & w' & E & Hh & Hf & Ev).
      rewrite Hw in Hf. simpl in Hf. apply lookup_insert_None in Hf as [Hf Hne].
      exists (Status.SUCCESS, h), w'. split; [done|]. exists h. repeat split; congruence.
    + intros [s h] v' (h' & [= -> ->] & Hh). eapply spec_lift; [done|]. eauto.
  - intros r v' (h & -> & Hh & Hne & Hf & ->). apply spec_ret. split.
    + unfold add_handle. simpl. rewrite lookup_insert_ne, lookup_insert_eq by done. eauto.
    + exists h. split; [done|]. split; [done|]. rewrite Hv. split; [done|].
      rewrite del_add_handle_ne by done. rewrite del_add_handle; [done|]. by rewrite Hv.
Qed.

Lemma open_existing p mode cd v n :
  good_path p -> tree v !! key p = Some n -> mode <> CreateReadWrite ->
  spec (open p mode cd) v (opened v (key p)).
Proof.
  intros Hp Ht Hm. apply open_via_root; [done|]. intros root Hr Hn attr.
  apply file_open_opened; [done|done| |done]. intros w Hw.
  destruct (vol_open_existing w root p (raw_file_mode (file_mode_bits mode)) attr n)
    as (h & w' & E & Hh & Hf & Ev).
  - rewrite Hw. apply lookup_add_handle.
  - done.
  - by rewrite Hw.
  - rewrite creates_mode. by apply bool_decide_false.
  - rewrite Hw in Ev. exists h, w'. auto.
Qed.

Lemma open_create p cd v :
  good_path p -> tree v !! key p = None -> parent_is_dir v (key p) ->
  spec (open p CreateReadWrite cd) v
    (opened (set_node v (key p) (if cd then DirNode else FileNode [])) (key p)).
Proof.
  intros Hp Ht Hd. apply open_via_root; [done|]. intros root Hr Hn attr.
  apply file_open_opened; [done|done| |done]. intros w Hw.
  destruct (vol_create w root p (raw_file_mode (file_mode_bits CreateReadWrite)) attr)
    as (h & w' & E & Hh & Hf & Ev).
  - rewrite Hw. apply lookup_add_handle.
  - done.
  - by rewrite Hw.
  - by rewrite creates_mode.
  - by rewrite Hw.
  - exists h, w'. do 3 (split; [done|]). rewrite Ev, Hw. by destruct cd.
Qed.

Definition not_found (p : list Z) (v : vol) {A} (r : fs_result A) (v' : vol) : Prop :=
  v' = v /\ exists q, to_path_buf p = Ret q /\ r = Err (FsError.Io (mkIoError q OpenError (mkError Status.NOT_FOUND tt))).

Lemma open_missing p mode cd v :
  good_path p -> tree v !! key p = None -> mode <> CreateReadWrite ->
  spec (open p mode cd) v (not_found p v).
Proof.
  intros Hp Ht Hm. apply open_via_root; [done|]. intros root Hr Hn attr.
  eapply spec_bind with (P := fun r v' => r = Err (mkError Status.NOT_FOUND tt) /\ v' = add_handle v root [] 0).
  - apply spec_imp; [done|]. eapply spec_bind.
    + apply (spec_call _ _ (fun r v' => r.1 = Status.NOT_FOUND /\ v' = add_handle v root [] 0)).
      intros w Hw.
      destruct (vol_open_missing w root p (raw_file_mode (file_mode_bits mode)) attr) as (h & w' & E & Ev).
      * rewrite Hw. apply lookup_add_handle.
      * done.
      * by rewrite Hw.
      * rewrite creates_mode. by apply bool_decide_false.
      * exists (Status.NOT_FOUND, h), w'. rewrite Ev. auto.
    + intros [s h] v' [Hs ->]. simpl in Hs. subst s. by eapply spec_lift.
  - intros r v' [-> ->]. destruct (to_path_buf_ok p (proj1 Hp)) as [q Eq].
    eapply spec_lift_bind; [unfold io_error; rewrite Eq; reflexivity|]. apply spec_ret.
    rewrite lookup_add_handle. split; [eauto|]. split; [|eauto]. by apply del_add_handle.
Qed.

(** ** Existence *)

Lemma try_exists_spec p v :
  good_path p ->
  spec (try_exists p) v (fun r v' => r = Ok (bool_decide (is_Some (tree v !! key p))) /\ v' = v).
Proof.
  intros Hp. destruct (tree v !! key p) as [n|] eqn:Ht.
  - eapply spec_bind; [by eapply open_existing|]. intros r v' (h & -> & Hh & Hn & ->).
    eapply spec_bind; [apply file_drop_spec; [done|]; rewrite lookup_add_handle; eauto|].
    intros u v' ->. apply spec_ret. rewrite del_add_handle by done. done.
  - eapply spec_bind; [by apply open_missing|]. intros r v' (-> & q & _ & ->). by apply spec_ret.
Qed.

(** ** Files *)

Lemma is_regular_file_spec h k pos n v :
  h <> 0 -> handles v !! h = Some (mkH k pos) -> tree v !! k = Some n ->
  spec (is_regular_file h) v (fun r v' => r = Ok (if n is FileNode _ then true else false) /\ v' = v).
Proof.
  intros Hh Hv Ht. eapply spec_lift_bind; [by rewrite (proj2 (Z.eqb_neq h 0))|].
  eapply spec_bind.
  - apply (spec_call _ _ (fun r v' =>
      r.1 = match n with FileNode _ => Status.SUCCESS | DirNode => Status.UNSUPPORTED end /\ v' = v)).
    intros w <-. destruct (vol_get_position w h k pos n Hv Ht) as (w' & E & Ev).
    do 2 eexists. split; [exact E|]. split; [by destruct n|done].
  - intros [s x] v' [Hs ->]. simpl in Hs. subst s. destruct n; by apply spec_ret.
Qed.

Lemma into_type_spec h k pos n v :
  h <> 0 -> handles v !! h = Some (mkH k pos) -> tree v !! k = Some n ->
  spec (into_type h) v (fun r v' => r = Ok (if n is FileNode _ then Regular h else Dir h) /\ v' = v).
Proof.
  intros Hh Hv Ht. eapply spec_bind; [by eapply is_regular_file_spec|].
  intros r v' [-> ->]. apply spec_ret. by destruct n.
Qed.

Lemma into_regular_file_spec h k pos c v :
  h <> 0 -> handles v !! h = Some (mkH k pos) -> tree v !! k = Some (FileNode c) ->
  spec (into_regular_file h) v (fun r v' => r = Some h /\ v' = v).
Proof.
  intros Hh Hv Ht. eapply spec_bind; [by eapply into_type_spec|].
  intros r v' [-> ->]. by apply spec_ret.
Qed.

Lemma not_open_del v h k : not_open v k -> not_open (del_handle v h) k.
Proof. intros Hn. by apply map_Forall_delete. Qed.

Lemma file_delete_spec h k pos c v :
  h <> 0 -> handles v !! h = Some (mkH k pos) -> tree v !! k = Some (FileNode c) ->
  not_open (del_handle v h) k ->
  spec (file_delete h) v (fun r v' => r = Ok tt /\ v' = del_node (del_handle v h) k).
Proof.
  intros Hh Hv Ht Hn. apply spec_imp; [done|]. eapply spec_bind.
  - apply (spec_call _ _ (fun s v' => s = Status.SUCCESS /\ v' = del_node (del_handle v h) k)).
    intros w <-. destruct (vol_delete w h k pos c Hv Ht Hn) as (w' & E & Ev). eauto.
  - intros s v' [-> ->]. by eapply spec_lift.
Qed.

(** Mapping the error of a computation that succeeds. *)
Lemma map_io_spec {A D} p ctx f (m : fw W (uresult A D)) v (P : A -> vol -> Prop) :
  spec m v (fun r v' => exists a, r = Ok a /\ P a v') ->
  spec (map_io p ctx f m) v (fun r v' => exists a, r = Ok a /\ P a v').
Proof. intros Hm. eapply spec_bind; [exact Hm|]. intros r v' (a & -> & HP). apply spec_ret. eauto. Qed.

Lemma remove_file_spec p v c :
  good_path p -> tree v !! key p = Some (FileNode c) -> not_open v (key p) ->
  spec (remove_file p) v (fun r v' => r = Ok tt /\ v' = del_node v (key p)).
Proof.
  intros Hp Ht Hn. eapply spec_bind; [by eapply (open_existing p ReadWrite)|].
  intros r v' (h & -> & Hh & Hf & ->). cbn iota.
  eapply spec_bind; [eapply into_type_spec; [done|apply lookup_add_handle|exact Ht]|].
  intros r v' [-> ->]. cbn iota.
  eapply spec_conseq; [apply (map_io_spec _ _ _ _ _ (fun _ v' => v' = del_node v (key p)))|].
  - eapply spec_conseq; [eapply file_delete_spec|].
    + done.
    + apply lookup_add_handle.
    + exact Ht.
    + by rewrite del_add_handle.
    + intros r v' [-> ->]. exists tt. by rewrite del_add_handle.
  - by intros r v' ([] & -> & ->).
Qed.

Lemma logical_error_ok p ctx s : path_wf p -> s <> 0 ->
  exists e, logical_error p ctx s = Ret e.
Proof.
  intros Hp Hs. destruct (to_path_buf_ok p Hp) as [q Eq]. unfold logical_error. rewrite Eq. cbn [obind].
  unfold error_from_status, error_new. change Status.SUCCESS with 0.
  rewrite (proj2 (Z.eqb_neq s 0)) by done. eauto.
Qed.

Lemma ok_or_io_spec {A} p ctx (x : A) v :
  path_wf p -> spec (ok_or_io p ctx (Some x)) v (fun r v' => r = Ok x /\ v' = v).
Proof.
  intros Hp. destruct (logical_error_ok p ctx Status.INVALID_PARAMETER Hp) as [e Ee]; [done|].
  eapply spec_lift_bind; [exact Ee|]. by apply spec_ret.
Qed.

(** Opening and converting, whenever [open] gives a handle for a file. *)
Lemma open_regular_spec p mode ctx v v1 c :
  path_wf p -> spec (open p mode false) v (opened v1 (key p)) -> tree v1 !! key p = Some (FileNode c) ->
  spec (open_regular p mode ctx) v (opened v1 (key p)).
Proof.
  intros Hp Ho Ht. eapply spec_bind; [exact Ho|]. intros r v' (h & -> & Hh & Hf & ->). cbn iota.
  eapply spec_bind; [eapply into_regular_file_spec; [done|apply lookup_add_handle|exact Ht]|].
  intros o v' [-> ->]. eapply spec_conseq; [by apply ok_or_io_spec|].
  intros r v' [-> ->]. exists h. auto.
Qed.

(** Reading [EFI_FILE_INFO] into a buffer that is large enough. *)
Lemma get_info_spec h k pos c v b :
  h <> 0 -> handles v !! h = Some (mkH k pos) -> tree v !! k = Some (FileNode c) -> zlen c < 2 ^ 63 ->
  addr b mod 8 = 0 -> zlen (bytes b) = zlen (info_enc v h) ->
  spec (get_info (I := FileInfo) h b) v (fun r v' => v' = v /\ exists i, r = Ok i /\ file_size i = zlen c).
Proof.
  intros Hh Hv Ht Hc Hal Hlen. eapply spec_lift_bind.
  { unfold assert_aligned. destruct (bytes b) eqn:Eb; [done|]. apply assert_true, Z.eqb_eq.
    unfold align_offset. simpl. by apply Z.mod_opp_l_z. }
  apply spec_imp; [done|]. eapply spec_bind.
  - apply (spec_call _ _ (fun r v' => v' = v /\ info_encodes (info_enc v h) (zlen c) /\
      r = (Status.SUCCESS, zlen (info_enc v h), info_enc v h))).
    intros w <-. destruct (vol_get_info w h k pos c (zlen (bytes b)) Hv Ht Hc) as (He & w' & E & Ev).
    rewrite (proj2 (Z.ltb_ge _ _)) in E by lia. do 2 eexists. split; [exact E|]. done.
  - intros r v' (-> & (name & Hnw & Hnl & El & En & Es) & ->). cbn iota beta.
    assert (write_raw (bytes b) 0 (info_enc v h) = Ret (info_enc v h)) as Hw.
    { unfold write_raw. rewrite !(proj2 (Z.leb_le _ _)) by lia. simpl.
      rewrite drop_ge, app_nil_r; [done|]. unfold zlen in *. lia. }
    eapply spec_lift_bind; [exact Hw|]. eapply spec_bind.
    { eapply (spec_lift _ (Ok tt) v (fun r v' => r = Ok tt /\ v' = v)); done. }
    intros r v' [-> ->]. cbn iota. eapply spec_lift_bind.
    { unfold from_uefi, is_aligned. simpl. rewrite (proj2 (Z.eqb_eq _ 0)) by done. simpl.
      rewrite (name_units_found (I := FileInfo) _ name); [reflexivity|done|done|done]. }
    apply spec_ret. split; [done|]. eexists. split; [done|]. exact Es.
Qed.

Lemma get_info_size h k pos c v :
  h <> 0 -> handles v !! h = Some (mkH k pos) -> tree v !! k = Some (FileNode c) -> zlen c < 2 ^ 63 ->
  spec (get_info (I := FileInfo) h empty_slice) v (fun r v' => v' = v /\
    r = Err (mkError Status.BUFFER_TOO_SMALL (Some (zlen (info_enc v h)))) /\
    0 <= zlen (info_enc v h) < 2 ^ 40).
Proof.
  intros Hh Hv Ht Hc. eapply spec_lift_bind; [done|]. apply spec_imp; [done|]. eapply spec_bind.
  - apply (spec_call _ _ (fun r v' => v' = v /\ info_encodes (info_enc v h) (zlen c) /\
      r = (Status.BUFFER_TOO_SMALL, zlen (info_enc v h), []))).
    intros w <-. destruct (vol_get_info w h k pos c 0 Hv Ht Hc) as (He & w' & E & Ev).
    destruct He as (name & Hnw & Hnl & El & En & Es). pose proof (zlen_nonneg name).
    rewrite (proj2 (Z.ltb_lt _ _)) in E by lia. do 2 eexists. split; [exact E|].
    split; [done|]. split; [|done]. by exists name.
  - intros r v' (-> & (name & Hnw & Hnl & El & _) & ->). cbn iota beta.
    eapply spec_lift_bind; [done|]. eapply spec_bind.
    { eapply (spec_lift _ (Err (mkError Status.BUFFER_TOO_SMALL (Some (zlen (info_enc v h))))) v
        (fun r v' => r = Err (mkError Status.BUFFER_TOO_SMALL (Some (zlen (info_enc v h)))) /\ v' = v)); done. }
    intros r v' [-> ->]. apply spec_ret. pose proof (zlen_nonneg name). split; [done|]. split; [done|]. lia.
Qed.

Lemma get_boxed_info_spec h k pos c v :
  h <> 0 -> handles v !! h = Some (mkH k pos) -> tree v !! k = Some (FileNode c) -> zlen c < 2 ^ 63 ->
  spec (get_boxed_info (I := FileInfo) h) v (fun r v' => exists i, r = Ok i /\ file_size i = zlen c /\ v' = v).
Proof.
  intros Hh Hv Ht Hc. apply (spec_try _ _ _ (fun i v' => file_size i = zlen c /\ v' = v)).
  - intros w Hw.
    destruct (get_info_size h k pos c v Hh Hv Ht Hc w Hw) as (r1 & w1 & E1 & Hw1 & -> & Hn).
    set (n := zlen (info_enc v h)) in *.
    destruct (vol_alloc w1 ((n + 8 - 1) / 8 * 8) 8) as (b & w2 & E2 & Hbl & Hba & Hw2); [|done|].
    { apply Z.mul_nonneg_nonneg; [|done]. apply Z.div_pos; lia. }
    assert (n <= zlen (bytes b)) as Hnb.
    { rewrite Hbl. pose proof (Z.mod_pos_bound (n + 8 - 1) 8 ltac:(lia)).
      pose proof (Z.div_mod (n + 8 - 1) 8). lia. }
    destruct (get_info_spec h k pos c v (mkBuffer (addr b) (take (Z.to_nat n) (bytes b))) Hh Hv Ht Hc)
      with (w := w2) as (r3 & w3 & E3 & Hw3 & i & -> & Hi).
    + done.
    + simpl. unfold zlen in *. rewrite length_take. lia.
    + congruence.
    + exists (Ok i), w3. split; [|by exists i].
      eapply (make_boxed_returns 8 (get_info (I := FileInfo) h) w 3 n); [done|done|lia|done|done|done].
  - intros i v' [Hi ->]. apply spec_ret. eauto.
Qed.

Lemma drop_box_spec i v : spec (drop_box i) v (fun _ v' => v' = v).
Proof. apply spec_call. intros w <-. do 2 eexists. split; [done|]. apply vol_dealloc. Qed.

Lemma with_box_spec {A} i (m : fw W A) v Q : spec m v Q -> spec (with_box i m) v Q.
Proof.
  intros Hm. eapply spec_bind; [exact Hm|]. intros a v' HQ.
  eapply spec_bind; [apply drop_box_spec|]. intros u v'' ->. by apply spec_ret.
Qed.

(** Reading from the position before the suffix [l] of the content. *)
Lemma file_read_spec h k c l v buf :
  h <> 0 -> tree v !! k = Some (FileNode c) -> l `suffix_of` c -> zlen buf < 2 ^ 63 ->
  spec (file_read h buf) (add_handle v h k (zlen c - zlen l)) (fun r v' =>
    r = (Ok (Z.min (zlen buf) (zlen l)), take (length buf) l ++ drop (length l) buf) /\
    v' = add_handle v h k (zlen c - zlen (drop (length buf) l))).
Proof.
  intros Hh Ht Hl Hb. apply spec_imp; [done|]. intros w Hw.
  set (R := fun l w => l `suffix_of` c /\ view w = add_handle v h k (zlen c - zlen l)).
  destruct (read_chunked_loop_spec (efi_read h) R) with (chunk_size := 1024 * 1024)
    (fuel := S (length buf)) (dn := @nil Z) (todo := buf) (l := l) (w := w) as (w' & E & HR).
  - intros n l' w0 Hn [[pre ->] Hw0].
    destruct (vol_read w0 h k (zlen pre) (pre ++ l') n) as (w1 & E & Ew).
    + rewrite Hw0, lookup_add_handle. do 2 f_equal. rewrite zlen_app. lia.
    + by rewrite Hw0.
    + lia.
    + apply zlen_nonneg.
    + assert (range (pre ++ l') (zlen pre) n = range l' 0 n) as Er.
      { unfold range, zlen. by rewrite Nat2Z.id, drop_app_length, drop_0. }
      rewrite Er in *. exists w1. split; [done|]. split.
      * rewrite <- (take_drop (Z.to_nat n) l') at 2. rewrite app_assoc. by eexists.
      * rewrite Ew, Hw0, add_add_handle. f_equal. rewrite zlen_app, zlen_range_0 by lia.
        unfold zlen. rewrite length_drop. lia.
  - done.
  - lia.
  - by simpl.
  - by split.
  - do 2 eexists. split; [exact E|]. split; [done|]. apply HR.
Qed.

(** Appending at the end of the file. *)
Lemma file_write_spec h k c d v :
  h <> 0 -> tree v !! k = Some (FileNode c) ->
  spec (file_write h d) (add_handle v h k (zlen c)) (fun r v' =>
    exists u, r = Ok u /\ v' = add_handle (set_node v k (FileNode (c ++ d))) h k (zlen (c ++ d))).
Proof.
  intros Hh Ht. apply spec_imp; [done|]. eapply spec_bind.
  - apply (spec_call _ _ (fun r v' => r = (Status.SUCCESS, zlen d) /\
      v' = add_handle (set_node v k (FileNode (c ++ d))) h k (zlen (c ++ d)))).
    intros w Hw. pose proof (zlen_nonneg c).
    destruct (vol_write w h k (zlen c) c d) as (w' & E & Ew).
    + rewrite Hw. apply lookup_add_handle.
    + by rewrite Hw.
    + lia.
    + do 2 eexists. split; [exact E|]. split; [done|]. rewrite Ew, Hw, zlen_app.
      rewrite take_ge, drop_ge, app_nil_r by (unfold zlen; lia).
      unfold add_handle, set_node. simpl. by rewrite insert_insert_eq.
  - intros r v' [-> ->]. eapply spec_lift; [done|]. eauto.
Qed.

Lemma file_flush_spec h v :
  h <> 0 -> is_Some (handles v !! h) -> spec (file_flush h) v (fun r v' => exists u, r = Ok u /\ v' = v).
Proof.
  intros Hh Hv. apply spec_imp; [done|]. eapply spec_bind.
  - apply (spec_call _ _ (fun s v' => s = Status.SUCCESS /\ v' = v)).
    intros w <-. destruct (vol_flush w h Hv) as (w' & E & Ev). eauto.
  - intros s v' [-> ->]. eapply spec_lift; [done|]. eauto.
Qed.

(** *** Whole files *)

Lemma read_spec p v c :
  good_path p -> tree v !! key p = Some (FileNode c) -> zlen c < 2 ^ 63 ->
  spec (read p) v (fun r v' => r = Ok c /\ v' = v).
Proof.
  intros Hp Ht Hc. eapply spec_bind.
  { apply (open_regular_spec p Read NotAFile v v c (proj1 Hp)); [|done]. by eapply open_existing. }
  intros r v' (h & -> & Hh & Hf & ->). cbn iota. apply with_handle_spec; [done|].
  eapply (spec_try _ _ _ (fun i v' => file_size i = zlen c /\ v' = add_handle v h (key p) 0)).
  { apply map_io_spec. eapply get_boxed_info_spec; [done|apply lookup_add_handle|done|done]. }
  intros i v' [Hi ->]. apply with_box_spec. rewrite Hi. eapply spec_lift_bind.
  { unfold vec_zeroed, isize_MAX. rewrite (proj2 (Z.ltb_ge _ _)) by lia. reflexivity. }
  unfold zlen at 1. rewrite Nat2Z.id. eapply spec_bind.
  { replace 0 with (zlen c - zlen c) at 2 by lia. apply file_read_spec; [done|done|done|].
    unfold zlen in *. by rewrite length_replicate. }
  intros r v' [-> ->]. cbn iota. eapply (spec_try _ _ _ (fun _ v' => v' = _)).
  { apply map_io_spec. apply spec_ret. eauto. }
  intros x v' ->. apply spec_ret. rewrite lookup_add_handle. split; [eauto|].
  rewrite length_replicate, take_ge, drop_ge, app_nil_r, del_add_handle
    by (try rewrite length_replicate; done || lia). done.
Qed.

(** Where a file may be created or replaced: not a directory, nobody has it
    open, and its directory exists. *)
Definition replaceable (v : vol) (k : fkey) : Prop :=
  tree v !! k <> Some DirNode /\ not_open v k /\ parent_is_dir v k.

#[export] Instance replaceable_dec v k : Decision (replaceable v k).
Proof. unfold replaceable. apply _. Defined.

Lemma replaceable_cases v k :
  replaceable v k -> removelast k <> k /\ (tree v !! k = None \/ exists c, tree v !! k = Some (FileNode c)).
Proof.
  intros (Hd & _ & Hp). unfold parent_is_dir in Hp. split; [congruence|].
  destruct (tree v !! k) as [[|c]|]; [done|by right; exists c|by left].
Qed.

Lemma parent_del_node v k : replaceable v k -> parent_is_dir (del_node v k) k.
Proof.
  intros Hr. destruct (replaceable_cases v k Hr) as [Hne _]. destruct Hr as (_ & _ & Hp).
  unfold parent_is_dir in *. simpl. by rewrite lookup_delete_ne.
Qed.

Lemma set_del_node v k n : set_node (del_node v k) k n = set_node v k n.
Proof. unfold set_node, del_node. simpl. by rewrite insert_delete_eq. Qed.

Lemma set_set_node v k n n' : set_node (set_node v k n) k n' = set_node v k n'.
Proof. unfold set_node. simpl. by rewrite insert_insert_eq. Qed.

Lemma lookup_set_node v k n : tree (set_node v k n) !! k = Some n.
Proof. apply lookup_insert_eq. Qed.

Lemma del_node_missing v k : tree v !! k = None -> del_node v k = v.
Proof. destruct v as [t hs]. unfold del_node. simpl. intros. by rewrite delete_id. Qed.

Lemma add_handle_comm v h1 k1 p1 h2 k2 p2 :
  h1 <> h2 -> add_handle (add_handle v h1 k1 p1) h2 k2 p2 = add_handle (add_handle v h2 k2 p2) h1 k1 p1.
Proof. intros. unfold add_handle. simpl. by rewrite insert_insert_ne. Qed.

(** Removing a file that may be missing. *)
Lemma clear_spec p v :
  good_path p -> replaceable v (key p) ->
  spec (if bool_decide (is_Some (tree v !! key p)) then remove_file p else mret (Ok tt)) v
    (fun r v' => exists u, r = Ok u /\ v' = del_node v (key p)).
Proof.
  intros Hp Hr. destruct (replaceable_cases _ _ Hr) as [_ [Ht|[c Ht]]]; rewrite Ht; simpl.
  - apply spec_ret. exists tt. by rewrite del_node_missing.
  - eapply spec_conseq; [eapply remove_file_spec; [done|done|apply Hr]|].
    intros r v' [-> ->]. eauto.
Qed.

Lemma open_fresh p v :
  good_path p -> replaceable v (key p) ->
  spec (open p CreateReadWrite false) (del_node v (key p)) (opened (set_node v (key p) (FileNode [])) (key p)).
Proof.
  intros Hp Hr. rewrite <- (set_del_node v (key p)). apply (open_create p false); [done| |].
  - apply lookup_delete_eq.
  - by apply parent_del_node.
Qed.

(** The body that writes the content and flushes. *)
Lemma write_body_spec p h v content :
  h <> 0 -> handles v !! h = None -> tree v !! key p = Some (FileNode []) ->
  spec (with_handle h (
    try _ <- map_io p WriteFailure to_err_without_payload (file_write h content);
    try _ <- map_io p FlushFailure id (file_flush h);
    mret (Ok tt))) (add_handle v h (key p) 0)
    (fun r v' => r = Ok tt /\ v' = set_node v (key p) (FileNode content)).
Proof.
  intros Hh Hf Ht. apply with_handle_spec; [done|].
  set (v1 := add_handle (set_node v (key p) (FileNode content)) h (key p) (zlen content)).
  eapply (spec_try _ _ _ (fun _ v' => v' = v1)).
  { apply map_io_spec. by apply (file_write_spec h (key p) [] content v). }
  intros u v' ->. eapply (spec_try _ _ _ (fun _ v' => v' = v1)).
  { apply map_io_spec. apply file_flush_spec; [done|]. unfold v1. rewrite lookup_add_handle. eauto. }
  intros u' v' ->. apply spec_ret. unfold v1. rewrite lookup_add_handle. split; [eauto|].
  split; [done|]. by apply del_add_handle.
Qed.

Lemma write_spec p v content :
  good_path p -> replaceable v (key p) ->
  spec (write p content) v (fun r v' => r = Ok tt /\ v' = set_node v (key p) (FileNode content)).
Proof.
  intros Hp Hr.
  eapply (spec_try _ _ _ (fun e v' => e = bool_decide (is_Some (tree v !! key p)) /\ v' = v)).
  { eapply spec_conseq; [by apply try_exists_spec|]. intros r v' [-> ->]. eauto. }
  intros e v' [-> ->].
  eapply (spec_try _ _ _ (fun _ v' => v' = del_node v (key p))); [by apply clear_spec|].
  intros u v' ->. eapply spec_bind; [by apply open_fresh|].
  intros r v' (h & -> & Hh & Hf & ->). cbn iota.
  eapply spec_bind; [eapply into_regular_file_spec; [done|apply lookup_add_handle|apply lookup_set_node]|].
  intros o v' [-> ->]. eapply spec_lift_bind; [done|].
  eapply spec_conseq; [apply write_body_spec; [done|done|apply lookup_set_node]|].
  intros r v' [-> ->]. split; [done|]. apply set_set_node.
Qed.

Lemma create_dir_spec p v :
  good_path p -> tree v !! key p = None -> parent_is_dir v (key p) ->
  spec (create_dir p) v (fun r v' => r = Ok tt /\ v' = set_node v (key p) DirNode).
Proof.
  intros Hp Ht Hd. eapply spec_bind; [by apply (open_create p true)|].
  intros r v' (h & -> & Hh & Hf & ->). cbn iota.
  eapply spec_bind; [apply file_drop_spec; [done|]; rewrite lookup_add_handle; eauto|].
  intros u v' ->. apply spec_ret. split; [done|]. by apply del_add_handle.
Qed.

(** *** Copying *)

Section copying.
Context (sp dp : list Z) (src dest : Z) (v : vol) (c : list Z) (ks kd : fkey).
Context (Hsrc : src <> 0) (Hdest : dest <> 0) (Hsd : src <> dest) (Hk : ks <> kd).
Context (Ht : tree v !! ks = Some (FileNode c)).

(** Copying has written [dn] and has [l] still to read. *)
Definition copying (dn l : list Z) : vol :=
  add_handle (add_handle (set_node v kd (FileNode dn)) src ks (zlen c - zlen l)) dest kd (zlen dn).

Lemma copying_read dn l chunk :
  l `suffix_of` c -> zlen chunk < 2 ^ 63 ->
  spec (file_read src chunk) (copying dn l) (fun r v' =>
    r = (Ok (Z.min (zlen chunk) (zlen l)), take (length chunk) l ++ drop (length l) chunk) /\
    v' = copying dn (drop (length chunk) l)).
Proof.
  intros Hl Hc. unfold copying. rewrite !(add_handle_comm _ src) by done.
  apply file_read_spec; [done| |done|done]. simpl. by rewrite lookup_insert_ne.
Qed.

Lemma copying_write dn l' d :
  spec (file_write dest d) (copying dn l') (fun r v' => exists u, r = Ok u /\ v' = copying (dn ++ d) l').
Proof.
  unfold copying. eapply spec_conseq; [apply file_write_spec; [done|apply lookup_insert_eq]|].
  intros r v' (u & -> & ->). exists u. split; [done|].
  change (set_node (add_handle ?a ?b ?c ?d) ?k ?n) with (add_handle (set_node a k n) b c d).
  by rewrite set_set_node.
Qed.

Lemma slice_chunk (l chunk : list Z) n :
  n = Z.min (zlen chunk) (zlen l) ->
  slice (take (length chunk) l ++ drop (length l) chunk) 0 n = Ret (take (length chunk) l).
Proof.
  intros ->. unfold zlen. rewrite slice_ok.
  - rewrite Z.sub_0_r, drop_0, take_app_le by (rewrite length_take; lia).
    rewrite take_take. f_equal.
    destruct (Nat.le_ge_cases (length chunk) (length l)); [f_equal; lia|].
    rewrite !take_ge by lia. done.
  - lia.
  - unfold zlen. rewrite length_app, length_take, length_drop. lia.
Qed.

Lemma file_copy_loop_spec fuel chunk dn l :
  (length l < fuel)%nat -> (0 < length chunk)%nat -> zlen chunk < 2 ^ 63 -> l `suffix_of` c ->
  spec (copy_loop fuel sp dp src dest chunk (zlen l)) (copying dn l)
    (fun r v' => exists u, r = Ok u /\ v' = copying (dn ++ l) []).
Proof.
  revert chunk dn l. induction fuel as [|fuel IH]; intros chunk dn l Hf Hc Hc2 Hl; [lia|].
  cbn [copy_loop]. destruct l as [|x l0] eqn:El.
  { apply spec_ret. exists tt. by rewrite app_nil_r. }
  rewrite <- El in *. assert (0 < zlen l) as Hpos by (rewrite El; unfold zlen; simpl; lia).
  rewrite (proj2 (Z.ltb_lt _ _)) by done. clear El.
  eapply spec_bind; [by apply copying_read|]. intros r v' [-> ->]. cbn iota.
  set (n := Z.min (zlen chunk) (zlen l)). set (l' := drop (length chunk) l).
  eapply (spec_try _ _ _ (fun m v' => m = n /\ v' = copying dn l')).
  { apply map_io_spec. apply spec_ret. eauto. }
  intros m v' [-> ->]. rewrite (proj2 (Z.eqb_neq n 0)) by (unfold n, zlen in *; lia).
  eapply spec_lift_bind; [by apply slice_chunk|].
  eapply (spec_try _ _ _ (fun _ v' => v' = copying (dn ++ take (length chunk) l) l')).
  { apply map_io_spec. by apply copying_write. }
  intros u v' ->. eapply spec_lift_bind; [by apply usize_sub_ok; unfold n; lia|].
  assert (zlen l - n = zlen l') as -> by (unfold n, l', zlen in *; rewrite length_drop; lia).
  eapply spec_conseq; [apply IH|].
  - unfold l', zlen in *. rewrite length_drop. lia.
  - rewrite length_app, length_take, length_drop. lia.
  - unfold zlen in *. rewrite length_app, length_take, length_drop. lia.
  - etrans; [|exact Hl]. exists (take (length chunk) l). unfold l'. by rewrite take_drop.
  - intros r v' (u' & -> & ->). exists u'. split; [done|]. unfold l'.
    by rewrite <- app_assoc, take_drop.
Qed.
End copying.

Lemma chunk_size_ok : zlen (replicate (Z.to_nat COPY_CHUNK) 0) = 2 ^ 20.
Proof. unfold zlen. rewrite length_replicate. by apply Z2Nat.id. Qed.

(** [let _ = self.remove_file(dest_path)]: whatever it returns, the file is gone. *)
Lemma remove_if_any_spec p v :
  good_path p -> replaceable v (key p) ->
  spec (remove_file p) v (fun _ v' => v' = del_node v (key p)).
Proof.
  intros Hp Hr. destruct (replaceable_cases _ _ Hr) as [_ [Ht|[c Ht]]].
  - eapply spec_bind; [by apply (open_missing p ReadWrite)|]. intros r v' (-> & q & _ & ->).
    apply spec_ret. by rewrite del_node_missing.
  - eapply spec_conseq; [eapply remove_file_spec; [done|done|apply Hr]|]. by intros r v' [_ ->].
Qed.

Lemma replaceable_add v k h k' pos : k' <> k -> handles v !! h = None -> replaceable v k -> replaceable (add_handle v h k' pos) k.
Proof.
  intros Hk Hn (Hd & Ho & Hp). split; [done|]. split; [|done].
  by apply map_Forall_insert_2.
Qed.

Lemma copy_spec fuel sp dp v c :
  good_path sp -> good_path dp -> key sp <> key dp -> tree v !! key sp = Some (FileNode c) ->
  zlen c < 2 ^ 63 -> replaceable v (key dp) -> (length c < fuel)%nat ->
  spec (copy fuel sp dp) v (fun r v' => r = Ok tt /\ v' = set_node v (key dp) (FileNode c)).
Proof.
  intros Hs Hd Hk Ht Hc Hr Hfuel. eapply spec_bind.
  { apply (open_regular_spec sp Read NotAFile v v c (proj1 Hs)); [|done]. by eapply open_existing. }
  intros r v' (src & -> & Hsrc & Hfs & ->). cbn iota. apply with_handle_spec; [done|].
  set (v1 := add_handle v src (key sp) 0).
  eapply (spec_try _ _ _ (fun i v' => file_size i = zlen c /\ v' = v1)).
  { apply map_io_spec. eapply get_boxed_info_spec; [done|apply lookup_add_handle|done|done]. }
  intros i v' [Hi ->]. eapply spec_bind; [apply drop_box_spec|]. intros u v' ->.
  assert (replaceable v1 (key dp)) as Hr1 by by apply replaceable_add.
  eapply spec_bind; [by apply remove_if_any_spec|]. intros x v' ->.
  eapply spec_bind.
  { eapply (open_regular_spec dp CreateReadWrite OpenError _ _ [] (proj1 Hd));
      [by apply open_fresh|apply lookup_set_node]. }
  intros r v' (dest & -> & Hdest & Hfd & ->). cbn iota.
  simpl in Hfd. apply lookup_insert_None in Hfd as [Hfd Hne]. apply with_handle_spec; [done|].
  assert (add_handle (set_node v1 (key dp) (FileNode [])) dest (key dp) 0 =
    copying src dest v c (key sp) (key dp) [] c) as ->.
  { unfold copying, v1. by rewrite Z.sub_diag. }
  rewrite Hi. pose proof chunk_size_ok as Hch. revert Hch.
  generalize (replicate (Z.to_nat COPY_CHUNK) 0) as chunk. intros chunk Hch.
  eapply (spec_try _ _ _ (fun _ v' => v' = copying src dest v c (key sp) (key dp) c [])).
  { apply (file_copy_loop_spec sp dp src dest v c (key sp) (key dp)); unfold zlen in *; done || lia. }
  intros u' v' ->. eapply (spec_try _ _ _ (fun _ v' => v' = copying src dest v c (key sp) (key dp) c [])).
  { apply map_io_spec. apply file_flush_spec; [done|]. unfold copying. rewrite lookup_add_handle. eauto. }
  intros u'' v' ->. apply spec_ret. unfold copying. rewrite lookup_add_handle. split; [eauto|].
  rewrite del_add_handle, lookup_add_handle by (simpl; by rewrite lookup_insert_ne).
  split; [eauto|]. split; [done|]. by apply del_add_handle.
Qed.

Lemma rename_spec fuel sp dp v c :
  good_path sp -> good_path dp -> key sp <> key dp -> tree v !! key sp = Some (FileNode c) ->
  zlen c < 2 ^ 63 -> replaceable v (key dp) -> not_open v (key sp) -> (length c < fuel)%nat ->
  spec (rename fuel sp dp) v (fun r v' =>
    r = Ok tt /\ v' = del_node (set_node v (key dp) (FileNode c)) (key sp)).
Proof.
  intros Hs Hd Hk Ht Hc Hr Hn Hf. eapply spec_bind; [by apply copy_spec|].
  intros r v' [-> ->]. cbn iota. eapply remove_file_spec; [done| |done].
  simpl. by rewrite lookup_insert_ne.
Qed.

(** The boxed info of a file. *)
Lemma metadata_spec p v c :
  good_path p -> tree v !! key p = Some (FileNode c) -> zlen c < 2 ^ 63 ->
  spec (metadata p) v (fun r v' => v' = v /\ exists i, r = Ok i /\ file_size i = zlen c).
Proof.
  intros Hp Ht Hc. eapply spec_bind; [by eapply (open_existing p Read)|]. intros r v' (h & -> & Hh & Hf & ->). cbn iota.
  apply with_handle_spec; [done|]. set (v1 := add_handle v h (key p) 0).
  eapply spec_conseq; [apply (map_io_spec _ _ _ _ v1 (fun i v' => file_size i = zlen c /\ v' = v1))|].
  - eapply get_boxed_info_spec; [done|apply lookup_add_handle|done|done].
  - intros r v' (i & -> & Hi & ->). unfold v1. rewrite lookup_add_handle, del_add_handle by done. eauto.
Qed.

(** *** Creating directories *)

(** The relative path with the given components. *)
Definition path_of (cs : fkey) : list Z := join SEPARATOR cs ++ [0].

Definition comp_ok (c : list Z) : Prop :=
  component_ok c /\ no_sep c /\ Forall body_char c /\ c <> [0x2E] /\ c <> [0x2E; 0x2E].

#[export] Instance comp_ok_dec c : Decision (comp_ok c).
Proof. unfold comp_ok, no_sep. apply _. Defined.

Lemma path_of_good cs :
  cs <> [] -> Forall comp_ok cs -> zlen (join SEPARATOR cs) < isize_MAX ->
  good_path (path_of cs) /\ key (path_of cs) = map canon cs.
Proof.
  intros Hne Hcs Hl. unfold good_path, key, path_of. rewrite body_app_nul.
  assert (path_components (join SEPARATOR cs) = cs) as E.
  { apply path_components_join. eapply Forall_weaken, Hcs. by intros c ([? _] & ? & _). }
  rewrite E. split; [|done]. repeat split.
  - exists (join SEPARATOR cs). split; [done|]. apply join_Forall; [by vm_compute|].
    eapply Forall_weaken, Hcs. by intros c (_ & _ & ? & _).
  - rewrite zlen_app. unfold zlen at 2. simpl. unfold isize_MAX in *. lia.
  - intros E'. rewrite E' in E. by subst.
  - eapply Forall_weaken, Hcs. by intros c [? _].
  - eapply Forall_weaken, Hcs. by intros c (_ & _ & _ & ?).
Qed.

Lemma join_snoc cs c :
  join SEPARATOR (cs ++ [c]) = match cs with [] => c | _ => join SEPARATOR cs ++ SEPARATOR :: c end.
Proof.
  induction cs as [|d cs IH]; [done|]. destruct cs as [|e cs]; [done|].
  change (join SEPARATOR ((d :: e :: cs) ++ [c])) with (d ++ SEPARATOR :: join SEPARATOR ((e :: cs) ++ [c])).
  rewrite IH. change (join SEPARATOR (d :: e :: cs)) with (d ++ SEPARATOR :: join SEPARATOR (e :: cs)).
  by rewrite <- app_assoc.
Qed.

Lemma parent_path_of cs c :
  Forall comp_ok (cs ++ [c]) -> zlen (join SEPARATOR (cs ++ [c])) < isize_MAX ->
  parent (path_of (cs ++ [c])) = Ret (match cs with [] => None | _ => Some (path_of cs) end).
Proof.
  intros Hcs Hl. assert (cs ++ [c] <> []) as Hne by (by destruct cs).
  destruct (path_of_good _ Hne Hcs Hl) as [(Hw & _ & Hok & _) _].
  unfold path_of in *. rewrite body_app_nul in Hok. destruct Hw as [(b & Eb & Hb) _].
  apply app_inj_2 in Eb as [<- _]; [|done]. rewrite parent_app by done. cbn zeta.
  rewrite path_components_join
    by (eapply Forall_weaken, Hcs; by intros d ([? _] & ? & _)).
  rewrite length_app. replace (length cs + length [c] - 1)%nat with (length cs) by (simpl; lia).
  rewrite take_app_length, join_snoc. f_equal. destruct cs as [|d cs].
  - apply Forall_cons in Hcs as [(_ & Hns & _) _]. rewrite bool_decide_false; [done|]. by intros [_ ?].
  - rewrite bool_decide_true; [done|]. split; [done|]. apply elem_of_app. right. left.
Qed.

(** The non-empty extensions of [pre] by prefixes of [rest], shortest first. *)
Fixpoint exts (pre rest : fkey) : list fkey :=
  match rest with
  | [] => []
  | r :: rest => (pre ++ [r]) :: exts (pre ++ [r]) rest
  end.

Lemma exts_snoc pre rest c : exts pre (rest ++ [c]) = exts pre rest ++ [pre ++ rest ++ [c]].
Proof.
  revert pre. induction rest as [|r rest IH]; intros pre; simpl; [done|].
  by rewrite IH, <- app_assoc.
Qed.

Lemma join_snoc_len cs c : (length (join SEPARATOR cs) <= length (join SEPARATOR (cs ++ [c])))%nat.
Proof. rewrite join_snoc. destruct cs; [simpl; lia|]. rewrite length_app. lia. Qed.

Lemma ancestors_path_of cs fuel :
  cs <> [] -> Forall comp_ok cs -> zlen (join SEPARATOR cs) < isize_MAX -> (length cs <= fuel)%nat ->
  ancestors fuel (path_of cs) = Ret (reverse (map path_of (exts [] cs))).
Proof.
  revert fuel. induction cs as [|c cs IH] using rev_ind; intros fuel Hne Hcs Hl Hf; [done|].
  rewrite length_app in Hf. simpl in Hf. destruct fuel as [|fuel]; [lia|]. cbn [ancestors].
  rewrite parent_path_of by done. cbn [obind]. rewrite exts_snoc, map_app, reverse_app. simpl.
  destruct cs as [|d cs]; [done|].
  rewrite IH; [done|done|by apply Forall_app in Hcs as [? _]| |lia].
  pose proof (join_snoc_len (d :: cs) c). unfold zlen in *. lia.
Qed.

(** The tree with the directories [ks]. *)
Definition mkdirs (v : vol) (ks : list fkey) : vol :=
  foldl (fun v k => set_node v k DirNode) v ks.

Lemma create_missing_spec pre rest v :
  Forall comp_ok (pre ++ rest) -> zlen (join SEPARATOR (pre ++ rest)) < isize_MAX ->
  tree v !! map canon pre = Some DirNode ->
  Forall (fun q => forall c, tree v !! map canon q <> Some (FileNode c)) (exts pre rest) ->
  spec (create_missing (map path_of (exts pre rest))) v
    (fun r v' => r = Ok tt /\ v' = mkdirs v (map (map canon) (exts pre rest))).
Proof.
  revert pre v. induction rest as [|r rest IH]; intros pre v Hcs Hl Hd Hf; [by apply spec_ret|].
  replace (pre ++ r :: rest) with ((pre ++ [r]) ++ rest) in * by by rewrite <- app_assoc.
  apply Forall_cons in Hf as [Hf Hfs]. set (q := pre ++ [r]) in *. simpl.
  destruct (path_of_good q) as [Hg Ek].
  { by destruct pre. }
  { by apply Forall_app in Hcs as [? _]. }
  { clear -Hl. revert Hl. generalize q as cs. induction rest as [|c rest IHr] using rev_ind; intros cs Hl.
    - by rewrite app_nil_r in Hl.
    - apply IHr. rewrite app_assoc in Hl. pose proof (join_snoc_len (cs ++ rest) c).
      unfold zlen in *. lia. }
  set (v1 := set_node v (map canon q) DirNode).
  eapply (spec_try _ _ _ (fun e v' => e = bool_decide (is_Some (tree v !! map canon q)) /\ v' = v)).
  { pose proof (try_exists_spec (path_of q) v Hg) as He. rewrite Ek in He.
    eapply spec_conseq; [exact He|]. intros x v' [-> ->]. eauto. }
  intros e v' [-> ->]. eapply (spec_try _ _ _ (fun _ v' => v' = v1)).
  - destruct (tree v !! map canon q) as [[|c]|] eqn:Ht.
    + apply spec_ret. exists tt. split; [done|]. unfold v1, set_node. rewrite insert_id by done. by destruct v.
    + by destruct (Hf c).
    + pose proof (create_dir_spec (path_of q) v Hg) as Hc. rewrite Ek in Hc.
      eapply spec_conseq; [apply Hc; [done|]|intros x v' [-> ->]; eauto].
      unfold parent_is_dir, q. rewrite map_app. simpl. by rewrite removelast_last.
  - intros u v' ->. apply IH; [done|done|apply lookup_insert_eq|].
    eapply Forall_weaken, Hfs. intros q' Hq' c. unfold v1. simpl.
    destruct (decide (map canon q = map canon q')) as [<-|Hne];
      [by rewrite lookup_insert_eq|by rewrite lookup_insert_ne].
Qed.

Lemma length_comps cs : Forall comp_ok cs -> (length cs <= length (path_of cs))%nat.
Proof.
  unfold path_of. rewrite length_app. intros Hcs. enough (length cs <= length (join SEPARATOR cs))%nat by lia.
  induction cs as [|c cs IH] using rev_ind; [done|]. apply Forall_app in Hcs as [Hcs Hc].
  apply Forall_cons in Hc as [([Hne _] & _) _]. specialize (IH Hcs). rewrite length_app, join_snoc.
  destruct c; [done|]. destruct cs; simpl in *; [lia|]. rewrite length_app. simpl in *. lia.
Qed.

Lemma create_dir_all_spec (cs : fkey) (v : vol) :
  cs <> [] -> Forall comp_ok cs -> zlen (join SEPARATOR cs) < isize_MAX ->
  tree v !! [] = Some DirNode ->
  Forall (fun q => forall c, tree v !! map canon q <> Some (FileNode c)) (exts [] cs) ->
  spec (create_dir_all (path_of cs)) v
    (fun r v' => r = Ok tt /\ v' = mkdirs v (map (map canon) (exts [] cs))).
Proof.
  intros Hne Hcs Hl Hroot Hf. destruct (path_of_good _ Hne Hcs Hl) as [(Hw & _ & Hok & _) _].
  eapply spec_lift_bind.
  { unfold to_path_buf, cstring16_from_cstr16, cstr16_to_owned, cstr16_as_slice_with_nul, path_of.
    rewrite pathbuf_from_app, replace_char_id; [reflexivity|]. apply join_no_slash.
    eapply Forall_weaken, Hcs. intros c [Hc _]. by apply component_ok_no_slash. }
  eapply spec_lift_bind.
  { apply ancestors_path_of; [done..|]. pose proof (length_comps cs Hcs). lia. }
  rewrite reverse_involutive. by apply (create_missing_spec []).
Qed.

(** ** The refinement theorems *)



(** [try_exists] tells whether the tree has the path and changes nothing;
    [remove_file] takes exactly that file out of the tree; [create_dir] adds
    exactly that directory. *)
Theorem tree_operations_refine (p : list Z) (v : vol) :
  good_path p ->
  spec (try_exists p) v (fun r v' => r = Ok (bool_decide (is_Some (tree v !! key p))) /\ v' = v) /\
  (forall c, tree v !! key p = Some (FileNode c) -> not_open v (key p) ->
   spec (remove_file p) v (fun r v' => r = Ok tt /\ v' = del_node v (key p))) /\
  (tree v !! key p = None -> parent_is_dir v (key p) ->
   spec (create_dir p) v (fun r v' => r = Ok tt /\ v' = set_node v (key p) DirNode)).
Proof.
  intros Hp. split; [by apply try_exists_spec|]. split.
  - intros c Ht Hn. by eapply remove_file_spec.
  - intros Ht Hd. by apply create_dir_spec.
Qed.

(** [create_dir_all] of a relative path adds every directory on the way that is
    missing, provided that none of them is a file. *)
Theorem create_dir_all_refine (cs : fkey) (v : vol) :
  cs <> [] -> Forall comp_ok cs -> zlen (join SEPARATOR cs) < isize_MAX ->
  tree v !! [] = Some DirNode ->
  Forall (fun q => forall c, tree v !! map canon q <> Some (FileNode c)) (exts [] cs) ->
  spec (create_dir_all (path_of cs)) v
    (fun r v' => r = Ok tt /\ v' = mkdirs v (map (map canon) (exts [] cs))).
Proof. apply create_dir_all_spec. Qed.

(** Renaming a directory fails and changes nothing. *)
Theorem rename_directory_fails (fuel : nat) (sp dp : list Z) (v : vol) :
  good_path sp -> tree v !! key sp = Some DirNode ->
  spec (rename fuel sp dp) v (fun r v' => v' = v /\
    exists q, r = Err (FsError.Io (mkIoError q NotAFile (mkError Status.INVALID_PARAMETER tt)))).
Proof.
  intros Hp Ht. destruct (to_path_buf_ok sp (proj1 Hp)) as [q Eq].
  eapply spec_bind with (P := fun r v' => v' = v /\
    r = Err (FsError.Io (mkIoError q NotAFile (mkError Status.INVALID_PARAMETER tt)))).
  2: { intros r v' [-> ->]. apply spec_ret. eauto. }
  eapply spec_bind with (P := fun r v' => v' = v /\
    r = Err (FsError.Io (mkIoError q NotAFile (mkError Status.INVALID_PARAMETER tt)))).
  2: { intros r v' [-> ->]. by apply spec_ret. }
  eapply spec_bind; [by eapply (open_existing sp Read)|]. intros r v' (h & -> & Hh & Hf & ->). cbn iota.
  eapply spec_bind with (P := fun o v' => o = None /\ v' = v).
  - eapply spec_bind; [eapply into_type_spec; [done|apply lookup_add_handle|exact Ht]|].
    intros r v' [-> ->]. cbn iota.
    eapply spec_bind; [apply file_drop_spec; [done|]; rewrite lookup_add_handle; eauto|].
    intros u v' ->. apply spec_ret. split; [done|]. by apply del_add_handle.
  - intros o v' [-> ->]. eapply spec_lift_bind; [unfold logical_error; rewrite Eq; reflexivity|].
    by apply spec_ret.
Qed.
End triples.
