(* ===== verification/VolumeErrors.v ===== *)
(** * Errors of the file system on a well-behaved volume

    What the operations of [FileSystem] report for a path that is not valid, for one
    that names nothing, and for one that names a directory where a file is wanted or
    a file where a directory is: which error, with which path in it, and that the
    volume is as it was, with no handle left open. *)
From stdpp Require Import gmap.
From S2P Require Import Prelude Firmware Chars Strs OwnedStrs Path Status FileInfo File FileSystem Volume.

Section errors.
Context `{Profile} {W : Type} `{!FileProtocol W} `{!Allocator W} `{!VolumeLaws W}.

(** From [v], the operation returns the error and leaves the volume alone. *)
Definition fails {A} (m : fw W (fs_result A)) (v : vol) (e : FsError.t) : Prop :=
  spec m v (fun r v' => r = Err e /\ v' = v).

(** The error of an operation on [p] that has the given cause. *)
Definition fault_at (p : list Z) (ctx : IoErrorContext) (status : Z) (e : FsError.t) : Prop :=
  exists q, to_path_buf p = Ret q /\ e = FsError.Io (mkIoError q ctx (mkError status tt)).

Lemma fails_try {A B} (m : fw W (fs_result A)) (k : A -> fw W (fs_result B)) v e : fails m v e -> fails (fw_try m k) v e.
Proof. intros Hm. eapply spec_bind; [exact Hm|]. intros r v' [-> ->]. by apply spec_ret. Qed.

Lemma fails_bind {A B} (m : fw W (fs_result A)) (k : fs_result A -> fw W (fs_result B)) v e :
  fails m v e -> fails (k (Err e)) v e -> fails (m ≫= k) v e.
Proof. intros Hm Hk. eapply spec_bind; [exact Hm|]. by intros r v' [-> ->]. Qed.

(** A step that succeeds. *)
Lemma fails_step {A B} (m : fw W A) (k : A -> fw W (fs_result B)) v P e :
  spec m v P -> (forall a v', P a v' -> spec (k a) v' (fun r v'' => r = Err e /\ v'' = v)) -> fails (m ≫= k) v e.
Proof. intros Hm Hk. by eapply spec_bind. Qed.

Lemma open_invalid p mode cd v e : validate_path p = Ret (Err e) -> fails (open p mode cd) v (FsError.Path e).
Proof. intros He. eapply spec_lift_bind; [exact He|]. by apply spec_ret. Qed.

Lemma open_absent p mode cd v e :
  good_path p -> tree v !! key p = None -> mode <> CreateReadWrite -> fault_at p OpenError Status.NOT_FOUND e -> fails (open p mode cd) v e.
Proof.
  intros Hp Ht Hm (q & Eq & ->). eapply spec_conseq; [by apply open_missing|]. intros r v' (-> & q' & Eq' & ->).
  rewrite Eq in Eq'. by injection Eq' as <-.
Qed.

Lemma fault_logical p ctx e : fault_at p ctx Status.INVALID_PARAMETER e -> logical_error p ctx Status.INVALID_PARAMETER = Ret e.
Proof. intros (q & Eq & ->). unfold logical_error. by rewrite Eq. Qed.

Lemma ok_or_io_fails {A} p ctx v e : fault_at p ctx Status.INVALID_PARAMETER e -> fails (ok_or_io (A := A) p ctx None) v e.
Proof. intros Hf. eapply spec_lift_bind; [by apply fault_logical|]. by apply spec_ret. Qed.

(** A node of the other kind: the handle is closed again. *)
Lemma drop_opened {B} v k h (x : B) : h <> 0 -> handles v !! h = None -> spec (file_drop h;; mret x) (add_handle v h k 0) (fun r v' => r = x /\ v' = v).
Proof.
  intros Hh Hf. eapply spec_bind; [apply file_drop_spec; [done|]; rewrite lookup_add_handle; eauto|].
  intros u v' ->. apply spec_ret. split; [done|]. by apply del_add_handle.
Qed.

Lemma open_regular_dir p ctx v e :
  good_path p -> tree v !! key p = Some DirNode -> fault_at p ctx Status.INVALID_PARAMETER e -> fails (open_regular p Read ctx) v e.
Proof.
  intros Hp Ht Hf. eapply fails_step; [by eapply (open_existing p Read)|]. intros r v' (h & -> & Hh & Hn & ->). cbn iota.
  eapply spec_bind with (P := fun o v' => o = None /\ v' = v).
  - eapply spec_bind; [eapply into_type_spec; [done|apply lookup_add_handle|exact Ht]|]. intros r v' [-> ->]. by apply drop_opened.
  - intros o v' [-> ->]. by apply ok_or_io_fails.
Qed.

Lemma read_dir_file p v c e :
  good_path p -> tree v !! key p = Some (FileNode c) -> fault_at p NotADirectory Status.INVALID_PARAMETER e -> fails (read_dir p) v e.
Proof.
  intros Hp Ht Hf. eapply fails_step; [by eapply (open_existing p Read)|]. intros r v' (h & -> & Hh & Hn & ->). cbn iota.
  eapply spec_bind with (P := fun o v' => o = None /\ v' = v).
  - eapply spec_bind; [eapply into_type_spec; [done|apply lookup_add_handle|exact Ht]|]. intros r v' [-> ->]. by apply drop_opened.
  - intros o v' [-> ->]. by apply ok_or_io_fails.
Qed.

Lemma with_handle_fails {A} h k v (m : fw W (fs_result A)) e :
  h <> 0 -> handles v !! h = None -> fails m (add_handle v h k 0) e -> spec (with_handle h m) (add_handle v h k 0) (fun r v' => r = Err e /\ v' = v).
Proof.
  intros Hh Hf Hm. apply with_handle_spec; [done|]. eapply spec_conseq; [exact Hm|]. intros r v' [-> ->].
  rewrite lookup_add_handle, del_add_handle by done. eauto.
Qed.

Lemma remove_file_dir p v e :
  good_path p -> tree v !! key p = Some DirNode -> fault_at p NotAFile Status.INVALID_PARAMETER e -> fails (remove_file p) v e.
Proof.
  intros Hp Ht Hf. eapply fails_step; [by eapply (open_existing p ReadWrite)|]. intros r v' (h & -> & Hh & Hn & ->). cbn iota.
  eapply spec_bind; [eapply into_type_spec; [done|apply lookup_add_handle|exact Ht]|]. intros r v' [-> ->]. cbn iota.
  apply with_handle_fails; [done|done|]. eapply spec_lift_bind; [by apply fault_logical|]. by apply spec_ret.
Qed.

Lemma remove_dir_file p v c e :
  good_path p -> tree v !! key p = Some (FileNode c) -> fault_at p NotADirectory Status.INVALID_PARAMETER e -> fails (remove_dir p) v e.
Proof.
  intros Hp Ht Hf. eapply fails_step; [by eapply (open_existing p ReadWrite)|]. intros r v' (h & -> & Hh & Hn & ->). cbn iota.
  eapply spec_bind; [eapply into_type_spec; [done|apply lookup_add_handle|exact Ht]|]. intros r v' [-> ->]. cbn iota.
  apply with_handle_fails; [done|done|]. eapply spec_lift_bind; [by apply fault_logical|]. by apply spec_ret.
Qed.

(** The operations that want a file at [p], and those that want a directory. *)
Definition file_operations_fail (fuel : nat) (p dest : list Z) (v : vol) (e : FsError.t) : Prop :=
  fails (read p) v e /\ fails (read_to_string p) v e /\ fails (remove_file p) v e /\
  fails (copy fuel p dest) v e /\ fails (rename fuel p dest) v e.

Definition dir_operations_fail (fuel : nat) (p : list Z) (v : vol) (e : FsError.t) : Prop :=
  fails (read_dir p) v e /\ fails (remove_dir p) v e /\ fails (remove_dir_all (S fuel) p) v e.

Lemma file_operations_fail_intro fuel p dest v e :
  fails (open_regular p Read NotAFile) v e -> fails (remove_file p) v e -> file_operations_fail fuel p dest v e.
Proof. intros Ho Hr. repeat split; [by apply fails_try|by apply fails_try, fails_try|done|by apply fails_try|by apply fails_try, fails_try]. Qed.

Lemma dir_operations_fail_intro fuel p v e : fails (read_dir p) v e -> fails (remove_dir p) v e -> dir_operations_fail fuel p v e.
Proof. intros Ho Hr. repeat split; [done|done|]. by apply fails_try. Qed.

(** When no handle can be opened at [p], every operation on it fails. *)
Lemma open_failure fuel p dest v e :
  (forall mode, mode <> CreateReadWrite -> fails (open p mode false) v e) ->
  file_operations_fail fuel p dest v e /\ dir_operations_fail fuel p v e /\ fails (metadata p) v e.
Proof.
  intros Ho. split; [apply file_operations_fail_intro; by apply fails_try, Ho|]. split; [apply dir_operations_fail_intro; by apply fails_try, Ho|].
  by apply fails_try, Ho.
Qed.

End errors.
