(* ===== verification/Directories.v ===== *)
(** * Directories of a well-behaved volume

    Reading directories, removing them with everything below them, and the metadata of
    files, over volumes that also keep [DirectoryLaws]: what the UEFI specification
    documents of reading a directory and of deleting one.  The hard part is
    [remove_dir_all], which deletes entries of a directory that it is reading. *)
From stdpp Require Import gmap.
From S2P Require Import Prelude Firmware Chars Strs OwnedStrs Path Status FileInfo File FileSystem Volume.

(** ** Entries *)

(** A name without its NUL, whether it is a directory, and the [EFI_FILE_INFO] that a
    read returns for it. *)
Record dirent : Set := mkDirent { d_name : list Z; d_is_dir : bool; d_enc : list Z }.

(** [.] and [..]. *)
Definition special (e : dirent) : Prop := d_name e = [0x2E] \/ d_name e = [0x2E; 0x2E].

#[export] Instance special_dec e : Decision (special e).
Proof. unfold special. apply _. Defined.

Definition dirent_ok (e : dirent) : Prop :=
  Forall body_char (d_name e) /\ zlen (d_name e) <= 255 /\
  zlen (d_enc e) = 80 + 2 * (zlen (d_name e) + 1) /\
  range (d_enc e) 80 (2 * (zlen (d_name e) + 1)) = cstr16_as_bytes (d_name e ++ [0]) /\
  FileAttribute.contains (le_val (range (d_enc e) 72 8)) FileAttribute.DIRECTORY = d_is_dir e.

Section listings.
Context {W : Type} `{!FileProtocol W} `{!Allocator W} `{!VolumeLaws W}.

(** The tree of a volume: what is in a directory is in one, and has a name. *)
Definition valid_tree (t : gmap fkey node) : Prop :=
  forall k c, is_Some (t !! (k ++ [c])) ->
    t !! k = Some DirNode /\ exists name, canon name = c /\ comp_ok name /\ zlen name <= 255.

Definition entry_key (k : fkey) (e : dirent) : fkey := k ++ [canon (d_name e)].

(** The entry of a node of the tree. *)
Definition entry_of (t : gmap fkey node) (k : fkey) (e : dirent) : Prop :=
  comp_ok (d_name e) /\ exists n, t !! entry_key k e = Some n /\ (d_is_dir e = true <-> n = DirNode).

(** [l] lists what is left to be read of the directory [k]: no name twice, and
    everything that is there, or [.] or [..]. *)
Definition lists (t : gmap fkey node) (k : fkey) (l : list dirent) : Prop :=
  NoDup (map (fun e => canon (d_name e)) l) /\ (length l <= size t + 2)%nat /\
  Forall (fun e => dirent_ok e /\ (special e \/ entry_of t k e)) l /\
  forall c, is_Some (t !! (k ++ [c])) -> exists e, e ∈ l /\ ~ special e /\ canon (d_name e) = c.
End listings.

(** ** What the firmware promises *)

(** A directory that is being read is not disturbed by what happens to other handles:
    entries that are still to be read may only be lost when they are deleted.
    [pending w h] are the entries still to be read from the handle [h]. *)
Definition undisturbed `{VolumeLaws W} (pending : W -> Z -> list dirent) (H : Z) (w w' : W) : Prop :=
  forall s, handles (view w) !! H = Some s ->
    handles (view w') !! H = Some s /\
    (forall k, is_Some (tree (view w') !! k) -> is_Some (tree (view w) !! k)) /\
    sublist (pending w' H) (pending w H) /\
    forall e, e ∈ pending w H -> special e \/ is_Some (tree (view w') !! entry_key (h_key s) e) -> e ∈ pending w' H.

Class DirectoryLaws (W : Type) `{!FileProtocol W} `{!Allocator W} `{!VolumeLaws W} : Type := {
  pending : W -> Z -> list dirent;
  dir_open : forall w h0 p mode attr h w',
    handles (view w) !! h0 = Some (mkH [] 0) -> good_path p -> creates mode = false ->
    tree (view w) !! key p = Some DirNode -> valid_tree (tree (view w)) ->
    efi_open h0 p mode attr w = ((Status.SUCCESS, h), w') -> lists (tree (view w)) (key p) (pending w' h);
  dir_read : forall w h k pos n, handles (view w) !! h = Some (mkH k pos) -> tree (view w) !! k = Some DirNode -> 0 <= n ->
    let '(r, w') := efi_read h n w in
    view w' = view w /\
    match pending w h with
    | [] => r = (Status.SUCCESS, 0, []) /\ pending w' h = []
    | e :: l =>
        if n <? zlen (d_enc e) then r = (Status.BUFFER_TOO_SMALL, zlen (d_enc e), []) /\ pending w' h = e :: l
        else r = (Status.SUCCESS, zlen (d_enc e), d_enc e) /\ pending w' h = l
    end;
  dir_delete : forall w h k pos,
    handles (view w) !! h = Some (mkH k pos) -> tree (view w) !! k = Some DirNode ->
    (forall c, tree (view w) !! (k ++ [c]) = None) -> not_open (del_handle (view w) h) k ->
    exists w', efi_delete h w = (Status.SUCCESS, w') /\ view w' = del_node (del_handle (view w) h) k;
  fresh_volume : forall H w h w', efi_open_volume w = ((Status.SUCCESS, h), w') -> is_Some (handles (view w) !! H) -> h <> H;
  fresh_open : forall H h0 p mode attr w h w',
    efi_open h0 p mode attr w = ((Status.SUCCESS, h), w') -> is_Some (handles (view w) !! H) -> h <> H;
  frame_volume : forall H w, undisturbed pending H w (efi_open_volume w).2;
  frame_open : forall H h0 p mode attr w, creates mode = false -> undisturbed pending H w (efi_open h0 p mode attr w).2;
  frame_close : forall H h w, h <> H -> undisturbed pending H w (efi_close h w).2;
  frame_delete : forall H h w, h <> H -> undisturbed pending H w (efi_delete h w).2;
  frame_read : forall H h n w, h <> H -> undisturbed pending H w (efi_read h n w).2;
  frame_position : forall H h w, undisturbed pending H w (efi_get_position h w).2;
  heap_alloc : forall size al w, view (alloc size al w).2 = view w /\ pending (alloc size al w).2 = pending w;
  heap_dealloc : forall b size al w, view (dealloc b size al w) = view w /\ pending (dealloc b size al w) = pending w;
}.

(** ** What other handles see *)

Section framing.
Context `{Profile} {W : Type} `{!FileProtocol W} `{!Allocator W} `{!VolumeLaws W} `{!DirectoryLaws W}.
Context (d : Z).

#[export] Instance undisturbed_preorder : PreOrder (undisturbed pending d).
Proof.
  split.
  - intros w s Hs. done.
  - intros w1 w2 w3 H12 H23 s Hs. destruct (H12 s Hs) as (Hs2 & T2 & S2 & R2). destruct (H23 s Hs2) as (Hs3 & T3 & S3 & R3).
    split; [done|]. split; [auto|]. split; [by transitivity (pending w2 d)|]. intros e He Hk. apply R3; [|done]. apply R2; [done|].
    destruct Hk as [|Hk]; [by left|right; by apply T3].
Qed.

(** From every state in which [d] is open, a run leaves it undisturbed, and [P] holds
    of the result. *)
Definition frames {A} (m : fw W A) (P : A -> Prop) : Prop :=
  forall w a w', is_Some (handles (view w) !! d) -> m w = Ret (a, w') -> undisturbed pending d w w' /\ P a.

Lemma undisturbed_open w w' : undisturbed pending d w w' -> is_Some (handles (view w) !! d) -> is_Some (handles (view w') !! d).
Proof. intros Hu [s Hs]. destruct (Hu s Hs) as [-> _]. done. Qed.

Lemma frames_bind {A B} (m : fw W A) (k : A -> fw W B) P Q :
  frames m P -> (forall a, P a -> frames (k a) Q) -> frames (m ≫= k) Q.
Proof.
  intros Hm Hk w b w2 Ho (a & w1 & E & Ek)%fw_bind_inv. destruct (Hm w a w1 Ho E) as [U1 Pa].
  destruct (Hk a Pa w1 b w2) as [U2 Qb]; [by eapply undisturbed_open|done|]. split; [by transitivity w1|done].
Qed.

Lemma frames_ret {A} (a : A) (P : A -> Prop) : P a -> frames (mret a) P.
Proof. by intros Ha w b w' _ [= <- <-]. Qed.

Lemma frames_lift {A} (o : outcome A) (P : A -> Prop) : (forall a, o = Ret a -> P a) -> frames (lift o) P.
Proof. intros Ho w b w' _ (a & E & [= <- <-])%obind_Ret_inv. split; [done|auto]. Qed.

Lemma frames_call {A} (f : W -> A * W) (P : A -> Prop) :
  (forall w, is_Some (handles (view w) !! d) -> undisturbed pending d w (f w).2 /\ P (f w).1) -> frames (call f) P.
Proof. intros Hf w b w' Ho [= E]. specialize (Hf w Ho). by rewrite E in Hf. Qed.

Lemma frames_weaken {A} (m : fw W A) (P Q : A -> Prop) : frames m P -> (forall a, P a -> Q a) -> frames m Q.
Proof. intros Hm HPQ w a w' Ho E. destruct (Hm w a w' Ho E). auto. Qed.

Lemma frames_try {A B E} (m : fw W (result A E)) (k : A -> fw W (result B E)) P Q :
  frames m (fun r => forall a, r = Ok a -> P a) -> (forall e, Q (Err e)) -> (forall a, P a -> frames (k a) Q) -> frames (fw_try m k) Q.
Proof. intros Hm He Hk. eapply frames_bind; [exact Hm|]. intros [a|e] Ha; [by apply Hk, Ha|by apply frames_ret]. Qed.

(** Steps of which only the frame matters. *)
Abbreviation framed m := (frames m (fun _ => True)).

Lemma framed_bind {A B} (m : fw W A) (k : A -> fw W B) Q : framed m -> (forall a, frames (k a) Q) -> frames (m ≫= k) Q.
Proof. intros Hm Hk. eapply frames_bind; [exact Hm|auto]. Qed.

Lemma framed_try {A B E} (m : fw W (result A E)) (k : A -> fw W (result B E)) : framed m -> (forall a, framed (k a)) -> framed (fw_try m k).
Proof. intros Hm Hk. apply framed_bind; [done|]. intros [a|e]; [done|by apply frames_ret]. Qed.

Lemma framed_lift {A} (o : outcome A) : framed (lift o).
Proof. by apply frames_lift. Qed.

Lemma framed_call {A} (f : W -> A * W) : (forall w, undisturbed pending d w (f w).2) -> framed (call f).
Proof. intros Hf. by apply frames_call. Qed.

Lemma unchanged_undisturbed w w' : view w' = view w -> pending w' = pending w -> undisturbed pending d w w'.
Proof. intros Ev Ep s Hs. rewrite Ev, Ep. done. Qed.

Lemma frame_alloc size al w : undisturbed pending d w (alloc size al w).2.
Proof. by apply unchanged_undisturbed; apply heap_alloc. Qed.

Lemma frame_dealloc b size al w : undisturbed pending d w (dealloc b size al w).
Proof. by apply unchanged_undisturbed; apply heap_dealloc. Qed.

(** A handle that is not the one being watched. *)
Definition other (r : fs_result Z) : Prop := forall h, r = Ok h -> h <> d.

Lemma frames_to_result {T} status (h : T) (P : T -> Prop) :
  (status = Status.SUCCESS -> P h) -> frames (lift (to_result_with_val status h)) (fun r => forall x, r = Ok x -> P x).
Proof.
  intros Hs. apply frames_lift. intros r. rewrite to_result_with_val_cases. intros [= <-] x.
  destruct (Z.eqb_spec status 0) as [->|]; [intros [= <-]; by apply Hs|done].
Qed.

Lemma open_volume_frames : frames open_volume (fun r => forall h, r = Ok h -> h <> d).
Proof.
  eapply frames_bind; [apply (frames_call _ (fun r => r.1 = Status.SUCCESS -> r.2 <> d))|].
  - intros w Hw. split; [apply frame_volume|]. destruct (efi_open_volume w) as [[s h] w'] eqn:E. cbn. intros ->. by eapply fresh_volume.
  - intros [s h] Hh. by apply frames_to_result.
Qed.

Lemma file_open_frames root p mode attr :
  mode <> CreateReadWrite -> frames (file_open root p mode attr) (fun r => forall h, r = Ok h -> h <> d).
Proof.
  intros Hm. apply framed_bind; [apply framed_lift|]. intros _.
  eapply frames_bind; [apply (frames_call _ (fun r => r.1 = Status.SUCCESS -> r.2 <> d))|].
  - intros w Hw. split; [apply frame_open; rewrite creates_mode; by apply bool_decide_false|].
    destruct (efi_open _ _ _ _ w) as [[s h] w'] eqn:E. cbn. intros ->. by eapply fresh_open.
  - intros [s h] Hh. by apply frames_to_result.
Qed.

Lemma file_drop_frames h : h <> d -> frames (file_drop h) (fun _ => True).
Proof.
  intros Hh. apply framed_bind; [apply framed_lift|]. intros _.
  apply framed_bind; [apply framed_call; intros w; by apply frame_close|]. intros s.
  apply framed_bind; [apply framed_lift|]. intros r. by apply frames_lift.
Qed.

Lemma with_handle_frames {A} h (m : fw W A) P : h <> d -> frames m P -> frames (with_handle h m) P.
Proof.
  intros Hh Hm. eapply frames_bind; [exact Hm|]. intros a Ha.
  eapply frames_bind; [by apply file_drop_frames|]. intros _ _. by apply frames_ret.
Qed.

Lemma map_io_frames {A D} p ctx f (m : fw W (uresult A D)) (P : A -> Prop) :
  frames m (fun r => forall a, r = Ok a -> P a) -> frames (map_io p ctx f m) (fun r => forall a, r = Ok a -> P a).
Proof.
  intros Hm. eapply frames_bind; [exact Hm|]. intros [a|e] Ha; [apply frames_ret; intros ? [= <-]; by apply Ha|].
  apply framed_bind; [apply framed_lift|]. intros err. by apply frames_ret.
Qed.

Lemma open_frames p mode : mode <> CreateReadWrite -> frames (open p mode false) other.
Proof.
  intros Hm. apply framed_bind; [apply framed_lift|]. intros [u|e]; [|by apply frames_ret].
  eapply (frames_try _ _ (fun h => h <> d)); [|done|].
  - eapply frames_bind; [apply open_volume_frames|]. intros [h|e] Hh; [apply frames_ret; intros ? [= <-]; by apply Hh|].
    apply framed_bind; [apply framed_lift|]. intros q. by apply frames_ret.
  - intros root Hr. apply with_handle_frames; [done|]. by apply map_io_frames, file_open_frames.
Qed.

Lemma into_type_frames h : h <> d -> frames (into_type h) (fun r => forall t, r = Ok t -> t = Regular h \/ t = Dir h).
Proof.
  intros Hh. eapply frames_bind.
  - apply framed_bind; [apply framed_lift|]. intros _.
    apply framed_bind; [apply framed_call; intros w; apply frame_position|]. intros [s x].
    instantiate (1 := fun _ => True). destruct (s =? Status.SUCCESS); [by apply frames_ret|].
    destruct (s =? Status.UNSUPPORTED); [by apply frames_ret|].
    apply framed_bind; [apply framed_lift|]. intros e. by apply frames_ret.
  - intros [b|e] _.
    + apply frames_ret. intros t [= <-]. destruct b; auto.
    + eapply frames_bind; [by apply file_drop_frames|]. intros _ _. by apply frames_ret.
Qed.

Lemma file_delete_frames h : h <> d -> frames (file_delete h) (fun _ => True).
Proof.
  intros Hh. apply framed_bind; [apply framed_lift|]. intros _.
  apply framed_bind; [apply framed_call; intros w; by apply frame_delete|]. intros s.
  by apply frames_lift.
Qed.

Lemma remove_file_frames p : framed (remove_file p).
Proof.
  eapply (frames_try _ _ (fun h => h <> d)); [by apply open_frames|done|]. intros h Hh.
  eapply frames_bind; [by apply into_type_frames|]. intros [t|e] Ht; [|apply framed_lift].
  destruct (Ht t eq_refl) as [-> | ->].
  - eapply frames_weaken; [by apply (map_io_frames _ _ _ _ (fun _ => True)); eapply frames_weaken; [apply file_delete_frames|]|done].
  - apply with_handle_frames; [done|]. apply framed_bind; [apply framed_lift|]. intros e. by apply frames_ret.
Qed.

Lemma remove_dir_frames p : framed (remove_dir p).
Proof.
  eapply (frames_try _ _ (fun h => h <> d)); [by apply open_frames|done|]. intros h Hh.
  eapply frames_bind; [by apply into_type_frames|]. intros [t|e] Ht; [|apply framed_lift].
  destruct (Ht t eq_refl) as [-> | ->].
  - apply with_handle_frames; [done|]. apply framed_bind; [apply framed_lift|]. intros e. by apply frames_ret.
  - eapply frames_weaken; [by apply (map_io_frames _ _ _ _ (fun _ => True)); eapply frames_weaken; [apply file_delete_frames|]|done].
Qed.

Lemma read_dir_frames p : frames (read_dir p) other.
Proof.
  eapply (frames_try _ _ (fun h => h <> d)); [by apply open_frames|done|]. intros h Hh.
  eapply (frames_bind _ _ (fun o => forall x, o = Some x -> x <> d)).
  - eapply frames_bind; [by apply into_type_frames|]. intros [t|e] Ht; [|by apply frames_ret].
    destruct (Ht t eq_refl) as [-> | ->]; [|apply frames_ret; by intros ? [= <-]].
    eapply frames_bind; [by apply file_drop_frames|]. intros _ _. by apply frames_ret.
  - intros o Ho. apply framed_bind; [apply framed_lift|]. intros e. apply frames_ret. intros x. destruct o; cbn; [|done].
    intros [= <-]. by apply Ho.
Qed.

Lemma read_entry_frames h b : h <> d -> framed (read_entry h b).
Proof.
  intros Hh. apply framed_bind; [apply framed_lift|]. intros _. apply framed_bind.
  - apply framed_bind; [apply framed_lift|]. intros _. apply framed_bind; [apply framed_call; intros w; by apply frame_read|].
    intros [[s n] out]. apply framed_bind; [apply framed_lift|]. intros m. apply framed_bind; [apply framed_lift|]. intros r. by apply frames_ret.
  - intros [r m]. apply framed_try; [by apply frames_ret|]. intros n. destruct (n =? 0); [by apply frames_ret|].
    apply framed_bind; [apply framed_lift|]. intros i. by apply frames_ret.
Qed.

Lemma make_boxed_frames {D} al (fetch : Buffer -> fw W (uresult D (option Z))) :
  (forall b, framed (fetch b)) -> framed (make_boxed al fetch).
Proof.
  intros Hf w r w' Ho E. split; [|done]. unfold make_boxed in E. apply obind_Ret_inv in E as ([r0 w1] & E0 & E).
  destruct (Hf _ _ _ _ Ho E0) as [U0 _]. apply obind_Ret_inv in E as ([n|e] & En & E); [|by injection E as <- <-].
  apply obind_Ret_inv in E as (layout & _ & E).
  pose proof (frame_alloc layout al w1) as Ua. destruct (alloc layout al w1) as [[b|] w2]; cbn [snd] in Ua.
  2: { injection E as <- <-. by transitivity w1. }
  apply obind_Ret_inv in E as ([r1 w3] & E1 & E). destruct (Hf _ w2 _ _ ltac:(eapply undisturbed_open; [exact Ua|]; by eapply undisturbed_open) E1) as [U1 _].
  assert (undisturbed pending d w w3) as U3 by (transitivity w1; [done|]; by transitivity w2).
  apply obind_Ret_inv in E as ([x|e] & _ & E); injection E as <- <-; [done|]. transitivity w3; [done|apply frame_dealloc].
Qed.

Lemma dir_iter_next_frames h : h <> d -> framed (dir_iter_next h).
Proof.
  intros Hh. apply framed_bind; [|intros e; by apply frames_ret]. apply framed_bind; [by apply read_entry_frames|].
  assert (framed (try i <- make_boxed (info_alignment (InfoInternal := FileInfo)) (fetch_entry h); mret (Ok (E := Error unit) (Some i)))) as Hb.
  { apply framed_try; [|intros i; by apply frames_ret]. apply make_boxed_frames. intros b.
    apply framed_try; [by apply read_entry_frames|]. intros [i|]; [by apply frames_ret|apply framed_lift]. }
  intros [[i|]|e]; [exact Hb|by apply frames_ret|exact Hb].
Qed.

Lemma with_box_frames {A} i (m : fw W A) : framed m -> framed (with_box i m).
Proof.
  intros Hm. apply framed_bind; [done|]. intros a. apply framed_bind; [apply framed_call; intros w; apply frame_dealloc|].
  intros _. by apply frames_ret.
Qed.

Lemma remove_entries_frames fuel rec p h :
  h <> d -> (forall q, framed (rec q)) -> framed (remove_entries fuel rec p h).
Proof.
  intros Hh Hrec. induction fuel as [|fuel IH]; [by intros w a w' _|]. cbn [remove_entries].
  apply framed_bind; [by apply dir_iter_next_frames|]. intros [[i|e]|]; [|done|by apply frames_ret].
  apply framed_try; [|intros _; exact IH]. apply with_box_frames. apply framed_bind; [apply framed_lift|]. intros name.
  destruct (bool_decide _); [by apply frames_ret|]. do 2 (apply framed_bind; [apply framed_lift|]; intros ?).
  destruct (info_is_directory i); [apply Hrec|apply remove_file_frames].
Qed.

Lemma remove_dir_all_frames fuel p : framed (remove_dir_all fuel p).
Proof.
  revert p. induction fuel as [|fuel IH]; intros p; [by intros w a w' _|]. cbn [remove_dir_all].
  eapply (frames_try _ _ (fun h => h <> d)); [apply read_dir_frames|done|]. intros h Hh.
  apply framed_try; [by apply with_handle_frames, remove_entries_frames|]. intros _. apply remove_dir_frames.
Qed.
End framing.

(** ** Reading entries *)

Section reading.
Context `{Profile} {W : Type} `{!FileProtocol W} `{!Allocator W} `{!VolumeLaws W} `{!DirectoryLaws W}.

(** The handle [h] is open for the directory [k]. *)
Definition reads (h : Z) (k : fkey) (w : W) : Prop :=
  h <> 0 /\ (exists pos, handles (view w) !! h = Some (mkH k pos)) /\ tree (view w) !! k = Some DirNode.

Lemma write_raw_none (m : list Z) : write_raw m 0 [] = Ret m.
Proof. unfold write_raw. pose proof (zlen_nonneg m). by rewrite !(proj2 (Z.leb_le _ _)) by (unfold zlen in *; cbn; lia). Qed.

(** A read into a buffer. *)
Lemma read_unchunked_run h k w (buf : list Z) :
  reads h k w ->
  exists w', view w' = view w /\
    match pending w h with
    | [] => read_unchunked h buf w = Ret ((Ok 0, buf), w')
    | e :: l =>
        if zlen buf <? zlen (d_enc e)
        then read_unchunked h buf w = Ret ((Err (mkError Status.BUFFER_TOO_SMALL (Some (zlen (d_enc e)))), buf), w') /\ pending w' h = e :: l
        else read_unchunked h buf w = Ret ((Ok (zlen (d_enc e)), d_enc e ++ drop (length (d_enc e)) buf), w') /\ pending w' h = l
    end.
Proof.
  intros (Hh & [pos Hv] & Ht). unfold read_unchunked, imp. rewrite (proj2 (Z.eqb_neq h 0) Hh), fw_bind_lift, fw_bind_call.
  pose proof (dir_read w h k pos (zlen buf) Hv Ht (zlen_nonneg buf)) as Hr. destruct (efi_read h (zlen buf) w) as [r w'].
  destruct Hr as [Ev Hr]. exists w'. split; [done|]. destruct (pending w h) as [|e l]; cbn [fst snd].
  - destruct Hr as [-> _]. by rewrite write_raw_none.
  - destruct (Z.ltb_spec (zlen buf) (zlen (d_enc e))) as [Hlt|Hge]; destruct Hr as [-> Hp]; cbn [fst snd].
    + split; [|done]. by rewrite write_raw_none.
    + split; [|done]. assert (write_raw buf 0 (d_enc e) = Ret (d_enc e ++ drop (length (d_enc e)) buf)) as Hw
        by (unfold write_raw; by rewrite !(proj2 (Z.leb_le _ _)) by lia).
      rewrite Hw. by rewrite fw_bind_lift.
Qed.

Lemma read_entry_run h k w b :
  reads h k w -> addr b mod 8 = 0 \/ bytes b = [] ->
  exists w', view w' = view w /\
    match pending w h with
    | [] => read_entry h b w = Ret (Ok None, w')
    | e :: l =>
        if zlen (bytes b) <? zlen (d_enc e)
        then read_entry h b w = Ret (Err (mkError Status.BUFFER_TOO_SMALL (Some (zlen (d_enc e)))), w') /\ pending w' h = e :: l
        else dirent_ok e -> addr b mod 8 = 0 -> zlen (bytes b) = zlen (d_enc e) -> exists i, read_entry h b w = Ret (Ok (Some i), w') /\
          pending w' h = l /\ file_name i = Ret (d_name e ++ [0]) /\ info_is_directory i = d_is_dir e
    end.
Proof.
  intros Hr Hal. destruct (read_unchunked_run h k w (bytes b) Hr) as (w' & Ev & Hread). exists w'. split; [done|].
  assert (assert_aligned (info_alignment (InfoInternal := FileInfo)) b = Ret tt) as Ha.
  { unfold assert_aligned. destruct (bytes b) eqn:Eb; [done|]. destruct Hal as [Hal|]; [|done]. apply assert_true, Z.eqb_eq.
    unfold align_offset. simpl. by apply Z.mod_opp_l_z. }
  unfold read_entry. rewrite Ha, fw_bind_lift. destruct (pending w h) as [|e l]; [by rewrite (fw_bind_Ret _ _ _ _ _ Hread)|].
  destruct (zlen (bytes b) <? zlen (d_enc e)); destruct Hread as [E Hp].
  { rewrite (fw_bind_Ret _ _ _ _ _ E). done. }
  intros (Hb & Hn & Hl & Hname & Hdir) Hal8 Hlen. rewrite (fw_bind_Ret _ _ _ _ _ E). pose proof (zlen_nonneg (d_name e)).
  rewrite drop_ge, app_nil_r by (unfold zlen in *; lia).
  assert (cstr16_wf (d_name e ++ [0])) as Hwf by (by exists (d_name e)).
  assert (zlen (d_name e ++ [0]) = zlen (d_name e) + 1) as Hz by (rewrite zlen_app; done).
  assert (cstr16_from_ptr (name_units (I := FileInfo) (d_enc e)) = Ret (d_name e ++ [0])) as Hu.
  { apply (name_units_found (I := FileInfo)); [done|done|]. by rewrite Hz. }
  assert (from_uefi (I := FileInfo) (mkBuffer (addr b) (d_enc e)) =
    Ret (mkInfoRef (mkBuffer (addr b) (d_enc e)) (zlen (d_name e ++ [0])))) as Hf.
  { unfold from_uefi, is_aligned. cbn [addr bytes info_alignment FileInfo]. rewrite (proj2 (Z.eqb_eq _ 0) Hal8). cbn [negb].
    by rewrite Hu. }
  eexists. cbv beta iota. rewrite (fw_try_Ret _ _ w' (Ok (zlen (d_enc e))) w') by done. cbv iota.
  rewrite (proj2 (Z.eqb_neq (zlen (d_enc e)) 0)) by lia. rewrite Hf, fw_bind_lift.
  split; [done|]. split; [done|]. split; [exact Hu|exact Hdir].
Qed.

Lemma reads_view h k w w' : view w' = view w -> reads h k w -> reads h k w'.
Proof. unfold reads. by intros ->. Qed.

(** The next entry, in memory of its own. *)
Lemma dir_iter_next_run h k w :
  reads h k w ->
  match pending w h with
  | [] => exists w', dir_iter_next h w = Ret (None, w') /\ view w' = view w
  | e :: l => dirent_ok e -> exists i w', dir_iter_next h w = Ret (Some (Ok i), w') /\ view w' = view w /\
      pending w' h = l /\ file_name i = Ret (d_name e ++ [0]) /\ info_is_directory i = d_is_dir e
  end.
Proof.
  intros Hr. destruct (read_entry_run h k w empty_slice Hr (or_intror eq_refl)) as (w1 & V1 & H1).
  unfold dir_iter_next, read_entry_boxed. destruct (pending w h) as [|e l] eqn:Ep.
  { exists w1. split; [|done]. rewrite (fw_bind_Ret _ _ w (Ok None) w1); [done|]. by rewrite (fw_bind_Ret _ _ _ _ _ H1). }
  intros Hok. pose proof Hok as (_ & Hn & Hl & _). set (n := zlen (d_enc e)) in *. pose proof (zlen_nonneg (d_name e)).
  assert (forall w0, pending w0 h = e :: l -> reads h k w0 -> exists w', view w' = view w0 /\ pending w' h = e :: l /\
    read_entry h empty_slice w0 = Ret (Err (mkError Status.BUFFER_TOO_SMALL (Some n)), w')) as Hsmall.
  { intros w0 E0 R0. destruct (read_entry_run h k w0 empty_slice R0 (or_intror eq_refl)) as (w' & V' & H').
    rewrite E0 in H'. change (zlen (bytes empty_slice)) with 0 in H'. fold n in H'.
    rewrite (proj2 (Z.ltb_lt _ _)) in H' by lia. exists w'. destruct H'. done. }
  destruct (Hsmall w Ep Hr) as (w1' & V1' & P1 & E1). clear H1 V1 w1.
  destruct (Hsmall w1' P1 (reads_view _ _ _ _ V1' Hr)) as (w2 & V2 & P2 & E2).
  destruct (vol_alloc w2 ((n + 8 - 1) / 8 * 8) 8) as (b & w3 & E3 & Hbl & Hba & Hw3); [|done|].
  { apply Z.mul_nonneg_nonneg; [|done]. apply Z.div_pos; lia. }
  destruct (heap_alloc ((n + 8 - 1) / 8 * 8) 8 w2) as [_ P3]. rewrite E3 in P3. cbn [snd] in P3.
  assert (zlen (take (Z.to_nat n) (bytes b)) = n) as Hlen.
  { unfold zlen in *. rewrite length_take. pose proof (Z.mod_pos_bound (n + 8 - 1) 8 ltac:(lia)). pose proof (Z.div_mod (n + 8 - 1) 8). lia. }
  assert (reads h k w3) as R3 by (eapply reads_view; [|exact Hr]; congruence).
  destruct (read_entry_run h k w3 (mkBuffer (addr b) (take (Z.to_nat n) (bytes b))) R3 (or_introl Hba)) as (w4 & V4 & H4).
  rewrite P3, P2 in H4. cbn [bytes addr] in H4. rewrite (proj2 (Z.ltb_ge _ _)) in H4 by lia.
  destruct (H4 Hok Hba Hlen) as (i & E4 & P4 & Hname & Hdir). exists i, w4. split; [|split; [congruence|done]].
  rewrite (fw_bind_Ret _ _ w (Ok (Some i)) w4); [done|]. rewrite (fw_bind_Ret _ _ _ _ _ E1).
  rewrite (fw_try_Ret _ _ w1' (Ok i) w4); [done|].
  eapply (make_boxed_returns 8 (fetch_entry h) w1' 3 n); [done|done|lia| |exact E3|].
  - unfold fetch_entry. by rewrite (fw_try_Ret _ _ _ _ _ E2).
  - unfold fetch_entry. by rewrite (fw_try_Ret _ _ _ _ _ E4).
Qed.

Lemma sublist_all {A} (l1 l2 : list A) : sublist l1 l2 -> NoDup l2 -> (forall e, e ∈ l2 -> e ∈ l1) -> l1 = l2.
Proof.
  induction 1 as [|x l1 l2 _ IH|x l1 l2 Hs IH]; intros Hn Hin; [done|..]; apply NoDup_cons in Hn as [Hx Hn].
  - f_equal. apply IH; [done|]. intros e He. destruct (proj1 (elem_of_cons _ _ _) (Hin e ltac:(by right))) as [->|]; done.
  - destruct Hx. eapply elem_of_submseteq; [apply Hin; by left|]. by apply sublist_submseteq.
Qed.

Lemma lists_NoDup t k l : lists t k l -> NoDup l.
Proof. intros [Hn _]. by apply NoDup_fmap_1 in Hn. Qed.

(** What is left to be read does not change while the entries stay. *)
Lemma undisturbed_pending h k pos w w' :
  handles (view w) !! h = Some (mkH k pos) -> undisturbed pending h w w' -> NoDup (pending w h) ->
  Forall (fun e => special e \/ is_Some (tree (view w') !! entry_key k e)) (pending w h) -> pending w' h = pending w h.
Proof.
  intros Hh Hu Hn Hk. destruct (Hu _ Hh) as (_ & _ & Hs & Hr). apply sublist_all; [done|done|].
  intros e He. apply Hr; [done|]. rewrite Forall_forall in Hk. by apply Hk.
Qed.

Lemma lists_present t k l : lists t k l -> Forall (fun e => special e \/ is_Some (t !! entry_key k e)) l.
Proof.
  intros (_ & _ & Hl & _). eapply Forall_impl; [exact Hl|]. intros e [_ [|(_ & n & Hn & _)]]; [by left|right]. by rewrite Hn.
Qed.

Lemma open_dir_run p w :
  good_path p -> tree (view w) !! key p = Some DirNode -> valid_tree (tree (view w)) ->
  exists h w', open p Read false w = Ret (Ok h, w') /\ h <> 0 /\ handles (view w) !! h = None /\
    view w' = add_handle (view w) h (key p) 0 /\ lists (tree (view w)) (key p) (pending w' h).
Proof.
  intros Hp Ht Hv. destruct (vol_open_volume w) as (root & w0 & E0 & Hr0 & Hn0 & V0).
  destruct (vol_open_existing w0 root p (raw_file_mode (file_mode_bits Read)) 0 DirNode) as (h & w1 & E1 & Hh & Hn1 & V1);
    [rewrite V0; apply lookup_add_handle|done|by rewrite V0|done|].
  assert (h <> root) as Hne. { intros ->. rewrite V0, lookup_add_handle in Hn1. done. }
  assert (lists (tree (view w)) (key p) (pending w1 h)) as Hl.
  { pose proof (dir_open w0 root p (raw_file_mode (file_mode_bits Read)) 0 h w1) as Hd. rewrite V0 in Hd. cbn in Hd. eapply Hd; [apply lookup_insert_eq|done|..]; done. }
  destruct (vol_close w1 root) as (w2 & E2 & V2).
  { rewrite V1. unfold add_handle. cbn. rewrite V0, lookup_insert_ne by done. cbn. by rewrite lookup_insert_eq. }
  assert (view w2 = add_handle (view w) h (key p) 0) as Hw2.
  { rewrite V2, V1, V0. rewrite del_add_handle_ne by done. by rewrite del_add_handle. }
  exists h, w2. split; [|split; [done|split]].
  - unfold open. rewrite (good_path_valid p Hp), fw_bind_lift. cbn iota.
    rewrite (fw_try_Ret _ _ w (Ok root) w0); [cbn iota|].
    2: { unfold open_root, open_volume. rewrite (fw_bind_Ret _ _ w (Ok root) w0); [done|]. rewrite fw_bind_call, E0. done. }
    unfold with_handle. rewrite (fw_bind_Ret _ _ w0 (Ok h) w1).
    + rewrite (fw_bind_Ret _ _ w1 tt w2); [done|]. unfold file_drop, imp. rewrite (proj2 (Z.eqb_neq root 0) Hr0), fw_bind_lift, fw_bind_call, E2. done.
    + unfold map_io. rewrite (fw_bind_Ret _ _ w0 (Ok h) w1); [done|]. unfold file_open, imp.
      rewrite (proj2 (Z.eqb_neq root 0) Hr0), fw_bind_lift, fw_bind_call, andb_false_r, E1. done.
  - rewrite V0 in Hn1. unfold add_handle in Hn1. cbn in Hn1. apply lookup_insert_None in Hn1 as [? _]. done.
  - split; [done|]. pose proof (frame_close h root w1 ltac:(done)) as Hf. rewrite E2 in Hf. cbn [snd] in Hf.
    rewrite (undisturbed_pending h (key p) 0 w1 w2); [done| |done|by eapply lists_NoDup|].
    + rewrite V1. apply lookup_add_handle.
    + rewrite Hw2. cbn. by apply lists_present.
Qed.

(** [read_dir] gives a handle from which the listing can be read. *)
Lemma read_dir_run p w :
  good_path p -> tree (view w) !! key p = Some DirNode -> valid_tree (tree (view w)) ->
  exists h w', read_dir p w = Ret (Ok h, w') /\ h <> 0 /\ handles (view w) !! h = None /\
    view w' = add_handle (view w) h (key p) 0 /\ lists (tree (view w)) (key p) (pending w' h).
Proof.
  intros Hp Ht Hv. destruct (open_dir_run p w Hp Ht Hv) as (h & w1 & E1 & Hh & Hn & V1 & Hl).
  assert (handles (view w1) !! h = Some (mkH (key p) 0)) as Hh1 by (rewrite V1; apply lookup_add_handle).
  destruct (vol_get_position w1 h (key p) 0 DirNode) as (w2 & E2 & V2); [done|by rewrite V1|].
  destruct (logical_error_ok p NotADirectory Status.INVALID_PARAMETER (proj1 Hp)) as [e Ee]; [done|].
  exists h, w2. split; [|split; [done|split; [done|split; [congruence|]]]].
  - unfold read_dir. rewrite (fw_try_Ret _ _ _ _ _ E1). cbn iota. rewrite (fw_bind_Ret _ _ w1 (Some h) w2).
    + unfold ok_or_io. by rewrite Ee, fw_bind_lift.
    + unfold into_directory. rewrite (fw_bind_Ret _ _ w1 (Ok (Dir h)) w2); [done|]. unfold into_type.
      rewrite (fw_bind_Ret _ _ w1 (Ok false) w2); [done|]. unfold is_regular_file.
      rewrite (proj2 (Z.eqb_neq h 0) Hh), fw_bind_lift, fw_bind_call, E2. done.
  - pose proof (frame_position h h w1) as Hf. rewrite E2 in Hf. cbn [snd] in Hf.
    rewrite (undisturbed_pending h (key p) 0 w1 w2); [done|done|done|by eapply lists_NoDup|].
    rewrite V2, V1. cbn. by apply lists_present.
Qed.

(** Iterating over a listing gives an info for every entry. *)
Definition info_of (i : InfoRef) (e : dirent) : Prop :=
  file_name i = Ret (d_name e ++ [0]) /\ info_is_directory i = d_is_dir e.

(** [UefiDirectoryIter] until it ends. *)
Fixpoint collect_dir (fuel : nat) (dir : Z) : fw W (list (uresult InfoRef unit)) :=
  match fuel with
  | O => lift NoFuel
  | S fuel =>
      next ← dir_iter_next dir;
      match next with
      | None => mret []
      | Some i => l ← collect_dir fuel dir; mret (i :: l)
      end
  end.

Lemma collect_dir_run fuel h k w :
  reads h k w -> Forall dirent_ok (pending w h) -> (length (pending w h) < fuel)%nat ->
  exists infos w', collect_dir fuel h w = Ret (map Ok infos, w') /\ Forall2 info_of infos (pending w h) /\ view w' = view w.
Proof.
  revert w. induction fuel as [|fuel IH]; intros w Hr Hok Hf; [lia|]. cbn [collect_dir].
  pose proof (dir_iter_next_run h k w Hr) as Hn. destruct (pending w h) as [|e l] eqn:Ep.
  - destruct Hn as (w' & E & V). exists [], w'. rewrite (fw_bind_Ret _ _ _ _ _ E). split; [done|]. split; [constructor|done].
  - apply Forall_cons in Hok as [Hoke Hok]. destruct (Hn Hoke) as (i & w1 & E & V1 & P1 & Hi). rewrite (fw_bind_Ret _ _ _ _ _ E).
    destruct (IH w1) as (infos & w2 & E2 & Hf2 & V2); [by eapply reads_view|by rewrite P1|rewrite P1; cbn in Hf; lia|].
    exists (i :: infos), w2. rewrite (fw_bind_Ret _ _ _ _ _ E2). rewrite P1 in Hf2. split; [done|]. split; [by constructor|congruence].
Qed.
End reading.

(** ** Removing *)

Section cutting.
Context {W : Type} `{!FileProtocol W} `{!Allocator W} `{!VolumeLaws W}.

(** The tree without [k] and what is below it. *)
Definition cut (t : gmap fkey node) (k : fkey) : gmap fkey node := filter (fun kn => ~ k `prefix_of` kn.1) t.

Lemma lookup_cut t k k' : cut t k !! k' = if decide (k `prefix_of` k') then None else t !! k'.
Proof.
  unfold cut. destruct (decide (k `prefix_of` k')) as [Hp|Hp].
  - apply map_lookup_filter_None. right. intros n _ Hn. by apply Hn.
  - destruct (t !! k') as [n|] eqn:E; [by apply map_lookup_filter_Some|]. apply map_lookup_filter_None. by left.
Qed.

Lemma cut_subseteq t k : cut t k ⊆ t.
Proof. apply map_filter_subseteq. Qed.

Lemma valid_cut t k : valid_tree t -> valid_tree (cut t k).
Proof.
  intros Hv k' c [n Hn]. rewrite lookup_cut in Hn. destruct (decide (k `prefix_of` (k' ++ [c]))) as [|Hp]; [done|].
  destruct (Hv k' c) as [Hd Hname]; [by rewrite Hn|]. split; [|done]. rewrite lookup_cut.
  destruct (decide (k `prefix_of` k')) as [Hq|]; [|done]. destruct Hp. by apply prefix_app_r.
Qed.

(** Below a node that is no directory there is nothing. *)
Lemma valid_below t k k' n : valid_tree t -> k `prefix_of` k' -> k' <> k -> t !! k' = Some n -> t !! k = Some DirNode.
Proof.
  intros Hv [r ->]. revert n. induction r as [|c r IH] using rev_ind; intros n Hne Hn; [by rewrite app_nil_r in Hne|].
  rewrite app_assoc in Hn. destruct (Hv (k ++ r) c) as [Hd _]; [by rewrite Hn|]. destruct r as [|c' r]; [by rewrite app_nil_r in Hd|].
  eapply IH; [|exact Hd]. intros E. apply (f_equal length) in E. rewrite length_app in E. cbn in E. lia.
Qed.

Lemma cut_file t k c : valid_tree t -> t !! k = Some (FileNode c) -> cut t k = delete k t.
Proof.
  intros Hv Hk. apply map_eq. intros k'. rewrite lookup_cut. destruct (decide (k' = k)) as [->|Hne].
  - rewrite lookup_delete_eq. by destruct (decide _).
  - rewrite lookup_delete_ne by done. destruct (decide (k `prefix_of` k')) as [Hp|]; [|done].
    destruct (t !! k') as [n|] eqn:E; [|done]. pose proof (valid_below t k k' n Hv Hp Hne E). congruence.
Qed.

(** The entries of a listing are cut one after the other. *)
Definition cut_entries (t : gmap fkey node) (k : fkey) (l : list dirent) : gmap fkey node :=
  foldl (fun t e => if decide (special e) then t else cut t (entry_key k e)) t l.

Lemma lookup_cut_entries t k l k' :
  cut_entries t k l !! k' =
    if decide (Exists (fun e => ~ special e /\ entry_key k e `prefix_of` k') l) then None else t !! k'.
Proof.
  revert t. induction l as [|e l IH]; intros t; cbn [cut_entries foldl].
  { destruct (decide _) as [He|]; [by apply Exists_nil in He|done]. }
  fold (cut_entries (if decide (special e) then t else cut t (entry_key k e)) k l). rewrite IH.
  destruct (decide (Exists _ l)) as [Hl|Hl].
  { rewrite decide_True; [done|]. by apply Exists_cons_tl. }
  destruct (decide (special e)) as [Hs|Hs].
  { rewrite decide_False; [done|]. intros [[? _]|?]%Exists_cons; done. }
  rewrite lookup_cut. destruct (decide (entry_key k e `prefix_of` k')) as [Hp|Hp].
  - rewrite decide_True; [done|]. by apply Exists_cons_hd.
  - rewrite decide_False; [done|]. intros [[_ ?]|?]%Exists_cons; done.
Qed.

(** When the whole listing was cut, the directory is empty, and without it the tree is
    cut. *)
Lemma cut_listing t k l :
  valid_tree t -> t !! k = Some DirNode -> (forall c, is_Some (t !! (k ++ [c])) -> exists e, e ∈ l /\ ~ special e /\ canon (d_name e) = c) ->
  cut_entries t k l !! k = Some DirNode /\ (forall c, cut_entries t k l !! (k ++ [c]) = None) /\
  delete k (cut_entries t k l) = cut t k.
Proof.
  intros Hv Hk Hc.
  assert (forall c k', (k ++ [c]) `prefix_of` k' -> cut_entries t k l !! k' = None) as Hgone.
  { intros c k' Hp. rewrite lookup_cut_entries. destruct (decide _) as [|Hn]; [done|]. destruct (t !! k') as [n|] eqn:E; [|done].
    destruct Hn. apply Exists_exists.
    assert (is_Some (t !! (k ++ [c]))) as Hs.
    { destruct (decide (k' = k ++ [c])) as [<-|Hne]; [by rewrite E|]. by rewrite (valid_below t (k ++ [c]) k' n). }
    destruct (Hc c Hs) as (e & He & Hsp & <-). by exists e. }
  split; [|split].
  - rewrite lookup_cut_entries. rewrite decide_False; [done|]. intros (e & _ & _ & [r E])%Exists_exists.
    apply (f_equal length) in E. unfold entry_key in E. rewrite !length_app in E. cbn in E. lia.
  - intros c. by apply (Hgone c).
  - apply map_eq. intros k'. rewrite lookup_cut. destruct (decide (k' = k)) as [->|Hne].
    { rewrite lookup_delete_eq. by rewrite decide_True. }
    rewrite lookup_delete_ne by done. destruct (decide (k `prefix_of` k')) as [[r ->]|Hp].
    + destruct r as [|c r]; [by rewrite app_nil_r in Hne|]. apply (Hgone c). exists r. by rewrite <- app_assoc.
    + rewrite lookup_cut_entries. rewrite decide_False; [done|]. intros (e & _ & _ & Hpe)%Exists_exists. apply Hp.
      etransitivity; [|exact Hpe]. by apply prefix_app_r.
Qed.
End cutting.

Section removing.
Context `{Profile} {W : Type} `{!FileProtocol W} `{!Allocator W} `{!VolumeLaws W} `{!DirectoryLaws W}.

Lemma remove_empty_dir_spec p v :
  good_path p -> tree v !! key p = Some DirNode -> (forall c, tree v !! (key p ++ [c]) = None) -> not_open v (key p) ->
  spec (remove_dir p) v (fun r v' => r = Ok tt /\ v' = del_node v (key p)).
Proof.
  intros Hp Ht Hc Hn. eapply spec_bind; [by eapply (open_existing p ReadWrite)|]. intros r v' (h & -> & Hh & Hf & ->). cbn iota.
  eapply spec_bind; [eapply into_type_spec; [done|apply lookup_add_handle|exact Ht]|]. intros r v' [-> ->]. cbn iota.
  eapply spec_conseq; [apply (map_io_spec _ _ _ _ _ (fun _ v' => v' = del_node v (key p)))|by intros r v' ([] & -> & ->)].
  apply spec_imp; [done|]. eapply spec_bind.
  - apply (spec_call _ _ (fun s v' => s = Status.SUCCESS /\ v' = del_node v (key p))). intros w Hw.
    destruct (dir_delete w h (key p) 0) as (w' & E & V); rewrite ?Hw; [apply lookup_add_handle|done|done|by rewrite del_add_handle|].
    exists Status.SUCCESS, w'. rewrite V, Hw, del_add_handle by done. done.
  - intros s v' [-> ->]. eapply spec_lift; [done|]. by exists tt.
Qed.

(** The path of an entry. *)
Lemma entry_path cs name :
  cs <> [] -> Forall comp_ok cs -> comp_ok name ->
  pathbuf_push pathbuf_new (path_of cs) = Ret (path_of cs) /\
  pathbuf_push (path_of cs) (name ++ [0]) = Ret (path_of (cs ++ [name])).
Proof.
  intros Hne Hcs Hn. assert (forall l, Forall comp_ok l -> Forall body_char (join SEPARATOR l) /\ SLASH ∉ join SEPARATOR l) as Hj.
  { intros l Hl. split.
    - apply join_Forall; [by vm_compute|]. eapply Forall_weaken, Hl. by intros c (_ & _ & ? & _).
    - apply join_no_slash. eapply Forall_weaken, Hl. intros c [Hc _]. by apply component_ok_no_slash. }
  assert (join SEPARATOR cs <> []) as Hjn.
  { destruct cs as [|c cs]; [done|]. apply Forall_cons in Hcs as [([Hc _] & _) _]. destruct c; [done|]. by destruct cs. }
  assert (Forall comp_ok (cs ++ [name])) as Hcn by (apply Forall_app; by split; [|constructor]).
  destruct (Hj cs Hcs) as [Hb Hs]. destruct (Hj _ Hcn) as [_ Hs']. split.
  - change pathbuf_new with ([] ++ [0] : list Z). unfold path_of. rewrite pathbuf_push_app by done.
    rewrite bool_decide_false by done. rewrite bool_decide_true by done. unfold unslash. by rewrite replace_char_id.
  - unfold path_of. rewrite pathbuf_push_app; [|done|by destruct Hn as (_ & _ & ? & _)]. rewrite join_snoc in Hs' |- *.
    rewrite bool_decide_false by by destruct Hn as ([? _] & _). rewrite bool_decide_false by done.
    destruct cs; [done|]. unfold unslash. by rewrite replace_char_id.
Qed.

(** No handle is open at [k] or below it; none below it. *)
Definition none_at (v : vol) (k : fkey) : Prop := map_Forall (fun _ s => ~ k `prefix_of` h_key s) (handles v).
Definition none_below (v : vol) (k : fkey) : Prop :=
  map_Forall (fun _ s => k `prefix_of` h_key s -> h_key s = k) (handles v).

Lemma none_below_at v k c : none_below v k -> none_at v (k ++ [c]).
Proof.
  intros Hn h s Hs Hp. assert (h_key s = k) as E.
  { apply (Hn h s Hs). etransitivity; [|exact Hp]. by apply prefix_app_r. }
  rewrite E in Hp. apply prefix_length in Hp. rewrite length_app in Hp. cbn in Hp. lia.
Qed.

Lemma none_at_not_open v k : none_at v k -> not_open v k.
Proof. intros Hn h s Hs E. apply (Hn h s Hs). by rewrite E. Qed.

(** A call that takes the directory out of the tree, with everything below it. *)
Definition removes (rec : list Z -> fw W (fs_result unit)) (cs : fkey) (w : W) : Prop :=
  exists w', rec (path_of cs) w = Ret (Ok tt, w') /\
    view w' = mkVol (cut (tree (view w)) (map canon cs)) (handles (view w)).

Lemma entry_key_other k e e' : canon (d_name e) <> canon (d_name e') -> ~ entry_key k e `prefix_of` entry_key k e'.
Proof.
  intros Hne [r E]. unfold entry_key in E. rewrite <- app_assoc in E. apply app_inv_head in E. cbn in E. injection E as E _. by destruct Hne.
Qed.

Lemma entry_of_cut t k e e' : canon (d_name e) <> canon (d_name e') -> entry_of t k e' -> entry_of (cut t (entry_key k e)) k e'.
Proof. intros Hne (Hc & n & Hn & Hd). split; [done|]. exists n. rewrite lookup_cut, decide_False by by apply entry_key_other. done. Qed.

Lemma skip_special e : bool_decide (d_name e ++ [0] ∈ COMMON_SKIP_DIRS) = bool_decide (special e).
Proof.
  apply bool_decide_ext. unfold COMMON_SKIP_DIRS, special. rewrite !elem_of_cons, elem_of_nil.
  split; [|by intros [-> | ->]; auto]. intros [E|[E|[]]].
  - left. by apply (app_inj_tail _ [0x2E]) in E as [? _].
  - right. by apply (app_inj_tail _ [0x2E; 0x2E]) in E as [? _].
Qed.

(** One entry of the directory that the handle [h] reads. *)
Lemma remove_entry_run rec cs h i e w :
  cs <> [] -> Forall comp_ok cs -> zlen (join SEPARATOR cs) + 256 < isize_MAX -> is_Some (handles (view w) !! h) ->
  valid_tree (tree (view w)) -> none_below (view w) (map canon cs) -> zlen (d_name e) <= 255 ->
  (forall q, frames h (rec q) (fun _ => True)) -> info_of i e -> special e \/ entry_of (tree (view w)) (map canon cs) e ->
  (entry_of (tree (view w)) (map canon cs) e -> d_is_dir e = true -> removes rec (cs ++ [d_name e]) w) ->
  exists w', remove_entry rec (path_of cs) i w = Ret (Ok tt, w') /\ undisturbed pending h w w' /\
    view w' = mkVol (cut_entries (tree (view w)) (map canon cs) [e]) (handles (view w)).
Proof.
  intros Hne Hcs Hl Ho Hv Hn Hlen Hf [Hname Hdir] He Hrec. unfold remove_entry. rewrite Hname, fw_bind_lift, skip_special, Hdir. cbn [cut_entries foldl].
  destruct (decide (special e)) as [Hs|Hs].
  { rewrite bool_decide_true by done. exists w. split; [done|]. split; [reflexivity|]. by destruct (view w). }
  rewrite bool_decide_false by done. destruct He as [|He]; [done|]. pose proof He as (Hc & n & Hk & Hnd).
  destruct (entry_path cs (d_name e) Hne Hcs Hc) as [E1 E2]. rewrite E1, fw_bind_lift, E2, fw_bind_lift.
  assert (map canon (cs ++ [d_name e]) = entry_key (map canon cs) e) as Ek by apply map_app.
  destruct (d_is_dir e) eqn:Ed.
  - destruct (Hrec He eq_refl) as (w' & E & V). exists w'. split; [done|]. rewrite <- Ek. split; [|done]. by eapply Hf.
  - destruct n as [|c]; [by specialize (proj2 Hnd eq_refl)|].
    destruct (path_of_good (cs ++ [d_name e])) as [Hg Hkey].
    { by destruct cs. } { apply Forall_app. by split; [|constructor]. }
    { rewrite join_snoc. destruct cs; [done|]. rewrite zlen_app, zlen_cons. lia. }
    rewrite Ek in Hkey. destruct (remove_file_spec (path_of (cs ++ [d_name e])) (view w) c) with (w := w) as (r & w' & E & -> & V);
      rewrite ?Hkey; [done|done|by apply none_at_not_open, none_below_at|done|].
    exists w'. split; [done|]. split; [by eapply remove_file_frames|]. rewrite V, Hkey, (cut_file _ _ c) by done. done.
Qed.

(** What the loop over the entries of [k] keeps: the entries [l] are still to be read. *)
Record removal (h : Z) (k : fkey) (l : list dirent) (w : W) : Prop := {
  rm_reads : reads h k w;
  rm_pending : pending w h = l;
  rm_NoDup : NoDup (map (fun e => canon (d_name e)) l);
  rm_entries : Forall (fun e => dirent_ok e /\ (special e \/ entry_of (tree (view w)) k e)) l;
  rm_valid : valid_tree (tree (view w));
  rm_below : none_below (view w) k }.

Lemma removal_read h k e l w w' : removal h k (e :: l) w -> view w' = view w -> pending w' h = l -> removal h k l w'.
Proof.
  intros [Hr Hp Hn He Hv Hb] V P. rewrite <- V in *. apply NoDup_cons in Hn as [_ Hn]. apply Forall_cons in He as [_ He].
  split; try done. by eapply reads_view.
Qed.

(** Removing an entry leaves the others. *)
Lemma removal_step h k e l w w' :
  removal h k l w -> canon (d_name e) ∉ map (fun e => canon (d_name e)) l -> undisturbed pending h w w' ->
  view w' = mkVol (cut_entries (tree (view w)) k [e]) (handles (view w)) -> removal h k l w'.
Proof.
  intros [Hr Hp Hn He Hv Hb] Hnew U V. pose proof Hr as (Hh & [pos Hs] & Ht).
  assert (Forall (fun e => dirent_ok e /\ (special e \/ entry_of (tree (view w')) k e)) l) as He'.
  { rewrite V. cbn [tree cut_entries foldl]. destruct (decide (special e)); [done|]. rewrite Forall_forall in He |- *.
    intros e' Hin. destruct (He e' Hin) as [Hok [Hs'|He']]; [by auto|]. split; [done|]. right. apply entry_of_cut; [|done].
    intros E. apply Hnew. rewrite E. by apply (list_elem_of_fmap_2 (fun e => canon (d_name e))). }
  assert (pending w' h = l) as Hp'.
  { rewrite <- Hp. eapply undisturbed_pending; [done|done|rewrite Hp; by apply NoDup_fmap_1 in Hn|]. rewrite Hp.
    eapply Forall_impl; [exact He'|]. intros e' [_ [|(_ & n & En & _)]]; [by left|right; by rewrite En]. }
  split; [|done|done|done|..].
  - split; [done|]. rewrite V. split; [by exists pos|]. cbn [tree cut_entries foldl]. destruct (decide (special e)); [done|].
    rewrite lookup_cut, decide_False; [done|]. intros Hpre%prefix_length. unfold entry_key in Hpre. rewrite length_app in Hpre. cbn in Hpre. lia.
  - rewrite V. cbn [tree cut_entries foldl]. destruct (decide (special e)); [done|by apply valid_cut].
  - by rewrite V.
Qed.

Lemma cut_entries_subseteq t k l : cut_entries t k l ⊆ t.
Proof. apply map_subseteq_spec. intros k' n. rewrite lookup_cut_entries. by destruct (decide _). Qed.

Lemma remove_entries_run fuel rec cs h l w :
  cs <> [] -> Forall comp_ok cs -> zlen (join SEPARATOR cs) + 256 < isize_MAX -> (length l < fuel)%nat ->
  removal h (map canon cs) l w -> (forall q, frames h (rec q) (fun _ => True)) ->
  (forall e w1, e ∈ l -> tree (view w1) ⊆ tree (view w) -> valid_tree (tree (view w1)) ->
     none_below (view w1) (map canon cs) -> entry_of (tree (view w1)) (map canon cs) e -> d_is_dir e = true -> removes rec (cs ++ [d_name e]) w1) ->
  exists w', remove_entries fuel rec (path_of cs) h w = Ret (Ok tt, w') /\
    view w' = mkVol (cut_entries (tree (view w)) (map canon cs) l) (handles (view w)).
Proof.
  intros Hne Hcs Hz. revert l w. induction fuel as [|fuel IH]; intros l w Hf Hrm Hfr Hrec; [lia|]. cbn [remove_entries].
  pose proof (dir_iter_next_run _ _ _ (rm_reads _ _ _ _ Hrm)) as Hnext. rewrite (rm_pending _ _ _ _ Hrm) in Hnext.
  destruct l as [|e l].
  { destruct Hnext as (w' & E & V). exists w'. rewrite (fw_bind_Ret _ _ _ _ _ E). split; [done|]. rewrite V. by destruct (view w). }
  destruct (proj1 (Forall_cons _ _ _) (rm_entries _ _ _ _ Hrm)) as [[Hok He] _].
  destruct (Hnext Hok) as (i & w1 & E1 & V1 & P1 & Hi). rewrite (fw_bind_Ret _ _ _ _ _ E1).
  pose proof (removal_read _ _ _ _ _ _ Hrm V1 P1) as Hrm1.
  destruct (remove_entry_run rec cs h i e w1) as (w2 & E2 & U2 & V2); rewrite ?V1; try done.
  { destruct (rm_reads _ _ _ _ Hrm) as (_ & [pos ->] & _). done. } { by eapply rm_valid. } { by eapply rm_below. } { apply Hok. }
  { intros He' Hd. apply Hrec; rewrite ?V1; [by left|done|by eapply rm_valid|by eapply rm_below|done|done]. }
  destruct (heap_dealloc (info_mem i) (info_size_of_val (I := FileInfo) i) (info_alignment (InfoInternal := FileInfo)) w2) as [V3 P3].
  set (w3 := dealloc _ _ _ w2) in *.
  rewrite (fw_try_Ret _ _ w1 (Ok tt) w3) by (unfold with_box; by rewrite (fw_bind_Ret _ _ _ _ _ E2)).
  assert (undisturbed pending h w1 w3) as U3 by (etransitivity; [exact U2|]; by apply unchanged_undisturbed).
  assert (view w3 = mkVol (cut_entries (tree (view w1)) (map canon cs) [e]) (handles (view w1))) as V13 by by rewrite V3.
  destruct (IH l w3) as (w4 & E4 & V4); [cbn in Hf; lia| |done| |].
  - eapply removal_step; [exact Hrm1| |done|done]. by destruct (proj1 (NoDup_cons _ _) (rm_NoDup _ _ _ _ Hrm)).
  - intros e' w' Hin Hsub. apply Hrec; [by right|]. etransitivity; [exact Hsub|]. rewrite V13, V1. apply cut_entries_subseteq.
  - exists w4. split; [done|]. rewrite V4, V13, V1. done.
Qed.

(** Nothing is more than [d] directories below [k]. *)
Definition depth_within (t : gmap fkey node) (k : fkey) (d : nat) : Prop :=
  map_Forall (fun k' _ => k `prefix_of` k' -> (length k' <= length k + d)%nat) t.

Lemma depth_child t t' k c d n :
  depth_within t k d -> t' ⊆ t -> t' !! (k ++ [c]) = Some n -> exists d', d = S d' /\ depth_within t' (k ++ [c]) d'.
Proof.
  intros Hd Hs Hc. assert (length (k ++ [c]) <= length k + d)%nat as Hl.
  { eapply Hd; [|by apply prefix_app_r]. eapply lookup_weaken; [exact Hc|done]. }
  rewrite length_app in Hl. cbn in Hl. destruct d as [|d]; [lia|]. exists d. split; [done|]. intros k' n' Hk Hp.
  rewrite length_app. cbn. assert (length k' <= length k + S d)%nat; [|lia].
  eapply Hd; [by eapply lookup_weaken|]. etransitivity; [|exact Hp]. by apply prefix_app_r.
Qed.

Lemma removal_start t k h w v :
  lists t k (pending w h) -> h <> 0 -> view w = add_handle v h k 0 -> tree v = t -> t !! k = Some DirNode -> valid_tree t ->
  none_at v k -> removal h k (pending w h) w.
Proof.
  intros (Hn & _ & Hl & _) Hh V <- Ht Hv Ha. split; rewrite ?V; try done.
  - split; [done|]. rewrite V, lookup_add_handle. by split; [exists 0|].
  - intros h' s Hs Hp. unfold add_handle in Hs. cbn in Hs. apply lookup_insert_Some in Hs as [[_ <-]|[_ Hs]]; [done|]. by destruct (Ha h' s Hs).
Qed.

Lemma remove_dir_all_run d : forall fuel cs w,
  cs <> [] -> Forall comp_ok cs -> zlen (join SEPARATOR cs) + 256 * Z.of_nat (S d) < isize_MAX ->
  valid_tree (tree (view w)) -> tree (view w) !! map canon cs = Some DirNode -> none_at (view w) (map canon cs) ->
  depth_within (tree (view w)) (map canon cs) d -> (d + size (tree (view w)) + 2 < fuel)%nat -> removes (remove_dir_all fuel) cs w.
Proof.
  induction d as [d IH] using lt_wf_ind. intros fuel cs w Hne Hcs Hz Hv Ht Ha Hd Hf. destruct fuel as [|fuel]; [lia|].
  destruct (path_of_good cs) as [Hg Ek]; [done|done|lia|]. set (k := map canon cs) in *. set (v := view w) in *.
  destruct (read_dir_run (path_of cs) w) as (h & w1 & E1 & Hh & Hfr & V1 & Hl); rewrite ?Ek; [done..|]. rewrite Ek in V1, Hl. fold v in Hfr, V1, Hl.
  pose proof (removal_start _ _ _ _ _ Hl Hh V1 eq_refl Ht Hv Ha) as Hrm. pose proof Hl as (_ & Hsize & Hents & Hall).
  assert (tree (view w1) = tree v) as Tv by by rewrite V1.
  destruct (remove_entries_run (S fuel) (remove_dir_all fuel) cs h (pending w1 h) w1) as (w2 & E2 & V2);
    [done|done|lia|lia|done|intros q; apply remove_dir_all_frames| |].
  { intros e w' Hin Hsub Hv' Hb (Hc & n & Hn & Hdn) Hdir. rewrite (proj1 Hdn Hdir) in Hn. rewrite Tv in Hsub.
    destruct (depth_child _ _ _ _ _ _ Hd Hsub Hn) as (d' & -> & Hd'). rewrite Forall_forall in Hents.
    destruct (Hents e Hin) as [(_ & Hlen & _) _]. pose proof (map_subseteq_size _ _ Hsub).
    assert (map canon (cs ++ [d_name e]) = entry_key k e) as Ee by apply map_app.
    apply (IH d'); rewrite ?Ee; [lia|by destruct cs|apply Forall_app; by split; [|constructor]| |done|done|by apply none_below_at|done|lia].
    rewrite join_snoc. destruct cs; [done|]. rewrite zlen_app, zlen_cons. lia. }
  assert (view w2 = mkVol (cut_entries (tree v) k (pending w1 h)) (<[h:=mkH k 0]> (handles v))) as V2' by by rewrite V2, V1.
  destruct (file_drop_spec h (view w2) Hh) with (w := w2) as (u & w3 & E3 & V3); [rewrite V2'; cbn; by rewrite lookup_insert_eq|done|].
  assert (view w3 = mkVol (cut_entries (tree v) k (pending w1 h)) (handles v)) as V3'.
  { rewrite V3, V2'. unfold del_handle. cbn. by rewrite delete_insert_id. }
  destruct (cut_listing (tree v) k (pending w1 h) Hv Ht Hall) as (Hk & Hc & Hcut).
  destruct (remove_empty_dir_spec (path_of cs) (view w3)) with (w := w3) as (r & w4 & E4 & -> & V4); rewrite ?Ek, ?V3'; try done.
  { by apply none_at_not_open. }
  exists w4. split; [|rewrite V4, V3'; unfold del_node; cbn; by rewrite Ek, Hcut].
  cbn [remove_dir_all]. rewrite (fw_try_Ret _ _ _ _ _ E1). rewrite (fw_try_Ret _ _ w1 (Ok tt) w3); [done|].
  unfold with_handle. rewrite (fw_bind_Ret _ _ _ _ _ E2). by rewrite (fw_bind_Ret _ _ _ _ _ E3).
Qed.


End removing.
