(* ===== verification/FileSession.v ===== *)
(** * Sessions with the file system

    What a program does with a [FileSystem] is a sequence of operations.  Here an
    abstract file system is a transition system whose states are trees, one transition
    for each operation, those that are refused included; the operations of [FileSystem],
    one after the other on the same volume, are simulated by it.  The invariant of the
    states is that the tree is one: what is in a directory is in one. *)
From stdpp Require Import gmap.
From S2P Require Import Prelude Firmware Chars Strs OwnedStrs Path Status FileInfo File FileSystem Volume VolumeErrors Directories.

(** Operations on relative paths, given by their components. *)
Inductive op : Set :=
| Write (cs : fkey) (content : list Z)
| CreateDir (cs : fkey)
| CreateDirAll (cs : fkey)
| RemoveFile (cs : fkey)
| RemoveDir (cs : fkey)
| RemoveDirAll (cs : fkey)
| Copy (src dest : fkey)
| Rename (src dest : fkey).

(** Paths that are valid and not very long. *)
Definition path_ok (cs : fkey) : Prop :=
  cs <> [] /\ Forall comp_ok cs /\ Forall (fun c => zlen c <= 255) cs /\ zlen (join SEPARATOR cs) < 2 ^ 32.

Definition op_ok (o : op) : Prop :=
  match o with
  | Write cs _ | CreateDir cs | CreateDirAll cs | RemoveFile cs | RemoveDir cs | RemoveDirAll cs => path_ok cs
  | Copy src dest | Rename src dest => path_ok src /\ path_ok dest
  end.

#[export] Instance path_ok_dec cs : Decision (path_ok cs).
Proof. unfold path_ok. apply _. Defined.
#[export] Instance op_ok_dec o : Decision (op_ok o).
Proof. unfold op_ok. destruct o; apply _. Defined.

Section session.
Context `{Profile} {W : Type} `{!FileProtocol W} `{!Allocator W} `{!VolumeLaws W} `{!DirectoryLaws W}.

(** ** The concrete sessions *)

Definition run_op (fuel : nat) (o : op) : fw W (fs_result unit) :=
  match o with
  | Write cs content => write (path_of cs) content
  | CreateDir cs => create_dir (path_of cs)
  | CreateDirAll cs => create_dir_all (path_of cs)
  | RemoveFile cs => remove_file (path_of cs)
  | RemoveDir cs => remove_dir (path_of cs)
  | RemoveDirAll cs => remove_dir_all fuel (path_of cs)
  | Copy src dest => copy fuel (path_of src) (path_of dest)
  | Rename src dest => rename fuel (path_of src) (path_of dest)
  end.

(** Which of the operations succeeded; the session goes on after an error. *)
Fixpoint run_session (fuel : nat) (ops : list op) : fw W (list bool) :=
  match ops with
  | [] => mret []
  | o :: ops => r ← run_op fuel o; rs ← run_session fuel ops; mret (is_ok r :: rs)
  end.

(** ** The abstract file system *)

Abbreviation ftree := (gmap fkey node).
Abbreviation name_of := (map canon).

(** A file may be written at [k]. *)
Definition place (t : ftree) (k : fkey) : Prop := t !! k <> Some DirNode /\ t !! removelast k = Some DirNode.

Definition is_file (t : ftree) (k : fkey) : Prop := exists c, t !! k = Some (FileNode c).

(** The operation has nothing to work on. *)
Definition refused (t : ftree) (o : op) : Prop :=
  match o with
  | RemoveFile cs | Copy cs _ | Rename cs _ => ~ is_file t (name_of cs)
  | RemoveDir cs | RemoveDirAll cs => t !! name_of cs <> Some DirNode
  | Write _ _ | CreateDir _ | CreateDirAll _ => False
  end.

Definition add_dirs (t : ftree) (ks : list fkey) : ftree := foldl (fun t k => <[k := DirNode]> t) t ks.

Inductive step : ftree -> op -> bool -> ftree -> Prop :=
| step_write t cs c : place t (name_of cs) -> step t (Write cs c) true (<[name_of cs := FileNode c]> t)
| step_create_dir t cs :
    t !! name_of cs = None -> t !! removelast (name_of cs) = Some DirNode ->
    step t (CreateDir cs) true (<[name_of cs := DirNode]> t)
| step_create_dir_all t cs :
    Forall (fun q => ~ is_file t (name_of q)) (exts [] cs) ->
    step t (CreateDirAll cs) true (add_dirs t (map name_of (exts [] cs)))
| step_remove_file t cs : is_file t (name_of cs) -> step t (RemoveFile cs) true (delete (name_of cs) t)
| step_remove_dir t cs :
    t !! name_of cs = Some DirNode -> (forall c, t !! (name_of cs ++ [c]) = None) ->
    step t (RemoveDir cs) true (delete (name_of cs) t)
| step_remove_dir_all t cs : t !! name_of cs = Some DirNode -> step t (RemoveDirAll cs) true (cut t (name_of cs))
| step_copy t src dest c :
    t !! name_of src = Some (FileNode c) -> zlen c < 2 ^ 63 -> name_of src <> name_of dest -> place t (name_of dest) ->
    step t (Copy src dest) true (<[name_of dest := FileNode c]> t)
| step_rename t src dest c :
    t !! name_of src = Some (FileNode c) -> zlen c < 2 ^ 63 -> name_of src <> name_of dest -> place t (name_of dest) ->
    step t (Rename src dest) true (delete (name_of src) (<[name_of dest := FileNode c]> t))
| step_refused t o : refused t o -> step t o false t.

Inductive session : ftree -> list op -> list bool -> ftree -> Prop :=
| session_nil t : session t [] [] t
| session_cons t o r t1 ops rs t2 : step t o r t1 -> session t1 ops rs t2 -> session t (o :: ops) (r :: rs) t2.

(** ** The invariant *)

(** The root is there, everything is in a directory, and no path is very long. *)
Definition tree_ok (t : ftree) : Prop :=
  t !! [] = Some DirNode /\ valid_tree t /\ map_Forall (fun k _ => Z.of_nat (length k) < 2 ^ 32) t.

Lemma name_of_ne cs : cs <> [] -> name_of cs <> [].
Proof. by destruct cs. Qed.

Lemma path_short cs : path_ok cs -> Z.of_nat (length (name_of cs)) < 2 ^ 32.
Proof.
  intros (Hne & Hc & _ & Hl). rewrite length_map. pose proof (length_comps cs Hc) as Hlen.
  unfold path_of, zlen in *. rewrite length_app in Hlen. cbn in Hlen.
  assert (length cs <= length (join SEPARATOR cs))%nat; [|lia]. clear -Hc. induction cs as [|c cs IH]; [done|].
  apply Forall_cons in Hc as [([Hne _] & _) Hc]. specialize (IH Hc). destruct c as [|x c]; [done|].
  destruct cs as [|d cs]; [cbn; lia|]. change (join SEPARATOR ((x :: c) :: d :: cs)) with ((x :: c) ++ SEPARATOR :: join SEPARATOR (d :: cs)).
  rewrite length_app. cbn [length] in *. lia.
Qed.

(** A new node in a directory. *)
Lemma insert_tree_ok t cs n :
  tree_ok t -> path_ok cs -> t !! removelast (name_of cs) = Some DirNode ->
  (t !! name_of cs = Some DirNode -> n = DirNode) -> tree_ok (<[name_of cs := n]> t).
Proof.
  intros (Hr & Hv & Hs) Hp Hd Hn. pose proof (path_short cs Hp). destruct Hp as (Hne & Hc & Hl & _). split; [|split].
  - by rewrite lookup_insert_ne by by apply name_of_ne.
  - intros k c [m Hm]. apply lookup_insert_Some in Hm as [[Ek <-]|[Hkne Hm]].
    + assert (cs <> []) as Hcs by done. destruct (exists_last Hcs) as (cs' & c' & ->). rewrite map_app in Ek, Hd. cbn [map] in Ek, Hd.
      apply app_inj_tail in Ek as [<- <-]. rewrite removelast_last in Hd. split.
      * rewrite lookup_insert_ne; [done|]. rewrite map_app. intros E. apply (f_equal length) in E. rewrite length_app in E. cbn in E. lia.
      * exists c'. apply Forall_app in Hc as [_ [Hc _]%Forall_cons], Hl as [_ [Hl _]%Forall_cons]. done.
    + destruct (Hv k c) as [Hk Hname]; [by rewrite Hm|]. split; [|done]. destruct (decide (name_of cs = k)) as [E|].
      * rewrite E, lookup_insert_eq. f_equal. apply Hn. by rewrite E.
      * by rewrite lookup_insert_ne.
  - by apply map_Forall_insert_2.
Qed.

(** Taking out a node with nothing below it. *)
Lemma delete_tree_ok t k : tree_ok t -> k <> [] -> (forall c, t !! (k ++ [c]) = None) -> tree_ok (delete k t).
Proof.
  intros (Hr & Hv & Hs) Hk Hc. split; [by rewrite lookup_delete_ne|]. split; [|by apply map_Forall_delete].
  intros k' c [m Hm]. apply lookup_delete_Some in Hm as [Hne Hm]. destruct (Hv k' c) as [Hd Hname]; [by rewrite Hm|].
  split; [|done]. rewrite lookup_delete_ne; [done|]. intros <-. by rewrite Hc in Hm.
Qed.

Lemma file_childless t k c : valid_tree t -> t !! k = Some (FileNode c) -> forall x, t !! (k ++ [x]) = None.
Proof. intros Hv Hk x. destruct (t !! (k ++ [x])) as [n|] eqn:E; [|done]. destruct (Hv k x) as [Hd _]; [by rewrite E|congruence]. Qed.

Lemma cut_tree_ok t k : tree_ok t -> k <> [] -> tree_ok (cut t k).
Proof.
  intros (Hr & Hv & Hs) Hk. split; [|split].
  - rewrite lookup_cut, decide_False; [done|]. intros Hp%prefix_nil_inv. done.
  - by apply valid_cut.
  - intros k' n Hk'. eapply Hs, lookup_weaken; [exact Hk'|apply cut_subseteq].
Qed.

Lemma path_ok_prefix cs c : cs <> [] -> path_ok (cs ++ [c]) -> path_ok cs.
Proof.
  intros Hne (_ & Hc & Hl & Hz). apply Forall_app in Hc as [Hc _], Hl as [Hl _]. do 3 (split; [done|]).
  pose proof (join_snoc_len cs c). unfold zlen in *. lia.
Qed.

Lemma add_dirs_tree_ok cs : forall t, tree_ok t -> path_ok cs -> Forall (fun q => ~ is_file t (name_of q)) (exts [] cs) ->
  tree_ok (add_dirs t (map name_of (exts [] cs))) /\ add_dirs t (map name_of (exts [] cs)) !! name_of cs = Some DirNode /\
  (forall k c, add_dirs t (map name_of (exts [] cs)) !! k = Some (FileNode c) -> t !! k = Some (FileNode c)).
Proof.
  induction cs as [|c cs IH] using rev_ind; intros t Ht Hp Hf; [by destruct Hp|].
  rewrite exts_snoc in Hf |- *. apply Forall_app in Hf as [Hf [Hc _]%Forall_cons]. cbn [app] in Hc.
  rewrite map_app. cbn [map]. unfold add_dirs. rewrite foldl_app. cbn [foldl]. fold (add_dirs t (map name_of (exts [] cs))).
  set (t1 := add_dirs t (map name_of (exts [] cs))).
  assert (tree_ok t1 /\ t1 !! name_of cs = Some DirNode /\ (forall k x, t1 !! k = Some (FileNode x) -> t !! k = Some (FileNode x))) as (Ht1 & Hd & Hold).
  { destruct cs as [|d cs]; [split; [done|]; split; [apply Ht|done]|]. apply IH; [done|by eapply path_ok_prefix|done]. }
  cbn [app]. split; [|split].
  - apply insert_tree_ok; [done|done| |done]. rewrite map_app. cbn [map]. by rewrite removelast_last.
  - apply lookup_insert_eq.
  - intros k x [[_ [=]]|[_ Hk]]%lookup_insert_Some. by apply Hold.
Qed.

(** Every transition keeps the invariant. *)
Lemma step_tree_ok t o r t' : tree_ok t -> op_ok o -> step t o r t' -> tree_ok t'.
Proof.
  intros Ht Ho Hs. pose proof Ht as (_ & Hv & _).
  destruct Hs as [t cs c [Hn Hd]|t cs Hn Hd|t cs Hf|t cs [c Hc]|t cs Hd Hc|t cs Hd|t src dest c Hc Hz Hne [Hn Hd]|t src dest c Hc Hz Hne [Hn Hd]|t o Hr];
    cbn [op_ok] in Ho.
  - by apply insert_tree_ok.
  - by apply insert_tree_ok.
  - by apply add_dirs_tree_ok.
  - apply delete_tree_ok; [done|apply name_of_ne; by destruct Ho|by eapply file_childless].
  - apply delete_tree_ok; [done|apply name_of_ne; by destruct Ho|done].
  - apply cut_tree_ok; [done|apply name_of_ne; by destruct Ho].
  - destruct Ho. by apply insert_tree_ok.
  - destruct Ho as [Hs Hp]. apply delete_tree_ok; [by apply insert_tree_ok|apply name_of_ne; by destruct Hs|].
    assert (tree_ok (<[name_of dest := FileNode c]> t)) as (_ & Hv' & _) by by apply insert_tree_ok.
    apply (file_childless _ _ c Hv'). by rewrite lookup_insert_ne.
  - done.
Qed.

(** ** The simulation *)

(** The volume between two operations. *)
Definition at_rest (t : ftree) : vol := mkVol t ∅.

(** With enough fuel, from the tree [t] and no handle open, a computation gives [x] and the
    tree [t'], with no handle open. *)
Definition reaches {A} (m : nat -> fw W A) (t : ftree) (Q : A -> Prop) (t' : ftree) : Prop :=
  exists n, forall fuel, (n <= fuel)%nat -> spec (m fuel) (at_rest t) (fun a v => Q a /\ v = at_rest t').

Lemma reaches_now {A} (m : nat -> fw W A) t (Q : A -> Prop) t' :
  (forall fuel, spec (m fuel) (at_rest t) (fun a v => Q a /\ v = at_rest t')) -> reaches m t Q t'.
Proof. intros Hm. exists 0%nat. auto. Qed.

Lemma path_good cs : path_ok cs -> good_path (path_of cs) /\ key (path_of cs) = name_of cs.
Proof. intros (Hne & Hc & _ & Hz). apply path_of_good; [done|done|]. unfold isize_MAX. lia. Qed.

Lemma rest_not_open t k : not_open (at_rest t) k.
Proof. apply map_Forall_empty. Qed.

(** The longest path of a tree. *)
Definition depth (t : ftree) : nat := map_fold (fun k _ d => (length k `max` d)%nat) 0%nat t.

Lemma depth_ge t k n : t !! k = Some n -> (length k <= depth t)%nat.
Proof.
  unfold depth. revert k n. apply (map_fold_weak_ind (fun d t => forall k n, t !! k = Some n -> (length k <= d)%nat)).
  - intros k n. by rewrite lookup_empty.
  - intros k' n' t' d _ IH k n [[<- _]|[_ Hk]]%lookup_insert_Some; [lia|]. specialize (IH k n Hk). lia.
Qed.

Lemma depth_bound t : tree_ok t -> Z.of_nat (depth t) < 2 ^ 32.
Proof.
  intros (_ & _ & Hs). unfold depth. revert Hs.
  apply (map_fold_weak_ind (fun d t => map_Forall (fun k _ => Z.of_nat (length k) < 2 ^ 32) t -> Z.of_nat d < 2 ^ 32)); [done|].
  intros k n t' d Hk IH Hs. apply map_Forall_insert in Hs as [Hl Hs]; [|done]. specialize (IH Hs). lia.
Qed.

Lemma mkdirs_add_dirs ks t : mkdirs (at_rest t) ks = at_rest (add_dirs t ks).
Proof. unfold mkdirs, add_dirs. revert t. induction ks as [|k ks IH]; intros t; [done|]. cbn [foldl]. apply (IH (<[k := DirNode]> t)). Qed.

Lemma place_replaceable t cs : place t (name_of cs) -> replaceable (at_rest t) (name_of cs).
Proof. intros [Hn Hd]. split; [done|]. split; [apply rest_not_open|done]. Qed.

(** Successful operations. *)
Lemma step_done t o t' : tree_ok t -> op_ok o -> step t o true t' -> reaches (fun fuel => run_op fuel o) t (fun r => r = Ok tt) t'.
Proof.
  intros Ht Ho Hs. inversion Hs as [? cs c Hp|? cs Hn Hd|? cs Hf|? cs [c Hc]|? cs Hd Hc|? cs Hd|? src dest c Hc Hz Hne Hp|? src dest c Hc Hz Hne Hp|];
    subst; cbn [op_ok run_op] in *; try (destruct (path_good cs Ho) as [Hg Ek]).
  - apply reaches_now. intros _. rewrite <- Ek. apply write_spec; [done|]. rewrite Ek. by apply place_replaceable.
  - apply reaches_now. intros _. rewrite <- Ek. apply create_dir_spec; rewrite ?Ek; done.
  - apply reaches_now. intros _. rewrite <- mkdirs_add_dirs. destruct Ho as (Hne & Hc & _ & Hz).
    apply create_dir_all_spec; [done|done|unfold isize_MAX; lia|apply Ht|]. eapply Forall_impl; [exact Hf|]. intros q Hq c E. apply Hq. by exists c.
  - apply reaches_now. intros _. rewrite <- Ek. eapply remove_file_spec; rewrite ?Ek; [done|exact Hc|apply rest_not_open].
  - apply reaches_now. intros _. rewrite <- Ek. apply remove_empty_dir_spec; rewrite ?Ek; [done|done|done|apply rest_not_open].
  - exists (depth t + size t + 3)%nat. intros fuel Hfuel w Hw. destruct Ho as (Hne & Hc & _ & Hz). pose proof (depth_bound t Ht).
    destruct (remove_dir_all_run (depth t) fuel cs w) as (w' & E & V); rewrite ?Hw; cbn [tree handles at_rest].
    + done.
    + done.
    + unfold isize_MAX. lia.
    + apply Ht.
    + done.
    + apply map_Forall_empty.
    + intros k n Hk _. pose proof (depth_ge t k n Hk). lia.
    + lia.
    + exists (Ok tt), w'. split; [done|]. split; [done|]. by rewrite V, Hw.
  - destruct Ho as [Hs1 Hs2], (path_good src) as [Hg1 E1], (path_good dest) as [Hg2 E2]; [done..|].
    exists (S (length c)). intros fuel Hfuel. rewrite <- E2. apply copy_spec; rewrite ?E1, ?E2; try done. by apply place_replaceable.
  - destruct Ho as [Hs1 Hs2], (path_good src) as [Hg1 E1], (path_good dest) as [Hg2 E2]; [done..|].
    exists (S (length c)). intros fuel Hfuel. rewrite <- E1, <- E2. apply rename_spec; rewrite ?E1, ?E2; try done; by apply place_replaceable.
Qed.

(** Refused operations: an error, and the volume as it was. *)
Lemma fault_exists cs ctx status : path_ok cs -> exists e, fault_at (path_of cs) ctx status e.
Proof.
  intros Hp. destruct (path_good cs Hp) as [Hg _]. destruct (to_path_buf_ok (path_of cs) (proj1 Hg)) as [q Eq].
  eexists. by exists q.
Qed.

Lemma absent_fails cs dest t fuel : path_ok cs -> t !! name_of cs = None ->
  exists e, file_operations_fail fuel (path_of cs) dest (at_rest t) e /\ dir_operations_fail fuel (path_of cs) (at_rest t) e.
Proof.
  intros Hp Hn. destruct (path_good cs Hp) as [Hg Ek], (fault_exists cs OpenError Status.NOT_FOUND Hp) as [e Hf]. exists e.
  destruct (open_failure fuel (path_of cs) dest (at_rest t) e) as (? & ? & _); [|done].
  intros mode Hm. apply open_absent; [done|by rewrite Ek|done|done].
Qed.

Lemma not_file_fails cs dest t fuel : path_ok cs -> ~ is_file t (name_of cs) ->
  exists e, file_operations_fail fuel (path_of cs) dest (at_rest t) e.
Proof.
  intros Hp Hn. destruct (path_good cs Hp) as [Hg Ek], (fault_exists cs NotAFile Status.INVALID_PARAMETER Hp) as [e Hf].
  destruct (t !! name_of cs) as [[|c]|] eqn:Ht.
  - exists e. apply file_operations_fail_intro; [apply open_regular_dir|apply remove_file_dir]; rewrite ?Ek; done.
  - destruct Hn. by exists c.
  - destruct (absent_fails cs dest t fuel) as (e' & ? & _); eauto.
Qed.

Lemma not_dir_fails cs t fuel : path_ok cs -> t !! name_of cs <> Some DirNode ->
  exists e, dir_operations_fail fuel (path_of cs) (at_rest t) e.
Proof.
  intros Hp Hn. destruct (path_good cs Hp) as [Hg Ek], (fault_exists cs NotADirectory Status.INVALID_PARAMETER Hp) as [e Hf].
  destruct (t !! name_of cs) as [[|c]|] eqn:Ht; [done| |].
  - exists e. apply dir_operations_fail_intro; [eapply read_dir_file|eapply remove_dir_file]; rewrite ?Ek; done.
  - destruct (absent_fails cs [] t fuel) as (e' & _ & ?); eauto.
Qed.

Lemma reaches_refused {A} (m : nat -> fw W (fs_result A)) t :
  (forall fuel, exists e, fails (m (S fuel)) (at_rest t) e) -> reaches m t (fun r => is_ok r = false) t.
Proof.
  intros Hm. exists 1%nat. intros [|fuel] Hf; [lia|]. destruct (Hm fuel) as [e He].
  eapply spec_conseq; [exact He|]. by intros r v [-> ->].
Qed.

Lemma step_not_done t o : op_ok o -> refused t o -> reaches (fun fuel => run_op fuel o) t (fun r => is_ok r = false) t.
Proof.
  intros Ho Hr. apply reaches_refused. intros fuel. destruct o as [| | |cs|cs|cs|src dest|src dest]; cbn [op_ok refused run_op] in *; try done.
  - destruct (not_file_fails cs [] t (S fuel)) as (e & Hf); [done|done|]. exists e. apply Hf.
  - destruct (not_dir_fails cs t fuel) as (e & Hf); [done|done|]. exists e. apply Hf.
  - destruct (not_dir_fails cs t fuel) as (e & Hf); [done|done|]. exists e. apply Hf.
  - destruct (not_file_fails src (path_of dest) t (S fuel)) as (e & Hf); [by destruct Ho|done|]. exists e. apply Hf.
  - destruct (not_file_fails src (path_of dest) t (S fuel)) as (e & Hf); [by destruct Ho|done|]. exists e. apply Hf.
Qed.

Lemma step_simulated t o r t' :
  tree_ok t -> op_ok o -> step t o r t' -> reaches (fun fuel => run_op fuel o) t (fun x => is_ok x = r) t'.
Proof.
  intros Ht Ho Hs. destruct r.
  - destruct (step_done t o t' Ht Ho Hs) as [n Hn]. exists n. intros fuel Hf.
    eapply spec_conseq; [by apply Hn|]. by intros r v [-> ->].
  - inversion Hs; subst. by apply step_not_done.
Qed.

Lemma reaches_bind {A B} (m : nat -> fw W A) (k : nat -> A -> fw W B) t P t1 Q t2 :
  reaches m t P t1 -> (exists n, forall fuel a, (n <= fuel)%nat -> P a -> spec (k fuel a) (at_rest t1) (fun b v => Q b /\ v = at_rest t2)) ->
  reaches (fun fuel => m fuel ≫= k fuel) t Q t2.
Proof.
  intros [n Hm] [n' Hk]. exists (n `max` n')%nat. intros fuel Hf. eapply spec_bind; [apply Hm; lia|].
  intros a v [Ha ->]. apply Hk; [lia|done].
Qed.

End session.
