(* ===== verification/MemVolume.v ===== *)
(** * An in-memory volume

    A concrete firmware: a volume kept in memory and a bump allocator.  It meets
    [VolumeLaws], [DirectoryLaws] and [ResourceLaws], so what is proved from them is
    not vacuous, and the witnesses of the file-system theorems run on it. *)
From stdpp Require Import gmap.
From S2P Require Import Prelude Firmware Chars Strs OwnedStrs Path Status FileInfo File FileSystem Volume VolumeErrors Directories FileSession.

(** The volume, the number of open handles, the next free heap address, the number of
    live heap blocks, and what is still to be read of the directories. *)
Record mem : Set := mkMem { m_vol : vol; m_open : Z; m_next : Z; m_blocks : Z; m_dirs : gmap Z (list dirent) }.

(** The entry of a node of the given name, and the listing of a directory. *)
Definition mem_dirent (name : list Z) (n : node) : dirent :=
  let dir := bool_decide (n = DirNode) in
  mkDirent name dir (le_bytes 8 (80 + 2 * (zlen name + 1)) ++ replicate 64 0 ++
    le_bytes 8 (if dir then FileAttribute.DIRECTORY else 0) ++ cstr16_as_bytes (name ++ [0])).

Definition child (k : fkey) (kn : fkey * node) : option dirent :=
  match last kn.1 with
  | Some c => if decide (kn.1 = k ++ [c]) then Some (mem_dirent c kn.2) else None
  | None => None
  end.

Definition mem_listing (t : gmap fkey node) (k : fkey) : list dirent := base.omap (child k) (map_to_list t).

Definition new_handle (v : vol) : Z := fresh ({[0]} ∪ dom (handles v) : gset Z).

Lemma new_handle_fresh v : new_handle v <> 0 /\ handles v !! new_handle v = None.
Proof.
  pose proof (is_fresh ({[0]} ∪ dom (handles v) : gset Z)) as Hf. fold (new_handle v) in Hf.
  apply not_elem_of_union in Hf as [H0 Hd]. split.
  - intros E. apply H0. rewrite E. set_solver.
  - by apply not_elem_of_dom.
Qed.

Definition mem_opened (w : mem) (v : vol) (k : fkey) : (Z * Z) * mem :=
  ((Status.SUCCESS, new_handle (m_vol w)),
   mkMem (add_handle v (new_handle (m_vol w)) k 0) (m_open w + 1) (m_next w) (m_blocks w)
     (<[new_handle (m_vol w) := mem_listing (tree v) k]> (m_dirs w))).

Definition with_vol (w : mem) (v : vol) : mem := mkMem v (m_open w) (m_next w) (m_blocks w) (m_dirs w).

Definition closed (w : mem) (v : vol) : mem := mkMem v (m_open w - 1) (m_next w) (m_blocks w) (m_dirs w).

(** The file behind a handle, with its content. *)
Definition file_of (v : vol) (h : Z) : option (hstate * list Z) :=
  match handles v !! h with
  | Some s => match tree v !! h_key s with Some (FileNode c) => Some (s, c) | _ => None end
  | None => None
  end.

(** The info of a file, with an empty name. *)
Definition mem_info (v : vol) (h : Z) : list Z :=
  match file_of v h with
  | Some (_, c) => le_bytes 8 82 ++ le_bytes 8 (zlen c) ++ replicate 64 0 ++ [0; 0]
  | None => []
  end.

Definition mem_pending (w : mem) (h : Z) : list dirent := default [] (m_dirs w !! h).

#[export] Instance mem_protocol : FileProtocol mem := {|
  efi_open_volume w := mem_opened w (m_vol w) [];
  efi_open h0 p mode attr w :=
    let k := path_components (body p) in
    match tree (m_vol w) !! k with
    | Some _ => mem_opened w (m_vol w) k
    | None =>
        if creates mode && bool_decide (parent_is_dir (m_vol w) k)
        then mem_opened w (set_node (m_vol w) k
               (if FileAttribute.contains attr FileAttribute.DIRECTORY then DirNode else FileNode [])) k
        else ((Status.NOT_FOUND, 0), w)
    end;
  efi_close h w := (Status.SUCCESS, closed w (del_handle (m_vol w) h));
  efi_delete h w :=
    match handles (m_vol w) !! h with
    | Some s => (Status.SUCCESS, closed w (del_node (del_handle (m_vol w) h) (h_key s)))
    | None => (Status.WARN_DELETE_FAILURE, closed w (m_vol w))
    end;
  efi_read h n w :=
    match file_of (m_vol w) h with
    | Some (s, c) =>
        let r := range c (h_pos s) n in
        ((Status.SUCCESS, zlen r, r), with_vol w (add_handle (m_vol w) h (h_key s) (h_pos s + zlen r)))
    | None =>
        match mem_pending w h with
        | [] => ((Status.SUCCESS, 0, []), w)
        | e :: l =>
            if n <? zlen (d_enc e) then ((Status.BUFFER_TOO_SMALL, zlen (d_enc e), []), w)
            else ((Status.SUCCESS, zlen (d_enc e), d_enc e),
                  mkMem (m_vol w) (m_open w) (m_next w) (m_blocks w) (<[h := l]> (m_dirs w)))
        end
    end;
  efi_write h d w :=
    match file_of (m_vol w) h with
    | Some (s, c) =>
        ((Status.SUCCESS, zlen d), with_vol w (add_handle (set_node (m_vol w) (h_key s)
          (FileNode (take (Z.to_nat (h_pos s)) c ++ d ++ drop (Z.to_nat (h_pos s) + length d) c)))
          h (h_key s) (h_pos s + zlen d)))
    | None => ((Status.UNSUPPORTED, 0), w)
    end;
  efi_get_position h w :=
    match file_of (m_vol w) h with
    | Some (s, _) => ((Status.SUCCESS, h_pos s), w)
    | None => ((Status.UNSUPPORTED, 0), w)
    end;
  efi_set_position _ _ w := (Status.UNSUPPORTED, w);
  efi_get_info h g n w :=
    let enc := mem_info (m_vol w) h in
    (if n <? zlen enc then (Status.BUFFER_TOO_SMALL, zlen enc, [])
     else (Status.SUCCESS, zlen enc, enc), w);
  efi_set_info _ _ _ w := (Status.UNSUPPORTED, w);
  efi_flush _ w := (Status.SUCCESS, w);
|}.

#[export] Instance mem_allocator : Allocator mem := {|
  alloc size al w :=
    let a := (m_next w + al - 1) / al * al in
    (Some (mkBuffer a (replicate (Z.to_nat size) 0)), mkMem (m_vol w) (m_open w) (a + size) (m_blocks w + 1) (m_dirs w));
  dealloc _ _ _ w := mkMem (m_vol w) (m_open w) (m_next w) (m_blocks w - 1) (m_dirs w);
|}.

Lemma mem_opened_spec w v k : exists h w', mem_opened w v k = ((Status.SUCCESS, h), w') /\ h <> 0 /\
  handles (m_vol w) !! h = None /\ m_vol w' = add_handle v h k 0.
Proof. destruct (new_handle_fresh (m_vol w)). do 2 eexists. split; [reflexivity|]. done. Qed.

Lemma file_of_Some v h k pos c :
  handles v !! h = Some (mkH k pos) -> tree v !! k = Some (FileNode c) -> file_of v h = Some (mkH k pos, c).
Proof. unfold file_of. intros -> . simpl. by intros ->. Qed.

Lemma mem_info_encodes v h k pos c :
  handles v !! h = Some (mkH k pos) -> tree v !! k = Some (FileNode c) -> zlen c < 2 ^ 63 ->
  info_encodes (mem_info v h) (zlen c).
Proof.
  intros Hv Ht Hc. unfold mem_info. rewrite (file_of_Some v h k pos c) by done.
  exists [0]. split; [by exists []|]. split; [by vm_compute|].
  pose proof (length_le_bytes 8 (zlen c)) as Hl. pose proof (zlen_nonneg c).
  pose proof (le_val_bytes 8 (zlen c) ltac:(simpl; lia)) as Hv8. revert Hl Hv8.
  generalize (le_bytes 8 (zlen c)) as b. intros b Hl Hb. rewrite <- Hb.
  do 8 (destruct b as [|? b]; [done|]). destruct b; [|done]. done.
Qed.

#[export, refine] Instance mem_volume : VolumeLaws mem := {|
  view := m_vol; canon := fun c => c; info_enc := mem_info |}.
Proof.
  - intros w. apply mem_opened_spec.
  - intros w h0 p mode attr n _ _ Ht _. rewrite map_id in *. simpl. rewrite Ht. apply mem_opened_spec.
  - intros w h0 p mode attr _ _ Ht Hm. rewrite map_id in *. simpl. rewrite Ht, Hm. simpl. eauto.
  - intros w h0 p mode attr _ _ Ht Hm Hp. rewrite map_id in *. simpl. rewrite Ht, Hm.
    rewrite bool_decide_true by done. apply mem_opened_spec.
  - intros w h _. simpl. eauto.
  - intros w h k pos c Hv Ht _. simpl. rewrite Hv. simpl. eauto.
  - intros w h k pos n Hv Ht. simpl. destruct n as [|c].
    + unfold file_of. rewrite Hv. simpl. rewrite Ht. eauto.
    + rewrite (file_of_Some _ _ _ _ _ Hv Ht). eauto.
  - intros w h k pos c n Hv Ht _ _. simpl. rewrite (file_of_Some _ _ _ _ _ Hv Ht). simpl. eauto.
  - intros w h k pos c d Hv Ht _. simpl. rewrite (file_of_Some _ _ _ _ _ Hv Ht). simpl. eauto.
  - intros w h k pos c n Hv Ht Hc. split; [by eapply mem_info_encodes|]. simpl. eauto.
  - intros w h _. simpl. eauto.
  - intros w size al Hs Hal. simpl. do 2 eexists. split; [reflexivity|]. simpl.
    unfold zlen. rewrite length_replicate. split; [lia|]. split; [apply Z_mod_mult|done].
  - done.
Defined.

(** Every handle and every block counts one. *)
#[export, refine] Instance mem_resources : ResourceLaws mem := {|
  live w := m_open w + m_blocks w; handle_cost := 1; block_cost := 1 |}.
Proof.
  all: intros; simpl in *; unfold mem_opened in *; repeat case_match; simplify_eq/=; discriminate || lia.
Defined.

(** ** Directories *)

Lemma cstr16_as_bytes_len s : zlen (cstr16_as_bytes s) = 2 * zlen s.
Proof. unfold cstr16_as_bytes. induction s as [|c s IH]; [done|]. cbn [map concat]. rewrite zlen_app, zlen_cons, IH. unfold zlen. rewrite length_le_bytes. lia. Qed.

Lemma mem_dirent_ok name n : Forall body_char name -> zlen name <= 255 -> dirent_ok (mem_dirent name n).
Proof.
  intros Hb Hl. pose proof (cstr16_as_bytes_len (name ++ [0])) as Hn. rewrite (zlen_app name) in Hn. change (zlen [0]) with 1 in Hn.
  unfold mem_dirent. set (pre := le_bytes 8 (80 + _)). assert (zlen pre = 8) as Hp by (unfold zlen, pre; by rewrite length_le_bytes).
  set (dir := bool_decide (n = DirNode)). set (attr := le_bytes 8 _).
  assert (zlen attr = 8 /\ le_val attr = if dir then FileAttribute.DIRECTORY else 0) as [Ha Hv] by (unfold attr; by destruct dir).
  split; [done|]. split; [done|]. cbn [d_name d_enc d_is_dir]. rewrite !zlen_app. change (zlen (replicate 64 0)) with 64. split; [lia|].
  rewrite !(range_skip pre) by lia. rewrite !(range_skip (replicate 64 0)) by (change (zlen (replicate 64 0)) with 64; lia).
  change (zlen (replicate 64 0)) with 64. split.
  - rewrite range_skip by lia. rewrite Hp, Ha, <- Hn. change (80 - 8 - 64 - 8) with 0. rewrite <- (app_nil_r (cstr16_as_bytes (name ++ [0]))) at 1. by apply range_front.
  - rewrite Hp. rewrite range_front by done. rewrite Hv. by destruct dir.
Qed.

Lemma child_Some k kn e : child k kn = Some e <-> kn.1 = k ++ [d_name e] /\ e = mem_dirent (d_name e) kn.2.
Proof.
  unfold child. destruct kn as [k' n]. cbn [fst snd]. split.
  - destruct (last k') as [c|]; [|done]. destruct (decide _) as [E|]; [|done]. intros [= <-]. done.
  - intros [-> ->]. rewrite last_snoc. by rewrite decide_True.
Qed.

Lemma children_NoDup k (l : list (fkey * node)) : NoDup l.*1 -> NoDup (map d_name (base.omap (child k) l)) /\ (length (base.omap (child k) l) <= length l)%nat.
Proof.
  induction l as [|kn l IH]; intros Hn; [by split; [constructor|]|]. apply NoDup_cons in Hn as [Hx Hn]. destruct (IH Hn) as [IHn IHl].
  cbn [base.omap list_omap]. destruct (child k kn) as [e|] eqn:E; [|split; [done|cbn; lia]]. split; [|cbn in *; lia]. cbn [map].
  apply NoDup_cons. split; [|done]. intros (e' & Ee & He)%list_elem_of_fmap. apply list_elem_of_omap in He as (kn' & Hin & E').
  apply child_Some in E as [E _], E' as [E' _]. apply Hx. rewrite E, Ee, <- E'. by apply list_elem_of_fmap_2.
Qed.

Lemma mem_listing_lists t k : valid_tree t -> lists (W := mem) t k (mem_listing t k).
Proof.
  intros Hv. destruct (children_NoDup k (map_to_list t) (NoDup_fst_map_to_list t)) as [Hn Hl]. split; [done|].
  split; [unfold mem_listing; rewrite length_map_to_list in Hl; lia|]. split.
  - apply Forall_forall. intros e ([k' n] & Hin & [E1 E2]%child_Some)%list_elem_of_omap. cbn [fst snd] in E1, E2. apply elem_of_map_to_list in Hin.
    rewrite E1 in Hin. destruct (Hv k (d_name e)) as [_ (name & En & Hc & Hz)]; [by rewrite Hin|]. cbn in En. subst name. split.
    + rewrite E2. apply mem_dirent_ok; [|done]. by destruct Hc as (_ & _ & ? & _).
    + right. split; [done|]. exists n. split; [exact Hin|]. rewrite E2. cbn. by rewrite bool_decide_eq_true.
  - intros c [n Hc]. exists (mem_dirent c n). destruct (Hv k c) as [_ (name & En & Hok & _)]; [by rewrite Hc|]. cbn in En. subst name. split; [|split].
    + apply list_elem_of_omap. exists (k ++ [c], n). split; [by apply elem_of_map_to_list|]. by apply child_Some.
    + destruct Hok as (_ & _ & _ & H1 & H2). by intros [?|?].
    + done.
Qed.

Lemma new_handle_ne v h : is_Some (handles v !! h) -> new_handle v <> h.
Proof. intros [s Hs] <-. destruct (new_handle_fresh v) as [_ Hf]. congruence. Qed.

(** A change of other handles, of the tree by taking nodes out, and of no listing. *)
Lemma mem_frame h w w' :
  handles (m_vol w') !! h = handles (m_vol w) !! h -> tree (m_vol w') ⊆ tree (m_vol w) -> mem_pending w' h = mem_pending w h ->
  undisturbed mem_pending h w w'.
Proof.
  intros Hh Ht Hp s Hs. rewrite Hp. split; [cbn; by rewrite Hh|]. split; [|done]. intros k [n Hn]. exists n. by eapply lookup_weaken.
Qed.

Lemma mem_opened_frame w h k : undisturbed mem_pending h w (mem_opened w (m_vol w) k).2.
Proof.
  intros s Hs. assert (new_handle (m_vol w) <> h) as Hne by (apply new_handle_ne; by exists s). revert s Hs.
  apply mem_frame; cbn; [by rewrite lookup_insert_ne|done|]. unfold mem_pending. cbn. by rewrite lookup_insert_ne.
Qed.

Lemma mem_dir_read w h k pos n :
  handles (m_vol w) !! h = Some (mkH k pos) -> tree (m_vol w) !! k = Some DirNode ->
  efi_read h n w = match mem_pending w h with
    | [] => ((Status.SUCCESS, 0, []), w)
    | e :: l => if n <? zlen (d_enc e) then ((Status.BUFFER_TOO_SMALL, zlen (d_enc e), []), w)
                else ((Status.SUCCESS, zlen (d_enc e), d_enc e), mkMem (m_vol w) (m_open w) (m_next w) (m_blocks w) (<[h := l]> (m_dirs w)))
    end.
Proof. intros Hh Ht. cbn. unfold file_of. rewrite Hh. cbn. by rewrite Ht. Qed.

#[export, refine] Instance mem_directories : DirectoryLaws mem := {| pending := mem_pending |}.
Proof.
  - intros w h0 p mode attr h w' _ _ _ Ht Hv E. unfold key in *. cbn [canon mem_volume] in *. rewrite map_id in *. cbn in E, Ht.
    rewrite Ht in E. injection E as <- <-. unfold mem_pending. cbn. rewrite lookup_insert_eq. by apply mem_listing_lists.
  - intros w h k pos n Hh Ht _. rewrite (mem_dir_read _ _ _ _ _ Hh Ht). destruct (mem_pending w h) as [|e l] eqn:Ep; [by rewrite Ep|].
    destruct (n <? zlen (d_enc e)); [by rewrite Ep|]. split; [done|]. split; [done|]. unfold mem_pending. cbn. by rewrite lookup_insert_eq.
  - intros w h k pos Hh Ht _ _. cbn in Hh |- *. rewrite Hh. cbn. eauto.
  - intros h w h' w' [= <- <-]. apply new_handle_ne.
  - intros h h0 p mode attr w h' w' E Hs. cbn in E. unfold mem_opened in E. repeat case_match; simplify_eq/=; by apply new_handle_ne.
  - intros h w. apply mem_opened_frame.
  - intros h h0 p mode attr w Hm. simpl. rewrite Hm. simpl. destruct (tree (m_vol w) !! _); [apply mem_opened_frame|by apply mem_frame].
  - intros h h' w Hne. apply mem_frame; cbn; [by rewrite lookup_delete_ne|done|done].
  - intros h h' w Hne. cbn. destruct (handles (m_vol w) !! h') as [s|]; apply mem_frame; cbn; [by rewrite lookup_delete_ne|apply delete_subseteq|done..].
  - intros h h' n w Hne. cbn. destruct (file_of (m_vol w) h') as [[s c]|]; [apply mem_frame; cbn; [by rewrite lookup_insert_ne|done|done]|].
    destruct (mem_pending w h') as [|e l]; [by apply mem_frame|]. destruct (n <? _); [by apply mem_frame|].
    apply mem_frame; [done|done|]. unfold mem_pending. cbn. by rewrite lookup_insert_ne.
  - intros h h' w. cbn. destruct (file_of (m_vol w) h') as [[s c]|]; by apply mem_frame.
  - done.
  - done.
Defined.

(** An empty volume, and one with a directory [a] and a file [a\b]. *)
Definition empty_volume : mem := mkMem (mkVol {[ [] := DirNode ]} ∅) 0 4096 0 ∅.

Definition small_volume : mem :=
  mkMem (mkVol {[ [] := DirNode; [[0x61]] := DirNode; [[0x61]; [0x62]] := FileNode [1; 2; 3] ]} ∅) 0 4096 0 ∅.

(** One with the directories [a] and [a\c] and the files [a\b], [a\c\d] and [e]. *)
Definition deep_volume : mem :=
  mkMem (mkVol {[ [] := DirNode; [[0x61]] := DirNode; [[0x61]; [0x62]] := FileNode [1; 2; 3];
    [[0x61]; [0x63]] := DirNode; [[0x61]; [0x63]; [0x64]] := FileNode []; [[0x65]] := FileNode [4] ]} ∅) 0 4096 0 ∅.

(** A check that a tree of this volume is one. *)
Definition tree_check (t : gmap fkey node) : Prop :=
  map_Forall (fun k _ => match last k with
    | Some c => t !! removelast k = Some DirNode /\ comp_ok c /\ zlen c <= 255
    | None => True
    end) t.

#[export] Instance tree_check_dec t : Decision (tree_check t).
Proof. unfold tree_check. apply map_Forall_dec. intros k n. destruct (last k); apply _. Defined.

Lemma tree_check_valid t : tree_check t -> valid_tree (W := mem) t.
Proof.
  intros Ht k c [n Hn]. specialize (Ht _ _ Hn). cbn in Ht. rewrite last_snoc, removelast_last in Ht.
  destruct Ht as (Hd & Hc & Hl). split; [done|]. by exists c.
Qed.

(** ** Witnesses *)

Lemma operations_leak_nothing_witness :
  gains live (write (H := debug_profile) [0x61; 0] [1; 2]) (fun _ => 0) /\
  gains live (read_dir (H := debug_profile) [0x61; 0]) (ok_cost 1).
Proof.
  pose proof (@operations_leak_nothing debug_profile mem _ _ _ 5 [0x61; 0] [0x62; 0] [1; 2])
    as (_ & _ & Hw & _ & _ & _ & _ & _ & _ & _ & _ & Hd & _).
  split; [exact Hw|exact Hd].
Defined.



Lemma tree_operations_refine_witness :
  exists w', try_exists (H := debug_profile) (W := mem) [0x61; SEPARATOR; 0x62; 0] small_volume = Ret (Ok true, w').
Proof.
  destruct (@tree_operations_refine debug_profile mem _ _ _ [0x61; SEPARATOR; 0x62; 0] (m_vol small_volume)
    ltac:(by_decide)) as [He _].
  destruct (He small_volume eq_refl) as (r & w' & E & -> & _). exists w'. exact E.
Defined.

Lemma create_dir_all_refine_witness :
  exists w', create_dir_all (H := debug_profile) (W := mem) [0x61; SEPARATOR; 0x63; 0] small_volume =
    Ret (Ok tt, w') /\ tree (m_vol w') !! [[0x61]; [0x63]] = Some DirNode.
Proof.
  destruct (@create_dir_all_refine debug_profile mem _ _ _ [[0x61]; [0x63]] (m_vol small_volume))
    with (w := small_volume) as (r & w' & E & -> & Ev).
  - done.
  - by_decide.
  - by_decide.
  - done.
  - repeat constructor; intros c; vm_compute; discriminate.
  - done.
  - exists w'. split; [exact E|]. simpl in Ev. rewrite Ev. reflexivity.
Defined.

Lemma rename_directory_fails_witness :
  exists e w', rename (H := debug_profile) (W := mem) 4 [0x61; 0] [0x63; 0] small_volume = Ret (Err e, w').
Proof.
  destruct (@rename_directory_fails debug_profile mem _ _ _ 4 [0x61; 0] [0x63; 0] (m_vol small_volume)
    ltac:(by_decide) eq_refl small_volume eq_refl) as (r & w' & E & _ & q & ->). do 2 eexists. exact E.
Defined.



(** A session: two directories, a file, its copy elsewhere, the first directory removed with
    what is in it, and a file to remove that is no longer there. *)
Definition some_session : list op :=
  [CreateDirAll [[0x61]; [0x62]]; Write [[0x61]; [0x62]; [0x63]] [1; 2]; Copy [[0x61]; [0x62]; [0x63]] [[0x65]];
   RemoveDirAll [[0x61]]; RemoveFile [[0x61]; [0x62]; [0x63]]].


(** Reading the directory [a], and the number of entries. *)
Definition collect_a : fw mem (fs_result (list (uresult InfoRef unit))) :=
  try dir <- read_dir (H := debug_profile) [0x61; 0]; infos ← with_handle dir (collect_dir 10 dir); mret (Ok infos).

Definition entries_of (o : outcome (fs_result (list (uresult InfoRef unit)) * mem)) : nat :=
  match o with Ret (Ok l, _) => length l | _ => 0 end.

