(* ===== verification/Tcg.v ===== *)
(** * Trusted computing: events and event logs

    [uefi/src/proto/tcg/v1.rs] and [uefi/src/proto/tcg/v2.rs]: the construction of
    measured events in a buffer, and the iterators over the event logs that the
    firmware keeps in memory.  A log is read from a region of memory ([Buffer]);
    reading outside the region is undefined.  An event of the first version is its
    bytes, as the reference to the packed struct is. *)
From S2P Require Import Prelude Firmware Status MemoryMap.

Module EventType.
Definition NO_ACTION : Z := 3.
Definition IPL : Z := 0xd.
End EventType.

Module AlgorithmId.
Definition SHA1 : Z := 4.
Definition SHA256 : Z := 0xb.
End AlgorithmId.

(** [u32::try_from(len)]. *)
Definition u32_try_from (n : Z) : option Z := if n <? 2 ^ 32 then Some n else None.

(** [usize_from_u32] on a 64-bit target. *)
Definition usize_from_u32 (val : Z) : Z := val.

(** [ptr_write_unaligned_and_add]: the write at the offset, and the next offset. *)
Definition ptr_write_unaligned_and_add (m : list Z) (off : Z) (val : list Z) : outcome (list Z * Z) :=
  let! m := write_raw m off val in
  Ret (m, off + zlen val).

Record EventLog : Set := mkEventLog { location : Z; last_entry : Z; is_truncated : bool }.

(** ** Version 1 *)
Module V1.
Definition pcr_index (e : list Z) : Z := field_at e 0 4.
Definition event_type (e : list Z) : Z := field_at e 4 4.
Definition digest (e : list Z) : list Z := range e 8 20.
Definition event_data_size (e : list Z) : Z := field_at e 28 4.
Definition event_data (e : list Z) : list Z := drop 32 e.

Record BootServiceCapability : Set := mkCapability {
  size : Z; structure_version : list Z; protocol_spec_version : list Z;
  hash_algorithm_bitmap : Z; tpm_present_flag : Z; tpm_deactivated_flag : Z;
}.
Definition hash_algorithm (self : BootServiceCapability) : Z := hash_algorithm_bitmap self.
Definition tpm_present (self : BootServiceCapability) : bool := negb (tpm_present_flag self =? 0).
Definition tpm_deactivated (self : BootServiceCapability) : bool := negb (tpm_deactivated_flag self =? 0).

Record StatusCheck : Set := mkStatusCheck {
  protocol_capability : BootServiceCapability; feature_flags : Z; event_log : EventLog;
}.

Section events.
Context `{Profile}.

(** The result, and the buffer. *)
Definition new_in_buffer (buffer : list Z) (index type_ : Z) (digest event_data : list Z)
  : outcome (uresult (list Z) (option Z) * list Z) :=
  match u32_try_from (zlen event_data) with
  | None => let! e := error_new Status.INVALID_PARAMETER None in Ret (Err e, buffer)
  | Some event_data_size =>
      let! required_size := usize_add (4 + 4 + 20 + 4) (zlen event_data) in
      if zlen buffer <? required_size then
        let! e := error_new Status.BUFFER_TOO_SMALL (Some required_size) in Ret (Err e, buffer)
      else
        let! (m, ptr) := ptr_write_unaligned_and_add buffer 0 (le_bytes 4 index) in
        let! (m, ptr) := ptr_write_unaligned_and_add m ptr (le_bytes 4 type_) in
        let! (m, ptr) := ptr_write_unaligned_and_add m ptr digest in
        let! (m, ptr) := ptr_write_unaligned_and_add m ptr (le_bytes 4 event_data_size) in
        let! m := write_raw m ptr event_data in
        let! event := read_raw m 0 (32 + zlen event_data) in
        Ret (Ok event, m)
  end.

Definition new_in_box {W} `{!Allocator W} (index type_ : Z) (digest event_data : list Z)
  : fw W (uresult (list Z) unit) :=
  make_boxed 1 (fun buf w =>
    let! (r, _) := new_in_buffer (bytes buf) index type_ digest event_data in Ret (r, w)).
End events.

(** *** The log *)

(** [EventLog::new], [iter] and [is_truncated]. *)
Definition event_log_new (location last_entry : Z) (is_truncated : bool) : EventLog :=
  mkEventLog location last_entry is_truncated.

Definition iter (self : EventLog) : Z := location self.

Section log.
Context (m : Buffer).

Definition from_ptr (ptr : Z) : outcome (list Z) :=
  let! event_size := read_ptr m (ptr + 28) 4 in
  let event_size := usize_from_u32 (le_val event_size) in
  read_ptr m ptr (32 + event_size).

(** The item, and the location of the next one. *)
Definition next (log : EventLog) (loc : Z) : outcome (option (list Z) * Z) :=
  if (loc =? 0) || (last_entry log =? 0) then Ret (None, loc)
  else
    let! event := from_ptr loc in
    if loc =? last_entry log then Ret (Some event, 0)
    else Ret (Some event, loc + zlen event).

(** [iter().collect()]. *)
Fixpoint collect (fuel : nat) (log : EventLog) (loc : Z) : outcome (list (list Z)) :=
  match fuel with
  | O => NoFuel
  | S fuel =>
      let! (event, loc) := next log loc in
      match event with
      | None => Ret []
      | Some event => let! rest := collect fuel log loc in Ret (event :: rest)
      end
  end.
End log.

(** *** The protocol *)

Class TcgProtocol (W : Type) : Type := {
  efi_status_check : W -> (Z * BootServiceCapability * Z * Z * Z) * W;
  efi_log_event : list Z -> Z -> W -> Z * W;
  efi_hash_log_extend_event : Z -> Z -> Z -> list Z -> W -> Z * W;
  efi_pass_through_to_tpm : list Z -> list Z -> W -> (Z * list Z) * W;
}.

Section protocol.
Context {W : Type} `{!TcgProtocol W}.

Definition status_check : fw W (uresult StatusCheck unit) :=
  '(status, protocol_capability, feature_flags, location, last_entry) ← call efi_status_check;
  if Status.is_success status then
    mret (Ok (mkStatusCheck protocol_capability feature_flags (event_log_new location last_entry false)))
  else e ← lift (error_from_status status); mret (Err e).

Definition log_event (event : list Z) : fw W (uresult unit unit) :=
  status ← call (efi_log_event event 1);
  lift (to_result status).

(** The data to hash is its address and its length. *)
Definition hash_log_extend_event (event : list Z) (data_to_hash : option (Z * Z)) : fw W (uresult unit unit) :=
  let (hash_data, hash_data_len) := default (0, 0) data_to_hash in
  status ← call (efi_hash_log_extend_event hash_data hash_data_len AlgorithmId.SHA1 event);
  lift (to_result status).

Definition pass_through_to_tpm (input output : list Z) : fw W (uresult unit unit * list Z) :=
  match u32_try_from (zlen input), u32_try_from (zlen output) with
  | Some _, Some _ =>
      '(status, output) ← call (efi_pass_through_to_tpm input output);
      r ← lift (to_result status);
      mret (r, output)
  | _, _ => e ← lift (error_from_status Status.BAD_BUFFER_SIZE); mret (Err e, output)
  end.
End protocol.
End V1.

(** ** Version 2 *)
Module V2.
Record Version : Set := mkVersion { major : Z; minor : Z }.

Record BootServiceCapability : Set := mkCapability {
  size : Z; structure_version : Version; protocol_version : Version;
  hash_algorithm_bitmap : Z; supported_event_logs : Z; present_flag : Z;
  max_command_size : Z; max_response_size : Z; manufacturer_id : Z;
  number_of_pcr_banks : Z; active_pcr_banks : Z;
}.

(** The struct is 36 bytes: the bitmaps are aligned to four bytes. *)
Definition capability_default : BootServiceCapability :=
  mkCapability 36 (mkVersion 0 0) (mkVersion 0 0) 0 0 0 0 0 0 0 0.
Definition tpm_present (self : BootServiceCapability) : bool := negb (present_flag self =? 0).

(** *** Inputs of events *)

(** [Tcg2EventHeader], a packed struct. *)
Definition event_header (header_size header_version index type_ : Z) : list Z :=
  le_bytes 4 header_size ++ le_bytes 2 header_version ++ le_bytes 4 index ++ le_bytes 4 type_.
Definition size_of_EventHeader : Z := 14.

Section inputs.
Context `{Profile}.

(** The result, and the buffer. *)
Definition new_in_buffer (buffer : list Z) (index type_ : Z) (event_data : list Z)
  : outcome (uresult (list Z) (option Z) * list Z) :=
  let! required_size := usize_add (4 + size_of_EventHeader) (zlen event_data) in
  if zlen buffer <? required_size then
    let! e := error_new Status.BUFFER_TOO_SMALL (Some required_size) in Ret (Err e, buffer)
  else
    match u32_try_from required_size with
    | None => let! e := error_new Status.INVALID_PARAMETER None in Ret (Err e, buffer)
    | Some size_field =>
        let! (m, ptr) := ptr_write_unaligned_and_add buffer 0 (le_bytes 4 size_field) in
        let! (m, ptr) := ptr_write_unaligned_and_add m ptr
          (event_header size_of_EventHeader 1 index type_) in
        let! m := write_raw m ptr event_data in
        let! event := read_raw m 0 (4 + size_of_EventHeader + zlen event_data) in
        Ret (Ok event, m)
    end.

Definition new_in_box {W} `{!Allocator W} (index type_ : Z) (event_data : list Z)
  : fw W (uresult (list Z) unit) :=
  make_boxed 1 (fun buf w =>
    let! (r, _) := new_in_buffer (bytes buf) index type_ event_data in Ret (r, w)).
End inputs.

(** The fields of [PcrEventInputs]. *)
Definition inputs_size (e : list Z) : Z := field_at e 0 4.
Definition inputs_header_size (e : list Z) : Z := field_at e 4 4.
Definition inputs_header_version (e : list Z) : Z := field_at e 8 2.
Definition inputs_pcr_index (e : list Z) : Z := field_at e 10 4.
Definition inputs_event_type (e : list Z) : Z := field_at e 14 4.
Definition inputs_event (e : list Z) : list Z := drop 18 e.

(** *** The header of the log *)

Record AlgorithmDigestSize : Set := mkAlgorithmDigestSize { algorithm_id : Z; digest_size : Z }.
Definition size_of_AlgorithmDigestSize : Z := 4.

(** The elements of the unaligned slice. *)
Fixpoint decode_sizes (n : nat) (bs : list Z) : list AlgorithmDigestSize :=
  match n with
  | O => []
  | S n => mkAlgorithmDigestSize (field_at bs 0 2) (field_at bs 2 2) :: decode_sizes n (drop 4 bs)
  end.

Fixpoint get_size (sizes : list AlgorithmDigestSize) (alg : Z) : option Z :=
  match sizes with
  | [] => None
  | elem :: sizes => if algorithm_id elem =? alg then Some (digest_size elem) else get_size sizes alg
  end.

Definition u32_le_from_bytes_at_offset (bs : list Z) (offset : Z) : option Z :=
  bs ← get_range bs offset (offset + 4);
  Some (le_val bs).

Record EventLogHeader : Set := mkEventLogHeader {
  platform_class : Z;
  spec_version : Z * Z * Z;
  uintn_size : Z;
  algorithm_digest_sizes : list AlgorithmDigestSize;
  vendor_info : list Z;
  size_in_bytes : Z;
}.

(** [b"Spec ID Event03\0"]. *)
Definition signature : list Z :=
  [0x53; 0x70; 0x65; 0x63; 0x20; 0x49; 0x44; 0x20; 0x45; 0x76; 0x65; 0x6e; 0x74; 0x30; 0x33; 0].

Section log.
Context `{Profile}.

Definition header_new (event : list Z) : outcome (option EventLogHeader) :=
  if negb (V1.pcr_index event =? 0) then Ret None
  else if negb (V1.event_type event =? EventType.NO_ACTION) then Ret None
  else if negb (bool_decide (V1.digest event = replicate 20 0)) then Ret None
  else
    let event := V1.event_data event in
    let* sig := Ret (get_range event 0 16) in
    if negb (bool_decide (sig = signature)) then Ret None
    else
      let* platform_class := Ret (u32_le_from_bytes_at_offset event 16) in
      let* version_minor := Ret (get_at event 20) in
      let* version_major := Ret (get_at event 21) in
      let* version_errata := Ret (get_at event 22) in
      let* uintn_size := Ret (get_at event 23) in
      let* number_of_algorithms := Ret (u32_le_from_bytes_at_offset event 24) in
      let number_of_algorithms := usize_from_u32 number_of_algorithms in
      let! algorithms_size := usize_mul number_of_algorithms size_of_AlgorithmDigestSize in
      let! vendor_info_size_byte_offset := usize_add 28 algorithms_size in
      let* vendor_info_size := Ret (get_at event vendor_info_size_byte_offset) in
      let! sizes := read_raw event 28 (number_of_algorithms * size_of_AlgorithmDigestSize) in
      let algorithm_digest_sizes := decode_sizes (Z.to_nat number_of_algorithms) sizes in
      let! vendor_info_byte_offset := usize_add vendor_info_size_byte_offset 1 in
      let! vendor_info_end := usize_add vendor_info_byte_offset vendor_info_size in
      let* vendor_info := Ret (get_range event vendor_info_byte_offset vendor_info_end) in
      let! size_in_bytes := usize_add 32 vendor_info_byte_offset in
      let! size_in_bytes := usize_add size_in_bytes vendor_info_size in
      Ret (Some (mkEventLogHeader platform_class (version_major, version_minor, version_errata) uintn_size
        algorithm_digest_sizes vendor_info size_in_bytes)).

Context (m : Buffer).

Definition header (self : EventLog) : outcome (option EventLogHeader) :=
  if location self =? 0 then Ret None
  else let! event := V1.from_ptr m (location self) in header_new event.

(** [EventLogIter]: the header and the location. *)
Definition iter (self : EventLog) : outcome (option EventLogHeader * Z) :=
  let! h := header self in
  match h with
  | Some h =>
      let location := location self + size_in_bytes h in
      let! h := header self in
      Ret (h, location)
  | None => Ret (None, 0)
  end.

(** *** Events *)

Record PcrEvent : Set := mkPcrEvent {
  pcr_index : Z;
  event_type : Z;
  digests : list Z;
  event_data : list Z;
  next_ptr : Z;
  event_sizes : list AlgorithmDigestSize;
}.

(** The loop over the digests: the byte size so far. *)
Fixpoint digests_size (n : nat) (sizes : list AlgorithmDigestSize) (elem_ptr digests_byte_size : Z)
  : outcome (option Z) :=
  match n with
  | O => Ret (Some digests_byte_size)
  | S n =>
      let! algorithm_id := read_ptr m elem_ptr 2 in
      let* digest_size := Ret (get_size sizes (le_val algorithm_id)) in
      let! alg_and_digest_size := usize_add 2 digest_size in
      let! digests_byte_size := usize_add digests_byte_size alg_and_digest_size in
      digests_size n sizes (elem_ptr + alg_and_digest_size) digests_byte_size
  end.

Definition from_ptr (ptr : Z) (header : EventLogHeader) : outcome (option PcrEvent) :=
  let! pcr_index := read_ptr m ptr 4 in
  let! event_type := read_ptr m (ptr + 4) 4 in
  let! digests_count := read_ptr m (ptr + 8) 4 in
  let digests_ptr := ptr + 12 in
  let* digests_byte_size := digests_size (Z.to_nat (le_val digests_count))
    (algorithm_digest_sizes header) digests_ptr 0 in
  let! digests := read_ptr m digests_ptr digests_byte_size in
  let event_size_ptr := digests_ptr + digests_byte_size in
  let! event_size := read_ptr m event_size_ptr 4 in
  let event_size := usize_from_u32 (le_val event_size) in
  let event_data_ptr := event_size_ptr + 4 in
  let! event_data := read_ptr m event_data_ptr event_size in
  Ret (Some (mkPcrEvent (le_val pcr_index) (le_val event_type) digests event_data
    (event_data_ptr + event_size) (algorithm_digest_sizes header))).

(** The item, and the location of the next one. *)
Definition next (log : EventLog) (header : option EventLogHeader) (loc : Z) : outcome (option PcrEvent * Z) :=
  if (loc =? 0) || (last_entry log =? 0) then Ret (None, loc)
  else
    match header with
    | None => Ret (None, loc)
    | Some header =>
        let! event := from_ptr loc header in
        match event with
        | None => Ret (None, loc)
        | Some event =>
            if loc =? last_entry log then Ret (Some event, 0)
            else Ret (Some event, next_ptr event)
        end
    end.

(** [collect()] of the rest of an iterator. *)
Fixpoint collect (fuel : nat) (log : EventLog) (header : option EventLogHeader) (loc : Z)
  : outcome (list PcrEvent) :=
  match fuel with
  | O => NoFuel
  | S fuel =>
      let! (event, loc) := next log header loc in
      match event with
      | None => Ret []
      | Some event => let! rest := collect fuel log header loc in Ret (event :: rest)
      end
  end.

Definition events (fuel : nat) (log : EventLog) : outcome (list PcrEvent) :=
  let! (header, loc) := iter log in collect fuel log header loc.

(** *** Digests *)

(** The item, and the offset of the next one. *)
Definition digest_next (data : list Z) (sizes : list AlgorithmDigestSize) (offset : Z)
  : outcome (option (Z * list Z) * Z) :=
  let! data := slice data offset (zlen data) in
  match get_range data 0 2 with
  | None => Ret (None, offset)
  | Some alg =>
      let alg := le_val alg in
      match get_size sizes alg with
      | None => Ret (None, offset)
      | Some digest_size =>
          let! end_ := usize_add 2 digest_size in
          match get_range data 2 end_ with
          | None => Ret (None, offset)
          | Some digest =>
              let! offset := usize_add offset end_ in
              Ret (Some (alg, digest), offset)
          end
      end
  end.

Fixpoint digest_collect (fuel : nat) (data : list Z) (sizes : list AlgorithmDigestSize) (offset : Z)
  : outcome (list (Z * list Z)) :=
  match fuel with
  | O => NoFuel
  | S fuel =>
      let! (d, offset) := digest_next data sizes offset in
      match d with
      | None => Ret []
      | Some d => let! rest := digest_collect fuel data sizes offset in Ret (d :: rest)
      end
  end.

(** [event.digests().into_iter().collect()]. *)
Definition event_digests (self : PcrEvent) : outcome (list (Z * list Z)) :=
  digest_collect (S (length (digests self))) (digests self) (event_sizes self) 0.
End log.

(** *** The protocol *)

Module EventLogFormat.
Definition TCG_1_2 : Z := 1.
Definition TCG_2 : Z := 2.
End EventLogFormat.

Class Tcg2Protocol (W : Type) : Type := {
  efi_get_capability : BootServiceCapability -> W -> (Z * BootServiceCapability) * W;
  efi_get_event_log : Z -> W -> (Z * Z * Z * Z) * W;
  efi_hash_log_extend_event : Z -> Z -> Z -> list Z -> W -> Z * W;
  efi_submit_command : list Z -> list Z -> W -> (Z * list Z) * W;
  efi_get_active_pcr_banks : W -> (Z * Z) * W;
  efi_set_active_pcr_banks : Z -> W -> Z * W;
  efi_get_result_of_set_active_pcr_banks : W -> (Z * Z * Z) * W;
}.

Section protocol.
Context {W : Type} `{!Tcg2Protocol W}.

Definition get_capability : fw W (uresult BootServiceCapability unit) :=
  '(status, capability) ← call (efi_get_capability capability_default);
  lift (to_result_with_val status capability).

Definition get_event_log_v1 : fw W (uresult EventLog unit) :=
  '(status, location, last_entry, truncated) ← call (efi_get_event_log EventLogFormat.TCG_1_2);
  if Status.is_success status then
    mret (Ok (V1.event_log_new location last_entry (negb (truncated =? 0))))
  else e ← lift (error_from_status status); mret (Err e).

Definition get_event_log_v2 : fw W (uresult EventLog unit) :=
  '(status, location, last_entry, truncated) ← call (efi_get_event_log EventLogFormat.TCG_2);
  if Status.is_success status then
    mret (Ok (mkEventLog location last_entry (negb (truncated =? 0))))
  else e ← lift (error_from_status status); mret (Err e).

(** The data to hash is its address and its length. *)
Definition hash_log_extend_event (flags data_to_hash len : Z) (event : list Z) : fw W (uresult unit unit) :=
  status ← call (efi_hash_log_extend_event flags data_to_hash len event);
  lift (to_result status).

Definition submit_command (input output : list Z) : fw W (uresult unit unit * list Z) :=
  match u32_try_from (zlen input), u32_try_from (zlen output) with
  | Some _, Some _ =>
      '(status, output) ← call (efi_submit_command input output);
      r ← lift (to_result status);
      mret (r, output)
  | _, _ => e ← lift (error_from_status Status.BAD_BUFFER_SIZE); mret (Err e, output)
  end.

Definition get_active_pcr_banks : fw W (uresult Z unit) :=
  '(status, active_pcr_banks) ← call efi_get_active_pcr_banks;
  lift (to_result_with_val status active_pcr_banks).

Definition set_active_pcr_banks (active_pcr_banks : Z) : fw W (uresult unit unit) :=
  status ← call (efi_set_active_pcr_banks active_pcr_banks);
  lift (to_result status).

Definition get_result_of_set_active_pcr_banks : fw W (uresult (option Z) unit) :=
  '(status, operation_present, response) ← call efi_get_result_of_set_active_pcr_banks;
  lift (to_result_with_val status (if operation_present =? 0 then None else Some response)).
End protocol.
End V2.

(** ** Events are read back *)

Definition in_u (n : nat) (z : Z) : Prop := 0 <= z < 256 ^ Z.of_nat n.

Lemma field_at_mid (n : nat) (a : list Z) (x : Z) (c : list Z) (off : nat) :
  off = length a -> in_u n x -> field_at (a ++ le_bytes n x ++ c) off n = x.
Proof.
  intros -> Hx. unfold field_at. rewrite drop_app_length, take_app_length' by (by rewrite length_le_bytes).
  by apply le_val_bytes.
Qed.

Lemma range_mid (a b c : list Z) (off n : Z) : off = zlen a -> n = zlen b -> range (a ++ b ++ c) off n = b.
Proof. intros -> ->. unfold range, zlen. by rewrite !Nat2Z.id, drop_app_length, take_app_length. Qed.

(** A write behind what was written before. *)
Lemma write_next (d : list Z) (rest : list Z) (off : Z) (val : list Z) :
  off = zlen d -> zlen val <= zlen rest ->
  write_raw (d ++ rest) off val = Ret ((d ++ val) ++ drop (length val) rest).
Proof.
  intros -> Hv. unfold write_raw. pose proof (zlen_nonneg d). rewrite zlen_app, !(proj2 (Z.leb_le _ _)) by lia. cbn [andb].
  unfold zlen. rewrite Nat2Z.id, take_app_length, <- drop_drop, drop_app_length, app_assoc. done.
Qed.

Lemma ptr_write_next d rest off val :
  off = zlen d -> zlen val <= zlen rest ->
  ptr_write_unaligned_and_add (d ++ rest) off val = Ret ((d ++ val) ++ drop (length val) rest, zlen (d ++ val)).
Proof. intros -> Hv. unfold ptr_write_unaligned_and_add. rewrite write_next by done. cbn [obind]. by rewrite zlen_app. Qed.

Lemma zlen_drop {A} (n : nat) (l : list A) : Z.of_nat n <= zlen l -> zlen (drop n l) = zlen l - Z.of_nat n.
Proof. unfold zlen. intros Hn. rewrite length_drop. lia. Qed.

Lemma read_written (d rest : list Z) (n : Z) : n = zlen d -> read_raw (d ++ rest) 0 n = Ret d.
Proof. intros ->. apply read_raw_front. Qed.

(** What an event holds. *)
Record Event1 : Set := mkEvent1 { e1_index : Z; e1_type : Z; e1_digest : list Z; e1_data : list Z }.

Definition encode1 (e : Event1) : list Z :=
  le_bytes 4 (e1_index e) ++ le_bytes 4 (e1_type e) ++ e1_digest e ++
  le_bytes 4 (zlen (e1_data e)) ++ e1_data e.

Record wf_event1 (e : Event1) : Prop := {
  wf1_index : in_u 4 (e1_index e);
  wf1_type : in_u 4 (e1_type e);
  wf1_digest : zlen (e1_digest e) = 20;
  wf1_data : zlen (e1_data e) < 2 ^ 32;
}.

Lemma zlen_encode1 e : wf_event1 e -> zlen (encode1 e) = 32 + zlen (e1_data e).
Proof. intros [_ _ Hd _]. unfold encode1. rewrite !zlen_app, !zlen_le_bytes, Hd. lia. Qed.

(** What the accessors return. *)
Definition accessors1 (bs : list Z) : Event1 :=
  mkEvent1 (V1.pcr_index bs) (V1.event_type bs) (V1.digest bs) (V1.event_data bs).

Lemma decode1 e : wf_event1 e ->
  accessors1 (encode1 e) = e /\
  V1.event_data_size (encode1 e) = zlen (e1_data e).
Proof.
  intros [Hi Ht Hd Hs]. pose proof (zlen_nonneg (e1_data e)). assert (length (e1_digest e) = 20%nat) as Hl by (unfold zlen in Hd; lia).
  unfold accessors1, V1.pcr_index, V1.event_type, V1.digest, V1.event_data, V1.event_data_size, encode1.
  split.
  - destruct e as [i t d x]. cbn [e1_index e1_type e1_digest e1_data] in *. f_equal.
    + by apply (field_at_mid 4 []).
    + by apply (field_at_mid 4 (le_bytes 4 i)).
    + rewrite app_assoc. by apply range_mid.
    + rewrite !app_assoc. apply drop_app_length'. by rewrite !length_app, !length_le_bytes, Hl.
  - rewrite !app_assoc, <- (app_assoc _ (le_bytes 4 _)). apply field_at_mid; [by rewrite !length_app, !length_le_bytes, Hl|].
    unfold in_u. change (256 ^ Z.of_nat 4) with (2 ^ 32). lia.
Qed.

(** An event that is built in a buffer is at its front, and holds what it was
    built from; the rest of the buffer is untouched.  A buffer that is too small is
    reported with the size that is needed, and not written. *)
Theorem new_event_spec `{Profile} (buffer : list Z) (e : Event1) :
  in_u 4 (e1_index e) -> in_u 4 (e1_type e) -> zlen (e1_digest e) = 20 -> zlen (e1_data e) <= isize_MAX ->
  V1.new_in_buffer buffer (e1_index e) (e1_type e) (e1_digest e) (e1_data e) =
    Ret (if 2 ^ 32 <=? zlen (e1_data e) then (Err (mkError Status.INVALID_PARAMETER None), buffer)
         else if zlen buffer <? zlen (encode1 e) then
           (Err (mkError Status.BUFFER_TOO_SMALL (Some (zlen (encode1 e)))), buffer)
         else (Ok (encode1 e), encode1 e ++ drop (length (encode1 e)) buffer)) /\
  (zlen (e1_data e) < 2 ^ 32 ->
   accessors1 (encode1 e) = e).
Proof.
  intros Hi Ht Hd Hs. split; [|intros Hlt; by apply decode1].
  unfold V1.new_in_buffer, u32_try_from. rewrite Z.leb_antisym. pose proof (zlen_nonneg (e1_data e)).
  destruct (Z.ltb_spec (zlen (e1_data e)) (2 ^ 32)) as [Hlt|Hge]; [|done]. cbn [negb].
  rewrite zlen_encode1 by done. unfold isize_MAX in Hs. rewrite usize_add_ok by lia. cbn [obind].
  change (4 + 4 + 20 + 4) with 32. destruct (Z.ltb_spec (zlen buffer) (32 + zlen (e1_data e))) as [Hb|Hb]; [done|].
  change buffer with ([] ++ buffer) at 1. set (i := e1_index e). set (t := e1_type e).
  set (d := e1_digest e) in *. set (x := e1_data e) in *.
  assert (forall y, zlen (le_bytes 4 y) = 4) as H4 by (intros y; apply zlen_le_bytes).
  rewrite ptr_write_next by (done || (rewrite H4; lia)). cbn [obind app]. rewrite length_le_bytes.
  rewrite ptr_write_next by (done || (rewrite H4, zlen_drop; lia)). cbn [obind]. rewrite length_le_bytes, drop_drop.
  rewrite ptr_write_next by (done || (rewrite Hd, zlen_drop; lia)). cbn [obind]. rewrite drop_drop.
  assert (length d = 20%nat) as Hdl by (unfold zlen in Hd; lia). rewrite Hdl.
  rewrite ptr_write_next by (done || (rewrite H4, zlen_drop; lia)). cbn [obind]. rewrite length_le_bytes, drop_drop.
  rewrite write_next by (done || (rewrite zlen_drop; lia)). cbn [obind]. rewrite drop_drop.
  rewrite read_written by (rewrite !zlen_app, !H4, Hd; lia). cbn [obind].
  unfold encode1. fold i t d x. rewrite <- !app_assoc. do 4 f_equal. by rewrite !length_app, !length_le_bytes, Hdl.
Qed.

(** ** Logs are read back *)

Lemma in_u4 n : 0 <= n < 2 ^ 32 -> in_u 4 n.
Proof. done. Qed.

(** A number that is read through a pointer. *)
Lemma at_ptr_le m p (n : nat) x k :
  at_ptr m p (le_bytes n x) -> in_u n x -> k = Z.of_nat n ->
  exists bs, read_ptr m p k = Ret bs /\ le_val bs = x.
Proof.
  intros Ha Hx ->. exists (le_bytes n x). split; [|by apply le_val_bytes].
  rewrite <- (zlen_le_bytes n x). by apply at_ptr_read.
Qed.

Lemma from_ptr1 m p e :
  wf_event1 e -> at_ptr m p (encode1 e) -> V1.from_ptr m p = Ret (encode1 e).
Proof.
  intros Hwf Ha. pose proof Hwf as [_ _ Hd Hs]. pose proof (zlen_nonneg (e1_data e)).
  assert (at_ptr m (p + 28) (le_bytes 4 (zlen (e1_data e)))) as Hsize.
  { pose proof Ha as Hb. unfold encode1 in Hb. rewrite !at_ptr_app in Hb. destruct Hb as (_ & _ & _ & Hb & _).
    rewrite !zlen_le_bytes, Hd in Hb. by rewrite <- !Z.add_assoc in Hb. }
  unfold V1.from_ptr. destruct (at_ptr_le _ _ _ _ 4 Hsize) as (bs & -> & Hv); [by apply in_u4|done|]. cbn [obind].
  unfold usize_from_u32. rewrite Hv, <- zlen_encode1 by done. by apply at_ptr_read.
Qed.

(** The log of a list of events: they are adjacent from [location] on, and
    [last_entry] is where the last one starts. *)
Definition log_of {E} (encode : E -> list Z) (m : Buffer) (start : Z) (log : EventLog) (es : list E) : Prop :=
  0 < addr m /\ at_ptr m start (concat (map encode es)) /\
  match es with [] => last_entry log = 0 | _ => last_entry log = start + zlen (concat (map encode (removelast es))) end.

(** The last entry of the log from the second event on. *)
Lemma log_of_cons {E} (encode : E -> list Z) m start log e es :
  (forall e, 0 < zlen (encode e)) -> log_of encode m start log (e :: es) ->
  at_ptr m start (encode e) /\ start <> 0 /\ last_entry log <> 0 /\
  match es with
  | [] => start = last_entry log
  | _ => start <> last_entry log /\ log_of encode m (start + zlen (encode e)) log es
  end.
Proof.
  intros Hpos (Hm & Ha & Hl). cbn [map concat] in Ha. apply at_ptr_app in Ha as [He Hes].
  pose proof (at_ptr_addr _ _ _ He). split; [done|]. split; [lia|]. pose proof (Hpos e).
  destruct es as [|e2 es].
  - cbn in Hl. change (zlen (@nil Z)) with 0 in Hl. split; lia.
  - change (removelast (e :: e2 :: es)) with (e :: removelast (e2 :: es)) in Hl. cbn [map concat] in Hl.
    rewrite zlen_app in Hl. pose proof (zlen_nonneg (concat (map encode (removelast (e2 :: es))))).
    split; [lia|]. split; [lia|]. split; [done|]. split; [exact Hes|]. rewrite Hl. apply Z.add_assoc.
Qed.

Lemma encode1_pos e : 0 < zlen (encode1 e).
Proof.
  unfold encode1. rewrite !zlen_app, !zlen_le_bytes.
  pose proof (zlen_nonneg (e1_digest e)). pose proof (zlen_nonneg (e1_data e)). lia.
Qed.

Lemma collect1 m log es start fuel :
  Forall wf_event1 es -> log_of encode1 m start log es -> (length es < fuel)%nat ->
  V1.collect m fuel log start = Ret (map encode1 es).
Proof.
  revert start fuel. induction es as [|e es IH]; intros start [|fuel] Hwf Hlog Hf; [cbn in Hf; lia| |cbn in Hf; lia|]; cbn [V1.collect].
  { destruct Hlog as (_ & _ & Hl). unfold V1.next. by rewrite Hl, orb_true_r. }
  apply Forall_cons in Hwf as [He Hes]. destruct (log_of_cons _ _ _ _ _ _ encode1_pos Hlog) as (Ha & Hs & Hl & Hrest).
  unfold V1.next. rewrite !(proj2 (Z.eqb_neq _ _)) by done. cbn [orb]. rewrite (from_ptr1 _ _ e) by done. cbn [obind].
  destruct es as [|e2 es].
  - rewrite Hrest, Z.eqb_refl. cbn [obind]. destruct fuel; [cbn in Hf; lia|]. done.
  - destruct Hrest as [Hne Hlog']. rewrite (proj2 (Z.eqb_neq _ _)) by done. cbn [obind].
    rewrite IH by (done || (cbn in Hf |- *; lia)). done.
Qed.

(** The iterator over a version 1 log terminates and yields exactly the events of
    the log, in order, without reading outside of it. *)
Theorem v1_log_roundtrip (m : Buffer) (log : EventLog) (es : list Event1) (fuel : nat) :
  Forall wf_event1 es -> log_of encode1 m (location log) log es -> (length es < fuel)%nat ->
  exists items, V1.collect m fuel log (V1.iter log) = Ret items /\ map accessors1 items = es.
Proof.
  intros Hwf Hlog Hf. exists (map encode1 es). split; [by apply collect1|].
  rewrite map_map. clear Hlog Hf. induction Hwf as [|e es He _ IH]; [done|]. cbn [map]. f_equal; [by apply decode1|exact IH].
Qed.

(** *** Version 2 *)

Record Event2 : Set := mkEvent2 {
  e2_index : Z; e2_type : Z; e2_digests : list (Z * list Z); e2_data : list Z;
}.

Definition encode_digest (d : Z * list Z) : list Z := le_bytes 2 d.1 ++ d.2.

Definition encode2 (e : Event2) : list Z :=
  le_bytes 4 (e2_index e) ++ le_bytes 4 (e2_type e) ++ le_bytes 4 (zlen (e2_digests e)) ++
  concat (map encode_digest (e2_digests e)) ++ le_bytes 4 (zlen (e2_data e)) ++ e2_data e.

(** Digests have the size that the header announces for their algorithm. *)
Definition wf_digest (sizes : list V2.AlgorithmDigestSize) (d : Z * list Z) : Prop :=
  in_u 2 d.1 /\ V2.get_size sizes d.1 = Some (zlen d.2).

Record wf_event2 (sizes : list V2.AlgorithmDigestSize) (e : Event2) : Prop := {
  wf2_index : in_u 4 (e2_index e);
  wf2_type : in_u 4 (e2_type e);
  wf2_count : zlen (e2_digests e) < 2 ^ 32;
  wf2_digests : Forall (wf_digest sizes) (e2_digests e);
  wf2_size : zlen (concat (map encode_digest (e2_digests e))) <= isize_MAX;
  wf2_data : zlen (e2_data e) < 2 ^ 32;
}.

Record Header : Set := mkHeader {
  h_class : Z; h_major : Z; h_minor : Z; h_errata : Z; h_uintn : Z;
  h_sizes : list V2.AlgorithmDigestSize; h_vendor : list Z;
}.

Definition encode_size (s : V2.AlgorithmDigestSize) : list Z :=
  le_bytes 2 (V2.algorithm_id s) ++ le_bytes 2 (V2.digest_size s).

(** The header is the data of an event of version 1. *)
Definition header_data (h : Header) : list Z :=
  V2.signature ++ le_bytes 4 (h_class h) ++ [h_minor h; h_major h; h_errata h; h_uintn h] ++
  le_bytes 4 (zlen (h_sizes h)) ++ concat (map encode_size (h_sizes h)) ++
  [zlen (h_vendor h)] ++ h_vendor h.

Definition header_event (h : Header) : Event1 := mkEvent1 0 EventType.NO_ACTION (replicate 20 0) (header_data h).

Record wf_header (h : Header) : Prop := {
  wfh_class : in_u 4 (h_class h);
  wfh_sizes : Forall (fun s => in_u 2 (V2.algorithm_id s) /\ in_u 2 (V2.digest_size s)) (h_sizes h);
  wfh_data : zlen (header_data h) < 2 ^ 32;
}.

Lemma decode_sizes_encode sizes :
  Forall (fun s => in_u 2 (V2.algorithm_id s) /\ in_u 2 (V2.digest_size s)) sizes ->
  V2.decode_sizes (length sizes) (concat (map encode_size sizes)) = sizes.
Proof.
  induction 1 as [|[a d] sizes [Ha Hd] _ IH]; [done|]. cbn [length map concat V2.decode_sizes].
  change (encode_size (V2.mkAlgorithmDigestSize a d)) with (le_bytes 2 a ++ le_bytes 2 d).
  cbn [V2.algorithm_id V2.digest_size] in *. f_equal.
  - rewrite <- app_assoc. f_equal; [by apply (field_at_mid 2 [])|by apply (field_at_mid 2 (le_bytes 2 a))].
  - rewrite (drop_app_length' _ _ 4); [exact IH|]. by rewrite length_app, !length_le_bytes.
Qed.

Lemma zlen_encode_sizes sizes : zlen (concat (map encode_size sizes)) = zlen sizes * 4.
Proof. apply zlen_concat_map. intros s. unfold encode_size. by rewrite zlen_app, !zlen_le_bytes. Qed.

Lemma u32_at (a : list Z) x c off :
  off = zlen a -> in_u 4 x -> V2.u32_le_from_bytes_at_offset (a ++ le_bytes 4 x ++ c) off = Some x.
Proof.
  intros -> Hx. unfold V2.u32_le_from_bytes_at_offset. rewrite (get_range_mid a (le_bytes 4 x) c); [|done|by rewrite zlen_le_bytes].
  exact (f_equal Some (le_val_bytes 4 x Hx)).
Qed.

Lemma get_range_back (a b : list Z) x y :
  x = zlen a -> y = zlen a + zlen b -> get_range (a ++ b) x y = Some b.
Proof. intros Hx Hy. rewrite <- (app_nil_r b) at 1. by apply get_range_mid. Qed.

(** The parts of the header's data. *)
Section header.
Context `{Profile} (h : Header) (Hwf : wf_header h).

Let prefix1 : list Z := V2.signature.
Let prefix2 : list Z := prefix1 ++ le_bytes 4 (h_class h) ++ [h_minor h; h_major h; h_errata h; h_uintn h].
Let prefix3 : list Z := prefix2 ++ le_bytes 4 (zlen (h_sizes h)).
Let prefix4 : list Z := prefix3 ++ concat (map encode_size (h_sizes h)).

Lemma header_data_parts :
  header_data h = prefix4 ++ zlen (h_vendor h) :: h_vendor h /\ zlen prefix4 = 28 + zlen (h_sizes h) * 4.
Proof.
  unfold prefix4, prefix3, prefix2, prefix1, header_data. split; [by rewrite <- !app_assoc|].
  rewrite !zlen_app, !zlen_le_bytes, zlen_encode_sizes. unfold zlen. cbn. lia.
Qed.

Lemma header_new_encode :
  V2.header_new (encode1 (header_event h)) = Ret (Some
    (V2.mkEventLogHeader (h_class h) (h_major h, h_minor h, h_errata h) (h_uintn h) (h_sizes h) (h_vendor h)
       (zlen (encode1 (header_event h))))).
Proof.
  pose proof Hwf as [Hc Hsz Hlen]. destruct header_data_parts as [Hparts Hp4].
  assert (wf_event1 (header_event h)) as He by (by split).
  pose proof (zlen_nonneg (h_sizes h)). pose proof (zlen_nonneg (h_vendor h)).
  assert (zlen (header_data h) = 29 + zlen (h_sizes h) * 4 + zlen (h_vendor h)) as Hl
    by (rewrite Hparts, zlen_app, zlen_cons; lia).
  destruct (decode1 _ He) as [Hacc _]. unfold V2.header_new.
  rewrite (f_equal e1_index Hacc : V1.pcr_index _ = _), (f_equal e1_type Hacc : V1.event_type _ = _),
    (f_equal e1_digest Hacc : V1.digest _ = _), (f_equal e1_data Hacc : V1.event_data _ = _).
  cbn [header_event e1_index e1_type e1_digest e1_data]. cbn [Z.eqb negb].
  rewrite Z.eqb_refl, bool_decide_eq_true_2 by done. cbn [negb].
  rewrite (zlen_encode1 _ He). cbn [e1_data].
  assert (get_range (header_data h) 0 16 = Some V2.signature) as -> by (by apply (get_range_mid [])).
  cbn [obind]. rewrite bool_decide_eq_true_2 by done. cbn [negb].
  assert (V2.u32_le_from_bytes_at_offset (header_data h) 16 = Some (h_class h)) as -> by (by apply u32_at).
  cbn [obind].
  assert (get_at (header_data h) 20 = Some (h_minor h)) as -> by done.
  assert (get_at (header_data h) 21 = Some (h_major h)) as -> by done.
  assert (get_at (header_data h) 22 = Some (h_errata h)) as -> by done.
  assert (get_at (header_data h) 23 = Some (h_uintn h)) as -> by done.
  assert (header_data h = prefix2 ++ le_bytes 4 (zlen (h_sizes h)) ++ concat (map encode_size (h_sizes h)) ++
    zlen (h_vendor h) :: h_vendor h) as Hparts2.
  { rewrite Hparts. unfold prefix4, prefix3. by rewrite <- !app_assoc. }
  assert (V2.u32_le_from_bytes_at_offset (header_data h) 24 = Some (zlen (h_sizes h))) as ->.
  { rewrite Hparts2. apply u32_at; [done|]. apply in_u4. lia. }
  cbv iota. unfold usize_from_u32, V2.size_of_AlgorithmDigestSize.
  rewrite usize_mul_ok by lia. cbn [obind]. rewrite usize_add_ok by lia. cbn [obind].
  assert (get_at (header_data h) (28 + zlen (h_sizes h) * 4) = Some (zlen (h_vendor h))) as ->.
  { rewrite Hparts. by apply get_at_mid. }
  assert (read_raw (header_data h) 28 (zlen (h_sizes h) * 4) = Ret (concat (map encode_size (h_sizes h)))) as ->.
  { rewrite Hparts. unfold prefix4. rewrite <- app_assoc, <- zlen_encode_sizes. apply (read_raw_mid prefix3). }
  cbn [obind]. do 2 (rewrite usize_add_ok by lia; cbn [obind]).
  assert (get_range (header_data h) (28 + zlen (h_sizes h) * 4 + 1) (28 + zlen (h_sizes h) * 4 + 1 + zlen (h_vendor h)) =
    Some (h_vendor h)) as ->.
  { rewrite Hparts, (app_assoc prefix4 [_] (h_vendor h) : prefix4 ++ _ :: h_vendor h = _).
    apply get_range_back; rewrite zlen_app, Hp4; reflexivity. }
  do 2 (rewrite usize_add_ok by lia; cbn [obind]). unfold zlen at 1. rewrite Nat2Z.id, decode_sizes_encode by done.
  do 3 f_equal. cbn [header_event e1_data]. lia.
Qed.
End header.

(** [&l[a..]] behind a prefix. *)
Lemma slice_from {A} (a b : list A) : slice (a ++ b) (zlen a) (zlen (a ++ b)) = Ret b.
Proof.
  pose proof (zlen_nonneg a). pose proof (zlen_nonneg b). rewrite zlen_app, slice_ok by (rewrite ?zlen_app; lia).
  unfold zlen. rewrite Z.add_simpl_l, !Nat2Z.id, drop_app_length. by rewrite firstn_all.
Qed.

Lemma get_range_Some {A} (l : list A) a b r :
  get_range l a b = Some r -> 0 <= a <= b /\ b <= zlen l /\ zlen r = b - a /\ r = take (Z.to_nat (b - a)) (drop (Z.to_nat a) l).
Proof.
  unfold get_range. case_match eqn:E; [|done]. intros [= <-]. z_bools. do 2 (split; [lia|]). split; [|done].
  unfold zlen in *. rewrite length_take, length_drop. lia.
Qed.

Lemma get_at_Some {A} (l : list A) i x : get_at l i = Some x -> 0 <= i < zlen l /\ x ∈ l.
Proof.
  unfold get_at, zlen. case_match eqn:E; [|done]. z_bools. intros Hl.
  split; [|by eapply list_elem_of_lookup_2]. apply lookup_lt_Some in Hl. lia.
Qed.

Lemma u32_at_bound bs off n :
  Forall is_u8 bs -> V2.u32_le_from_bytes_at_offset bs off = Some n -> 0 <= n < 2 ^ 32.
Proof.
  unfold V2.u32_le_from_bytes_at_offset. intros Hu (r & (_ & _ & Hr & E)%get_range_Some & [= <-])%bind_Some.
  pose proof (le_val_bound r) as Hb. replace (length r) with 4%nat in Hb by (unfold zlen in Hr; lia).
  apply Hb. rewrite E. by apply Forall_take, Forall_drop.
Qed.

Lemma length_decode_sizes n bs : length (V2.decode_sizes n bs) = n.
Proof. revert bs. induction n as [|n IH]; intros bs; cbn; [done|]. by rewrite IH. Qed.

Section events2.
Context `{Profile}.

Lemma digests_size_runs m sizes ds p n :
  Forall (wf_digest sizes) ds -> at_ptr m p (concat (map encode_digest ds)) ->
  0 <= n -> n + zlen (concat (map encode_digest ds)) <= isize_MAX ->
  V2.digests_size m (length ds) sizes p n = Ret (Some (n + zlen (concat (map encode_digest ds)))).
Proof.
  intros Hds. revert p n. induction Hds as [|[a d] ds [Ha Hd] _ IH]; intros p n Hp Hn Hmax;
    cbn [length map concat V2.digests_size fst snd] in *; [by rewrite Z.add_0_r|].
  rewrite zlen_app in *. change (encode_digest (a, d)) with (le_bytes 2 a ++ d) in *. rewrite zlen_app, zlen_le_bytes in *.
  apply at_ptr_app in Hp as [Hp1 Hp2]. apply at_ptr_app in Hp1 as [Hp1 _]. rewrite zlen_app, zlen_le_bytes in Hp2.
  destruct (at_ptr_le _ _ _ _ 2 Hp1 Ha) as (bs & -> & Hv); [done|]. cbn [obind]. rewrite Hv, Hd. cbn [obind].
  pose proof (zlen_nonneg d). pose proof (zlen_nonneg (concat (map encode_digest ds))). unfold isize_MAX in *.
  change (Z.of_nat 2) with 2 in *. rewrite !usize_add_ok by lia. cbn [obind]. rewrite usize_add_ok by lia. cbn [obind].
  rewrite IH by (done || lia). do 2 f_equal. lia.
Qed.

(** What an item of the iterator is. *)
Definition item2 (sizes : list V2.AlgorithmDigestSize) (p : Z) (e : Event2) : V2.PcrEvent :=
  V2.mkPcrEvent (e2_index e) (e2_type e) (concat (map encode_digest (e2_digests e))) (e2_data e)
    (p + zlen (encode2 e)) sizes.

Lemma from_ptr2 m p e h :
  wf_event2 (V2.algorithm_digest_sizes h) e -> at_ptr m p (encode2 e) ->
  V2.from_ptr m p h = Ret (Some (item2 (V2.algorithm_digest_sizes h) p e)).
Proof.
  intros [Hi Ht Hc Hd Hmax Hs] Ha. pose proof (zlen_nonneg (e2_data e)). pose proof (zlen_nonneg (e2_digests e)).
  assert (zlen (encode2 e) = 16 + zlen (concat (map encode_digest (e2_digests e))) + zlen (e2_data e)) as Hl.
  { unfold encode2. rewrite !zlen_app, !zlen_le_bytes. lia. }
  unfold encode2 in Ha. rewrite !at_ptr_app, !zlen_le_bytes, <- !Z.add_assoc in Ha.
  destruct Ha as (A1 & A2 & A3 & A4 & A5 & A6). cbn [Z.of_nat] in *. change (Z.of_nat 4) with 4 in *.
  unfold V2.from_ptr. destruct (at_ptr_le _ _ _ _ 4 A1 Hi eq_refl) as (b1 & -> & W1). cbn [obind].
  destruct (at_ptr_le _ _ _ _ 4 A2 Ht eq_refl) as (b2 & -> & W2). cbn [obind].
  destruct (at_ptr_le _ _ _ _ 4 A3 (in_u4 _ (conj H1 Hc)) eq_refl) as (b3 & E3 & W3).
  change (4 + 4) with 8 in *. rewrite E3. cbn [obind]. rewrite W3. unfold zlen at 1. rewrite Nat2Z.id.
  change (4 + 8) with 12 in *. change (4 + (4 + 4)) with 12 in *.
  rewrite digests_size_runs by (done || lia). cbn [obind]. rewrite Z.add_0_l.
  rewrite (at_ptr_read _ _ _ A4). cbn [obind]. unfold usize_from_u32.
  set (D := zlen (concat (map encode_digest (e2_digests e)))) in *.
  replace (p + (4 + (4 + (4 + D)))) with (p + 12 + D) in A5 by lia.
  replace (p + (4 + (4 + (4 + (D + 4))))) with (p + 12 + D + 4) in A6 by lia.
  destruct (at_ptr_le _ _ _ _ 4 A5 (in_u4 _ (conj H0 Hs)) eq_refl) as (b5 & -> & W5). cbn [obind].
  rewrite W5, (at_ptr_read _ _ _ A6), W1, W2. cbn [obind]. unfold item2. do 3 f_equal. lia.
Qed.

Lemma encode2_pos e : 0 < zlen (encode2 e).
Proof.
  unfold encode2. rewrite !zlen_app, !zlen_le_bytes.
  pose proof (zlen_nonneg (concat (map encode_digest (e2_digests e)))). pose proof (zlen_nonneg (e2_data e)). lia.
Qed.

(** What the accessors of an item return. *)
Definition accessors2 (item : V2.PcrEvent) : outcome Event2 :=
  let! ds := V2.event_digests item in
  Ret (mkEvent2 (V2.pcr_index item) (V2.event_type item) ds (V2.event_data item)).

Lemma digest_collect_runs sizes ds pre fuel :
  Forall (wf_digest sizes) ds -> zlen (pre ++ concat (map encode_digest ds)) <= isize_MAX -> (length ds < fuel)%nat ->
  V2.digest_collect fuel (pre ++ concat (map encode_digest ds)) sizes (zlen pre) = Ret ds.
Proof.
  intros Hds. revert pre fuel. induction Hds as [|[a d] ds [Ha Hd] _ IH]; intros pre [|fuel] Hmax Hf;
    [cbn in Hf; lia| |cbn in Hf; lia|]; cbn [V2.digest_collect]; unfold V2.digest_next; pose proof (zlen_nonneg pre).
  - by rewrite slice_from.
  - cbn [map concat fst snd] in *. change (encode_digest (a, d)) with (le_bytes 2 a ++ d) in *.
    pose proof (zlen_nonneg d). pose proof (zlen_nonneg (concat (map encode_digest ds))).
    rewrite !zlen_app, zlen_le_bytes in Hmax. change (Z.of_nat 2) with 2 in *. unfold isize_MAX in *.
    rewrite slice_from. cbn [obind]. rewrite <- app_assoc.
    rewrite (get_range_mid [] (le_bytes 2 a) (d ++ concat (map encode_digest ds)) 0 2 eq_refl eq_refl
      : get_range (le_bytes 2 a ++ d ++ _) 0 2 = _).
    rewrite le_val_bytes, Hd by done.
    rewrite usize_add_ok by lia. cbn [obind].
    rewrite (get_range_mid (le_bytes 2 a) d) by done. rewrite usize_add_ok by lia. cbn [obind].
    replace (zlen pre + (2 + zlen d)) with (zlen (pre ++ le_bytes 2 a ++ d)) by (rewrite !zlen_app, zlen_le_bytes; lia).
    rewrite !app_assoc, <- (app_assoc pre). rewrite IH; [done| |cbn in Hf; lia].
    rewrite !zlen_app, zlen_le_bytes. lia.
Qed.

Lemma accessors2_item sizes p e : wf_event2 sizes e -> accessors2 (item2 sizes p e) = Ret e.
Proof.
  intros [Hi Ht Hc Hd Hmax Hs]. unfold accessors2, V2.event_digests, item2. cbn [V2.digests V2.event_sizes].
  rewrite (digest_collect_runs sizes (e2_digests e) []); [by destruct e|done|done|].
  clear. induction (e2_digests e) as [|[a d] ds IH]; cbn [map concat length]; [lia|].
  change (encode_digest (a, d)) with (le_bytes 2 a ++ d). rewrite !length_app, length_le_bytes. lia.
Qed.

Lemma collect2 m log h es start fuel :
  Forall (wf_event2 (V2.algorithm_digest_sizes h)) es -> log_of encode2 m start log es -> (length es < fuel)%nat ->
  exists items, V2.collect m fuel log (Some h) start = Ret items /\
    Forall2 (fun item e => accessors2 item = Ret e) items es.
Proof.
  revert start fuel. induction es as [|e es IH]; intros start [|fuel] Hwf Hlog Hf; [cbn in Hf; lia| |cbn in Hf; lia|]; cbn [V2.collect].
  { destruct Hlog as (_ & _ & Hl). unfold V2.next. rewrite Hl, orb_true_r. by exists []. }
  apply Forall_cons in Hwf as [He Hes]. destruct (log_of_cons _ _ _ _ _ _ encode2_pos Hlog) as (Ha & Hs & Hl & Hrest).
  unfold V2.next. rewrite !(proj2 (Z.eqb_neq _ _)) by done. cbn [orb]. rewrite (from_ptr2 _ _ e) by done. cbn [obind].
  destruct es as [|e2 es].
  - rewrite Hrest, Z.eqb_refl. cbn [obind]. destruct fuel; [cbn in Hf; lia|]. cbn. eexists. split; [done|].
    repeat constructor. by apply accessors2_item.
  - destruct Hrest as [Hne Hlog']. rewrite (proj2 (Z.eqb_neq _ _)) by done. cbn [obind item2 V2.next_ptr].
    destruct (IH _ fuel Hes Hlog') as (items & -> & Hi); [cbn in Hf |- *; lia|]. cbn [obind].
    eexists. split; [done|]. constructor; [by apply accessors2_item|done].
Qed.

(** C20: The iterator over a version 2 log finds the header, terminates and yields
    exactly the events of the log, in order; the accessors return what each event
    was made of, the digests of every algorithm included. *)
Theorem v2_log_roundtrip (m : Buffer) (log : EventLog) (h : Header) (es : list Event2) (fuel : nat) :
  wf_header h -> Forall (wf_event2 (h_sizes h)) es ->
  at_ptr m (location log) (encode1 (header_event h)) ->
  log_of encode2 m (location log + zlen (encode1 (header_event h))) log es -> (length es < fuel)%nat ->
  exists items, V2.events m fuel log = Ret items /\ Forall2 (fun item e => accessors2 item = Ret e) items es.
Proof.
  intros Hh Hes Ha Hlog Hf.
  assert (location log <> 0) as Hloc by (pose proof (at_ptr_addr _ _ _ Ha); destruct Hlog as [Hm _]; lia).
  assert (V2.header m log = Ret (Some (V2.mkEventLogHeader (h_class h) (h_major h, h_minor h, h_errata h) (h_uintn h)
    (h_sizes h) (h_vendor h) (zlen (encode1 (header_event h)))))) as E.
  { unfold V2.header. rewrite (proj2 (Z.eqb_neq _ _)) by done. rewrite (from_ptr1 _ _ (header_event h)); [|by split; try apply Hh|done].
    by apply header_new_encode. }
  unfold V2.events, V2.iter. rewrite E. cbn [obind V2.size_in_bytes]. by apply collect2.
Qed.

(** C26: The header of a log is parsed without a panic, an overflow or a read outside
    of the event, whatever the event holds. *)
Theorem header_new_safe (event : list Z) :
  Forall is_u8 event -> zlen event <= isize_MAX ->
  exists r, V2.header_new event = Ret r /\
    forall h, r = Some h ->
      V2.size_in_bytes h <= zlen event /\ zlen (V2.vendor_info h) < 256 /\
      V2.size_in_bytes h = 32 + 29 + 4 * zlen (V2.algorithm_digest_sizes h) + zlen (V2.vendor_info h).
Proof.
  intros Hu Hmax. unfold V2.header_new, isize_MAX in *.
  do 3 (destruct (negb _); [by exists None|]).
  set (ev := V1.event_data event).
  assert (Forall is_u8 ev) as Huev by (by apply Forall_drop).
  assert (zlen ev <> 0 -> zlen event = 32 + zlen ev) as Hev.
  { unfold ev, V1.event_data, zlen. rewrite length_drop. lia. }
  destruct (get_range ev 0 16) as [sig|]; cbn [obind]; [|by exists None].
  destruct (negb _); [by exists None|].
  destruct (V2.u32_le_from_bytes_at_offset ev 16) as [class|]; cbn [obind]; [|by exists None].
  do 4 (destruct (get_at ev _) as [?|]; cbn [obind]; [|by exists None]).
  destruct (V2.u32_le_from_bytes_at_offset ev 24) as [n|] eqn:En; cbn [obind]; [|by exists None].
  apply u32_at_bound in En; [|done]. unfold usize_from_u32, V2.size_of_AlgorithmDigestSize.
  rewrite usize_mul_ok by lia. cbn [obind]. rewrite usize_add_ok by lia. cbn [obind].
  destruct (get_at ev (28 + n * 4)) as [v|] eqn:Ev; cbn [obind]; [|by exists None].
  apply get_at_Some in Ev as [Hi Hv]. rewrite Forall_forall in Huev. apply Huev in Hv. unfold in_width in Hv.
  rewrite read_raw_ok by lia. cbn [obind]. do 2 (rewrite usize_add_ok by lia; cbn [obind]).
  destruct (get_range ev _ _) as [info|] eqn:Er; cbn [obind]; [|by exists None].
  apply get_range_Some in Er as (_ & Hend & Hinfo & _). do 2 (rewrite usize_add_ok by lia; cbn [obind]).
  eexists. split; [done|]. intros h [= <-]. cbn.
  assert (zlen (V2.decode_sizes (Z.to_nat n) (take (Z.to_nat (n * 4)) (drop 28 ev))) = n) as Hd
    by (unfold zlen; rewrite length_decode_sizes; lia).
  change (Z.to_nat 28) with 28%nat. rewrite Hd, Hinfo. lia.
Qed.

Lemma get_size_bound sizes alg n :
  Forall (fun s => 0 <= V2.digest_size s < 2 ^ 16) sizes -> V2.get_size sizes alg = Some n -> 0 <= n < 2 ^ 16.
Proof. induction 1 as [|s sizes Hs _ IH]; cbn; [done|]. case_match; [by intros [= <-]|done]. Qed.

Definition digests_len (ds : list (Z * list Z)) : Z := foldr (fun d n => 2 + zlen d.2 + n) 0 ds.

Lemma digest_collect_ends data sizes offset fuel :
  zlen data <= isize_MAX -> Forall (fun s => 0 <= V2.digest_size s < 2 ^ 16) sizes ->
  0 <= offset <= zlen data -> zlen data - offset < Z.of_nat fuel ->
  exists ds, V2.digest_collect fuel data sizes offset = Ret ds /\ offset + digests_len ds <= zlen data.
Proof.
  intros Hmax Hsz. revert offset. induction fuel as [|fuel IH]; intros offset Ho Hf; [lia|].
  cbn [V2.digest_collect]. unfold V2.digest_next, isize_MAX in *. rewrite slice_ok by lia. cbn [obind].
  set (tail := take _ _). assert (zlen tail = zlen data - offset) as Ht.
  { unfold tail, zlen in *. rewrite length_take, length_drop. lia. }
  assert (exists ds : list (Z * list Z), Ret [] = Ret ds /\ offset + digests_len ds <= zlen data) as Hstop
    by (exists []; cbn; split; [done|lia]).
  destruct (get_range tail 0 2) as [alg|]; [|exact Hstop].
  destruct (V2.get_size sizes (le_val alg)) as [n|] eqn:En; [|exact Hstop].
  apply get_size_bound in En; [|done]. rewrite usize_add_ok by lia. cbn [obind].
  destruct (get_range tail 2 (2 + n)) as [d|] eqn:Ed; [|exact Hstop].
  apply get_range_Some in Ed as (_ & Hend & Hd & _). rewrite usize_add_ok by lia. cbn [obind].
  destruct (IH (offset + (2 + n))) as (ds & -> & Hds); [lia..|]. cbn [obind].
  exists ((le_val alg, d) :: ds). split; [done|]. cbn [digests_len foldr snd] in *. fold (digests_len ds). lia.
Qed.

(** The iterator over the digests of an event ends without a panic, whatever the
    bytes and the sizes in the header are, and what it yields fits in the bytes. *)
Theorem digests_bounded (event : V2.PcrEvent) :
  zlen (V2.digests event) <= isize_MAX ->
  Forall (fun s => 0 <= V2.digest_size s < 2 ^ 16) (V2.event_sizes event) ->
  exists ds, V2.event_digests event = Ret ds /\ digests_len ds <= zlen (V2.digests event).
Proof.
  intros Hmax Hsz. unfold V2.event_digests. pose proof (zlen_nonneg (V2.digests event)).
  destruct (digest_collect_ends _ _ 0 (S (length (V2.digests event))) Hmax Hsz) as (ds & E & Hds);
    [lia|unfold zlen; lia|]. eauto.
Qed.
End events2.

(** ** Examples *)

Definition sample1 : list Event1 :=
  [mkEvent1 4 EventType.IPL (replicate 20 7) [1; 2; 3]; mkEvent1 0 EventType.NO_ACTION (replicate 20 0) []].

Lemma new_event_spec_witness :
  V1.new_in_buffer (H := debug_profile) (replicate 40 9) 4 EventType.IPL (replicate 20 7) [1; 2; 3] =
    Ret (Ok (le_bytes 4 4 ++ le_bytes 4 EventType.IPL ++ replicate 20 7 ++ le_bytes 4 3 ++ [1; 2; 3]),
         le_bytes 4 4 ++ le_bytes 4 EventType.IPL ++ replicate 20 7 ++ le_bytes 4 3 ++ [1; 2; 3] ++ replicate 5 9).
Proof. by apply (new_event_spec (replicate 40 9) (mkEvent1 4 EventType.IPL (replicate 20 7) [1; 2; 3])). Defined.

(** Two events behind three other bytes. *)
Definition memory1 : Buffer := mkBuffer 0x1000 ([5; 5; 5] ++ concat (map encode1 sample1) ++ [6]).

Lemma v1_log_roundtrip_witness :
  exists items, V1.collect memory1 3 (mkEventLog 0x1003 (0x1003 + 35) false) 0x1003 = Ret items /\ map accessors1 items = sample1.
Proof.
  apply (v1_log_roundtrip memory1 (mkEventLog 0x1003 (0x1003 + 35) false) sample1 3).
  - repeat (constructor; [split; by vm_compute|]). constructor.
  - split; [done|]. split; [by exists [5; 5; 5], [6]|]. reflexivity.
  - cbn. lia.
Defined.

Definition sample_header : Header :=
  mkHeader 0 2 0 0 2 [V2.mkAlgorithmDigestSize AlgorithmId.SHA1 20; V2.mkAlgorithmDigestSize AlgorithmId.SHA256 32] [1; 2].
Definition sample2 : list Event2 :=
  [mkEvent2 7 EventType.IPL [(AlgorithmId.SHA1, replicate 20 1); (AlgorithmId.SHA256, replicate 32 2)] [9; 9];
   mkEvent2 1 0x80000001 [] []].
Definition memory2 : Buffer :=
  mkBuffer 0x1000 (encode1 (header_event sample_header) ++ concat (map encode2 sample2)).
Definition log2 : EventLog :=
  mkEventLog 0x1000 (0x1000 + zlen (encode1 (header_event sample_header)) + zlen (encode2 (mkEvent2 7 EventType.IPL
    [(AlgorithmId.SHA1, replicate 20 1); (AlgorithmId.SHA256, replicate 32 2)] [9; 9]))) false.

Lemma v2_log_roundtrip_witness :
  exists items, V2.events (H := debug_profile) memory2 3 log2 = Ret items /\
    Forall2 (fun item e => accessors2 (H := debug_profile) item = Ret e) items sample2.
Proof.
  apply (v2_log_roundtrip (H := debug_profile) memory2 log2 sample_header sample2 3).
  - constructor; [done| |by vm_compute]. repeat (constructor; [by vm_compute|]). constructor.
  - assert (Forall (wf_digest (h_sizes sample_header))
      [(AlgorithmId.SHA1, replicate 20 1); (AlgorithmId.SHA256, replicate 32 2)]) as Hd
      by (constructor; [by vm_compute|]; constructor; [by vm_compute|constructor]).
    constructor; [split; exact Hd || by vm_compute|]. constructor; [split; exact (Forall_nil_2 _) || by vm_compute|constructor].
  - by exists [], (concat (map encode2 sample2)).
  - split; [done|]. split; [|reflexivity].
    exists (encode1 (header_event sample_header)), []. by rewrite app_nil_r.
  - cbn. lia.
Defined.

Lemma header_new_safe_witness :
  exists r, V2.header_new (H := debug_profile) (replicate 100 0) = Ret r.
Proof.
  destruct (header_new_safe (H := debug_profile) (replicate 100 0)) as (r & E & _); [|by_decide|by exists r].
  apply Forall_replicate. done.
Defined.

Lemma digests_bounded_witness :
  exists ds, V2.event_digests (H := debug_profile)
    (V2.mkPcrEvent 0 0 [4; 0; 1; 2] [] 0 [V2.mkAlgorithmDigestSize 4 3]) = Ret ds.
Proof.
  destruct (digests_bounded (H := debug_profile) (V2.mkPcrEvent 0 0 [4; 0; 1; 2] [] 0 [V2.mkAlgorithmDigestSize 4 3]))
    as (ds & E & _); [by_decide|by repeat constructor|by exists ds].
Defined.
