(* ===== verification/Pxe.v ===== *)
(** * The PXE base code protocol

    Network addresses ([uefi-raw/src/lib.rs], [uefi/src/proto/network/mod.rs]) and
    the PXE base code protocol ([uefi/src/proto/network/pxe.rs]): TFTP transfers,
    the parsers of directory listings, the structures that are built in buffers, and
    the views of the mode and of DHCP packets. *)
From stdpp Require Import list.
From S2P Require Import Prelude Firmware Status Strs Text Tcg.

(** ** Addresses *)

(** [uefi::proto::network::IpAddress]: sixteen bytes. *)
Definition new_v4 (a : list Z) : list Z := take 4 a ++ replicate 12 0.
Definition new_v6 (a : list Z) : list Z := a.
(** The bytes of the union, read as one of its members. *)
Definition ip_from_raw (raw : list Z) (is_ipv6 : bool) : list Z :=
  if is_ipv6 then new_v6 raw else new_v4 (take 4 raw).
Definition ipv4_of (ip : list Z) : list Z := take 4 ip.
Definition ipv6_of (ip : list Z) : list Z := ip.

Inductive core_ip : Set := V4 (octets : list Z) | V6 (octets : list Z).
Definition ip_of_core (a : core_ip) : list Z := match a with V4 o => new_v4 o | V6 o => new_v6 o end.

(** [MacAddress]: thirty-two bytes. *)
Definition mac_of_octets (o : list Z) : list Z := take 6 o ++ replicate 26 0.
Definition octets_of_mac (m : list Z) : list Z := take 6 m.

(** ** Parsing of text *)

Definition SPACE : Z := 32.
Definition DASH : Z := 45.
Definition DOT : Z := 46.
Definition COLON : Z := 58.

(** [slice.split_inclusive(|b| *b == 0)]: the pieces up to and including each NUL,
    and what is left after the last. *)
Fixpoint split_nul (piece l : list Z) : list (list Z) :=
  match l with
  | [] => match piece with [] => [] | _ => [piece] end
  | b :: l => if b =? 0 then (piece ++ [b]) :: split_nul [] l else split_nul (piece ++ [b]) l
  end.
Definition split_inclusive (l : list Z) : list (list Z) := split_nul [] l.

(** ** Directory listings *)

Inductive ReadDirParseError : Set := read_dir_parse_error.

Section listings.
Context {F : Type} (parse_f32 : list Z -> option F).

Record FileDate : Type := mkFileDate {
  fd_size : Z; fd_year : Z; fd_month : Z; fd_day : Z; fd_hour : Z; fd_minute : Z; fd_second : F;
}.
Record TftpFileInfo : Type := mkTftpFileInfo { tftp_filename : list Z; tftp_date : FileDate }.
Record MtftpFileInfo : Type := mkMtftpFileInfo { mtftp_filename : list Z; mtftp_ip : list Z; mtftp_date : FileDate }.

(** The [?] operator after [ok_or(ReadDirParseError)]. *)
Definition ok_or {A} (o : option A) : result A ReadDirParseError :=
  match o with Some a => Ok a | None => Err read_dir_parse_error end.
Definition rbind {A B E} (r : result A E) (k : A -> result B E) : result B E :=
  match r with Ok a => k a | Err e => Err e end.

(** The information string, its terminator included. *)
Definition parse_information (piece : list Z) : result FileDate ReadDirParseError :=
  let information_string := take (length piece - 1) piece in
  if negb (utf8_valid information_string) then Err read_dir_parse_error else
  rbind (ok_or (split_once SPACE information_string)) (fun '(size, rest) =>
  rbind (ok_or (split_once DASH rest)) (fun '(year, rest) =>
  rbind (ok_or (split_once DASH rest)) (fun '(month, rest) =>
  rbind (ok_or (split_once SPACE rest)) (fun '(day, rest) =>
  rbind (ok_or (split_once COLON rest)) (fun '(hour, rest) =>
  rbind (ok_or (split_once COLON rest)) (fun '(minute, second) =>
  rbind (ok_or (parse_uint 64 size)) (fun size =>
  rbind (ok_or (parse_uint 16 year)) (fun year =>
  rbind (ok_or (parse_uint 8 month)) (fun month =>
  rbind (ok_or (parse_uint 8 day)) (fun day =>
  rbind (ok_or (parse_uint 8 hour)) (fun hour =>
  rbind (ok_or (parse_uint 8 minute)) (fun minute =>
  rbind (ok_or (parse_f32 second)) (fun second =>
  Ok (mkFileDate size year month day hour minute second)))))))))))))).

(** The first piece of an entry: [None] for the final entry. *)
Definition parse_filename (piece : list Z) : outcome (option (list Z)) :=
  if decide (piece = [0]) then Ret None
  else match cstr8_from_bytes_with_nul piece with
    | Ok filename => Ret (Some filename)
    | Err _ => Panic UnwrapFailed
    end.

(** The octets of a multicast address. *)
Definition parse_octets (piece : list Z) : result (list Z) ReadDirParseError :=
  let multicast_ip := take (length piece - 1) piece in
  if negb (utf8_valid multicast_ip) then Err read_dir_parse_error else
  match split_char DOT multicast_ip with
  | [a; b; c; d] =>
      rbind (ok_or (parse_uint 8 a)) (fun a => rbind (ok_or (parse_uint 8 b)) (fun b =>
      rbind (ok_or (parse_uint 8 c)) (fun c => rbind (ok_or (parse_uint 8 d)) (fun d => Ok [a; b; c; d]))))
  | _ => Err read_dir_parse_error
  end.

(** [parse_next] of [tftp_read_dir], with the pieces that are left. *)
Definition tftp_parse_next (iterator : list (list Z))
  : outcome (result (option TftpFileInfo) ReadDirParseError * list (list Z)) :=
  match iterator with
  | [] => Ret (Err read_dir_parse_error, [])
  | filename :: iterator =>
      let! filename := parse_filename filename in
      match filename with
      | None => Ret (Ok None, iterator)
      | Some filename =>
          match iterator with
          | [] => Ret (Err read_dir_parse_error, [])
          | information :: iterator =>
              Ret (rbind (parse_information information) (fun date => Ok (Some (mkTftpFileInfo filename date))), iterator)
          end
      end
  end.

(** [parse_next] of [mtftp_read_dir]. *)
Definition mtftp_parse_next (iterator : list (list Z))
  : outcome (result (option MtftpFileInfo) ReadDirParseError * list (list Z)) :=
  match iterator with
  | [] => Ret (Err read_dir_parse_error, [])
  | filename :: iterator =>
      let! filename := parse_filename filename in
      match filename with
      | None => Ret (Ok None, iterator)
      | Some filename =>
          match iterator with
          | [] => Ret (Err read_dir_parse_error, [])
          | multicast_ip :: iterator =>
              match parse_octets multicast_ip with
              | Err e => Ret (Err e, iterator)
              | Ok octets =>
                  match iterator with
                  | [] => Ret (Err read_dir_parse_error, [])
                  | information :: iterator =>
                      Ret (rbind (parse_information information)
                             (fun date => Ok (Some (mkMtftpFileInfo filename (new_v4 octets) date))), iterator)
                  end
              end
          end
      end
  end.
End listings.
Arguments mkFileDate {F}.
Arguments mkTftpFileInfo {F}.
Arguments mkMtftpFileInfo {F}.

(** [from_fn(move || parse_next().transpose()).fuse()]: the pieces that are left and
    whether the end was reached. *)
Record DirIter : Set := mkDirIter { pieces : list (list Z); finished : bool }.

Section dir_iter.
Context {I : Type} (parse_next : list (list Z) -> outcome (result (option I) ReadDirParseError * list (list Z))).

Definition dir_next (self : DirIter) : outcome (option (result I ReadDirParseError) * DirIter) :=
  if finished self then Ret (None, self)
  else
    let! (r, rest) := parse_next (pieces self) in
    Ret (match r with
         | Ok (Some info) => (Some (Ok info), mkDirIter rest false)
         | Ok None => (None, mkDirIter rest true)
         | Err e => (Some (Err e), mkDirIter rest false)
         end).

(** [collect()]. *)
Fixpoint dir_collect (fuel : nat) (self : DirIter) : outcome (list (result I ReadDirParseError)) :=
  match fuel with
  | O => NoFuel
  | S fuel =>
      let! (item, self) := dir_next self in
      match item with
      | None => Ret []
      | Some item => let! items := dir_collect fuel self in Ret (item :: items)
      end
  end.
End dir_iter.

(** ** The protocol *)

Module TftpOpcode.
Definition TFTP_GET_FILE_SIZE : Z := 1.
Definition TFTP_READ_FILE : Z := 2.
Definition TFTP_WRITE_FILE : Z := 3.
Definition TFTP_READ_DIRECTORY : Z := 4.
Definition MTFTP_GET_FILE_SIZE : Z := 5.
Definition MTFTP_READ_FILE : Z := 6.
Definition MTFTP_READ_DIRECTORY : Z := 7.
End TftpOpcode.

Record MtftpInfo : Set := mkMtftpInfo {
  m_cast_ip : list Z; c_port : Z; s_port : Z; listen_timeout : Z; transmit_timeout : Z;
}.

(** The arguments of [mtftp]; [None] is a null pointer.  The block size is always
    null. *)
Record MtftpCall : Set := mkMtftpCall {
  mc_operation : Z;
  mc_buffer : option (list Z);
  mc_overwrite : Z;
  mc_buffer_size : Z;
  mc_server_ip : list Z;
  mc_filename : option (list Z);
  mc_info : option MtftpInfo;
  mc_dont_use_buffer : Z;
}.

Record UdpWrite : Set := mkUdpWrite {
  uw_flags : Z; uw_dest_ip : list Z; uw_dest_port : Z; uw_gateway_ip : option (list Z); uw_src_ip : option (list Z);
  uw_src_port : option Z; uw_header : option (list Z); uw_buffer : list Z;
}.
Record UdpRead : Set := mkUdpRead {
  ur_flags : Z; ur_dest_ip : option (list Z); ur_dest_port : option Z; ur_src_ip : option (list Z);
  ur_src_port : option Z; ur_header : option (list Z); ur_buffer : list Z;
}.

(** What is set on the wire: flags and cached packets. *)
Record SetPackets : Set := mkSetPackets { sp_flags : list (option Z); sp_packets : list (option (list Z)) }.

(** Every structure is passed as its bytes; the firmware returns the status, and for
    [mtftp] the size and the buffer, for [discover] the layer, and for the
    others what it stored behind the mutable pointers. *)
Class PxeServices (W : Type) : Type := {
  efi_start : Z -> W -> Z * W;
  efi_stop : W -> Z * W;
  efi_dhcp : Z -> W -> Z * W;
  efi_discover : Z -> Z -> Z -> option (list Z) -> W -> (Z * Z) * W;
  efi_mtftp : MtftpCall -> W -> (Z * Z * list Z) * W;
  efi_udp_write : UdpWrite -> W -> (Z * option Z) * W;
  efi_udp_read : UdpRead -> W -> (Z * UdpRead * Z) * W;
  efi_set_ip_filter : list Z -> W -> Z * W;
  efi_arp : list Z -> option (list Z) -> W -> (Z * option (list Z)) * W;
  efi_set_parameters : option Z -> option Z -> option Z -> option Z -> option Z -> W -> Z * W;
  efi_set_station_ip : option (list Z) -> option (list Z) -> W -> Z * W;
  efi_set_packets : SetPackets -> W -> Z * W;
}.

Section protocol.
Context {W F : Type} `{!PxeServices W} (parse_f32 : list Z -> option F).

Definition start (use_ipv6 : bool) : fw W (uresult unit unit) :=
  s ← call (efi_start (boolean_of_bool use_ipv6)); lift (to_result s).
Definition stop : fw W (uresult unit unit) := s ← call efi_stop; lift (to_result s).
Definition dhcp (sort_offers : bool) : fw W (uresult unit unit) :=
  s ← call (efi_dhcp (boolean_of_bool sort_offers)); lift (to_result s).

(** The result and the layer. *)
Definition discover (ty layer : Z) (use_bis : bool) (info : option (list Z)) : fw W (uresult unit unit * Z) :=
  '(s, layer) ← call (efi_discover ty layer (boolean_of_bool use_bis) info);
  r ← lift (to_result s);
  mret (r, layer).

Definition tftp_get_file_size (server_ip filename : list Z) : fw W (uresult Z unit) :=
  '(status, buffer_size, _) ← call (efi_mtftp (mkMtftpCall TftpOpcode.TFTP_GET_FILE_SIZE None 0 0 server_ip (Some filename) None 0));
  lift (to_result_with_val status buffer_size).

(** The buffer of a read, its size, and whether it is not to be used. *)
Definition read_buffer_args (buffer : option (list Z)) : option (list Z) * Z * Z :=
  match buffer with
  | Some b => (Some b, zlen b, boolean_of_bool false)
  | None => (None, 0, boolean_of_bool true)
  end.

(** The result and the buffer. *)
Definition tftp_read_file (server_ip filename : list Z) (buffer : option (list Z)) : fw W (uresult Z unit * list Z) :=
  let '(buffer_ptr, buffer_size, dont_use_buffer) := read_buffer_args buffer in
  '(status, buffer_size, out) ← call (efi_mtftp (mkMtftpCall TftpOpcode.TFTP_READ_FILE buffer_ptr 0 buffer_size server_ip (Some filename) None dont_use_buffer));
  r ← lift (to_result_with_val status buffer_size);
  mret (r, out).

Definition tftp_write_file (server_ip filename : list Z) (overwrite : bool) (buffer : list Z) : fw W (uresult unit unit) :=
  '(status, _, _) ← call (efi_mtftp (mkMtftpCall TftpOpcode.TFTP_WRITE_FILE (Some buffer) (boolean_of_bool overwrite) (zlen buffer) server_ip (Some filename) None 0));
  lift (to_result status).

(** The part of both directory functions after the call: the iterator over the
    bytes that the firmware reports. *)
Definition read_dir_result (status buffer_size : Z) (buffer : list Z) : fw W (uresult DirIter unit) :=
  try _ <- lift (to_result status);
  buffer ← lift (slice buffer 0 buffer_size);
  mret (Ok (mkDirIter (split_inclusive buffer) false)).

Definition tftp_read_dir (server_ip directory_name buffer : list Z) : fw W (uresult DirIter unit) :=
  '(status, buffer_size, buffer) ← call (efi_mtftp (mkMtftpCall TftpOpcode.TFTP_READ_DIRECTORY (Some buffer) 0 (zlen buffer) server_ip (Some directory_name) None 0));
  read_dir_result status buffer_size buffer.

Definition mtftp_get_file_size (server_ip filename : list Z) (info : MtftpInfo) : fw W (uresult Z unit) :=
  '(status, buffer_size, _) ← call (efi_mtftp (mkMtftpCall TftpOpcode.MTFTP_GET_FILE_SIZE None 0 0 server_ip (Some filename) (Some info) 0));
  lift (to_result_with_val status buffer_size).

Definition mtftp_read_file (server_ip filename : list Z) (buffer : option (list Z)) (info : MtftpInfo) : fw W (uresult Z unit * list Z) :=
  let '(buffer_ptr, buffer_size, dont_use_buffer) := read_buffer_args buffer in
  '(status, buffer_size, out) ← call (efi_mtftp (mkMtftpCall TftpOpcode.MTFTP_READ_FILE buffer_ptr 0 buffer_size server_ip (Some filename) (Some info) dont_use_buffer));
  r ← lift (to_result_with_val status buffer_size);
  mret (r, out).

Definition mtftp_read_dir (server_ip buffer : list Z) (info : MtftpInfo) : fw W (uresult DirIter unit) :=
  '(status, buffer_size, buffer) ← call (efi_mtftp (mkMtftpCall TftpOpcode.MTFTP_READ_DIRECTORY (Some buffer) 0 (zlen buffer) server_ip None (Some info) 0));
  read_dir_result status buffer_size buffer.

(** The result and the source port. *)
Definition udp_write (op_flags : Z) (dest_ip : list Z) (dest_port : Z) (gateway_ip src_ip : option (list Z))
    (src_port : option Z) (header : option (list Z)) (buffer : list Z) : fw W (uresult unit unit * option Z) :=
  '(s, src_port) ← call (efi_udp_write (mkUdpWrite op_flags dest_ip dest_port gateway_ip src_ip src_port header buffer));
  r ← lift (to_result s);
  mret (r, src_port).

(** The result with the number of bytes, and what was stored. *)
Definition udp_read (args : UdpRead) : fw W (uresult Z unit * UdpRead) :=
  '(status, out, buffer_size) ← call (efi_udp_read args);
  r ← lift (to_result_with_val status buffer_size);
  mret (r, out).

Definition arp (ip_addr : list Z) (mac_addr : option (list Z)) : fw W (uresult unit unit * option (list Z)) :=
  '(s, mac) ← call (efi_arp ip_addr mac_addr);
  r ← lift (to_result s);
  mret (r, mac).

(** [opt_bool_to_ptr]. *)
Definition opt_bool (o : option bool) : option Z := boolean_of_bool <$> o.

Definition set_parameters (auto_arp send_guid : option bool) (ttl tos : option Z) (make_callback : option bool)
  : fw W (uresult unit unit) :=
  s ← call (efi_set_parameters (opt_bool auto_arp) (opt_bool send_guid) ttl tos (opt_bool make_callback));
  lift (to_result s).

Definition set_station_ip (station_ip subnet_mask : option (list Z)) : fw W (uresult unit unit) :=
  s ← call (efi_set_station_ip station_ip subnet_mask); lift (to_result s).

Definition set_packets (flags : list (option bool)) (packets : list (option (list Z))) : fw W (uresult unit unit) :=
  s ← call (efi_set_packets (mkSetPackets (opt_bool <$> flags) packets)); lift (to_result s).
End protocol.

(** ** Structures in buffers *)

(** [Server], and its twenty bytes. *)
Record Server : Set := mkServer { srv_ty : Z; accept_any_response : bool; srv_ip : list Z }.
Definition server_new (ty : Z) (ip_addr : option (list Z)) : Server :=
  mkServer ty (match ip_addr with None => true | _ => false end) (default (replicate 16 0) ip_addr).
Definition server_ip_addr (self : Server) : option (list Z) :=
  if accept_any_response self then None else Some (srv_ip self).

Definition size_of_Server : Z := 20.
Definition server_bytes (s : Server) : list Z :=
  le_bytes 2 (srv_ty s) ++ [boolean_of_bool (accept_any_response s); 0] ++ srv_ip s.
Definition decode_server (d : list Z) : Server :=
  mkServer (le_val (range d 0 2)) (bool_of_boolean (le_val (range d 2 1))) (range d 4 16).

(** [DiscoverInfo] is a view of a buffer: four bytes, an address, the number of
    servers, two bytes of padding, and the servers. *)
Section discover_info.
Context `{Profile}.

(** The result, and the buffer. *)
Definition new_in_buffer (buffer : Buffer) (use_m_cast use_b_cast use_u_cast must_use_list : bool)
    (server_m_cast_ip : list Z) (srv_list : list Server) : outcome (uresult (list Z) unit * Buffer) :=
  let server_count := zlen srv_list in
  let! _ := assert_ (server_count <=? 65535) in
  let! size_of_val := usize_mul server_count size_of_Server in
  let! required_size := usize_add (4 + 16 + 2) size_of_val in
  if zlen (bytes buffer) <? required_size then
    let! e := error_from_status Status.BUFFER_TOO_SMALL in Ret (Err e, buffer)
  else
    let! (m, ptr) := ptr_write_unaligned_and_add (bytes buffer) 0 [boolean_of_bool use_m_cast] in
    let! (m, ptr) := ptr_write_unaligned_and_add m ptr [boolean_of_bool use_b_cast] in
    let! (m, ptr) := ptr_write_unaligned_and_add m ptr [boolean_of_bool use_u_cast] in
    let! (m, ptr) := ptr_write_unaligned_and_add m ptr [boolean_of_bool must_use_list] in
    let! (m, ptr) := ptr_write_unaligned_and_add m ptr server_m_cast_ip in
    let! (m, ptr) := ptr_write_unaligned_and_add m ptr (le_bytes 2 (wrap 16 server_count)) in
    let ptr := ptr + 2 in
    let! m := write_raw m ptr (concat (map server_bytes srv_list)) in
    (* [&mut *ptr]: aligned to four bytes *)
    if negb (addr buffer mod 4 =? 0) then Undefined
    else
      let! self := read_raw m 0 (24 + server_count * size_of_Server) in
      Ret (Ok self, mkBuffer (addr buffer) m).

Definition use_m_cast (self : list Z) : bool := bool_of_boolean (le_val (range self 0 1)).
Definition use_b_cast (self : list Z) : bool := bool_of_boolean (le_val (range self 1 1)).
Definition use_u_cast (self : list Z) : bool := bool_of_boolean (le_val (range self 2 1)).
Definition must_use_list (self : list Z) : bool := bool_of_boolean (le_val (range self 3 1)).
Definition server_m_cast_ip (self : list Z) : list Z := range self 4 16.
Definition ip_cnt (self : list Z) : Z := le_val (range self 20 2).
Definition srv_list (self : list Z) : list Server :=
  (fun i => decode_server (range self (24 + Z.of_nat i * size_of_Server) size_of_Server)) <$>
    seq 0 (Z.to_nat ((zlen self - 24) / size_of_Server)).
End discover_info.

(** [IpFilter]. *)
Record IpFilter : Set := mkIpFilter { filters : Z; filter_ip_cnt : Z; filter_ip_list : list (list Z) }.
Definition ip_filter_new (filters : Z) (ip_list : list (list Z)) : outcome IpFilter :=
  let! _ := assert_ (zlen ip_list <=? 8) in
  Ret (mkIpFilter filters (wrap 8 (zlen ip_list)) (ip_list ++ replicate (8 - length ip_list) (replicate 16 0))).
Definition ip_filter_list (self : IpFilter) : outcome (list (list Z)) :=
  slice (filter_ip_list self) 0 (filter_ip_cnt self).
Definition ip_filter_bytes (self : IpFilter) : list Z :=
  [filters self; filter_ip_cnt self; 0; 0] ++ concat (filter_ip_list self).

Definition set_ip_filter {W} `{!PxeServices W} (new_filter : IpFilter) : fw W (uresult unit unit) :=
  s ← call (efi_set_ip_filter (ip_filter_bytes new_filter)); lift (to_result s).

(** ** Packets and the mode *)

(** [u16::from_be], [u32::from_be]. *)
Definition from_be (n : nat) (v : Z) : Z := le_val (reverse (le_bytes n v)).

(** A packet is its bytes; the view of a DHCPv4 packet. *)
Module DhcpV4.
Definition DHCP_MAGIK : Z := 0x63825363.
Definition BROADCAST : Z := 1.
Definition bootp_ident (p : list Z) : Z := from_be 4 (le_val (range p 4 4)).
Definition bootp_seconds (p : list Z) : Z := from_be 2 (le_val (range p 8 2)).
Definition bootp_flags (p : list Z) : Z := Z.land (from_be 2 (le_val (range p 10 2))) BROADCAST.
Definition dhcp_magik (p : list Z) : Z := from_be 4 (le_val (range p 236 4)).
End DhcpV4.

Module DhcpV6.
Definition transaction_id (p : list Z) : Z :=
  Z.lor (Z.lor (Z.shiftl (le_val (range p 1 1)) 16) (Z.shiftl (le_val (range p 2 1)) 8)) (le_val (range p 3 1)).
End DhcpV6.

(** [PxeBaseCodeMode]: the booleans in their order, then the other fields. *)
Record Mode : Set := mkMode {
  raw_started : Z; raw_ipv6_available : Z; raw_ipv6_supported : Z; raw_using_ipv6 : Z; raw_bis_supported : Z;
  raw_bis_detected : Z; raw_auto_arp : Z; raw_send_guid : Z; raw_dhcp_discover_valid : Z; raw_dhcp_ack_received : Z;
  raw_proxy_offer_received : Z; raw_pxe_discover_valid : Z; raw_pxe_reply_received : Z; raw_pxe_bis_reply_received : Z;
  raw_icmp_error_received : Z; raw_tftp_error_received : Z; raw_make_callbacks : Z;
  ttl : Z; tos : Z; raw_station_ip : list Z; raw_subnet_mask : list Z;
  dhcp_discover : list Z; dhcp_ack : list Z; proxy_offer : list Z; pxe_discover : list Z; pxe_reply : list Z;
  pxe_bis_reply : list Z; ip_filter : IpFilter;
  arp_cache_entries : Z; raw_arp_cache : list (list Z * list Z);
  route_table_entries : Z; raw_route_table : list (list Z * list Z * list Z);
  icmp_error : list Z; tftp_error : list Z;
}.
Definition started (m : Mode) : bool := bool_of_boolean (raw_started m).
Definition ipv6_available (m : Mode) : bool := bool_of_boolean (raw_ipv6_available m).
Definition ipv6_supported (m : Mode) : bool := bool_of_boolean (raw_ipv6_supported m).
Definition using_ipv6 (m : Mode) : bool := bool_of_boolean (raw_using_ipv6 m).
Definition bis_supported (m : Mode) : bool := bool_of_boolean (raw_bis_supported m).
Definition bis_detected (m : Mode) : bool := bool_of_boolean (raw_bis_detected m).
Definition auto_arp (m : Mode) : bool := bool_of_boolean (raw_auto_arp m).
Definition send_guid (m : Mode) : bool := bool_of_boolean (raw_send_guid m).
Definition dhcp_discover_valid (m : Mode) : bool := bool_of_boolean (raw_dhcp_discover_valid m).
Definition dhcp_ack_received (m : Mode) : bool := bool_of_boolean (raw_dhcp_ack_received m).
Definition proxy_offer_received (m : Mode) : bool := bool_of_boolean (raw_proxy_offer_received m).
Definition pxe_discover_valid (m : Mode) : bool := bool_of_boolean (raw_pxe_discover_valid m).
Definition pxe_reply_received (m : Mode) : bool := bool_of_boolean (raw_pxe_reply_received m).
Definition pxe_bis_reply_received (m : Mode) : bool := bool_of_boolean (raw_pxe_bis_reply_received m).
Definition icmp_error_received (m : Mode) : bool := bool_of_boolean (raw_icmp_error_received m).
Definition tftp_error_received (m : Mode) : bool := bool_of_boolean (raw_tftp_error_received m).
Definition make_callbacks (m : Mode) : bool := bool_of_boolean (raw_make_callbacks m).
Definition station_ip (m : Mode) : list Z := ip_from_raw (raw_station_ip m) (using_ipv6 m).
Definition subnet_mask (m : Mode) : list Z := ip_from_raw (raw_subnet_mask m) (using_ipv6 m).

(** The tables have room for eight entries; a slice that is longer is undefined. *)
Definition table_slice {A} (table : list A) (entries : Z) : outcome (list A) :=
  let len := usize_from_u32 entries in
  if len <=? zlen table then Ret (take (Z.to_nat len) table) else Undefined.
Definition arp_cache (m : Mode) : outcome (list (list Z * list Z)) := table_slice (raw_arp_cache m) (arp_cache_entries m).
Definition route_table (m : Mode) : outcome (list (list Z * list Z * list Z)) :=
  table_slice (raw_route_table m) (route_table_entries m).

(** ** Directory listings are read back *)

Lemma split_nul_app piece x rest : 0 ∉ x -> split_nul piece (x ++ 0 :: rest) = (piece ++ x ++ [0]) :: split_nul [] rest.
Proof.
  revert piece. induction x as [|b x IH]; intros piece Hn; cbn [app split_nul]; [by rewrite Z.eqb_refl|].
  apply not_elem_of_cons in Hn as [Hb Hn]. rewrite (proj2 (Z.eqb_neq _ _)) by done. rewrite IH by done. by rewrite <- app_assoc.
Qed.

Lemma listing_split_inclusive_app x rest : 0 ∉ x -> split_inclusive (x ++ 0 :: rest) = (x ++ [0]) :: split_inclusive rest.
Proof. apply (split_nul_app []). Qed.

(** A date as it is written in a listing: decimal numbers of any length, and the
    text of the seconds. *)
Record date_text : Set := mkDateText {
  t_size : list Z; t_year : list Z; t_month : list Z; t_day : list Z; t_hour : list Z; t_minute : list Z; t_second : list Z;
}.
Definition number (bits : Z) (s : list Z) : Prop := s <> [] /\ Forall digit s /\ decimal s < 2 ^ bits.

Section read_back.
Context {F : Type} (parse_f32 : list Z -> option F).

Definition date_ok (t : date_text) (d : FileDate (F := F)) : Prop :=
  number 64 (t_size t) /\ number 16 (t_year t) /\ number 8 (t_month t) /\ number 8 (t_day t) /\ number 8 (t_hour t) /\
  number 8 (t_minute t) /\ Forall ascii (t_second t) /\ parse_f32 (t_second t) = Some (fd_second d) /\
  d = mkFileDate (decimal (t_size t)) (decimal (t_year t)) (decimal (t_month t)) (decimal (t_day t))
        (decimal (t_hour t)) (decimal (t_minute t)) (fd_second d).

Definition show_date (t : date_text) : list Z :=
  t_size t ++ SPACE :: t_year t ++ DASH :: t_month t ++ DASH :: t_day t ++ SPACE :: t_hour t ++ COLON :: t_minute t
    ++ COLON :: t_second t.

Lemma show_date_ascii t d : date_ok t d -> Forall ascii (show_date t).
Proof.
  intros ((_ & H1 & _) & (_ & H2 & _) & (_ & H3 & _) & (_ & H4 & _) & (_ & H5 & _) & (_ & H6 & _) & H7 & _).
  unfold show_date. repeat (apply Forall_app; split; [by apply digits_ascii|constructor; [done|]]). done.
Qed.

Lemma parse_information_ok t d : date_ok t d -> parse_information parse_f32 (show_date t ++ [0]) = Ok d.
Proof.
  intros Hok. pose proof (show_date_ascii t d Hok) as Has.
  destruct Hok as ((N1 & H1 & L1) & (N2 & H2 & L2) & (N3 & H3 & L3) & (N4 & H4 & L4) & (N5 & H5 & L5) & (N6 & H6 & L6) & H7 & Hf & Hd).
  unfold parse_information. rewrite length_app, Nat.add_sub, take_app_length, utf8_valid_ascii by done. cbn [negb].
  unfold show_date, SPACE, DASH, COLON.
  do 6 (rewrite split_once_app by (apply digits_not; [done|lia]); cbn [ok_or rbind]).
  rewrite !parse_uint_ok by done. cbn [ok_or rbind]. rewrite Hf. cbn [ok_or rbind]. by rewrite <- Hd.
Qed.

Definition name_ok (name : list Z) : Prop := name <> [] /\ 0 ∉ name.

Lemma parse_filename_ok name : name_ok name -> parse_filename (name ++ [0]) = Ret (Some (name ++ [0])).
Proof.
  intros [Hne Hn]. unfold parse_filename. rewrite decide_False.
  - unfold cstr8_from_bytes_with_nul. rewrite position_app_r; [|apply Forall_forall|done].
    + by rewrite length_app, Nat.eqb_refl.
    + intros x Hx. apply Z.eqb_neq. by intros ->.
  - destruct name as [|a [|b name]]; [done|done|done].
Qed.

(** An entry of a TFTP listing, and of an MTFTP one with its address. *)
Definition tftp_entry (x : list Z * date_text) : list Z := x.1 ++ 0 :: show_date x.2 ++ [0].
Definition tftp_ok (x : list Z * date_text) (info : TftpFileInfo (F := F)) : Prop :=
  name_ok x.1 /\ tftp_filename info = x.1 ++ [0] /\ date_ok x.2 (tftp_date info).

Definition show_ip (o : list Z * list Z * list Z * list Z) : list Z :=
  let '(a, b, c, d) := o in a ++ DOT :: b ++ DOT :: c ++ DOT :: d.
Definition mtftp_entry (x : list Z * (list Z * list Z * list Z * list Z) * date_text) : list Z :=
  x.1.1 ++ 0 :: show_ip x.1.2 ++ 0 :: show_date x.2 ++ [0].
Definition mtftp_ok (x : list Z * (list Z * list Z * list Z * list Z) * date_text) (info : MtftpFileInfo (F := F)) : Prop :=
  let '(a, b, c, d) := x.1.2 in
  name_ok x.1.1 /\ mtftp_filename info = x.1.1 ++ [0] /\ Forall (number 8) [a; b; c; d] /\
  mtftp_ip info = new_v4 [decimal a; decimal b; decimal c; decimal d] /\ date_ok x.2 (mtftp_date info).

(** The parser [p] reads the entry [e] as [i], and leaves the rest. *)
Definition reads {I} (p : list (list Z) -> outcome (result (option I) ReadDirParseError * list (list Z))) (e : list Z) (i : I) : Prop :=
  forall rest, p (split_inclusive (e ++ rest)) = Ret (Ok (Some i), split_inclusive rest).

Lemma tftp_reads x info : tftp_ok x info -> reads (tftp_parse_next parse_f32) (tftp_entry x) info.
Proof.
  destruct x as [name t], info as [fname d]. intros (Hn & Hf & Hd) rest. cbn in *. subst fname.
  pose proof (ascii_not_nul _ (show_date_ascii _ _ Hd)). unfold tftp_entry. cbn [fst snd].
  rewrite <- app_assoc, <- app_comm_cons, <- app_assoc. cbn [app].
  rewrite !listing_split_inclusive_app by (done || apply Hn). unfold tftp_parse_next. rewrite parse_filename_ok by done. cbn [obind].
  by rewrite (parse_information_ok _ _ Hd).
Qed.

Lemma show_ip_ascii a b c d : Forall (number 8) [a; b; c; d] -> Forall ascii (show_ip (a, b, c, d)).
Proof.
  rewrite !Forall_cons. intros ((_ & Ha & _) & (_ & Hb & _) & (_ & Hc & _) & (_ & Hd & _) & _). cbn.
  repeat (apply Forall_app; split; [by apply digits_ascii|constructor; [done|]]). by apply digits_ascii.
Qed.

Lemma parse_octets_ok a b c d :
  Forall (number 8) [a; b; c; d] ->
  parse_octets (show_ip (a, b, c, d) ++ [0]) = Ok [decimal a; decimal b; decimal c; decimal d].
Proof.
  intros Hn. unfold parse_octets. rewrite length_app, Nat.add_sub, take_app_length.
  rewrite utf8_valid_ascii by by apply show_ip_ascii. cbn [negb show_ip].
  rewrite !Forall_cons in Hn. destruct Hn as ((Na & Ha & La) & (Nb & Hb & Lb) & (Nc & Hc & Lc) & (Nd & Hd & Ld) & _).
  do 3 (rewrite split_char_app by (apply digits_not; [done|unfold DOT; lia])).
  rewrite split_char_end by (apply digits_not; [done|unfold DOT; lia]). by rewrite !parse_uint_ok by done.
Qed.

Lemma mtftp_reads x info : mtftp_ok x info -> reads (mtftp_parse_next parse_f32) (mtftp_entry x) info.
Proof.
  destruct x as [[name [[[a b] c] d]] t], info as [fname ip dt]. intros (Hn & Hf & Hip & Hi & Hd) rest. cbn in Hf, Hi, Hn. subst fname ip.
  pose proof (ascii_not_nul _ (show_date_ascii _ _ Hd)). pose proof (ascii_not_nul _ (show_ip_ascii _ _ _ _ Hip)).
  unfold mtftp_entry. cbn [fst snd mtftp_date] in *.
  rewrite <- app_assoc, <- app_comm_cons, <- app_assoc, <- app_comm_cons, <- app_assoc. cbn [app].
  rewrite !listing_split_inclusive_app by (done || apply Hn). unfold mtftp_parse_next. rewrite parse_filename_ok by done. cbn [obind].
  rewrite parse_octets_ok by done. by rewrite (parse_information_ok _ _ Hd).
Qed.
End read_back.

Section listing.
Context {I : Type} (p : list (list Z) -> outcome (result (option I) ReadDirParseError * list (list Z))).
Hypothesis p_end : forall rest, p ([0] :: rest) = Ret (Ok None, rest).
Hypothesis p_nothing : p [] = Ret (Err read_dir_parse_error, []).

Lemma listing_collect es js junk fuel :
  Forall2 (reads p) es js -> (length es < fuel)%nat ->
  dir_collect p fuel (mkDirIter (split_inclusive (concat es ++ 0 :: junk)) false) = Ret (Ok <$> js).
Proof using p_end.
  intros Hes. revert fuel. induction Hes as [|e i es js He _ IH]; intros [|fuel] Hf; cbn [length] in Hf; [lia| |lia|].
  - cbn [concat app dir_collect]. unfold dir_next. cbn [finished pieces].
    change (split_inclusive (0 :: junk)) with ([0] :: split_inclusive junk). by rewrite p_end.
  - cbn [concat dir_collect]. unfold dir_next. cbn [finished pieces]. rewrite <- app_assoc, He. cbn [obind].
    rewrite IH by lia. done.
Qed.

(** Without the final entry the errors never end. *)
Lemma listing_endless es js fuel :
  Forall2 (reads p) es js -> dir_collect p fuel (mkDirIter (split_inclusive (concat es)) false) = NoFuel.
Proof using p_nothing.
  intros Hes. revert fuel. induction Hes as [|e i es js He _ IH]; intros fuel.
  - cbn [concat]. induction fuel as [|fuel IH]; [done|]. cbn [dir_collect]. unfold dir_next. cbn [finished pieces].
    change (split_inclusive []) with (@nil (list Z)) in *. rewrite p_nothing. cbn [obind]. by rewrite IH.
  - destruct fuel as [|fuel]; [done|]. cbn [concat dir_collect]. unfold dir_next. cbn [finished pieces]. rewrite He. cbn [obind].
    by rewrite IH.
Qed.
End listing.

Section directories.
Context {W F : Type} `{!PxeServices W} (parse_f32 : list Z -> option F).

Lemma read_dir_result_ok n out (w : W) :
  0 <= n <= zlen out ->
  read_dir_result 0 n out w = Ret (Ok (mkDirIter (split_inclusive (take (Z.to_nat n) out)) false), w).
Proof.
  intros Hn. unfold read_dir_result. rewrite to_result_cases. unfold fw_try, mbind, fw_bind, lift. cbn [obind fst snd Z.eqb].
  rewrite slice_ok by lia. by rewrite Z.sub_0_r, drop_0.
Qed.

(** C29: Iterating over the directory that a TFTP server lists terminates and yields
    exactly its entries, in order, with the numbers that their texts denote. *)
Theorem tftp_dir_roundtrip (ip dir buffer : list Z) (xs : list (list Z * date_text)) (infos : list (TftpFileInfo (F := F)))
    (junk out : list Z) (n : Z) (w w' : W) (fuel : nat) :
  Forall2 (tftp_ok parse_f32) xs infos ->
  efi_mtftp (mkMtftpCall TftpOpcode.TFTP_READ_DIRECTORY (Some buffer) 0 (zlen buffer) ip (Some dir) None 0) w = ((0, n, out), w') ->
  0 <= n <= zlen out -> take (Z.to_nat n) out = concat (tftp_entry <$> xs) ++ 0 :: junk -> (length xs < fuel)%nat ->
  exists it, tftp_read_dir ip dir buffer w = Ret (Ok it, w') /\
    dir_collect (tftp_parse_next parse_f32) fuel it = Ret (Ok <$> infos).
Proof.
  intros Hxs E Hn Hout Hf. eexists. unfold tftp_read_dir. rewrite fw_bind_call, E. cbn [fst snd].
  rewrite read_dir_result_ok by done. split; [done|]. rewrite Hout. apply listing_collect; [done| |by rewrite length_fmap].
  apply Forall2_fmap_l. eapply Forall2_impl; [exact Hxs|]. apply tftp_reads.
Qed.

(** The same for the listing of an MTFTP server, with the multicast addresses. *)
Theorem mtftp_dir_roundtrip (ip buffer : list Z) (info : MtftpInfo)
    (xs : list (list Z * (list Z * list Z * list Z * list Z) * date_text)) (infos : list (MtftpFileInfo (F := F)))
    (junk out : list Z) (n : Z) (w w' : W) (fuel : nat) :
  Forall2 (mtftp_ok parse_f32) xs infos ->
  efi_mtftp (mkMtftpCall TftpOpcode.MTFTP_READ_DIRECTORY (Some buffer) 0 (zlen buffer) ip None (Some info) 0) w = ((0, n, out), w') ->
  0 <= n <= zlen out -> take (Z.to_nat n) out = concat (mtftp_entry <$> xs) ++ 0 :: junk -> (length xs < fuel)%nat ->
  exists it, mtftp_read_dir ip buffer info w = Ret (Ok it, w') /\
    dir_collect (mtftp_parse_next parse_f32) fuel it = Ret (Ok <$> infos).
Proof.
  intros Hxs E Hn Hout Hf. eexists. unfold mtftp_read_dir. rewrite fw_bind_call, E. cbn [fst snd].
  rewrite read_dir_result_ok by done. split; [done|]. rewrite Hout. apply listing_collect; [done| |by rewrite length_fmap].
  apply Forall2_fmap_l. eapply Forall2_impl; [exact Hxs|]. apply mtftp_reads.
Qed.

(** A listing that is cut off after an entry yields errors without end: collecting
    it returns for no bound on the number of items. *)
Theorem truncated_listing_never_ends (xs : list (list Z * date_text)) (infos : list (TftpFileInfo (F := F))) (fuel : nat) :
  Forall2 (tftp_ok parse_f32) xs infos ->
  dir_collect (tftp_parse_next parse_f32) fuel (mkDirIter (split_inclusive (concat (tftp_entry <$> xs))) false) = NoFuel.
Proof.
  intros Hxs. apply (listing_endless _ eq_refl _ infos).
  apply Forall2_fmap_l. eapply Forall2_impl; [exact Hxs|]. apply tftp_reads.
Qed.
End directories.

(** A listing that is cut off inside of a file name panics. *)
Example truncated_name_panics :
  dir_next (tftp_parse_next (fun _ => Some tt)) (mkDirIter (split_inclusive [97; 98]) false) = Panic UnwrapFailed.
Proof. reflexivity. Qed.

(** A server with one file, and the parser of seconds reads two digits. *)
Module Server1.
#[global] Instance services : PxeServices unit := {|
  efi_start _ w := (0, w); efi_stop w := (0, w); efi_dhcp _ w := (0, w);
  efi_discover _ layer _ _ w := ((0, layer), w);
  (* "a" "12 2024-05-06 07:08:09" "" *)
  efi_mtftp _ w := ((0, 26, [97; 0; 49; 50; 32; 50; 48; 50; 52; 45; 48; 53; 45; 48; 54; 32; 48; 55; 58; 48; 56; 58; 48; 57; 0; 0; 1; 1]), w);
  efi_udp_write _ w := ((0, None), w); efi_udp_read r w := ((0, r, 0), w);
  efi_set_ip_filter _ w := (0, w); efi_arp _ m w := ((0, m), w);
  efi_set_parameters _ _ _ _ _ w := (0, w); efi_set_station_ip _ _ w := (0, w); efi_set_packets _ w := (0, w);
|}.
Definition text : date_text :=
  mkDateText [49; 50] [50; 48; 50; 52] [48; 53] [48; 54] [48; 55] [48; 56] [48; 57].
Definition file : TftpFileInfo := mkTftpFileInfo [97; 0] (mkFileDate 12 2024 5 6 7 8 9).
Lemma file_ok : tftp_ok (parse_uint 8) ([97], text) file.
Proof.
  split; [split; [done|by_decide]|]. split; [done|].
  repeat (split; [split; [done|split; [repeat (constructor; [unfold digit; lia|]); constructor|reflexivity]]|]).
  split; [repeat (constructor; [unfold ascii; lia|]); constructor|]. done.
Qed.
End Server1.

Lemma tftp_dir_roundtrip_witness :
  exists it, tftp_read_dir [10] [47; 0] [] tt = Ret (Ok it, tt) /\
    dir_collect (tftp_parse_next (parse_uint 8)) 2 it = Ret [Ok Server1.file].
Proof.
  apply (tftp_dir_roundtrip (parse_uint 8) [10] [47; 0] [] [([97], Server1.text)] [Server1.file] []
    [97; 0; 49; 50; 32; 50; 48; 50; 52; 45; 48; 53; 45; 48; 54; 32; 48; 55; 58; 48; 56; 58; 48; 57; 0; 0; 1; 1] 26 tt tt 2).
  - constructor; [apply Server1.file_ok|constructor].
  - reflexivity.
  - vm_compute. split; discriminate.
  - reflexivity.
  - cbn. lia.
Defined.

Lemma truncated_listing_never_ends_witness :
  dir_collect (tftp_parse_next (parse_uint 8)) 9 (mkDirIter (split_inclusive (tftp_entry ([97], Server1.text))) false) = NoFuel.
Proof.
  pose proof (truncated_listing_never_ends (parse_uint 8) [([97], Server1.text)] [Server1.file] 9) as Ht.
  cbn [fmap list_fmap concat] in Ht. rewrite app_nil_r in Ht. apply Ht. constructor; [apply Server1.file_ok|constructor].
Defined.

(** ** Discovery information in a buffer *)

Lemma bool_byte b : bool_of_boolean (le_val [boolean_of_bool b]) = b.
Proof. by destruct b. Qed.

Section discovery.
Context `{Profile} (um ub uu ml : bool) (ip : list Z) (srvs : list Server).

Definition server_ok (s : Server) : Prop := 0 <= srv_ty s < 2 ^ 16 /\ zlen (srv_ip s) = 16.
Hypothesis Hip : zlen ip = 16.
Hypothesis Hcount : zlen srvs <= 65535.
Hypothesis Hsrvs : Forall server_ok srvs.

(** The bytes before the padding. *)
Definition discover_header : list Z :=
  [boolean_of_bool um; boolean_of_bool ub; boolean_of_bool uu; boolean_of_bool ml] ++ ip ++ le_bytes 2 (zlen srvs).
Definition discover_size : Z := 24 + zlen srvs * size_of_Server.

Lemma server_bytes_len s : server_ok s -> zlen (server_bytes s) = size_of_Server.
Proof. intros [_ Hi]. unfold server_bytes. by rewrite !zlen_app, Hi, zlen_le_bytes. Qed.

Lemma servers_len l : Forall server_ok l -> zlen (concat (map server_bytes l)) = zlen l * size_of_Server.
Proof.
  induction 1 as [|s l Hs _ IH]; [done|]. cbn [map concat]. rewrite zlen_app, zlen_cons, server_bytes_len, IH by done. lia.
Qed.

Lemma decode_server_bytes s : server_ok s -> decode_server (server_bytes s) = s.
Proof.
  destruct s as [ty any i]. intros [Hty Hi]. cbn in Hty, Hi. unfold decode_server, server_bytes. cbn [srv_ty accept_any_response srv_ip].
  f_equal.
  - transitivity (le_val (le_bytes 2 ty)); [f_equal; by apply (range_mid [] (le_bytes 2 ty))|by apply le_val_bytes].
  - transitivity (bool_of_boolean (le_val [boolean_of_bool any])); [|by destruct any].
    by rewrite <- (range_mid (le_bytes 2 ty) [boolean_of_bool any] (0 :: i) 2 1).
  - rewrite app_assoc, <- (app_nil_r i) at 1. apply range_mid; [by rewrite zlen_app, zlen_le_bytes|done].
Qed.

(** The header is written field by field. *)
Lemma header_written {A} (b : list Z) (k : list Z -> Z -> outcome A) :
  22 <= zlen b ->
  (let! (m, ptr) := ptr_write_unaligned_and_add b 0 [boolean_of_bool um] in
   let! (m, ptr) := ptr_write_unaligned_and_add m ptr [boolean_of_bool ub] in
   let! (m, ptr) := ptr_write_unaligned_and_add m ptr [boolean_of_bool uu] in
   let! (m, ptr) := ptr_write_unaligned_and_add m ptr [boolean_of_bool ml] in
   let! (m, ptr) := ptr_write_unaligned_and_add m ptr ip in
   let! (m, ptr) := ptr_write_unaligned_and_add m ptr (le_bytes 2 (wrap 16 (zlen srvs))) in
   k m ptr) = k (discover_header ++ drop 22 b) 22.
Proof using Hip Hcount.
  intros Hb. rewrite (wrap_small 16) by (unfold in_width; pose proof (zlen_nonneg srvs); lia).
  assert (length ip = 16%nat) as Hl by (unfold zlen in Hip; lia).
  rewrite (ptr_write_next [] b) by (done || (cbn; unfold zlen in *; cbn; lia)). cbn [obind].
  do 5 (rewrite ptr_write_next by (done || (rewrite ?drop_drop, zlen_drop; unfold zlen in *; rewrite ?length_le_bytes; cbn [length]; lia));
    cbn [obind]).
  rewrite !drop_drop. cbn [length]. rewrite Hl, length_le_bytes. unfold discover_header. f_equal. f_equal.
  rewrite !zlen_app, Hip, zlen_le_bytes. reflexivity.
Qed.

Lemma discover_header_len : zlen discover_header = 22.
Proof using Hip. unfold discover_header. by rewrite !zlen_app, Hip, zlen_le_bytes. Qed.

(** What the view shows. *)
Definition shows (self : list Z) : Prop :=
  use_m_cast self = um /\ use_b_cast self = ub /\ use_u_cast self = uu /\ must_use_list self = ml /\
  server_m_cast_ip self = ip /\ ip_cnt self = zlen srvs /\ srv_list self = srvs.

Lemma range_server l (i : nat) s pre :
  Forall server_ok l -> l !! i = Some s ->
  range (pre ++ concat (map server_bytes l)) (zlen pre + Z.of_nat i * size_of_Server) size_of_Server = server_bytes s.
Proof.
  intros Hl Hi. rewrite <- (take_drop_middle l i s Hi), map_app, concat_app. cbn [map concat]. rewrite app_assoc.
  rewrite <- (take_drop_middle l i s Hi) in Hl. apply Forall_app in Hl as [Ht [Hs _]%Forall_cons].
  apply range_mid; [|by rewrite server_bytes_len].
  rewrite zlen_app, servers_len by done. unfold zlen. rewrite length_take. apply lookup_lt_Some in Hi. lia.
Qed.

Lemma discover_shows pad : zlen pad = 2 -> shows (discover_header ++ pad ++ concat (map server_bytes srvs)).
Proof using Hip Hcount Hsrvs.
  intros Hpad. pose proof (zlen_nonneg srvs). unfold shows. split_and!; [exact (bool_byte um)|exact (bool_byte ub)|exact (bool_byte uu)|exact (bool_byte ml)| | |].
  - unfold server_m_cast_ip, discover_header. rewrite <- !app_assoc. by apply range_mid.
  - unfold ip_cnt, discover_header. rewrite <- !app_assoc. rewrite app_assoc.
    rewrite range_mid by (rewrite ?zlen_app, ?Hip, ?zlen_le_bytes; done). apply le_val_bytes. cbn. lia.
  - unfold srv_list. rewrite !zlen_app, servers_len, discover_header_len, Hpad by done.
    replace ((22 + (2 + zlen srvs * size_of_Server) - 24) / size_of_Server) with (zlen srvs)
      by (replace (22 + (2 + zlen srvs * size_of_Server) - 24) with (zlen srvs * size_of_Server) by lia; symmetry; by apply Z.div_mul).
    unfold zlen at 1. rewrite Nat2Z.id. apply list_eq. intros i. rewrite list_lookup_fmap.
    destruct (srvs !! i) as [s|] eqn:Ei.
    + rewrite lookup_seq_lt by (by eapply lookup_lt_Some). cbn [fmap option_fmap option_map].
      rewrite app_assoc. replace 24 with (zlen (discover_header ++ pad)) by (by rewrite zlen_app, discover_header_len, Hpad).
      rewrite (range_server _ _ s) by done. f_equal. apply decode_server_bytes. by eapply Forall_lookup_1.
    + rewrite lookup_seq_ge; [done|]. by apply lookup_ge_None.
Qed.

End discovery.


(** A filter returns the addresses it was made of; more than eight panic. *)
Lemma ip_filter_roundtrip f ips :
  (r ← Some (ip_filter_new f ips); match r with Ret x => Some (ip_filter_list x) | _ => None end) =
  if zlen ips <=? 8 then Some (Ret ips) else None.
Proof.
  unfold ip_filter_new. destruct (Z.leb_spec (zlen ips) 8) as [Hl|Hl]; cbn [assert_ obind mbind option_bind]; [|done].
  unfold ip_filter_list. cbn [filter_ip_list filter_ip_cnt]. pose proof (zlen_nonneg ips).
  rewrite wrap_small by (unfold in_width; lia). rewrite slice_ok by (rewrite ?zlen_app; unfold zlen in *; lia).
  unfold zlen. by rewrite Z.sub_0_r, Nat2Z.id, drop_0, take_app_length.
Qed.
