(* ===== verification/Gop.v ===== *)
(** * Graphics output

    [uefi/src/proto/console/gop.rs]: the video modes and their iterator, block
    transfers with their bounds checks, and the frame buffer.  A pixel is its four
    bytes; coordinates are pairs; the memory of the frame buffer is part of the
    state of the firmware. *)
From S2P Require Import Prelude Firmware Status BootMemory.

Record GraphicsOutputModeInformation : Set := mkModeInformation {
  version : Z;
  horizontal_resolution : Z;
  vertical_resolution : Z;
  pixel_format_raw : Z;
  pixel_information : Z * Z * Z * Z;
  pixels_per_scan_line : Z;
}.

Record GraphicsOutputProtocolMode : Set := mkProtocolMode {
  max_mode : Z;
  current_mode : Z;
  mode_info : GraphicsOutputModeInformation;
  frame_buffer_base : Z;
  frame_buffer_size : Z;
}.

(** ** [ModeInfo] *)

Inductive PixelFormat : Set := Rgb | Bgr | Bitmask | BltOnly.

#[export] Instance PixelFormat_eq_dec : EqDecision PixelFormat.
Proof. solve_decision. Defined.

(** [usize_from_u32] is the identity on a 64-bit target. *)
Definition resolution (self : GraphicsOutputModeInformation) : Z * Z :=
  (horizontal_resolution self, vertical_resolution self).

Definition pixel_format (self : GraphicsOutputModeInformation) : outcome PixelFormat :=
  if pixel_format_raw self =? 0 then Ret Rgb
  else if pixel_format_raw self =? 1 then Ret Bgr
  else if pixel_format_raw self =? 2 then Ret Bitmask
  else if pixel_format_raw self =? 3 then Ret BltOnly
  else Panic Explicit.

Definition pixel_bitmask (self : GraphicsOutputModeInformation) : outcome (option (Z * Z * Z * Z)) :=
  let! f := pixel_format self in
  Ret (match f with Bitmask => Some (pixel_information self) | _ => None end).

Definition stride (self : GraphicsOutputModeInformation) : Z := pixels_per_scan_line self.

Record Mode : Set := mkMode { index : Z; info_size : Z; info : GraphicsOutputModeInformation }.

(** ** Pixels *)

Record BltPixel : Set := mkPixel { blue : Z; green : Z; red : Z; _reserved : Z }.

Definition pixel_new (red green blue : Z) : BltPixel := mkPixel blue green red 0.

(** [From<u32>]. *)
Definition pixel_from (color : Z) : BltPixel :=
  mkPixel (Z.land color 0x0000ff) (Z.shiftr (Z.land color 0x00ff00) 8) (Z.shiftr (Z.land color 0xff0000) 16) 0.

Definition size_of_BltPixel : Z := 4.

(** ** Block transfers *)

Inductive BltRegion : Set :=
| Full
| SubRectangle (coords : Z * Z) (px_stride : Z).

Inductive BltOp : Set :=
| VideoFill (color : BltPixel) (dest dims : Z * Z)
| VideoToBltBuffer (buffer : list BltPixel) (src : Z * Z) (dest : BltRegion) (dims : Z * Z)
| BufferToVideo (buffer : list BltPixel) (src : BltRegion) (dest dims : Z * Z)
| VideoToVideo (src dest dims : Z * Z).

Module BltOperation.
Definition BLT_VIDEO_FILL : Z := 0.
Definition BLT_VIDEO_TO_BLT_BUFFER : Z := 1.
Definition BLT_BUFFER_TO_VIDEO : Z := 2.
Definition BLT_VIDEO_TO_VIDEO : Z := 3.
End BltOperation.

(** The arguments of the firmware's [Blt]: the pixels behind the buffer pointer,
    the operation, the source, the destination, the dimensions and the size of a row
    of the buffer in bytes. *)
Record BltCall : Set := mkBltCall {
  blt_buffer : list BltPixel;
  blt_operation : Z;
  source : Z * Z;
  destination : Z * Z;
  dimensions : Z * Z;
  delta : Z;
}.

Definition saturating_add (a b : Z) : Z := (a + b) `min` usize_MAX.
Definition saturating_mul (a b : Z) : Z := (a * b) `min` usize_MAX.

Definition check_framebuffer_region (info : GraphicsOutputModeInformation) (coords dims : Z * Z) : outcome unit :=
  let (width, height) := resolution info in
  let! _ := assert_ (saturating_add coords.1 dims.1 <=? width) in
  assert_ (saturating_add coords.2 dims.2 <=? height).

Definition check_blt_buffer_region (region : BltRegion) (dims : Z * Z) (buf_length : Z) : outcome unit :=
  match region with
  | Full => assert_ (saturating_mul dims.2 dims.1 <=? buf_length)
  | SubRectangle (x, y) px_stride =>
      let! _ := assert_ (saturating_add x dims.1 <=? px_stride) in
      assert_ (saturating_mul (saturating_add y dims.2) px_stride <=? buf_length)
  end.

Section blt.
Context `{Profile}.

(** The checks of [blt], and the call that it makes. *)
Definition blt_call (info : GraphicsOutputModeInformation) (op : BltOp) : outcome BltCall :=
  match op with
  | VideoFill color dest dims =>
      let! _ := check_framebuffer_region info dest dims in
      Ret (mkBltCall [color] BltOperation.BLT_VIDEO_FILL (0, 0) dest dims 0)
  | VideoToBltBuffer buffer src dest_region dims =>
      let! _ := check_framebuffer_region info src dims in
      let! _ := check_blt_buffer_region dest_region dims (zlen buffer) in
      match dest_region with
      | Full => Ret (mkBltCall buffer BltOperation.BLT_VIDEO_TO_BLT_BUFFER src (0, 0) dims 0)
      | SubRectangle dest px_stride =>
          let! delta := usize_mul px_stride size_of_BltPixel in
          Ret (mkBltCall buffer BltOperation.BLT_VIDEO_TO_BLT_BUFFER src dest dims delta)
      end
  | BufferToVideo buffer src_region dest dims =>
      let! _ := check_blt_buffer_region src_region dims (zlen buffer) in
      let! _ := check_framebuffer_region info dest dims in
      match src_region with
      | Full => Ret (mkBltCall buffer BltOperation.BLT_BUFFER_TO_VIDEO (0, 0) dest dims 0)
      | SubRectangle src px_stride =>
          let! delta := usize_mul px_stride size_of_BltPixel in
          Ret (mkBltCall buffer BltOperation.BLT_BUFFER_TO_VIDEO src dest dims delta)
      end
  | VideoToVideo src dest dims =>
      let! _ := check_framebuffer_region info src dims in
      let! _ := check_framebuffer_region info dest dims in
      Ret (mkBltCall [] BltOperation.BLT_VIDEO_TO_VIDEO src dest dims 0)
  end.
End blt.

(** ** The protocol *)

(** [efi_gop_query_mode] returns the size of the information and the address of the
    pool block that holds it, which [mode_info_at] reads; [efi_blt] returns the
    buffer. *)
Class GraphicsServices (W : Type) : Type := {
  gop_mode : W -> GraphicsOutputProtocolMode;
  efi_gop_query_mode : Z -> W -> (Z * Z * Z) * W;
  mode_info_at : Z -> W -> GraphicsOutputModeInformation;
  efi_gop_set_mode : Z -> W -> Z * W;
  efi_blt : BltCall -> W -> (Z * list BltPixel) * W;
  volatile_read : Z -> W -> Z;
  volatile_write : Z -> Z -> W -> W;
}.

Record FrameBuffer : Set := mkFrameBuffer { fb_base : Z; fb_size : Z }.

(** [ModeIter]. *)
Record ModeIter : Set := mkModeIter { current : Z; max : Z }.

Section gop.
Context `{Profile} {W : Type} `{!BootServices W, !GraphicsServices W}.

Definition current_mode_info : fw W GraphicsOutputModeInformation := call (fun w => (mode_info (gop_mode w), w)).

(** The status, and the buffer. *)
Definition blt (op : BltOp) : fw W (uresult unit unit * list BltPixel) :=
  info ← current_mode_info;
  c ← lift (blt_call info op);
  '(status, buffer) ← call (efi_blt c);
  r ← lift (to_result status);
  mret (r, buffer).

Definition query_mode (index : Z) : fw W (uresult Mode unit) :=
  '(status, info_sz, info_heap_ptr) ← call (efi_gop_query_mode index);
  try _ <- lift (to_result status);
  info ← call (fun w => (mode_info_at info_heap_ptr w, w));
  lift (if info_heap_ptr =? 0 then Panic UnwrapFailed else Ret tt);;
  r ← free_pool info_heap_ptr;
  lift (unwrap_result r);;
  mret (Ok (mkMode index info_sz info)).

Definition set_mode (mode : Mode) : fw W (uresult unit unit) :=
  status ← call (efi_gop_set_mode (index mode));
  lift (to_result status).

Definition modes : fw W ModeIter := call (fun w => (mkModeIter 0 (max_mode (gop_mode w)), w)).

(** [next] skips the modes whose query fails: at most [n] of them are left. *)
Fixpoint mode_next_from (n : nat) (self : ModeIter) : fw W (option Mode * ModeIter) :=
  let index := current self in
  match n with
  | O => mret (None, self)
  | S n =>
      if index <? max self then
        m ← query_mode index;
        c ← lift (arith 32 (current self + 1));
        let self := mkModeIter c (max self) in
        match m with
        | Ok m => mret (Some m, self)
        | Err _ => mode_next_from n self
        end
      else mret (None, self)
  end.

Definition mode_next (self : ModeIter) : fw W (option Mode * ModeIter) :=
  mode_next_from (S (Z.to_nat (max self - current self))) self.

(** [modes().collect()]. *)
Fixpoint mode_collect (fuel : nat) (self : ModeIter) : fw W (list Mode) :=
  match fuel with
  | O => lift NoFuel
  | S fuel =>
      '(m, self) ← mode_next self;
      match m with
      | None => mret []
      | Some m => rest ← mode_collect fuel self; mret (m :: rest)
      end
  end.

Definition size_hint (self : ModeIter) : Z * option Z := let size := max self - current self in (size, Some size).

Definition frame_buffer : fw W FrameBuffer :=
  info ← current_mode_info;
  f ← lift (pixel_format info);
  lift (assert_ (bool_decide (f <> BltOnly)));;
  call (fun w => (mkFrameBuffer (frame_buffer_base (gop_mode w)) (frame_buffer_size (gop_mode w)), w)).

(** [debug_assert!] is an assertion of the debug profile. *)
Definition debug_assert (b : bool) : outcome unit := if overflow_checks then assert_ b else Ret tt.

Definition write_byte (self : FrameBuffer) (index value : Z) : fw W unit :=
  lift (debug_assert (index <? fb_size self));;
  call (fun w => (tt, volatile_write (fb_base self + index) value w)).

Definition read_byte (self : FrameBuffer) (index : Z) : fw W Z :=
  lift (debug_assert (index <? fb_size self));;
  call (fun w => (volatile_read (fb_base self + index) w, w)).

(** A value is its bytes. *)
Definition write_value (self : FrameBuffer) (index : Z) (value : list Z) : fw W unit :=
  lift (debug_assert (saturating_add index (zlen value) <=? fb_size self));;
  call (fun w => (tt, foldl (fun w '(i, b) => volatile_write (fb_base self + index + Z.of_nat i) b w) w
    (zip (seq 0 (length value)) value))).

Definition read_value (self : FrameBuffer) (index size : Z) : fw W (list Z) :=
  lift (debug_assert (saturating_add index size <=? fb_size self));;
  call (fun w => (map (fun i => volatile_read (fb_base self + index + Z.of_nat i) w) (seq 0 (Z.to_nat size)), w)).
End gop.

(** ** Block transfers stay in bounds *)

(** The pixel of the buffer that the specification says is accessed for a pixel of
    the rectangle: a row of the buffer has [delta] bytes, or is as wide as the
    rectangle when [delta] is zero. *)
Definition buffer_access (c : BltCall) (col row : Z) : option Z :=
  let width := if delta c =? 0 then (dimensions c).1 else delta c / size_of_BltPixel in
  if blt_operation c =? BltOperation.BLT_VIDEO_FILL then Some 0
  else if blt_operation c =? BltOperation.BLT_VIDEO_TO_BLT_BUFFER then
    Some (((destination c).2 + row) * width + (destination c).1 + col)
  else if blt_operation c =? BltOperation.BLT_BUFFER_TO_VIDEO then
    Some (((source c).2 + row) * width + (source c).1 + col)
  else None.

Definition rect_inside (coords dims size : Z * Z) : Prop :=
  coords.1 + dims.1 <= size.1 /\ coords.2 + dims.2 <= size.2.

(** The rectangle is inside of the buffer, which has rows of [px_stride] pixels. *)
Definition region_inside (region : BltRegion) (dims : Z * Z) (len : Z) : Prop :=
  match region with
  | Full => dims.2 * dims.1 <= len
  | SubRectangle coords px_stride => coords.1 + dims.1 <= px_stride /\ (coords.2 + dims.2) * px_stride <= len
  end.

Definition op_dims (op : BltOp) : Z * Z :=
  match op with
  | VideoFill _ _ dims | VideoToBltBuffer _ _ _ dims | BufferToVideo _ _ _ dims | VideoToVideo _ _ dims => dims
  end.

Definition op_inside (info : GraphicsOutputModeInformation) (op : BltOp) : Prop :=
  match op with
  | VideoFill _ dest dims => rect_inside dest dims (resolution info)
  | VideoToBltBuffer buffer src dest dims =>
      rect_inside src dims (resolution info) /\ region_inside dest dims (zlen buffer)
  | BufferToVideo buffer src dest dims =>
      region_inside src dims (zlen buffer) /\ rect_inside dest dims (resolution info)
  | VideoToVideo src dest dims =>
      rect_inside src dims (resolution info) /\ rect_inside dest dims (resolution info)
  end.

(** The arguments are machine integers, and a buffer is an allocation. *)
Definition pair_usize (p : Z * Z) : Prop := in_width 64 p.1 /\ in_width 64 p.2.
Definition region_usize (r : BltRegion) : Prop :=
  match r with Full => True | SubRectangle coords px_stride => pair_usize coords /\ in_width 64 px_stride end.
Definition buffer_fits (b : list BltPixel) : Prop := zlen b * size_of_BltPixel <= isize_MAX.
Definition op_usize (op : BltOp) : Prop :=
  pair_usize (op_dims op) /\
  match op with
  | VideoFill _ dest _ => pair_usize dest
  | VideoToBltBuffer buffer src dest _ => buffer_fits buffer /\ pair_usize src /\ region_usize dest
  | BufferToVideo buffer src dest _ => buffer_fits buffer /\ region_usize src /\ pair_usize dest
  | VideoToVideo src dest _ => pair_usize src /\ pair_usize dest
  end.

Definition info_u32 (info : GraphicsOutputModeInformation) : Prop :=
  in_width 32 (horizontal_resolution info) /\ in_width 32 (vertical_resolution info).

Lemma assert_cases (b : bool) (P : Prop) : (b = true <-> P) -> (P -> assert_ b = Ret tt) /\ (~ P -> assert_ b = Panic AssertFailed).
Proof. intros Hb. destruct b; cbn; split; naive_solver. Qed.

Lemma check_framebuffer_cases info coords dims :
  info_u32 info ->
  (rect_inside coords dims (resolution info) -> check_framebuffer_region info coords dims = Ret tt) /\
  (~ rect_inside coords dims (resolution info) -> check_framebuffer_region info coords dims = Panic AssertFailed).
Proof.
  intros [[_ H1] [_ H2]]. unfold check_framebuffer_region, rect_inside, saturating_add, usize_MAX, resolution. cbn [fst snd].
  destruct (Z.leb_spec ((coords.1 + dims.1) `min` (2 ^ 64 - 1)) (horizontal_resolution info)) as [Ha|Ha]; cbn [assert_ obind];
    [|split; [lia|done]].
  destruct (Z.leb_spec ((coords.2 + dims.2) `min` (2 ^ 64 - 1)) (vertical_resolution info)) as [Hb|Hb]; cbn [assert_];
    split; first [done|lia].
Qed.

Lemma check_buffer_cases region dims len :
  region_usize region -> pair_usize dims -> 0 < dims.2 -> 0 <= len < 2 ^ 63 ->
  (region_inside region dims len -> check_blt_buffer_region region dims len = Ret tt) /\
  (~ region_inside region dims len -> check_blt_buffer_region region dims len = Panic AssertFailed).
Proof.
  intros Hr [[H1 _] [H2 _]] Hpos Hlen. unfold check_blt_buffer_region, region_inside, saturating_mul, saturating_add, usize_MAX.
  destruct region as [|[x y] s]; cbn [fst snd].
  - destruct (Z.leb_spec ((dims.2 * dims.1) `min` (2 ^ 64 - 1)) len); cbn; split; first [done|lia].
  - destruct Hr as [[[Hx _] [Hy Hy2]] Hs]. unfold in_width in *. cbn [fst snd] in *.
    destruct (Z.leb_spec ((x + dims.1) `min` (2 ^ 64 - 1)) s) as [Ha|Ha]; cbn [assert_ obind];
      [|split; [lia|done]].
    assert (0 <= (y + dims.2) * s) by nia.
    assert (((y + dims.2) `min` (2 ^ 64 - 1) * s) `min` (2 ^ 64 - 1) <= len <-> (y + dims.2) * s <= len) as Hmul.
    { destruct (Z.le_gt_cases (y + dims.2) (2 ^ 64 - 1)); [rewrite (Z.min_l (y + dims.2)) by lia; lia|].
      rewrite (Z.min_r (y + dims.2)) by lia. destruct (Z.eq_dec s 0) as [->|]; [lia|]. nia. }
    assert ((y + dims.2) * s <= len -> x + dims.1 <= s) as Hadd by nia.
    destruct (Z.leb_spec (((y + dims.2) `min` (2 ^ 64 - 1) * s) `min` (2 ^ 64 - 1)) len); cbn [assert_]; split; first [done|lia].
Qed.

(** A row of the buffer in bytes is a machine integer. *)
Lemma delta_runs `{Profile} coords s dims len :
  region_usize (SubRectangle coords s) -> pair_usize dims -> 0 < dims.2 -> len * size_of_BltPixel <= isize_MAX ->
  region_inside (SubRectangle coords s) dims len -> usize_mul s size_of_BltPixel = Ret (s * size_of_BltPixel).
Proof.
  intros [[[Hx _] [Hy _]] [Hs _]] _ Hpos Hlen [_ Hin]. apply usize_mul_ok; [done|done|].
  unfold size_of_BltPixel, isize_MAX in *. nia.
Qed.

Lemma access_sub y row s x col w len h :
  0 <= x -> 0 <= y -> 0 <= row < h -> 0 <= col < w -> x + w <= s -> (y + h) * s <= len ->
  0 <= (y + row) * s + x + col < len.
Proof. intros. nia. Qed.

Lemma access_full row col w h len : 0 <= row < h -> 0 <= col < w -> h * w <= len -> 0 <= row * w + col < len.
Proof. intros. nia. Qed.

(** The width of a row, as the firmware computes it. *)
Lemma access_row x y s dims len col row :
  0 <= x -> 0 <= y -> 0 <= col < dims.1 -> 0 <= row < dims.2 ->
  region_inside (SubRectangle (x, y) s) dims len ->
  0 <= (y + row) * (if s * size_of_BltPixel =? 0 then dims.1 else s * size_of_BltPixel / size_of_BltPixel) + x + col < len.
Proof.
  intros Hx Hy Hc Hr [Hin1 Hin2]. cbn in Hin1, Hin2. unfold size_of_BltPixel.
  rewrite (proj2 (Z.eqb_neq _ _)), Z.div_mul by lia. by eapply access_sub.
Qed.

(** Two checks in a row. *)
Lemma both_checks {A} (f g : outcome unit) (P Q : Prop) `{!Decision P} (k : unit -> outcome A) :
  (P -> f = Ret tt) /\ (~ P -> f = Panic AssertFailed) -> (Q -> g = Ret tt) /\ (~ Q -> g = Panic AssertFailed) ->
  (P /\ Q -> obind f (fun _ => obind g k) = k tt) /\ (~ (P /\ Q) -> obind f (fun _ => obind g k) = Panic AssertFailed).
Proof.
  intros [F1 F2] [G1 G2]. split.
  - intros [HP HQ]. by rewrite F1, G1.
  - intros Hn. destruct (decide P) as [HP|HP]; [rewrite F1 by done; cbn; rewrite G2; [done|tauto]|by rewrite F2].
Qed.

#[local] Instance rect_inside_dec c d sz : Decision (rect_inside c d sz).
Proof. unfold rect_inside. apply _. Defined.
#[local] Instance region_inside_dec r d n : Decision (region_inside r d n).
Proof. destruct r; cbn; apply _. Defined.


Definition screen_info : GraphicsOutputModeInformation := mkModeInformation 0 1024 768 1 (0, 0, 0, 0) 1024.

(** An empty transfer passes the checks with any stride, whose size in bytes then
    overflows. *)
Example blt_empty_overflows :
  op_inside screen_info (VideoToBltBuffer [] (0, 0) (SubRectangle (0, 0) (2 ^ 62)) (0, 0)) /\
  blt_call (H := debug_profile) screen_info (VideoToBltBuffer [] (0, 0) (SubRectangle (0, 0) (2 ^ 62)) (0, 0)) = Panic Overflow.
Proof. split; [repeat split; by vm_compute|by vm_compute]. Qed.

Definition white : BltPixel := pixel_new 255 255 255.


(** ** The iterator over the modes *)

(** What the specification documents of [QueryMode]: it succeeds for the supported
    modes, and hands out a pool block with the information. *)
Class ModeLaws (W : Type) `{!BootServices W, !Blocks W, !GraphicsServices W} : Type := {
  supported : Z -> option (Z * GraphicsOutputModeInformation);
  query_law : forall i w s sz p w', efi_gop_query_mode i w = ((s, sz, p), w') ->
    match supported i with
    | Some (n, x) => s = 0 /\ sz = n /\ p <> 0 /\ adds (Pool p sz) w w' /\ mode_info_at p w' = x
    | None => s <> 0 /\ same_blocks w w'
    end;
}.

Section mode_properties.
Context `{Profile} {W : Type} `{!BootServices W, !Blocks W, !MemoryLaws W, !GraphicsServices W, !ModeLaws W}.

Definition mode_at (i : Z) : option Mode := (fun p => mkMode i p.1 p.2) <$> supported i.

Lemma query_mode_runs i w :
  boot_active w = true ->
  runs (query_mode i) w (fun r w' => same_blocks w w' /\
    match mode_at i with Some m => r = Ok m | None => exists e, r = Err e end).
Proof.
  intros Hact. unfold query_mode, mode_at. repeat runs_step.
  destruct (efi_gop_query_mode i w) as [[[s sz] p] w1] eqn:E. pose proof (query_law _ _ _ _ _ _ E) as Hq. cbn [fst snd].
  runs_step. rewrite to_result_cases. eapply runs_lift; [done|]. destruct (supported i) as [[n x]|].
  - destruct Hq as (-> & -> & Hp & A & Hx). cbn [Z.eqb]. repeat runs_step. cbn [fst snd].
    rewrite (proj2 (Z.eqb_neq _ _)) by done. repeat runs_step.
    destruct (free_pool_runs p n w1) as (w2 & Ef & D); [by rewrite (proj2 A)|by eapply acquires_held, A|].
    eapply runs_eq; [exact Ef|]. cbn [unwrap_result]. repeat runs_step. split; [by eapply adds_drops|].
    cbn. by rewrite Hx.
  - destruct Hq as (Hs & Hk). rewrite (proj2 (Z.eqb_neq _ _)) by done. cbn. split; [done|eauto].
Qed.

(** The supported modes among the [n] from [c] on. *)
Fixpoint modes_from (n : nat) (c : Z) : list Mode :=
  match n with
  | O => []
  | S n => match mode_at c with Some m => m :: modes_from n (c + 1) | None => modes_from n (c + 1) end
  end.

Lemma mode_next_runs (n : nat) c mx w :
  boot_active w = true -> 0 <= c -> mx = c + Z.of_nat n -> mx < 2 ^ 32 ->
  runs (mode_next_from (S n) (mkModeIter c mx)) w (fun r w' => same_blocks w w' /\
    match r.1 with
    | Some m => exists k, r.2 = mkModeIter (mx - Z.of_nat k) mx /\ (k < n)%nat /\ modes_from n c = m :: modes_from k (mx - Z.of_nat k)
    | None => modes_from n c = []
    end).
Proof.
  revert c w. induction n as [|n IH]; intros c w Hact Hc Hmx Hmax; cbn [mode_next_from current max].
  { rewrite (proj2 (Z.ltb_ge _ _)) by lia. runs_step. by split. }
  rewrite (proj2 (Z.ltb_lt _ _)) by lia. runs_step.
  eapply runs_weaken; [by apply query_mode_runs|]. intros r w1 [S1 Hr]. runs_step.
  eapply runs_lift; [apply arith_ok; unfold in_width; lia|]. cbn [modes_from].
  destruct (mode_at c) as [m|] eqn:Em.
  - subst r. runs_step. split; [done|]. cbn [fst snd]. exists n. replace (mx - Z.of_nat n) with (c + 1) by lia.
    split; [done|]. split; [lia|done].
  - destruct Hr as [e ->]. eapply runs_weaken; [apply IH; [by rewrite (proj2 S1)|lia..]|].
    intros [o it] w2 [S2 Ho]. split; [by eapply same_trans|]. cbn [fst snd] in *. destruct o as [m|]; [|done].
    destruct Ho as (k & Hk & Hlt & E). exists k. split; [done|]. split; [lia|done].
Qed.

Lemma mode_collect_runs n c mx w fuel :
  boot_active w = true -> 0 <= c -> mx = c + Z.of_nat n -> mx < 2 ^ 32 -> (n < fuel)%nat ->
  runs (mode_collect fuel (mkModeIter c mx)) w (fun r w' => r = modes_from n c /\ same_blocks w w').
Proof.
  revert n c w. induction fuel as [|fuel IH]; intros n c w Hact Hc Hmx Hmax Hf; [lia|]. cbn [mode_collect].
  runs_step. unfold mode_next. cbn [max current]. replace (Z.to_nat (mx - c)) with n by lia.
  eapply runs_weaken; [by apply mode_next_runs|]. intros [[m|] it] w1 [S1 Hr]; cbn [fst snd] in Hr; cbv iota beta.
  - destruct Hr as (k & -> & Hk & ->). runs_step.
    eapply runs_weaken; [apply (IH k); [by rewrite (proj2 S1)|lia..]|]. intros r w2 [-> S2]. runs_step.
    split; [done|by eapply same_trans].
  - runs_step. by rewrite Hr.
Qed.

(** The iterator over the modes terminates, yields exactly the supported modes in
    order, and frees the memory that the firmware allocated for every query. *)
Theorem modes_complete (w : W) (fuel : nat) :
  boot_active w = true -> 0 <= max_mode (gop_mode w) < 2 ^ 32 -> max_mode (gop_mode w) < Z.of_nat fuel ->
  exists w', (it ← modes; mode_collect fuel it) w = Ret (modes_from (Z.to_nat (max_mode (gop_mode w))) 0, w') /\
    same_blocks w w'.
Proof.
  intros Hact Hmax Hf. unfold modes. rewrite fw_bind_call. cbn [fst snd].
  destruct (mode_collect_runs (Z.to_nat (max_mode (gop_mode w))) 0 (max_mode (gop_mode w)) w fuel) as (r & w' & E & -> & S);
    [done|lia..|]. eauto.
Qed.
End mode_properties.

(** ** A graphics card with the modes 0 and 2 *)
Module Card.
Definition modes (i : Z) : option (Z * GraphicsOutputModeInformation) :=
  if (i =? 0) || (i =? 2) then Some (36, mkModeInformation 0 (640 * (i + 1)) 480 1 (0, 0, 0, 0) 640) else None.

(** The block that holds the information of a mode is told by its contents. *)
#[global] Instance graphics : GraphicsServices machine := {|
  gop_mode _ := mkProtocolMode 3 0 screen_info 0x10000 4096;
  efi_gop_query_mode i w :=
    match modes i with
    | Some (n, _) => let a := PAGE_SIZE `max` Machine.next_page w in
        ((0, n, a), poke a i (Machine.set_pools w (insert a n)))
    | None => ((Status.INVALID_PARAMETER, 0, 0), w)
    end;
  mode_info_at p w := default screen_info (snd <$> modes (peek p w));
  efi_gop_set_mode _ w := (0, w);
  efi_blt c w := ((0, blt_buffer c), w);
  volatile_read _ _ := 0;
  volatile_write _ _ w := w;
|}.

#[global, refine] Instance laws : ModeLaws machine := {| supported := modes |}.
Proof.
  intros i w s sz p w'. cbn [efi_gop_query_mode graphics]. destruct (modes i) as [[n x]|] eqn:E; intros [= <- <- <- <-].
  - do 2 (split; [done|]). split; [unfold PAGE_SIZE; lia|]. split.
    + exact (adds_same _ _ _ _ (Machine.insert_pool_adds n w) (poke_blocks _ i _)).
    + change (default screen_info (snd <$> modes (peek (PAGE_SIZE `max` Machine.next_page w)
        (poke (PAGE_SIZE `max` Machine.next_page w) i (Machine.set_pools w (insert (PAGE_SIZE `max` Machine.next_page w) n))))) = x).
      by rewrite peek_poke, E.
  - done.
Defined.
End Card.

Lemma modes_complete_witness :
  exists w', (it ← modes; mode_collect (H := debug_profile) 4 it) Machine.initial =
    Ret ([mkMode 0 36 (mkModeInformation 0 640 480 1 (0, 0, 0, 0) 640);
          mkMode 2 36 (mkModeInformation 0 1920 480 1 (0, 0, 0, 0) 640)], w') /\ same_blocks Machine.initial w'.
Proof.
  destruct (modes_complete (H := debug_profile) (W := machine) Machine.initial 4) as (w' & E & S); [reflexivity|done|by vm_compute|].
  exists w'. split; [rewrite E; reflexivity|exact S].
Defined.
