(* ===== verification/Console.v ===== *)
(** * Text consoles, serial ports and pointers

    [uefi/src/proto/console/text/{output,input}.rs], [serial.rs] and
    [pointer/mod.rs].  The encoder of the crate [ucs2], which writes a Rust string
    to the console one code unit at a time, is a parameter: [ucs2_encode s] is the
    units that it hands out before it stops, and whether it reached the end of the
    string. *)
From S2P Require Import Prelude Firmware Chars Strs Status LoadedImage.

Record SimpleTextOutputMode : Set := mkOutputModeData {
  out_max_mode : Z; out_mode : Z; out_attribute : Z;
  out_cursor_column : Z; out_cursor_row : Z; out_cursor_visible : Z;
}.

Record SerialIoMode : Set := mkIoMode {
  control_mask : Z; timeout : Z; baud_rate : Z; receive_fifo_depth : Z;
  data_bits : Z; parity : Z; stop_bits : Z;
}.

Record InputKey : Set := mkInputKey { scan_code : Z; unicode_char : Z }.

Record PointerState : Set := mkPointerState { relative_movement : list Z; button : list bool }.
Record PointerMode : Set := mkPointerMode { pointer_resolution : list Z; has_button : list bool }.

(** ** The firmware *)
Class ConsoleServices (W : Type) : Type := {
  output_data : W -> SimpleTextOutputMode;
  efi_output_reset : bool -> W -> Z * W;
  efi_clear_screen : W -> Z * W;
  efi_output_string : list Z -> W -> Z * W;
  efi_test_string : list Z -> W -> Z * W;
  efi_output_query_mode : Z -> W -> (Z * Z * Z) * W;
  efi_output_set_mode : Z -> W -> Z * W;
  efi_enable_cursor : bool -> W -> Z * W;
  efi_set_cursor_position : Z -> Z -> W -> Z * W;
  efi_set_attribute : Z -> W -> Z * W;
  efi_input_reset : bool -> W -> Z * W;
  efi_read_key_stroke : W -> (Z * InputKey) * W;
  wait_for_key : W -> Z;
  serial_mode : W -> SerialIoMode;
  efi_serial_reset : W -> Z * W;
  efi_set_attributes : SerialIoMode -> W -> Z * W;
  efi_get_control_bits : W -> (Z * Z) * W;
  efi_set_control_bits : Z -> W -> Z * W;
  efi_serial_read : Z -> W -> (Z * Z * list Z) * W;
  efi_serial_write : list Z -> W -> (Z * Z) * W;
  efi_pointer_reset : bool -> W -> Z * W;
  efi_get_state : W -> (Z * PointerState) * W;
  wait_for_input : W -> Z;
  pointer_mode : W -> PointerMode;
}.

Record OutputMode : Set := mkOutputMode { mode_index : Z; dims : Z * Z }.
Definition columns (self : OutputMode) : Z := (dims self).1.
Definition rows (self : OutputMode) : Z := (dims self).2.

Inductive Color : Set :=
| Black | Blue | Green | Cyan | Red | Magenta | Brown | LightGray
| DarkGray | LightBlue | LightGreen | LightCyan | LightRed | LightMagenta | Yellow | White.

(** [color as usize]. *)
Definition color_code (c : Color) : Z :=
  match c with
  | Black => 0 | Blue => 1 | Green => 2 | Cyan => 3 | Red => 4 | Magenta => 5 | Brown => 6 | LightGray => 7
  | DarkGray => 8 | LightBlue => 9 | LightGreen => 10 | LightCyan => 11 | LightRed => 12 | LightMagenta => 13
  | Yellow => 14 | White => 15
  end.

Record OutputModeIter : Set := mkOutputModeIter { it_current : Z; it_max : Z }.

Inductive Key : Set := Printable (c : Z) | Special (scan : Z).

Definition ScanCode_NULL : Z := 0.

(** [From<InputKey> for Key]. *)
Definition key_from (k : InputKey) : outcome Key :=
  if scan_code k =? ScanCode_NULL then
    match char16_try_from_u16 (unicode_char k) with
    | Ok c => Ret (Printable c)
    | Err _ => Panic UnwrapFailed
    end
  else Ret (Special (scan_code k)).

Section console.
Context {W : Type} `{!ConsoleServices W}.

(** ** [Output] *)

Definition output_reset (extended : bool) : fw W (uresult unit unit) :=
  status ← call (efi_output_reset extended); lift (to_result status).

Definition clear : fw W (uresult unit unit) :=
  status ← call efi_clear_screen; lift (to_result status).

Definition output_string (string : list Z) : fw W (uresult unit unit) :=
  status ← call (efi_output_string string); lift (to_result status).

Definition output_string_lossy (string : list Z) : fw W (uresult unit unit) :=
  r ← output_string string;
  mret (handle_warning r (fun err =>
    if err_status err =? Status.WARN_UNKNOWN_GLYPH then Ok tt else Err err)).

Definition test_string (string : list Z) : fw W (uresult bool unit) :=
  status ← call (efi_test_string string);
  if status =? Status.UNSUPPORTED then mret (Ok false) else lift (to_result_with_val status true).

Definition output_modes : fw W OutputModeIter :=
  call (fun w => (mkOutputModeIter 0 (wrap usize_bits (out_max_mode (output_data w))), w)).

Definition output_query_mode (index : Z) : fw W (uresult (Z * Z) unit) :=
  '(status, columns, rows) ← call (efi_output_query_mode index);
  lift (to_result_with_val status (columns, rows)).

Definition current_mode : fw W (uresult (option OutputMode) unit) :=
  mode ← call (fun w => (out_mode (output_data w), w));
  if mode =? -1 then mret (Ok None)
  else if 0 <=? mode then
    try dims <- output_query_mode mode;
    mret (Ok (Some (mkOutputMode mode dims)))
  else lift (Panic Explicit).

Definition output_set_mode (mode : OutputMode) : fw W (uresult unit unit) :=
  status ← call (efi_output_set_mode (mode_index mode)); lift (to_result status).

Definition cursor_visible : fw W bool := call (fun w => (negb (out_cursor_visible (output_data w) =? 0), w)).

Definition enable_cursor (visible : bool) : fw W (uresult unit unit) :=
  status ← call (efi_enable_cursor visible); lift (to_result status).

(** [i32 as usize] extends the sign. *)
Definition cursor_position : fw W (Z * Z) :=
  call (fun w => ((wrap usize_bits (out_cursor_column (output_data w)), wrap usize_bits (out_cursor_row (output_data w))), w)).

Definition set_cursor_position (column row : Z) : fw W (uresult unit unit) :=
  status ← call (efi_set_cursor_position column row); lift (to_result status).

Definition set_color (foreground background : Color) : fw W (uresult unit unit) :=
  let fgc := color_code foreground in
  let bgc := color_code background in
  lift (assert_ (bgc <? 8));;
  let attr := Z.lor (Z.shiftl (Z.land bgc 7) 4) (Z.land fgc 0xF) in
  status ← call (efi_set_attribute attr);
  lift (to_result status).

(** [OutputModeIter::next]: modes whose query fails are skipped. *)
Fixpoint output_mode_next_from (n : nat) (self : OutputModeIter) : fw W (option OutputMode * OutputModeIter) :=
  let index := it_current self in
  match n with
  | O => mret (None, self)
  | S n =>
      if index <? it_max self then
        let self := mkOutputModeIter (index + 1) (it_max self) in
        r ← output_query_mode index;
        match r with
        | Ok dims => mret (Some (mkOutputMode index dims), self)
        | Err _ => output_mode_next_from n self
        end
      else mret (None, self)
  end.

Definition output_mode_next (self : OutputModeIter) : fw W (option OutputMode * OutputModeIter) :=
  output_mode_next_from (S (Z.to_nat (it_max self - it_current self))) self.

(** ** [fmt::Write for Output] *)

Definition BUF_SIZE : nat := 128.
Definition CR : Z := 0x0d.
Definition LF : Z := 0x0a.

(** [buf[i] = v]. *)
Definition set_at (buf : list Z) (i : nat) (v : Z) : outcome (list Z) :=
  if (i <? length buf)%nat then Ret (<[i := v]> buf) else Panic OutOfBounds.

(** The buffer, and the number of units in it. *)
Definition wbuf : Type := list Z * nat.

Definition flush_buffer (st : wbuf) : fw W (result unit unit * wbuf) :=
  let (buf, i) := st in
  buf ← lift (set_at buf i 0);
  codes ← lift (slice buf 0 (Z.of_nat i + 1));
  match cstr16_from_u16_with_nul codes with
  | Err _ => mret (Err tt, (buf, 0%nat))
  | Ok text =>
      r ← output_string text;
      mret (map_err (fun _ => tt) r, (buf, 0%nat))
  end.

Definition add_char (ch : Z) (st : wbuf) : fw W (result unit unit * wbuf) :=
  let (buf, i) := st in
  buf ← lift (set_at buf i ch);
  let i := (i + 1)%nat in
  if (i =? BUF_SIZE)%nat then flush_buffer (buf, i) else mret (Ok tt, (buf, i)).

Definition add_ch (ch : Z) (st : wbuf) : fw W (result unit unit * wbuf) :=
  if ch =? LF then
    '(r, st) ← add_char CR st;
    match r with Err e => mret (Err e, st) | Ok _ => add_char ch st end
  else add_char ch st.

Context (ucs2_encode : list Z -> list Z * bool).

(** The units are handed out until the closure fails. *)
Fixpoint feed (units : list Z) (st : wbuf) : fw W (result unit unit * wbuf) :=
  match units with
  | [] => mret (Ok tt, st)
  | u :: units =>
      '(r, st) ← add_ch u st;
      match r with Err e => mret (Err e, st) | Ok _ => feed units st end
  end.

(** [ucs2::encode_with]. *)
Definition encode_with (s : list Z) (st : wbuf) : fw W (result unit unit * wbuf) :=
  let (units, complete) := ucs2_encode s in
  '(r, st) ← feed units st;
  match r with
  | Err e => mret (Err e, st)
  | Ok _ => mret (if complete : bool then Ok tt else Err tt, st)
  end.

Definition write_str (s : list Z) : fw W (result unit unit) :=
  '(r, st) ← encode_with s (replicate (BUF_SIZE + 1) 0, 0%nat);
  match r with
  | Err e => mret (Err e)
  | Ok _ => '(r, _) ← flush_buffer st; mret r
  end.

(** ** [Input] *)

Definition input_reset (extended_verification : bool) : fw W (uresult unit unit) :=
  status ← call (efi_input_reset extended_verification); lift (to_result status).

Definition read_key : fw W (uresult (option Key) unit) :=
  '(status, key) ← call efi_read_key_stroke;
  if status =? Status.NOT_READY then mret (Ok None)
  else
    try _ <- lift (to_result status);
    k ← lift (key_from key);
    mret (Ok (Some k)).

Definition wait_for_key_event : fw W (option Z) := call (fun w => (handle_from_ptr (wait_for_key w), w)).

(** ** [Serial] *)

Definition serial_reset : fw W (uresult unit unit) :=
  status ← call efi_serial_reset; lift (to_result status).

Definition io_mode : fw W SerialIoMode := call (fun w => (serial_mode w, w)).

(** [data_bits as u8] truncates. *)
Definition set_attributes (mode : SerialIoMode) : fw W (uresult unit unit) :=
  status ← call (efi_set_attributes (mkIoMode (control_mask mode) (timeout mode) (baud_rate mode)
    (receive_fifo_depth mode) (wrap u8_bits (data_bits mode)) (parity mode) (stop_bits mode)));
  lift (to_result status).

Definition get_control_bits : fw W (uresult Z unit) :=
  '(status, bits) ← call efi_get_control_bits; lift (to_result_with_val status bits).

Definition set_control_bits (bits : Z) : fw W (uresult unit unit) :=
  status ← call (efi_set_control_bits bits); lift (to_result status).

(** The result, and the data. *)
Definition serial_read `{Profile} (data : list Z) : fw W (uresult unit Z * list Z) :=
  '(status, buffer_size, out) ← call (efi_serial_read (zlen data));
  data ← lift (write_raw data 0 out);
  lift (if Status.is_success status && overflow_checks then assert_ (buffer_size =? zlen data) else Ret tt);;
  r ← lift (to_result_with status tt (fun _ => buffer_size));
  mret (r, data).

Definition serial_write `{Profile} (data : list Z) : fw W (uresult unit Z) :=
  '(status, buffer_size) ← call (efi_serial_write data);
  lift (if Status.is_success status && overflow_checks then assert_ (buffer_size =? zlen data) else Ret tt);;
  lift (to_result_with status tt (fun _ => buffer_size)).

(** [fmt::Write for Serial]. *)
Definition serial_write_str `{Profile} (s : list Z) : fw W (result unit unit) :=
  r ← serial_write (utf8_encode s);
  mret (map_err (fun _ => tt) r).

(** ** [Pointer] *)

Definition pointer_reset (extended_verification : bool) : fw W (uresult unit unit) :=
  status ← call (efi_pointer_reset extended_verification); lift (to_result status).

Definition read_state : fw W (uresult (option PointerState) unit) :=
  '(status, state) ← call efi_get_state;
  if status =? Status.NOT_READY then mret (Ok None)
  else lift (to_result_with_val status (Some state)).

Definition wait_for_input_event : fw W (option Z) := call (fun w => (handle_from_ptr (wait_for_input w), w)).
Definition pointer_get_mode : fw W PointerMode := call (fun w => (pointer_mode w, w)).
End console.

(** ** A string reaches the console *)

(** A line feed is preceded by a carriage return. *)
Definition crlf (s : list Z) : list Z := concat (map (fun c => if c =? LF then [CR; LF] else [c]) s).

(** What the specification documents of [OutputString]: [printed] are the strings
    that were printed; a failure prints nothing. *)
Class PrinterLaws (W : Type) `{!ConsoleServices W} : Type := {
  printed : W -> list (list Z);
  print_law : forall t w s w', cstr16_wf t -> efi_output_string t w = (s, w') ->
    printed w' = printed w ++ (if s =? 0 then [t] else []);
}.

Section write_properties.
Context {W : Type} `{!ConsoleServices W, !PrinterLaws W}.

(** [prints w w' cs]: the text [cs] was printed in well-formed pieces that fit in
    the buffer. *)
Definition prints (w w' : W) (cs : list Z) : Prop :=
  exists pieces, printed w' = printed w ++ pieces /\ concat (map body pieces) = cs /\
    Forall (fun t => cstr16_wf t /\ (length t <= BUF_SIZE + 1)%nat) pieces.

Lemma prints_refl w : prints w w [].
Proof. exists []. by rewrite app_nil_r. Qed.

Lemma prints_trans w w1 w2 cs ds : prints w w1 cs -> prints w1 w2 ds -> prints w w2 (cs ++ ds).
Proof.
  intros (p & E1 & <- & F1) (q & E2 & <- & F2). exists (p ++ q). rewrite E2, E1, map_app, concat_app, app_assoc.
  split; [done|]. split; [done|]. by apply Forall_app.
Qed.

(** The units in the buffer. *)
Definition pending (st : wbuf) : list Z := take st.2 st.1.

Definition buffer_ok (st : wbuf) : Prop :=
  length st.1 = (BUF_SIZE + 1)%nat /\ Forall body_char (pending st).

(** The console refuses a string. *)
Definition refuses : Prop := exists t w s w', cstr16_wf t /\ efi_output_string t w = (s, w') /\ s <> 0.

(** What a step of the writer prints; after a failure a part of it. *)
Definition writes (todo : list Z) (w : W) (r : result unit unit * wbuf) (w' : W) : Prop :=
  match r.1 with
  | Ok _ => buffer_ok r.2 /\ (r.2.2 < BUF_SIZE)%nat /\ exists out, prints w w' out /\ out ++ pending r.2 = todo
  | Err _ => refuses /\ exists out rest, prints w w' out /\ todo = out ++ rest
  end.

Lemma take_insert_last (buf : list Z) i v : (i < length buf)%nat -> take (S i) (<[i := v]> buf) = take i buf ++ [v].
Proof.
  intros Hi. rewrite (take_S_r _ i v) by by rewrite list_lookup_insert_eq. by rewrite take_insert_ge.
Qed.

Lemma flush_runs st w :
  buffer_ok st -> (st.2 <= BUF_SIZE)%nat ->
  runs (flush_buffer st) w (fun r w' => writes (pending st) w r w' /\ r.2.2 = 0%nat).
Proof.
  destruct st as [buf i]. intros [Hl Hb] Hi. cbn [fst snd] in *. unfold flush_buffer, set_at.
  rewrite (proj2 (Nat.ltb_lt _ _)) by lia. repeat runs_step.
  eapply runs_lift; [apply slice_ok; [lia|unfold zlen; rewrite length_insert; lia]|].
  replace (Z.to_nat (Z.of_nat i + 1 - 0)) with (S i) by lia. rewrite drop_0, take_insert_last by lia.
  change (take i buf) with (pending (buf, i)). set (p := pending (buf, i)) in *.
  rewrite from_u16_with_nul_ok by done. unfold output_string. repeat runs_step.
  assert (cstr16_wf (p ++ [0])) as Hwf by (by exists p).
  destruct (efi_output_string (p ++ [0]) w) as [s w'] eqn:E. pose proof (print_law _ _ _ _ Hwf E) as Hp. cbn [fst snd].
  rewrite to_result_cases. runs_step. runs_step. split; [|done]. unfold writes. destruct (Z.eqb_spec s 0) as [|Hs]; cbn [map_err fst snd].
  - split; [split; [cbn [fst]; by rewrite length_insert|constructor]|]. split; [unfold BUF_SIZE; lia|].
    exists p. split; [|apply app_nil_r]. exists [p ++ [0]]. split; [done|]. cbn. unfold body.
    rewrite removelast_last, app_nil_r. split; [done|]. constructor; [|constructor]. split; [done|].
    rewrite length_app. unfold p, pending, BUF_SIZE in *. cbn [fst snd length]. rewrite length_take. lia.
  - split; [by exists (p ++ [0]), w, s, w'|]. exists [], p. split; [|done]. exists []. by rewrite Hp.
Qed.

Lemma add_char_runs ch st w :
  buffer_ok st -> (st.2 < BUF_SIZE)%nat -> body_char ch ->
  runs (add_char ch st) w (writes (pending st ++ [ch]) w).
Proof.
  destruct st as [buf i]. intros [Hl Hb] Hi Hch. cbn [fst snd] in *. unfold add_char, set_at.
  rewrite (proj2 (Nat.ltb_lt _ _)) by lia. repeat runs_step.
  assert (pending (<[i := ch]> buf, (i + 1)%nat) = pending (buf, i) ++ [ch]) as Hp.
  { unfold pending. cbn [fst snd]. rewrite Nat.add_1_r. apply take_insert_last. lia. }
  assert (buffer_ok (<[i := ch]> buf, (i + 1)%nat)) as Hok.
  { split; [cbn [fst]; by rewrite length_insert|]. rewrite Hp. apply Forall_app. split; [done|by constructor]. }
  rewrite <- Hp. destruct (Nat.eqb_spec (i + 1) BUF_SIZE) as [He|Hne].
  { eapply runs_weaken; [apply flush_runs; [done|cbn; lia]|]. by intros r w' []. }
  runs_step. split; [done|]. split; [cbn; lia|]. exists []. split; [apply prints_refl|done].
Qed.

(** One step of the writer after another. *)
Lemma writes_bind (m : fw W (result unit unit * wbuf)) (k : wbuf -> fw W (result unit unit * wbuf)) a b w :
  runs m w (writes a w) ->
  (forall st w1, buffer_ok st -> (st.2 < BUF_SIZE)%nat -> runs (k st) w1 (writes (pending st ++ b) w1)) ->
  runs ('(r, st) ← m; match r with Err e => mret (Err e, st) | Ok _ => k st end) w (writes (a ++ b) w).
Proof.
  intros Hm Hk. runs_step. eapply runs_weaken; [exact Hm|]. intros [[[]|[]] st] w1 Hw; unfold writes in Hw; cbn [fst snd] in Hw.
  - destruct Hw as (Hok & Hlt & out & Hp & <-). eapply runs_weaken; [by apply Hk|].
    intros [[[]|[]] st2] w2 Hw2; unfold writes in *; cbn [fst snd] in *.
    + destruct Hw2 as (Hok2 & Hlt2 & out2 & Hp2 & E). split; [done|]. split; [done|].
      exists (out ++ out2). split; [by eapply prints_trans|]. by rewrite <- !app_assoc, E.
    + destruct Hw2 as (Href & out2 & rest & Hp2 & E). split; [done|]. exists (out ++ out2), rest.
      split; [by eapply prints_trans|]. by rewrite <- !app_assoc, E.
  - destruct Hw as (Href & out & rest & Hp & ->). runs_step. split; [done|]. exists out, (rest ++ b). by rewrite app_assoc.
Qed.

Lemma add_ch_runs ch st w :
  buffer_ok st -> (st.2 < BUF_SIZE)%nat -> body_char ch ->
  runs (add_ch ch st) w (writes (pending st ++ (if ch =? LF then [CR; LF] else [ch])) w).
Proof.
  intros Hok Hi Hch. unfold add_ch. destruct (Z.eqb_spec ch LF) as [->|Hne]; [|by apply add_char_runs].
  change [CR; LF] with ([CR] ++ [LF]). rewrite app_assoc.
  apply (writes_bind (add_char CR st) (add_char LF)); [by apply add_char_runs|].
  intros st1 w1 Hok1 Hi1. by apply add_char_runs.
Qed.

Lemma feed_runs units st w :
  buffer_ok st -> (st.2 < BUF_SIZE)%nat -> Forall body_char units ->
  runs (feed units st) w (writes (pending st ++ crlf units) w).
Proof.
  intros Hok Hi Hu. revert st w Hok Hi. induction Hu as [|u units Hc _ IH]; intros st w Hok Hi; cbn [feed].
  - runs_step. split; [done|]. split; [done|]. exists []. split; [apply prints_refl|by rewrite app_nil_r].
  - unfold crlf. cbn [map concat]. fold (crlf units). rewrite app_assoc.
    apply (writes_bind (add_ch u st) (feed units)); [by apply add_ch_runs|]. intros st1 w1 Hok1 Hi1. by apply IH.
Qed.

(** What the crate documents: a string of UCS-2 characters is encoded unit by unit;
    the encoder stops at the first other character. *)
Context (ucs2_encode : list Z -> list Z * bool).
Hypothesis encode_bmp : forall s, Forall ucs2 s -> ucs2_encode s = (s, true).

Lemma console_write_str_runs (s : list Z) (w : W) :
  Forall body_char s ->
  runs (write_str ucs2_encode s) w (fun r w' =>
    exists out rest, prints w w' out /\ crlf s = out ++ rest /\ if is_ok r then rest = [] else refuses).
Proof.
  intros Hs. unfold write_str, encode_with. rewrite encode_bmp by (eapply Forall_impl; [exact Hs|]; by intros c []).
  apply runs_bind. apply runs_bind.
  assert (buffer_ok (replicate (BUF_SIZE + 1) 0, 0%nat)) as Hok by (split; [apply length_replicate|constructor]).
  eapply runs_weaken; [apply feed_runs; [exact Hok|unfold BUF_SIZE; cbn; lia|exact Hs]|].
  intros [[[]|[]] st] w1 Hw; unfold writes in Hw; cbn [fst snd] in Hw; runs_step.
  - destruct Hw as (Hok1 & Hi1 & out & Hp & E). runs_step. eapply runs_weaken; [apply flush_runs; [done|lia]|].
    intros [r [buf i]] w2 [Hw2 Hz]. runs_step. unfold writes in Hw2. cbn [fst snd] in *. subst i. destruct r as [[]|[]].
    + destruct Hw2 as (_ & _ & out2 & Hp2 & E2). exists (crlf s), []. rewrite app_nil_r in E2 |- *. split; [|done].
      cbn in E. rewrite <- E, <- E2. by eapply prints_trans.
    + destruct Hw2 as (Href & out2 & rest & Hp2 & E2). exists (out ++ out2), rest. split; [by eapply prints_trans|].
      split; [|done]. cbn in E. by rewrite <- E, E2, app_assoc.
  - destruct Hw as (Href & out & rest & Hp & E). runs_step. exists out, rest. split; [done|]. split; [done|]. done.
Qed.


(** Writing calls nothing but [OutputString]. *)
Lemma write_str_stable (R : relation W) `{!PreOrder R} (s : list Z) :
  (forall t w, R w (efi_output_string t w).2) -> stable R (write_str ucs2_encode s).
Proof.
  intros HR.
  assert (forall st, stable R (flush_buffer st)) as Hflush.
  { intros [buf i]. unfold flush_buffer, output_string. repeat stable_step. apply stable_call. apply HR. }
  assert (forall c st, stable R (add_char c st)) as Hchar.
  { intros c [buf i]. unfold add_char. repeat first [apply Hflush|stable_step]. }
  assert (forall us st, stable R (feed us st)) as Hfeed.
  { induction us as [|u us IH]; intros st; cbn [feed]; unfold add_ch; repeat first [apply Hchar|apply IH|stable_step]. }
  unfold write_str, encode_with. repeat first [apply Hfeed|apply Hflush|stable_step].
Qed.
End write_properties.

(** ** A console that shows everything *)
Module Screen.
Definition no_input : InputKey := mkInputKey 0 0x41.

(** The state is the list of strings that were printed. *)
#[global] Instance services : ConsoleServices (list (list Z)) := {|
  output_data _ := mkOutputModeData 1 0 7 0 0 1;
  efi_output_reset _ w := (0, w);
  efi_clear_screen w := (0, w);
  efi_output_string t w := (0, w ++ [t]);
  efi_test_string _ w := (0, w);
  efi_output_query_mode _ w := ((0, 80, 25), w);
  efi_output_set_mode _ w := (0, w);
  efi_enable_cursor _ w := (0, w);
  efi_set_cursor_position _ _ w := (0, w);
  efi_set_attribute _ w := (0, w);
  efi_input_reset _ w := (0, w);
  efi_read_key_stroke w := ((0, no_input), w);
  wait_for_key _ := 0;
  serial_mode _ := mkIoMode 0 0 0 0 0 0 0;
  efi_serial_reset w := (Status.UNSUPPORTED, w);
  efi_set_attributes _ w := (Status.UNSUPPORTED, w);
  efi_get_control_bits w := ((Status.UNSUPPORTED, 0), w);
  efi_set_control_bits _ w := (Status.UNSUPPORTED, w);
  efi_serial_read _ w := ((Status.UNSUPPORTED, 0, []), w);
  efi_serial_write _ w := ((Status.UNSUPPORTED, 0), w);
  efi_pointer_reset _ w := (Status.UNSUPPORTED, w);
  efi_get_state w := ((Status.UNSUPPORTED, mkPointerState [] []), w);
  wait_for_input _ := 0;
  pointer_mode _ := mkPointerMode [] [];
|}.

#[global, refine] Instance laws : PrinterLaws (list (list Z)) := {| printed w := w |}.
Proof. intros t w s w' _ [= <- <-]. done. Defined.

(** An encoder for strings of UCS-2 characters. *)
Definition encode (s : list Z) : list Z * bool :=
  let units := take_while (fun c => bool_decide (ucs2 c)) s in (units, (length units =? length s)%nat).

Lemma encode_ok s : Forall ucs2 s -> encode s = (s, true).
Proof.
  intros Hs. unfold encode. rewrite take_while_all, Nat.eqb_refl; [done|].
  eapply Forall_impl; [exact Hs|]. intros c Hc. by apply bool_decide_eq_true_2.
Qed.
End Screen.

