(* ===== verification/Inert.v ===== *)
(** * Services of a machine that does nothing

    The machines on which theorems are tried implement the few services that matter;
    these definitions fill in the others: every call fails with [UNSUPPORTED] and
    leaves the machine as it is. *)
From S2P Require Import Prelude Firmware Status MemoryMap BootMemory BootProtocols BootEvents Console.

Section inert.
Context {W : Type}.
Abbreviation no w := (Status.UNSUPPORTED, w).

Definition inert_boot (active : W -> bool) : BootServices W := {|
  boot_active := active;
  efi_allocate_pages _ _ _ _ w := ((Status.UNSUPPORTED, 0), w);
  efi_free_pages _ _ w := no w;
  efi_allocate_pool _ _ w := ((Status.UNSUPPORTED, 0), w);
  efi_free_pool _ w := no w;
  efi_get_memory_map _ w := ((Status.UNSUPPORTED, mkMemoryMapMeta 0 0 0 0, []), w);
  peek _ _ := 0;
  poke _ _ w := w;
  contents _ _ _ := [];
  memory_type_cell _ := 0;
  set_memory_type_cell _ w := w;
|}.

(** With the memory behind a pointer and the search for the handles of a protocol. *)
Definition inert_protocols_with (memory : Z -> W -> list Z) (locate : Z -> W -> (Z * Z * Z) * W)
    (open : Z -> Z -> Z -> W -> (Z * Z) * W) (close : Z -> Z -> W -> Z * W) : ProtocolServices W := {|
  image_handle_cell _ := 1;
  set_image_handle_cell _ w := w;
  memory_at := memory;
  efi_open_protocol h g _ _ a w := open h g a w;
  efi_close_protocol h g _ _ w := close h g w;
  efi_locate_handle _ _ _ _ w := ((Status.UNSUPPORTED, 0, []), w);
  efi_locate_handle_buffer _ g _ w := locate g w;
  efi_protocols_per_handle _ w := ((Status.UNSUPPORTED, 0, 0), w);
  efi_locate_device_path _ _ w := ((Status.UNSUPPORTED, 0, 0), w);
  efi_install_protocol_interface _ _ _ _ w := ((Status.UNSUPPORTED, 0), w);
  efi_reinstall_protocol_interface _ _ _ _ w := no w;
  efi_uninstall_protocol_interface _ _ _ w := no w;
  efi_register_protocol_notify _ _ w := ((Status.UNSUPPORTED, 0), w);
  efi_connect_controller _ _ _ _ w := no w;
  efi_disconnect_controller _ _ _ w := no w;
|}.

Definition inert_protocols := inert_protocols_with (fun _ _ => []) (fun _ w => ((Status.UNSUPPORTED, 0, 0), w)).

Definition inert_events (stall : Z -> W -> Z * W) : EventServices W := {|
  bt_revision _ := 0;
  efi_raise_tpl _ w := (4, w);
  efi_restore_tpl _ w := w;
  efi_create_event _ _ _ _ w := ((Status.UNSUPPORTED, 0), w);
  efi_create_event_ex _ _ _ _ _ w := ((Status.UNSUPPORTED, 0), w);
  efi_check_event _ w := no w;
  efi_signal_event _ w := no w;
  efi_close_event _ w := no w;
  efi_set_timer _ _ _ w := no w;
  efi_wait_for_event _ w := ((Status.UNSUPPORTED, 0), w);
  efi_load_image _ _ _ _ _ w := ((Status.UNSUPPORTED, 0), w);
  efi_unload_image _ w := no w;
  efi_start_image _ w := no w;
  efi_install_configuration_table _ _ w := no w;
  efi_set_watchdog_timer _ _ _ _ w := no w;
  efi_stall := stall;
  efi_calculate_crc32 _ w := ((Status.UNSUPPORTED, 0), w);
|}.

Definition inert_console (output : list Z -> W -> Z * W) : ConsoleServices W := {|
  output_data _ := mkOutputModeData 1 0 7 0 0 1;
  efi_output_reset _ w := no w;
  efi_clear_screen w := no w;
  efi_output_string := output;
  efi_test_string _ w := no w;
  efi_output_query_mode _ w := ((Status.UNSUPPORTED, 0, 0), w);
  efi_output_set_mode _ w := no w;
  efi_enable_cursor _ w := no w;
  efi_set_cursor_position _ _ w := no w;
  efi_set_attribute _ w := no w;
  efi_input_reset _ w := no w;
  efi_read_key_stroke w := ((Status.UNSUPPORTED, mkInputKey 0 0), w);
  wait_for_key _ := 0;
  serial_mode _ := mkIoMode 0 0 0 0 0 0 0;
  efi_serial_reset w := no w;
  efi_set_attributes _ w := no w;
  efi_get_control_bits w := ((Status.UNSUPPORTED, 0), w);
  efi_set_control_bits _ w := no w;
  efi_serial_read _ w := ((Status.UNSUPPORTED, 0, []), w);
  efi_serial_write _ w := ((Status.UNSUPPORTED, 0), w);
  efi_pointer_reset _ w := no w;
  efi_get_state w := ((Status.UNSUPPORTED, mkPointerState [] []), w);
  wait_for_input _ := 0;
  pointer_mode _ := mkPointerMode [] [];
|}.
End inert.
