(* ===== verification/ComponentName.v ===== *)
(** * Names of drivers

    [uefi/src/proto/driver/component_name.rs]: the list of languages that a driver
    supports, and the names of the driver and its controllers in a language.  Both
    revisions of the protocol have the same layout; they differ in how the list of
    languages is written.  [find_driver] is the search of
    [uefi-test-runner/src/proto/driver.rs].

    A [str] is the list of its characters; the memory behind the pointer to the
    languages is a list of bytes. *)
From S2P Require Import Prelude Firmware Chars Strs Text Status BootMemory LoadedImage BootProtocols.

Definition ComponentName1_P : ProtocolPointer := sized_protocol 0x107a772cd5e111d49a460090273fc14d.
Definition ComponentName2_P : ProtocolPointer := sized_protocol 0x6a7a5cffe8d94f70bada75ab3025ce14.

(** ** The list of languages *)

Inductive LanguageError : Set := Ascii (index : Z).

Inductive LanguageIterKind : Set := V1 | V2.

Record LanguageIter : Set := mkLanguageIter { languages : list Z; kind : LanguageIterKind }.

Section language_iter.
Context `{Profile}.

(** The loop of [LanguageIter::new]: the length of the list, which ends at the NUL.
    Every iteration reads one more byte of the memory. *)
Fixpoint language_length (fuel : nat) (mem : list Z) (index : Z) : outcome (result Z LanguageError) :=
  match fuel with
  | O => NoFuel
  | S fuel =>
      let! b := read_raw mem index 1 in
      let c := le_val b in
      if c =? 0 then Ret (Ok index)
      else if negb (c <? 128) then Ret (Err (Ascii index))
      else let! index := usize_add index 1 in language_length fuel mem index
  end.

Definition language_iter_new (mem : list Z) (kind : LanguageIterKind) : outcome (result LanguageIter LanguageError) :=
  let! r := language_length (S (length mem)) mem 0 in
  match r with
  | Err e => Ret (Err e)
  | Ok index => let! languages := read_raw mem 0 index in Ret (Ok (mkLanguageIter languages kind))
  end.

Definition language_next (self : LanguageIter) : outcome (option (list Z) * LanguageIter) :=
  match languages self with
  | [] => Ret (None, self)
  | _ =>
      let l := languages self in
      let! (lang, rest) :=
        match kind self with
        | V1 =>
            if zlen l <=? 3 then Ret (l, [])
            else let! lang := slice l 0 3 in let! rest := slice l 3 (zlen l) in Ret (lang, rest)
        | V2 =>
            match position (fun c => c =? 59) l with
            | Some index =>
                let! lang := slice l 0 (Z.of_nat index) in
                let! start := usize_add (Z.of_nat index) 1 in
                let! rest := slice l start (zlen l) in
                Ret (lang, rest)
            | None => Ret (l, [])
            end
        end in
      let! s := unwrap (string_from_utf8 lang) in
      Ret (Some s, mkLanguageIter rest (kind self))
  end.

(** [Iterator::collect] and [Iterator::any]; every item takes a byte at least. *)
Fixpoint language_collect (fuel : nat) (self : LanguageIter) : outcome (list (list Z)) :=
  match fuel with
  | O => NoFuel
  | S fuel =>
      let! (item, self) := language_next self in
      match item with
      | None => Ret []
      | Some l => let! ls := language_collect fuel self in Ret (l :: ls)
      end
  end.

Fixpoint language_any (fuel : nat) (self : LanguageIter) (p : list Z -> bool) : outcome bool :=
  match fuel with
  | O => NoFuel
  | S fuel =>
      let! (item, self) := language_next self in
      match item with
      | None => Ret false
      | Some l => if p l then Ret true else language_any fuel self p
      end
  end.
End language_iter.

(** A language as a C string in 64 bytes. *)
Definition language_to_cstr (language : list Z) : outcome (uresult (list Z) unit) :=
  let lang_cstr := replicate 64 0 in
  let bytes := utf8_encode language in
  if zlen lang_cstr - 1 <=? zlen bytes then
    let! e := error_from_status Status.BUFFER_TOO_SMALL in Ret (Err e)
  else
    let lang_cstr := bytes ++ drop (length bytes) lang_cstr in
    let! c := unwrap (last lang_cstr) in
    let! _ := assert_ (c =? 0) in
    Ret (Ok lang_cstr).

(** ** The protocol *)

Class NameServices (W : Type) : Type := {
  supported_languages_at : Z * Z -> W -> list Z;
  efi_get_driver_name : Z * Z -> list Z -> W -> (Z * Z) * W;
  efi_get_controller_name : Z * Z -> Z -> Z -> list Z -> W -> (Z * Z) * W;
}.

Inductive ComponentName : Set :=
| CN_V1 (cn1 : ScopedProtocol)
| CN_V2 (cn2 : ScopedProtocol).

Section component_name.
Context `{Profile} {W : Type} `{!BootServices W, !ProtocolServices W, !NameServices W}.

Definition supported_languages1 (self : Z * Z) : fw W (result LanguageIter LanguageError) :=
  mem ← call (fun w => (supported_languages_at self w, w)); lift (language_iter_new mem V1).

Definition supported_languages2 (self : Z * Z) : fw W (result LanguageIter LanguageError) :=
  mem ← call (fun w => (supported_languages_at self w, w)); lift (language_iter_new mem V2).

(** [to_result_with_val(|| CStr16::from_ptr(driver_name))]. *)
Definition name_result (status p : Z) : fw W (uresult (list Z) unit) :=
  try _ <- lift (to_result status);
  mem ← call (fun w => (memory_at p w, w));
  name ← lift (cstr16_from_ptr (units_of mem));
  mret (Ok name).

(** The methods of both revisions are the same. *)
Definition driver_name (self : Z * Z) (language : list Z) : fw W (uresult (list Z) unit) :=
  try language <- lift (language_to_cstr language);
  '(status, p) ← call (efi_get_driver_name self language);
  name_result status p.

Definition controller_name (self : Z * Z) (controller_handle : Z) (child_handle : option Z) (language : list Z)
  : fw W (uresult (list Z) unit) :=
  try language <- lift (language_to_cstr language);
  '(status, p) ← call (efi_get_controller_name self controller_handle (opt_to_ptr child_handle) language);
  name_result status p.

Definition component_name_open (handle : Z) : fw W (uresult ComponentName unit) :=
  r ← open_protocol_exclusive ComponentName2_P handle;
  match r with
  | Ok cn2 => mret (Ok (CN_V2 cn2))
  | Err _ => try cn1 <- open_protocol_exclusive ComponentName1_P handle; mret (Ok (CN_V1 cn1))
  end.

Definition guard_of (self : ComponentName) : ScopedProtocol :=
  match self with CN_V1 cn1 => cn1 | CN_V2 cn2 => cn2 end.

Definition component_supported_languages (self : ComponentName) : fw W (result LanguageIter LanguageError) :=
  match self with
  | CN_V1 cn1 => i ← lift (scoped_deref cn1); supported_languages1 i
  | CN_V2 cn2 => i ← lift (scoped_deref cn2); supported_languages2 i
  end.

Definition component_driver_name (self : ComponentName) (language : list Z) : fw W (uresult (list Z) unit) :=
  i ← lift (scoped_deref (guard_of self)); driver_name i language.

Definition component_controller_name (self : ComponentName) (controller_handle : Z) (child_handle : option Z)
    (language : list Z) : fw W (uresult (list Z) unit) :=
  i ← lift (scoped_deref (guard_of self)); controller_name i controller_handle child_handle language.

Definition component_name_drop (self : ComponentName) : fw W unit :=
  match self with
  | CN_V1 cn1 => scoped_drop ComponentName1_P cn1
  | CN_V2 cn2 => scoped_drop ComponentName2_P cn2
  end.

(** ** Finding a driver by its name *)

(** The closure of [find_map]: the protocol is dropped unless it is returned. *)
Definition driver_matches (english name : list Z) (handle : Z) : fw W (option ComponentName) :=
  r ← component_name_open handle;
  match r with
  | Err _ => mret None
  | Ok component_name =>
      it ← component_supported_languages component_name;
      match it with
      | Err _ => component_name_drop component_name;; mret None
      | Ok it =>
          has ← lift (language_any (S (length (languages it))) it (fun lang => bool_decide (lang = english)));
          lift (assert_ has);;
          n ← component_driver_name component_name english;
          match n with
          | Err _ => component_name_drop component_name;; mret None
          | Ok driver_name =>
              if bool_decide (driver_name = name) then mret (Some component_name)
              else component_name_drop component_name;; mret None
          end
      end
  end.

Fixpoint find_driver (english name : list Z) (handles : list Z) : fw W (option ComponentName) :=
  match handles with
  | [] => mret None
  | handle :: handles =>
      r ← driver_matches english name handle;
      match r with
      | Some component_name => mret (Some component_name)
      | None => find_driver english name handles
      end
  end.
End component_name.

(** ** What the specification documents *)

(** The languages as the list of a revision: three letters each, or separated by
    semicolons; the iterator cannot tell a last empty language from none. *)
Definition listable (k : LanguageIterKind) (ls : list (list Z)) : Prop :=
  Forall (fun l => Forall ascii l) ls /\
  match k with
  | V1 => Forall (fun l => length l = 3%nat) ls
  | V2 => Forall (fun l => l <> [] /\ 59 ∉ l) ls
  end.

Fixpoint join (c : Z) (ls : list (list Z)) : list Z :=
  match ls with [] => [] | [l] => l | l :: ls => l ++ c :: join c ls end.

Definition listed (k : LanguageIterKind) (ls : list (list Z)) : list Z :=
  match k with V1 => concat ls | V2 => join 59 ls end.

Section language_properties.
Context `{Profile}.

(** The scan ends at the first byte that is zero or not ASCII. *)
Lemma language_length_stop pre s c k fuel :
  Forall ascii s -> c = 0 \/ 128 <= c -> zlen (pre ++ s) < 2 ^ 64 -> (length s < fuel)%nat ->
  language_length fuel (pre ++ s ++ c :: k) (zlen pre) =
    Ret (if c =? 0 then Ok (zlen pre + zlen s) else Err (Ascii (zlen pre + zlen s))).
Proof.
  revert pre fuel. induction s as [|b s IH]; intros pre fuel Hs Hc Hl Hf; (destruct fuel as [|fuel]; [cbn in Hf; lia|]); cbn [language_length app].
  - change (read_raw (pre ++ c :: k) (zlen pre) 1) with (read_raw (pre ++ [c] ++ k) (zlen pre) (zlen [c])). rewrite read_raw_mid. cbn [obind le_val]. rewrite Z.mul_0_r, !Z.add_0_r.
    destruct (Z.eqb_spec c 0); [done|]. by rewrite (proj2 (Z.ltb_ge _ _)) by lia.
  - inversion_clear Hs as [|? ? Hb Hs']. 
    change (read_raw (pre ++ b :: s ++ c :: k) (zlen pre) 1) with (read_raw (pre ++ [b] ++ s ++ c :: k) (zlen pre) (zlen [b])).
    rewrite read_raw_mid. cbn [obind le_val].
    unfold ascii in Hb. rewrite Z.mul_0_r, !Z.add_0_r. rewrite (proj2 (Z.eqb_neq _ _)) by lia.
    rewrite (proj2 (Z.ltb_lt _ _)) by lia. cbn [negb]. rewrite zlen_app, zlen_cons in Hl. pose proof (zlen_nonneg pre). pose proof (zlen_nonneg s).
    rewrite usize_add_ok by (unfold usize_MAX; lia). cbn [obind].
    pose proof (IH (pre ++ [b]) fuel) as IH'. rewrite !zlen_app, <- !app_assoc in IH'. change (zlen [b]) with 1 in IH'. cbn [app] in IH'.
    rewrite IH' by (done || cbn in Hf; lia). rewrite zlen_cons. by rewrite <- Z.add_assoc.
Qed.

Lemma language_iter_new_stop s c k kd :
  Forall ascii s -> c = 0 \/ 128 <= c -> zlen s < 2 ^ 64 ->
  language_iter_new (s ++ c :: k) kd = Ret (if c =? 0 then Ok (mkLanguageIter s kd) else Err (Ascii (zlen s))).
Proof.
  intros Hs Hc Hl. unfold language_iter_new. rewrite (language_length_stop [] s c k) by (done || rewrite ?length_app; cbn; lia).
  change (zlen []) with 0. rewrite Z.add_0_l. cbn [obind]. destruct (c =? 0); [|done]. by rewrite read_raw_front.
Qed.

Lemma listed_nonempty kd l ls : listable kd (l :: ls) -> listed kd (l :: ls) <> [].
Proof.
  intros [_ Hk]. destruct kd; inversion_clear Hk as [|? ? Hl Hls]; cbn [listed concat].
  - by destruct l.
  - destruct Hl as [Hl _]. by destruct ls, l.
Qed.

Lemma language_next_listed kd l ls :
  listable kd (l :: ls) -> zlen (listed kd (l :: ls)) < 2 ^ 64 ->
  language_next (mkLanguageIter (listed kd (l :: ls)) kd) = Ret (Some l, mkLanguageIter (listed kd ls) kd).
Proof.
  intros Hl Hz. pose proof (listed_nonempty kd l ls Hl) as Hne. unfold language_next. cbn [languages kind].
  destruct (listed kd (l :: ls)) as [|x xs] eqn:E; [done|]. rewrite <- E in *. clear E x xs Hne. destruct Hl as [Ha Hk].
  inversion_clear Ha as [|? ? Hal _]. destruct kd; inversion_clear Hk as [|? ? Hlen Hlens].
  - cbn [listed concat] in *. destruct (Z.leb_spec (zlen (l ++ concat ls)) 3) as [H3|H3].
    + rewrite zlen_app in H3. assert (concat ls = []) as -> by (destruct (concat ls); [done|]; unfold zlen in H3; cbn [length] in H3; lia).
      rewrite app_nil_r. cbn [obind]. by rewrite (utf8_ascii_decode l Hal).
    + rewrite !slice_ok by (unfold zlen in *; lia). cbn [obind].
      replace (Z.to_nat 3) with (length l) by (rewrite Hlen; done). replace (Z.to_nat (3 - 0)) with (length l) by (rewrite Hlen; done).
      rewrite drop_0, take_app_length, drop_app_length. rewrite (utf8_ascii_decode l Hal). cbn [unwrap obind].
      rewrite take_ge; [done|]. unfold zlen. rewrite length_app. lia.
  - destruct Hlen as [Hn H59]. destruct ls as [|l2 ls].
    + cbn [listed join]. assert (position (fun c => c =? 59) l = None) as ->.
      { apply position_None. apply Forall_forall. intros c Hc. apply Z.eqb_neq. by intros ->. }
      cbn [obind]. by rewrite (utf8_ascii_decode l Hal).
    + change (listed V2 (l :: l2 :: ls)) with (l ++ 59 :: listed V2 (l2 :: ls)) in *. set (r := listed V2 (l2 :: ls)) in *.
      rewrite position_app_r; [|apply Forall_forall; intros c Hc; apply Z.eqb_neq; by intros ->|done].
      rewrite zlen_app, zlen_cons in Hz. pose proof (zlen_nonneg r). pose proof (zlen_nonneg l). fold (zlen l).
      rewrite slice_ok by (rewrite ?zlen_app, ?zlen_cons; lia). cbn [obind].
      rewrite usize_add_ok by (unfold usize_MAX; lia). cbn [obind].
      rewrite slice_ok by (rewrite ?zlen_app, ?zlen_cons; lia). cbn [obind].
      replace (Z.to_nat (zlen l - 0)) with (length l) by (unfold zlen; lia). rewrite drop_0, take_app_length.
      rewrite (utf8_ascii_decode l Hal). cbn [unwrap obind].
      replace (Z.to_nat (zlen l + 1)) with (length (l ++ [59])) by (rewrite length_app; unfold zlen; cbn; lia).
      change (l ++ 59 :: r) with (l ++ [59] ++ r). rewrite (app_assoc l [59] r), drop_app_length.
      rewrite take_ge; [done|]. unfold zlen. rewrite !length_app. cbn. lia.
Qed.
End language_properties.

Section language_lists.
Context `{Profile}.

Lemma listed_cons_length kd l ls : listable kd (l :: ls) -> (length (listed kd ls) < length (listed kd (l :: ls)))%nat.
Proof.
  intros [_ Hk]. destruct kd; inversion_clear Hk as [|? ? Hl Hls]; cbn [listed concat].
  - rewrite length_app. lia.
  - destruct Hl as [Hl _]. destruct ls; cbn [join]; [destruct l; [done|cbn; lia]|]. rewrite length_app. cbn. lia.
Qed.

Lemma listable_tail kd l ls : listable kd (l :: ls) -> listable kd ls.
Proof. intros [Ha Hk]. split; [by inversion_clear Ha|]. destruct kd; by inversion_clear Hk. Qed.

Lemma language_collect_listed kd ls fuel :
  listable kd ls -> zlen (listed kd ls) < 2 ^ 64 -> (length (listed kd ls) < fuel)%nat ->
  language_collect fuel (mkLanguageIter (listed kd ls) kd) = Ret ls.
Proof.
  revert fuel. induction ls as [|l ls IH]; intros fuel Hl Hz Hf; (destruct fuel as [|fuel]; [lia|]); cbn [language_collect].
  - by destruct kd.
  - pose proof (listed_cons_length kd l ls Hl). rewrite language_next_listed by done. cbn [obind].
    rewrite IH; [done|by eapply listable_tail|unfold zlen in *; lia|lia].
Qed.

Lemma language_any_listed kd ls fuel p :
  listable kd ls -> zlen (listed kd ls) < 2 ^ 64 -> (length (listed kd ls) < fuel)%nat ->
  language_any fuel (mkLanguageIter (listed kd ls) kd) p = Ret (existsb p ls).
Proof.
  revert fuel. induction ls as [|l ls IH]; intros fuel Hl Hz Hf; (destruct fuel as [|fuel]; [lia|]); cbn [language_any].
  - by destruct kd.
  - pose proof (listed_cons_length kd l ls Hl). rewrite language_next_listed by done. cbn [obind existsb].
    destruct (p l); [done|]. rewrite IH; [done|by eapply listable_tail|unfold zlen in *; lia|lia].
Qed.

Lemma listed_ascii kd ls : listable kd ls -> Forall ascii (listed kd ls).
Proof.
  intros [Ha _]. destruct kd; cbn [listed].
  - induction Ha; [constructor|]. by apply Forall_app.
  - induction Ha as [|l [|l2 ls] Hal Hals IH]; [constructor|done|]. cbn [join]. apply Forall_app. split; [done|].
    constructor; [by unfold ascii|exact IH].
Qed.

Lemma last_replicate n (x : Z) : last (replicate (S n) x) = Some x.
Proof. induction n as [|n IH]; [done|]. exact IH. Qed.

Lemma language_to_cstr_ok l :
  Forall ascii l -> zlen l <= 62 -> exists k, language_to_cstr l = Ret (Ok (l ++ 0 :: k)).
Proof.
  intros Ha Hl. exists (replicate (63 - length l) 0). unfold language_to_cstr. rewrite utf8_ascii_encode by done.
  assert (length l <= 62)%nat as Hn by (unfold zlen in Hl; lia).
  rewrite (proj2 (Z.leb_gt _ _)) by (unfold zlen in *; rewrite length_replicate; lia). rewrite drop_replicate.
  replace (64 - length l)%nat with (S (63 - length l)) by lia. rewrite last_app, last_replicate. done.
Qed.

(** The list of languages of a driver, in the form of either revision, is read back
    exactly; a byte that is not ASCII is reported with its position. *)
Theorem supported_languages_roundtrip (kd : LanguageIterKind) (ls : list (list Z)) (k : list Z) :
  listable kd ls -> zlen (listed kd ls) < 2 ^ 64 ->
  (exists it, language_iter_new (listed kd ls ++ 0 :: k) kd = Ret (Ok it) /\
    forall fuel, (length (listed kd ls) < fuel)%nat -> language_collect fuel it = Ret ls) /\
  (forall c, 128 <= c -> language_iter_new (listed kd ls ++ c :: k) kd = Ret (Err (Ascii (zlen (listed kd ls))))).
Proof.
  intros Hl Hz. pose proof (listed_ascii kd ls Hl) as Ha.
  split.
  - exists (mkLanguageIter (listed kd ls) kd). split; [by rewrite language_iter_new_stop by auto|].
    intros fuel Hf. by apply language_collect_listed.
  - intros c Hc. rewrite language_iter_new_stop by auto. by rewrite (proj2 (Z.eqb_neq _ _)) by lia.
Qed.
End language_lists.

(** ** Finding a driver

    A driver: the languages that it lists and its name in a language.  [drivers h g]
    is the driver that the handle [h] has under the revision with the GUID [g], and
    [drives p] the one behind an interface. *)
Record Driver : Type := mkDriver { d_kind : LanguageIterKind; d_languages : list (list Z); d_names : list Z -> option (list Z) }.

Definition revision_kind (g : Z) : option LanguageIterKind :=
  if g =? pp_guid ComponentName1_P then Some V1 else if g =? pp_guid ComponentName2_P then Some V2 else None.

Class NameLaws (W : Type) `{ProtocolLaws W, !NameServices W} : Type := {
  drivers : Z -> Z -> option Driver;
  drives : Z -> Driver;
  drivers_wf : forall h g d, drivers h g = Some d ->
    revision_kind g = Some (d_kind d) /\ listable (d_kind d) (d_languages d) /\ zlen (listed (d_kind d) (d_languages d)) < 2 ^ 64;
  drivers_open : forall h g w s p w', is_Some (revision_kind g) ->
    efi_open_protocol h g (image_handle_cell w) 0 (attributes_bits Exclusive) w = ((s, p), w') ->
    match drivers h g with
    | Some d => (~ is_open w (h, g) -> s = 0) /\ (s = 0 -> p <> 0 /\ drives p = d)
    | None => s <> 0
    end;
  drivers_languages : forall h g d p m w, drivers h g = Some d -> drives p = d ->
    exists k, supported_languages_at (p, m) w = listed (d_kind d) (d_languages d) ++ 0 :: k;
  drivers_names : forall i m lang k w s p w', 0 ∉ lang -> efi_get_driver_name (i, m) (lang ++ 0 :: k) w = ((s, p), w') ->
    keeps is_open w w' /\ calm w w' /\
    match d_names (drives i) lang with
    | Some n => s = 0 /\ cstr16_from_ptr (units_of (memory_at p w')) = Ret n
    | None => s <> 0
    end;
}.

Section find_driver.
Context `{Profile} {W : Type} `{!BootServices W, !Blocks W, !ProtocolServices W, !ProtocolLaws W, !NameServices W, !NameLaws W}.
#[local] Existing Instance calm_preorder.

(** The driver that [ComponentName::open] finds on a handle: of the second revision
    if there is one. *)
Definition preferred (h : Z) : option (Z * Driver) :=
  match drivers h (pp_guid ComponentName2_P) with
  | Some d => Some (pp_guid ComponentName2_P, d)
  | None => pair (pp_guid ComponentName1_P) <$> drivers h (pp_guid ComponentName1_P)
  end.

Definition driver_named (english : list Z) (h : Z) : option (list Z) :=
  match preferred h with Some (_, d) => d_names d english | None => None end.

Definition unopened (w : W) (h : Z) : Prop :=
  ~ is_open w (h, pp_guid ComponentName1_P) /\ ~ is_open w (h, pp_guid ComponentName2_P).

(** A guard of the driver [d] of the handle [h]. *)
Definition names_guard (h g : Z) (d : Driver) (w : W) (c : ComponentName) : Prop :=
  guards h w (guard_of c) /\ drivers h g = Some d /\
  (exists p m, sp_interface (guard_of c) = Some (p, m) /\ drives p = d) /\
  match c with CN_V1 _ => g = pp_guid ComponentName1_P | CN_V2 _ => g = pp_guid ComponentName2_P end.

Lemma open_revision_runs P h w :
  is_Some (revision_kind (pp_guid P)) -> (forall mem, exists m, pp_metadata P mem = Ret m) ->
  boot_active w = true -> image_handle_cell w <> 0 -> ~ is_open w (h, pp_guid P) ->
  runs (open_protocol_exclusive P h) w (fun r w' => calm w w' /\
    match r with
    | Ok sp => acquires is_open (h, pp_guid P) w w' /\ guards h w sp /\
        exists d p m, drivers h (pp_guid P) = Some d /\ sp_interface sp = Some (p, m) /\ drives p = d
    | Err _ => keeps is_open w w' /\ drivers h (pp_guid P) = None
    end).
Proof.
  intros Hg Hm Hact Hi Ho. unfold open_protocol_exclusive. runs_step. apply runs_image_handle; [done|].
  unfold open_protocol. apply runs_boot; [done|]. repeat runs_step. cbn [op_handle op_agent op_controller opt_to_ptr default].
  destruct (efi_open_protocol h (pp_guid P) (image_handle_cell w) 0 _ w) as [[s p] w'] eqn:E. cbn [fst snd].
  runs_step. rewrite to_result_cases. eapply runs_lift; [done|]. pose proof (drivers_open _ _ _ _ _ _ Hg E) as Hd.
  destruct (drivers h (pp_guid P)) as [d|].
  - destruct Hd as [Hs Hp]. rewrite (Hs Ho) in *. cbn [Z.eqb]. destruct (Hm (memory_at p w')) as [m Em]. destruct Hp as [Hp Hd]; [done|].
    rewrite (proj2 (Z.eqb_neq p 0)) by done. repeat runs_step. eapply runs_lift; [exact Em|]. runs_step.
    destruct (open_ok _ _ _ _ _ E) as [A C]. split; [done|]. split; [done|]. split; [done|]. by exists d, p, m.
  - rewrite (proj2 (Z.eqb_neq s 0)) by done. destruct (open_fail _ _ _ _ _ _ E Hd) as [K C]. done.
Qed.

Lemma component_open_runs h w :
  boot_active w = true -> image_handle_cell w <> 0 -> unopened w h ->
  runs (component_name_open h) w (fun r w' => calm w w' /\
    match preferred h with
    | Some (g, d) => exists c, r = Ok c /\ acquires is_open (h, g) w w' /\ names_guard h g d w' c
    | None => is_ok r = false /\ keeps is_open w w'
    end).
Proof.
  intros Hact Hi [H1 H2]. unfold component_name_open. runs_step.
  eapply runs_weaken; [apply open_revision_runs; [by eexists|by eexists|done..]|]. intros [sp|err] w1 [C1 Hr].
  { runs_step. destruct Hr as (A & G & d & p & m & Hd & Em & Hp). split; [done|]. unfold preferred. rewrite Hd.
    exists (CN_V2 sp). split; [done|]. split; [done|]. unfold names_guard, guards. cbn [guard_of]. rewrite (proj2 C1). eauto 10. }
  destruct Hr as [K1 Hn]. runs_step.
  eapply runs_weaken; [apply open_revision_runs; [by eexists|by eexists|by eapply calm_active|by rewrite (proj2 C1)|by intros Ho%K1]|].
  intros r w2 [C2 Hr]. assert (calm w w2) as C by (by etrans). unfold preferred. rewrite Hn. destruct r as [sp|e].
  - runs_step. destruct Hr as (A & G & d & p & m & Hd & Em & Hp). split; [done|]. rewrite Hd. cbn [fmap option_fmap option_map].
    exists (CN_V1 sp). split; [done|]. split; [by rewrite K1|]. unfold names_guard, guards. cbn [guard_of]. rewrite (proj2 C2). eauto 10.
  - destruct Hr as [K2 Hn1]. split; [done|]. rewrite Hn1. split; [done|]. by etrans.
Qed.

Lemma component_drop_runs h g d w c :
  boot_active w = true -> names_guard h g d w c -> is_open w (h, g) ->
  runs (component_name_drop c) w (fun _ w' => releases is_open (h, g) w w' /\ calm w w').
Proof. intros Hact (G & _ & _ & Hc) Ho. destruct c; subst g; by eapply scoped_drop_runs. Qed.

Lemma names_guard_calm h g d w w' c : calm w w' -> names_guard h g d w c -> names_guard h g d w' c.
Proof. unfold names_guard, guards. intros [_ ->]. done. Qed.

Lemma component_languages_runs h g d w c :
  names_guard h g d w c ->
  runs (component_supported_languages c) w (fun r w' =>
    w' = w /\ r = Ok (mkLanguageIter (listed (d_kind d) (d_languages d)) (d_kind d))).
Proof.
  intros (_ & Hd & (p & m & Em & Hp) & Hc). destruct (drivers_languages h g d p m w Hd Hp) as [k Hk].
  destruct (drivers_wf _ _ _ Hd) as (Hrk & Hl & Hz).
  assert (Forall ascii (listed (d_kind d) (d_languages d))) as Ha by (by apply listed_ascii).
  destruct c; cbn [guard_of] in Em; subst g; injection Hrk as Hkd; cbn [component_supported_languages]; unfold scoped_deref; rewrite Em;
    runs_step; (eapply runs_lift; [done|]); unfold supported_languages1, supported_languages2; do 2 runs_step;
    rewrite Hk; (eapply runs_lift; [by apply (language_iter_new_stop _ 0 k); auto|]); by rewrite <- Hkd.
Qed.

Lemma component_driver_name_runs h g d w c l :
  names_guard h g d w c -> Forall ascii l -> zlen l <= 62 ->
  runs (component_driver_name c l) w (fun r w' => keeps is_open w w' /\ calm w w' /\
    match d_names d l with Some n => r = Ok n | None => is_ok r = false end).
Proof.
  intros (_ & Hd & (p & m & Em & Hp) & _) Ha Hl. unfold component_driver_name, scoped_deref. rewrite Em. runs_step. eapply runs_lift; [done|].
  destruct (language_to_cstr_ok l Ha Hl) as [k Ek]. unfold driver_name. runs_step. eapply runs_lift; [exact Ek|]. cbv beta iota. do 2 runs_step.
  destruct (efi_get_driver_name (p, m) (l ++ 0 :: k) w) as [[s q] w'] eqn:E. cbn [fst snd].
  destruct (drivers_names _ _ _ _ _ _ _ _ (ascii_not_nul _ Ha) E) as (K & C & Hn). rewrite Hp in Hn.
  unfold name_result. runs_step. rewrite to_result_cases. eapply runs_lift; [done|]. destruct (d_names d l) as [n|].
  - destruct Hn as [-> Hn]. cbn [Z.eqb]. do 2 runs_step. runs_step. eapply runs_lift; [exact Hn|]. by runs_step.
  - by rewrite (proj2 (Z.eqb_neq _ _)).
Qed.

(** One handle of the search: the protocol stays open exactly if its driver has the
    name. *)
Lemma driver_matches_runs english name h w :
  boot_active w = true -> image_handle_cell w <> 0 -> unopened w h -> Forall ascii english -> zlen english <= 62 ->
  (forall g d, preferred h = Some (g, d) -> english ∈ d_languages d) ->
  runs (driver_matches english name h) w (fun r w' => calm w w' /\
    if decide (driver_named english h = Some name) then exists c g d, r = Some c /\ preferred h = Some (g, d) /\
      acquires is_open (h, g) w w' /\ names_guard h g d w' c
    else r = None /\ keeps is_open w w').
Proof.
  intros Hact Hi Hu Ha Hl Hen. unfold driver_matches, driver_named. runs_step. eapply runs_weaken; [by apply component_open_runs|].
  intros r w1 [C1 Hr]. destruct (preferred h) as [[g d]|] eqn:Hp.
  2: { destruct Hr as [He K]. destruct r; [done|]. by runs_step. }
  destruct Hr as (c & -> & A1 & G1). runs_step. eapply runs_weaken; [by eapply component_languages_runs|]. intros ? ? [-> ->].
  destruct (drivers_wf h g d) as (_ & Hls & Hz); [by apply G1|]. cbn [languages].
  runs_step. eapply runs_lift; [by apply language_any_listed; auto|].
  assert (existsb (fun lang => bool_decide (lang = english)) (d_languages d) = true) as ->.
  { apply existsb_exists. exists english. rewrite bool_decide_true by done. split; [|done].
    rewrite <- list_elem_of_In. by apply (Hen g d). }
  do 2 runs_step. cbn beta. runs_step. eapply runs_weaken; [by eapply component_driver_name_runs|]. intros n w2 (K2 & C2 & Hn).
  assert (names_guard h g d w2 c) as G2 by (by eapply names_guard_calm).
  assert (calm w w2) as C by (by etrans).
  assert (runs (component_name_drop c;; mret None) w2 (fun (r : option ComponentName) w' => calm w w' /\ r = None /\ keeps is_open w w')) as Hdrop.
  { runs_step. eapply runs_weaken; [eapply component_drop_runs; [|exact G2|]|].
    - by eapply calm_active.
    - apply K2. by eapply acquires_held.
    - intros _ w3 [R C3]. runs_step. split; [by etrans|]. split; [done|]. rewrite <- K2 in R. by eapply acquires_releases. }
  destruct (d_names d english) as [nm|].
  - subst n. case_decide as Hd.
    + injection Hd as ->. rewrite bool_decide_true by done. runs_step. split; [done|]. exists c, g, d. split; [done|]. split; [done|].
      split; [by rewrite <- K2|done].
    + rewrite bool_decide_false by congruence. exact Hdrop.
  - destruct n; [done|]. case_decide; [done|]. exact Hdrop.
Qed.

(** The search for a driver by its English name finds the first handle that has it,
    and leaves open exactly the protocol of that handle. *)
Theorem find_driver_spec (english name : list Z) (handles : list Z) (w : W) :
  boot_active w = true -> image_handle_cell w <> 0 -> Forall (unopened w) handles -> Forall ascii english -> zlen english <= 62 ->
  (forall h g d, h ∈ handles -> preferred h = Some (g, d) -> english ∈ d_languages d) ->
  exists r w', find_driver english name handles w = Ret (r, w') /\ calm w w' /\
    match list_find (fun h => driver_named english h = Some name) handles with
    | Some (_, h) => exists c g d, r = Some c /\ preferred h = Some (g, d) /\ acquires is_open (h, g) w w' /\ names_guard h g d w' c
    | None => r = None /\ keeps is_open w w'
    end.
Proof.
  intros Hact Hi Hu Ha Hl Hen. revert w Hact Hi Hu. induction handles as [|h hs IH]; intros w Hact Hi Hu.
  { by exists None, w. }
  cbn [find_driver list_find]. inversion_clear Hu as [|? ? Huh Huhs].
  destruct (driver_matches_runs english name h w) as (r & w1 & E & C1 & Hr); [done..|by intros; eapply Hen; [left|]|].
  rewrite (fw_bind_Ret _ _ _ _ _ E). destruct (decide (driver_named english h = Some name)).
  { destruct Hr as (c & g & d & -> & Hrest). exists (Some c), w1. split; [done|]. split; [done|]. by exists c, g, d. }
  destruct Hr as [-> K1]. destruct (IH ltac:(intros; eapply Hen; [by right|done]) w1) as (r & w2 & E2 & C2 & Hr).
  - by eapply calm_active.
  - by rewrite (proj2 C1).
  - eapply Forall_impl; [exact Huhs|]. intros x [H1 H2]. split; by intros ?%K1.
  - exists r, w2. split; [done|]. split; [by etrans|].
    destruct (list_find (fun h => driver_named english h = Some name) hs) as [[i x]|]; cbn.
    + destruct Hr as (c & g & d & ? & ? & A & ?). exists c, g, d. do 2 (split; [done|]). split; [by rewrite K1|done].
    + destruct Hr as [? K2]. split; [done|]. by etrans.
Qed.
End find_driver.

(** ** A machine with a driver

    Handle 4 has a driver that is called "FAT" in English. *)
Module Fat.
Definition en : list Z := [101; 110].
Definition fr : list Z := [102; 114].
Definition name : list Z := [70; 65; 84; 0].

Definition driver : Driver := mkDriver V2 [en; fr] (fun l => if decide (l = en) then Some name else None).

#[global] Instance services : NameServices Handles.t := {|
  supported_languages_at _ _ := listed V2 [en; fr] ++ [0];
  efi_get_driver_name _ buf w :=
    if decide (take_while (fun c => negb (c =? 0)) buf = en) then ((0, 0x4000), w) else ((Status.UNSUPPORTED, 0), w);
  efi_get_controller_name _ _ _ _ w := ((Status.UNSUPPORTED, 0), w);
|}.

Lemma supports_driver h g : is_Some (revision_kind g) ->
  h ∈ Handles.supporting g <-> (h, g) = (4, pp_guid ComponentName2_P).
Proof.
  unfold revision_kind. intros [k Hk]. destruct (Z.eqb_spec g (pp_guid ComponentName1_P)) as [->|_].
  { split; [|done]. by intros ?%not_elem_of_nil. }
  destruct (Z.eqb_spec g (pp_guid ComponentName2_P)) as [->|_]; [|done].
  change (Handles.supporting (pp_guid ComponentName2_P)) with [4]. rewrite list_elem_of_singleton. naive_solver.
Qed.

#[global, refine] Instance laws : @NameLaws Handles.t debug_profile _ _ _ _ _ := {|
  drivers h g := if decide ((h, g) = (4, pp_guid ComponentName2_P)) then Some driver else None;
  drives _ := driver |}.
Proof.
  - intros h g d. case_decide as Hd; [|done]. injection Hd as -> ->. intros [= <-]. split; [done|]. split; [|by vm_compute].
    split; repeat constructor; by_decide.
  - intros h g w s p w' Hg. cbn. unfold Handles.open. case_decide as Hs; rewrite supports_driver in Hs by done.
    + destruct (decide ((h, g) = (4, pp_guid ComponentName2_P))) as [[= -> ->]|]; [|done].
      case_decide; intros [= <- <- <-]; (split; [done || by intros []|done]).
    + intros [= <- <- <-]. by rewrite decide_False by done.
  - intros h g d p m w _ <-. by exists [].
  - intros i m lang k w s p w' Hn. cbn. assert (take_while (fun c => negb (c =? 0)) (lang ++ 0 :: k) = lang) as ->.
    { apply take_while_app; [|done]. apply Forall_forall. intros c Hc. apply negb_true_iff, Z.eqb_neq. by intros ->. }
    case_decide; intros [= <- <- <-]; by repeat split.
Defined.
End Fat.

(** The driver is found on handle 4, behind a handle without one. *)
Lemma find_driver_spec_witness :
  exists c w', find_driver (H := debug_profile) Fat.en Fat.name [2; 4] Handles.initial = Ret (Some c, w') /\
    op_handle (open_params (guard_of c)) = 4.
Proof.
  destruct (find_driver_spec (H := debug_profile) Fat.en Fat.name [2; 4] Handles.initial) as (r & w' & E & _ & Hr);
    [reflexivity|discriminate|repeat constructor; cbn; by apply not_elem_of_empty|repeat constructor; by_decide|by vm_compute| |].
  { intros h g d Hh. repeat (apply elem_of_cons in Hh as [->|Hh]); [done|intros [= <- <-]; by left|by apply not_elem_of_nil in Hh]. }
  change (list_find _ [2; 4]) with (Some (1%nat, 4)) in Hr. destruct Hr as (c & g & d & -> & _ & _ & G & _).
  exists c, w'. split; [exact E|]. red in G. by rewrite G.
Defined.

(** Two languages in the form of the second revision. *)
Lemma supported_languages_roundtrip_witness :
  exists it, language_iter_new (H := debug_profile) [101; 110; 59; 102; 114; 0; 7] V2 = Ret (Ok it) /\
    language_collect (H := debug_profile) 6 it = Ret [Fat.en; Fat.fr].
Proof.
  destruct (supported_languages_roundtrip (H := debug_profile) V2 [Fat.en; Fat.fr] [7]) as [(it & E & Hc) _].
  - split; repeat constructor; by_decide.
  - by vm_compute.
  - exists it. split; [exact E|]. apply Hc. cbn. lia.
Defined.
