(* ===== verification/Collation.v ===== *)
(** * Collation of strings

    [uefi/src/proto/string/unicode_collation.rs]: comparing and converting strings
    with the firmware.  A C string is the list of its units with the NUL; a buffer is
    its contents, and the methods that fill one return it with what they did. *)
From S2P Require Import Prelude Firmware Chars Strs.

Class CollationServices (W : Type) : Type := {
  efi_stri_coll : list Z -> list Z -> W -> Z * W;
  efi_metai_match : list Z -> list Z -> W -> bool * W;
  efi_str_lwr : list Z -> W -> list Z * W;
  efi_str_upr : list Z -> W -> list Z * W;
  efi_fat_to_str : Z -> list Z -> list Z -> W -> list Z * W;
  efi_str_to_fat : list Z -> Z -> list Z -> W -> (bool * list Z) * W;
}.

Inductive StrConversionError : Set := ConversionFailed | BufferTooSmall.

(** The loop that copies the characters of a string; the buffer and the last index. *)
Fixpoint copy_chars (buf : list Z) (i : Z) (s : list Z) (last_index : Z) : result Z StrConversionError * list Z :=
  match s with
  | [] => (Ok last_index, buf)
  | c :: s =>
      match get_at buf i with
      | None => (Err BufferTooSmall, buf)
      | Some _ => copy_chars (<[Z.to_nat i := c]> buf) (i + 1) s i
      end
  end.

(** The characters, and a NUL after the last index. *)
Definition copy_with_nul (s buf : list Z) : result unit StrConversionError * list Z :=
  let '(r, buf) := copy_chars buf 0 (removelast s) 0 in
  match r with
  | Err e => (Err e, buf)
  | Ok last_index =>
      match get_at buf (last_index + 1) with
      | None => (Err BufferTooSmall, buf)
      | Some _ => (Ok tt, <[Z.to_nat (last_index + 1) := 0]> buf)
      end
  end.

(** The index after the last byte that is not zero, or the last index of the buffer. *)
Fixpoint trailing_nul (buf : list Z) (i : nat) : outcome Z :=
  match i with
  | O => Ret (zlen buf - 1)
  | S i => let! b := index buf (Z.of_nat i) in if negb (b =? 0) then Ret (Z.of_nat i + 1) else trailing_nul buf i
  end.

Section collation.
Context `{Profile} {W : Type} `{!CollationServices W}.

Definition stri_coll (s1 s2 : list Z) : fw W comparison :=
  order ← call (efi_stri_coll s1 s2); mret (order ?= 0).

Definition metai_match (s pattern : list Z) : fw W bool := call (efi_metai_match s pattern).

(** The string that is returned is the whole buffer. *)
Definition str_lwr (s buf : list Z) : fw W (result (list Z) StrConversionError * list Z) :=
  match copy_with_nul s buf with
  | (Err e, buf) => mret (Err e, buf)
  | (Ok _, buf) => buf ← call (efi_str_lwr buf); mret (Ok buf, buf)
  end.

Definition str_upr (s buf : list Z) : fw W (result (list Z) StrConversionError * list Z) :=
  match copy_with_nul s buf with
  | (Err e, buf) => mret (Err e, buf)
  | (Ok _, buf) => buf ← call (efi_str_upr buf); mret (Ok buf, buf)
  end.

Definition fat_to_str (fat buf : list Z) : fw W (result (list Z) StrConversionError * list Z) :=
  if zlen buf <? zlen fat then mret (Err BufferTooSmall, buf)
  else buf ← call (efi_fat_to_str (zlen fat) fat buf); mret (Ok buf, buf).

Definition str_to_fat (s buf : list Z) : fw W (result (list Z) StrConversionError * list Z) :=
  if zlen buf <? zlen s then mret (Err BufferTooSmall, buf)
  else
    '(failed, buf) ← call (efi_str_to_fat s (zlen s) buf);
    if failed : bool then mret (Err ConversionFailed, buf)
    else
      lift (usize_sub (zlen buf) 1);;
      last_null_index ← lift (trailing_nul buf (length buf));
      n ← lift (usize_add last_null_index 1);
      s ← lift (read_raw buf 0 n);
      mret (Ok s, buf).
End collation.

(** ** What the specification documents

    Converting changes the characters before the first NUL and nothing else.  A FAT
    name has no NUL at the end; it is shorter than the string with its NUL. *)
Class CollationLaws (W : Type) `{!CollationServices W} : Type := {
  lower : Z -> Z;
  upper : Z -> Z;
  fat_name : list Z -> option (list Z);
  lower_char : forall c, body_char c -> body_char (lower c);
  upper_char : forall c, body_char c -> body_char (upper c);
  fat_name_short : forall s n, fat_name s = Some n -> Forall (fun b => 0 < b < 256) n /\ (length n < length s)%nat;
  str_lwr_law : forall s k w, 0 ∉ s -> efi_str_lwr (s ++ 0 :: k) w = (map lower s ++ 0 :: k, w);
  str_upr_law : forall s k w, 0 ∉ s -> efi_str_upr (s ++ 0 :: k) w = (map upper s ++ 0 :: k, w);
  str_to_fat_law : forall s buf w, zlen s <= zlen buf ->
    exists b, efi_str_to_fat s (zlen s) buf w = (b, w) /\
      match fat_name s with Some n => b = (false, n ++ drop (length n) buf) | None => b.1 = true /\ length b.2 = length buf end;
}.

Section collation_properties.
Context `{Profile} {W : Type} `{!CollationServices W, !CollationLaws W}.

Lemma copy_chars_fits s : forall pre old rest li,
  length old = length s ->
  copy_chars (pre ++ old ++ rest) (zlen pre) s li = (Ok (match s with [] => li | _ => zlen pre + zlen s - 1 end), pre ++ s ++ rest).
Proof.
  induction s as [|c s IH]; intros pre old rest li Hl; destruct old as [|o old]; try done.
  cbn [copy_chars app]. rewrite (get_at_mid pre o) by done. unfold zlen at 1. rewrite Nat2Z.id.
  rewrite insert_app_r_alt, Nat.sub_diag by lia. cbn [list_insert insert].
  pose proof (IH (pre ++ [c]) old rest (zlen pre)) as IH'. rewrite <- !app_assoc, zlen_app in IH'. change (zlen [c]) with 1 in IH'.
  cbn [app] in IH'. cbn. rewrite IH' by (cbn in Hl; lia). destruct s; [|by rewrite !zlen_cons; do 3 f_equal; lia].
  unfold zlen. cbn. do 3 f_equal. lia.
Qed.

Lemma copy_chars_short s : forall pre old li,
  (length old < length s)%nat -> exists buf, copy_chars (pre ++ old) (zlen pre) s li = (Err BufferTooSmall, buf).
Proof.
  induction s as [|c s IH]; intros pre old li Hl; [cbn in Hl; lia|]. cbn [copy_chars]. destruct old as [|o old].
  - rewrite app_nil_r. unfold get_at. rewrite (proj2 (Z.leb_le 0 _)) by apply zlen_nonneg.
    rewrite lookup_ge_None_2 by (unfold zlen; lia). eauto.
  - rewrite (get_at_mid pre o) by done. unfold zlen at 1. rewrite Nat2Z.id. rewrite insert_app_r_alt, Nat.sub_diag by lia. cbn.
    destruct (IH (pre ++ [c]) old (zlen pre)) as [buf Eb]; [cbn in Hl; lia|]. exists buf.
    rewrite <- app_assoc, zlen_app in Eb. exact Eb.
Qed.

(** A string with characters, in a buffer with room for it and its NUL. *)
Lemma copy_with_nul_fits cs old x rest :
  cs <> [] -> length old = length cs -> copy_with_nul (cs ++ [0]) (old ++ x :: rest) = (Ok tt, cs ++ 0 :: rest).
Proof.
  intros Hne Hl. unfold copy_with_nul. rewrite removelast_last. pose proof (copy_chars_fits cs [] old (x :: rest) 0 Hl) as Hc.
  cbn [app] in Hc. change (zlen []) with 0 in Hc. rewrite Hc. destruct cs as [|c cs]; [done|].
  replace (0 + zlen (c :: cs) - 1 + 1) with (zlen (c :: cs)) by lia. rewrite (get_at_mid (c :: cs) x) by done.
  unfold zlen. rewrite Nat2Z.id, insert_app_r_alt, Nat.sub_diag by lia. done.
Qed.

Lemma copy_with_nul_short cs buf :
  cs <> [] -> (length buf <= length cs)%nat -> exists b, copy_with_nul (cs ++ [0]) buf = (Err BufferTooSmall, b).
Proof.
  intros Hne Hl. unfold copy_with_nul. rewrite removelast_last. destruct (decide (length buf < length cs)%nat) as [Hlt|Hge].
  - destruct (copy_chars_short cs [] buf 0 Hlt) as [b Eb]. cbn [app] in Eb. change (zlen []) with 0 in Eb. rewrite Eb. eauto.
  - pose proof (copy_chars_fits cs [] buf [] 0 ltac:(lia)) as Hc. rewrite !app_nil_r in Hc. cbn [app] in Hc. change (zlen []) with 0 in Hc.
    rewrite Hc. destruct cs as [|c cs]; [done|]. replace (0 + zlen (c :: cs) - 1 + 1) with (zlen (c :: cs)) by lia.
    unfold get_at. rewrite (proj2 (Z.leb_le 0 _)) by apply zlen_nonneg. rewrite lookup_ge_None_2 by (unfold zlen; lia). eauto.
Qed.

Lemma body_no_nul cs : Forall body_char cs -> 0 ∉ cs.
Proof. rewrite Forall_forall. intros Hb H0. by destruct (Hb _ H0). Qed.

(** A string with more behind its NUL is not a C string. *)
Lemma wf_exact b k : Forall body_char b -> cstr16_wf (b ++ 0 :: k) <-> k = [].
Proof.
  intros Hb. split; [|intros ->; by exists b]. intros (b' & E & Hb').
  destruct (app_eq_inv _ _ _ _ E) as [(k' & Eb & Ek)|(k' & Eb & Ek)].
  - destruct k' as [|? k']; [by injection Ek|]. injection Ek as _ Ek. by destruct k'.
  - destruct k' as [|? k']; [by injection Ek|]. injection Ek as <- Ek. subst b'. rewrite Forall_app in Hb'. destruct Hb' as [_ Hz].
    by inversion_clear Hz as [|? ? [_ ?] _].
Qed.

(** C32: Converting a string to lower case reports a buffer without room for it and its
    NUL, and otherwise returns the whole buffer: a well-formed C string exactly when
    the buffer has no room for more.  The empty string needs two units, and what was
    in the first one is converted in its place. *)
Theorem str_lwr_cases (cs buf : list Z) (w : W) :
  Forall body_char cs ->
  if decide (cs = []) then
    match buf with
    | x :: _ :: k => body_char x -> str_lwr [0] buf w = Ret ((Ok (lower x :: 0 :: k), lower x :: 0 :: k), w)
    | _ => exists b, str_lwr [0] buf w = Ret ((Err BufferTooSmall, b), w)
    end
  else if decide (zlen buf <= zlen cs) then exists b, str_lwr (cs ++ [0]) buf w = Ret ((Err BufferTooSmall, b), w)
  else exists r, str_lwr (cs ++ [0]) buf w = Ret ((Ok r, r), w) /\ r = map lower cs ++ 0 :: drop (length cs + 1) buf /\
    (cstr16_wf r <-> zlen buf = zlen cs + 1).
Proof.
  intros Hb. case_decide as He; [subst cs|].
  { destruct buf as [|x [|y k]]; [by eexists..|]. intros Hx. unfold str_lwr.
    change (copy_with_nul [0] (x :: y :: k)) with (Ok (E := StrConversionError) tt, [x] ++ 0 :: k). cbv beta iota.
    by rewrite fw_bind_call, str_lwr_law by (apply body_no_nul; by constructor). }
  unfold zlen. case_decide as Hl.
  - destruct (copy_with_nul_short cs buf He) as [b Eb]; [lia|]. exists b. unfold str_lwr. by rewrite Eb.
  - assert (exists x, buf !! length cs = Some x) as [x Hx] by (apply lookup_lt_is_Some; lia).
    assert (copy_with_nul (cs ++ [0]) buf = (Ok tt, cs ++ 0 :: drop (S (length cs)) buf)) as Ec.
    { pose proof (take_drop_middle buf (length cs) x Hx) as Eb. rewrite <- Eb at 1. apply copy_with_nul_fits; [done|].
      rewrite length_take. lia. }
    exists (map lower cs ++ 0 :: drop (length cs + 1) buf). unfold str_lwr. rewrite Ec. cbv beta iota.
    rewrite fw_bind_call, str_lwr_law by (by apply body_no_nul). rewrite Nat.add_1_r. split; [done|]. split; [done|]. rewrite wf_exact.
    + split; [|intros; apply drop_ge; lia]. intros Hd. apply (f_equal length) in Hd. rewrite length_drop in Hd. cbn in Hd. lia.
    + apply Forall_map. eapply Forall_impl; [exact Hb|]. intros c. apply lower_char.
Qed.

Lemma trailing_nul_zeros a b m k : b <> 0 ->
  trailing_nul (a ++ b :: replicate m 0 ++ k) (length a + 1 + m) = Ret (zlen a + 1).
Proof.
  intros Hb. induction m as [|m IH] in k |- *.
  - rewrite Nat.add_0_r, Nat.add_1_r. cbn [trailing_nul]. rewrite (index_ok _ _ b) by (by rewrite lookup_app_r, Nat.sub_diag by lia).
    cbn [obind]. rewrite (proj2 (Z.eqb_neq _ _)) by done. done.
  - rewrite Nat.add_succ_r. cbn [trailing_nul]. rewrite (index_ok _ _ 0); [|].
    + cbn [obind Z.eqb negb]. replace (replicate (S m) 0 ++ k) with (replicate m 0 ++ 0 :: k); [apply IH|].
      rewrite replicate_S_end, <- app_assoc. done.
    + rewrite lookup_app_r by lia. replace (length a + 1 + m - length a)%nat with (S m) by lia. change ((replicate (S m) 0 ++ k) !! m = Some 0).
      rewrite lookup_app_l by (rewrite length_replicate; lia). apply lookup_replicate_2. lia.
Qed.

(** A FAT name in a buffer of zeros comes back with its NUL; the method reads one byte
    past a buffer whose last byte is not zero. *)
Theorem str_to_fat_cases (s buf : list Z) (w : W) :
  zlen buf <= isize_MAX ->
  if decide (zlen buf < zlen s) then str_to_fat s buf w = Ret ((Err BufferTooSmall, buf), w)
  else match fat_name s with
  | None => exists b, str_to_fat s buf w = Ret ((Err ConversionFailed, b), w)
  | Some n =>
      (n <> [] -> Forall (fun b => b = 0) buf -> exists b, str_to_fat s buf w = Ret ((Ok (n ++ [0]), b), w)) /\
      (forall b, last buf = Some b -> b <> 0 -> str_to_fat s buf w = Undefined)
  end.
Proof.
  intros Hmax. unfold str_to_fat. case_decide as Hl.
  { by rewrite (proj2 (Z.ltb_lt _ _)). }
  rewrite (proj2 (Z.ltb_ge _ _)) by lia. destruct (str_to_fat_law s buf w) as ([failed b] & E & Hf); [lia|].
  rewrite fw_bind_call, E. cbn [fst snd]. destruct (fat_name s) as [n|] eqn:En.
  2: { destruct Hf as [Hf _]. cbn in Hf. subst failed. by exists b. }
  injection Hf as -> ->. destruct (fat_name_short s n En) as [Hn Hshort].
  assert (length n < length buf)%nat as Hb by (unfold zlen in Hl; lia).
  set (b' := n ++ drop (length n) buf). assert (length b' = length buf) as Hlen by (unfold b'; rewrite length_app, length_drop; lia).
  assert (zlen b' = zlen buf) as Hz by (unfold zlen; lia). unfold isize_MAX, zlen in Hmax.
  rewrite usize_sub_ok by (unfold zlen; lia). rewrite fw_bind_lift. split.
  - intros Hne Hzero. destruct (exists_last Hne) as (n' & c & ->). exists b'.
    assert (buf = replicate (length buf) 0) as Hrep.
    { symmetry. apply replicate_as_elem_of. split; [done|]. by apply Forall_forall. }
    set (m := (length buf - length (n' ++ [c]))%nat).
    assert (b' = n' ++ c :: replicate m 0 ++ []) as Eb.
    { unfold b', m. rewrite Hrep at 1. rewrite drop_replicate, app_nil_r, <- app_assoc. done. }
    assert (length buf = length n' + 1 + m)%nat as Hlm by (unfold m; rewrite length_app in *; cbn in *; lia).
    rewrite Hlen, Hlm. rewrite Eb at 1. rewrite trailing_nul_zeros.
    2: { rewrite Forall_app in Hn. destruct Hn as [_ Hc]. inversion_clear Hc. lia. }
    rewrite fw_bind_lift. rewrite usize_add_ok by (unfold usize_MAX, zlen; rewrite length_app in Hb; lia). rewrite fw_bind_lift.
    assert (exists m', m = S m') as [m' Em] by (exists (pred m); rewrite length_app in *; cbn in *; lia).
    rewrite Eb, Em. replace (zlen n' + 1 + 1) with (zlen (n' ++ [c; 0])) by (rewrite zlen_app; unfold zlen; cbn; lia).
    replace (n' ++ c :: replicate (S m') 0 ++ []) with ((n' ++ [c; 0]) ++ replicate m' 0) by (by rewrite <- app_assoc, app_nil_r).
    rewrite read_raw_front, fw_bind_lift. by rewrite <- (app_assoc n' [c] [0]).
  - intros b Hlast Hb0.
    assert (b' !! (length buf - 1)%nat = Some b) as Hlb.
    { unfold b'. rewrite lookup_app_r by lia. rewrite lookup_drop, last_lookup in *. rewrite <- Hlast. f_equal. lia. }
    rewrite Hlen. destruct (length buf) as [|l] eqn:Ebl; [lia|]. replace (S l - 1)%nat with l in Hlb by lia. cbn [trailing_nul].
    rewrite (index_ok _ _ _ Hlb). cbn [obind]. rewrite (proj2 (Z.eqb_neq _ _)) by done. cbn [negb]. rewrite fw_bind_lift.
    rewrite usize_add_ok by (unfold usize_MAX; lia). rewrite fw_bind_lift.
    unfold mbind, fw_bind, lift, read_raw. by rewrite (proj2 (Z.leb_gt (0 + (Z.of_nat l + 1 + 1)) _)), andb_false_r by (unfold zlen; lia).
Qed.
End collation_properties.

(** ** A firmware that knows ASCII *)
Module Ascii.
Definition lwr (c : Z) : Z := if (65 <=? c) && (c <=? 90) then c + 32 else c.
Definition upr (c : Z) : Z := if (97 <=? c) && (c <=? 122) then c - 32 else c.
Definition before_nul (f : Z -> Z) (s : list Z) : list Z :=
  let a := take_while (fun c => negb (c =? 0)) s in map f a ++ drop (length a) s.

(** Capital letters and digits make a FAT name; other characters are left out. *)
Definition fat (s : list Z) : option (list Z) :=
  if decide (s = []) then None else Some (filter (fun c => 0 < c < 256) (map upr (removelast s))).

#[global] Instance services : CollationServices unit := {|
  efi_stri_coll s1 s2 w := (match list_eq_dec s1 s2 with left _ => 0 | _ => 1 end, w);
  efi_metai_match s p w := (bool_decide (s = p), w);
  efi_str_lwr s w := (before_nul lwr s, w);
  efi_str_upr s w := (before_nul upr s, w);
  efi_fat_to_str _ f buf w := (f ++ drop (length f) buf, w);
  efi_str_to_fat s _ buf w :=
    (match fat s with Some n => (false, n ++ drop (length n) buf) | None => (true, buf) end, w);
|}.

Lemma before_nul_app f s k : 0 ∉ s -> before_nul f (s ++ 0 :: k) = map f s ++ 0 :: k.
Proof.
  intros Hs. unfold before_nul. rewrite take_while_app; [|apply Forall_forall; intros c Hc; apply negb_true_iff, Z.eqb_neq; by intros ->|done].
  by rewrite drop_app_length.
Qed.

Lemma case_char (f : Z -> Z) c :
  (f c = c \/ (65 <= c <= 122 /\ 65 <= f c <= 122)) -> body_char c -> body_char (f c).
Proof.
  intros [->|[Hc Hf]]; [done|]. intros _. unfold body_char, ucs2, is_surrogate.
  rewrite (proj2 (Z.leb_gt 0xD800 _)) by lia. repeat split; cbn; lia.
Qed.

#[global, refine] Instance laws : CollationLaws unit := {| lower := lwr; upper := upr; fat_name := fat |}.
Proof.
  - intros c. apply case_char. unfold lwr. destruct (_ && _) eqn:E; [z_bools; lia|lia].
  - intros c. apply case_char. unfold upr. destruct (_ && _) eqn:E; [z_bools; lia|lia].
  - intros s n. unfold fat. case_decide as Hs; [done|]. intros [= <-]. split.
    + apply Forall_forall. intros b Hb%list_elem_of_filter. by destruct Hb.
    + eapply Nat.le_lt_trans; [apply length_filter|]. rewrite length_map.
      destruct (exists_last Hs) as (l & x & ->). rewrite removelast_last, length_app. cbn. lia.
  - intros s k w Hs. cbn. by rewrite before_nul_app.
  - intros s k w Hs. cbn. by rewrite before_nul_app.
  - intros s buf w Hl. eexists. split; [done|]. by destruct (fat s).
Defined.
End Ascii.

(** "Ab" in lower case, in a buffer of three units and in one of four. *)
Lemma str_lwr_cases_witness :
  (exists r, str_lwr [65; 98; 0] [7; 7; 7] tt = Ret ((Ok r, r), tt) /\ r = [97; 98; 0]) /\
  (exists r, str_lwr [65; 98; 0] [7; 7; 7; 7] tt = Ret ((Ok r, r), tt) /\ ~ cstr16_wf r).
Proof.
  assert (Forall body_char [65; 98]) as Hb by by_decide. split.
  - destruct (str_lwr_cases [65; 98] [7; 7; 7] tt Hb) as (r & E & Er & _). exists r. split; [exact E|exact Er].
  - destruct (str_lwr_cases [65; 98] [7; 7; 7; 7] tt Hb) as (r & E & _ & Hw). exists r. split; [exact E|].
    rewrite Hw. by vm_compute.
Defined.

(** "a" as a FAT name, in a buffer of zeros and in one that ends in a seven. *)
Lemma str_to_fat_cases_witness :
  (exists b, str_to_fat (H := debug_profile) [97; 0] [0; 0; 0] tt = Ret ((Ok [65; 0], b), tt)) /\
  str_to_fat (H := debug_profile) [97; 0] [0; 0; 7] tt = Undefined.
Proof.
  split.
  - destruct (str_to_fat_cases (H := debug_profile) [97; 0] [0; 0; 0] tt) as [Hok _]; [by vm_compute|].
    apply Hok; [done|by repeat constructor].
  - destruct (str_to_fat_cases (H := debug_profile) [97; 0] [0; 0; 7] tt) as [_ Hund]; [by vm_compute|].
    by apply (Hund 7).
Defined.
