(* ===== verification/Pci.v ===== *)
(** * PCI configuration space

    [uefi/src/proto/pci/{mod,root_bridge}.rs] and the widths of
    [uefi-raw/src/protocol/pci/root_bridge.rs].  The unit of an access, [u8] to [u64],
    is its size in bytes; a buffer of units is the list of their values. *)
From stdpp Require Import gmap.
From S2P Require Import Prelude Firmware Status.

(** ** Addresses *)

Record PciIoAddress : Set := mkPciIoAddress { reg : Z; fun_ : Z; dev : Z; bus : Z; ext_reg : Z }.

Definition address_new (bus dev fun_ : Z) : PciIoAddress := mkPciIoAddress 0 fun_ dev bus 0.

Definition with_register (self : PciIoAddress) (reg : Z) : PciIoAddress :=
  mkPciIoAddress reg (fun_ self) (dev self) (bus self) 0.

Definition with_extended_register (self : PciIoAddress) (ext_reg : Z) : PciIoAddress :=
  mkPciIoAddress 0 (fun_ self) (dev self) (bus self) ext_reg.

(** The integer is little-endian. *)
Definition address_from_u64 (value : Z) : PciIoAddress :=
  let raw := le_bytes 8 value in
  let at_ i := nth i raw 0 in
  mkPciIoAddress (at_ 0%nat) (at_ 1%nat) (at_ 2%nat) (at_ 3%nat) (le_val (drop 4 raw)).

Definition u64_from_address (a : PciIoAddress) : Z :=
  le_val ([reg a; fun_ a; dev a; bus a] ++ le_bytes 4 (ext_reg a)).

Definition address_cmp (a b : PciIoAddress) : comparison := u64_from_address a ?= u64_from_address b.

(** ** Widths *)

Inductive PciIoMode : Set := Normal | Fifo | Fill.

Definition encode_io_mode_and_unit (mode : PciIoMode) (size : Z) : outcome Z :=
  match mode, size with
  | Normal, 1 => Ret 0
  | Normal, 2 => Ret 1
  | Normal, 4 => Ret 2
  | Normal, 8 => Ret 3
  | Fifo, 1 => Ret 4
  | Fifo, 2 => Ret 5
  | Fifo, 4 => Ret 6
  | Fifo, 8 => Ret 7
  | Fill, 1 => Ret 8
  | Fill, 2 => Ret 9
  | Fill, 4 => Ret 10
  | Fill, 8 => Ret 11
  | _, _ => Panic Explicit
  end.

(** ** The root bridge *)

Class PciServices (W : Type) : Type := {
  segment_number : W -> Z;
  efi_pci_read : Z -> Z -> Z -> list Z -> W -> (Z * list Z) * W;
  efi_pci_write : Z -> Z -> Z -> list Z -> W -> Z * W;
  efi_pci_flush : W -> Z * W;
}.

(** A buffer in memory, and back. *)
Definition unit_bytes (size : Z) (data : list Z) : list Z := concat (map (le_bytes (Z.to_nat size)) data).

Fixpoint bytes_units (size : Z) (n : nat) (bytes : list Z) : list Z :=
  match n with
  | O => []
  | S n => le_val (take (Z.to_nat size) bytes) :: bytes_units size n (drop (Z.to_nat size) bytes)
  end.

Section root_bridge.
Context {W : Type} `{!PciServices W} (size : Z).

Definition segment_nr : fw W Z := call (fun w => (segment_number w, w)).

Definition flush : fw W (uresult unit unit) := status ← call efi_pci_flush; lift (to_result status).

Definition read_one (addr : PciIoAddress) : fw W (uresult Z unit) :=
  width_mode ← lift (encode_io_mode_and_unit Normal size);
  '(status, buf) ← call (efi_pci_read width_mode (u64_from_address addr) 1 (unit_bytes size [0]));
  lift (to_result_with_val status (le_val (take (Z.to_nat size) buf))).

Definition write_one (addr : PciIoAddress) (data : Z) : fw W (uresult unit unit) :=
  width_mode ← lift (encode_io_mode_and_unit Normal size);
  status ← call (efi_pci_write width_mode (u64_from_address addr) 1 (unit_bytes size [data]));
  lift (to_result status).

(** The slice afterwards is returned too. *)
Definition read_in (mode : PciIoMode) (addr : PciIoAddress) (data : list Z) : fw W (uresult unit unit * list Z) :=
  width_mode ← lift (encode_io_mode_and_unit mode size);
  '(status, buf) ← call (efi_pci_read width_mode (u64_from_address addr) (zlen data) (unit_bytes size data));
  r ← lift (to_result status);
  mret (r, bytes_units size (length data) buf).

Definition write_in (mode : PciIoMode) (addr : PciIoAddress) (data : list Z) : fw W (uresult unit unit) :=
  width_mode ← lift (encode_io_mode_and_unit mode size);
  status ← call (efi_pci_write width_mode (u64_from_address addr) (zlen data) (unit_bytes size data));
  lift (to_result status).

Definition read (addr : PciIoAddress) (data : list Z) := read_in Normal addr data.
Definition write (addr : PciIoAddress) (data : list Z) := write_in Normal addr data.
Definition fifo_read (addr : PciIoAddress) (data : list Z) := read_in Fifo addr data.
Definition fifo_write (addr : PciIoAddress) (data : list Z) := write_in Fifo addr data.

Definition fill_write (addr : PciIoAddress) (count data : Z) : fw W (uresult unit unit) :=
  width_mode ← lift (encode_io_mode_and_unit Fill size);
  status ← call (efi_pci_write width_mode (u64_from_address addr) count (unit_bytes size [data]));
  lift (to_result status).
End root_bridge.

(** ** Properties of addresses *)

Definition address_wf (a : PciIoAddress) : Prop :=
  is_u8 (reg a) /\ is_u8 (fun_ a) /\ is_u8 (dev a) /\ is_u8 (bus a) /\ in_width 32 (ext_reg a).

Lemma u64_from_address_value a : address_wf a ->
  u64_from_address a = reg a + 2 ^ 8 * fun_ a + 2 ^ 16 * dev a + 2 ^ 24 * bus a + 2 ^ 32 * ext_reg a.
Proof.
  intros (_ & _ & _ & _ & He). unfold u64_from_address.
  change (le_val ([reg a; fun_ a; dev a; bus a] ++ le_bytes 4 (ext_reg a)))
    with (reg a + 256 * (fun_ a + 256 * (dev a + 256 * (bus a + 256 * le_val (le_bytes 4 (ext_reg a)))))).
  rewrite le_val_bytes by exact He. lia.
Qed.

(** Addresses and their integers determine each other, and are ordered by the extended
    register, then bus, device, function and register. *)
Theorem address_u64 (a b : PciIoAddress) (v : Z) :
  address_wf a -> address_wf b -> in_width 64 v ->
  address_from_u64 (u64_from_address a) = a /\ u64_from_address (address_from_u64 v) = v /\
  (address_cmp a b = Eq <-> a = b) /\
  (address_cmp a b = Lt <-> ext_reg a < ext_reg b \/ ext_reg a = ext_reg b /\
    (bus a < bus b \/ bus a = bus b /\ (dev a < dev b \/ dev a = dev b /\
      (fun_ a < fun_ b \/ fun_ a = fun_ b /\ reg a < reg b)))).
Proof.
  intros Ha Hb Hv.
  assert (address_from_u64 (u64_from_address a) = a) as Hrt.
  { unfold address_from_u64. assert (le_bytes 8 (u64_from_address a) = [reg a; fun_ a; dev a; bus a] ++ le_bytes 4 (ext_reg a)) as E.
    - unfold u64_from_address. destruct Ha as (? & ? & ? & ? & ?).
      change 8%nat with (length ([reg a; fun_ a; dev a; bus a] ++ le_bytes 4 (ext_reg a))).
      apply le_bytes_val. repeat (constructor; [done|]). apply le_bytes_u8.
    - rewrite E. destruct Ha as (_ & _ & _ & _ & He). change (drop 4 ([reg a; fun_ a; dev a; bus a] ++ ?l)) with l. rewrite le_val_bytes by exact He. by destruct a. }
  split; [done|]. split.
  { unfold u64_from_address, address_from_u64. cbn [reg fun_ dev bus ext_reg].
    assert (forall l, length l = 4%nat -> Forall is_u8 l -> le_bytes 4 (le_val l) = l) as H4 by (intros l <-; apply le_bytes_val).
    rewrite H4; [|done|apply Forall_drop, le_bytes_u8]. change ([?x; ?y; ?z; ?t] ++ ?l) with (x :: y :: z :: t :: l).
    transitivity (le_val (le_bytes 8 v)); [done|]. by apply le_val_bytes. }
  unfold address_cmp. split.
  - rewrite Z.compare_eq_iff. split; [|by intros ->]. intros E. rewrite !u64_from_address_value in E by done.
    unfold address_wf, is_u8, in_width in Ha, Hb. destruct a, b; cbn in *. f_equal; lia.
  - rewrite Z.compare_lt_iff, !u64_from_address_value by done. unfold address_wf, is_u8, in_width in Ha, Hb. lia.
Qed.

(** ** What the specification documents

    The configuration space of a root bridge has bytes at the offsets of the devices. *)
Abbreviation space := (gmap ((Z * Z * Z) * Z) Z).

Fixpoint put_bytes (d : Z * Z * Z) (o : Z) (bytes : list Z) (m : space) : space :=
  match bytes with [] => m | b :: bytes => put_bytes d (o + 1) bytes (<[(d, o) := b]> m) end.

Fixpoint get_bytes (d : Z * Z * Z) (o : Z) (n : nat) (m : space) : list Z :=
  match n with O => [] | S n => default 0 (m !! (d, o)) :: get_bytes d (o + 1) n m end.

(** The device and the offset that an integer stands for: the extended register, if it
    is not zero, takes the place of the register. *)
Definition location (a : Z) : (Z * Z * Z) * Z :=
  ((a / 2 ^ 24 mod 256, a / 2 ^ 16 mod 256, a / 2 ^ 8 mod 256), if a / 2 ^ 32 =? 0 then a mod 256 else a / 2 ^ 32).

(** The widths: an access in [Fifo] mode stays at the address, and one in [Fill] mode
    writes the same unit again. *)
Definition widths : list (PciIoMode * nat) :=
  m ← [Normal; Fifo; Fill]; size ← [1; 2; 4; 8]%nat; [(m, size)].

Fixpoint stores (mode : PciIoMode) (size : nat) (d : Z * Z * Z) (o : Z) (count : nat) (buf : list Z) (m : space) : space :=
  match count with
  | O => m
  | S count =>
      stores mode size d (match mode with Fifo => o | _ => o + Z.of_nat size end) count
        (match mode with Fill => buf | _ => drop size buf end) (put_bytes d o (take size buf) m)
  end.

Fixpoint loads (mode : PciIoMode) (size : nat) (d : Z * Z * Z) (o : Z) (count : nat) (m : space) : list Z :=
  match count with
  | O => []
  | S count => get_bytes d o size m ++ loads mode size d (match mode with Fifo => o | _ => o + Z.of_nat size end) count m
  end.

(** A bridge whose devices keep what is written to them. *)
Class PciLaws (W : Type) `{!PciServices W} : Type := {
  config : W -> space;
  pci_write_law : forall width a count buf w w' i mode size, 0 <= count ->
    width = Z.of_nat i -> widths !! i = Some (mode, size) -> efi_pci_write width a count buf w = (0, w') ->
    config w' = stores mode size (location a).1 (location a).2 (Z.to_nat count) buf (config w);
  pci_read_law : forall width a count buf w out w' i mode size, 0 <= count ->
    width = Z.of_nat i -> widths !! i = Some (mode, size) -> efi_pci_read width a count buf w = ((0, out), w') ->
    config w' = config w /\ out = loads mode size (location a).1 (location a).2 (Z.to_nat count) (config w);
}.

(** The device and the offset of an address. *)
Definition device_of (a : PciIoAddress) : Z * Z * Z := (bus a, dev a, fun_ a).
Definition offset_of (a : PciIoAddress) : Z := if ext_reg a =? 0 then reg a else ext_reg a.

Lemma split_mod r z : 0 <= r < 256 -> (r + 256 * z) mod 256 = r.
Proof. intros Hr. rewrite Z.mul_comm, Z.mod_add by done. by apply Z.mod_small. Qed.

Lemma location_address a : address_wf a -> location (u64_from_address a) = (device_of a, offset_of a).
Proof.
  intros Ha. rewrite u64_from_address_value by done. unfold address_wf, is_u8, in_width in Ha. unfold location, device_of, offset_of.
  destruct a as [r f d b x]; cbn [reg fun_ dev bus ext_reg] in *.
  set (v := r + 2 ^ 8 * f + 2 ^ 16 * d + 2 ^ 24 * b + 2 ^ 32 * x).
  assert (v / 2 ^ 32 = x) as -> by (symmetry; apply (Z.div_unique_pos v _ _ (v - 2 ^ 32 * x)); unfold v; lia).
  assert (v / 2 ^ 24 = b + 256 * x) as -> by (symmetry; apply (Z.div_unique_pos v _ _ (r + 2 ^ 8 * f + 2 ^ 16 * d)); unfold v; lia).
  assert (v / 2 ^ 16 = d + 256 * (b + 256 * x)) as -> by (symmetry; apply (Z.div_unique_pos v _ _ (r + 2 ^ 8 * f)); unfold v; lia).
  assert (v / 2 ^ 8 = f + 256 * (d + 256 * (b + 256 * x))) as -> by (symmetry; apply (Z.div_unique_pos v _ _ r); unfold v; lia).
  assert (v mod 256 = r) as -> by (symmetry; apply (Z.mod_unique_pos v _ (f + 256 * (d + 256 * (b + 256 * x)))); unfold v; lia).
  by rewrite !split_mod by lia.
Qed.

(** ** Bytes of the configuration space *)

Lemma put_bytes_app d a b : forall o m, put_bytes d o (a ++ b) m = put_bytes d (o + zlen a) b (put_bytes d o a m).
Proof.
  induction a as [|x a IH]; intros o m; cbn [put_bytes app].
  - by rewrite Z.add_0_r.
  - rewrite IH, zlen_cons. f_equal. lia.
Qed.

Lemma put_bytes_insert d bs : forall o o' x m, o' < o -> put_bytes d o bs (<[(d, o') := x]> m) = <[(d, o') := x]> (put_bytes d o bs m).
Proof.
  induction bs as [|b bs IH]; intros o o' x m Ho; [done|]. cbn [put_bytes].
  rewrite insert_insert_ne by (intros [=]; lia). apply IH. lia.
Qed.

Lemma put_bytes_over d b : forall a o m, length a = length b -> put_bytes d o b (put_bytes d o a m) = put_bytes d o b m.
Proof.
  induction b as [|y b IH]; intros [|x a] o m Hl; try done. cbn [put_bytes].
  rewrite (put_bytes_insert d a) by lia. rewrite insert_insert_eq, <- (put_bytes_insert d a) by lia. apply IH. by injection Hl.
Qed.

Lemma get_put_bytes d bs : forall o m, get_bytes d o (length bs) (put_bytes d o bs m) = bs.
Proof.
  induction bs as [|b bs IH]; intros o m; [done|]. cbn [put_bytes get_bytes length]. rewrite IH. f_equal.
  rewrite put_bytes_insert by lia. by rewrite lookup_insert_eq.
Qed.

Lemma get_bytes_add d n k : forall o m, get_bytes d o (n + k) m = get_bytes d o n m ++ get_bytes d (o + Z.of_nat n) k m.
Proof.
  induction n as [|n IH]; intros o m; cbn [get_bytes app Nat.add]; [by rewrite Z.add_0_r|]. f_equal. rewrite IH. do 2 f_equal. lia.
Qed.

Lemma loads_normal size d : forall count o m, loads Normal size d o count m = get_bytes d o (count * size) m.
Proof. induction count as [|count IH]; intros o m; [done|]. cbn [loads]. by rewrite IH, Nat.mul_succ_l, Nat.add_comm, get_bytes_add. Qed.

Lemma stores_normal size d : forall data o m, (forall x, x ∈ data -> length x = size) ->
  stores Normal size d o (length data) (concat data) m = put_bytes d o (concat data) m.
Proof.
  induction data as [|x data IH]; intros o m Hs; [done|]. cbn [stores length concat]. assert (length x = size) as <- by (apply Hs; by left).
  rewrite take_app_length, drop_app_length, IH by (intros; apply Hs; by right). by rewrite put_bytes_app.
Qed.

Lemma stores_fill size d x : length x = size -> forall count o m,
  stores Fill size d o count x m = put_bytes d o (concat (replicate count x)) m.
Proof.
  intros Hx. induction count as [|count IH]; intros o m; [done|]. cbn [stores replicate concat].
  rewrite take_ge, IH by lia. rewrite put_bytes_app. unfold zlen. by rewrite Hx.
Qed.

Lemma stores_fifo size d x : length x = size -> forall data o m, (forall y, y ∈ data -> length y = size) ->
  stores Fifo size d o (length (data ++ [x])) (concat (data ++ [x])) m = put_bytes d o x m.
Proof.
  intros Hx. induction data as [|y data IH]; intros o m Hs; cbn [app length concat stores].
  - by rewrite app_nil_r, take_ge by lia.
  - assert (length y = size) as Hy by (apply Hs; by left).
    rewrite (take_app_length' y), (drop_app_length' y) by done.
    rewrite IH by (intros; apply Hs; by right). apply put_bytes_over. congruence.
Qed.

Section accesses.
Context {W : Type} `{!PciServices W, !PciLaws W}.

Lemma length_unit size x : length (le_bytes (Z.to_nat size) x) = Z.to_nat size.
Proof. apply length_le_bytes. Qed.

Lemma unit_lengths size data y : y ∈ map (le_bytes (Z.to_nat size)) data -> length y = Z.to_nat size.
Proof. intros (x & -> & _)%list_elem_of_fmap. apply length_unit. Qed.

Lemma length_unit_bytes size data : length (unit_bytes size data) = (length data * Z.to_nat size)%nat.
Proof. unfold unit_bytes. induction data as [|x data IH]; [done|]. cbn. by rewrite length_app, length_unit, IH. Qed.

Lemma bytes_units_bytes size data : 0 <= size -> Forall (in_width (8 * size)) data ->
  bytes_units size (length data) (unit_bytes size data) = data.
Proof.
  intros Hs. unfold unit_bytes. induction 1 as [|x data Hx _ IH]; [done|]. cbn [map concat length bytes_units].
  rewrite take_app_length', drop_app_length', IH by (by rewrite length_unit). f_equal. apply le_val_bytes.
  unfold in_width in Hx. rewrite Z2Nat.id by done. by rewrite Z.pow_mul_r in Hx by lia.
Qed.

(** The sizes of the units. *)
Definition is_unit (size : Z) : Prop := size = 1 \/ size = 2 \/ size = 4 \/ size = 8.

Lemma encode_widths mode size : is_unit size ->
  exists i, encode_io_mode_and_unit mode size = Ret (Z.of_nat i) /\ widths !! i = Some (mode, Z.to_nat size).
Proof.
  intros Hs. exists (match mode with Normal => 0 | Fifo => 4 | Fill => 8 end + Z.to_nat (Z.log2 size))%nat.
  destruct Hs as [->|[->|[->| ->]]]; by destruct mode.
Qed.

Context (size : Z) (Hsize : is_unit size) (addr : PciIoAddress) (Haddr : address_wf addr).

Lemma size_pos : 0 < size.
Proof. destruct Hsize as [->|[->|[->| ->]]]; lia. Qed.

Lemma write_in_runs mode data w :
  runs (write_in size mode addr data) w (fun r w' => r = Ok tt ->
    config w' = stores mode (Z.to_nat size) (device_of addr) (offset_of addr) (length data) (unit_bytes size data) (config w)).
Proof.
  destruct (encode_widths mode size Hsize) as (i & E & Hi). unfold write_in. runs_step. eapply runs_lift; [exact E|]. do 2 runs_step.
  destruct (efi_pci_write (Z.of_nat i) (u64_from_address addr) (zlen data) (unit_bytes size data) w) as [s w'] eqn:Ew. cbn [fst snd].
  rewrite to_result_cases. eapply runs_lift; [done|]. destruct (Z.eqb_spec s 0) as [->|]; [|done]. intros _.
  rewrite (pci_write_law _ _ _ _ _ _ i mode (Z.to_nat size) (zlen_nonneg data) eq_refl Hi Ew).
  rewrite location_address by done. cbn [fst snd]. unfold zlen. by rewrite Nat2Z.id.
Qed.

Lemma fill_write_runs count x w : 0 <= count ->
  runs (fill_write size addr count x) w (fun r w' => r = Ok tt ->
    config w' = put_bytes (device_of addr) (offset_of addr) (unit_bytes size (replicate (Z.to_nat count) x)) (config w)).
Proof.
  intros Hc. destruct (encode_widths Fill size Hsize) as (i & E & Hi). unfold fill_write. runs_step. eapply runs_lift; [exact E|].
  do 2 runs_step. destruct (efi_pci_write (Z.of_nat i) (u64_from_address addr) count (unit_bytes size [x]) w) as [s w'] eqn:Ew. cbn [fst snd].
  rewrite to_result_cases. eapply runs_lift; [done|]. destruct (Z.eqb_spec s 0) as [->|]; [|done]. intros _.
  rewrite (pci_write_law _ _ _ _ _ _ i Fill (Z.to_nat size) Hc eq_refl Hi Ew). rewrite location_address by done. cbn [fst snd].
  unfold unit_bytes. cbn [map concat]. rewrite app_nil_r, stores_fill by apply length_unit. f_equal.
  by rewrite <- fmap_replicate.
Qed.

Lemma read_runs data w :
  runs (read size addr data) w (fun r w' => r.1 = Ok tt ->
    config w' = config w /\ r.2 = bytes_units size (length data) (get_bytes (device_of addr) (offset_of addr) (length data * Z.to_nat size) (config w))).
Proof.
  destruct (encode_widths Normal size Hsize) as (i & E & Hi). unfold read, read_in. runs_step. eapply runs_lift; [exact E|]. do 2 runs_step.
  destruct (efi_pci_read (Z.of_nat i) (u64_from_address addr) (zlen data) (unit_bytes size data) w) as [[s out] w'] eqn:Er. cbn [fst snd].
  runs_step. rewrite to_result_cases. eapply runs_lift; [done|]. runs_step. cbn [fst snd]. destruct (Z.eqb_spec s 0) as [->|]; [|done]. intros _.
  destruct (pci_read_law _ _ _ _ _ _ _ i Normal (Z.to_nat size) (zlen_nonneg data) eq_refl Hi Er) as [-> ->]. split; [done|].
  rewrite location_address by done. cbn [fst snd]. unfold zlen. by rewrite Nat2Z.id, loads_normal.
Qed.

Lemma read_back data dst w m :
  Forall (in_width (8 * size)) data -> length dst = length data ->
  config w = put_bytes (device_of addr) (offset_of addr) (unit_bytes size data) m ->
  runs (read size addr dst) w (fun r _ => r.1 = Ok tt -> r.2 = data).
Proof.
  intros Hd Hl Hm. eapply runs_weaken; [apply read_runs|]. intros r w' Hr Hok. destruct (Hr Hok) as [_ ->].
  rewrite Hm, Hl, <- length_unit_bytes, get_put_bytes. apply bytes_units_bytes; [|done]. pose proof size_pos. lia.
Qed.

(** A write, and then a read of the range that it leaves in the device. *)
Lemma then_read (m : fw W (uresult unit unit)) data dst c w :
  runs m w (fun r w' => r = Ok tt -> config w' = put_bytes (device_of addr) (offset_of addr) (unit_bytes size data) c) ->
  Forall (in_width (8 * size)) data -> length dst = length data ->
  runs (r ← m; o ← read size addr dst; mret (r, o)) w (fun p _ => p.1 = Ok tt -> p.2.1 = Ok tt -> p.2.2 = data).
Proof.
  intros Hm Hd Hl. runs_step. eapply runs_weaken; [exact Hm|]. intros r w1 Hw. runs_step. destruct r as [[]|e].
  - eapply runs_weaken; [eapply read_back; [done..|by apply Hw]|]. intros o w2 Ho. runs_step. by intros _.
  - eapply runs_weaken; [apply read_runs|]. intros o w2 _. by runs_step.
Qed.
End accesses.

(** What is written to a device is read back, for every width: units that were written
    one after the other, a unit that fills a range, and the last of the units that were
    written to one address.  No access panics. *)
Theorem pci_write_read {W : Type} `{!PciServices W, !PciLaws W} (size : Z) (addr : PciIoAddress) (data dst : list Z) (x : Z) (w : W) :
  is_unit size -> address_wf addr -> Forall (in_width (8 * size)) (x :: data) -> length dst = length data ->
  runs (r ← write size addr data; o ← read size addr dst; mret (r, o)) w (fun p _ => p.1 = Ok tt -> p.2.1 = Ok tt -> p.2.2 = data) /\
  runs (r ← fill_write size addr (zlen data) x; o ← read size addr dst; mret (r, o)) w
    (fun p _ => p.1 = Ok tt -> p.2.1 = Ok tt -> p.2.2 = replicate (length data) x) /\
  runs (r ← fifo_write size addr (data ++ [x]); o ← read size addr [0]; mret (r, o)) w
    (fun p _ => p.1 = Ok tt -> p.2.1 = Ok tt -> p.2.2 = [x]).
Proof.
  intros Hu Ha Hd Hl. inversion_clear Hd as [|? ? Hx Hdata].
  repeat split.
  - eapply then_read; [done..| |done|done]. eapply runs_weaken; [by apply write_in_runs|]. intros r w1 Hw Hok. rewrite (Hw Hok).
    unfold unit_bytes. rewrite <- (length_map (le_bytes (Z.to_nat size))). apply stores_normal. intros y. apply unit_lengths.
  - eapply then_read; [done..| |by apply Forall_replicate|by rewrite length_replicate].
    eapply runs_weaken; [apply fill_write_runs; [done..|apply zlen_nonneg]|]. intros r w1 Hw Hok. rewrite (Hw Hok). unfold zlen.
    by rewrite Nat2Z.id.
  - eapply then_read; [done..| |by constructor|done]. eapply runs_weaken; [by apply write_in_runs|]. intros r w1 Hw Hok. rewrite (Hw Hok).
    unfold unit_bytes. rewrite map_app. cbn [map concat]. rewrite app_nil_r.
    rewrite <- (length_map (le_bytes (Z.to_nat size))), map_app. cbn [map]. apply stores_fifo; [apply length_unit|]. intros y. apply unit_lengths.
Qed.

(** ** A bridge *)
Module Bridge.
Definition access (width : Z) : option (PciIoMode * nat) := if 0 <=? width then widths !! Z.to_nat width else None.

#[global] Instance services : PciServices space := {|
  segment_number _ := 0;
  efi_pci_read width a count buf m :=
    match access width with
    | Some (mode, size) => ((0, loads mode size (location a).1 (location a).2 (Z.to_nat count) m), m)
    | None => ((Status.INVALID_PARAMETER, buf), m)
    end;
  efi_pci_write width a count buf m :=
    match access width with
    | Some (mode, size) => (0, stores mode size (location a).1 (location a).2 (Z.to_nat count) buf m)
    | None => (Status.INVALID_PARAMETER, m)
    end;
  efi_pci_flush m := (0, m);
|}.

Lemma access_index i : access (Z.of_nat i) = widths !! i.
Proof. unfold access. by rewrite (proj2 (Z.leb_le _ _)), Nat2Z.id by lia. Qed.

#[global, refine] Instance laws : PciLaws space := {| config m := m |}.
Proof.
  - intros ? a count buf w w' i mode size _ -> Hi. cbn. rewrite access_index, Hi. by intros [= <-].
  - intros ? a count buf w out w' i mode size _ -> Hi. cbn. rewrite access_index, Hi. by intros [= <- <-].
Defined.

(** The results of a write and a read, without the memory. *)
Definition oks (o : outcome (uresult unit unit * (uresult unit unit * list Z) * space)) : option (uresult unit unit * uresult unit unit) :=
  match o with Ret (r, o, _) => Some (r, o.1) | _ => None end.

Lemma oks_run o r d m : o = Ret (r, d, m) -> oks o = Some (r, d.1).
Proof. by intros ->. Qed.
End Bridge.

(** Two 16-bit units at register 4 of a device, and an extended register. *)
Lemma pci_write_read_witness :
  exists m, (r ← write 2 (with_register (address_new 1 2 3) 4) [0x1234; 0x5678]; o ← read 2 (with_register (address_new 1 2 3) 4) [0; 0]; mret (r, o)) ∅
    = Ret ((Ok tt, (Ok tt, [0x1234; 0x5678])), m) /\
  exists m, (r ← fifo_write 4 (with_extended_register (address_new 1 2 3) 0x100) [7; 8]; o ← read 4 (with_extended_register (address_new 1 2 3) 0x100) [0]; mret (r, o)) ∅
    = Ret ((Ok tt, (Ok tt, [8])), m).
Proof.
  destruct (pci_write_read 2 (with_register (address_new 1 2 3) 4) [0x1234; 0x5678] [0; 0] 0 (∅ : space)) as [((r, o) & m & E & Hr) _];
    [right; by left|by repeat split|by repeat constructor|done|].
  destruct (pci_write_read 4 (with_extended_register (address_new 1 2 3) 0x100) [7] [0] 8 (∅ : space)) as (_ & _ & ((r2, o2) & m2 & E2 & Hr2));
    [do 2 right; by left|by repeat split|by repeat constructor|done|].
  assert (r = Ok tt /\ o.1 = Ok tt) as [-> Ho] by (apply Bridge.oks_run in E; revert E; vm_compute; by intros [= <- <-]).
  assert (r2 = Ok tt /\ o2.1 = Ok tt) as [-> Ho2] by (apply Bridge.oks_run in E2; revert E2; vm_compute; by intros [= <- <-]).
  destruct o as [ro d], o2 as [ro2 d2]. cbn in *. subst. exists m. split; [by rewrite E, Hr|]. exists m2. by rewrite E2, Hr2.
Defined.

(** The address of the source's test. *)
Lemma address_u64_witness :
  u64_from_address (mkPciIoAddress 0x11 0x33 0x55 0x77 0x99bbddff) = 0x99bbddff77553311 /\
  address_from_u64 0x99bbddff77553311 = mkPciIoAddress 0x11 0x33 0x55 0x77 0x99bbddff.
Proof.
  destruct (address_u64 (mkPciIoAddress 0x11 0x33 0x55 0x77 0x99bbddff) (address_new 0 0 0) 0) as (E & _); [by repeat split..|].
  split; [by vm_compute|exact E].
Defined.
