(* ===== verification/Media.v ===== *)
(** * Block devices, disks, files to load and partitions

    [uefi/src/proto/media/{block,disk,disk_info,load_file,partition}.rs].  Structures
    that the firmware lays out in memory are decoded from their bytes; a GUID is its
    sixteen bytes there. *)
From S2P Require Import Prelude Firmware Status BootMemory BootProtocols BootEvents.

(** ** Block devices *)

Record BlockIoMedia : Set := mkBlockIoMedia {
  media_id : Z;
  removable_media : Z;
  media_present : Z;
  logical_partition : Z;
  read_only : Z;
  write_caching : Z;
  block_size : Z;
  io_align : Z;
  last_block : Z;
  lowest_aligned_lba : Z;
  logical_blocks_per_physical_block : Z;
  optimal_transfer_length_granularity : Z;
}.

Definition is_removable_media (m : BlockIoMedia) : bool := bool_of_boolean (removable_media m).
Definition is_media_present (m : BlockIoMedia) : bool := bool_of_boolean (media_present m).
Definition is_logical_partition (m : BlockIoMedia) : bool := bool_of_boolean (logical_partition m).
Definition is_read_only (m : BlockIoMedia) : bool := bool_of_boolean (read_only m).
Definition is_write_caching (m : BlockIoMedia) : bool := bool_of_boolean (write_caching m).

Class BlockServices (W : Type) : Type := {
  block_media : W -> BlockIoMedia;
  efi_block_reset : Z -> W -> Z * W;
  efi_read_blocks : Z -> Z -> Z -> list Z -> W -> (Z * list Z) * W;
  efi_write_blocks : Z -> Z -> Z -> list Z -> W -> Z * W;
  efi_flush_blocks : W -> Z * W;
  efi_read_disk : Z -> Z -> Z -> list Z -> W -> (Z * list Z) * W;
  efi_write_disk : Z -> Z -> Z -> list Z -> W -> Z * W;
  efi_disk_cancel : W -> Z * W;
  efi_read_disk_ex : Z -> Z -> Z -> Z -> Z -> W -> Z * W;
  efi_write_disk_ex : Z -> Z -> Z -> Z -> Z -> W -> Z * W;
  efi_flush_disk_ex : Z -> W -> Z * W;
}.

Section block.
Context {W : Type} `{!BlockServices W}.

Definition media : fw W BlockIoMedia := call (fun w => (block_media w, w)).

Definition block_reset (extended_verification : bool) : fw W (uresult unit unit) :=
  status ← call (efi_block_reset (boolean_of_bool extended_verification)); lift (to_result status).

(** The buffer afterwards is returned too. *)
Definition read_blocks (media_id lba : Z) (buffer : list Z) : fw W (uresult unit unit * list Z) :=
  '(status, buffer) ← call (efi_read_blocks media_id lba (zlen buffer) buffer);
  r ← lift (to_result status); mret (r, buffer).

Definition write_blocks (media_id lba : Z) (buffer : list Z) : fw W (uresult unit unit) :=
  status ← call (efi_write_blocks media_id lba (zlen buffer) buffer); lift (to_result status).

Definition flush_blocks : fw W (uresult unit unit) := status ← call efi_flush_blocks; lift (to_result status).

(** ** Disks *)

Definition read_disk (media_id offset : Z) (buffer : list Z) : fw W (uresult unit unit * list Z) :=
  '(status, buffer) ← call (efi_read_disk media_id offset (zlen buffer) buffer);
  r ← lift (to_result status); mret (r, buffer).

Definition write_disk (media_id offset : Z) (buffer : list Z) : fw W (uresult unit unit) :=
  status ← call (efi_write_disk media_id offset (zlen buffer) buffer); lift (to_result status).

(** [DiskIo2]: tokens and buffers are addresses. *)
Definition cancel : fw W (uresult unit unit) := status ← call efi_disk_cancel; lift (to_result status).

Definition read_disk_raw (media_id offset : Z) (token : option Z) (len buffer : Z) : fw W (uresult unit unit) :=
  status ← call (efi_read_disk_ex media_id offset (opt_nonnull_to_ptr token) len buffer); lift (to_result status).

Definition write_disk_raw (media_id offset : Z) (token : option Z) (len buffer : Z) : fw W (uresult unit unit) :=
  status ← call (efi_write_disk_ex media_id offset (opt_nonnull_to_ptr token) len buffer); lift (to_result status).

Definition flush_disk (token : option Z) : fw W (uresult unit unit) :=
  status ← call (efi_flush_disk_ex (opt_nonnull_to_ptr token)); lift (to_result status).
End block.

(** ** Disk information *)

Inductive DiskInfoInterface : Set := Unknown | IDE | UFS | USB | AHCI | NVME | SCSI | SDMMC.
Record SenseDataInfo : Set := mkSenseDataInfo { sense_bytes : Z; sense_number : Z }.
Record DeviceLocationInfo : Set := mkDeviceLocationInfo { channel : Z; device : Z }.

Class DiskInfoServices (W : Type) : Type := {
  disk_info_interface : W -> Z;
  efi_inquiry : list Z -> Z -> W -> (Z * list Z * Z) * W;
  efi_identify : list Z -> Z -> W -> (Z * list Z * Z) * W;
  efi_sense_data : list Z -> Z -> W -> (Z * list Z * Z * Z) * W;
  efi_which_ide : W -> (Z * Z * Z) * W;
}.

Section disk_info.
Context {W : Type} `{!DiskInfoServices W}.

Definition interface : fw W DiskInfoInterface :=
  g ← call (fun w => (disk_info_interface w, w));
  mret (if g =? 0x5e948fe326d342b5af17610287188dec then IDE
    else if g =? 0x4b3029cc6b9847fbbc9676dcb80441f0 then UFS
    else if g =? 0xcb871572c11a47b5b492675eafa77727 then USB
    else if g =? 0x9e4989324abc45afa34d0247787be7c6 then AHCI
    else if g =? 0x3ab146805d3f4a4dbcdccc380018c7f7 then NVME
    else if g =? 0x08f74baaea3641d9952121a70f8780bc then SCSI
    else if g =? 0x8deec992d39c4a5cab6b986e14242b9d then SDMMC
    else Unknown).

(** The length is cut off to 32 bits. *)
Definition inquiry (bfr : list Z) : fw W (uresult Z unit * list Z) :=
  '(status, bfr, len) ← call (efi_inquiry bfr (wrap 32 (zlen bfr)));
  r ← lift (to_result_with_val status len); mret (r, bfr).

Definition identify (bfr : list Z) : fw W (uresult Z unit * list Z) :=
  '(status, bfr, len) ← call (efi_identify bfr (wrap 32 (zlen bfr)));
  r ← lift (to_result_with_val status len); mret (r, bfr).

Definition sense_data (bfr : list Z) : fw W (uresult SenseDataInfo unit * list Z) :=
  '(status, bfr, len, number) ← call (efi_sense_data bfr (wrap 32 (zlen bfr)));
  r ← lift (to_result_with_val status (mkSenseDataInfo len number)); mret (r, bfr).

Definition bus_location : fw W (uresult DeviceLocationInfo unit) :=
  '(status, ide_channel, ide_device) ← call efi_which_ide;
  lift (to_result_with_val status (mkDeviceLocationInfo ide_channel ide_device)).
End disk_info.

(** ** Loading files *)

(** The status, the size and the buffer afterwards. *)
Class LoadServices (W : Type) : Type := {
  efi_load_file : list Z -> Z -> list Z -> W -> (Z * Z * list Z) * W;
  efi_load_file2 : list Z -> Z -> list Z -> W -> (Z * Z * list Z) * W;
}.

Section load_file.
Context {W : Type} `{!Status.Allocator W, !LoadServices W}.

(** The closure [fetch_data_fn]. *)
Definition fetch_file (load : list Z -> Z -> list Z -> W -> (Z * Z * list Z) * W) (file_path : list Z) (boot_policy : Z)
    (buf : Buffer) (w : W) : outcome (uresult (list Z) (option Z) * W) :=
  let '((status, size, out), w) := load file_path boot_policy (bytes buf) w in
  let! r := to_result_with_err status (fun _ => Some size) in
  Ret (rmap (fun _ => out) r, w).

Definition load_file (file_path : list Z) (boot_policy : BootPolicy) : fw W (uresult (list Z) unit) :=
  make_boxed 1 (fetch_file efi_load_file file_path (boolean_of_policy boot_policy)).

(** [LoadFile2::load_file]. *)
Definition load_file2 (file_path : list Z) : fw W (uresult (list Z) unit) :=
  make_boxed 1 (fetch_file efi_load_file2 file_path (boolean_of_bool false)).
End load_file.

(** ** Partitions *)

Record MbrPartitionRecord : Set := mkMbr {
  boot_indicator : Z;
  starting_chs : list Z;
  os_type : Z;
  ending_chs : list Z;
  mbr_starting_lba : Z;
  size_in_lba : Z;
}.

Definition is_bootable (self : MbrPartitionRecord) : bool := boot_indicator self =? 0x80.

Record GptPartitionEntry : Set := mkGpt {
  partition_type_guid : list Z;
  unique_partition_guid : list Z;
  gpt_starting_lba : Z;
  ending_lba : Z;
  attributes : Z;
  partition_name : list Z;
}.

Module MbrOsType.
Definition GPT_PROTECTIVE : Z := 0xee.
Definition UEFI_SYSTEM_PARTITION : Z := 0xef.
End MbrOsType.

Module GptPartitionAttributes.
Definition REQUIRED_PARTITION : Z := 1.
Definition NO_BLOCK_IO_PROTOCOL : Z := Z.shiftl 1 1.
Definition LEGACY_BIOS_BOOTABLE : Z := Z.shiftl 1 2.
Definition RESERVED_FOR_PARTITION_TYPE : Z := 0xffff_0000_0000_0000.
(** [TYPE_SPECIFIC_BIT_0] to [TYPE_SPECIFIC_BIT_15]. *)
Definition TYPE_SPECIFIC_BITS : list Z :=
  map (Z.shiftl 1) [47; 48; 49; 50; 51; 52; 53; 54; 55; 56; 57; 58; 59; 60; 61; 62].

Definition type_specific_bits (self : Z) : Z := wrap 16 (Z.shiftr self 48).
End GptPartitionAttributes.

Definition checked_sub_u64 (a b : Z) : option Z := if b <=? a then Some (a - b) else None.
Definition checked_add_u64 (a b : Z) : option Z := if a + b <? 2 ^ 64 then Some (a + b) else None.

Definition num_blocks (self : GptPartitionEntry) : option Z :=
  checked_sub_u64 (ending_lba self) (gpt_starting_lba self) ≫= fun n => checked_add_u64 n 1.

(** The packed structures. *)
Definition decode_mbr (b : list Z) : MbrPartitionRecord :=
  mkMbr (le_val (range b 0 1)) (range b 1 3) (le_val (range b 4 1)) (range b 5 3) (le_val (range b 8 4)) (le_val (range b 12 4)).

Fixpoint u16_units (n : nat) (b : list Z) : list Z :=
  match n with O => [] | S n => le_val (take 2 b) :: u16_units n (drop 2 b) end.

Definition decode_gpt (b : list Z) : GptPartitionEntry :=
  mkGpt (range b 0 16) (range b 16 16) (le_val (range b 32 8)) (le_val (range b 40 8)) (le_val (range b 48 8))
    (u16_units 36 (range b 56 72)).

Module PartitionType.
Definition OTHER : Z := 0.
Definition MBR : Z := 1.
Definition GPT : Z := 2.
End PartitionType.

Definition PROTOCOL_REVISION : Z := 0x0001000.

(** The record is a union of both kinds; it has the size of the larger one. *)
Record PartitionInfo : Set := mkPartitionInfo { revision : Z; partition_type : Z; system : Z; record : list Z }.

Definition decode_partition_info (b : list Z) : PartitionInfo :=
  mkPartitionInfo (le_val (range b 0 4)) (le_val (range b 4 4)) (le_val (range b 8 1)) (range b 16 128).

Definition is_system (self : PartitionInfo) : bool := system self =? 1.

Definition mbr_partition_record (self : PartitionInfo) : option MbrPartitionRecord :=
  if negb (revision self =? PROTOCOL_REVISION) then None
  else if partition_type self =? PartitionType.MBR then Some (decode_mbr (record self))
  else None.

Definition gpt_partition_entry (self : PartitionInfo) : option GptPartitionEntry :=
  if negb (revision self =? PROTOCOL_REVISION) then None
  else if partition_type self =? PartitionType.GPT then Some (decode_gpt (record self))
  else None.

(** ** Properties of partitions *)

Definition mbr_wf (r : MbrPartitionRecord) : Prop :=
  in_width 8 (boot_indicator r) /\ zlen (starting_chs r) = 3 /\ in_width 8 (os_type r) /\ zlen (ending_chs r) = 3 /\
  in_width 32 (mbr_starting_lba r) /\ in_width 32 (size_in_lba r).

Definition gpt_wf (e : GptPartitionEntry) : Prop :=
  zlen (partition_type_guid e) = 16 /\ zlen (unique_partition_guid e) = 16 /\ in_width 64 (gpt_starting_lba e) /\
  in_width 64 (ending_lba e) /\ in_width 64 (attributes e) /\ zlen (partition_name e) = 36 /\ Forall (in_width 16) (partition_name e).

(** The records on a disk, and the structure of the protocol that holds one. *)
Definition mbr_bytes (r : MbrPartitionRecord) : list Z :=
  le_bytes 1 (boot_indicator r) ++ starting_chs r ++ le_bytes 1 (os_type r) ++ ending_chs r ++
  le_bytes 4 (mbr_starting_lba r) ++ le_bytes 4 (size_in_lba r).

Definition gpt_bytes (e : GptPartitionEntry) : list Z :=
  partition_type_guid e ++ unique_partition_guid e ++ le_bytes 8 (gpt_starting_lba e) ++ le_bytes 8 (ending_lba e) ++
  le_bytes 8 (attributes e) ++ concat (map (le_bytes 2) (partition_name e)).

Definition info_bytes (rev ty sys : Z) (rec : list Z) : list Z :=
  le_bytes 4 rev ++ le_bytes 4 ty ++ le_bytes 1 sys ++ replicate 7 0 ++ rec.

Lemma range_whole (a b : list Z) n off : off = 0 -> n = zlen a -> range (a ++ b) off n = a.
Proof. intros -> ->. by apply range_front. Qed.

Lemma range_end (a : list Z) n off : off = 0 -> n = zlen a -> range a off n = a.
Proof. intros -> ->. unfold range, zlen. rewrite Nat2Z.id, drop_0. by apply take_ge. Qed.

(** One field of a structure that is laid out as a concatenation. *)
Ltac field :=
  let side := (rewrite ?zlen_le_bytes; lia) in
  repeat (rewrite range_skip by side); first [rewrite range_whole by side | rewrite range_end by side]; first [done | by apply le_val_bytes].

Lemma u16_units_bytes l n : Forall (in_width 16) l -> n = length l -> u16_units n (concat (map (le_bytes 2) l)) = l.
Proof.
  intros Hl ->. induction Hl as [|x l Hx _ IH]; [done|]. cbn [length u16_units map concat].
  change (take 2 (le_bytes 2 x ++ ?k)) with (le_bytes 2 x). change (drop 2 (le_bytes 2 x ++ ?k)) with k. rewrite IH. f_equal.
  by apply le_val_bytes.
Qed.

Lemma decode_mbr_bytes r k : mbr_wf r -> decode_mbr (mbr_bytes r ++ k) = r.
Proof.
  intros (Hb & Hs & Ho & He & Hl & Hz). unfold decode_mbr, mbr_bytes. rewrite <- !app_assoc.
  destruct r as [bi sc ot ec sl sz]; cbn [boot_indicator starting_chs os_type ending_chs mbr_starting_lba size_in_lba] in *.
  f_equal; field.
Qed.

Lemma decode_gpt_bytes e : gpt_wf e -> decode_gpt (gpt_bytes e) = e.
Proof.
  intros (Ht & Hu & Hs & He & Ha & Hn & Hnw). unfold decode_gpt, gpt_bytes.
  destruct e as [pt up sl el at_ nm]; cbn [partition_type_guid unique_partition_guid gpt_starting_lba ending_lba attributes partition_name] in *.
  assert (zlen (concat (map (le_bytes 2) nm)) = 72) as Hc by (rewrite (zlen_concat_map _ 2), Hn by (intros; apply zlen_le_bytes); done).
  f_equal; try field.
  transitivity (u16_units 36 (concat (map (le_bytes 2) nm))); [f_equal; field|].
  apply u16_units_bytes; [done|]. unfold zlen in Hn. lia.
Qed.

(** The record of a partition that the firmware describes is read back by the accessor
    of its kind, and by no other; the number of blocks of a partition is the length of
    the range from the first to the last one, if that is one. *)
Theorem partition_records (r : MbrPartitionRecord) (e : GptPartitionEntry) (rev ty sys : Z) (pad : list Z) :
  mbr_wf r -> gpt_wf e -> in_width 32 rev -> in_width 32 ty -> in_width 8 sys -> zlen pad = 112 ->
  let mbr := decode_partition_info (info_bytes rev ty sys (mbr_bytes r ++ pad)) in
  let gpt := decode_partition_info (info_bytes rev ty sys (gpt_bytes e)) in
  mbr_partition_record mbr = (if decide (rev = PROTOCOL_REVISION /\ ty = PartitionType.MBR) then Some r else None) /\
  gpt_partition_entry gpt = (if decide (rev = PROTOCOL_REVISION /\ ty = PartitionType.GPT) then Some e else None) /\
  (is_system gpt = true <-> sys = 1) /\
  (mbr_partition_record gpt = None \/ gpt_partition_entry gpt = None) /\
  num_blocks e = (if decide (gpt_starting_lba e <= ending_lba e /\ ending_lba e - gpt_starting_lba e + 1 < 2 ^ 64)
    then Some (ending_lba e - gpt_starting_lba e + 1) else None).
Proof.
  intros Hr He Hrev Hty Hsys Hpad. cbv zeta.
  assert (zlen (mbr_bytes r ++ pad) = 128) as Hm.
  { destruct Hr as (_ & ? & _ & ? & _). unfold mbr_bytes. rewrite !zlen_app, !zlen_le_bytes. lia. }
  assert (zlen (gpt_bytes e) = 128) as Hg.
  { destruct He as (? & ? & _ & _ & _ & Hn & _). unfold gpt_bytes. rewrite !zlen_app, !zlen_le_bytes, (zlen_concat_map _ 2), Hn by (intros; apply zlen_le_bytes). lia. }
  assert (forall rec, zlen rec = 128 -> decode_partition_info (info_bytes rev ty sys rec) = mkPartitionInfo rev ty sys rec) as Hd.
  { intros rec Hrec. unfold decode_partition_info, info_bytes. assert (zlen (replicate 7 0) = 7) by done.
    f_equal; field. }
  rewrite !Hd by done. unfold mbr_partition_record, gpt_partition_entry, is_system. cbn [revision partition_type system record].
  rewrite decode_mbr_bytes, decode_gpt_bytes by done. split; [|split; [|split; [|split]]].
  - destruct (Z.eqb_spec rev PROTOCOL_REVISION), (Z.eqb_spec ty PartitionType.MBR); cbn [negb]; case_decide; naive_solver.
  - destruct (Z.eqb_spec rev PROTOCOL_REVISION), (Z.eqb_spec ty PartitionType.GPT); cbn [negb]; case_decide; naive_solver.
  - apply Z.eqb_eq.
  - destruct (Z.eqb_spec rev PROTOCOL_REVISION); cbn [negb]; [|by left].
    destruct (Z.eqb_spec ty PartitionType.MBR) as [->|]; [by right|by left].
  - unfold num_blocks, checked_sub_u64, checked_add_u64. destruct (Z.leb_spec (gpt_starting_lba e) (ending_lba e)); cbn [mbind option_bind].
    + destruct (Z.ltb_spec (ending_lba e - gpt_starting_lba e + 1) (2 ^ 64)); case_decide; done || lia.
    + by rewrite decide_False by lia.
Qed.

(** The bits that are specific to the type of a partition are the bits 48 to 63; the
    constant of the bit [n] is the bit [n - 1] of these, and the first one is none of
    them. *)
Theorem type_specific_bits_shifted (n : nat) (c : Z) :
  GptPartitionAttributes.TYPE_SPECIFIC_BITS !! n = Some c ->
  GptPartitionAttributes.type_specific_bits c = (if decide (n = 0%nat) then 0 else 2 ^ (Z.of_nat n - 1)) /\
  (Z.land c GptPartitionAttributes.RESERVED_FOR_PARTITION_TYPE = 0 <-> n = 0%nat).
Proof.
  intros Hn. assert (n < 16)%nat as Hlt by (apply lookup_lt_Some in Hn; exact Hn).
  do 16 (destruct n as [|n]; [vm_compute in Hn; injection Hn as <-; by vm_compute|]). lia.
Qed.

(** ** Loading a file *)

(** [files] are the files of a device: a buffer that is too small gets the size of the
    file, a larger one its contents; the allocator leaves the device alone. *)
Class LoadLaws {W : Type} `{!Status.Allocator W, !AllocatorLaws W} (load : list Z -> Z -> list Z -> W -> (Z * Z * list Z) * W) : Type := {
  files : W -> list Z -> option (list Z);
  files_alloc : forall n a w p, files (Status.alloc n a w).2 p = files w p;
  load_law : forall path policy buf w s n out w', load path policy buf w = ((s, n, out), w') ->
    live_blocks w' = live_blocks w /\ (forall p, files w' p = files w p) /\
    match files w path with
    | None => s <> 0 /\ s <> Status.BUFFER_TOO_SMALL
    | Some f => if zlen buf <? zlen f then s = Status.BUFFER_TOO_SMALL /\ n = zlen f else s = 0 /\ out = f ++ drop (length f) buf
    end;
}.

Section load_properties.
Context {W : Type} `{!Status.Allocator W, !AllocatorLaws W} (load : list Z -> Z -> list Z -> W -> (Z * Z * list Z) * W) `{!LoadLaws load}.

Lemma fetch_file_run path policy buf w :
  exists r w', fetch_file load path policy buf w = Ret (r, w') /\ live_blocks w' = live_blocks w /\ (forall p, files w' p = files w p) /\
    match files w path with
    | None => exists s n, r = Err (mkError s n) /\ s <> 0 /\ s <> Status.BUFFER_TOO_SMALL
    | Some f => r = if zlen (bytes buf) <? zlen f then Err (mkError Status.BUFFER_TOO_SMALL (Some (zlen f)))
        else Ok (f ++ drop (length f) (bytes buf))
    end.
Proof.
  unfold fetch_file. destruct (load path policy (bytes buf) w) as [[[s n] out] w'] eqn:E.
  destruct (load_law _ _ _ _ _ _ _ _ E) as (L & F & Hl). unfold to_result_with_err, Status.is_success, error_new. change Status.SUCCESS with 0.
  destruct (files w path) as [f|].
  - destruct (zlen (bytes buf) <? zlen f); destruct Hl as [-> ->]; cbn; do 2 eexists; (split; [reflexivity|done]).
  - destruct Hl as [Hs Hb]. rewrite (proj2 (Z.eqb_neq s 0)) by done. cbn. do 2 eexists. split; [done|]. eauto 8.
Qed.

Lemma load_with_run path policy w :
  (forall f, files w path = Some f -> zlen f < isize_MAX) ->
  runs (make_boxed 1 (fetch_file load path policy)) w (fun r w' =>
    live_blocks w' = live_blocks w + (if is_ok r then 1 else 0) /\
    match files w path with
    | None => is_ok r = false
    | Some f => if decide (f = []) then r = Err (mkError Status.UNSUPPORTED tt)
        else r = Ok f \/ r = Err (mkError Status.OUT_OF_RESOURCES tt)
    end).
Proof.
  intros Hsize.
  assert (forall r w', make_boxed 1 (fetch_file load path policy) w = Ret (r, w') -> live_blocks w' = live_blocks w + (if is_ok r then 1 else 0)) as Hlive.
  { apply make_boxed_leaks_nothing. intros b w0 r w' E. destruct (fetch_file_run path policy b w0) as (r' & w1 & E' & L & _). congruence. }
  cut (runs (make_boxed 1 (fetch_file load path policy)) w (fun r _ =>
    match files w path with
    | None => is_ok r = false
    | Some f => if decide (f = []) then r = Err (mkError Status.UNSUPPORTED tt)
        else r = Ok f \/ r = Err (mkError Status.OUT_OF_RESOURCES tt)
    end)). { intros (r & w' & E & Hr). exists r, w'. split; [done|]. split; [by apply Hlive|done]. }
  clear Hlive. unfold runs, make_boxed. destruct (fetch_file_run path policy empty_slice w) as (r & w1 & -> & _ & F1 & Hr). cbn [obind].
  destruct (files w path) as [f|] eqn:Ef.
  2: { destruct Hr as (s & n & -> & Hs & Hb). unfold boxed_required_size, error_split, error_from_status, error_new.
    cbn [err_status err_data]. rewrite (proj2 (Z.eqb_neq _ Status.BUFFER_TOO_SMALL)) by done. change Status.SUCCESS with 0.
    rewrite (proj2 (Z.eqb_neq s 0)) by done. destruct n; (do 2 eexists; split; [reflexivity|done]). }
  change (zlen (bytes empty_slice)) with 0 in Hr. destruct (decide (f = [])) as [->|Hne]; [subst r; (do 2 eexists; split; [reflexivity|done])|].
  assert (0 < zlen f) as Hpos by (destruct f; [done|unfold zlen; cbn; lia]). rewrite (proj2 (Z.ltb_lt _ _)) in Hr by done. subst r.
  unfold boxed_required_size, error_split. cbn [err_status err_data]. rewrite Z.eqb_refl. cbn [obind].
  specialize (Hsize f eq_refl). rewrite (padded_layout_ok 1 0) by (done || (unfold isize_MAX in Hsize; lia)). cbn [obind].
  rewrite Z.div_1_r, Z.mul_1_r, Z.add_simpl_r. pose proof (alloc_spec (zlen f) 1 w1) as Ha. pose proof (files_alloc (zlen f) 1 w1) as Fa.
  destruct (Status.alloc (zlen f) 1 w1) as [[b|] w2].
  2: { do 2 eexists. split; [done|]. by right. }
  destruct Ha as (Hb & _ & _). cbn [snd] in Fa.
  destruct (fetch_file_run path policy (mkBuffer (addr b) (take (Z.to_nat (zlen f)) (bytes b))) w2) as (r & w3 & -> & _ & _ & Hr).
  rewrite Fa, F1, Ef in Hr. cbn [bytes] in Hr. assert (length (take (Z.to_nat (zlen f)) (bytes b)) = length f) as Hlen.
  { rewrite length_take. unfold zlen in *. lia. }
  unfold zlen at 1 in Hr. rewrite Hlen, (proj2 (Z.ltb_ge _ _)) in Hr by (unfold zlen; lia). rewrite drop_ge, app_nil_r in Hr by lia. subst r.
  do 2 eexists. split; [done|]. by left.
Qed.
End load_properties.

(** Loading a file returns its contents in one new block, with either protocol, unless
    memory runs out; nothing stays allocated on an error.  An empty file is reported as
    unsupported: the first call, with an empty buffer, succeeds. *)
Theorem load_file_spec {W : Type} `{!Status.Allocator W, !AllocatorLaws W, !LoadServices W} `{!LoadLaws efi_load_file} `{!LoadLaws efi_load_file2}
    (path : list Z) (policy : BootPolicy) (w : W) :
  (forall f, files (load := efi_load_file) w path = Some f -> zlen f < isize_MAX) ->
  (forall f, files (load := efi_load_file2) w path = Some f -> zlen f < isize_MAX) ->
  let loaded (file : option (list Z)) (r : uresult (list Z) unit) (w' : W) :=
    live_blocks w' = live_blocks w + (if is_ok r then 1 else 0) /\
    match file with
    | None => is_ok r = false
    | Some f => if decide (f = []) then r = Err (mkError Status.UNSUPPORTED tt)
        else r = Ok f \/ r = Err (mkError Status.OUT_OF_RESOURCES tt)
    end in
  runs (load_file path policy) w (loaded (files (load := efi_load_file) w path)) /\ runs (load_file2 path) w (loaded (files (load := efi_load_file2) w path)).
Proof. intros H1 H2. split; by apply load_with_run. Qed.

(** ** Examples *)

Module Device.
Definition contents (p : list Z) : option (list Z) := if decide (p = [1]) then Some [7; 8; 9] else if decide (p = [2]) then Some [] else None.

Definition load (path : list Z) (_ : Z) (buf : list Z) (w : bump) : (Z * Z * list Z) * bump :=
  match contents path with
  | None => ((Status.NOT_FOUND, 0, buf), w)
  | Some f => if zlen buf <? zlen f then ((Status.BUFFER_TOO_SMALL, zlen f, buf), w) else ((0, zlen f, f ++ drop (length f) buf), w)
  end.

#[global] Instance services : LoadServices bump := {| efi_load_file := load; efi_load_file2 := load |}.

#[global, refine] Instance laws : LoadLaws load := {| files _ := contents |}.
Proof.
  - done.
  - intros path policy buf w s n out w'. unfold load. destruct (contents path) as [f|].
    + destruct (zlen buf <? zlen f); by intros [= <- <- <- <-].
    + by intros [= <- <- <- <-].
Defined.
End Device.

(** A file of three bytes, and an empty one. *)
Lemma load_file_spec_witness :
  (exists w', load_file [1] ExactMatch (mkBump 8 0) = Ret (Ok [7; 8; 9], w') /\ bump_live w' = 1) /\
  (exists w', load_file2 [2] (mkBump 8 0) = Ret (Err (mkError Status.UNSUPPORTED tt), w')).
Proof.
  assert (forall p f, Device.contents p = Some f -> zlen f < isize_MAX) as Hs.
  { intros p f. unfold Device.contents. repeat case_decide; intros [= <-]; by vm_compute. }
  destruct (load_file_spec [1] ExactMatch (mkBump 8 0)) as [(r & w' & E & L & [->|Hr]) _]; [intros f; apply Hs..| |].
  - split; [by exists w'|]. destruct (load_file_spec [2] ExactMatch (mkBump 8 0)) as [_ (r2 & w2 & E2 & _ & Hr2)]; [intros f; apply Hs..|].
    exists w2. rewrite E2. by rewrite Hr2.
  - exfalso. subst r. vm_compute in E. discriminate E.
Defined.

(** The partition of the blocks 2048 to 4095. *)
Definition sample_gpt : GptPartitionEntry := mkGpt (replicate 16 1) (replicate 16 2) 2048 4095 4 (replicate 36 0).
Definition sample_mbr : MbrPartitionRecord := mkMbr 0x80 [0; 1; 0] 0xef [3; 4; 5] 1 100.

Lemma partition_records_witness :
  gpt_partition_entry (decode_partition_info (info_bytes PROTOCOL_REVISION PartitionType.GPT 1 (gpt_bytes sample_gpt))) = Some sample_gpt /\
  num_blocks sample_gpt = Some 2048.
Proof.
  destruct (partition_records sample_mbr sample_gpt PROTOCOL_REVISION PartitionType.GPT 1 (replicate 112 0)) as (_ & Hg & _ & _ & Hn);
    [by repeat split|split; [done|]; by repeat (split || constructor)|by repeat split..|done|].
  split; [exact Hg|exact Hn].
Defined.

Lemma type_specific_bits_shifted_witness :
  GptPartitionAttributes.type_specific_bits (Z.shiftl 1 50) = 4 /\ GptPartitionAttributes.TYPE_SPECIFIC_BITS !! 3%nat = Some (Z.shiftl 1 50).
Proof. split; [|reflexivity]. apply (type_specific_bits_shifted 3 (Z.shiftl 1 50)). reflexivity. Defined.
