(* ===== verification/Usb.v ===== *)
(** * USB devices

    [uefi/src/proto/usb/io.rs] with the structures of [uefi-raw/src/protocol/usb/mod.rs].
    A buffer is its contents; the methods that fill one return it with their result. *)
From S2P Require Import Prelude Firmware Status BootMemory BootProtocols Inert.

Record DeviceRequest : Set := mkDeviceRequest { request_type : Z; request : Z; value : Z; index_ : Z; length_ : Z }.

Module DataDirection.
Definition DATA_IN : Z := 0.
Definition DATA_OUT : Z := 1.
Definition NO_DATA : Z := 2.
End DataDirection.

Inductive ControlTransfer : Set :=
| NoTransfer
| DataIn (buffer : list Z)
| DataOut (buffer : list Z).

Record DeviceDescriptor : Set := mkDeviceDescriptor {
  dd_length : Z; dd_descriptor_type : Z; bcd_usb : Z; device_class : Z; device_subclass : Z; device_protocol : Z;
  dd_max_packet_size : Z; id_vendor : Z; id_product : Z; bcd_device : Z; str_manufacturer : Z; str_product : Z;
  str_serial_number : Z; num_configurations : Z }.

Record ConfigDescriptor : Set := mkConfigDescriptor {
  cd_length : Z; cd_descriptor_type : Z; total_length : Z; num_interfaces : Z; configuration_value : Z; configuration : Z;
  cd_attributes : Z; max_power : Z }.

Record InterfaceDescriptor : Set := mkInterfaceDescriptor {
  id_length : Z; id_descriptor_type : Z; interface_number : Z; alternate_setting : Z; num_endpoints : Z; interface_class : Z;
  interface_subclass : Z; interface_protocol : Z; interface_ : Z }.

Record EndpointDescriptor : Set := mkEndpointDescriptor {
  ed_length : Z; ed_descriptor_type : Z; endpoint_address : Z; ed_attributes : Z; ed_max_packet_size : Z; interval : Z }.

(** The transfers return the status, the status of the transfer, and what else they
    write: the buffer, and the length. *)
Class UsbServices (W : Type) : Type := {
  efi_control_transfer : DeviceRequest -> Z -> Z -> list Z -> Z -> W -> (Z * Z * list Z) * W;
  efi_bulk_transfer : Z -> list Z -> Z -> Z -> W -> (Z * Z * Z * list Z) * W;
  efi_sync_interrupt_transfer : Z -> list Z -> Z -> Z -> W -> (Z * Z * Z * list Z) * W;
  efi_isochronous_transfer : Z -> list Z -> Z -> W -> (Z * Z * list Z) * W;
  efi_get_device_descriptor : W -> (Z * DeviceDescriptor) * W;
  efi_get_config_descriptor : W -> (Z * ConfigDescriptor) * W;
  efi_get_interface_descriptor : W -> (Z * InterfaceDescriptor) * W;
  efi_get_endpoint_descriptor : Z -> W -> (Z * EndpointDescriptor) * W;
  efi_get_string_descriptor : Z -> Z -> W -> (Z * Z) * W;
  efi_get_supported_languages : W -> (Z * Z * Z) * W;
  efi_port_reset : W -> Z * W;
}.

(** The memory behind a pointer of [u16]. *)
Fixpoint u16_table (n : nat) (b : list Z) : list Z :=
  match n with O => [] | S n => le_val (take 2 b) :: u16_table n (drop 2 b) end.

Section usb.
Context {W : Type} `{!UsbServices W, !ProtocolServices W}.

Definition control_transfer (request_type request value index_ : Z) (transfer : ControlTransfer) (timeout : Z)
  : fw W (uresult unit Z * list Z) :=
  let '(direction, buffer) :=
    match transfer with
    | NoTransfer => (DataDirection.NO_DATA, [])
    | DataIn buffer => (DataDirection.DATA_IN, buffer)
    | DataOut buffer => (DataDirection.DATA_OUT, buffer)
    end in
  let request_type :=
    if direction =? DataDirection.DATA_IN then Z.lor request_type 0x80
    else if direction =? DataDirection.DATA_OUT then Z.land request_type 0x7f
    else request_type in
  let device_request := mkDeviceRequest request_type request value index_ (wrap 16 (zlen buffer)) in
  '(status, transfer_status, buffer) ← call (efi_control_transfer device_request direction timeout buffer (zlen buffer));
  r ← lift (to_result_with_err status (fun _ => transfer_status));
  mret (r, buffer).

(** [to_result_with_err(|_| status).map(|()| length)]. *)
Definition transfer_result (r : Z * Z * Z * list Z) : fw W (uresult Z Z * list Z) :=
  let '(status, transfer_status, length, buffer) := r in
  r ← lift (to_result_with_err status (fun _ => transfer_status));
  mret (rmap (fun _ => length) r, buffer).

(** [endpoint & !0x80] and [endpoint | 0x80]. *)
Definition out_endpoint (endpoint : Z) : Z := Z.land endpoint 0x7f.
Definition in_endpoint (endpoint : Z) : Z := Z.lor endpoint 0x80.

Definition sync_bulk_send (endpoint : Z) (buffer : list Z) (timeout : Z) : fw W (uresult Z Z * list Z) :=
  r ← call (efi_bulk_transfer (out_endpoint endpoint) buffer (zlen buffer) timeout); transfer_result r.

Definition sync_bulk_receive (endpoint : Z) (buffer : list Z) (timeout : Z) : fw W (uresult Z Z * list Z) :=
  r ← call (efi_bulk_transfer (in_endpoint endpoint) buffer (zlen buffer) timeout); transfer_result r.

Definition sync_interrupt_send (endpoint : Z) (buffer : list Z) (timeout : Z) : fw W (uresult Z Z * list Z) :=
  r ← call (efi_sync_interrupt_transfer (out_endpoint endpoint) buffer (zlen buffer) timeout); transfer_result r.

Definition sync_interrupt_receive (endpoint : Z) (buffer : list Z) (timeout : Z) : fw W (uresult Z Z * list Z) :=
  r ← call (efi_sync_interrupt_transfer (in_endpoint endpoint) buffer (zlen buffer) timeout); transfer_result r.

Definition sync_isochronous_send (endpoint : Z) (buffer : list Z) : fw W (uresult unit Z * list Z) :=
  '(status, transfer_status, buffer) ← call (efi_isochronous_transfer (out_endpoint endpoint) buffer (zlen buffer));
  r ← lift (to_result_with_err status (fun _ => transfer_status));
  mret (r, buffer).

Definition sync_isochronous_receive (endpoint : Z) (buffer : list Z) : fw W (uresult unit Z * list Z) :=
  '(status, transfer_status, buffer) ← call (efi_isochronous_transfer (in_endpoint endpoint) buffer (zlen buffer));
  r ← lift (to_result_with_err status (fun _ => transfer_status));
  mret (r, buffer).

Definition device_descriptor : fw W (uresult DeviceDescriptor unit) :=
  '(status, d) ← call efi_get_device_descriptor; lift (to_result_with_val status d).

Definition config_descriptor : fw W (uresult ConfigDescriptor unit) :=
  '(status, d) ← call efi_get_config_descriptor; lift (to_result_with_val status d).

Definition interface_descriptor : fw W (uresult InterfaceDescriptor unit) :=
  '(status, d) ← call efi_get_interface_descriptor; lift (to_result_with_val status d).

Definition endpoint_descriptor (endpoint : Z) : fw W (uresult EndpointDescriptor unit) :=
  '(status, d) ← call (efi_get_endpoint_descriptor endpoint); lift (to_result_with_val status d).

(** The string is pool memory, at its address. *)
Definition string_descriptor (lang_id string_id : Z) : fw W (uresult Z unit) :=
  '(status, string_ptr) ← call (efi_get_string_descriptor lang_id string_id);
  try _ <- lift (to_result status);
  lift (nonnull string_ptr).

(** [from_raw_parts(lang_id_table_ptr, lang_id_table_size)]. *)
Definition supported_languages : fw W (uresult (list Z) unit) :=
  '(status, lang_id_table_ptr, lang_id_table_size) ← call efi_get_supported_languages;
  try _ <- lift (to_result status);
  mem ← call (fun w => (memory_at lang_id_table_ptr w, w));
  table ← lift (read_raw mem 0 (2 * lang_id_table_size));
  mret (Ok (u16_table (Z.to_nat lang_id_table_size) table)).

Definition port_reset : fw W (uresult unit unit) := status ← call efi_port_reset; lift (to_result status).
End usb.

(** ** What the specification documents *)

(** [endpoint w n] is what waits in the endpoint [n]: a transfer to an OUT endpoint adds
    its buffer, one from an IN endpoint takes what fits.  [requests w] are the setup
    packets that were sent, with the direction of their data.  The size of the table of
    languages is its number of bytes. *)
Class UsbLaws (W : Type) `{!UsbServices W, !ProtocolServices W} : Type := {
  out_data : W -> Z -> list (list Z);
  in_data : W -> Z -> list (list Z);
  requests : W -> list (DeviceRequest * Z);
  language_ids : W -> list Z;
  bulk_out : forall e buf t w s ts n out w', 0 <= e < 128 -> efi_bulk_transfer e buf (zlen buf) t w = ((s, ts, n, out), w') -> s = 0 ->
    n = zlen buf /\ out = buf /\ out_data w' e = out_data w e ++ [buf];
  bulk_in : forall e buf t w s ts n out w', 128 <= e < 256 -> efi_bulk_transfer e buf (zlen buf) t w = ((s, ts, n, out), w') -> s = 0 ->
    exists d rest, in_data w e = d :: rest /\ in_data w' e = rest /\ n = zlen d `min` zlen buf /\
      out = take (Z.to_nat n) d ++ drop (Z.to_nat n) buf;
  control_law : forall q dir t buf n w r w', efi_control_transfer q dir t buf n w = (r, w') -> requests w' = requests w ++ [(q, dir)];
  languages_law : forall w s p n w', efi_get_supported_languages w = ((s, p, n), w') -> s = 0 ->
    n = 2 * zlen (language_ids w') /\ memory_at p w' = concat (map (le_bytes 2) (language_ids w'));
}.

Section usb_properties.
Context {W : Type} `{!UsbServices W, !ProtocolServices W, !UsbLaws W}.

Lemma endpoint_masks e : in_width 8 e ->
  0 <= out_endpoint e < 128 /\ 128 <= in_endpoint e < 256 /\ in_endpoint e = out_endpoint e + 128.
Proof.
  intros He. assert (0 <= e < 256) as He' by exact He. clear He.
  assert (forall k : nat, (k < 256)%nat -> let e := Z.of_nat k in
    ((0 <=? out_endpoint e) && (out_endpoint e <? 128) && (128 <=? in_endpoint e) && (in_endpoint e <? 256) &&
     (in_endpoint e =? out_endpoint e + 128)) = true) as Hall.
  { intros k Hk. do 256 (destruct k as [|k]; [by vm_compute|]). lia. }
  specialize (Hall (Z.to_nat e) ltac:(lia)). rewrite Z2Nat.id in Hall by lia. cbv zeta in Hall. z_bools. lia.
Qed.

(** The setup packet of a control transfer: its top bit says that the device sends, and
    its length is that of the buffer only below 64 KiB, although a longer buffer is
    handed to the firmware whole. *)
Theorem control_setup_packet (rt rq v i timeout : Z) (transfer : ControlTransfer) (w : W) :
  in_width 8 rt ->
  exists r w' q dir, control_transfer rt rq v i transfer timeout w = Ret (r, w') /\ requests w' = requests w ++ [(q, dir)] /\
    let buffer := match transfer with NoTransfer => [] | DataIn b => b | DataOut b => b end in
    (request_type q = match transfer with
      | NoTransfer => rt
      | DataIn _ => out_endpoint rt + 128
      | DataOut _ => out_endpoint rt
      end) /\
    (128 <= request_type q <-> match transfer with NoTransfer => 128 <= rt | DataIn _ => True | DataOut _ => False end) /\
    (length_ q = zlen buffer <-> zlen buffer < 2 ^ 16) /\ dir = match transfer with NoTransfer => 2 | DataIn _ => 0 | DataOut _ => 1 end.
Proof.
  intros Hrt. destruct (endpoint_masks rt Hrt) as (Ho & Hi & Hio).
  assert (forall (b : list Z), wrap 16 (zlen b) = zlen b <-> zlen b < 2 ^ 16) as Hwrap.
  { intros b. pose proof (zlen_nonneg b). split; [|intros; by apply wrap_small]. intros <-. by apply (wrap_range 16). }
  unfold control_transfer. destruct transfer as [|b|b]; cbv beta iota zeta; cbn [Z.eqb DataDirection.NO_DATA DataDirection.DATA_IN DataDirection.DATA_OUT].
  all: lazymatch goal with |- context [efi_control_transfer ?q ?dir ?t ?b ?n] =>
    rewrite fw_bind_call; destruct (efi_control_transfer q dir t b n w) as [[[s ts] out] w'] eqn:E; cbn [fst snd];
    unfold to_result_with_err, error_new, Status.is_success; change Status.SUCCESS with 0;
    exists (if s =? 0 then Ok tt else Err (mkError s ts), out), w', q, dir end.
  all: split; [by destruct (s =? 0)|]; split; [exact (control_law _ _ _ _ _ _ _ _ E)|]; cbn [request_type length_].
  all: cbn [Pos.eqb]; unfold in_endpoint, out_endpoint in *; repeat split; try done; try apply Hwrap; lia.
Qed.

(** The size of the table of languages is taken for its number of entries: unless there
    are none, the table is read past its end. *)
Theorem supported_languages_overread (w w' : W) (p n : Z) :
  efi_get_supported_languages w = ((0, p, n), w') -> language_ids w' <> [] -> supported_languages w = Undefined.
Proof.
  intros E Hne. destruct (languages_law _ _ _ _ _ E eq_refl) as [-> Hm]. unfold supported_languages. rewrite fw_bind_call, E. cbn [fst snd].
  unfold fw_try. rewrite to_result_cases. cbn [Z.eqb]. rewrite fw_bind_lift. cbv beta iota. rewrite fw_bind_call. cbn [fst snd]. rewrite Hm.
  unfold mbind, fw_bind, lift, read_raw. rewrite (proj2 (Z.leb_gt (0 + 2 * (2 * zlen (language_ids w'))) _)), andb_false_r; [done|].
  rewrite (zlen_concat_map _ 2) by (intros; apply zlen_le_bytes). destruct (language_ids w'); [done|]. rewrite zlen_cons.
  pose proof (zlen_nonneg l). lia.
Qed.

(** What is sent in bulk reaches the endpoint, whether or not its address has the bit of
    the direction set, and what the device sends is received. *)
Theorem bulk_transfers (e timeout : Z) (data : list Z) (w : W) :
  in_width 8 e ->
  (exists r w', sync_bulk_send e data timeout w = Ret (r, w') /\
    (is_ok r.1 = true -> r.1 = Ok (zlen data) /\ out_data w' (out_endpoint e) = out_data w (out_endpoint e) ++ [data])) /\
  (exists r w', sync_bulk_receive e data timeout w = Ret (r, w') /\
    (is_ok r.1 = true -> exists d rest, in_data w (out_endpoint e + 128) = d :: rest /\ r.1 = Ok (zlen d `min` zlen data) /\
      r.2 = take (length data) d ++ drop (length d) data)).
Proof.
  intros He. destruct (endpoint_masks e He) as (Ho & Hi & Hio). split.
  - unfold sync_bulk_send. rewrite fw_bind_call. destruct (efi_bulk_transfer (out_endpoint e) data (zlen data) timeout w) as [[[[s ts] n] out] w'] eqn:E.
    cbn [fst snd]. unfold transfer_result, to_result_with_err, error_new, Status.is_success. change Status.SUCCESS with 0.
    destruct (Z.eqb_spec s 0) as [Hs|]; cbn -[out_endpoint in_endpoint zlen Z.min]; do 2 eexists; (split; [reflexivity|]); [|done]. intros _. cbn [fst snd rmap].
    destruct (bulk_out _ _ _ _ _ _ _ _ _ Ho E Hs) as (-> & -> & ->). done.
  - unfold sync_bulk_receive. rewrite fw_bind_call. destruct (efi_bulk_transfer (in_endpoint e) data (zlen data) timeout w) as [[[[s ts] n] out] w'] eqn:E.
    cbn [fst snd]. unfold transfer_result, to_result_with_err, error_new, Status.is_success. change Status.SUCCESS with 0.
    destruct (Z.eqb_spec s 0) as [Hs|]; cbn -[out_endpoint in_endpoint zlen Z.min]; do 2 eexists; (split; [reflexivity|]); [|done]. intros _. cbn [fst snd rmap].
    destruct (bulk_in _ _ _ _ _ _ _ _ _ Hi E Hs) as (d & rest & Hd & _ & -> & ->). rewrite <- Hio. exists d, rest. split; [done|]. split; [done|]. cbn [snd].
    assert (Z.to_nat (zlen d `min` zlen data) = length d `min` length data)%nat as -> by (unfold zlen; lia).
    destruct (decide (length d <= length data)%nat).
    + rewrite Nat.min_l, !take_ge by lia. done.
    + rewrite Nat.min_r, !drop_ge by lia. done.
Qed.
End usb_properties.

(** ** A device

    What is sent to the endpoint 1 is sent back; there is one language. *)
Module Echo.
Record t : Type := mk { sent : list (Z * list Z); waiting : list (Z * list Z); setups : list (DeviceRequest * Z) }.

Definition of_endpoint (e : Z) (l : list (Z * list Z)) : list (list Z) := map snd (filter (fun p => p.1 = e) l).

Fixpoint remove_first (e : Z) (l : list (Z * list Z)) : list (Z * list Z) :=
  match l with [] => [] | p :: l => if decide (p.1 = e) then l else p :: remove_first e l end.

Definition bulk (e : Z) (buf : list Z) (n _ : Z) (w : t) : (Z * Z * Z * list Z) * t :=
  if e <? 128 then ((0, 0, n, buf), mk (sent w ++ [(e, buf)]) (waiting w ++ [(e + 128, buf)]) (setups w))
  else match of_endpoint e (waiting w) with
  | [] => ((Status.TIMEOUT, 0x40, 0, buf), w)
  | d :: _ => let m := zlen d `min` zlen buf in
      ((0, 0, m, take (Z.to_nat m) d ++ drop (Z.to_nat m) buf), mk (sent w) (remove_first e (waiting w)) (setups w))
  end.

#[global] Instance protocols : ProtocolServices t := inert_protocols_with (fun _ _ => [9; 4])
  (fun _ w => ((Status.UNSUPPORTED, 0, 0), w)) (fun _ _ _ w => ((Status.UNSUPPORTED, 0), w)) (fun _ _ w => (Status.UNSUPPORTED, w)).

#[global] Instance services : UsbServices t := {|
  efi_control_transfer q dir _ buf _ w := ((0, 0, buf), mk (sent w) (waiting w) (setups w ++ [(q, dir)]));
  efi_bulk_transfer := bulk;
  efi_sync_interrupt_transfer := bulk;
  efi_isochronous_transfer _ buf _ w := ((Status.UNSUPPORTED, 0, buf), w);
  efi_get_device_descriptor w := ((Status.UNSUPPORTED, mkDeviceDescriptor 0 0 0 0 0 0 0 0 0 0 0 0 0 0), w);
  efi_get_config_descriptor w := ((Status.UNSUPPORTED, mkConfigDescriptor 0 0 0 0 0 0 0 0), w);
  efi_get_interface_descriptor w := ((Status.UNSUPPORTED, mkInterfaceDescriptor 0 0 0 0 0 0 0 0 0), w);
  efi_get_endpoint_descriptor _ w := ((Status.UNSUPPORTED, mkEndpointDescriptor 0 0 0 0 0 0), w);
  efi_get_string_descriptor _ _ w := ((Status.UNSUPPORTED, 0), w);
  efi_get_supported_languages w := ((0, 0x100, 2), w);
  efi_port_reset w := (0, w);
|}.

Lemma of_endpoint_snoc e l b : of_endpoint e (l ++ [(e, b)]) = of_endpoint e l ++ [b].
Proof. unfold of_endpoint. rewrite filter_app, map_app, filter_cons_True by done. done. Qed.

Lemma remove_first_tail e l d rest : of_endpoint e l = d :: rest -> of_endpoint e (remove_first e l) = rest.
Proof.
  unfold of_endpoint. induction l as [|[x b] l IH]; [done|]. cbn [remove_first fst]. rewrite filter_cons. cbn [fst].
  destruct (decide (x = e)) as [->|Hx]; [by intros [= _ <-]|]. intros E. rewrite filter_cons, decide_False by done. by apply IH.
Qed.

#[global, refine] Instance laws : UsbLaws t :=
  {| out_data w e := of_endpoint e (sent w); in_data w e := of_endpoint e (waiting w); requests := setups; language_ids _ := [0x409] |}.
Proof.
  - intros e buf t w s ts n out w' He. cbn. unfold bulk. rewrite (proj2 (Z.ltb_lt _ _)) by lia. intros [= <- <- <- <- <-] _.
    split; [done|]. split; [done|]. cbn [sent]. apply of_endpoint_snoc.
  - intros e buf t w s ts n out w' He. cbn. unfold bulk. rewrite (proj2 (Z.ltb_ge _ _)) by lia.
    destruct (of_endpoint e (waiting w)) as [|d rest] eqn:E; [by intros [= <- <- <- <- <-]|]. intros [= <- <- <- <- <-] _.
    exists d, rest. split; [done|]. split; [by eapply remove_first_tail|]. done.
  - intros. cbn in *. by simplify_eq.
  - intros w s p n w' [= <- <- <- <-] _. done.
Defined.

Definition initial : t := mk [] [] [].
End Echo.

Lemma control_setup_packet_witness :
  exists r w', control_transfer 0x21 6 1 0 (DataIn [0; 0]) 100 Echo.initial = Ret (r, w') /\
    requests w' = [(mkDeviceRequest 0xa1 6 1 0 2, 0)].
Proof.
  destruct (control_setup_packet 0x21 6 1 0 100 (DataIn [0; 0]) Echo.initial) as (r & w' & q & dir & E & Hq & _); [by split|].
  exists r, w'. split; [exact E|]. rewrite Hq. vm_compute in E. injection E as <- <-. exact (eq_sym Hq).
Defined.

Lemma supported_languages_overread_witness : supported_languages Echo.initial = Undefined.
Proof. by eapply (supported_languages_overread Echo.initial). Defined.

Lemma bulk_transfers_witness :
  exists r w', sync_bulk_send 0x81 [7; 8] 0 Echo.initial = Ret (r, w') /\ out_data w' 1 = [[7; 8]].
Proof.
  destruct (bulk_transfers 0x81 0 [7; 8] Echo.initial) as [(r & w' & E & Hr) _]; [by split|].
  exists r, w'. split; [exact E|]. apply Hr. vm_compute in E. by injection E as <- _.
Defined.
