(* ===== verification/Snp.v ===== *)
(** * The simple network protocol

    [uefi/src/proto/network/snp.rs] and the mode and statistics of
    [uefi-raw/src/protocol/network/snp.rs].  MAC addresses are 32 bytes, buffers their
    contents; optional arguments are optional pointers of the firmware. *)
From S2P Require Import Prelude Firmware Status.

Module ReceiveFlags.
Definition UNICAST : Z := 0x01.
Definition MULTICAST : Z := 0x02.
Definition BROADCAST : Z := 0x04.
Definition PROMISCUOUS : Z := 0x08.
Definition PROMISCUOUS_MULTICAST : Z := 0x10.
End ReceiveFlags.

Module InterruptStatus.
Definition RECEIVE : Z := 0x01.
Definition TRANSMIT : Z := 0x02.
Definition COMMAND : Z := 0x04.
Definition SOFTWARE : Z := 0x08.
End InterruptStatus.

Module NetworkState.
Definition STOPPED : Z := 0.
Definition STARTED : Z := 1.
Definition INITIALIZED : Z := 2.
Definition MAX_STATE : Z := 4.
End NetworkState.

Record NetworkMode : Set := mkNetworkMode {
  state : Z; hw_address_size : Z; media_header_size : Z; max_packet_size : Z; nv_ram_size : Z; nv_ram_access_size : Z;
  receive_filter_mask : Z; receive_filter_setting : Z; max_mcast_filter_count : Z; mcast_filter_count : Z;
  mcast_filter : list (list Z); current_address : list Z; broadcast_address : list Z; permanent_address : list Z;
  if_type : Z; mac_address_changeable : Z; multiple_tx_supported : Z; media_present_supported : Z; media_present : Z }.

(** ** Statistics *)

(** The counters, in the order of the structure. *)
Inductive Counter : Set :=
| rx_total_frames | rx_good_frames | rx_undersize_frames | rx_oversize_frames | rx_dropped_frames | rx_unicast_frames
| rx_broadcast_frames | rx_multicast_frames | rx_crc_error_frames | rx_total_bytes | tx_total_frames | tx_good_frames
| tx_undersize_frames | tx_oversize_frames | tx_dropped_frames | tx_unicast_frames | tx_broadcast_frames | tx_multicast_frames
| tx_crc_error_frames | tx_total_bytes | collisions | unsupported_protocol | rx_duplicated_frames | rx_decrypt_error_frames
| tx_error_frames | tx_retry_frames.

Definition NetworkStatistics : list Counter :=
  [rx_total_frames; rx_good_frames; rx_undersize_frames; rx_oversize_frames; rx_dropped_frames; rx_unicast_frames;
   rx_broadcast_frames; rx_multicast_frames; rx_crc_error_frames; rx_total_bytes; tx_total_frames; tx_good_frames;
   tx_undersize_frames; tx_oversize_frames; tx_dropped_frames; tx_unicast_frames; tx_broadcast_frames; tx_multicast_frames;
   tx_crc_error_frames; tx_total_bytes; collisions; unsupported_protocol; rx_duplicated_frames; rx_decrypt_error_frames;
   tx_error_frames; tx_retry_frames].

#[export] Instance Counter_eq_dec : EqDecision Counter.
Proof. solve_decision. Defined.

(** A structure of the statistics is the list of its values. *)
Definition counter (stats : list Z) (c : Counter) : Z :=
  match list_find (fun d => d = c) NetworkStatistics with Some (i, _) => nth i stats 0 | None => 0 end.

(** [stat as i64 != -1]. *)
Definition to_i64 (v : Z) : Z := if v <? 2 ^ 63 then v else v - 2 ^ 64.
Definition available (stat : Z) : bool := negb (to_i64 stat =? -1).
Definition to_option (stat : Z) : option Z := if available stat then Some stat else None.

(** The accessor of a counter. *)
Definition statistic (stats : list Z) (c : Counter) : option Z := to_option (counter stats c).

(** ** The protocol *)

Class SnpServices (W : Type) : Type := {
  snp_mode : W -> NetworkMode;
  snp_wait_for_packet : W -> Z;
  efi_snp_start : W -> Z * W;
  efi_snp_stop : W -> Z * W;
  efi_snp_initialize : Z -> Z -> W -> Z * W;
  efi_snp_reset : Z -> W -> Z * W;
  efi_snp_shutdown : W -> Z * W;
  efi_receive_filters : Z -> Z -> Z -> Z -> option (list (list Z)) -> W -> Z * W;
  efi_station_address : Z -> option (list Z) -> W -> Z * W;
  efi_statistics : Z -> option Z -> W -> (Z * list Z) * W;
  efi_multicast_ip_to_mac : Z -> list Z -> W -> (Z * list Z) * W;
  efi_non_volatile_data : Z -> Z -> Z -> list Z -> W -> (Z * list Z) * W;
  efi_get_status : bool -> bool -> W -> (Z * Z * Z) * W;
  efi_transmit : Z -> Z -> list Z -> option (list Z) -> option (list Z) -> option Z -> W -> Z * W;
  efi_receive : list Z -> W -> (Z * Z * list Z * Z * list Z * list Z * Z) * W;
}.

Section snp.
Context {W : Type} `{!SnpServices W}.

Definition start : fw W (uresult unit unit) := status ← call efi_snp_start; lift (to_result status).
Definition stop : fw W (uresult unit unit) := status ← call efi_snp_stop; lift (to_result status).

Definition initialize (extra_rx_buffer_size extra_tx_buffer_size : Z) : fw W (uresult unit unit) :=
  status ← call (efi_snp_initialize extra_rx_buffer_size extra_tx_buffer_size); lift (to_result status).

Definition reset (extended_verification : bool) : fw W (uresult unit unit) :=
  status ← call (efi_snp_reset (boolean_of_bool extended_verification)); lift (to_result status).

Definition shutdown : fw W (uresult unit unit) := status ← call efi_snp_shutdown; lift (to_result status).

Definition receive_filters (enable disable : Z) (reset_mcast_filter : bool) (mcast_filter : option (list (list Z)))
  : fw W (uresult unit unit) :=
  let filter_count := match mcast_filter with Some filters => zlen filters | None => 0 end in
  status ← call (efi_receive_filters enable disable (boolean_of_bool reset_mcast_filter) filter_count mcast_filter);
  lift (to_result status).

Definition station_address (reset : bool) (new : option (list Z)) : fw W (uresult unit unit) :=
  status ← call (efi_station_address (boolean_of_bool reset) new); lift (to_result status).

(** Neither the size nor the table is passed to reset the statistics. *)
Definition reset_statistics : fw W (uresult unit unit) :=
  '(status, _) ← call (efi_statistics (boolean_of_bool true) None); lift (to_result status).

(** The table has 26 counters of eight bytes. *)
Definition collect_statistics : fw W (uresult (list Z) unit) :=
  '(status, stats) ← call (efi_statistics (boolean_of_bool false) (Some (26 * 8))); lift (to_result_with_val status stats).

Definition mcast_ip_to_mac (ipv6 : bool) (ip : list Z) : fw W (uresult (list Z) unit) :=
  '(status, mac_address) ← call (efi_multicast_ip_to_mac (boolean_of_bool ipv6) ip); lift (to_result_with_val status mac_address).

(** The buffer afterwards is returned too; the one that is read into is a shared slice. *)
Definition read_nv_data (offset : Z) (buffer : list Z) : fw W (uresult unit unit * list Z) :=
  '(status, buffer) ← call (efi_non_volatile_data (boolean_of_bool true) offset (zlen buffer) buffer);
  r ← lift (to_result status); mret (r, buffer).

Definition write_nv_data (offset : Z) (buffer : list Z) : fw W (uresult unit unit * list Z) :=
  '(status, buffer) ← call (efi_non_volatile_data (boolean_of_bool false) offset (zlen buffer) buffer);
  r ← lift (to_result status); mret (r, buffer).

Definition get_interrupt_status : fw W (uresult Z unit) :=
  '(status, interrupt_status, _) ← call (efi_get_status true false); lift (to_result_with_val status interrupt_status).

(** The address of the buffer, if one was recycled. *)
Definition get_recycled_transmit_buffer_status : fw W (uresult (option Z) unit) :=
  '(status, _, tx_buf) ← call (efi_get_status false true);
  lift (to_result_with_val status (if tx_buf =? 0 then None else Some tx_buf)).

Definition transmit (header_size : Z) (buffer : list Z) (src_addr dst_addr : option (list Z)) (protocol : option Z) : fw W (uresult unit unit) :=
  status ← call (efi_transmit header_size (zlen buffer) buffer src_addr dst_addr protocol); lift (to_result status).

(** The buffer and the header size, addresses and protocol are returned too. *)
Definition receive (buffer : list Z) : fw W (uresult Z unit * (list Z * Z * list Z * list Z * Z)) :=
  '(status, buffer_size, buffer, header_size, src_addr, dest_addr, protocol) ← call (efi_receive buffer);
  r ← lift (to_result_with_val status buffer_size);
  mret (r, (buffer, header_size, src_addr, dest_addr, protocol)).

Definition wait_for_packet : fw W Z := call (fun w => (snp_wait_for_packet w, w)).
Definition mode : fw W NetworkMode := call (fun w => (snp_mode w, w)).
End snp.

(** A counter that the device does not support is all ones, and reported as missing;
    every other one is reported with its value, of the right field. *)
Lemma statistic_spec stats i c :
  length stats = 26%nat -> Forall (in_width 64) stats -> NetworkStatistics !! i = Some c ->
  statistic stats c = (if decide (stats !! i = Some (2 ^ 64 - 1)) then None else stats !! i).
Proof.
  intros Hl Hs Hi. assert (counter stats c = nth i stats 0) as Hc.
  { unfold counter. do 26 (destruct i as [|i]; [by injection Hi as <-|]). by destruct i. }
  unfold statistic. rewrite Hc. assert (i < 26)%nat as Hlt by (apply lookup_lt_Some in Hi; exact Hi).
  destruct (lookup_lt_is_Some_2 stats i ltac:(lia)) as [v Hv]. rewrite Hv. rewrite (nth_lookup_Some _ _ _ _ Hv).
  assert (0 <= v < 2 ^ 64) as Hw by (by eapply Forall_lookup_1 in Hs). unfold to_option, available, to_i64.
  destruct (Z.ltb_spec v (2 ^ 63)); case_decide as Hd.
  - injection Hd as ->. lia.
  - by rewrite (proj2 (Z.eqb_neq _ _)) by lia.
  - injection Hd as ->. done.
  - rewrite (proj2 (Z.eqb_neq _ _)); [done|]. intros E. apply Hd. f_equal. lia.
Qed.
