(* ===== verification/Mp.v ===== *)
(** * Multiprocessing

    [uefi/src/proto/pi/mp.rs].  Procedures, arguments and events are addresses. *)
From S2P Require Import Prelude Firmware Status BootMemory BootProtocols BootEvents.

Module StatusFlag.
Definition PROCESSOR_AS_BSP_BIT : Z := 1.
Definition PROCESSOR_ENABLED_BIT : Z := Z.shiftl 1 1.
Definition PROCESSOR_HEALTH_STATUS_BIT : Z := Z.shiftl 1 2.
End StatusFlag.

Record ProcessorCount : Set := mkProcessorCount { total : Z; enabled : Z }.
Record CpuPhysicalLocation : Set := mkCpuPhysicalLocation { package : Z; core : Z; thread : Z }.
Record ProcessorInformation : Set := mkProcessorInformation { processor_id : Z; status_flag : Z; location : CpuPhysicalLocation }.

Definition flag_contains (flags bit : Z) : bool := Z.land flags bit =? bit.
Definition is_bsp (self : ProcessorInformation) : bool := flag_contains (status_flag self) StatusFlag.PROCESSOR_AS_BSP_BIT.
Definition is_enabled (self : ProcessorInformation) : bool := flag_contains (status_flag self) StatusFlag.PROCESSOR_ENABLED_BIT.
Definition is_healthy (self : ProcessorInformation) : bool := flag_contains (status_flag self) StatusFlag.PROCESSOR_HEALTH_STATUS_BIT.

(** The health flag is behind an optional pointer. *)
Class MpServices (W : Type) : Type := {
  efi_get_number_of_processors : W -> (Z * Z * Z) * W;
  efi_get_processor_info : Z -> W -> (Z * ProcessorInformation) * W;
  efi_startup_all_aps : Z -> bool -> Z -> Z -> Z -> W -> Z * W;
  efi_startup_this_ap : Z -> Z -> Z -> Z -> Z -> W -> Z * W;
  efi_switch_bsp : Z -> bool -> W -> Z * W;
  efi_enable_disable_ap : Z -> bool -> option Z -> W -> Z * W;
  efi_who_am_i : W -> (Z * Z) * W;
}.

(** [timeout.as_micros().try_into().unwrap()], and zero for no timeout. *)
Definition timeout_arg (timeout : option Duration) : outcome Z :=
  match timeout with
  | Some timeout => unwrap (if as_micros timeout <? 2 ^ usize_bits then Some (as_micros timeout) else None)
  | None => Ret 0
  end.

Section mp.
Context {W : Type} `{!MpServices W}.

Definition get_number_of_processors : fw W (uresult ProcessorCount unit) :=
  '(status, total, enabled) ← call efi_get_number_of_processors; lift (to_result_with_val status (mkProcessorCount total enabled)).

Definition get_processor_info (processor_number : Z) : fw W (uresult ProcessorInformation unit) :=
  '(status, pi) ← call (efi_get_processor_info processor_number); lift (to_result_with_val status pi).

Definition startup_all_aps (single_thread : bool) (procedure procedure_argument : Z) (event : option Z) (timeout : option Duration)
  : fw W (uresult unit unit) :=
  timeout_arg ← lift (timeout_arg timeout);
  let event_arg := opt_nonnull_to_ptr event in
  status ← call (efi_startup_all_aps procedure single_thread event_arg timeout_arg procedure_argument);
  lift (to_result status).

Definition startup_this_ap (processor_number procedure procedure_argument : Z) (event : option Z) (timeout : option Duration)
  : fw W (uresult unit unit) :=
  timeout_arg ← lift (timeout_arg timeout);
  let event_arg := opt_nonnull_to_ptr event in
  status ← call (efi_startup_this_ap procedure processor_number event_arg timeout_arg procedure_argument);
  lift (to_result status).

Definition switch_bsp (processor_number : Z) (enable_old_bsp : bool) : fw W (uresult unit unit) :=
  status ← call (efi_switch_bsp processor_number enable_old_bsp); lift (to_result status).

Definition enable_disable_ap (processor_number : Z) (enable_ap : bool) (healthy : option bool) : fw W (uresult unit unit) :=
  let health_flag := (fun healthy : bool => if healthy then StatusFlag.PROCESSOR_HEALTH_STATUS_BIT else 0) <$> healthy in
  status ← call (efi_enable_disable_ap processor_number enable_ap health_flag); lift (to_result status).

Definition who_am_i : fw W (uresult Z unit) :=
  '(status, processor_number) ← call efi_who_am_i; lift (to_result_with_val status processor_number).
End mp.

(** A timeout that does not fit 64 bits in microseconds panics; one below a microsecond
    is the same as none, for which the firmware waits without end. *)
Theorem startup_timeouts {W : Type} `{!MpServices W} (single : bool) (n p a : Z) (e : option Z) (d : Duration) (w : W) :
  0 <= d_secs d -> 0 <= d_nanos d < 1000000000 ->
  (2 ^ 64 <= as_micros d ->
    startup_all_aps single p a e (Some d) w = Panic UnwrapFailed /\ startup_this_ap n p a e (Some d) w = Panic UnwrapFailed) /\
  (d_secs d = 0 -> d_nanos d < 1000 ->
    startup_all_aps single p a e (Some d) w = startup_all_aps single p a e None w /\
    startup_this_ap n p a e (Some d) w = startup_this_ap n p a e None w).
Proof.
  intros Hs Hn. unfold startup_all_aps, startup_this_ap, timeout_arg, usize_bits. split.
  - intros Hbig. by rewrite (proj2 (Z.ltb_ge _ _)).
  - intros H0 Hk. assert (as_micros d = 0) as -> by (unfold as_micros; rewrite H0, Z.div_small by lia; lia). done.
Qed.

Module OneProcessor.
#[global] Instance services : MpServices unit := {|
  efi_get_number_of_processors w := ((0, 1, 1), w);
  efi_get_processor_info _ w := ((0, mkProcessorInformation 0 7 (mkCpuPhysicalLocation 0 0 0)), w);
  efi_startup_all_aps _ _ _ _ _ w := (Status.NOT_STARTED, w);
  efi_startup_this_ap _ _ _ _ _ w := (Status.NOT_FOUND, w);
  efi_switch_bsp _ _ w := (Status.UNSUPPORTED, w);
  efi_enable_disable_ap _ _ _ w := (Status.UNSUPPORTED, w);
  efi_who_am_i w := ((0, 0), w);
|}.
End OneProcessor.

(** Half a microsecond. *)
Lemma startup_timeouts_witness :
  startup_all_aps false 1 2 None (Some (mkDuration 0 500)) tt = startup_all_aps false 1 2 None None tt.
Proof. apply (startup_timeouts false 0 1 2 None (mkDuration 0 500) tt); cbn; lia. Defined.
