(* ===== verification/Debug.v ===== *)
(** * Debugging

    [uefi/src/proto/debug/mod.rs]: the debug support protocol and the debug port.
    Callbacks are optional addresses; buffers are their contents. *)
From S2P Require Import Prelude Firmware Status.

Module ProcessorArch.
Definition X86_32 : Z := 0x014C.
Definition X86_64 : Z := 0x8664.
Definition ITANIUM : Z := 0x200.
Definition EBC : Z := 0x0EBC.
Definition ARM : Z := 0x01C2.
Definition AARCH_64 : Z := 0xAA64.
Definition RISCV_32 : Z := 0x5032.
Definition RISCV_64 : Z := 0x5064.
Definition RISCV_128 : Z := 0x5128.
End ProcessorArch.

(** [efi_get_maximum_processor_index] returns what it wrote to the canary, if it did. *)
Class DebugServices (W : Type) : Type := {
  debug_isa : W -> Z;
  efi_get_maximum_processor_index : W -> (Z * option Z) * W;
  efi_register_periodic_callback : Z -> option Z -> W -> Z * W;
  efi_register_exception_callback : Z -> option Z -> Z -> W -> Z * W;
  efi_invalidate_instruction_cache : Z -> Z -> Z -> W -> Z * W;
  efi_port_reset : W -> Z * W;
  efi_port_write : Z -> list Z -> W -> (Z * Z) * W;
  efi_port_read : Z -> list Z -> W -> (Z * Z * list Z) * W;
  efi_port_poll : W -> Z * W;
}.

Section debug.
Context `{Profile} {W : Type} `{!DebugServices W}.

Definition arch : fw W Z := call (fun w => (debug_isa w, w)).

(** The status is ignored. *)
Definition get_maximum_processor_index : fw W Z :=
  '(_, max_processor_index) ← call efi_get_maximum_processor_index; mret (default usize_MAX max_processor_index).

(** The check of the index that three methods begin with. *)
Definition with_processor (processor_index : Z) (k : fw W (uresult unit unit)) : fw W (uresult unit unit) :=
  max ← get_maximum_processor_index;
  if max <? processor_index then e ← lift (error_from_status Status.INVALID_PARAMETER); mret (Err e) else k.

Definition register_periodic_callback (processor_index : Z) (callback : option Z) : fw W (uresult unit unit) :=
  with_processor processor_index
    (status ← call (efi_register_periodic_callback processor_index callback); lift (to_result status)).

Definition register_exception_callback (processor_index : Z) (callback : option Z) (exception_type : Z) : fw W (uresult unit unit) :=
  with_processor processor_index
    (status ← call (efi_register_exception_callback processor_index callback exception_type); lift (to_result status)).

Definition invalidate_instruction_cache (processor_index start length : Z) : fw W (uresult unit unit) :=
  with_processor processor_index
    (status ← call (efi_invalidate_instruction_cache processor_index start length); lift (to_result status)).

(** ** The debug port *)

Definition port_reset : fw W (uresult unit unit) := status ← call efi_port_reset; lift (to_result status).

(** [debug_assert_eq!(buffer_size, data.len())] on a success. *)
Definition debug_port_result (status buffer_size len : Z) : outcome (uresult unit Z) :=
  if Status.is_success status then
    let! _ := if overflow_checks then assert_ (buffer_size =? len) else Ret tt in Ret (Ok tt)
  else let! e := error_new status buffer_size in Ret (Err e).

Definition port_write (timeout : Z) (data : list Z) : fw W (uresult unit Z) :=
  '(status, buffer_size) ← call (efi_port_write timeout data); lift (debug_port_result status buffer_size (zlen data)).

Definition port_read (timeout : Z) (data : list Z) : fw W (uresult unit Z * list Z) :=
  '(status, buffer_size, data') ← call (efi_port_read timeout data);
  r ← lift (debug_port_result status buffer_size (zlen data)); mret (r, data').

Definition port_poll : fw W (uresult unit unit) := status ← call efi_port_poll; lift (to_result status).
End debug.

(** ** What the specification documents *)

(** [registered w] are the callbacks that a debugger has on a processor; the firmware
    changes them only when it is asked to. *)
Class DebugLaws (W : Type) `{!DebugServices W} : Type := {
  processors : W -> Z;
  registered : W -> Z -> option Z;
  max_index_law : forall w r w', efi_get_maximum_processor_index w = (r, w') ->
    r.2 = Some (processors w - 1) /\ processors w' = processors w /\ forall i, registered w' i = registered w i;
  periodic_law : forall i c w s w', efi_register_periodic_callback i c w = (s, w') ->
    forall j, registered w' j = if decide (s = 0 /\ j = i) then c else registered w j;
}.

(** A callback is registered for a processor that exists, and no other processor gets
    one: for an index that is too large the firmware is not asked. *)
Theorem periodic_callback_spec {W : Type} `{!DebugServices W, !DebugLaws W} (i : Z) (c : option Z) (w : W) :
  runs (register_periodic_callback i c) w (fun r w' =>
    forall j, registered w' j = if decide (is_ok r = true /\ j = i) then c else registered w j) /\
  (processors w <= i -> exists w', register_periodic_callback i c w = Ret (Err (mkError Status.INVALID_PARAMETER tt), w') /\
    forall j, registered w' j = registered w j).
Proof.
  destruct (efi_get_maximum_processor_index w) as [[s0 m] w1] eqn:E. destruct (max_index_law _ _ _ E) as (Hm & Hp & Hr). cbn in Hm. subst m.
  assert (get_maximum_processor_index w = Ret (processors w - 1, w1)) as Em.
  { unfold get_maximum_processor_index. by rewrite fw_bind_call, E. }
  unfold register_periodic_callback, with_processor. split.
  - runs_step. eapply runs_eq; [exact Em|]. cbv beta. destruct (Z.ltb_spec (processors w - 1) i).
    + runs_step. eapply runs_lift; [reflexivity|]. runs_step. intros j. rewrite decide_False by (cbn; naive_solver). apply Hr.
    + do 2 runs_step. destruct (efi_register_periodic_callback i c w1) as [s w2] eqn:E2. cbn [fst snd].
      rewrite to_result_cases. eapply runs_lift; [done|]. intros j. rewrite (periodic_law _ _ _ _ _ E2 j), Hr.
      destruct (Z.eqb_spec s 0); cbn [is_ok]; repeat case_decide; naive_solver.
  - intros Hi. exists w1. split; [|done]. rewrite (fw_bind_Ret _ _ _ _ _ Em). by rewrite (proj2 (Z.ltb_lt _ _)) by lia.
Qed.

Module OneCore.
Record t : Type := mk { callback : option Z }.

#[global] Instance services : DebugServices t := {|
  debug_isa _ := ProcessorArch.X86_64;
  efi_get_maximum_processor_index w := ((0, Some 0), w);
  efi_register_periodic_callback i c w := if decide (i = 0) then (0, mk c) else (Status.INVALID_PARAMETER, w);
  efi_register_exception_callback _ _ _ w := (0, w);
  efi_invalidate_instruction_cache _ _ _ w := (0, w);
  efi_port_reset w := (0, w);
  efi_port_write _ d w := ((0, zlen d), w);
  efi_port_read _ d w := ((Status.TIMEOUT, 0, d), w);
  efi_port_poll w := (Status.NOT_READY, w);
|}.

#[global, refine] Instance laws : DebugLaws t := {| processors _ := 1; registered w i := if decide (i = 0) then callback w else None |}.
Proof.
  - by intros w r w' [= <- <-].
  - intros i c w s w' [= E] j. cbn in E. destruct (decide (i = 0)) as [->|]; simplify_eq; repeat case_decide; naive_solver.
Defined.
End OneCore.

(** A callback for the first processor; none for the second. *)
Lemma periodic_callback_spec_witness :
  exists w', register_periodic_callback 1 (Some 0x100) (OneCore.mk None) = Ret (Err (mkError Status.INVALID_PARAMETER tt), w') /\
    registered w' 0 = None.
Proof.
  destruct (periodic_callback_spec 1 (Some 0x100) (OneCore.mk None)) as [_ Hs]. destruct Hs as (w' & E & Hr); [by vm_compute|].
  exists w'. split; [exact E|]. by rewrite Hr.
Defined.
