(* ===== verification/Security.v ===== *)
(** * Random numbers, image verification and memory protection

    [uefi/src/proto/{rng.rs,shim/mod.rs,security/memory_protection.rs}]. *)
From S2P Require Import Prelude Firmware Status.

Class SecurityServices (W : Type) : Type := {
  efi_rng_get_info : Z -> list (list Z) -> W -> (Z * Z * list (list Z)) * W;
  efi_get_rng : option (list Z) -> Z -> list Z -> W -> (Z * list Z) * W;
  shim_verify : list Z -> Z -> W -> Z * W;
  shim_context : list Z -> Z -> W -> (Z * list Z) * W;
  shim_hash : list Z -> Z -> list Z -> W -> (Z * (list Z * list Z)) * W;
  efi_get_memory_attributes : Z -> Z -> W -> (Z * Z) * W;
  efi_set_memory_attributes : Z -> Z -> Z -> W -> Z * W;
  efi_clear_memory_attributes : Z -> Z -> Z -> W -> Z * W;
}.

Record Hashes : Set := mkHashes { sha256 : list Z; sha1 : list Z }.

(** An algorithm is a GUID of sixteen bytes. *)
Definition size_of_algorithm : Z := 16.

Section security.
Context {W : Type} `{!SecurityServices W}.

(** ** Random numbers *)

(** The list that is returned is the beginning of the buffer. *)
Definition get_info (algorithm_list : list (list Z)) : fw W (uresult (list (list Z)) (option Z) * list (list Z)) :=
  '(status, algorithm_list_size, algorithm_list) ← call (efi_rng_get_info (zlen algorithm_list * size_of_algorithm) algorithm_list);
  if Status.is_success status then
    len ← lift (usize_div algorithm_list_size size_of_algorithm);
    algorithms ← lift (slice algorithm_list 0 len);
    mret (Ok algorithms, algorithm_list)
  else
    e ← lift (error_new status (if status =? Status.BUFFER_TOO_SMALL then Some algorithm_list_size else None));
    mret (Err e, algorithm_list).

Definition get_rng (algorithm : option (list Z)) (buffer : list Z) : fw W (uresult unit unit * list Z) :=
  '(status, buffer) ← call (efi_get_rng algorithm (zlen buffer) buffer); r ← lift (to_result status); mret (r, buffer).

(** ** The shim *)

(** [len().try_into().map_err(|_| Status::BAD_BUFFER_SIZE)]. *)
Definition shim_size (buffer : list Z) : outcome (uresult Z unit) :=
  if zlen buffer <? 2 ^ 32 then Ret (Ok (zlen buffer))
  else let! e := error_from_status Status.BAD_BUFFER_SIZE in Ret (Err e).

Definition verify (buffer : list Z) : fw W (uresult unit unit) :=
  try size <- lift (shim_size buffer);
  status ← call (shim_verify buffer size); lift (to_result status).

(** The hashes afterwards are returned too. *)
Definition hash (buffer : list Z) (hashes : Hashes) : fw W (uresult unit unit * Hashes) :=
  size ← lift (shim_size buffer);
  match size with
  | Err e => mret (Err e, hashes)
  | Ok size =>
      '(status, context) ← call (shim_context buffer size);
      r ← lift (to_result status);
      match r with
      | Err e => mret (Err e, hashes)
      | Ok _ =>
          '(status, (h256, h1)) ← call (shim_hash buffer size context);
          r ← lift (to_result status);
          mret (r, mkHashes h256 h1)
      end
  end.

(** ** Memory protection *)

(** [checked_sub(..).unwrap()]. *)
Definition range_to_base_and_len (r : Z * Z) : outcome (Z * Z) :=
  let! len := unwrap (if r.1 <=? r.2 then Some (r.2 - r.1) else None) in Ret (r.1, len).

Definition get_memory_attributes (byte_region : Z * Z) : fw W (uresult Z unit) :=
  '(base_address, length) ← lift (range_to_base_and_len byte_region);
  '(status, attributes) ← call (efi_get_memory_attributes base_address length);
  lift (to_result_with_val status attributes).

Definition set_memory_attributes (byte_region : Z * Z) (attributes : Z) : fw W (uresult unit unit) :=
  '(base_address, length) ← lift (range_to_base_and_len byte_region);
  status ← call (efi_set_memory_attributes base_address length attributes); lift (to_result status).

Definition clear_memory_attributes (byte_region : Z * Z) (attributes : Z) : fw W (uresult unit unit) :=
  '(base_address, length) ← lift (range_to_base_and_len byte_region);
  status ← call (efi_clear_memory_attributes base_address length attributes); lift (to_result status).
End security.

(** ** What the specification documents

    [protection w p] are the attributes of the page [p]; regions consist of pages, and
    all pages of a region have the attributes that are reported. *)
Definition pages_in (start len : Z) (p : Z) : Prop := start <= p * 4096 < start + len.

Class ProtectionLaws (W : Type) `{!SecurityServices W} : Type := {
  protection : W -> Z -> Z;
  get_attributes_law : forall a n w s v w', efi_get_memory_attributes a n w = ((s, v), w') ->
    (forall p, protection w' p = protection w p) /\ (s = 0 -> 0 < n -> forall p, pages_in a n p -> protection w p = v);
  set_attributes_law : forall a n x w s w', efi_set_memory_attributes a n x w = (s, w') -> forall p,
    protection w' p = if decide (s = 0 /\ pages_in a n p) then Z.lor (protection w p) x else protection w p;
  clear_attributes_law : forall a n x w s w', efi_clear_memory_attributes a n x w = (s, w') -> forall p,
    protection w' p = if decide (s = 0 /\ pages_in a n p) then Z.ldiff (protection w p) x else protection w p;
}.

Section protection.
Context {W : Type} `{!SecurityServices W, !ProtectionLaws W}.

(** A region whose end is before its start panics; otherwise setting and clearing
    attributes changes exactly the pages of the region, and what is reported then has,
    or lacks, the attributes. *)
Theorem protection_spec (a b x : Z) (w : W) :
  if b <? a then
    get_memory_attributes (a, b) w = Panic UnwrapFailed /\ set_memory_attributes (a, b) x w = Panic UnwrapFailed /\
    clear_memory_attributes (a, b) x w = Panic UnwrapFailed
  else
    runs (set_memory_attributes (a, b) x) w (fun r w1 =>
      (forall p, ~ a <= p * 4096 < b -> protection w1 p = protection w p) /\
      runs (get_memory_attributes (a, b)) w1 (fun g _ => r = Ok tt -> forall v, g = Ok v -> (exists p, a <= p * 4096 < b) -> Z.land v x = x)) /\
    runs (clear_memory_attributes (a, b) x) w (fun r w1 =>
      (forall p, ~ a <= p * 4096 < b -> protection w1 p = protection w p) /\
      runs (get_memory_attributes (a, b)) w1 (fun g _ => r = Ok tt -> forall v, g = Ok v -> (exists p, a <= p * 4096 < b) -> Z.land v x = 0)).
Proof.
  destruct (Z.ltb_spec b a) as [Hlt|Hle].
  { unfold get_memory_attributes, set_memory_attributes, clear_memory_attributes, range_to_base_and_len. cbn [fst snd].
    by rewrite (proj2 (Z.leb_gt _ _)) by lia. }
  assert (range_to_base_and_len (a, b) = Ret (a, b - a)) as Er.
  { unfold range_to_base_and_len. cbn [fst snd]. by rewrite (proj2 (Z.leb_le _ _)) by lia. }
  assert (forall p, pages_in a (b - a) p <-> a <= p * 4096 < b) as Hpages by (intros p; unfold pages_in; lia).
  assert (forall w1 (f : Z -> Prop) (r : uresult unit unit), (r = Ok tt -> forall p, a <= p * 4096 < b -> f (protection w1 p)) ->
    runs (get_memory_attributes (a, b)) w1 (fun g _ => r = Ok tt -> forall v, g = Ok v -> (exists p, a <= p * 4096 < b) -> f v)) as Hget.
  { intros w1 f r Hf. unfold get_memory_attributes. runs_step. eapply runs_lift; [exact Er|]. cbv beta iota. do 2 runs_step.
    destruct (efi_get_memory_attributes a (b - a) w1) as [[s v] w2] eqn:E. cbn [fst snd]. destruct (get_attributes_law _ _ _ _ _ _ E) as [_ Hv].
    rewrite to_result_with_val_cases. eapply runs_lift; [done|]. intros Hr v'. destruct (Z.eqb_spec s 0); [|done]. intros [= <-] (p & Hp).
    rewrite <- (Hv ltac:(done) ltac:(lia) p (proj2 (Hpages p) Hp)). by apply Hf. }
  split.
  - unfold set_memory_attributes. runs_step. eapply runs_lift; [exact Er|]. cbv beta iota. do 2 runs_step.
    destruct (efi_set_memory_attributes a (b - a) x w) as [s w1] eqn:E. cbn [fst snd]. pose proof (set_attributes_law _ _ _ _ _ _ E) as Hs.
    rewrite to_result_cases. eapply runs_lift; [done|]. split.
    + intros p Hp. rewrite Hs. by rewrite decide_False by (rewrite Hpages; naive_solver).
    + apply (Hget w1 (fun v => Z.land v x = x)). destruct (Z.eqb_spec s 0); [|done]. intros _ p Hp. rewrite Hs, decide_True by (by rewrite Hpages).
      apply Z.bits_inj. intros i. rewrite Z.land_spec, Z.lor_spec. by destruct (Z.testbit x i), (Z.testbit (protection w p) i).
  - unfold clear_memory_attributes. runs_step. eapply runs_lift; [exact Er|]. cbv beta iota. do 2 runs_step.
    destruct (efi_clear_memory_attributes a (b - a) x w) as [s w1] eqn:E. cbn [fst snd]. pose proof (clear_attributes_law _ _ _ _ _ _ E) as Hs.
    rewrite to_result_cases. eapply runs_lift; [done|]. split.
    + intros p Hp. rewrite Hs. by rewrite decide_False by (rewrite Hpages; naive_solver).
    + apply (Hget w1 (fun v => Z.land v x = 0)). destruct (Z.eqb_spec s 0); [|done]. intros _ p Hp. rewrite Hs, decide_True by (by rewrite Hpages).
      apply Z.bits_inj. intros i. rewrite Z.land_spec, Z.ldiff_spec, Z.bits_0. by destruct (Z.testbit x i), (Z.testbit (protection w p) i).
Qed.
End protection.

(** A machine that reports the attributes of one page at a time. *)
Module Pages.
#[global] Instance services : SecurityServices (Z -> Z) := {|
  efi_rng_get_info _ l w := ((Status.UNSUPPORTED, 0, l), w);
  efi_get_rng _ _ buf w := ((Status.UNSUPPORTED, buf), w);
  shim_verify _ _ w := (Status.SECURITY_VIOLATION, w);
  shim_context _ _ w := ((Status.UNSUPPORTED, []), w);
  shim_hash _ _ _ w := ((Status.UNSUPPORTED, ([], [])), w);
  efi_get_memory_attributes a n w :=
    if decide (a mod 4096 = 0 /\ n <= 4096) then ((0, w (a / 4096)), w) else ((Status.NO_MAPPING, 0), w);
  efi_set_memory_attributes a n x w := (0, fun p => if decide (pages_in a n p) then Z.lor (w p) x else w p);
  efi_clear_memory_attributes a n x w := (0, fun p => if decide (pages_in a n p) then Z.ldiff (w p) x else w p);
|}.

#[global, refine] Instance laws : ProtectionLaws (Z -> Z) := {| protection w := w |}.
Proof.
  - intros a n w s v w'. cbn. case_decide as Ha; intros [= <- <- <-]; (split; [done|]); [|done]. intros _ Hn p Hp. f_equal.
    unfold pages_in in Hp. destruct Ha as [Ha Hn']. pose proof (Z.div_mod a 4096 ltac:(lia)). lia.
  - intros a n x w s w' [= <- <-] p. repeat case_decide; naive_solver.
  - intros a n x w s w' [= <- <-] p. repeat case_decide; naive_solver.
Defined.
End Pages.

(** The second page becomes read-only; an inverted region panics. *)
Lemma protection_spec_witness :
  (exists w', set_memory_attributes (4096, 8192) 0x20000 (fun _ => 1) = Ret (Ok tt, w') /\ protection w' 0 = 1) /\
  set_memory_attributes (8192, 4096) 0x20000 (fun _ => 1) = Panic UnwrapFailed.
Proof.
  split; [|apply (protection_spec 8192 4096 0x20000 (fun _ => 1))].
  destruct (protection_spec 4096 8192 0x20000 (fun _ => 1)) as [(r & w' & E & Hf & _) _].
  exists w'. split; [rewrite E; by injection E as <- _|]. apply (Hf 0). lia.
Defined.
