(* ===== verification/Misc.v ===== *)
(** * Timestamps, reset notifications and shell parameters

    [uefi/src/proto/{misc.rs,shell_params.rs}].  Functions are addresses. *)
From S2P Require Import Prelude Firmware Chars Strs Status LoadedImage BootMemory BootProtocols.

Record TimestampProperties : Set := mkTimestampProperties { frequency : Z; end_value : Z }.

(** [argc], and the pointers at [argv]. *)
Record ShellParameters : Set := mkShellParameters { argv : Z; argc : Z }.

Class MiscServices (W : Type) : Type := {
  efi_get_timestamp : W -> Z * W;
  efi_get_properties : W -> (Z * TimestampProperties) * W;
  efi_register_reset_notify : Z -> W -> Z * W;
  efi_unregister_reset_notify : Z -> W -> Z * W;
  shell_parameters : W -> ShellParameters;
}.

Section misc.
Context {W : Type} `{!BootServices W, !ProtocolServices W, !MiscServices W}.

Definition get_timestamp : fw W Z := call efi_get_timestamp.

Definition get_properties : fw W (uresult TimestampProperties unit) :=
  '(status, properties) ← call efi_get_properties; lift (to_result_with_val status properties).

Definition register_reset_notify (reset_function : Z) : fw W (uresult unit unit) :=
  status ← call (efi_register_reset_notify reset_function); lift (to_result status).

Definition unregister_reset_notify (reset_function : Z) : fw W (uresult unit unit) :=
  status ← call (efi_unregister_reset_notify reset_function); lift (to_result status).

Definition args_len : fw W Z := call (fun w => (argc (shell_parameters w), w)).

(** The pointers of the slice, eight bytes each. *)
Definition args_slice : fw W (list Z) :=
  call (fun w => (map (fun i => peek (argv (shell_parameters w) + 8 * Z.of_nat i) w) (seq 0 (Z.to_nat (argc (shell_parameters w)))), w)).

Fixpoint strings_at (ptrs : list Z) : fw W (list (list Z)) :=
  match ptrs with
  | [] => mret []
  | x :: ptrs =>
      mem ← call (fun w => (memory_at x w, w));
      s ← lift (cstr16_from_ptr (units_of mem));
      l ← strings_at ptrs;
      mret (s :: l)
  end.

(** The arguments, all collected. *)
Definition args : fw W (list (list Z)) := ptrs ← args_slice; strings_at ptrs.

(** The arguments of the shell are read in order, each up to its NUL. *)
Lemma args_spec (ss : list (list Z)) (ptrs : list Z) (w : W) :
  argc (shell_parameters w) = zlen ptrs ->
  (forall i p, ptrs !! i = Some p -> peek (argv (shell_parameters w) + 8 * Z.of_nat i) w = p) ->
  Forall2 (fun p s => cstr16_wf s /\ exists k, units_of (memory_at p w) = s ++ k) ptrs ss ->
  args w = Ret (ss, w).
Proof.
  intros Hc Hp Hs. unfold args, args_slice. rewrite fw_bind_call. cbn [fst snd].
  assert (map (fun i => peek (argv (shell_parameters w) + 8 * Z.of_nat i) w) (seq 0 (Z.to_nat (argc (shell_parameters w)))) = ptrs) as ->.
  { rewrite Hc. unfold zlen. rewrite Nat2Z.id. apply list_eq. intros i. rewrite list_lookup_fmap.
    destruct (decide (i < length ptrs)%nat) as [Hi|Hi].
    - rewrite lookup_seq_lt by done. destruct (lookup_lt_is_Some_2 ptrs i Hi) as [p Ep]. cbn. rewrite Ep. f_equal. by apply Hp.
    - rewrite lookup_seq_ge, lookup_ge_None_2 by lia. done. }
  clear Hc Hp. induction Hs as [|p s ptrs ss (Hw & k & Hk) _ IH]; [done|]. cbn [strings_at]. rewrite fw_bind_call. cbn [fst snd]. rewrite Hk.
  rewrite from_ptr_wf, fw_bind_lift by done. by rewrite (fw_bind_Ret _ _ _ _ _ IH).
Qed.
End misc.
