(* ===== verification/DevicePathText.v ===== *)
(** * Device paths and the firmware: text and utilities

    [uefi/src/proto/device_path/text.rs], [util.rs] and the functions of
    [uefi/src/proto/device_path/mod.rs] that use them; the guards of pool memory
    [PoolAllocation] ([uefi/src/mem/mod.rs]), [PoolString]
    ([uefi/src/data_types/strs.rs]), [PoolDevicePath] and [PoolDevicePathNode].
    Paths and nodes are their bytes, pool memory is its address. *)
From stdpp Require Import gmap.
From S2P Require Import Prelude Firmware Chars Strs OwnedStrs Status DevicePath BootMemory LoadedImage BootProtocols Guards BootEvents Console Inert.

Definition DevicePathToText_P : ProtocolPointer := sized_protocol 0x8b843e208132485290cc551a4e4a7f1c.
Definition DevicePathFromText_P : ProtocolPointer := sized_protocol 0x05c99a21c70f4ad28a5f35df3343f51e.
Definition DevicePathUtilities_P : ProtocolPointer := sized_protocol 0x0379be4ed706437db037edb82fb772a4.

(** The functions return a pointer, null when memory runs out. *)
Class TextServices (W : Type) : Type := {
  efi_node_to_text : list Z -> bool -> bool -> W -> Z * W;
  efi_path_to_text : list Z -> bool -> bool -> W -> Z * W;
  efi_text_to_node : list Z -> W -> Z * W;
  efi_text_to_path : list Z -> W -> Z * W;
  efi_get_device_path_size : list Z -> W -> Z * W;
  efi_append_device_path : list Z -> list Z -> W -> Z * W;
  efi_append_device_node : list Z -> list Z -> W -> Z * W;
  efi_append_device_path_instance : list Z -> list Z -> W -> Z * W;
}.

Inductive DevicePathToTextError : Set :=
| CantLocateHandleBuffer (e : Error unit)
| NoHandle
| CantOpenProtocol (e : Error unit)
| OutOfMemory.

(** [DevicePathUtilitiesError] has the same variants. *)
Definition DevicePathUtilitiesError : Set := DevicePathToTextError.

Definition text_error_source (e : DevicePathToTextError) : option (Error unit) :=
  match e with
  | CantLocateHandleBuffer e => Some e
  | CantOpenProtocol e => Some e
  | _ => None
  end.

Section text.
Context `{Profile} {W : Type} `{!BootServices W, !ProtocolServices W, !TextServices W}.

(** ** Pool memory *)

(** [Drop for PoolAllocation]: errors are ignored. *)
Definition pool_drop (self : Z) : fw W unit := _ ← free_pool self; mret tt.

Definition pool_string_new (text : Z) : fw W (uresult Z unit) := lift (nonnull text).

Definition pool_string_deref (self : Z) : fw W (list Z) :=
  mem ← call (fun w => (memory_at self w, w));
  lift (cstr16_from_ptr (units_of mem)).

Definition pool_path_deref (self : Z) : fw W (list Z) :=
  mem ← call (fun w => (memory_at self w, w));
  lift (path_from_ffi_ptr mem).

Definition pool_node_deref (self : Z) : fw W DevicePathNode :=
  mem ← call (fun w => (memory_at self w, w));
  lift (node_from_ffi_ptr mem).

(** ** The protocols *)

Definition convert_device_node_to_text (device_node : list Z) (display_only allow_shortcuts : bool) : fw W (uresult Z unit) :=
  text ← call (efi_node_to_text device_node display_only allow_shortcuts); pool_string_new text.

Definition convert_device_path_to_text (device_path : list Z) (display_only allow_shortcuts : bool) : fw W (uresult Z unit) :=
  text ← call (efi_path_to_text device_path display_only allow_shortcuts); pool_string_new text.

Definition convert_text_to_device_node (text_device_node : list Z) : fw W (uresult Z unit) :=
  ptr ← call (efi_text_to_node text_device_node); lift (nonnull ptr).

Definition convert_text_to_device_path (text_device_path : list Z) : fw W (uresult Z unit) :=
  ptr ← call (efi_text_to_path text_device_path); lift (nonnull ptr).

Definition get_size (device_path : list Z) : fw W Z := call (efi_get_device_path_size device_path).

Definition util_append_path (path0 path1 : list Z) : fw W (uresult Z unit) :=
  ptr ← call (efi_append_device_path path0 path1); lift (nonnull ptr).

Definition util_append_node (basepath node : list Z) : fw W (uresult Z unit) :=
  ptr ← call (efi_append_device_node basepath node); lift (nonnull ptr).

Definition util_append_instance (basepath instance : list Z) : fw W (uresult Z unit) :=
  ptr ← call (efi_append_device_path_instance basepath instance); lift (nonnull ptr).

(** ** Finding the protocols *)

(** Opens [P] on the first handle that [locate_handle_buffer] finds for the GUID [g];
    the buffer is freed before. *)
Definition open_on_first (g : Z) (P : ProtocolPointer) : fw W (result ScopedProtocol DevicePathToTextError) :=
  located ← locate_handle_buffer (ByProtocol g);
  match located with
  | Err e => mret (Err (CantLocateHandleBuffer e))
  | Ok buffer =>
      handles ← handle_buffer_deref buffer;
      match head handles with
      | None => handle_buffer_drop buffer;; mret (Err NoHandle)
      | Some handle =>
          handle_buffer_drop buffer;;
          agent ← image_handle;
          r ← open_protocol P (mkOpenProtocolParams handle agent None) GetProtocol;
          mret (map_err CantOpenProtocol r)
      end
  end.

Definition open_text_protocol : fw W (result ScopedProtocol DevicePathToTextError) :=
  open_on_first (pp_guid DevicePathToText_P) DevicePathToText_P.

(** The search is for the handles of the text protocol. *)
Definition open_utility_protocol : fw W (result ScopedProtocol DevicePathUtilitiesError) :=
  open_on_first (pp_guid DevicePathToText_P) DevicePathUtilities_P.

(** ** Paths and nodes *)

(** The guard of the protocol is dropped at the end of the function. *)
Definition with_guard {A} (P : ProtocolPointer) (opened : fw W (result ScopedProtocol DevicePathToTextError))
    (body : fw W (uresult A unit)) : fw W (result A DevicePathToTextError) :=
  try sp <- opened;
  _ ← lift (scoped_deref sp);
  r ← body;
  scoped_drop P sp;;
  mret (map_err (fun _ => OutOfMemory) r).

(** The text is copied into a [CString16], and the pool string dropped. *)
Definition copy_pool_string (converted : fw W (uresult Z unit)) : fw W (uresult (list Z) unit) :=
  try pool_string <- converted;
  cstr16 ← pool_string_deref pool_string;
  pool_drop pool_string;;
  mret (Ok (cstring16_from_cstr16 cstr16)).

Definition node_to_string (self : list Z) (display_only allow_shortcuts : bool) : fw W (result (list Z) DevicePathToTextError) :=
  with_guard DevicePathToText_P open_text_protocol
    (copy_pool_string (convert_device_node_to_text self display_only allow_shortcuts)).

Definition path_to_string (self : list Z) (display_only allow_shortcuts : bool) : fw W (result (list Z) DevicePathToTextError) :=
  with_guard DevicePathToText_P open_text_protocol
    (copy_pool_string (convert_device_path_to_text self display_only allow_shortcuts)).

Definition append_path (self right : list Z) : fw W (result Z DevicePathUtilitiesError) :=
  with_guard DevicePathUtilities_P open_utility_protocol (util_append_path self right).

Definition append_node (self right : list Z) : fw W (result Z DevicePathUtilitiesError) :=
  with_guard DevicePathUtilities_P open_utility_protocol (util_append_node self right).
End text.

(** ** What the specification documents *)

(** Pool memory at an address, unless memory ran out. *)
Definition new_pool {W} `{!BootServices W, !Blocks W} (p : Z) (w w' : W) : Prop :=
  if p =? 0 then same_blocks w w' else exists n, adds (Pool p n) w w'.

Definition text_guid (g : Z) : Prop := g = pp_guid DevicePathToText_P \/ g = pp_guid DevicePathUtilities_P.

(** [supporting w g] are the handles that support a protocol, [text_of] is the text
    of a path.  Searching, converting and freeing leave the open protocols alone,
    and closing a protocol leaves memory alone. *)
Class TextLaws (W : Type) `{!BootServices W, !Blocks W, !ProtocolServices W, !TextServices W} : Type := {
  uses : W -> Z * Z -> nat;
  supporting : W -> Z -> list Z;
  text_of : list Z -> bool -> bool -> list Z;
  text_guards :: GuardLaws calm uses (fun _ => True) text_guid;
  text_locate : forall g w s n p w', efi_locate_handle_buffer 2 g 0 w = ((s, n, p), w') ->
    same_uses uses w w' /\ image_handle_cell w' = image_handle_cell w /\
    if s =? 0 then p <> 0 /\ n = zlen (supporting w g) /\ adds (Pool p (n * size_of_Handle)) w w' /\
      forall i, (i < length (supporting w g))%nat ->
        Some (peek (p + size_of_Handle * Z.of_nat i) w') = supporting w g !! i
    else same_blocks w w';
  text_free : forall p w, same_uses uses w (efi_free_pool p w).2 /\
    image_handle_cell (efi_free_pool p w).2 = image_handle_cell w;
  text_convert : forall path d a w p w', efi_path_to_text path d a w = (p, w') ->
    same_uses uses w w' /\ image_handle_cell w' = image_handle_cell w /\ new_pool p w w' /\
    (p <> 0 -> cstr16_from_ptr (units_of (memory_at p w')) = Ret (text_of path d a));
  text_append : forall ns ms w p w', Forall node_wf ns -> Forall node_wf ms ->
    efi_append_device_path (nodes_bytes (ns ++ [end_entire])) (nodes_bytes (ms ++ [end_entire])) w = (p, w') ->
    same_uses uses w w' /\ image_handle_cell w' = image_handle_cell w /\ new_pool p w w' /\
    (p <> 0 -> exists k, memory_at p w' = nodes_bytes (ns ++ ms ++ [end_entire]) ++ k);
  text_close : forall h g p w w' s, efi_close_protocol h g (image_handle_cell w) 0 w = (s, w') -> memory_at p w' = memory_at p w;
}.

Section properties.
Context `{Profile} {W : Type} `{!BootServices W, !Blocks W, !ProtocolServices W, !TextServices W, !MemoryLaws W, !TextLaws W}.

(** Nothing is opened, allocated or freed. *)
Definition undisturbed (w w' : W) : Prop := calm w w' /\ same_uses uses w w'.

Lemma pool_drop_runs p n w :
  boot_active w = true -> live w (Pool p n) ->
  runs (pool_drop p) w (fun _ w' => drops (Pool p n) w w' /\ same_uses uses w w' /\ image_handle_cell w' = image_handle_cell w).
Proof.
  intros Hact Hl. destruct (pool_free p n w Hl) as (w' & E & D). pose proof (text_free p w) as Hf. rewrite E in Hf. cbn [snd] in Hf.
  unfold pool_drop, free_pool. runs_step. apply runs_services; [done|]. repeat runs_step. rewrite E. cbn [fst snd].
  rewrite to_result_cases. eapply runs_lift; [done|]. by runs_step.
Qed.

(** The result of [open_on_first]: the protocol of the first handle is open once more,
    and the memory of the search is freed. *)
Lemma open_on_first_runs g P w :
  text_guid P -> boot_active w = true -> image_handle_cell w <> 0 ->
  runs (open_on_first g (sized_protocol P)) w (fun r w' => calm w w' /\
    match r with
    | Ok sp => exists h p, head (supporting w g) = Some h /\ shared_guard h p w' sp /\ plus_one uses (h, P) w w'
    | Err _ => same_uses uses w w'
    end).
Proof.
  intros Hg Hact Hi. unfold open_on_first, locate_handle_buffer. runs_step. apply runs_services; [done|]. cbn [search_params].
  repeat runs_step. destruct (efi_locate_handle_buffer 2 g 0 w) as [[[s n] b] w1] eqn:E.
  destruct (text_locate _ _ _ _ _ _ E) as (U & I & Hl). cbn [fst snd]. runs_step. rewrite to_result_cases. eapply runs_lift; [done|].
  destruct (s =? 0); [|runs_step; by split]. destruct Hl as (Hb & -> & A & Hw).
  unfold handle_from_ptr. rewrite (proj2 (Z.eqb_neq b 0)) by done. repeat runs_step. unfold handle_buffer_deref. cbn [hb_buffer hb_count].
  eapply runs_eq; [by apply words_at_list|].
  assert (boot_active w1 = true) as Hact1 by (by rewrite (proj2 A)).
  change (handle_buffer_drop (mkHandleBuffer (zlen (supporting w g)) b)) with (pool_drop (W := W) b).
  assert (runs (pool_drop b) w1 (fun _ w2 => calm w w2 /\ same_uses uses w w2)) as Hdrop.
  { eapply runs_weaken; [eapply pool_drop_runs; [done|by eapply acquires_held, A]|].
    intros _ w2 (D & U2 & I2). split; [|by etrans]. split; [by eapply adds_drops|congruence]. }
  destruct (head (supporting w g)) as [h|]; runs_step; (eapply runs_weaken; [exact Hdrop|]); intros _ w2 [C2 U2]; [|by runs_step].
  assert (boot_active w2 = true) as Hact2 by (by rewrite (proj2 (proj1 C2))).
  assert (image_handle_cell w2 = image_handle_cell w) as I2 by apply C2.
  runs_step. apply runs_image_handle; [by rewrite I2|]. runs_step.
  eapply runs_weaken; [by apply (get_runs calm uses (fun _ => True) text_guid)|].
  intros r w3 [C3 Hr]. runs_step.
  assert (calm w w3) as C by (destruct C2, C3; split; [by eapply same_trans|congruence]).
  destruct r as [sp|e]; cbn [map_err]; (split; [done|]).
  - destruct Hr as (Pl & p & G). exists h, p. split; [done|]. split; [done|]. by rewrite U2.
  - destruct Hr as [Us _]. by rewrite U2.
Qed.

(** A body that acquires at most what its result says, run under a guard. *)
Lemma with_guard_runs {A} g P (body : fw W (uresult A unit)) (Post : W -> W -> A -> Prop) w :
  text_guid P -> boot_active w = true -> image_handle_cell w <> 0 ->
  (forall w1, calm w w1 -> boot_active w1 = true -> runs body w1 (fun r w2 =>
    same_uses uses w1 w2 /\ image_handle_cell w2 = image_handle_cell w1 /\ boot_active w2 = true /\
    match r with Ok a => Post w w2 a | Err _ => same_blocks w1 w2 end)) ->
  (forall w2 w3 a h, Post w w2 a -> calm w2 w3 -> efi_close_protocol h P (image_handle_cell w2) 0 w2 = (0, w3) -> Post w w3 a) ->
  runs (with_guard (sized_protocol P) (open_on_first g (sized_protocol P)) body) w (fun r w' =>
    same_uses uses w w' /\ image_handle_cell w' = image_handle_cell w /\
    match r with Ok a => Post w w' a /\ supporting w g <> [] | Err _ => same_blocks w w' end).
Proof.
  intros Hg Hact Hi Hbody Hpost. unfold with_guard. runs_step. eapply runs_weaken; [by apply open_on_first_runs|].
  intros [sp|e] w1 [C1 H1]; [|by destruct C1]. destruct H1 as (h & p & Hh & G & Pl).
  assert (boot_active w1 = true) as Hact1 by (by rewrite (proj2 (proj1 C1))).
  runs_step. eapply runs_interface; [done|]. runs_step. eapply runs_weaken; [by apply Hbody|].
  intros r w2 (U2 & I2 & Hact2 & Hr). runs_step.
  assert (0 < uses w2 (h, P))%nat as Hu
    by (pose proof (U2 (h, P)) as ->; by eapply (plus_used uses)).
  unfold scoped_drop. apply runs_services; [done|]. repeat runs_step.
  destruct G as (Ep & _). rewrite Ep. cbn [op_handle op_agent op_controller opt_to_ptr default sized_protocol pp_guid].
  destruct (guard_close (R := calm) h P w2 Hg Hu) as (w3 & E3 & C3 & M3). rewrite <- I2, E3. cbn [fst snd].
  eapply runs_lift; [done|]. runs_step.
  assert (same_uses uses w w3) as U3 by (intros d; rewrite (M3 d), (U2 d), (Pl d); case_decide; lia).
  split; [done|]. split; [destruct C1, C3; congruence|]. destruct r as [a|e]; cbn [map_err].
  - split; [by eapply Hpost|]. by intros E; rewrite E in Hh.
  - eapply same_trans; [apply C1|]. eapply same_trans; [exact Hr|apply C3].
Qed.

Lemma runs_nonnull p w (Q : uresult Z unit -> W -> Prop) :
  Q (if p =? 0 then Err (mkError Status.OUT_OF_RESOURCES tt) else Ok p) w -> runs (lift (nonnull p)) w Q.
Proof. intros HQ. unfold nonnull. destruct (p =? 0); by eapply runs_lift. Qed.

(** Converting a path to text returns the firmware's text of the path; whether it
    succeeds or not, the memory of the search and of the text is freed and the
    protocol closed. *)
Theorem path_to_string_spec (path : list Z) (display_only allow_shortcuts : bool) (w : W) :
  boot_active w = true -> image_handle_cell w <> 0 ->
  exists r w', path_to_string path display_only allow_shortcuts w = Ret (r, w') /\ same_blocks w w' /\ same_uses uses w w' /\
    forall s, r = Ok s -> s = text_of path display_only allow_shortcuts.
Proof.
  intros Hact Hi. set (Post (w w' : W) (s : list Z) := same_blocks w w' /\ s = text_of path display_only allow_shortcuts).
  assert (runs (path_to_string path display_only allow_shortcuts) w (fun r w' => same_uses uses w w' /\
    image_handle_cell w' = image_handle_cell w /\
    match r with Ok s => Post w w' s /\ supporting w (pp_guid DevicePathToText_P) <> [] | Err _ => same_blocks w w' end)) as Hr.
  { apply (with_guard_runs _ _ _ Post); [by left|done|done| |].
    2: { intros w2 w3 s h [S2 ->] [S3 _] _. split; [by eapply same_trans|done]. }
    intros w1 C1 Hact1. unfold copy_pool_string, convert_device_path_to_text. do 2 runs_step. runs_step.
    destruct (efi_path_to_text path display_only allow_shortcuts w1) as [p w2] eqn:E.
    destruct (text_convert _ _ _ _ _ _ E) as (U & I & Hn & Ht). cbn [fst snd]. unfold pool_string_new. apply runs_nonnull.
    unfold new_pool in Hn. destruct (Z.eqb_spec p 0) as [->|Hp].
    { split; [done|]. split; [done|]. split; [by rewrite (proj2 Hn)|done]. }
    destruct Hn as [n A]. unfold pool_string_deref. do 2 runs_step. runs_step. eapply runs_lift; [by apply Ht|].
    assert (boot_active w2 = true) as Hact2 by (by rewrite (proj2 A)).
    runs_step. eapply runs_weaken; [eapply pool_drop_runs; [done|by eapply acquires_held, A]|].
    intros _ w3 (D & U3 & I3). runs_step. split; [by etrans|]. split; [congruence|]. split; [by rewrite (proj2 D)|].
    split; [|done]. eapply same_trans; [apply C1|]. by eapply adds_drops. }
  destruct Hr as (r & w' & E & U & _ & Hr). exists r, w'. split; [done|]. destruct r as [s|e].
  - destruct Hr as [[S ->] _]. split; [done|]. split; [done|]. by intros ? [= <-].
  - by split.
Qed.


(** The utilities are looked for on the handles of the text protocol: without such a
    handle nothing can be appended, whichever handles have the utilities. *)
Theorem utilities_need_text_handle (path0 path1 : list Z) (w : W) :
  boot_active w = true -> image_handle_cell w <> 0 -> supporting w (pp_guid DevicePathToText_P) = [] ->
  exists e w', append_path path0 path1 w = Ret (Err e, w').
Proof.
  intros Hact Hi Hs. unfold append_path, with_guard.
  destruct (open_on_first_runs (pp_guid DevicePathToText_P) (pp_guid DevicePathUtilities_P) w) as (r & w' & E & _ & Hr); [by right|done|done|].
  destruct r as [sp|e]; [destruct Hr as (h & p & Hh & _); by rewrite Hs in Hh|].
  exists e, w'. unfold open_utility_protocol. change DevicePathUtilities_P with (sized_protocol (pp_guid DevicePathUtilities_P)).
  by rewrite (fw_try_Ret _ _ _ _ _ E).
Qed.
End properties.

(** ** A machine

    In [initial] handle 5 has the text and the utility protocols; every node has the text "P", or
    "p" when it is only displayed. *)
Module Converter.
Record t : Type := mk { base : machine; used : Z * Z -> nat; texts : gmap Z (list Z); handles : Z -> list Z }.

Definition with_base (m : machine) (w : t) : t := mk m (used w) (texts w) (handles w).
Definition change (c : Z * Z) (f : nat -> nat) (w : t) : t :=
  mk (base w) (fun d => if decide (d = c) then f (used w d) else used w d) (texts w) (handles w).
Definition store (p : Z) (bytes : list Z) (w : t) : t := mk (base w) (used w) (<[p := bytes]> (texts w)) (handles w).

#[global] Instance boot_services : BootServices t := lift_boot_services base with_base.
#[global] Instance blocks : Blocks t := lift_blocks base.
#[global] Instance memory_laws : MemoryLaws t := lift_memory_laws base with_base (fun _ _ => eq_refl).

(** Pool memory with the given contents. *)
Definition pool_of (bytes : list Z) (w : t) : Z * t :=
  let '((s, p), w') := efi_allocate_pool MemoryType_LOADER_DATA (zlen bytes) w in
  if s =? 0 then (p, store p bytes w') else (0, w').

Definition locate (g : Z) (w : t) : (Z * Z * Z) * t :=
  match handles w g with
  | [h] =>
      let '((s, p), w') := efi_allocate_pool MemoryType_LOADER_DATA 8 w in
      if s =? 0 then ((0, 1, p), poke p h w') else ((s, 0, 0), w')
  | _ => ((Status.NOT_FOUND, 0, 0), w)
  end.

#[global] Instance protocols : ProtocolServices t := inert_protocols_with
  (fun p w => default [] (texts w !! p)) locate
  (fun h g _ w => ((0, 0x100), change (h, g) S w))
  (fun h g w => if decide (0 < used w (h, g))%nat then (0, change (h, g) pred w) else (Status.NOT_FOUND, w)).

Definition text (display_only : bool) : list Z := [if display_only then 112 else 80; 0].

#[global] Instance converter : TextServices t := {|
  efi_node_to_text _ d _ := pool_of (concat (map (fun u => [u; 0]) (text d)));
  efi_path_to_text _ d _ := pool_of (concat (map (fun u => [u; 0]) (text d)));
  efi_text_to_node _ w := (0, w);
  efi_text_to_path _ w := (0, w);
  efi_get_device_path_size path w := (zlen path, w);
  efi_append_device_path path0 path1 := pool_of (take (length path0 - 4) path0 ++ path1);
  efi_append_device_node path0 node := pool_of (take (length path0 - 4) path0 ++ node ++ node_bytes end_entire);
  efi_append_device_path_instance path0 path1 := pool_of (take (length path0 - 4) path0 ++ node_bytes end_instance ++ path1);
|}.

Definition supported (w : t) (g : Z) : list Z := match handles w g with [h] => [h] | _ => [] end.

Lemma alloc_frame n w r w' : efi_allocate_pool MemoryType_LOADER_DATA n w = (r, w') -> used w' = used w.
Proof. intros E. apply lift_call_inv in E; [|done]. destruct E as [_ ->]. done. Qed.

Lemma pool_of_spec bytes w p w' :
  pool_of bytes w = (p, w') ->
  same_uses used w w' /\ new_pool p w w' /\ (p <> 0 -> memory_at p w' = bytes).
Proof.
  unfold pool_of. destruct (efi_allocate_pool MemoryType_LOADER_DATA (zlen bytes) w) as [[s a] w1] eqn:E.
  assert (same_uses used w w1) as U by (intros d; by rewrite (alloc_frame _ _ _ _ E)).
  destruct (Z.eqb_spec s 0) as [->|Hs]; intros [= <- <-]; (split; [done|]).
  - destruct (pool_ok _ _ _ _ _ (zlen_nonneg bytes) E) as [F A]. assert (a <> 0) as Ha by apply F. split.
    + unfold new_pool. rewrite (proj2 (Z.eqb_neq _ _)) by done. by exists (zlen bytes).
    + intros _. cbn. by rewrite lookup_insert_eq.
  - split; [|done]. by eapply pool_fail.
Qed.

#[global] Instance guards : GuardLaws calm used (fun _ => True) text_guid.
Proof.
  split.
  - intros w w' HR. apply HR.
  - done.
  - intros h g w s p w' _ [= <- <- <-]. split; [done|]. cbn [Z.eqb]. split; [done|]. intros d. cbn. case_decide; lia.
  - intros h g w _ Hu. exists (change (h, g) pred w). cbn. rewrite decide_True by done. split; [done|]. split; [done|].
    intros d. cbn. case_decide; subst; lia.
Qed.

#[global, refine] Instance laws : TextLaws t :=
  {| uses := used; supporting := supported; text_of _ d _ := text d |}.
Proof.
  - intros g w s n p w'. cbn [efi_locate_handle_buffer protocols inert_protocols_with]. unfold locate, supported.
    destruct (handles w g) as [|h [|? ?]]; [by intros [= <- <- <- <-]| |by intros [= <- <- <- <-]].
    destruct (efi_allocate_pool MemoryType_LOADER_DATA 8 w) as [[s1 p1] w1] eqn:E.
    assert (same_uses used w w1) as U by (intros d; by rewrite (alloc_frame _ _ _ _ E)).
    destruct (Z.eqb_spec s1 0) as [->|Hs]; intros [= <- <- <- <-]; (split; [done|]); (split; [done|]).
    + destruct (pool_ok _ 8 _ _ _ ltac:(done) E) as [F A]. cbn [Z.eqb]. split; [by apply F|]. split; [done|].
      split; [exact (adds_same _ _ _ _ A (poke_blocks p1 h w1))|]. intros [|i] Hi; [|simpl in Hi; lia].
      cbn [Z.of_nat]. rewrite Z.mul_0_r, Z.add_0_r. exact (f_equal Some (peek_poke p1 h w1)).
    + rewrite (proj2 (Z.eqb_neq _ _)) by done. by eapply pool_fail.
  - intros p w. destruct (efi_free_pool p w) as [s w'] eqn:E. cbn [snd]. apply lift_call_inv in E; [|done].
    by destruct E as [_ ->].
  - intros path d a w p w' E. destruct (pool_of_spec _ _ _ _ E) as (U & N & M). split; [done|]. split; [done|]. split; [done|].
    intros Hp. rewrite M by done. by destruct d.
  - intros ns ms w p w' _ _ E. destruct (pool_of_spec _ _ _ _ E) as (U & N & M). split; [done|]. split; [done|]. split; [done|].
    intros Hp. exists []. rewrite M by done. rewrite app_nil_r. unfold nodes_bytes. rewrite !map_app, !concat_app, length_app.
    rewrite Nat.add_sub. by rewrite take_app_length.
  - intros h g p w w' s. cbn. case_decide; by intros [= <- <-].
Defined.

Definition initial : t := mk Machine.initial (fun _ => 0%nat) ∅ (fun _ => [5]).
End Converter.

(** The end of a path has the text "P"; nothing is left allocated. *)
Lemma path_to_string_spec_witness :
  exists w', path_to_string (node_bytes end_entire) false true Converter.initial = Ret (Ok [80; 0], w') /\
    same_blocks Converter.initial w'.
Proof.
  destruct (path_to_string_spec (node_bytes end_entire) false true Converter.initial)
    as (r & w' & E & S & _ & Hr); [reflexivity|discriminate|].
  assert (omap (fun p => match p.1 with Ok s => Some s | Err _ => None end)
    (path_to_string (node_bytes end_entire) false true Converter.initial) = Ret (Some [80; 0])) as Hev
    by (by vm_compute).
  rewrite E in Hev. cbn in Hev. injection Hev as Hev. destruct r as [s|e]; [|discriminate Hev]. injection Hev as ->. eauto.
Defined.


(** Only the utilities are installed, on handle 5: they are not found. *)
Lemma utilities_need_text_handle_witness :
  exists e w', append_path (node_bytes end_entire) (node_bytes end_entire)
    (Converter.mk Machine.initial (fun _ => 0%nat) ∅
      (fun g => if g =? pp_guid DevicePathUtilities_P then [5] else [])) = Ret (Err e, w').
Proof. apply utilities_need_text_handle; [reflexivity|discriminate|reflexivity]. Defined.
