(* ===== verification/System.v ===== *)
(** * The system table and the standard output

    [uefi/src/table/mod.rs], [uefi/src/system.rs], the type [Revision] of
    [uefi-raw/src/table/revision.rs] and the helper of the print macros in
    [uefi/src/helpers/println.rs].  The pointer to the table is a static cell; the
    table, the vendor string and the configuration table are in memory at
    addresses. *)
From S2P Require Import Prelude Firmware Chars Strs Text Status BootMemory Console Inert.

(** ** Revisions *)

Module Revision.
Definition new (major minor : Z) : Z := Z.lor (Z.shiftl major 16) minor.
Definition major (self : Z) : Z := wrap 16 (Z.shiftr self 16).
Definition minor (self : Z) : Z := wrap 16 self.

Definition DOT : list Z := [46].

Definition display (self : Z) : list Z :=
  let '(major, minor) := (major self, minor self) in
  if major <? 2 then display_uint major ++ DOT ++ pad_left 48 2 (display_uint minor)
  else
    let '(minor, patch) := (minor / 10, minor mod 10) in
    if patch =? 0 then display_uint major ++ DOT ++ display_uint minor
    else display_uint major ++ DOT ++ display_uint minor ++ DOT ++ display_uint patch.
End Revision.

(** ** The system table *)

Record ConfigTableEntry : Set := mkConfigTableEntry { ct_guid : Z; ct_address : Z }.

Record SystemTable : Set := mkSystemTable {
  st_revision : Z;
  st_firmware_vendor : Z;
  st_firmware_revision : Z;
  st_stdin_handle : Z;
  st_stdin : Z;
  st_stdout_handle : Z;
  st_stdout : Z;
  st_stderr_handle : Z;
  st_stderr : Z;
  st_runtime_services : Z;
  st_boot_services : Z;
  st_entries : Z;
  st_configuration_table : Z;
}.

(** [table_at p] is the table at the address [p], if there is one; the other two
    give the memory from an address to the end of its allocation, as entries and as
    16-bit units.  [log_debug] is the macro of the crate [log]. *)
Class SystemMemory (W : Type) : Type := {
  SYSTEM_TABLE : W -> Z;
  store_SYSTEM_TABLE : Z -> W -> W;
  table_at : Z -> W -> option SystemTable;
  entries_at : Z -> W -> list ConfigTableEntry;
  units_at : Z -> W -> list Z;
  log_debug : W -> W;
}.

(** [slice::from_raw_parts] for the memory at the pointer. *)
Definition from_raw_parts {A} (mem : list A) (len : Z) : outcome (list A) :=
  if (0 <=? len) && (len <=? zlen mem) then Ret (take (Z.to_nat len) mem) else Undefined.

Section system.
Context {W : Type} `{!SystemMemory W}.

Definition set_system_table (ptr : Z) : fw W unit := call (fun w => (tt, store_SYSTEM_TABLE ptr w)).

Definition system_table_raw : fw W (option Z) :=
  ptr ← call (fun w => (SYSTEM_TABLE w, w));
  mret (if ptr =? 0 then None else Some ptr).

Definition system_table_raw_panicking : fw W Z :=
  st ← system_table_raw; lift (unwrap st).

(** [st.as_ref()]. *)
Definition as_ref (ptr : Z) : fw W SystemTable := fun w =>
  match table_at ptr w with Some st => Ret (st, w) | None => Undefined end.

Definition system_table : fw W SystemTable :=
  st ← system_table_raw_panicking; as_ref st.

(** [boot::are_boot_services_active]. *)
Definition boot_services_active : fw W bool :=
  st ← system_table_raw;
  match st with
  | None => mret false
  | Some st => st ← as_ref st; mret (negb (st_boot_services st =? 0))
  end.

Definition firmware_vendor : fw W (list Z) :=
  st ← system_table;
  units ← call (fun w => (units_at (st_firmware_vendor st) w, w));
  lift (cstr16_from_ptr units).

Definition firmware_revision : fw W Z := st ← system_table; mret (st_firmware_revision st).

Definition uefi_revision : fw W Z := st ← system_table; mret (st_revision st).

Definition with_config_table {R} (f : list ConfigTableEntry -> fw W R) : fw W R :=
  st ← system_table;
  let ptr := st_configuration_table st in
  let len := st_entries st in
  slice ← (if ptr =? 0 then mret []
           else entries ← call (fun w => (entries_at ptr w, w)); lift (from_raw_parts entries len));
  f slice.

(** The three functions with a protocol of the table, which get its address; the
    protocols themselves are those of [Console]. *)
Definition with_io {R} (field : SystemTable -> Z) (f : Z -> fw W R) : fw W R :=
  st ← system_table;
  lift (assert_ (negb (st_boot_services st =? 0)));;
  lift (assert_ (negb (field st =? 0)));;
  f (field st).
Definition with_stdin {R} (f : Z -> fw W R) : fw W R := with_io st_stdin f.
Definition with_stdout {R} (f : Z -> fw W R) : fw W R := with_io st_stdout f.
Definition with_stderr {R} (f : Z -> fw W R) : fw W R := with_io st_stderr f.

Context `{!ConsoleServices W} (ucs2_encode : list Z -> list Z * bool).

(** [Write::write_fmt]: the fragments of the arguments, until one fails. *)
Fixpoint write_fmt (fragments : list (list Z)) : fw W (result unit unit) :=
  match fragments with
  | [] => mret (Ok tt)
  | s :: fragments =>
      r ← write_str ucs2_encode s;
      match r with Err e => mret (Err e) | Ok _ => write_fmt fragments end
  end.

(** [expect]. *)
Definition expect_ok (r : result unit unit) : outcome unit :=
  match r with Ok a => Ret a | Err _ => Panic UnwrapFailed end.

Definition print (args : list (list Z)) : fw W unit :=
  active ← boot_services_active;
  if active : bool then with_stdout (fun _ => r ← write_fmt args; lift (expect_ok r))
  else call (fun w => (tt, log_debug w)).
End system.

(** ** Properties *)

(** *** Revisions are told apart by their text *)

Lemma revision_parts ma mi : in_width 16 ma -> in_width 16 mi ->
  Revision.major (Revision.new ma mi) = ma /\ Revision.minor (Revision.new ma mi) = mi.
Proof.
  unfold in_width, Revision.major, Revision.minor, Revision.new, wrap. intros Hma Hmi.
  assert (Z.land (Z.shiftl ma 16) mi = 0) as Hd.
  { apply Z.bits_inj'. intros n Hn. rewrite Z.land_spec, Z.bits_0. destruct (Z.ltb_spec n 16).
    - by rewrite Z.shiftl_spec_low by lia.
    - rewrite (Z.bits_above_log2 mi n); [by rewrite andb_false_r|lia|]. destruct (decide (mi = 0)) as [->|]; [cbn; lia|].
      apply Z.log2_lt_pow2; [lia|]. eapply Z.lt_le_trans; [apply Hmi|]. apply Z.pow_le_mono_r; lia. }
  rewrite <- Z.add_nocarry_lor, Z.shiftl_mul_pow2 by done. rewrite Z.shiftr_div_pow2 by lia.
  split.
  - rewrite Z.div_add_l by lia. rewrite (Z.div_small mi) by lia. rewrite Z.add_0_r. by apply Z.mod_small.
  - rewrite Z.add_comm, Z.mod_add by lia. by apply Z.mod_small.
Qed.

(** The numbers in the text of a revision. *)
Definition display_parts (r : Z) : list Z := map decimal (split_char 46 (Revision.display r)).

Lemma digits_no_dot s : Forall digit s -> 46 ∉ s.
Proof. intros Hs. by apply digits_not; [|lia]. Qed.

Lemma pad_zero n s : Forall digit s -> Forall digit (pad_left 48 n s) /\ decimal (pad_left 48 n s) = decimal s.
Proof.
  intros Hs. unfold pad_left. induction (n - length s)%nat as [|k [IH1 IH2]]; [done|]. cbn [replicate app]. split.
  - constructor; [unfold digit; lia|done].
  - rewrite <- IH2. unfold decimal. cbn [foldl]. done.
Qed.

Lemma display_parts_cases r : in_width 32 r ->
  let ma := Revision.major r in let mi := Revision.minor r in
  display_parts r = if ma <? 2 then [ma; mi] else if mi mod 10 =? 0 then [ma; mi / 10] else [ma; mi / 10; mi mod 10].
Proof.
  intros Hr ma mi. assert (in_width 16 ma /\ in_width 16 mi) as [Hma Hmi] by (split; by apply wrap_range).
  assert (forall x, 0 <= x < 2 ^ 16 -> Forall digit (display_uint x) /\ decimal (display_uint x) = x) as Hd.
  { intros x Hx. destruct (display_uint_spec x) as (? & ? & ?); [|done]. unfold in_width. lia. }
  unfold in_width in Hma, Hmi. destruct (Hd ma Hma) as [Da Ea]. destruct (Hd mi Hmi) as [Di Ei].
  pose proof (Z_div_mod_eq_full mi 10). pose proof (Z.mod_pos_bound mi 10 ltac:(lia)).
  destruct (Hd (mi / 10)) as [Dq Eq]; [lia|]. destruct (Hd (mi mod 10)) as [Dm Em]; [lia|].
  unfold display_parts, Revision.display, Revision.DOT. fold ma mi. cbv zeta beta iota.
  destruct (ma <? 2).
  - destruct (pad_zero 2 _ Di) as [Dp Ep]. cbn [app]. rewrite split_char_app, split_char_end by by apply digits_no_dot.
    cbn [map]. by rewrite Ea, Ep, Ei.
  - destruct (mi mod 10 =? 0); cbn [app].
    + rewrite split_char_app, split_char_end by by apply digits_no_dot. cbn [map]. by rewrite Ea, Eq.
    + rewrite !split_char_app, split_char_end by by apply digits_no_dot. cbn [map]. by rewrite Ea, Eq, Em.
Qed.

(** Two revisions with the same text are the same revision. *)
Theorem revision_display_injective (r s : Z) :
  in_width 32 r -> in_width 32 s -> Revision.display r = Revision.display s -> r = s.
Proof.
  intros Hr Hs E. pose proof (display_parts_cases r Hr) as Pr. pose proof (display_parts_cases s Hs) as Ps.
  assert (display_parts r = display_parts s) as Ep by (unfold display_parts; by rewrite E).
  rewrite Pr, Ps in Ep. clear Pr Ps E.
  assert (Revision.major r = Revision.major s /\ Revision.minor r = Revision.minor s) as [Ema Emi].
  { pose proof (Z_div_mod_eq_full (Revision.minor r) 10). pose proof (Z_div_mod_eq_full (Revision.minor s) 10).
    destruct (Z.ltb_spec (Revision.major r) 2), (Z.ltb_spec (Revision.major s) 2); cbv zeta iota in Ep;
      destruct (Z.eqb_spec (Revision.minor r mod 10) 0), (Z.eqb_spec (Revision.minor s mod 10) 0);
      simplify_eq; split; lia. }
  unfold Revision.major, Revision.minor, wrap in *. rewrite !Z.shiftr_div_pow2 in Ema by lia. unfold in_width in *.
  assert (forall x, 0 <= x < 2 ^ 32 -> (x / 2 ^ 16) mod 2 ^ 16 = x / 2 ^ 16) as Hm.
  { intros x Hx. apply Z.mod_small. split; [apply Z.div_pos; lia|apply Z.div_lt_upper_bound; lia]. }
  rewrite !Hm in Ema by done.
  rewrite (Z_div_mod_eq_full r (2 ^ 16)), (Z_div_mod_eq_full s (2 ^ 16)). lia.
Qed.

Lemma revision_display_injective_witness : Revision.new 2 31 = 0x2001f.
Proof. apply revision_display_injective; [vm_compute; split; congruence..|reflexivity]. Defined.

(** *** Printing *)

Section table_access.
Context {W : Type} `{!SystemMemory W}.

Lemma raw_run w : system_table_raw w = Ret (if SYSTEM_TABLE w =? 0 then None else Some (SYSTEM_TABLE w), w).
Proof. done. Qed.

Lemma system_table_run w st :
  SYSTEM_TABLE w <> 0 -> table_at (SYSTEM_TABLE w) w = Some st -> system_table w = Ret (st, w).
Proof.
  intros Hw Est. unfold system_table, system_table_raw_panicking, as_ref, mbind, fw_bind. rewrite raw_run.
  cbn [obind fst snd]. rewrite (proj2 (Z.eqb_neq _ _)) by done. cbn. by rewrite Est.
Qed.

Lemma services_without_table w : SYSTEM_TABLE w = 0 -> boot_services_active w = Ret (false, w).
Proof. intros Hw. unfold boot_services_active. rewrite (fw_bind_Ret _ _ _ _ _ (raw_run w)). by rewrite Hw. Qed.

Lemma services_of_table w st :
  SYSTEM_TABLE w <> 0 -> table_at (SYSTEM_TABLE w) w = Some st ->
  boot_services_active w = Ret (negb (st_boot_services st =? 0), w).
Proof.
  intros Hw Est. unfold boot_services_active. rewrite (fw_bind_Ret _ _ _ _ _ (raw_run w)).
  rewrite (proj2 (Z.eqb_neq _ _)) by done. by rewrite (fw_bind_Ret (as_ref _) _ w st w) by (unfold as_ref; by rewrite Est).
Qed.

Lemma with_io_run {R} field (f : Z -> fw W R) w st :
  SYSTEM_TABLE w <> 0 -> table_at (SYSTEM_TABLE w) w = Some st -> st_boot_services st <> 0 ->
  with_io field f w = if field st =? 0 then Panic AssertFailed else f (field st) w.
Proof.
  intros Hw Est Hb. unfold with_io. rewrite (fw_bind_Ret _ _ _ _ _ (system_table_run w st Hw Est)).
  rewrite (proj2 (Z.eqb_neq _ _) Hb). cbn [negb assert_]. rewrite fw_bind_lift.
  destruct (field st =? 0); cbn [negb assert_]; [done|by rewrite fw_bind_lift].
Qed.

(** The callback of [with_config_table] gets the entries of the table. *)
Lemma with_config_table_run {R} (f : list ConfigTableEntry -> fw W R) w st :
  SYSTEM_TABLE w <> 0 -> table_at (SYSTEM_TABLE w) w = Some st ->
  (st_configuration_table st <> 0 -> 0 <= st_entries st <= zlen (entries_at (st_configuration_table st) w)) ->
  with_config_table f w = f (if st_configuration_table st =? 0 then []
    else take (Z.to_nat (st_entries st)) (entries_at (st_configuration_table st) w)) w.
Proof.
  intros Hw Est Hn. unfold with_config_table. rewrite (fw_bind_Ret _ _ _ _ _ (system_table_run w st Hw Est)).
  destruct (Z.eqb_spec (st_configuration_table st) 0) as [_|Hc]; [done|]. specialize (Hn Hc).
  unfold from_raw_parts, mbind, fw_bind, call, lift. cbn [obind fst snd].
  by rewrite !(proj2 (Z.leb_le _ _)) by lia.
Qed.
End table_access.

Section printing.
Context {W : Type} `{!SystemMemory W, !ConsoleServices W, !PrinterLaws W}.
Context (ucs2_encode : list Z -> list Z * bool).
Hypothesis encode_bmp : forall s, Forall ucs2 s -> ucs2_encode s = (s, true).

Lemma crlf_app s t : crlf (s ++ t) = crlf s ++ crlf t.
Proof. unfold crlf. by rewrite map_app, concat_app. Qed.

Lemma write_fmt_runs fragments w :
  Forall (Forall body_char) fragments ->
  runs (write_fmt ucs2_encode fragments) w (fun r w' =>
    exists out rest, prints w w' out /\ crlf (concat fragments) = out ++ rest /\ if is_ok r then rest = [] else refuses).
Proof.
  intros Hf. revert w. induction Hf as [|s fragments Hs _ IH]; intros w; cbn [write_fmt concat].
  - runs_step. exists [], []. split; [apply prints_refl|done].
  - runs_step. eapply runs_weaken; [by apply console_write_str_runs|].
    intros [[]|[]] w1 (out & rest & Hp & E & Hr); rewrite crlf_app, E.
    + eapply runs_weaken; [apply IH|]. intros r w2 (out2 & rest2 & Hp2 & E2 & Hr2).
      cbn in Hr. rewrite Hr, app_nil_r. exists (out ++ out2), rest2. split; [by eapply prints_trans|].
      by rewrite E2, app_assoc.
    + runs_step. exists out, (rest ++ crlf (concat fragments)). split; [done|]. by rewrite app_assoc.
Qed.

(** Printing while the boot services are active, on a console that is there, prints
    the whole text, with a carriage return before each line feed, or panics because the
    console refused a part; without
    a table or after the boot services have been left, it prints nothing and does
    not panic. *)
Theorem print_spec (fragments : list (list Z)) (w : W) :
  Forall (Forall body_char) fragments ->
  if SYSTEM_TABLE w =? 0 then print ucs2_encode fragments w = Ret (tt, log_debug w)
  else forall st, table_at (SYSTEM_TABLE w) w = Some st ->
    if st_boot_services st =? 0 then print ucs2_encode fragments w = Ret (tt, log_debug w)
    else if st_stdout st =? 0 then print ucs2_encode fragments w = Panic AssertFailed
    else (exists w', print ucs2_encode fragments w = Ret (tt, w') /\ prints w w' (crlf (concat fragments))) \/
      print ucs2_encode fragments w = Panic UnwrapFailed /\ refuses.
Proof.
  intros Hf. destruct (Z.eqb_spec (SYSTEM_TABLE w) 0) as [Ew|Ew].
  { unfold print. by rewrite (fw_bind_Ret _ _ _ _ _ (services_without_table w Ew)). }
  intros st Est. unfold print. rewrite (fw_bind_Ret _ _ _ _ _ (services_of_table w st Ew Est)).
  destruct (Z.eqb_spec (st_boot_services st) 0) as [|Hb]; [done|]. cbn [negb]. unfold with_stdout.
  rewrite (with_io_run _ _ w st Ew Est Hb). destruct (st_stdout st =? 0); [done|].
  destruct (write_fmt_runs fragments w Hf) as (r & w' & E & out & rest & Hp & Eout & Hr).
  rewrite (fw_bind_Ret _ _ _ _ _ E). destruct r as [[]|[]]; [left|by right]. exists w'. split; [done|].
  cbn in Hr. rewrite Eout, Hr, app_nil_r. done.
Qed.
End printing.

(** ** A machine with a screen *)
Module Terminal.
(** Whether the boot services are active, and what was printed. *)
Definition world : Type := bool * list (list Z).
Definition table (active : bool) : SystemTable := mkSystemTable (Revision.new 2 100) 0 0 0 0 8 8 0 0 24 (if active then 16 else 0) 0 0.

#[global] Instance memory : SystemMemory world := {|
  SYSTEM_TABLE _ := 64;
  store_SYSTEM_TABLE _ w := w;
  table_at p w := if p =? 64 then Some (table w.1) else None;
  entries_at _ _ := [];
  units_at _ _ := [];
  log_debug w := w;
|}.
#[global] Instance console : ConsoleServices world := inert_console (fun t w => (0, (w.1, w.2 ++ [t]))).
#[global, refine] Instance laws : PrinterLaws world := {| printed w := w.2 |}.
Proof. by intros t [b l] s w' _ [= <- <-]. Defined.

Definition ucs2_encode (s : list Z) : list Z * bool := (s, true).
End Terminal.

Lemma print_spec_witness :
  exists w', print Terminal.ucs2_encode [[72; 105]; [33; 10]] (true, []) = Ret (tt, w') /\
    prints (true, []) w' [72; 105; 33; 13; 10].
Proof.
  pose proof (print_spec Terminal.ucs2_encode (fun _ _ => eq_refl) [[72; 105]; [33; 10]] (true, [])) as Hp.
  destruct (Hp ltac:(repeat constructor; discriminate) (Terminal.table true) eq_refl) as [H|[H _]]; [exact H|].
  vm_compute in H. discriminate H.
Defined.
