(* ===== verification/Ip4Config2.v ===== *)
(** * Bringing up a network interface

    [uefi/src/proto/network/ip4config2.rs]: reading and writing the configuration
    data of a network interface, and [ifup], which turns on DHCP and waits for an
    address.  The interface of the protocol is an address; configuration data are
    bytes. *)
From S2P Require Import Prelude Firmware Chars Strs Text Status BootMemory LoadedImage BootProtocols BootEvents Console Inert System.

Module Ip4Config2DataType.
Definition INTERFACE_INFO : Z := 0.
Definition POLICY : Z := 1.
End Ip4Config2DataType.

Module Ip4Config2Policy.
Definition STATIC : Z := 0.
Definition DHCP : Z := 1.
End Ip4Config2Policy.

(** [efi_get_data] is given the size and, on the second call, the buffer; it returns
    the status, the size, and the bytes it wrote.  [vec_address] is where the
    allocator puts the next vector of bytes. *)
Class Ip4Services (W : Type) : Type := {
  efi_set_data : Z -> Z -> list Z -> W -> Z * W;
  efi_get_data : Z -> Z -> Z -> option (list Z) -> W -> (Z * Z * list Z) * W;
  vec_address : W -> Z;
}.

Definition Ip4Config2_P : ProtocolPointer := sized_protocol 0x5b446ed1e30b4faa871a3654eca36080.

(** [Ip4Config2InterfaceInfo]. *)
Record InterfaceInfo : Set := mkInterfaceInfo {
  info_name : list Z;
  if_type : Z;
  hw_addr_size : Z;
  hw_addr : list Z;
  station_addr : list Z;
  info_subnet_mask : list Z;
  route_table_size : Z;
  info_route_table : Z;
}.
Definition size_of_InterfaceInfo : Z := 128.
Definition align_of_InterfaceInfo : Z := 8.

(** The fields in memory. *)
Definition read_info (b : list Z) : InterfaceInfo :=
  mkInterfaceInfo (units_of (range b 0 64)) (le_val (range b 64 1)) (le_val (range b 68 4)) (range b 72 32)
    (range b 104 4) (range b 108 4) (le_val (range b 112 4)) (le_val (range b 120 8)).

Definition no_address : list Z := [0; 0; 0; 0].

(** Text of the messages. *)
Definition ALREADY_UP : list Z := (* "Network is already up: " *)
  [78; 101; 116; 119; 111; 114; 107; 32; 105; 115; 32; 97; 108; 114; 101; 97; 100; 121; 32; 117; 112; 58; 32].
Definition DHCP_TEXT : list Z := [68; 72; 67; 80; 32].
Definition DOT_TEXT : list Z := [46].
Definition OK_TEXT : list Z := [32; 79; 75; 58; 32].
Definition ADDR_TEXT : list Z := (* "addr v4: " *) [97; 100; 100; 114; 32; 118; 52; 58; 32].

Section ip4.
Context {W : Type} `{!BootServices W, !ProtocolServices W, !EventServices W, !SystemMemory W, !ConsoleServices W, !Ip4Services W}.
Context (ucs2_encode : list Z -> list Z * bool).

Definition new (nic_handle : Z) : fw W (uresult ScopedProtocol unit) :=
  agent ← image_handle;
  try protocol <- open_protocol Ip4Config2_P (mkOpenProtocolParams nic_handle agent None) GetProtocol;
  mret (Ok protocol).

(** [match status { SUCCESS => Ok(v), _ => Err(status.into()) }]. *)
Definition match_status {A} (status : Z) (v : A) : fw W (uresult A unit) :=
  if status =? Status.SUCCESS then mret (Ok v) else e ← lift (error_from_status status); mret (Err e).

Definition set_data (self data_type : Z) (data : list Z) : fw W (uresult unit unit) :=
  status ← call (efi_set_data self data_type data);
  match_status status tt.

Definition get_data (self data_type : Z) : fw W (uresult (list Z) unit) :=
  '(status, data_size, _) ← call (efi_get_data self data_type 0 None);
  if negb (status =? Status.BUFFER_TOO_SMALL) then e ← lift (error_from_status status); mret (Err e)
  else
    let data := replicate (Z.to_nat data_size) 0 in
    '(status, data_size, out) ← call (efi_get_data self data_type data_size (Some data));
    data ← lift (write_raw data 0 out);
    match_status status data.

Definition set_policy (self policy : Z) : fw W (uresult unit unit) :=
  set_data self Ip4Config2DataType.POLICY (le_bytes 4 policy).

(** The vector is read through a reference to the struct. *)
Definition get_interface_info (self : Z) : fw W (uresult InterfaceInfo unit) :=
  try data <- get_data self Ip4Config2DataType.INTERFACE_INFO;
  addr ← call (fun w => (vec_address w, w));
  lift (if addr mod align_of_InterfaceInfo =? 0 then Ret tt else Undefined);;
  b ← lift (read_raw data 0 size_of_InterfaceInfo);
  let info := read_info b in
  mret (Ok (mkInterfaceInfo (info_name info) (if_type info) (hw_addr_size info) (hw_addr info) (station_addr info)
    (info_subnet_mask info) 0 0)).

Definition print_info (info : InterfaceInfo) : fw W unit :=
  match station_addr info with
  | [a; b; c; d] =>
      print ucs2_encode [ADDR_TEXT; display_uint a; DOT_TEXT; display_uint b; DOT_TEXT; display_uint c; DOT_TEXT;
        display_uint d; [Console.LF]]
  | _ => mret tt
  end.

(** Printing that depends on [verbose]. *)
Definition when (b : bool) (m : fw W unit) : fw W unit := if b then m else mret tt.

Definition ONE_SECOND : Duration := mkDuration 1 0.

(** The loop over the seconds that are left. *)
Fixpoint wait_for_address (self : Z) (verbose : bool) (seconds : nat) : fw W (uresult unit unit) :=
  match seconds with
  | O => e ← lift (error_from_status Status.TIMEOUT); mret (Err e)
  | S seconds =>
      when verbose (print ucs2_encode [DOT_TEXT]);;
      stall ONE_SECOND;;
      try info <- get_interface_info self;
      if negb (bool_decide (station_addr info = no_address)) then
        when verbose (print ucs2_encode [OK_TEXT];; print_info info);;
        mret (Ok tt)
      else wait_for_address self verbose seconds
  end.

Definition ifup (self : Z) (verbose : bool) : fw W (uresult unit unit) :=
  try info <- get_interface_info self;
  if negb (bool_decide (station_addr info = no_address)) then
    when verbose (print ucs2_encode [ALREADY_UP];; print_info info);;
    mret (Ok tt)
  else
    when verbose (print ucs2_encode [DHCP_TEXT]);;
    try _ <- set_policy self Ip4Config2Policy.DHCP;
    wait_for_address self verbose 30.
End ip4.

(** ** Properties *)

(** What is documented of the services: a query for the interface information gives
    its size and then its bytes, and changes nothing; setting a policy and stalling
    do not leave the boot services; the allocator's blocks are aligned to eight
    bytes. *)
Class Ip4Laws (W : Type) `{!BootServices W, !EventServices W, !Ip4Services W} : Type := {
  interface : Z -> W -> list Z;
  interface_size : forall self w, size_of_InterfaceInfo <= zlen (interface self w);
  query_size : forall self w, efi_get_data self Ip4Config2DataType.INTERFACE_INFO 0 None w =
    ((Status.BUFFER_TOO_SMALL, zlen (interface self w), []), w);
  query_data : forall self w data, zlen data = zlen (interface self w) ->
    efi_get_data self Ip4Config2DataType.INTERFACE_INFO (zlen data) (Some data) w = ((0, zlen data, interface self w), w);
  policy_active : forall self data w,
    boot_active (efi_set_data self Ip4Config2DataType.POLICY data w).2 = boot_active w;
  stall_active : forall n w, boot_active (efi_stall n w).2 = boot_active w;
  vec_aligned : forall w, vec_address w mod 8 = 0;
}.

Section properties.
Context {W : Type} `{!BootServices W, !ProtocolServices W, !EventServices W, !SystemMemory W, !ConsoleServices W,
  !Ip4Services W, !Ip4Laws W}.
Context (ucs2_encode : list Z -> list Z * bool) (self : Z).

Definition address (w : W) : list Z := range (interface self w) 104 4.

(** The machine after a number of seconds of waiting. *)
Definition second (w : W) : W := (efi_stall 1000000 w).2.
Definition after (k : nat) (w : W) : W := Nat.iter k second w.

Lemma range_take (l : list Z) off n m : 0 <= off -> 0 <= n -> off + n <= m -> range (take (Z.to_nat m) l) off n = range l off n.
Proof.
  intros Ho Hn Hm. unfold range. rewrite skipn_firstn_comm, take_take. f_equal. lia.
Qed.

Lemma get_interface_info_run w :
  exists info, get_interface_info self w = Ret (Ok info, w) /\ station_addr info = address w.
Proof.
  pose proof (interface_size self w) as Hs. pose proof (zlen_nonneg (interface self w)).
  set (data := replicate (Z.to_nat (zlen (interface self w))) 0).
  assert (zlen data = zlen (interface self w)) as Hd by (unfold data, zlen; rewrite length_replicate; lia).
  assert (get_data self Ip4Config2DataType.INTERFACE_INFO w = Ret (Ok (interface self w), w)) as E.
  { unfold get_data. rewrite fw_bind_call, query_size. cbn [fst snd]. cbv beta iota.
    change (negb (Status.BUFFER_TOO_SMALL =? Status.BUFFER_TOO_SMALL)) with false. cbv iota. fold data.
    rewrite fw_bind_call, <- Hd, query_data by done. cbn [fst snd]. cbv beta iota.
    destruct (write_raw_ok data 0 (interface self w)) as (m' & -> & Hm & Hr & _); [lia..|]. rewrite fw_bind_lift.
    unfold range in Hr. rewrite drop_0, take_ge in Hr by (unfold zlen in *; lia). by rewrite Hr. }
  eexists. unfold get_interface_info. rewrite (fw_try_Ret _ _ _ _ _ E), fw_bind_call. cbn [fst snd].
  unfold align_of_InterfaceInfo. rewrite vec_aligned. cbn [Z.eqb]. rewrite fw_bind_lift.
  rewrite read_raw_ok by (unfold size_of_InterfaceInfo in *; lia). rewrite fw_bind_lift. split; [reflexivity|]. cbn [station_addr read_info].
  rewrite drop_0. unfold size_of_InterfaceInfo. by apply range_take.
Qed.

Lemma stall_second w : boot_active w = true -> stall ONE_SECOND w = Ret (tt, second w).
Proof. intros Hact. unfold stall. rewrite boot_run by done. cbv zeta. by rewrite fw_bind_call. Qed.

Lemma after_active k w : boot_active (after k w) = boot_active w.
Proof. induction k as [|k IH]; [done|]. unfold after. rewrite Nat.iter_succ. fold (after k w). unfold second. by rewrite stall_active. Qed.

Lemma after_S k w : after (S k) w = after k (second w).
Proof. unfold after. by rewrite Nat.iter_succ_r. Qed.

(** The address is assigned in the second [k], and not before. *)
Definition assigned_in (k : nat) (w : W) : Prop :=
  address (after k w) <> no_address /\ forall j, (1 <= j < k)%nat -> address (after j w) = no_address.

Lemma wait_run seconds w :
  boot_active w = true ->
  (exists k, (1 <= k <= seconds)%nat /\ assigned_in k w /\
    wait_for_address ucs2_encode self false seconds w = Ret (Ok tt, after k w)) \/
  ((forall j, (1 <= j <= seconds)%nat -> address (after j w) = no_address) /\
    wait_for_address ucs2_encode self false seconds w = Ret (Err (mkError Status.TIMEOUT tt), after seconds w)).
Proof.
  revert w. induction seconds as [|seconds IH]; intros w Hact.
  { right. split; [lia|]. done. }
  cbn [wait_for_address]. unfold when. cbv iota.
  rewrite (fw_bind_Ret (mret tt) _ w tt w) by done. rewrite (fw_bind_Ret _ _ _ _ _ (stall_second w Hact)).
  destruct (get_interface_info_run (second w)) as (info & E & Hi). rewrite (fw_try_Ret _ _ _ _ _ E), Hi.
  assert (boot_active (second w) = true) as Hact2 by (unfold second; by rewrite stall_active).
  destruct (decide (address (second w) = no_address)) as [Ha|Ha].
  - rewrite bool_decide_true by done. cbn [negb].
    assert (forall j, (1 <= j)%nat -> (j = 1)%nat \/ exists i, (1 <= i)%nat /\ j = S i) as Hsplit.
    { intros [|[|j]] Hj; [lia|by left|]. right. exists (S j). split; [lia|done]. }
    destruct (IH (second w) Hact2) as [(k & Hk & [Hk1 Hk2] & Ek)|[Hn En]]; [left|right].
    + exists (S k). split; [lia|]. rewrite Ek, after_S. split; [|done]. split; [by rewrite after_S|].
      intros j Hj. destruct (Hsplit j) as [->|(i & Hi1 & ->)]; [lia|done|]. rewrite after_S. apply Hk2. lia.
    + rewrite En, after_S. split; [|done]. intros j Hj. destruct (Hsplit j) as [->|(i & Hi1 & ->)]; [lia|done|].
      rewrite after_S. apply Hn. lia.
  - left. exists 1%nat. split; [lia|]. rewrite bool_decide_false by done. cbn [negb]. split; [split; [done|lia]|done].
Qed.

End properties.

(** ** A network that assigns an address after two seconds *)
Module Nic.
(** The seconds of waiting since DHCP was turned on. *)
Definition world : Type := option nat.
Definition info (w : world) : list Z :=
  replicate 104 0 ++ (match w with Some (S (S _)) => [10; 0; 2; 15] | _ => [0; 0; 0; 0] end) ++ replicate 20 0.

#[global] Instance boot : BootServices world := inert_boot (fun _ => true).
#[global] Instance protocols : ProtocolServices world := inert_protocols (fun _ _ _ w => ((0, 8), w)) (fun _ _ w => (0, w)).
#[global] Instance events : EventServices world := inert_events (fun _ w => (0, S <$> w)).
#[global] Instance console : ConsoleServices world := inert_console (fun _ w => (0, w)).
#[global] Instance memory : SystemMemory world := {|
  SYSTEM_TABLE _ := 0; store_SYSTEM_TABLE _ w := w; table_at _ _ := None; entries_at _ _ := []; units_at _ _ := []; log_debug w := w;
|}.
#[global] Instance services : Ip4Services world := {|
  efi_set_data _ _ _ _ := (0, Some 0%nat);
  efi_get_data _ _ n data w := match data with
    | None => ((Status.BUFFER_TOO_SMALL, zlen (info w), []), w)
    | Some _ => ((0, n, info w), w)
    end;
  vec_address _ := 16;
|}.
#[global, refine] Instance laws : Ip4Laws world := {| interface _ w := info w |}.
Proof. all: try done. intros _ [[|[|n]]|]; by vm_compute. Defined.
End Nic.

