(* ===== verification/Http.v ===== *)
(** * The HTTP protocol

    [uefi/src/proto/network/http.rs], and its client [fetch_http] of
    [uefi-test-runner/src/proto/network/http.rs].  A helper opens the service
    binding of a network card, creates a child handle and opens the protocol on it;
    requests and responses are asynchronous: the firmware keeps a pointer to the
    token and changes it while it is polled, so the token is passed to every call
    that may change it.  Interfaces and handles are addresses.  A string is the list
    of its scalar values, a C string the memory from its first byte on. *)
From S2P Require Import Prelude Firmware Chars Strs Text OwnedStrs Status BootMemory LoadedImage BootProtocols Guards Inert.

Definition HttpBinding_P : ProtocolPointer := sized_protocol 0xbdc8e6afd9bc4379a72ae0c4e75dae1c.
Definition Http_P : ProtocolPointer := sized_protocol 0x7a59b29b910b41718242a85a0df25b5b.

Module HttpMethod.
Definition GET : Z := 0.
Definition HEAD : Z := 5.
End HttpMethod.

Module HttpStatusCode.
Definition STATUS_UNSUPPORTED : Z := 0.
Definition STATUS_200_OK : Z := 3.
End HttpStatusCode.

Definition HTTP_VERSION_10 : Z := 0.

Record HttpV4AccessPoint : Set := mkHttpV4AccessPoint {
  use_default_addr : bool; local_address : list Z; local_subnet : list Z; local_port : Z;
}.
Record HttpConfigData : Set := mkHttpConfigData {
  http_version : Z; time_out_millisec : Z; local_addr_is_ipv6 : bool; access_point : HttpV4AccessPoint;
}.

Record HttpHeader : Set := mkHttpHeader { field_name : list Z; field_value : list Z }.

(** [msg_request] and [msg_response] are the structs behind the union of pointers:
    the method and the URL, and the status code; [header] is the memory at the
    pointer to the headers, [body] the caller's buffer. *)
Record HttpMessage : Set := mkHttpMessage {
  msg_request : option (Z * list Z);
  msg_response : option Z;
  header_count : Z;
  header : list HttpHeader;
  body_length : Z;
  msg_body : list Z;
}.
Definition message_default : HttpMessage := mkHttpMessage None None 0 [] 0 [].

Record HttpToken : Set := mkHttpToken { tk_status : Z; tk_message : HttpMessage }.

(** The calls that are given a token return it with the firmware's changes;
    [efi_http_poll] works on the token that is in flight. *)
Class HttpServices (W : Type) : Type := {
  efi_create_child : Z -> W -> (Z * Z) * W;
  efi_destroy_child : Z -> Z -> W -> Z * W;
  efi_http_get_mode_data : Z -> HttpConfigData -> W -> (Z * HttpConfigData) * W;
  efi_http_configure : Z -> HttpConfigData -> W -> Z * W;
  efi_http_request : Z -> HttpToken -> W -> (Z * HttpToken) * W;
  efi_http_cancel : Z -> HttpToken -> W -> (Z * HttpToken) * W;
  efi_http_response : Z -> HttpToken -> W -> (Z * HttpToken) * W;
  efi_http_poll : Z -> HttpToken -> W -> (Z * HttpToken) * W;
}.

Record HttpHelperResponse : Set := mkHttpHelperResponse {
  rsp_status : Z; rsp_headers : list (list Z * list Z); rsp_body : list Z;
}.

Record HttpHelper : Set := mkHttpHelper {
  child_handle : Z; binding : ScopedProtocol; protocol : option ScopedProtocol;
}.

(** [str::to_lowercase]: the ASCII letters, and [unicode_lowercase] for a text with
    other characters. *)
Definition ascii_lowercase (c : Z) : Z := if between 65 90 c then c + 32 else c.
Definition to_lowercase (unicode_lowercase : list Z -> list Z) (s : list Z) : list Z :=
  if forallb (fun c => c <? 128) s then map ascii_lowercase s else unicode_lowercase s.

Definition SLASH : Z := 47.
Definition HOST : list Z := [72; 111; 115; 116; 0].

Section http.
Context {W : Type} `{!BootServices W, !ProtocolServices W, !HttpServices W}.

(** ** The protocols *)

(** [match status { SUCCESS => Ok(v), _ => Err(status.into()) }]. *)
Definition match_status {A} (status : Z) (v : A) : fw W (uresult A unit) :=
  if status =? Status.SUCCESS then mret (Ok v) else e ← lift (error_from_status status); mret (Err e).

Definition get_mode_data (self : Z) (config_data : HttpConfigData) : fw W (uresult unit unit * HttpConfigData) :=
  '(status, config_data) ← call (efi_http_get_mode_data self config_data);
  r ← match_status status tt; mret (r, config_data).

Definition http_configure (self : Z) (config_data : HttpConfigData) : fw W (uresult unit unit) :=
  status ← call (efi_http_configure self config_data); match_status status tt.

Definition http_request (self : Z) (token : HttpToken) : fw W (uresult unit unit * HttpToken) :=
  '(status, token) ← call (efi_http_request self token);
  r ← match_status status tt; mret (r, token).

Definition http_cancel (self : Z) (token : HttpToken) : fw W (uresult unit unit * HttpToken) :=
  '(status, token) ← call (efi_http_cancel self token);
  r ← match_status status tt; mret (r, token).

Definition http_response (self : Z) (token : HttpToken) : fw W (uresult unit unit * HttpToken) :=
  '(status, token) ← call (efi_http_response self token);
  r ← match_status status tt; mret (r, token).

Definition http_poll (self : Z) (token : HttpToken) : fw W (uresult unit unit * HttpToken) :=
  '(status, token) ← call (efi_http_poll self token);
  r ← match_status status tt; mret (r, token).

Definition create_child (self : Z) : fw W (uresult Z unit) :=
  '(status, c_handle) ← call (efi_create_child self);
  let handle := handle_from_ptr c_handle in
  if status =? Status.SUCCESS then h ← lift (unwrap handle); mret (Ok h)
  else e ← lift (error_from_status status); mret (Err e).

Definition destroy_child (self handle : Z) : fw W (uresult unit unit) :=
  status ← call (efi_destroy_child self handle); match_status status tt.

(** ** The helper *)

(** The interface behind a guard. *)
Definition deref (sp : ScopedProtocol) : fw W Z := '(p, _) ← lift (scoped_deref sp); mret p.

Definition new (nic_handle : Z) : fw W (uresult HttpHelper unit) :=
  agent ← image_handle;
  try binding <- open_protocol HttpBinding_P (mkOpenProtocolParams nic_handle agent None) GetProtocol;
  b ← deref binding;
  child ← create_child b;
  match child with
  | Err e => scoped_drop HttpBinding_P binding;; mret (Err e)
  | Ok child_handle =>
      agent ← image_handle;
      protocol_res ← open_protocol Http_P (mkOpenProtocolParams child_handle agent None) GetProtocol;
      match protocol_res with
      | Err e =>
          _ ← destroy_child b child_handle;
          scoped_drop HttpBinding_P binding;;
          mret (Err e)
      | Ok protocol => mret (Ok (mkHttpHelper child_handle binding (Some protocol)))
      end
  end.

(** [self.protocol.as_mut().unwrap()]. *)
Definition protocol_of (self : HttpHelper) : fw W Z := sp ← lift (unwrap (protocol self)); deref sp.

Definition default_config : HttpConfigData :=
  mkHttpConfigData HTTP_VERSION_10 10000 false (mkHttpV4AccessPoint true [0; 0; 0; 0] [0; 0; 0; 0] 0).

Definition configure (self : HttpHelper) : fw W (uresult unit unit) :=
  p ← protocol_of self;
  try _ <- http_configure p default_config;
  mret (Ok tt).

(** [loop { if token.status != NOT_READY { break } p.poll()? }]. *)
Fixpoint poll_until_ready (polls : nat) (p : Z) (token : HttpToken) : fw W (uresult HttpToken unit) :=
  if negb (tk_status token =? Status.NOT_READY) then mret (Ok token)
  else match polls with
  | O => lift NoFuel
  | S polls =>
      '(r, token) ← http_poll p token;
      match r with Err e => mret (Err e) | Ok _ => poll_until_ready polls p token end
  end.

Definition request (polls : nat) (self : HttpHelper) (method : Z) (url : list Z) (body : option (list Z))
  : fw W (uresult unit unit) :=
  url16 ← lift (match cstring16_try_from_str url with Ok s => Ret s | Err _ => Panic UnwrapFailed end);
  match split_char SLASH url !! 2%nat with
  | None => e ← lift (error_from_status Status.INVALID_PARAMETER); mret (Err e)
  | Some hostname =>
      let c_hostname := hostname ++ [0] in
      let tx_msg := mkHttpMessage (Some (method, url16)) None 1 [mkHttpHeader HOST (utf8_encode c_hostname)]
        (match body with Some b => zlen b | None => 0 end) (default [] body) in
      p ← protocol_of self;
      '(r, tx_token) ← http_request p (mkHttpToken Status.NOT_READY tx_msg);
      match r with
      | Err e => mret (Err e)
      | Ok _ =>
          try tx_token <- poll_until_ready polls p tx_token;
          if negb (tk_status tx_token =? Status.SUCCESS)
          then e ← lift (error_from_status (tk_status tx_token)); mret (Err e)
          else mret (Ok tt)
      end
  end.

Definition request_get (polls : nat) (self : HttpHelper) (url : list Z) : fw W (uresult unit unit) :=
  try _ <- request polls self HttpMethod.GET url None; mret (Ok tt).
Definition request_head (polls : nat) (self : HttpHelper) (url : list Z) : fw W (uresult unit unit) :=
  try _ <- request polls self HttpMethod.HEAD url None; mret (Ok tt).

(** [CStr::from_ptr(..).to_str().unwrap()]. *)
Definition c_str_unwrap (mem : list Z) : outcome (list Z) :=
  let! n := cstr_from_ptr_scan mem 0 in
  unwrap (string_from_utf8 (take n mem)).

Context (unicode_lowercase : list Z -> list Z).

(** The loop over the headers from the index [i] on; a header behind the memory of
    the array cannot be read. *)
Fixpoint read_headers (hs : list HttpHeader) (n : nat) : outcome (list (list Z * list Z)) :=
  match n with
  | O => Ret []
  | S n =>
      match hs with
      | [] => Undefined
      | h :: hs =>
          let! name := c_str_unwrap (field_name h) in
          let! value := c_str_unwrap (field_value h) in
          let! rest := read_headers hs n in
          Ret ((to_lowercase unicode_lowercase name, value) :: rest)
      end
  end.

Definition BODY_SIZE : nat := 16 * 1024.

Definition response_first (polls : nat) (self : HttpHelper) (expect_body : bool) : fw W (uresult HttpHelperResponse unit) :=
  let body := replicate (if expect_body then BODY_SIZE else 0%nat) 0 in
  let rx_msg := mkHttpMessage None (Some HttpStatusCode.STATUS_UNSUPPORTED) 0 [] (zlen body) body in
  p ← protocol_of self;
  '(r, rx_token) ← http_response p (mkHttpToken Status.NOT_READY rx_msg);
  match r with
  | Err e => mret (Err e)
  | Ok _ =>
      try rx_token <- poll_until_ready polls p rx_token;
      if negb (tk_status rx_token =? Status.SUCCESS) && negb (tk_status rx_token =? Status.HTTP_ERROR)
      then e ← lift (error_from_status (tk_status rx_token)); mret (Err e)
      else
        let rx_msg := tk_message rx_token in
        headers ← lift (read_headers (header rx_msg) (Z.to_nat (header_count rx_msg)));
        data ← lift (slice (msg_body rx_msg) 0 (body_length rx_msg));
        mret (Ok (mkHttpHelperResponse (default 0 (msg_response rx_msg)) headers data))
  end.

Definition response_more (polls : nat) (self : HttpHelper) : fw W (uresult (list Z) unit) :=
  let body := replicate BODY_SIZE 0 in
  let rx_msg := mkHttpMessage None None 0 [] (zlen body) body in
  p ← protocol_of self;
  '(r, rx_token) ← http_response p (mkHttpToken Status.NOT_READY rx_msg);
  match r with
  | Err e => mret (Err e)
  | Ok _ =>
      try rx_token <- poll_until_ready polls p rx_token;
      if negb (tk_status rx_token =? Status.SUCCESS)
      then e ← lift (error_from_status (tk_status rx_token)); mret (Err e)
      else
        data ← lift (slice (msg_body (tk_message rx_token)) 0 (body_length (tk_message rx_token)));
        mret (Ok data)
  end.

(** [Drop for HttpHelper], and the drop of its fields. *)
Definition helper_drop (self : HttpHelper) : fw W unit :=
  match protocol self with Some sp => scoped_drop Http_P sp | None => mret tt end;;
  b ← deref (binding self);
  _ ← destroy_child b (child_handle self);
  scoped_drop HttpBinding_P (binding self).

(** ** A client *)

Definition CONTENT_LENGTH : list Z := (* "content-length" *)
  [99; 111; 110; 116; 101; 110; 116; 45; 108; 101; 110; 103; 116; 104].

Fixpoint more_data (polls chunks : nat) (http : HttpHelper) (cl : Z) (data : list Z) : fw W (option (list Z)) :=
  if cl <=? zlen data then mret (Some data)
  else match chunks with
  | O => lift NoFuel
  | S chunks =>
      res ← response_more polls http;
      match res with
      | Err _ => mret None
      | Ok buf => more_data polls chunks http cl (data ++ buf)
      end
  end.

(** What [fetch_http] does with the helper. *)
Definition fetch_with (polls chunks : nat) (http : HttpHelper) (url : list Z) : fw W (option (list Z)) :=
  res ← configure http;
  match res with Err _ => mret None | Ok _ =>
  res ← request_get polls http url;
  match res with Err _ => mret None | Ok _ =>
  res ← response_first polls http true;
  match res with Err _ => mret None | Ok rsp =>
  if negb (rsp_status rsp =? HttpStatusCode.STATUS_200_OK) then mret None
  else match list_find (fun h => h.1 = CONTENT_LENGTH) (rsp_headers rsp) with
  | None => mret None
  | Some (_, cl_hdr) =>
      match parse_uint 64 cl_hdr.2 with
      | None => mret None
      | Some cl => more_data polls chunks http cl (rsp_body rsp)
      end
  end end end end.

Definition fetch_http (polls chunks : nat) (handle : Z) (url : list Z) : fw W (option (list Z)) :=
  http_res ← new handle;
  match http_res with
  | Err _ => mret None
  | Ok http => r ← fetch_with polls chunks http url; helper_drop http;; mret r
  end.
End http.

(** ** What the specification documents

    A web site as the client sees it: for the URL in UCS-2, the status code, the
    headers and the body. *)
Record reply : Set := mkReply { reply_code : Z; reply_headers : list (list Z * list Z); reply_body : list Z }.

Definition text_ok (s : list Z) : Prop := Forall ascii s.
Definition encode_header (h : list Z * list Z) : HttpHeader := mkHttpHeader (h.1 ++ [0]) (h.2 ++ [0]).

(** [opens w (h, g)] counts how often the protocol [g] of the handle [h] is open,
    [child w h] says that [h] is a child handle; [failed w] that the firmware has
    reported a failure; [in_flight p w] are the polls until the operation in progress
    is complete, and the token it then leaves.  [expected p w] is the reply whose
    headers the next response of the interface [p] has, and [remaining p w] the part
    of the body that was not yet received. *)
Class HttpLaws (W : Type) `{!BootServices W, !ProtocolServices W, !HttpServices W} : Type := {
  opens : W -> Z * Z -> nat;
  child : W -> Z -> Prop;
  failed : W -> Prop;
  in_flight : Z -> W -> option (nat * HttpToken);
  expected : Z -> W -> reply;
  remaining : Z -> W -> list Z;
  site : list Z -> reply;
  max_polls : nat;
}.

Section laws.
Context {W : Type} `{!BootServices W, !ProtocolServices W, !HttpServices W, !HttpLaws W}.

(** What no call changes, and what a call changes that neither opens nor closes. *)
Definition quiet (w w' : W) : Prop :=
  boot_active w' = boot_active w /\ image_handle_cell w' = image_handle_cell w /\ (failed w -> failed w').
Definition steady (w w' : W) : Prop :=
  quiet w w' /\ (forall c, opens w' c = opens w c) /\ keeps child w w'.

#[export] Instance quiet_preorder : PreOrder quiet.
Proof. split; [by repeat split|]. intros w1 w2 w3 (? & ? & ?) (? & ? & ?). unfold quiet. repeat split; [congruence..|tauto]. Qed.
#[export] Instance steady_preorder : PreOrder steady.
Proof.
  split; [intros w; split; [reflexivity|]; by split|].
  intros w1 w2 w3 (Q & O & C) (Q2 & O2 & C2). split; [by etrans|]. split; [|by etrans].
  intros c. by rewrite O2, O.
Qed.

(** One more or one less of the protocol [c] is open. *)
Definition one_more (c : Z * Z) (w w' : W) : Prop := quiet w w' /\ keeps child w w' /\ plus_one opens c w w'.
Definition one_less (c : Z * Z) (w w' : W) : Prop := quiet w w' /\ keeps child w w' /\ minus_one opens c w w'.

Definition http_guid (g : Z) : Prop := g = pp_guid HttpBinding_P \/ g = pp_guid Http_P.

Definition reply_ok (r : reply) : Prop := Forall (fun h => text_ok h.1 /\ text_ok h.2) (reply_headers r).

(** The answer [t] to a token: a part of what remains of the body, and the code and
    the headers when they are asked for. *)
Definition answers (p : Z) (w w' : W) (token t : HttpToken) : Prop :=
  let m := tk_message token in let a := tk_message t in
  exists n, 0 <= n <= body_length m /\ n <= zlen (remaining p w) /\
    (remaining p w <> [] -> 0 < body_length m -> 0 < n) /\
    body_length a = n /\ msg_body a = take (Z.to_nat n) (remaining p w) ++ drop (Z.to_nat n) (msg_body m) /\
    remaining p w' = drop (Z.to_nat n) (remaining p w) /\ expected p w' = expected p w /\
    (is_Some (msg_response m) -> msg_response a = Some (reply_code (expected p w)) /\
      header_count a = zlen (reply_headers (expected p w)) /\ header a = map encode_header (reply_headers (expected p w))).

(** The calls: opening and closing count; a child handle is new, and may be destroyed
    once the protocol on it is closed; an operation completes after a bounded number
    of polls and leaves its token with its answer. *)
Class HttpSpec : Prop := {
  law_open : forall h g w s p w', http_guid g ->
    efi_open_protocol h g (image_handle_cell w) 0 (attributes_bits GetProtocol) w = ((s, p), w') ->
    if s =? 0 then p <> 0 /\ one_more (h, g) w w' else steady w w' /\ failed w';
  law_close : forall h g w, http_guid g -> (0 < opens w (h, g))%nat ->
    exists w', efi_close_protocol h g (image_handle_cell w) 0 w = (0, w') /\ one_less (h, g) w w';
  law_create : forall b w s h w', efi_create_child b w = ((s, h), w') ->
    if s =? 0 then h <> 0 /\ quiet w w' /\ (forall d, opens w' d = opens w d) /\ acquires child h w w' /\
      opens w (h, pp_guid Http_P) = 0%nat
    else steady w w' /\ failed w';
  law_destroy : forall b h w, child w h -> opens w (h, pp_guid Http_P) = 0%nat ->
    exists w', efi_destroy_child b h w = (0, w') /\ quiet w w' /\ (forall d, opens w' d = opens w d) /\ releases child h w w';
  law_configure : forall p c w s w', efi_http_configure p c w = (s, w') -> steady w w' /\ (s <> 0 -> failed w');
  law_request : forall p token method url w s token' w', msg_request (tk_message token) = Some (method, url) ->
    efi_http_request p token w = ((s, token'), w') ->
    steady w w' /\ if s =? 0 then
      exists k t, in_flight p w' = Some (k, t) /\ (k <= max_polls)%nat /\ tk_status t <> Status.NOT_READY /\
        token' = (if k is O then t else token) /\
        if tk_status t =? 0 then expected p w' = site url /\ remaining p w' = reply_body (site url) else failed w'
    else failed w';
  law_response : forall p token w s token' w', 0 <= body_length (tk_message token) ->
    efi_http_response p token w = ((s, token'), w') ->
    steady w w' /\ if s =? 0 then
      exists k t, in_flight p w' = Some (k, t) /\ (k <= max_polls)%nat /\ tk_status t <> Status.NOT_READY /\
        token' = (if k is O then t else token) /\
        (tk_status t = Status.SUCCESS \/ tk_status t = Status.HTTP_ERROR -> answers p w w' token t) /\
        (tk_status t = Status.SUCCESS \/ failed w')
    else failed w';
  law_poll : forall p k t token w, in_flight p w = Some (S k, t) ->
    exists s token' w', efi_http_poll p token w = ((s, token'), w') /\ steady w w' /\
      expected p w' = expected p w /\ remaining p w' = remaining p w /\
      if s =? 0 then in_flight p w' = Some (k, t) /\ token' = (if k is O then t else token) else failed w';
  law_site : forall url, reply_ok (site url);
}.
End laws.

(** ** Properties *)

Section properties.
Context {W : Type} `{!BootServices W, !ProtocolServices W, !HttpServices W, !HttpLaws W, !HttpSpec}.
Context (unicode_lowercase : list Z -> list Z).

Definition ready (w : W) : Prop := boot_active w = true /\ image_handle_cell w <> 0.

Lemma quiet_ready w w' : quiet w w' -> ready w -> ready w'.
Proof. intros (E1 & E2 & _) [H1 H2]. unfold ready. by rewrite E1, E2. Qed.

Lemma steady_quiet w w' : steady w w' -> quiet w w'.
Proof. by intros [Q _]. Qed.

Lemma match_status_run {A} s (v : A) (w : W) :
  match_status s v w = Ret (if s =? 0 then Ok v else Err (mkError s tt), w).
Proof.
  unfold match_status, error_from_status, error_new. change Status.SUCCESS with 0. by destruct (s =? 0).
Qed.

Lemma runs_match_status {A} s (v : A) (w : W) (Q : uresult A unit -> W -> Prop) :
  Q (if s =? 0 then Ok v else Err (mkError s tt)) w -> runs (match_status s v) w Q.
Proof. intros HQ. eapply runs_eq; [apply match_status_run|done]. Qed.

Lemma runs_error_status {A} s (w : W) (Q : uresult A unit -> W -> Prop) :
  s <> 0 -> Q (Err (mkError s tt)) w -> runs (e ← lift (error_from_status s); mret (Err e)) w Q.
Proof.
  intros Hs HQ. eapply runs_eq; [|exact HQ]. unfold error_from_status, error_new.
  change Status.SUCCESS with 0. by rewrite (proj2 (Z.eqb_neq _ _)) by done.
Qed.

(** *** Guards *)

(** What opening and closing leave alone. *)
Definition untouched (w w' : W) : Prop := quiet w w' /\ keeps child w w'.

#[local] Instance http_guards : GuardLaws untouched opens failed http_guid.
Proof.
  split.
  - by intros w w' [(E & _) _].
  - by intros w w' [(_ & E & _) _].
  - intros h g w s p w' Hg E. pose proof (law_open _ _ _ _ _ _ Hg E) as Hl. destruct (s =? 0).
    + destruct Hl as (Hp & Q & C & O). by split.
    + destruct Hl as ((Q & O & C) & F). by split.
  - intros h g w Hg Ho. destruct (law_close h g w Hg Ho) as (w' & E & Q & C & O). by exists w'.
Qed.

Abbreviation guard := shared_guard.

Lemma guard_quiet h p w w' sp : quiet w w' -> guard h p w sp -> guard h p w' sp.
Proof. intros (_ & E & _). by apply shared_guard_image. Qed.

Lemma open_get_runs g h w :
  http_guid g -> ready w ->
  runs (open_protocol (sized_protocol g) (mkOpenProtocolParams h (image_handle_cell w) None) GetProtocol) w (fun r w' =>
    match r with
    | Ok sp => one_more (h, g) w w' /\ exists p, guard h p w' sp
    | Err _ => steady w w' /\ failed w'
    end).
Proof.
  intros Hg [Hact _]. eapply runs_weaken; [by apply (get_runs untouched opens failed http_guid)|].
  intros [sp|e] w' ([Q C] & O & Hs); by split.
Qed.

Lemma http_close_runs g h p w sp :
  http_guid g -> boot_active w = true -> guard h p w sp -> (0 < opens w (h, g))%nat ->
  runs (scoped_drop (sized_protocol g) sp) w (fun _ w' => one_less (h, g) w w').
Proof.
  intros Hg Hact Gp Ho. eapply runs_weaken; [by apply (guard_drop_runs untouched opens failed http_guid g h p)|].
  by intros [] w' [[Q C] O].
Qed.

Lemma runs_deref h p w sp (Q : Z -> W -> Prop) : guard h p w sp -> Q p w -> runs (deref sp) w Q.
Proof. intros Gp HQ. unfold deref. runs_step. eapply runs_interface; [done|]. by repeat runs_step. Qed.

(** *** The lifecycle of a helper *)

(** The helper [http] holds what was opened since [w0]: the binding of the card, a
    child handle that is not there before, and the protocol with the interface [p]
    on it. *)
Definition holds (nic p : Z) (w0 w : W) (http : HttpHelper) : Prop :=
  let c := child_handle http in
  (exists b, guard nic b w (binding http)) /\ (exists sp, protocol http = Some sp /\ guard c p w sp) /\
  quiet w0 w /\ acquires child c w0 w /\ opens w0 (c, pp_guid Http_P) = 0%nat /\
  forall d, opens w d = (opens w0 d + (if decide (d = (nic, pp_guid HttpBinding_P)) then 1 else 0) +
    (if decide (d = (c, pp_guid Http_P)) then 1 else 0))%nat.

Lemma holds_steady nic p w0 w w' http : holds nic p w0 w http -> steady w w' -> holds nic p w0 w' http.
Proof.
  intros ((b & Gb) & (sp & Ep & Gp) & Q & A & Z0 & O) (Q' & O' & C'). split_and!.
  - exists b. by eapply guard_quiet.
  - exists sp. split; [done|]. by eapply guard_quiet.
  - by etrans.
  - destruct A as [Hn A]. split; [done|]. intros d. by rewrite (C' d), (A d).
  - done.
  - intros d. by rewrite O', O.
Qed.

(** The failed part of [new]: the child handle is destroyed and the binding closed. *)
Lemma undo_runs {A} (e : Error unit) nic b w0 w1 w2 w3 binding h (Q : uresult A unit -> W -> Prop) :
  ready w0 -> one_more (nic, pp_guid HttpBinding_P) w0 w1 -> guard nic b w1 binding ->
  quiet w1 w2 -> (forall d, opens w2 d = opens w1 d) -> acquires child h w1 w2 -> opens w1 (h, pp_guid Http_P) = 0%nat ->
  steady w2 w3 -> (forall w', steady w0 w' -> quiet w3 w' -> Q (Err e) w') ->
  runs (_ ← destroy_child b h; scoped_drop HttpBinding_P binding;; mret (Err e)) w3 Q.
Proof.
  intros Hr (Q1 & C1 & O1) Gb Q2 O2 [Hn A2] Hz (Q3 & O3 & C3) HQ.
  assert (ready w3) as [Hact _] by (do 3 (eapply quiet_ready; [done|]); done).
  unfold destroy_child. do 2 runs_step. runs_step.
  destruct (law_destroy b h w3) as (w4 & -> & Q4 & O4 & C4); [apply C3, A2; by right|by rewrite O3, O2|]. cbn [fst snd].
  apply runs_match_status. runs_step. eapply runs_weaken; [apply (http_close_runs (pp_guid HttpBinding_P) nic b)|].
  - by left.
  - destruct Q4 as [-> _]. done.
  - by do 3 (eapply guard_quiet; [done|]).
  - rewrite O4, O3, O2, O1. rewrite decide_True by done. lia.
  - intros _ w5 (Q5 & C5 & O5). runs_step. apply HQ; [|by etrans]. split; [by do 4 (etrans; [done|])|]. split.
    + intros d. rewrite O5, O4, O3, O2, O1. case_decide; lia.
    + intros d. rewrite (C5 d), (C4 d), (C3 d), (A2 d), (C1 d). destruct (decide (d = h)) as [->|]; [|tauto].
      rewrite (C1 h) in Hn. tauto.
Qed.

Lemma new_runs nic w :
  ready w ->
  runs (new nic) w (fun r w' =>
    match r with Ok http => exists p, holds nic p w w' http | Err _ => steady w w' /\ failed w' end).
Proof.
  intros Hr. unfold new. runs_step. apply runs_image_handle; [apply Hr|]. runs_step.
  eapply runs_weaken; [apply (open_get_runs (pp_guid HttpBinding_P)); [by left|done]|].
  intros [binding|e] w1; [|done]. intros (M1 & b & Gb). assert (ready w1) as Hr1 by (eapply quiet_ready; [apply M1|done]).
  runs_step. apply (runs_deref _ _ _ _ _ Gb). unfold create_child. do 2 runs_step. runs_step.
  destruct (efi_create_child b w1) as [[s h] w2] eqn:E. pose proof (law_create _ _ _ _ _ E) as Hl. cbn [fst snd].
  change Status.SUCCESS with 0. destruct (Z.eqb_spec s 0) as [->|Hs].
  2: { destruct Hl as [S2 F2]. apply runs_error_status; [done|]. runs_step.
       eapply runs_weaken; [apply (http_close_runs (pp_guid HttpBinding_P) nic b); [by left| |by eapply guard_quiet; [apply S2|]|]|].
       - destruct S2 as [(-> & _) _]. apply Hr1.
       - destruct S2 as (_ & -> & _). destruct M1 as (_ & _ & ->). rewrite decide_True by done. lia.
       - intros _ w3 (Q3 & C3 & O3). runs_step. destruct M1 as (Q1 & C1 & O1), S2 as (Q2 & O2 & C2).
         split; [|by apply Q3]. split; [by do 2 (etrans; [done|])|]. split; [|by do 2 (etrans; [done|])].
         intros d. rewrite O3, O2, O1. case_decide; lia. }
  destruct Hl as (Hh & Q2 & O2 & A2 & Z2). unfold handle_from_ptr. rewrite (proj2 (Z.eqb_neq h 0)) by done.
  cbn [unwrap]. do 2 runs_step. runs_step. runs_step.
  assert (ready w2) as Hr2 by by eapply quiet_ready. apply runs_image_handle; [apply Hr2|]. runs_step.
  eapply runs_weaken; [apply (open_get_runs (pp_guid Http_P)); [by right|done]|].
  intros [sp|e] w3.
  2: { intros [S3 F3]. eapply (undo_runs _ nic b w w1 w2); [exact Hr|exact M1|done|exact Q2|done|done|done|done|].
       intros w' S' Q'. split; [done|]. by apply Q'. }
  intros (M3 & p & Gp). runs_step. exists p. destruct M1 as (Q1 & C1 & O1), M3 as (Q3 & C3 & O3).
  assert (opens w (h, pp_guid Http_P) = 0)%nat as Zh.
  { rewrite O1 in Z2. lia. }
  unfold holds. cbn [child_handle BootProtocols.open_params]. split_and!; cbn.
  - exists b. by do 2 (eapply guard_quiet; [done|]).
  - by exists sp.
  - by do 2 (etrans; [done|]).
  - destruct A2 as [Hn A2]. rewrite (C1 h) in Hn. split; [done|]. intros d. by rewrite (C3 d), (A2 d), (C1 d).
  - done.
  - intros d. by rewrite O3, O2, O1.
Qed.

Lemma helper_drop_runs nic p w0 w http :
  ready w0 -> holds nic p w0 w http -> runs (helper_drop http) w (fun _ w' => steady w0 w' /\ quiet w w').
Proof.
  intros Hr ((b & Gb) & (sp & Ep & Gp) & Q & [Hn A] & Z0 & O). unfold helper_drop. rewrite Ep. runs_step.
  assert (ready w) as Hrw by by eapply quiet_ready.
  eapply runs_weaken; [apply (http_close_runs (pp_guid Http_P) (child_handle http) p); [by right|apply Hrw|done|]|].
  { rewrite O. repeat case_decide; done || lia. }
  intros _ w1 (Q1 & C1 & O1). runs_step. apply (runs_deref nic b); [by eapply guard_quiet|].
  unfold destroy_child. do 2 runs_step. runs_step.
  destruct (law_destroy b (child_handle http) w1) as (w2 & -> & Q2 & O2 & C2).
  { apply C1, A. by right. }
  { rewrite O1, O, Z0. repeat case_decide; simplify_eq; done || lia. }
  cbn [fst snd]. apply runs_match_status.
  eapply runs_weaken; [apply (http_close_runs (pp_guid HttpBinding_P) nic b); [by left| |by do 2 (eapply guard_quiet; [done|])|]|].
  - destruct Q2 as [-> _], Q1 as [-> _]. apply Hrw.
  - rewrite O2, O1, O. repeat case_decide; simplify_eq; done || lia.
  - intros _ w3 (Q3 & C3 & O3). assert (quiet w w3) as Qw by by do 2 (etrans; [done|]). split; [|done].
    split; [by etrans|]. split.
    + intros d. rewrite O3, O2, O1, O. repeat case_decide; simplify_eq; lia.
    + intros d. rewrite (C3 d), (C2 d), (C1 d), (A d). destruct (decide (d = child_handle http)) as [->|]; tauto.
Qed.

(** *** Exchanges *)

(** What an exchange with the interface [p] may have done. *)
Definition same_reply (p : Z) (w w' : W) : Prop :=
  steady w w' /\ expected p w' = expected p w /\ remaining p w' = remaining p w.

#[local] Instance same_reply_preorder p : PreOrder (same_reply p).
Proof.
  split; [by split|]. intros w1 w2 w3 (S1 & E1 & R1) (S2 & E2 & R2). split; [by etrans|]. by rewrite E2, R2.
Qed.

Lemma poll_runs polls p k t token w :
  in_flight p w = Some (k, t) -> tk_status t <> Status.NOT_READY -> tk_status token = Status.NOT_READY -> (k <= polls)%nat ->
  runs (poll_until_ready polls p (if k is O then t else token)) w (fun r w' =>
    same_reply p w w' /\ (r = Ok t \/ (exists e, r = Err e) /\ failed w')).
Proof.
  intros Hf Ht Hn. revert k w Hf. induction polls as [|polls IH]; intros k w Hf Hk.
  { destruct k; [|lia]. cbn [poll_until_ready]. rewrite (proj2 (Z.eqb_neq _ _)) by done. cbn [negb]. runs_step.
    split; [reflexivity|by left]. }
  destruct k as [|k]; cbn [poll_until_ready].
  { rewrite (proj2 (Z.eqb_neq _ _)) by done. cbn [negb]. runs_step. split; [reflexivity|by left]. }
  rewrite Hn, Z.eqb_refl. cbn [negb]. unfold http_poll. do 2 runs_step. runs_step.
  destruct (law_poll p k t token w Hf) as (s & token' & w1 & -> & S1 & E1 & R1 & Hl). cbn [fst snd]. runs_step.
  apply runs_match_status. repeat runs_step. destruct (s =? 0).
  - destruct Hl as [Hf1 ->]. eapply runs_weaken; [apply IH; [done|lia]|]. intros r w2 [S2 Hr]. split; [|done].
    etrans; [|done]. by split.
  - runs_step. split; [by split|]. right. eauto.
Qed.

(** The protocol of a helper. *)
Definition speaks (p : Z) (http : HttpHelper) : Prop :=
  exists sp m, protocol http = Some sp /\ sp_interface sp = Some (p, m).

Lemma holds_speaks nic p w0 w http : holds nic p w0 w http -> speaks p http.
Proof. intros (_ & (sp & E & (_ & Ei & _)) & _). by exists sp, 0. Qed.

Lemma runs_protocol p http w (Q : Z -> W -> Prop) : speaks p http -> Q p w -> runs (protocol_of http) w Q.
Proof. intros (sp & m & E & Ei) HQ. unfold protocol_of, deref, scoped_deref. rewrite E. repeat runs_step. rewrite Ei. by repeat runs_step. Qed.

Lemma configure_runs p http w :
  speaks p http -> runs (configure http) w (fun r w' => steady w w' /\ if r is Err _ then failed w' else True).
Proof.
  intros Hp. unfold configure. runs_step. apply (runs_protocol p); [done|]. unfold http_configure. do 2 runs_step. runs_step.
  destruct (efi_http_configure p default_config w) as [s w'] eqn:E. destruct (law_configure _ _ _ _ _ E) as [S1 F1].
  cbn [fst snd]. apply runs_match_status. destruct (Z.eqb_spec s 0); [by runs_step|]. split; [done|]. by apply F1.
Qed.

(** A URL that can be asked for: without characters outside of UCS-2, and with a host
    after the second slash. *)
Definition url_ok (url url16 : list Z) : Prop :=
  cstring16_try_from_str url = Ok url16 /\ is_Some (split_char SLASH url !! 2%nat).

Lemma request_runs polls p http method url url16 body w :
  speaks p http -> url_ok url url16 -> (max_polls <= polls)%nat ->
  runs (request polls http method url body) w (fun r w' => steady w w' /\
    match r with Ok _ => expected p w' = site url16 /\ remaining p w' = reply_body (site url16) | Err _ => failed w' end).
Proof.
  intros Hp [Eu [host Eh]] Hk. unfold request. rewrite Eu. repeat runs_step. rewrite Eh. cbv zeta. runs_step.
  apply (runs_protocol p); [done|]. unfold http_request.
  set (token := mkHttpToken Status.NOT_READY _). do 2 runs_step. runs_step.
  destruct (efi_http_request p token w) as [[s token'] w1] eqn:E.
  destruct (law_request p token method url16 w s token' w1 eq_refl E) as [S1 Hl]. cbn [fst snd]. runs_step.
  apply runs_match_status. repeat runs_step. destruct (s =? 0); [|by runs_step].
  destruct Hl as (k & t & Hf & Hkm & Ht & -> & Hl). runs_step.
  eapply runs_weaken; [apply (poll_runs polls p k t token); [done|done|done|lia]|].
  intros r w2 ((S2 & E2 & R2) & Hr). destruct Hr as [->|[[e ->] F2]]; [|split; [by etrans|done]].
  change Status.SUCCESS with 0. destruct (Z.eqb_spec (tk_status t) 0) as [_|Hs]; cbn [negb].
  - runs_step. split; [by etrans|]. by rewrite E2, R2.
  - apply runs_error_status; [done|]. split; [by etrans|]. by apply S2.
Qed.

Lemma c_str_text s : text_ok s -> c_str_unwrap (s ++ [0]) = Ret s.
Proof.
  intros Hs. unfold c_str_unwrap.
  assert (cstr_from_ptr_scan (s ++ [0]) 0 = Ret (length s)) as ->.
  { induction Hs as [|c s Hc _ IH]; [done|]. cbn. unfold ascii in Hc. rewrite (proj2 (Z.eqb_neq _ _)) by lia. by rewrite IH. }
  cbn [obind]. by rewrite take_app_length, utf8_ascii_decode.
Qed.

Definition lower (h : list Z * list Z) : list Z * list Z := (map ascii_lowercase h.1, h.2).

Lemma to_lowercase_text s : text_ok s -> to_lowercase unicode_lowercase s = map ascii_lowercase s.
Proof.
  intros Hs. unfold to_lowercase. assert (forallb (fun c => c <? 128) s = true) as ->; [|done].
  apply forallb_forall. intros c Hc. apply list_elem_of_In in Hc. unfold text_ok in Hs. rewrite Forall_forall in Hs. specialize (Hs c Hc).
  unfold ascii in Hs. apply Z.ltb_lt. lia.
Qed.

Lemma read_headers_text hs :
  Forall (fun h => text_ok h.1 /\ text_ok h.2) hs ->
  read_headers unicode_lowercase (map encode_header hs) (length hs) = Ret (map lower hs).
Proof.
  induction 1 as [|h hs [Hn Hv] _ IH]; [done|]. cbn [map length read_headers encode_header field_name field_value].
  rewrite !c_str_text by done. cbn [obind]. rewrite IH. cbn [obind]. by rewrite to_lowercase_text.
Qed.

(** A part of the body that has been received: it is not empty as long as there is
    something to receive. *)
Definition received (p : Z) (w w' : W) (data : list Z) : Prop :=
  remaining p w = data ++ remaining p w' /\ (remaining p w <> [] -> data <> []).

(** The slice of the buffer that the answer filled. *)
Lemma answer_slice p w w' token t :
  answers p w w' token t -> zlen (msg_body (tk_message token)) = body_length (tk_message token) ->
  0 < body_length (tk_message token) ->
  exists data, slice (msg_body (tk_message t)) 0 (body_length (tk_message t)) = Ret data /\ received p w w' data.
Proof.
  intros (n & Hn & Hr & Hpos & En & Eb & Er & _) Hl Hp. exists (take (Z.to_nat n) (remaining p w)).
  assert (length (take (Z.to_nat n) (remaining p w)) = Z.to_nat n) as Ht by (rewrite length_take; unfold zlen in Hr; lia).
  split.
  - rewrite En, Eb. rewrite slice_ok; [|lia|].
    + by rewrite Z.sub_0_r, drop_0, take_app_length' by done.
    + rewrite zlen_app. unfold zlen at 1. rewrite Ht. pose proof (zlen_nonneg (drop (Z.to_nat n) (msg_body (tk_message token)))). lia.
  - split; [by rewrite Er, take_drop|]. intros Hne E. specialize (Hpos Hne Hp). rewrite E in Ht. cbn in Ht. lia.
Qed.

Lemma body_size : zlen (replicate BODY_SIZE 0) = 16384.
Proof. unfold zlen. rewrite length_replicate. by vm_compute. Qed.

Lemma response_first_runs polls p http w :
  speaks p http -> reply_ok (expected p w) -> (max_polls <= polls)%nat ->
  runs (response_first unicode_lowercase polls http true) w (fun r w' => steady w w' /\
    match r with
    | Ok rsp => rsp_status rsp = reply_code (expected p w) /\ rsp_headers rsp = map lower (reply_headers (expected p w)) /\
        received p w w' (rsp_body rsp)
    | Err _ => failed w'
    end).
Proof.
  intros Hp Hok Hk. unfold response_first. rewrite body_size. runs_step. apply (runs_protocol p); [done|]. unfold http_response.
  set (token := mkHttpToken Status.NOT_READY _). do 2 runs_step. runs_step.
  destruct (efi_http_response p token w) as [[s token'] w1] eqn:E.
  destruct (law_response p token w s token' w1 ltac:(done) E) as [S1 Hl]. cbn [fst snd]. runs_step.
  apply runs_match_status. repeat runs_step. destruct (s =? 0); [|by runs_step].
  destruct Hl as (k & t & Hf & Hkm & Ht & -> & Ha & Hs). runs_step.
  eapply runs_weaken; [apply (poll_runs polls p k t token); [done|done|done|lia]|].
  intros r w2 ((S2 & E2 & R2) & Hr). destruct Hr as [->|[[e ->] F2]]; [|split; [by etrans|done]].
  destruct (decide (tk_status t = Status.SUCCESS \/ tk_status t = Status.HTTP_ERROR)) as [Hst|Hst].
  2: { rewrite !(proj2 (Z.eqb_neq _ _)) by tauto. cbn [negb andb]. apply runs_error_status; [by intros E0; apply Hst; left|].
       split; [by etrans|]. apply S2. tauto. }
  assert (negb (tk_status t =? Status.SUCCESS) && negb (tk_status t =? Status.HTTP_ERROR) = false) as ->.
  { destruct Hst as [->| ->]; by vm_compute. }
  specialize (Ha Hst). destruct (answer_slice _ _ _ _ _ Ha) as (data & Ed & Hd); [apply body_size|done|].
  destruct Ha as (n & _ & _ & _ & _ & _ & _ & _ & Hh). destruct Hh as (Ec & En & Eh); [by eexists|].
  rewrite Eh, En. unfold zlen at 1. rewrite Nat2Z.id, read_headers_text by done. repeat runs_step. rewrite Ed. repeat runs_step.
  split; [by etrans|]. cbn [rsp_status rsp_headers rsp_body]. rewrite Ec. cbn [default].
  split; [done|]. split; [done|]. unfold received in *. by rewrite R2.
Qed.

Lemma response_more_runs polls p http w :
  speaks p http -> (max_polls <= polls)%nat ->
  runs (response_more polls http) w (fun r w' => steady w w' /\
    match r with Ok data => received p w w' data | Err _ => failed w' end).
Proof.
  intros Hp Hk. unfold response_more. rewrite body_size. runs_step. apply (runs_protocol p); [done|]. unfold http_response.
  set (token := mkHttpToken Status.NOT_READY _). do 2 runs_step. runs_step.
  destruct (efi_http_response p token w) as [[s token'] w1] eqn:E.
  destruct (law_response p token w s token' w1 ltac:(done) E) as [S1 Hl]. cbn [fst snd]. runs_step.
  apply runs_match_status. repeat runs_step. destruct (s =? 0); [|by runs_step].
  destruct Hl as (k & t & Hf & Hkm & Ht & -> & Ha & Hs). runs_step.
  eapply runs_weaken; [apply (poll_runs polls p k t token); [done|done|done|lia]|].
  intros r w2 ((S2 & E2 & R2) & Hr). destruct Hr as [->|[[e ->] F2]]; [|split; [by etrans|done]].
  destruct (Z.eqb_spec (tk_status t) Status.SUCCESS) as [Est|Est]; cbn [negb].
  - destruct (answer_slice _ _ _ _ _ (Ha (or_introl Est))) as (data & Ed & Hd); [apply body_size|done|].
    rewrite Ed. repeat runs_step. split; [by etrans|]. unfold received in *. by rewrite R2.
  - apply runs_error_status; [done|]. split; [by etrans|]. apply S2. tauto.
Qed.

Lemma more_data_runs polls chunks p http body data w :
  speaks p http -> (max_polls <= polls)%nat -> body = data ++ remaining p w -> (length (remaining p w) <= chunks)%nat ->
  runs (more_data polls chunks http (zlen body) data) w (fun r w' => steady w w' /\
    match r with Some d => d = body | None => failed w' end).
Proof.
  intros Hp Hk. revert data w. induction chunks as [|chunks IH]; intros data w Eb Hc; cbn [more_data].
  - destruct (remaining p w) eqn:Er; [|cbn in Hc; lia]. rewrite app_nil_r in Eb. subst data.
    rewrite Z.leb_refl. runs_step. by split.
  - destruct (Z.leb_spec (zlen body) (zlen data)) as [Hl|Hl].
    { runs_step. split; [done|]. destruct (remaining p w) as [|c rest]; [by rewrite Eb, app_nil_r|].
      exfalso. rewrite Eb, zlen_app, zlen_cons in Hl. pose proof (zlen_nonneg rest). lia. }
    runs_step. eapply runs_weaken; [by apply (response_more_runs polls p)|].
    intros [buf|e] w1 [S1 Hr]; [|by runs_step]. destruct Hr as [Er Hne].
    assert (remaining p w <> []) as Hne2.
    { intros E. rewrite Eb, E, app_nil_r in Hl. lia. }
    specialize (Hne Hne2). eapply runs_weaken; [apply IH|].
    + by rewrite Eb, Er, app_assoc.
    + rewrite Er, length_app in Hc. destruct buf; [done|]. cbn in Hc. lia.
    + intros r w2 [S2 Hr]. split; [by etrans|done].
Qed.

(** The header with the length of the body, and that it tells the truth. *)
Definition content_length (r : reply) : option (list Z) :=
  snd ∘ snd <$> list_find (fun h => h.1 = CONTENT_LENGTH) (map lower (reply_headers r)).
Definition truthful (r : reply) : Prop :=
  forall t, content_length r = Some t -> parse_uint 64 t = Some (zlen (reply_body r)).

Lemma fetch_with_runs polls chunks p http url url16 w :
  speaks p http -> url_ok url url16 -> (max_polls <= polls)%nat -> (length (reply_body (site url16)) <= chunks)%nat ->
  truthful (site url16) ->
  runs (fetch_with unicode_lowercase polls chunks http url) w (fun r w' => steady w w' /\
    match r with
    | Some data => data = reply_body (site url16)
    | None => failed w' \/ reply_code (site url16) <> HttpStatusCode.STATUS_200_OK \/ content_length (site url16) = None
    end).
Proof.
  intros Hp Hu Hk Hc Htrue. unfold fetch_with. runs_step. eapply runs_weaken; [by apply (configure_runs p)|].
  intros [[]|e] w1 [S1 F1]; [|runs_step; split; [done|by left]].
  unfold request_get. do 2 runs_step. eapply runs_weaken; [by eapply (request_runs polls p)|].
  intros [[]|e] w2 [S2 H2]; [|runs_step; split; [by etrans|by left]]. destruct H2 as [E2 R2]. do 2 runs_step.
  eapply runs_weaken; [apply (response_first_runs polls p http w2); [done|rewrite E2; apply law_site|done]|].
  intros [rsp|e] w3 [S3 H3]; [|runs_step; split; [by do 2 (etrans; [done|])|by left]].
  destruct H3 as (Ec & Eh & Er & Hne). rewrite E2 in Ec, Eh. rewrite R2 in Er. rewrite Ec.
  assert (steady w w3) as Sw by by do 2 (etrans; [done|]).
  destruct (Z.eqb_spec (reply_code (site url16)) HttpStatusCode.STATUS_200_OK) as [_|Hcode]; cbn [negb];
    [|runs_step; split; [done|by right; left]].
  rewrite Eh. pose proof (Htrue : truthful _) as Ht. unfold truthful, content_length in *.
  destruct (list_find _ (map lower (reply_headers (site url16)))) as [[i h]|]; cbn [fmap option_fmap option_map] in *;
    [|runs_step; split; [done|by right; right]].
  change ((snd ∘ snd) (i, h)) with h.2 in Ht. rewrite (Ht _ eq_refl).
  eapply runs_weaken; [apply (more_data_runs polls chunks p http (reply_body (site url16)) (rsp_body rsp) w3); [done|done|done|]|].
  - rewrite Er, length_app in Hc. lia.
  - intros [d|] w4 [S4 H4]; (split; [by etrans|]); [done|by left].
Qed.

End properties.

(** ** A network card with a web server *)
Module Server.
Record world : Type := mkWorld {
  w_opens : list (Z * Z);
  w_children : list Z;
  w_flight : option (Z * (nat * HttpToken));
  w_conn : Z -> reply * list Z;
}.

Definition page : reply := (* "Content-Length: 5" and "hello" *)
  mkReply HttpStatusCode.STATUS_200_OK [([67; 111; 110; 116; 101; 110; 116; 45; 76; 101; 110; 103; 116; 104], [53])]
    [104; 101; 108; 108; 111].

Fixpoint remove_one (c : Z * Z) (l : list (Z * Z)) : list (Z * Z) :=
  match l with [] => [] | d :: l => if decide (d = c) then l else d :: remove_one c l end.
Definition count (c : Z * Z) (l : list (Z * Z)) : nat := length (filter (fun d => d = c) l).

(** A handle that is not in use. *)
Definition fresh_handle (w : world) : Z := 1 + foldr Z.max 0 (w_children w ++ map fst (w_opens w)).

Definition set_conn (p : Z) (c : reply * list Z) (f : Z -> reply * list Z) : Z -> reply * list Z :=
  fun q => if decide (q = p) then c else f q.

#[global] Instance boot : BootServices world := inert_boot (fun _ => true).
#[global] Instance protocols : ProtocolServices world := inert_protocols
  (fun h g _ w => ((0, 8), mkWorld ((h, g) :: w_opens w) (w_children w) (w_flight w) (w_conn w)))
  (fun h g w => (0, mkWorld (remove_one (h, g) (w_opens w)) (w_children w) (w_flight w) (w_conn w))).

(** A message with a part of at most three bytes of the body. *)
Definition fill (m : HttpMessage) (r : reply) (rest : list Z) (n : nat) : HttpMessage :=
  mkHttpMessage (msg_request m) (if msg_response m then Some (reply_code r) else None) (zlen (reply_headers r))
    (map encode_header (reply_headers r)) (Z.of_nat n) (take n rest ++ drop n (msg_body m)).
Definition part (m : HttpMessage) (rest : list Z) : nat := Nat.min 3 (Nat.min (Z.to_nat (body_length m)) (length rest)).

(** A request is complete after one poll, a response after two. *)
#[global] Instance services : HttpServices world := {|
  efi_create_child _ w := ((0, fresh_handle w), mkWorld (w_opens w) (fresh_handle w :: w_children w) (w_flight w) (w_conn w));
  efi_destroy_child _ h w := (0, mkWorld (w_opens w) (filter (fun c => c <> h) (w_children w)) (w_flight w) (w_conn w));
  efi_http_get_mode_data _ c w := ((0, c), w);
  efi_http_configure _ _ w := (0, w);
  efi_http_request p token w :=
    ((0, token), mkWorld (w_opens w) (w_children w) (Some (p, (1%nat, mkHttpToken 0 (tk_message token))))
      (set_conn p (page, reply_body page) (w_conn w)));
  efi_http_cancel _ token w := ((0, token), w);
  efi_http_response p token w :=
    let m := tk_message token in let '(r, rest) := w_conn w p in let n := part m rest in
    ((0, token), mkWorld (w_opens w) (w_children w) (Some (p, (2%nat, mkHttpToken 0 (fill m r rest n))))
      (set_conn p (r, drop n rest) (w_conn w)));
  efi_http_poll p token w :=
    match w_flight w with
    | Some (_, (S k, t)) => ((0, if k is O then t else token), mkWorld (w_opens w) (w_children w) (Some (p, (k, t))) (w_conn w))
    | _ => ((0, token), w)
    end;
|}.

#[global] Instance laws : HttpLaws world := {|
  opens w c := count c (w_opens w);
  child w h := h ∈ w_children w;
  failed _ := False;
  in_flight p w := match w_flight w with Some (q, f) => if decide (p = q) then Some f else None | None => None end;
  expected p w := (w_conn w p).1;
  remaining p w := (w_conn w p).2;
  site _ := page;
  max_polls := 2;
|}.

Lemma count_cons d c l : count d (c :: l) = (count d l + if decide (d = c) then 1 else 0)%nat.
Proof. unfold count. rewrite filter_cons. repeat case_decide; subst; cbn; done || lia. Qed.

Lemma count_remove d c l : (0 < count c l)%nat -> count d (remove_one c l) = (count d l - if decide (d = c) then 1 else 0)%nat.
Proof.
  induction l as [|x l IH]; [cbn; lia|]. cbn [remove_one]. rewrite !count_cons. intros Hc. destruct (decide (x = c)) as [->|Hx].
  - case_decide; lia.
  - rewrite count_cons. rewrite decide_False in Hc by congruence. rewrite IH by lia.
    repeat case_decide; subst; try lia; congruence.
Qed.

Lemma count_absent c l : c ∉ l -> count c l = 0%nat.
Proof.
  intros Hc. unfold count. induction l as [|x l IH]; [done|]. rewrite not_elem_of_cons in Hc. destruct Hc as [Hx Hc].
  rewrite filter_cons, decide_False by done. by apply IH.
Qed.

Lemma fresh_not_used w : fresh_handle w ∉ w_children w ++ map fst (w_opens w) /\ fresh_handle w <> 0.
Proof.
  unfold fresh_handle. generalize (w_children w ++ map fst (w_opens w)). intros l. split.
  - intros Hin. assert (forall x, x ∈ l -> x <= foldr Z.max 0 l) as H; [|specialize (H _ Hin); lia].
    clear Hin. intros x. induction l as [|y l IH]; [by rewrite elem_of_nil|]. rewrite elem_of_cons. cbn. intros [->|Hx]; [lia|]. specialize (IH Hx). lia.
  - assert (0 <= foldr Z.max 0 l); [|lia]. induction l; cbn; lia.
Qed.

Lemma part_bounds m rest :
  (part m rest <= Z.to_nat (body_length m))%nat /\ (part m rest <= length rest)%nat /\
  (rest <> [] -> 0 < body_length m -> (0 < part m rest)%nat).
Proof. unfold part. split_and!; [lia..|]. intros Hne Hl. destruct rest; [done|]. cbn [length]. lia. Qed.

#[global] Instance spec : HttpSpec.
Proof.
  split.
  - intros h g w s p w' _ [= <- <- <-]. split; [done|]. split; [done|]. split; [done|]. intros d. apply count_cons.
  - intros h g w _ Ho. eexists. split; [done|]. split; [done|]. split; [done|]. intros d. by apply count_remove.
  - intros b w s h w' [= <- <- <-]. destruct (fresh_not_used w) as [Hf Hz]. rewrite not_elem_of_app in Hf. destruct Hf as [Hc Ho].
    split; [done|]. split; [done|]. split; [done|]. split; [split; [done|]; intros c; cbn; rewrite elem_of_cons; tauto|].
    apply count_absent. intros Hin. apply Ho. apply list_elem_of_fmap. by eexists (_, _).
  - intros b h w Hc Ho. eexists. split; [done|]. split; [done|]. split; [done|]. intros c. cbn. rewrite list_elem_of_filter. tauto.
  - intros p c w s w' [= <- <-]. by split.
  - intros p token method url w s token' w' Hm [= <- <- <-]. split; [done|]. cbn. exists 1%nat, (mkHttpToken 0 (tk_message token)).
    rewrite decide_True by done. unfold set_conn. rewrite decide_True by done. split_and!; done || lia.
  - intros p token w s token' w' Hb. cbn. destruct (w_conn w p) as [r rest] eqn:Ec. intros [= <- <- <-]. split; [done|]. cbn.
    eexists 2%nat, _. rewrite decide_True by done. split_and!; try done; try lia; [|by left]. intros _.
    pose proof (part_bounds (tk_message token) rest) as (H1 & H2 & H3).
    exists (Z.of_nat (part (tk_message token) rest)). unfold zlen. cbn [remaining expected laws w_conn]. unfold set_conn.
    rewrite Ec, decide_True, Nat2Z.id by done. cbn [fst snd tk_message fill body_length msg_body msg_response header_count header].
    split_and!; try done; try lia.
    + intros Hne Hl. specialize (H3 Hne Hl). lia.
    + intros [c Hs]. by rewrite Hs.
  - intros p k t token w. cbn. destruct (w_flight w) as [[q [j u]]|] eqn:Ew; [|done]. case_decide; [|done]. subst q. intros [= -> ->].
    do 3 eexists. split; [done|]. cbn. by rewrite decide_True.
  - intros url. unfold reply_ok, page, text_ok, ascii. cbn. repeat constructor; lia.
Qed.

Definition initial : world := mkWorld [(5, 6)] [7] None (fun _ => (page, [])).
Definition url : list Z := [104; 58; 47; 47; 97; 47].
End Server.

