(* ===== verification/Logger.v ===== *)
(** * Log records

    [DecoratedLog] of [uefi/src/helpers/logger.rs], which prints the log level in
    front of every line of a record.  The underlying writer is a parameter; one
    [write!] hands it one string, of which the formatting machinery may make
    several pieces.  A level is its text, which the crate [log] gives.  A record reaches [write_str] in the fragments that its
    arguments are formatted in, followed by a line feed. *)
From S2P Require Import Prelude Firmware Text.

(** ** Formatting *)

Definition LF : Z := 0x0a.
Definition CR : Z := 0x0d.
Definition colon : list Z := [0x3a; 0x20].

(** ["[{:>5}]: {:>12}@{:03}: "]. *)
Definition long_prefix (level : list Z) (file : list Z) (line : Z) : list Z :=
  [0x5b] ++ pad_left 0x20 5 (level) ++ [0x5d] ++ colon ++
  pad_left 0x20 12 file ++ [0x40] ++ pad_left 0x30 3 (digits 20 line) ++ colon.

(** ["{level}: "]. *)
Definition short_prefix (level : list Z) : list Z := level ++ colon.

(** [str::lines]: a carriage return before the line feed is dropped, and there is
    no line behind a final line feed. *)
Fixpoint drop_cr (s : list Z) : list Z :=
  match s with
  | [] => []
  | c :: s' =>
      if (c =? CR) && match s' with d :: _ => d =? LF | [] => false end then drop_cr s' else c :: drop_cr s'
  end.

Fixpoint split_lf (s : list Z) : list (list Z) :=
  match s with
  | [] => []
  | c :: s =>
      if c =? LF then [] :: split_lf s
      else match split_lf s with [] => [[c]] | l :: ls => (c :: l) :: ls end
  end.

Definition lines (s : list Z) : list (list Z) := split_lf (drop_cr s).

(** [Some('\n') = s.chars().next_back()]. *)
Definition ends_lf (s : list Z) : bool := match last s with Some c => c =? LF | None => false end.

(** ** [DecoratedLog] *)

Section decorated.
Context {W : Type} (sink : list Z -> fw W (result unit unit)).

Record DecoratedLog : Set := mkDecoratedLog {
  log_level : list Z; at_line_start : bool; file : list Z; line : Z;
}.

Definition with_line_start (b : bool) (self : DecoratedLog) : DecoratedLog :=
  mkDecoratedLog (log_level self) b (file self) (line self).

(** The loop over the remaining lines. *)
Fixpoint write_lines (level : list Z) (ls : list (list Z)) : fw W (result unit unit) :=
  match ls with
  | [] => mret (Ok tt)
  | l :: ls =>
      try _ <- sink ([LF] ++ short_prefix level ++ l);
      write_lines level ls
  end.

Definition write_str (self : DecoratedLog) (s : list Z) : fw W (result DecoratedLog unit) :=
  let ls := lines s in
  let first := default [] (head ls) in
  let rest := tail ls in
  try self <- (if at_line_start self then
      try _ <- sink (long_prefix (log_level self) (file self) (line self));
      mret (Ok (with_line_start false self))
    else mret (Ok self));
  try _ <- sink first;
  try _ <- write_lines (log_level self) rest;
  if ends_lf s then
    try _ <- sink [LF];
    mret (Ok (with_line_start true self))
  else mret (Ok self).

Fixpoint write_fragments (self : DecoratedLog) (frags : list (list Z)) : fw W (result DecoratedLog unit) :=
  match frags with
  | [] => mret (Ok self)
  | s :: frags => try self <- write_str self s; write_fragments self frags
  end.

(** [DecoratedLog::write]. *)
Definition write (level : list Z) (frags : list (list Z)) (file : list Z) (line : Z) : fw W (result unit unit) :=
  try _ <- write_fragments (mkDecoratedLog level true file line) (frags ++ [[LF]]);
  mret (Ok tt).
End decorated.

(** ** Every line is annotated *)

Lemma split_lf_no_lf s : Forall (fun l => Forall (fun c => c <> LF) l) (split_lf s).
Proof.
  induction s as [|c s IH]; cbn; [constructor|]. destruct (Z.eqb_spec c LF) as [|Hc]; [by constructor|].
  destruct (split_lf s) as [|l ls]; [by repeat constructor|]. apply Forall_cons in IH as [Hl Hls].
  constructor; [by constructor|done].
Qed.

Lemma split_lf_cons c s : exists l ls, split_lf (c :: s) = l :: ls.
Proof. cbn. destruct (c =? LF); [eauto|]. destruct (split_lf s); eauto. Qed.

(** The lines of a string, put together again. *)
Lemma split_lf_join s :
  s = default [] (head (split_lf s)) ++ concat (map (cons LF) (tail (split_lf s))) ++ (if ends_lf s then [LF] else []).
Proof.
  induction s as [|c s IH]; [done|]. unfold ends_lf in *. destruct s as [|d s].
  { cbn. by destruct (Z.eqb_spec c LF) as [->|]. }
  change (last (c :: d :: s)) with (last (d :: s)). destruct (split_lf_cons d s) as (l & ls & E).
  set (e := if match last (d :: s) with Some c => c =? LF | None => false end then [LF] else []) in *.
  change (split_lf (c :: d :: s)) with (if c =? LF then [] :: split_lf (d :: s)
    else match split_lf (d :: s) with [] => [[c]] | l :: ls => (c :: l) :: ls end).
  rewrite E in *. destruct (Z.eqb_spec c LF) as [->|Hc]; cbn in IH |- *; rewrite IH at 1; [by rewrite <- app_assoc|done].
Qed.

Lemma ends_lf_drop_cr s : ends_lf (drop_cr s) = ends_lf s.
Proof.
  induction s as [|c s IH]; [done|]. cbn [drop_cr]. destruct s as [|d s].
  { by rewrite andb_false_r. }
  assert (exists x t, drop_cr (d :: s) = x :: t) as (x & t & E).
  { clear IH. revert d. induction s as [|a s IHs]; intros d; cbn [drop_cr]; [rewrite andb_false_r; eauto|].
    destruct ((d =? CR) && (a =? LF)); [apply IHs|eauto]. }
  unfold ends_lf in *. change (last (c :: d :: s)) with (last (d :: s)).
  destruct ((c =? CR) && (d =? LF)); [exact IH|]. rewrite E in *. exact IH.
Qed.

(** A fragment is its first line, the others, and a final line feed. *)
Lemma lines_join s :
  drop_cr s = default [] (head (lines s)) ++ concat (map (cons LF) (tail (lines s))) ++ (if ends_lf s then [LF] else []).
Proof. unfold lines. rewrite <- (ends_lf_drop_cr s). apply split_lf_join. Qed.

Lemma lines_no_lf s : Forall (fun l => Forall (fun c => c <> LF) l) (lines s).
Proof. apply split_lf_no_lf. Qed.

(** A line of the output: an annotation and a text without line feeds. *)
Definition annotated (level : list Z) (file : list Z) (line : Z) (l : list Z * list Z) : Prop :=
  (l.1 = long_prefix level file line \/ l.1 = short_prefix level) /\ Forall (fun c => c <> LF) l.2.

Definition show_line (l : list Z * list Z) : list Z := l.1 ++ l.2 ++ [LF].
Definition line_text (l : list Z * list Z) : list Z := l.2 ++ [LF].

(** A writer that does not fail on texts of the characters it accepts, among them the
    printable ones of ASCII and the line feed, and keeps them in an encoding. *)
Class Sink {W : Type} (sink : list Z -> fw W (result unit unit)) : Type := {
  written : W -> list Z;
  encode : list Z -> list Z;
  accepts : Z -> Prop;
  encode_app : forall s t, encode (s ++ t) = encode s ++ encode t;
  accepts_ascii : forall c, 32 <= c < 127 \/ c = LF -> accepts c;
  sink_law : forall s w, Forall accepts s ->
    exists w', sink s w = Ret (Ok tt, w') /\ written w' = written w ++ encode s;
}.

Lemma drop_cr_accepted (P : Z -> Prop) s : Forall P s -> Forall P (drop_cr s).
Proof.
  intros Hs. induction Hs as [|c t Hc Ht IH]; cbn [drop_cr]; [constructor|]. destruct (_ && _); [done|by constructor].
Qed.

Lemma lines_accepted (P : Z -> Prop) s : Forall P s -> Forall (Forall P) (lines s).
Proof.
  intros Hs%drop_cr_accepted. unfold lines. induction Hs as [|c t Hc _ IH]; cbn [split_lf]; [constructor|].
  destruct (c =? LF); [by constructor|]. destruct IH as [|l ls Hl Hls]; by repeat constructor.
Qed.

(** Texts of accepted characters. *)
Section accepted.
Context (P : Z -> Prop) (P_ascii : forall c, 32 <= c < 127 \/ c = LF -> P c) (level fl : list Z) (ln : Z).
Hypothesis level_accepted : Forall P level.
Hypothesis file_accepted : Forall P fl.

Lemma ascii_accepted s : forallb (fun c => ((32 <=? c) && (c <? 127)) || (c =? LF)) s = true -> Forall P s.
Proof.
  rewrite forallb_forall. intros H. apply Forall_forall. intros c Hc. apply P_ascii.
  specialize (H c (proj1 (list_elem_of_In _ _) Hc)). lia.
Qed.

Lemma short_accepted : Forall P (short_prefix level).
Proof. apply Forall_app. split; [done|by apply ascii_accepted]. Qed.

Lemma padded_accepted c n s : P c -> Forall P s -> Forall P (pad_left c n s).
Proof. intros Hc Hs. apply Forall_app. split; [by apply Forall_replicate|done]. Qed.

Lemma long_accepted : Forall P (long_prefix level fl ln).
Proof.
  unfold long_prefix. rewrite !Forall_app. repeat split; try by apply ascii_accepted.
  - apply padded_accepted; [apply P_ascii; lia|done].
  - apply padded_accepted; [apply P_ascii; lia|done].
  - apply padded_accepted; [apply P_ascii; lia|]. eapply Forall_impl; [apply digits_digit|].
    intros c Hc. apply P_ascii. unfold digit in Hc. lia.
Qed.


(** Writing a record returns if the writer does. *)
Lemma write_returns {W} (sink : list Z -> fw W (result unit unit)) frags w :
  (forall s w, Forall P s -> runs (sink s) w (fun _ _ => True)) -> Forall (Forall P) frags ->
  runs (write sink level frags fl ln) w (fun _ _ => True).
Proof.
  intros Hsink Hf.
  assert (forall ls w, Forall (Forall P) ls -> runs (write_lines sink level ls) w (fun _ _ => True)) as Hlines.
  { intros ls w0 Hls. revert w0. induction Hls as [|l ls Hl _ IH]; intros w0; cbn [write_lines]; runs_step; [done|].
    eapply runs_weaken; [apply Hsink|].
    { constructor; [apply P_ascii; by right|]. apply Forall_app. split; [by apply short_accepted|done]. }
    intros [[]|[]] w1 _; [apply IH|done]. }
  assert (forall s b w, Forall P s -> runs (write_str sink (mkDecoratedLog level b fl ln) s) w
    (fun r _ => forall d, r = Ok d -> exists b, d = mkDecoratedLog level b fl ln)) as Hstr.
  { intros s b w0 Hs. apply lines_accepted in Hs. unfold write_str. apply runs_try.
    eapply (runs_weaken _ _ (fun r _ => forall d, r = Ok d -> exists b, d = mkDecoratedLog level b fl ln)).
    { cbn [at_line_start]. destruct b; runs_step; [|naive_solver]. eapply runs_weaken; [apply Hsink; by apply long_accepted|].
      intros [[]|[]] w1 _; [runs_step|]; naive_solver. }
    intros [d|[]] w1 Hd; [|done]. destruct (Hd d eq_refl) as [b' ->]. runs_step.
    eapply runs_weaken; [apply Hsink; by destruct Hs|]. intros [[]|[]] w2 _; [|done]. runs_step.
    eapply runs_weaken; [apply Hlines; by destruct Hs|]. intros [[]|[]] w3 _; [|done].
    destruct (ends_lf s); runs_step; [|naive_solver]. eapply runs_weaken; [apply Hsink; by apply ascii_accepted|].
    intros [[]|[]] w4 _; [runs_step|]; naive_solver. }
  unfold write. apply runs_try.
  assert (Forall (Forall P) (frags ++ [[LF]])) as Hfs by (apply Forall_app; split; [done|repeat constructor; apply P_ascii; by right]).
  assert (forall b w, runs (write_fragments sink (mkDecoratedLog level b fl ln) (frags ++ [[LF]])) w (fun _ _ => True)) as Hall.
  { induction Hfs as [|s fs Hs _ IH]; intros b w0; cbn [write_fragments]; runs_step; [done|].
    eapply runs_weaken; [by apply Hstr|]. intros [d|[]] w1 Hd; [|done]. destruct (Hd d eq_refl) as [b' ->]. apply IH. }
  eapply runs_weaken; [apply Hall|]. intros [d|[]] w1 _; [by runs_step|done].
Qed.
End accepted.

Section annotation.
Context {W : Type} (sink : list Z -> fw W (result unit unit)) `{!Sink sink}.
Context (level : list Z) (fl : list Z) (ln : Z).

(** The output so far is complete lines [ls], and a part [p] of a line when not at
    the start of one; [text] is what was given to the log. *)
Definition shows (start : bool) (out text : list Z) : Prop :=
  exists ls, Forall (annotated level fl ln) ls /\
    if start then out = concat (map show_line ls) /\ text = concat (map line_text ls)
    else exists p, annotated level fl ln p /\
      out = concat (map show_line ls) ++ p.1 ++ p.2 /\ text = concat (map line_text ls) ++ p.2.

Lemma shows_start out text :
  shows true out text -> shows false (out ++ long_prefix level fl ln) text.
Proof.
  intros (ls & Hls & -> & ->). exists ls. split; [done|]. exists (long_prefix level fl ln, []).
  split; [by split; [left|constructor]|]. cbn. by rewrite !app_nil_r.
Qed.

Lemma shows_text out text s :
  Forall (fun c => c <> LF) s -> shows false out text -> shows false (out ++ s) (text ++ s).
Proof.
  intros Hs (ls & Hls & [a c] & [Ha Hc] & -> & ->). exists ls. split; [done|]. exists (a, c ++ s). cbn in *.
  split; [split; [done|by apply Forall_app]|]. by rewrite <- !app_assoc.
Qed.

Lemma shows_end out text : shows false out text -> shows true (out ++ [LF]) (text ++ [LF]).
Proof.
  intros (ls & Hls & p & Hp & -> & ->). exists (ls ++ [p]). split; [apply Forall_app; split; [done|by constructor]|].
  rewrite !map_app, !concat_app. cbn. unfold show_line, line_text. by rewrite !app_nil_r, <- !app_assoc.
Qed.

Lemma shows_next out text s :
  Forall (fun c => c <> LF) s -> shows false out text ->
  shows false (out ++ [LF] ++ short_prefix level ++ s) (text ++ LF :: s).
Proof.
  intros Hs H%shows_end. destruct H as (ls & Hls & Ho & Ht). exists ls. split; [done|]. exists (short_prefix level, s).
  split; [by split; [right|]|]. cbn [fst snd]. split; [by rewrite <- Ho, <- !app_assoc|by rewrite <- Ht, <- app_assoc].
Qed.

(** What the writer has got since it had [base]. *)
Context (base : list Z).
Definition shown (start : bool) (w : W) (text : list Z) : Prop :=
  exists out, written w = base ++ encode out /\ shows start out text.

Hypothesis level_accepted : Forall accepts level.
Hypothesis file_accepted : Forall accepts fl.

Lemma sink_runs s w start text (Q : result unit unit -> W -> Prop) :
  Forall accepts s -> shown start w text ->
  (forall w', (forall start' text', (forall out, shows start out text -> shows start' (out ++ s) text') -> shown start' w' text') -> Q (Ok tt) w') ->
  runs (sink s) w Q.
Proof.
  intros Ha (out & Ew & Ho) H. destruct (sink_law s w Ha) as (w' & E & Hw). exists (Ok tt), w'. split; [done|]. apply H.
  intros start' text' Hs. exists (out ++ s). split; [by rewrite Hw, Ew, encode_app, app_assoc|by apply Hs].
Qed.

Lemma write_lines_runs ls w text :
  Forall (fun l => Forall (fun c => c <> LF) l) ls -> Forall (Forall accepts) ls -> shown false w text ->
  runs (write_lines sink level ls) w (fun r w' => r = Ok tt /\ shown false w' (text ++ concat (map (cons LF) ls))).
Proof.
  intros Hls. revert w text. induction Hls as [|l ls Hl _ IH]; intros w text Ha Hs; cbn [write_lines].
  - runs_step. split; [done|]. cbn [map concat]. by rewrite app_nil_r.
  - apply Forall_cons in Ha as [Hal Ha]. runs_step. eapply sink_runs; [|exact Hs|].
    { constructor; [apply accepts_ascii; by right|]. apply Forall_app. split; [exact (short_accepted _ accepts_ascii _ level_accepted)|done]. }
    intros w1 Hw1. eapply runs_weaken; [eapply IH; [done|apply Hw1; intros out; by apply shows_next]|].
    intros r w2 [-> Hs2]. split; [done|]. cbn [map concat]. by rewrite app_assoc.
Qed.

Lemma write_str_runs start s w text :
  Forall accepts s -> shown start w text ->
  runs (write_str sink (mkDecoratedLog level start fl ln) s) w (fun r w' => exists start',
    r = Ok (mkDecoratedLog level start' fl ln) /\ (ends_lf s = true -> start' = true) /\
    shown start' w' (text ++ drop_cr s)).
Proof.
  intros Hacc Hs. unfold write_str. pose proof (lines_no_lf s) as Hno. apply lines_accepted in Hacc. rewrite lines_join.
  assert (Forall (fun c => c <> LF) (default [] (head (lines s))) /\ Forall (fun l => Forall (fun c => c <> LF) l) (tail (lines s)))
    as [Hfirst Hrest] by (destruct Hno; cbn; split; auto).
  assert (Forall accepts (default [] (head (lines s))) /\ Forall (Forall accepts) (tail (lines s)))
    as [Afirst Arest] by (destruct Hacc; cbn; split; auto).
  set (first := default [] (head (lines s))) in *. set (rest := tail (lines s)) in *.
  apply runs_try. eapply (runs_weaken _ _ (fun r w' => r = Ok (mkDecoratedLog level false fl ln) /\ shown false w' text)).
  { cbn [at_line_start]. destruct start.
    - runs_step. eapply sink_runs; [exact (long_accepted _ accepts_ascii _ _ _ level_accepted file_accepted)|exact Hs|]. intros w' Hw. runs_step. split; [done|].
      apply Hw. intros out. apply shows_start.
    - runs_step. by split. }
  intros r w1 [-> H1]. runs_step. eapply sink_runs; [exact Afirst|exact H1|]. intros w2 Hw2. runs_step.
  eapply runs_weaken; [eapply write_lines_runs; [exact Hrest|exact Arest|apply Hw2; intros out; by apply shows_text]|].
  intros r w3 [-> H3]. rewrite !app_assoc. rewrite <- (app_assoc text first) in H3 |- *. destruct (ends_lf s).
  - runs_step. eapply sink_runs; [by apply (ascii_accepted _ accepts_ascii)|exact H3|]. intros w4 Hw4. runs_step. exists true.
    do 2 (split; [done|]). apply Hw4. intros out. apply shows_end.
  - runs_step. exists false. do 2 (split; [done|]). by rewrite app_nil_r.
Qed.

Lemma write_fragments_runs frags start w text :
  Forall (Forall accepts) frags -> shown start w text ->
  runs (write_fragments sink (mkDecoratedLog level start fl ln) (frags ++ [[LF]])) w (fun r w' =>
    is_ok r = true /\ shown true w' (text ++ concat (map drop_cr frags) ++ [LF])).
Proof.
  intros Hf. revert start w text. induction Hf as [|s frags Ha _ IH]; intros start w text Hs; cbn [write_fragments app].
  - runs_step. eapply runs_weaken; [apply write_str_runs; [by apply (ascii_accepted _ accepts_ascii)|done]|]. intros r w' (start' & -> & He & Hs').
    runs_step. split; [done|]. by rewrite He in Hs'.
  - runs_step. eapply runs_weaken; [by apply write_str_runs|]. intros r w' (start' & -> & _ & Hs').
    eapply runs_weaken; [by apply IH|]. intros r w2 [Hok H2]. split; [done|]. cbn [map concat]. by rewrite <- !app_assoc in *.
Qed.
End annotation.

Section record.
Context {W : Type} (sink : list Z -> fw W (result unit unit)) `{!Sink sink}.

Lemma encode_nil : encode [] = [].
Proof.
  pose proof (encode_app [] []) as E. cbn in E. apply (f_equal length) in E. rewrite length_app in E.
  destruct (encode []); [done|cbn in E; lia].
Qed.

Lemma write_runs (level fl : list Z) (ln : Z) (frags : list (list Z)) (w : W) :
  Forall accepts level -> Forall accepts fl -> Forall (Forall accepts) frags ->
  runs (write sink level frags fl ln) w (fun r w' => r = Ok tt /\ exists ls,
    written w' = written w ++ encode (concat (map show_line ls)) /\ Forall (annotated level fl ln) ls /\
    concat (map line_text ls) = concat (map drop_cr frags) ++ [LF]).
Proof.
  intros Hl Hfl Hf. unfold write. apply runs_try.
  eapply runs_weaken; [apply (write_fragments_runs _ _ _ _ (written w) Hl Hfl frags true w [] Hf)|].
  { exists []. rewrite encode_nil, app_nil_r. split; [done|]. by exists []. }
  intros r w' (Hok & out & Ew & ls & Hls & -> & Ht). destruct r; [|done]. runs_step. split; [done|]. exists ls.
  split; [done|]. split; [done|]. by rewrite <- Ht.
Qed.

(** A record is printed as complete lines, each with an annotation that names the
    level, and nothing of its text is lost: the texts of the lines are the fragments
    of the record, up to carriage returns before line feeds. *)
Theorem log_lines_annotated (level fl : list Z) (ln : Z) (frags : list (list Z)) (w : W) :
  Forall accepts level -> Forall accepts fl -> Forall (Forall accepts) frags ->
  exists w' ls, write sink level frags fl ln w = Ret (Ok tt, w') /\
    written w' = written w ++ encode (concat (map show_line ls)) /\ Forall (annotated level fl ln) ls /\
    concat (map line_text ls) = concat (map drop_cr frags) ++ [LF].
Proof.
  intros Hl Hfl Hf. destruct (write_runs level fl ln frags w Hl Hfl Hf) as (r & w' & E & -> & ls & H). by exists w', ls.
Qed.
End record.

(** ** A writer that appends *)
Definition append (s : list Z) : fw (list Z) (result unit unit) := fun w => Ret (Ok tt, w ++ s).

#[export, refine] Instance append_sink : Sink append := {| written w := w; encode s := s; accepts _ := True |}.
Proof. all: [> done..| by eauto]. Defined.

(** "[ INFO]:         a.rs@007: x" and "INFO: y". *)
Lemma log_lines_annotated_witness :
  exists ls, write append [0x49; 0x4e; 0x46; 0x4f] [[0x78; LF; 0x79]] [0x61; 0x2e; 0x72; 0x73] 7 [] =
    Ret (Ok tt, concat (map show_line ls)) /\ length ls = 2%nat.
Proof.
  destruct (log_lines_annotated append [0x49; 0x4e; 0x46; 0x4f] [0x61; 0x2e; 0x72; 0x73] 7 [[0x78; LF; 0x79]] ([] : list Z))
    as (w' & ls & E & Hw & Hls & Ht); [by repeat constructor..|].
  exists ls. cbn [written append_sink encode app] in Hw. rewrite E, Hw. split; [done|].
  assert (length (filter (fun c => c = LF) (concat (map line_text ls))) = length ls) as <-; [|by rewrite Ht].
  clear - Hls. induction Hls as [|l ls [_ Hl] _ IH]; [done|]. cbn [map concat]. rewrite filter_app, length_app, IH.
  unfold line_text. rewrite filter_app, length_app. cbn.
  replace (filter (fun c => c = LF) l.2) with (@nil Z); [done|].
  induction Hl as [|c k Hc _ IHk]; [done|]. by rewrite filter_cons_False.
Defined.
