(* ===== verification/Helpers.v ===== *)
(** * Helpers: logging to the console and the panic handler

    [Logger] of [uefi/src/helpers/logger.rs] as the backend of the crate [log],
    [helpers::init], and the panic handler of [uefi/src/helpers/panic_handler.rs].  A
    record is its level, the fragments that its arguments are formatted in, and
    where it was written.  The handler is that of a build without the feature [qemu]. *)
From S2P Require Import Prelude Firmware Chars Strs Text Status BootMemory BootProtocols Time Runtime BootExit BootEvents Console Inert System Logger.

(** The crate [log]: installing the logger, which fails the second time, the level,
    and the macro [error!]. *)
Class LogCrate (W : Type) : Type := {
  log_set_logger : W -> result unit unit * W;
  log_set_max_level : W -> W;
  log_error : W -> W;
}.

Record LogRecord : Set := mkLogRecord {
  r_level : list Z;
  r_args : list (list Z);
  r_file : option (list Z);
  r_line : option Z;
}.

Definition UNKNOWN_FILE : list Z := (* "<unknown file>" *)
  [60; 117; 110; 107; 110; 111; 119; 110; 32; 102; 105; 108; 101; 62].

Definition PANIC : list Z := (* "[PANIC]: " *) [91; 80; 65; 78; 73; 67; 93; 58; 32].

Definition TEN_SECONDS : Duration := mkDuration 10 0.

Section helpers.
Context {W : Type} `{!SystemMemory W, !BootServices W, !ProtocolServices W, !RuntimeServices W, !EventServices W, !ExitServices W, !ConsoleServices W, !LogCrate W}.
Context (ucs2_encode : list Z -> list Z * bool).

(** ** The logger *)

(** [Log::log]. *)
Definition log (record : LogRecord) : fw W unit :=
  writer ← logger_output;
  if writer =? 0 then mret tt
  else
    _ ← Logger.write (Console.write_str ucs2_encode) (r_level record) (r_args record)
      (default UNKNOWN_FILE (r_file record)) (default 0 (r_line record));
    mret tt.

Definition logger_init : fw W unit :=
  with_stdout (fun stdout => logger_set_output stdout);;
  r ← call log_set_logger;
  lift (expect_ok r);;
  call (fun w => (tt, log_set_max_level w)).

(** [helpers::init]. *)
Definition init : fw W (uresult unit unit) := logger_init;; mret (Ok tt).

(** ** Panics *)

(** [_print] with a panic as a value: the state in which it happens matters here,
    because the handler goes on from there. *)
Definition try_print (args : list (list Z)) : fw W (result unit fault) :=
  active ← boot_services_active;
  if active : bool then
    st ← system_table;
    if st_boot_services st =? 0 then mret (Err AssertFailed)
    else if st_stdout st =? 0 then mret (Err AssertFailed)
    else r ← write_fmt ucs2_encode args; mret (map_err (fun _ => UnwrapFailed) r)
  else call (fun w => (Ok tt, log_debug w)).

(** The text of a panic inside the handler. *)
Context (message : fault -> list (list Z)).

(** What ends the program: a reset, or, with nothing, the endless loop.  A panic in
    the handler calls the handler; the loop that passes time without the boot services
    has no effect. *)
Fixpoint panic_handler (fuel : nat) (info : list (list Z)) : fw W (option (control Empty_set)) :=
  match fuel with
  | O => lift NoFuel
  | S fuel =>
      r ← try_print ([PANIC] ++ info ++ [[Logger.LF]]);
      match r with
      | Err cause => panic_handler fuel (message cause)
      | Ok _ =>
          active ← boot_services_active;
          (if active : bool then stall TEN_SECONDS else mret tt);;
          st ← system_table_raw;
          match st with
          | Some st =>
              st ← as_ref st;
              if st_runtime_services st =? 0 then call (fun w => (None, log_error w))
              else c ← reset ResetType.SHUTDOWN Status.ABORTED None; mret (Some c)
          | None => call (fun w => (None, log_error w))
          end
      end
  end.
End helpers.

(** ** Properties *)

Section silence.
Context {W : Type} `{!SystemMemory W, !ConsoleServices W, !PrinterLaws W}.

Definition tables (w : W) : Z * option SystemTable := (SYSTEM_TABLE w, table_at (SYSTEM_TABLE w) w).

(** Nothing is printed, and the table stays as it is. *)
Definition silent (w w' : W) : Prop := tables w' = tables w /\ printed w' = printed w.

#[export] Instance silent_preorder : PreOrder silent.
Proof. split; unfold silent; [done|]. intros x y z [-> ->] [-> ->]. done. Qed.

Definition same_tables (w w' : W) : Prop := tables w' = tables w.

#[export] Instance same_tables_preorder : PreOrder same_tables.
Proof. split; unfold same_tables; [done|]. by intros x y z -> ->. Qed.

(** What is on the screen. *)
Definition screen (w : W) : list Z := concat (map body (printed w)).

Lemma prints_screen w w' cs : prints w w' cs -> screen w' = screen w ++ cs.
Proof. intros (p & E & <- & _). unfold screen. by rewrite E, map_app, concat_app. Qed.
End silence.

(** What is documented: the pointer to the table is null or points to the table, whose
    pointers say which services are there; printing and stalling do not change it, nor
    do the static cells and the crate [log], which print nothing either. *)
Class HelperLaws (W : Type) `{!SystemMemory W, !BootServices W, !RuntimeServices W, !EventServices W, !ExitServices W, !ConsoleServices W, !PrinterLaws W, !LogCrate W} : Prop := {
  active_coherent : forall w, boot_services_active w = Ret (boot_active w, w);
  runtime_coherent : forall w st, tables w = (SYSTEM_TABLE w, Some st) -> runtime_active w = negb (st_runtime_services st =? 0);
  output_tables : forall t w, tables (efi_output_string t w).2 = tables w;
  stall_silent : forall n w, silent w (efi_stall n w).2;
  debug_silent : forall w, silent w (log_debug w);
  error_silent : forall w, silent w (log_error w);
  cell_silent : forall x w, silent w (set_logger_cell x w);
  cell_set : forall x w, logger_cell (set_logger_cell x w) = x;
  install_silent : forall w, silent w (log_set_logger w).2 /\ logger_cell (log_set_logger w).2 = logger_cell w;
  level_silent : forall w, silent w (log_set_max_level w) /\ logger_cell (log_set_max_level w) = logger_cell w;
}.

Section properties.
Context {W : Type} `{!SystemMemory W, !BootServices W, !ProtocolServices W, !RuntimeServices W, !EventServices W, !ExitServices W, !ConsoleServices W, !PrinterLaws W, !LogCrate W, !HelperLaws W}.
Context (ucs2_encode : list Z -> list Z * bool).
Hypothesis encode_bmp : forall s, Forall ucs2 s -> ucs2_encode s = (s, true).

(** *** Logging *)

(** A console that refuses nothing takes log records. *)
Definition console_sink (accepting : ~ refuses) : Logger.Sink (Console.write_str ucs2_encode).
Proof using All.
  refine {| written := screen; encode := crlf; accepts := body_char; encode_app := crlf_app |}.
  - intros c Hc. unfold body_char, ucs2, is_surrogate, Logger.LF in *. lia.
  - intros s w Hs. destruct (console_write_str_runs ucs2_encode encode_bmp s w Hs) as (r & w' & E & out & rest & Hp & Ec & Hr).
    destruct r as [[]|[]]; [|done]. cbn in Hr. subst rest. rewrite app_nil_r in Ec. exists w'. split; [done|].
    rewrite Ec. by apply prints_screen.
Defined.

Definition record_ok (record : LogRecord) : Prop :=
  Forall body_char (r_level record) /\ Forall (Forall body_char) (r_args record) /\ Forall body_char (default [] (r_file record)).

Lemma active_table w : boot_active w = true ->
  exists st, SYSTEM_TABLE w <> 0 /\ table_at (SYSTEM_TABLE w) w = Some st /\ st_boot_services st <> 0.
Proof using All.
  intros Ha. pose proof (active_coherent w) as Hac. rewrite Ha in Hac.
  destruct (Z.eq_dec (SYSTEM_TABLE w) 0) as [E0|Hs0]; [by rewrite services_without_table in Hac|].
  destruct (table_at (SYSTEM_TABLE w) w) as [st|] eqn:Est.
  - exists st. do 2 (split; [done|]). rewrite (services_of_table w st Hs0 Est) in Hac. intros E. by rewrite E in Hac.
  - unfold boot_services_active in Hac. rewrite (fw_bind_Ret _ _ _ _ _ (raw_run w)), (proj2 (Z.eqb_neq _ _) Hs0) in Hac.
    unfold as_ref, mbind, fw_bind in Hac. by rewrite Est in Hac.
Qed.

Lemma init_run st w :
  boot_active w = true -> tables w = (SYSTEM_TABLE w, Some st) -> st_stdout st <> 0 ->
  (log_set_logger (set_logger_cell (st_stdout st) w)).1 = Ok tt ->
  exists w1, init w = Ret (Ok tt, w1) /\ logger_cell w1 = st_stdout st /\ silent w w1.
Proof using All.
  intros Ha Et Ho Hi. destruct (active_table w Ha) as (st' & Hs0 & Est & Hb). injection Et as Est'.
  assert (st' = st) as -> by congruence. clear Est'.
  set (w1 := set_logger_cell (st_stdout st) w) in *. destruct (log_set_logger w1) as [r w2] eqn:E. cbn [fst] in Hi. subst r.
  assert (logger_init w = Ret (tt, log_set_max_level w2)) as Hinit.
  { unfold logger_init, with_stdout. rewrite (fw_bind_Ret _ _ w tt w1), fw_bind_call, E; [done|].
    rewrite (with_io_run _ _ w st Hs0 Est Hb). by rewrite (proj2 (Z.eqb_neq _ _)). }
  exists (log_set_max_level w2). unfold init. rewrite (fw_bind_Ret _ _ _ _ _ Hinit).
  split; [done|]. pose proof (install_silent w1) as [S2 L2]. rewrite E in S2, L2. cbn [snd] in *.
  destruct (level_silent w2) as [S3 L3]. split; [rewrite L3, L2; apply cell_set|].
  transitivity w1; [apply cell_silent|]. by transitivity w2.
Qed.

Lemma body_ascii c : 32 <= c < 127 \/ c = Logger.LF -> body_char c.
Proof. unfold body_char, ucs2, is_surrogate, Logger.LF. lia. Qed.

Lemma record_file record : record_ok record -> Forall body_char (default UNKNOWN_FILE (r_file record)).
Proof. intros (_ & _ & Hf). destruct (r_file record); [done|]. by apply (ascii_accepted _ body_ascii). Qed.

(** After [init], a record is printed as complete lines that each have an annotation,
    with nothing of its text lost, on a console that refuses nothing; on any console
    logging does not panic, and once the logger is disabled it does nothing. *)
Theorem log_spec (st : SystemTable) (record : LogRecord) (w : W) :
  boot_active w = true -> tables w = (SYSTEM_TABLE w, Some st) -> st_stdout st <> 0 ->
  (log_set_logger (set_logger_cell (st_stdout st) w)).1 = Ok tt -> record_ok record ->
  exists w1, init w = Ret (Ok tt, w1) /\ silent w w1 /\
    (exists w2, log ucs2_encode record w1 = Ret (tt, w2) /\
      (~ refuses -> exists ls, screen w2 = screen w1 ++ crlf (concat (map show_line ls)) /\
        Forall (annotated (r_level record) (default UNKNOWN_FILE (r_file record)) (default 0 (r_line record))) ls /\
        concat (map line_text ls) = concat (map drop_cr (r_args record)) ++ [Logger.LF])) /\
    let w0 := set_logger_cell 0 w1 in log ucs2_encode record w0 = Ret (tt, w0).
Proof using All.
  intros Ha Et Ho Hi Hok. destruct (init_run st w Ha Et Ho Hi) as (w1 & Ei & El & Hs). exists w1. do 2 (split; [done|]).
  pose proof (record_file record Hok) as Hf. destruct Hok as (Hl & Hargs & _). split.
  - unfold log, logger_output. rewrite fw_bind_call. cbn [fst snd]. rewrite El, (proj2 (Z.eqb_neq _ _) Ho).
    destruct (write_returns body_char body_ascii (r_level record) _ (default 0 (r_line record)) Hl Hf (Console.write_str ucs2_encode)
      (r_args record) w1) as (r & w2 & E & _); [|done|].
    { intros s w0 Hs0. eapply runs_weaken; [by apply console_write_str_runs|done]. }
    exists w2. split; [by rewrite (fw_bind_Ret _ _ _ _ _ E)|]. intros Hacc.
    destruct (write_runs _ (Sink0 := console_sink Hacc) _ _ (default 0 (r_line record)) (r_args record) w1 Hl Hf Hargs)
      as (r' & w2' & E' & _ & ls & Hw & Hls). rewrite E in E'. injection E' as <- <-. by exists ls.
  - cbv zeta. unfold log, logger_output. rewrite fw_bind_call. cbn [fst snd]. by rewrite cell_set.
Qed.

(** *** Panics *)

(** The handler prints with the code of [print!]. *)
Lemma try_print_print args w :
  print ucs2_encode args w = match try_print ucs2_encode args w with
    | Ret (Ok _, w') => Ret (tt, w') | Ret (Err f, _) => Panic f | Panic f => Panic f | Undefined => Undefined | NoFuel => NoFuel
    end.
Proof using All.
  unfold print, try_print. rewrite !(fw_bind_Ret _ _ _ _ _ (active_coherent w)). destruct (boot_active w) eqn:Ha; [|done].
  destruct (active_table w Ha) as (st & Hs0 & Est & Hb). rewrite (fw_bind_Ret _ _ _ _ _ (system_table_run w st Hs0 Est)).
  unfold with_stdout. rewrite (with_io_run _ _ w st Hs0 Est Hb), (proj2 (Z.eqb_neq _ _) Hb). destruct (st_stdout st =? 0); [done|].
  unfold mbind, fw_bind. destruct (write_fmt ucs2_encode args w) as [[[[]|[]] w']| | |]; done.
Qed.

Lemma write_fmt_stable (R : relation W) `{!PreOrder R} args :
  (forall t w, R w (efi_output_string t w).2) -> stable R (write_fmt ucs2_encode args).
Proof.
  intros HR. induction args as [|s args IH]; cbn [write_fmt]; repeat first [apply IH|stable_step].
  by apply (write_str_stable _ R).
Qed.

Lemma same_tables_active w w' : same_tables w w' -> boot_active w' = boot_active w.
Proof using All.
  intros [= E1 E2]. pose proof (active_coherent w) as H. pose proof (active_coherent w') as H'.
  destruct (Z.eq_dec (SYSTEM_TABLE w) 0) as [E0|Hn].
  { rewrite services_without_table in H, H' by congruence. injection H as <-. by injection H' as <-. }
  destruct (table_at (SYSTEM_TABLE w) w) as [st|] eqn:Est.
  - rewrite (services_of_table w st Hn Est) in H. rewrite (services_of_table w' st) in H' by congruence. injection H as <-. by injection H' as <-.
  - unfold boot_services_active in H. rewrite (fw_bind_Ret _ _ _ _ _ (raw_run w)), (proj2 (Z.eqb_neq _ _) Hn) in H.
    unfold as_ref, mbind, fw_bind in H. by rewrite Est in H.
Qed.

(** Where the handler ends: the machine is switched off if it can be. *)
Definition fate_of (w : W) : option (control Empty_set) :=
  match tables w with
  | (p, Some st) => if (p =? 0) || (st_runtime_services st =? 0) then None
      else Some (ResetSystem ResetType.SHUTDOWN Status.ABORTED 0 [])
  | _ => None
  end.

Context (message : fault -> list (list Z)).

(** The handler after its text was printed. *)
Lemma after_print fuel info w w1 :
  try_print ucs2_encode ([PANIC] ++ info ++ [[Logger.LF]]) w = Ret (Ok tt, w1) ->
  exists w2, panic_handler ucs2_encode message (S fuel) info w = Ret (fate_of w1, w2) /\ screen w2 = screen w1.
Proof using All.
  intros E. cbn [panic_handler]. rewrite (fw_bind_Ret _ _ _ _ _ E). rewrite (fw_bind_Ret _ _ _ _ _ (active_coherent w1)).
  assert (exists w2, (if boot_active w1 then stall TEN_SECONDS else mret tt) w1 = Ret (tt, w2) /\ silent w1 w2) as (w2 & E2 & [Ht Hp]).
  { destruct (boot_active w1) eqn:Ha; [|by exists w1]. exists (efi_stall 10000000 w1).2. split; [|apply stall_silent].
    unfold stall. rewrite (fw_bind_Ret _ _ w1 tt w1) by (unfold boot_services_raw_panicking; by rewrite Ha).
    change (as_micros TEN_SECONDS mod 2 ^ usize_bits) with 10000000. by rewrite fw_bind_call. }
  assert (screen w2 = screen w1) as Hscr by (unfold screen; by rewrite Hp).
  rewrite (fw_bind_Ret _ _ _ _ _ E2). rewrite (fw_bind_Ret _ _ _ _ _ (raw_run w2)).
  assert (fate_of w1 = fate_of w2) as -> by (unfold fate_of; by rewrite Ht). unfold fate_of.
  assert (forall w, exists w', call (fun w => (None : option (control Empty_set), log_error w)) w = Ret (None, w') /\ screen w' = screen w) as Herr.
  { intros w0. eexists. split; [reflexivity|]. unfold screen. by rewrite (proj2 (error_silent w0)). }
  destruct (Z.eqb_spec (SYSTEM_TABLE w2) 0) as [E0|Hn].
  { destruct (Herr w2) as (w3 & E3 & H3). exists w3. split; [|congruence]. rewrite E3. unfold tables. rewrite E0. cbn.
    by destruct (table_at 0 w2). }
  pose proof (active_coherent w2) as Hac. unfold boot_services_active in Hac.
  rewrite (fw_bind_Ret _ _ _ _ _ (raw_run w2)), (proj2 (Z.eqb_neq _ _) Hn) in Hac. unfold tables.
  destruct (table_at (SYSTEM_TABLE w2) w2) as [st|] eqn:Est; [|unfold as_ref, mbind, fw_bind in Hac; by rewrite Est in Hac].
  rewrite (fw_bind_Ret (as_ref _) _ w2 st w2) by (unfold as_ref; by rewrite Est). rewrite (proj2 (Z.eqb_neq _ _) Hn). cbn [orb].
  pose proof (runtime_coherent w2 st ltac:(unfold tables; by rewrite Est)) as Hrt.
  destruct (st_runtime_services st =? 0); cbn [negb] in Hrt.
  - destruct (Herr w2) as (w3 & -> & H3). exists w3. split; [done|congruence].
  - exists w2. split; [|done]. unfold reset, mbind, fw_bind, runtime_services_raw_panicking. by rewrite Hrt.
Qed.

Definition stdout_present (w : W) : Prop := forall st, tables w = (SYSTEM_TABLE w, Some st) -> st_stdout st <> 0.

Lemma try_print_active args w : boot_active w = true -> stdout_present w ->
  try_print ucs2_encode args w = (r ← write_fmt ucs2_encode args; mret (map_err (fun _ => UnwrapFailed) r)) w.
Proof using All.
  intros Ha Ho. unfold try_print. rewrite (fw_bind_Ret _ _ _ _ _ (active_coherent w)), Ha.
  destruct (active_table w Ha) as (st & Hs0 & Est & Hb). rewrite (fw_bind_Ret _ _ _ _ _ (system_table_run w st Hs0 Est)).
  rewrite (proj2 (Z.eqb_neq _ _) Hb), (proj2 (Z.eqb_neq _ _)); [done|]. apply Ho. unfold tables. by rewrite Est.
Qed.

(** What the handler prints. *)
Definition panic_text (info : list (list Z)) : list Z := crlf (PANIC ++ concat info ++ [Logger.LF]).

Lemma panic_pieces info : Forall (Forall body_char) info ->
  Forall (Forall body_char) ([PANIC] ++ info ++ [[Logger.LF]]) /\ crlf (concat ([PANIC] ++ info ++ [[Logger.LF]])) = panic_text info.
Proof.
  intros Hi. split.
  - constructor; [by apply (ascii_accepted _ body_ascii)|]. apply Forall_app. split; [done|].
    constructor; [by apply (ascii_accepted _ body_ascii)|constructor].
  - unfold panic_text. cbn [app concat]. by rewrite concat_app.
Qed.


(** When the console refuses everything, printing the text panics, which calls the
    handler again, without end. *)
Theorem panic_handler_recurses (fuel : nat) (info : list (list Z)) (w : W) :
  Forall (Forall body_char) info -> (forall f, Forall (Forall body_char) (message f)) -> boot_active w = true -> stdout_present w ->
  (forall t w, (efi_output_string t w).1 <> 0 /\ (efi_output_string t w).2 = w) ->
  panic_handler ucs2_encode message fuel info w = NoFuel.
Proof using All.
  intros Hi Hm Ha Ho Hbroken. revert info Hi. induction fuel as [|fuel IH]; intros info Hi; [done|].
  destruct (panic_pieces info Hi) as [Hb Et]. destruct (write_fmt_runs ucs2_encode encode_bmp _ w Hb) as (r & w1 & E & out & rest & Hp & Ec & Hr).
  assert (w1 = w) as ->.
  { symmetry. eapply (write_fmt_stable eq); [|exact E]. intros t v. by rewrite (proj2 (Hbroken t v)). }
  assert (r = Err tt) as ->.
  { destruct r as [[]|[]]; [|done]. cbn in Hr. subst rest. exfalso. destruct Hp as (pieces & Ep & Eo & _).
    assert (pieces = []) as -> by (destruct pieces; [done|apply (f_equal length) in Ep; rewrite length_app in Ep; cbn in Ep; lia]).
    cbn in Eo. subst out. rewrite Et in Ec. discriminate Ec. }
  cbn [panic_handler]. rewrite (fw_bind_Ret _ _ w (Err UnwrapFailed) w); [by apply IH|].
  rewrite try_print_active by done. by rewrite (fw_bind_Ret _ _ _ _ _ E).
Qed.
End properties.

(** ** A machine with a console that works, or one that does not *)
Module Desk.
Record world (broken : bool) : Type := mkWorld { active : bool; cell : Z; installed : bool; strings : list (list Z) }.
Arguments mkWorld {broken} active cell installed strings.
Arguments active {broken} _.
Arguments cell {broken} _.
Arguments installed {broken} _.
Arguments strings {broken} _.

Section machine.
Context {broken : bool}.
Abbreviation W := (world broken).

Definition table (w : W) : SystemTable :=
  mkSystemTable 0 0 0 0 0 8 8 0 0 24 (if active w then 16 else 0) 0 0.

#[global] Instance memory : SystemMemory W := {|
  SYSTEM_TABLE _ := 64;
  store_SYSTEM_TABLE _ w := w;
  table_at p w := if p =? 64 then Some (table w) else None;
  entries_at _ _ := [];
  units_at _ _ := [];
  log_debug w := w;
|}.
#[global] Instance boot : BootServices W := inert_boot active.
#[global] Instance protocols : ProtocolServices W := inert_protocols (fun _ _ _ w => ((Status.UNSUPPORTED, 0), w)) (fun _ _ w => (Status.UNSUPPORTED, w)).
#[global] Instance events : EventServices W := inert_events (fun _ w => (0, w)).
#[global] Instance console : ConsoleServices W := inert_console (fun t w =>
  if broken then (Status.DEVICE_ERROR, w) else (0, mkWorld (active w) (cell w) (installed w) (strings w ++ [t]))).
#[global] Instance runtime : RuntimeServices W := {|
  runtime_active _ := true;
  rt_revision _ := EFI_2_00;
  efi_get_time _ w := ((Status.UNSUPPORTED, mkTime 0 0 0 0 0 0 0 0 0 0 0, mkTimeCapabilities 0 0 0), w);
  efi_set_time _ w := (Status.UNSUPPORTED, w);
  efi_get_variable _ _ _ w := ((Status.UNSUPPORTED, 0, 0, []), w);
  efi_get_next_variable_name _ _ _ w := ((Status.UNSUPPORTED, 0, [], 0), w);
  efi_set_variable _ _ _ _ w := (Status.UNSUPPORTED, w);
  efi_query_variable_info _ w := ((Status.UNSUPPORTED, mkVariableStorageInfo 0 0 0), w);
  efi_update_capsule _ _ _ w := (Status.UNSUPPORTED, w);
  efi_query_capsule_capabilities _ _ w := ((Status.UNSUPPORTED, mkCapsuleInfo 0 0), w);
  efi_set_virtual_address_map _ _ _ _ w := (Status.UNSUPPORTED, w);
  Runtime.set_system_table _ w := w;
|}.
#[global] Instance exit_services : ExitServices W := {|
  efi_exit_boot_services _ _ w := (Status.UNSUPPORTED, w);
  logger_cell := cell;
  set_logger_cell x w := mkWorld (active w) x (installed w) (strings w);
  log_output _ w := w;
|}.
#[global] Instance log_crate : LogCrate W := {|
  log_set_logger w := if installed w then (Err tt, w) else (Ok tt, mkWorld (active w) (cell w) true (strings w));
  log_set_max_level w := w;
  log_error w := w;
|}.

End machine.

#[global, refine] Instance printer {broken} : PrinterLaws (world broken) := {| printed := strings |}.
Proof. destruct broken; intros t [] s w' _; cbn; intros [= <- <-]; [by rewrite app_nil_r|done]. Defined.

#[global] Instance laws {broken} : HelperLaws (world broken).
Proof.
  split; try by intros.
  - by intros [[] ? ? ?].
  - by intros [[] ? ? ?] st [= <-].
  - by destruct broken.
  - by intros [? ? [] ?].
Qed.

Lemma accepts_all : ~ refuses (W := world false).
Proof. by intros (t & w & s & w' & _ & [= <- _] & Hs). Qed.

Definition INFO : list Z := [73; 78; 70; 79].
End Desk.

(** "INFO" records of two lines. *)
Lemma log_spec_witness :
  exists w1 w2 ls, init (Desk.mkWorld (broken := false) true 0 false []) = Ret (Ok tt, w1) /\
    log Terminal.ucs2_encode (mkLogRecord Desk.INFO [[65; 10]; [66]] None None) w1 = Ret (tt, w2) /\
    screen w2 = crlf (concat (map show_line ls)) /\ concat (map line_text ls) = [65; 10; 66; 10].
Proof.
  destruct (log_spec Terminal.ucs2_encode (fun _ _ => eq_refl) (Desk.table (Desk.mkWorld (broken := false) true 0 false []))
    (mkLogRecord Desk.INFO [[65; 10]; [66]] None None) (Desk.mkWorld (broken := false) true 0 false []))
    as (w1 & E1 & [_ Hs] & (w2 & E2 & Hw) & _); [done..|by_decide|].
  destruct (Hw Desk.accepts_all) as (ls & Hscr & _ & Ht). exists w1, w2, ls. do 2 (split; [done|]). split; [|exact Ht].
  rewrite Hscr. unfold screen. rewrite Hs. done.
Defined.


Lemma panic_handler_recurses_witness :
  panic_handler Terminal.ucs2_encode (fun _ => [[121]]) 1000 [[120]] (Desk.mkWorld (broken := true) true 0 false []) = NoFuel.
Proof.
  apply (panic_handler_recurses Terminal.ucs2_encode (fun _ _ => eq_refl)); [by_decide|intros _; by_decide|done|by intros st [= <-]|done].
Defined.
